(* ===== verification/_CoqProject ===== *)
-Q . S2P
Prelude.v
PyText.v
Clock.v
Json.v
Schema.v
Store.v
CaptureKey.v
Demo.v
Captures.v
CaptureFacts.v
CaptureInbox.v
InboxPages.v
InboxTheorems.v
Activation.v
ActivationFacts.v
ActivationTheorems.v
Schedules.v
ScheduleTheorems.v
Threads.v
ThreadFacts.v
ThreadTheorems.v
Ledger.v
LedgerFacts.v
LedgerRuns.v
LedgerTheorems.v
Runs.v
RuntimeActions.v
PinReleases.v
RuntimeFacts.v
PinFacts.v
RunClosing.v
ClosingFacts.v
RuntimeSessions.v
RuntimeTheorems.v
ClosingTheorems.v
Resources.v
ResourceTheorems.v
Dispatch.v
RuntimeEvents.v
Decisions.v
Recoveries.v
RunRestart.v
RunLife.v
RunCalls.v
RunSteps.v
QueueSteps.v
LifeSessions.v
RunTables.v
LifeTheorems.v
RunTableTheorems.v
DispatchTheorems.v
EventTheorems.v
Transport.v
TransportLedger.v
TransportInbox.v
TransportSteps.v
TransportInvariant.v
TransportReadback.v
TransportTheorems.v
ArtifactModels.v
ArtifactDocuments.v
Materializer.v
MaterializerFacts.v
MaterializerSessions.v
MaterializerOwners.v
MaterializerCrash.v
MaterializerTheorems.v
Registry.v
Evidence.v
Health.v
RegistryFacts.v
EvidenceFacts.v
RegistryTheorems.v
