(* ===== verification/Prelude.v ===== *)
(** * The Cortex control plane, verified

    A development beside [src/cortex_platform/product/], the Python product
    backend of Cortex.  It models the control store ([control/store.py] over the
    SQLite schema of [control/schema.py]), the registry of what the deployment has
    ([control/registry.py]: approvals, gates, asset roots, connectors, backup proofs,
    health), the transport ledger
    ([control/transport.py], [control/transport_store.py]), the managed worker's
    operation ledger ([runtime_update/operation_ledger.py], whose text is repeated in
    [runtime_update/worker_payload/cortex_worker/ledger.py]) and the documents and the
    publication of artifacts ([artifacts/models.py], [artifacts/materializer.py]).

    ** How the program is put together

    [ControlStore] is one class over one SQLite file.  Every command opens a
    transaction, looks for an idempotency receipt of the caller's key, checks its
    arguments and the optimistic revision of what it changes, writes rows, an
    audit or event row, and the receipt of its answer.  The HTTP API, the
    orchestration service and the schedulers call it; workers take leased claims
    from its queues and settle them.  A worker keeps its own append-only ledger
    so that an operation is neither lost nor repeated across a crash.  A transport
    freezes what it will send before it sends it.  The bytes of an artifact are
    published under an asset root by a protocol of manifests and links.

    ** Files

    - [Prelude]: the state-and-error monad [M] with its equations, tactics
      ([mgo], [mcase]) and hint databases; lists, sorting.
    - [PyText], [Clock], [Json]: the Python text operations, [datetime] with its
      ISO text, and [json.dumps] / [json.loads] the commands rely on, with the
      round trips of texts, times and documents.
    - [Schema]: one record per table, the CHECK clauses as boolean functions, the
      database as a record of finite maps and lists.
    - [Store]: the class's shared machinery: clock, identifiers, [_transaction],
      [_receipt], [_save_receipt], [_audit], [_required_text],
      [_expect_revision]; [command] composes them.  [Replayable] is the contract a
      command offers its callers; [journal_le] orders stores by their receipts
      and audit trail.
    - [CaptureKey], [Captures]: [_capture_shape] and the capture inbox;
      [CaptureFacts], [CaptureInbox], [InboxPages], [InboxTheorems]: its abstract
      state machine, sessions, paging and theorems.
    - [Activation], [ActivationFacts], [ActivationTheorems]: release approvals and
      the runtime and transport gates.
    - [Schedules], [ScheduleTheorems]: research schedules.
    - [Threads], [ThreadFacts], [ThreadTheorems]: workspaces, threads and messages.
    - [Ledger], [LedgerFacts], [LedgerRuns], [LedgerTheorems]: the operation ledger
      over a disk with faults and crashes.
    - [Runs]: the run, attempt and event rows, [_insert_event],
      [_validate_runtime_identity] and the fence of a leased claim.
      [RuntimeActions] is the delivery queue of decisions, pauses and cancels;
      [PinReleases] the release of runtime pins, [RunClosing] the failure of a
      delivery, which closes the open source and artifact work of its run.
      [RuntimeFacts], [PinFacts], [ClosingFacts], [RuntimeSessions],
      [RuntimeTheorems], [ClosingTheorems]: the queue's abstract machine and theorems.
    - [Resources], [ResourceTheorems]: [parse_resource_uri] of [resources.py].
    - [Dispatch] ([create_run], [create_runtime_binding],
      [reserve_attempt_dispatch], [pin_attempt_runtime]), [RuntimeEvents]
      ([transition_run] over [_RUN_TRANSITIONS], messages, checkpoints, the inbox of
      runtime events), [Decisions] ([create_decision], [resolve_decision]),
      [RunRestart] ([fail_unbound_run], [resume_run], [retry_run]): the commands
      that move a run.  [RunLife] is the abstract machine of runs; [RunCalls] a
      specification of commands by what they do to the tables it reads ([leads]);
      [RunSteps] and [QueueSteps] the steps of each command, [LifeSessions]
      sequences of them, [RunTables] what those may do to the messages and to the
      deliveries; [LifeTheorems], [RunTableTheorems], [DispatchTheorems], [EventTheorems].
      [Recoveries] leases the recovery of an attempt whose runtime went away.
    - [Transport]: [control/transport.py], the validation and the hashes of a frozen
      delivery.  [TransportLedger] is [control/transport_store.py]: freezing, the leases
      and outcomes of chunks, the older ledger of whole deliveries, opaque targets;
      [TransportInbox] the bindings and command receipts of [store.py].
      [TransportSteps] gives each command's steps on the ledger, [TransportInvariant]
      the invariant of every reachable ledger, [TransportReadback] the rows a frozen
      delivery keeps; [TransportTheorems].
    - [ArtifactModels]: the closed documents of artifacts, versions, snapshots and
      materialization requests; [ArtifactDocuments]: they are read back as written.
    - [Materializer]: [artifacts/materializer.py] over a file system of names and inodes;
      [MaterializerFacts] what any call leaves as it is, [MaterializerSessions] what an
      answer has put on disk, [MaterializerOwners] what the manifests hold,
      [MaterializerCrash] what a death inside the write of one leaves;
      [MaterializerTheorems].
    - [Registry] (asset roots, connectors), [Evidence] (manifests of protected sets and
      backup proofs, with the checks of [registry.py]) and [Health] (observations):
      the rest of the registry.  [RegistryFacts] says what each command writes,
      [EvidenceFacts] that a row reads back as what was filed; [RegistryTheorems].
    - [Demo]: a concrete clock, identifier factory and digest for the witnesses.

    ** What is modelled how

    A command is a function of the world (the database and how many clock readings
    and identifiers have been taken) that answers or raises; a raise inside a
    transaction restores the database but not the readings.  The clock is any
    function into valid datetimes: nothing assumes that it is monotone, and a
    theorem that needs time to have passed says so.  SHA-256 and the identifier
    factory are parameters; a clash of identifiers raises, as the primary key
    does; an identifier is never the empty text.  SQLite is modelled by its documented behaviour: a transaction is
    serialised, a statement that breaks a CHECK, UNIQUE or foreign key raises.
    TEXT is compared by code point.  A queue's row keeps its lease in a [claim];
    the abstract lives of rows are inductive step relations ([row_move],
    [action_step], [pin_step], [life_step]) and the refinement theorems quantify over all
    sequences of commands, refused ones included.

    The recursion of the model is structural, but for three loops: the reader of
    JSON, whose fuel is computed from the text ([parse_render] shows that it
    suffices for every document the store writes), the reader of inbox pages, whose
    fuel is bounded by the number of rows ([inbox_pages_complete]), and the search up
    the chain of source attempts, whose fuel is the number of attempts
    ([paused_source_total] shows that it never runs out, cycles included).

    ** What the theorems show

    The properties carry their number (C1 to C40, the most important first) in
    their comments.
    - Refinements: the runs, the capture inbox, the release register, the ledger and
      the delivery queue only take the steps of their abstract machines
      ([run_commands_refine_life], [inbox_refines], [release_approval_refines],
      [ledger_refines_map], [action_queue_refines]).
    - Invariants of every reachable state: one live run per thread, deliveries held
      only for the work at hand, a well-formed inbox, contiguous transcripts and
      event logs, deliveries that go out in order ([one_live_run_per_thread],
      [held_delivery_is_current], [inbox_invariant], [transcript_contiguous],
      [run_log_ordered], [delivery_goes_out_in_order]).
    - Safety across any interleaving of commands: what has ended stays ended, claims
      and reservations are exclusive and fenced, an event is applied once, an
      uncertain delivery is never repeated blindly, a pin is released once, a message
      whose sending was permitted is not sent again ([permitted_chunk_not_resent]), a
      button works once ([opaque_target_single_use]), a published file stays
      ([published_bytes_stay]) and belongs to one request ([one_request_per_target]), of
      two updates from one revision one goes through ([one_update_per_revision]).
    - Evidence: a backup proof covers what is registered and stays as it was filed
      ([backup_proof_covers_and_stays]), the latest health observation is the newest
      ([latest_observation_is_newest]).
    - What an end leaves behind: [ended_run_leaves_nothing] for transitions,
      [run_failure_closes_work] for deliveries that fail for good.
    - Idempotency ([inbox_retry_storm]), agreement of a listing with the claims it
      promises ([listed_iff_claimable]), progress ([abandoned_delivery_recovers]),
      termination ([paused_source_total], [inbox_pages_complete]), bounds
      ([telegram_window_bounded]).
    - Round trips: the ledger's file ([ledger_file_round_trip]), resource URIs
      ([resource_uri_canonical]), frozen deliveries ([frozen_delivery_verifies]) and
      artifact documents ([artifact_documents_round_trip]).
    - Nine theorems exhibit behaviour the code does not intend or document:
      [stale_decision_strands_run], [retry_moves_archived_thread],
      [lease_misjudged_within_second], [padded_delivery_never_sent],
      [torn_manifest_wedges], [metric_types_confused], [quarantine_crash_wedges], [failed_append_corrupts],
      [release_replay_is_superseded].

    ** Not modelled

    - Of the commands on runs: [record_runtime_observation] (it writes the Python
      text of arbitrary JSON values) and the installation of a workflow by
      [create_run].  Of the tables of decisions, source intents, imports, waits,
      artifact versions, materializations and workflows only the columns that the
      modelled commands read and write are there.
    - The resolution of source candidates and the leases of imports, which depend on the
      documents of source adapters; the store's commit of artifact versions and their
      lineage; the effects and the coordinator of workflows; research contexts; the
      import of recommendations ([control/xhs_store.py]).
    - The identity of the open store file, computed by the schema module from the
      file and its companion, is a parameter ([StoreIdentity]).
    - List and search queries of workspaces, threads and messages.
    - HTTP routing, the orchestration threads, Telegram, browser and file adapters,
      installation and deployment: input and output around the store.
    - Of the file system: other processes (locks are free, nothing changes between two
      looks at a file), and the loss of what was written but not synced.
    - Python limits that no command reaches by its own checks: the recursion limit
      and the 4300-digit limit of [json], and memory.
    - Text is a sequence of code points up to 255 (a Rocq [string]): wider
      characters are outside the model.  The ledger's files are byte strings;
      they get the mode they are created with (the umask is ignored), and
      reading them does not fail. *)

From stdpp Require Export base gmap strings list sorting.

(** Text concatenation computes on its first argument. *)
#[global] Arguments String.append !s1 s2 : simpl nomatch.

(** ** Stateful computations that may raise

    [M W E A] threads a world [W] and either returns an [A] or raises an [E].
    A raise carries the world it was raised in, so that the rollback a
    transaction performs is a visible operation of the model. *)

Inductive outcome (W E A : Type) : Type :=
| Ok (a : A) (w : W)
| Err (e : E) (w : W).
Arguments Ok {W E A} a w.
Arguments Err {W E A} e w.

Definition M (W E A : Type) : Type := W → outcome W E A.

(** The world a run leaves, answered or raised. *)
Definition end_world {W E A} (o : outcome W E A) : W :=
  match o with Ok _ w | Err _ w => w end.

#[global] Instance M_ret {W E} : MRet (M W E) := λ A a w, Ok a w.
#[global] Instance M_bind {W E} : MBind (M W E) := λ A B f m w,
  match m w with Ok a w' => f a w' | Err e w' => Err e w' end.

Section Monad.
Context {W E : Type}.

Definition raise {A} (e : E) : M W E A := λ w, Err e w.
Definition gets {A} (f : W → A) : M W E A := λ w, Ok (f w) w.
Definition modify (f : W → W) : M W E unit := λ w, Ok tt (f w).
Definition ensure (b : bool) (e : E) : M W E unit :=
  if b then mret tt else raise e.
Definition from_option {A} (o : option A) (e : E) : M W E A :=
  match o with Some a => mret a | None => raise e end.

(** [for x in l: f(x)], collecting the results. *)
Fixpoint map_m {A B} (f : A → M W E B) (l : list A) : M W E (list B) :=
  match l with
  | [] => mret []
  | a :: l' => b ← f a; bs ← map_m f l'; mret (b :: bs)
  end.

Lemma bind_ok {A B} (m : M W E A) (f : A → M W E B) w b w' :
  (m ≫= f) w = Ok b w' ↔ ∃ a w1, m w = Ok a w1 ∧ f a w1 = Ok b w'.
Proof.
  unfold mbind, M_bind. destruct (m w); naive_solver.
Qed.
Lemma bind_err {A B} (m : M W E A) (f : A → M W E B) w e w' :
  (m ≫= f) w = Err e w' ↔
  m w = Err e w' ∨ ∃ a w1, m w = Ok a w1 ∧ f a w1 = Err e w'.
Proof.
  unfold mbind, M_bind. destruct (m w); naive_solver.
Qed.
(** Running the first step of a bind. *)
Lemma bind_run {A B} (m : M W E A) (f : A → M W E B) w a w' :
  m w = Ok a w' → (m ≫= f) w = f a w'.
Proof. unfold mbind, M_bind. by intros ->. Qed.
Lemma bind_run_err {A B} (m : M W E A) (f : A → M W E B) w e w' :
  m w = Err e w' → (m ≫= f) w = Err e w'.
Proof. unfold mbind, M_bind. by intros ->. Qed.
Lemma ret_ok {A} (a b : A) (w w' : W) :
  (mret a : M W E A) w = Ok b w' ↔ a = b ∧ w = w'.
Proof. unfold mret, M_ret. naive_solver. Qed.
Lemma ret_err {A} (a : A) (w w' : W) e :
  (mret a : M W E A) w = Err e w' ↔ False.
Proof. unfold mret, M_ret. naive_solver. Qed.
Lemma raise_ok {A} (e : E) (b : A) w w' : raise e w = Ok b w' ↔ False.
Proof. unfold raise. naive_solver. Qed.
Lemma raise_err {A} (e e' : E) w w' :
  (raise e : M W E A) w = Err e' w' ↔ e = e' ∧ w = w'.
Proof. unfold raise. naive_solver. Qed.
Lemma gets_ok {A} (f : W → A) b w w' :
  (gets f : M W E A) w = Ok b w' ↔ b = f w ∧ w' = w.
Proof. unfold gets. naive_solver. Qed.
Lemma gets_err {A} (f : W → A) e w w' :
  (gets f : M W E A) w = Err e w' ↔ False.
Proof. unfold gets. naive_solver. Qed.
Lemma modify_ok (f : W → W) u w w' :
  (modify f : M W E unit) w = Ok u w' ↔ u = tt ∧ w' = f w.
Proof. unfold modify. destruct u. naive_solver. Qed.
Lemma modify_err (f : W → W) e w w' :
  (modify f : M W E unit) w = Err e w' ↔ False.
Proof. unfold modify. naive_solver. Qed.
Lemma ensure_ok b (e : E) u (w w' : W) :
  ensure b e w = Ok u w' ↔ b = true ∧ u = tt ∧ w' = w.
Proof. unfold ensure, raise, mret, M_ret. destruct b, u; naive_solver. Qed.
Lemma ensure_err b (e e' : E) (w w' : W) :
  ensure b e w = Err e' w' ↔ b = false ∧ e' = e ∧ w' = w.
Proof. unfold ensure, raise, mret, M_ret. destruct b; naive_solver. Qed.
Lemma from_option_ok {A} (o : option A) (e : E) b (w w' : W) :
  from_option o e w = Ok b w' ↔ o = Some b ∧ w' = w.
Proof. unfold from_option, raise, mret, M_ret. destruct o; naive_solver. Qed.
Lemma from_option_err {A} (o : option A) (e e' : E) (w w' : W) :
  from_option o e w = Err e' w' ↔ o = None ∧ e' = e ∧ w' = w.
Proof. unfold from_option, raise, mret, M_ret. destruct o; naive_solver. Qed.

(** A computation that leaves a view of the world as it found it. *)
Definition keeps {V A} (view : W → V) (m : M W E A) : Prop :=
  ∀ w, view (end_world (m w)) = view w.

Lemma keeps_ok {V A} (view : W → V) (m : M W E A) w a w' :
  keeps view m → m w = Ok a w' → view w' = view w.
Proof. intros Hk Hm. specialize (Hk w). by rewrite Hm in Hk. Qed.
Lemma keeps_bind {V A B} (view : W → V) (m : M W E A) (f : A → M W E B) :
  keeps view m → (∀ a, keeps view (f a)) → keeps view (m ≫= f).
Proof.
  intros Hm Hf w. specialize (Hm w). unfold mbind, M_bind.
  destruct (m w) as [a w1 | e w1]; [|done]. simpl in *. by rewrite <- Hm, <- (Hf a w1).
Qed.
Lemma keeps_ret {V A} (view : W → V) (a : A) : keeps view (mret a : M W E A).
Proof. done. Qed.
Lemma keeps_raise {V A} (view : W → V) (e : E) : keeps view (raise e : M W E A).
Proof. done. Qed.
Lemma keeps_gets {V A} (view : W → V) (f : W → A) : keeps view (gets f : M W E A).
Proof. done. Qed.
Lemma keeps_ensure {V} (view : W → V) b (e : E) : keeps view (ensure b e).
Proof. by destruct b. Qed.
Lemma keeps_from_option {V A} (view : W → V) (o : option A) (e : E) :
  keeps view (from_option o e).
Proof. by destruct o. Qed.
Lemma keeps_map_m {V A B} (view : W → V) (f : A → M W E B) l :
  (∀ a, keeps view (f a)) → keeps view (map_m f l).
Proof.
  intros Hf. induction l as [|a l IH]; simpl; [apply keeps_ret|].
  apply keeps_bind; [done|]. intros b. apply keeps_bind; [done|]. intros. apply keeps_ret.
Qed.

(** A computation that reads nothing of the world: an argument check. *)
Definition pure {A} (m : M W E A) : Prop :=
  (∃ a, ∀ w, m w = Ok a w) ∨ (∃ e, ∀ w, m w = Err e w).
Lemma pure_ret {A} (a : A) : pure (mret a).
Proof. left. by exists a. Qed.
Lemma pure_raise {A} (e : E) : pure (raise e : M W E A).
Proof. right. by exists e. Qed.
Lemma pure_ensure b (e : E) : pure (ensure b e).
Proof. destruct b; [left|right]; by eexists. Qed.
Lemma pure_from_option {A} (o : option A) (e : E) : pure (from_option o e).
Proof. destruct o; [left|right]; by eexists. Qed.
Lemma pure_bind {A B} (m : M W E A) (f : A → M W E B) :
  pure m → (∀ a, pure (f a)) → pure (m ≫= f).
Proof.
  unfold pure, mbind, M_bind. intros [[a Hm] | [e Hm]] Hf; setoid_rewrite Hm; [apply Hf|].
  right. by exists e.
Qed.
Lemma pure_map_m {A B} (f : A → M W E B) l : (∀ a, pure (f a)) → pure (map_m f l).
Proof.
  intros Hf. induction l as [|a l IH]; simpl; [apply pure_ret|].
  apply pure_bind; [done|]. intros b. apply pure_bind; [done|]. intros. apply pure_ret.
Qed.

(** A computation whose runs, answered or raised, move the world along [R]. *)
Definition evolves {A} (R : W → W → Prop) (m : M W E A) : Prop :=
  ∀ w, R w (end_world (m w)).

Section Evolves.
Context (R : W → W → Prop) `{!PreOrder R}.

Lemma evolves_bind {A B} (m : M W E A) (f : A → M W E B) :
  evolves R m → (∀ a, evolves R (f a)) → evolves R (m ≫= f).
Proof.
  intros Hm Hf w. specialize (Hm w). unfold mbind, M_bind.
  destruct (m w) as [a w1 | e w1]; [|done]. etrans; [exact Hm|apply Hf].
Qed.
(** The rest of a bind only has to evolve from what the first step answers. *)
Lemma evolves_then {A B} (m : M W E A) (f : A → M W E B) :
  evolves R m → (∀ w a w1, m w = Ok a w1 → evolves R (f a)) → evolves R (m ≫= f).
Proof.
  intros Hm Hf w. specialize (Hm w). unfold mbind, M_bind.
  destruct (m w) as [a w1 | e w1] eqn:Em; [|done]. etrans; [exact Hm|]. exact (Hf w a w1 Em w1).
Qed.
Lemma evolves_ret {A} (a : A) : evolves R (mret a : M W E A).
Proof. intros w. simpl. reflexivity. Qed.
Lemma evolves_raise {A} (e : E) : evolves R (raise e : M W E A).
Proof. intros w. simpl. reflexivity. Qed.
Lemma evolves_gets {A} (f : W → A) : evolves R (gets f : M W E A).
Proof. intros w. simpl. reflexivity. Qed.
Lemma evolves_ensure b (e : E) : evolves R (ensure b e).
Proof. intros w. destruct b; simpl; reflexivity. Qed.
Lemma evolves_from_option {A} (o : option A) (e : E) : evolves R (from_option o e).
Proof. intros w. destruct o; simpl; reflexivity. Qed.
Lemma evolves_modify (f : W → W) : (∀ w, R w (f w)) → evolves R (modify f : M W E unit).
Proof. done. Qed.
Lemma evolves_map_m {A B} (f : A → M W E B) l :
  (∀ a, evolves R (f a)) → evolves R (map_m f l).
Proof.
  intros Hf. induction l as [|a l IH]; simpl; [apply evolves_ret|].
  apply evolves_bind; [done|]. intros b. apply evolves_bind; [done|]. intros.
  apply evolves_ret.
Qed.
Lemma evolves_ok {A} (m : M W E A) w a w' : evolves R m → m w = Ok a w' → R w w'.
Proof. intros Hk Hm. specialize (Hk w). by rewrite Hm in Hk. Qed.
End Evolves.
End Monad.

(** The steps that keep every view resolve by [eauto with keeps]. *)
Create HintDb keeps.
#[export] Hint Resolve keeps_bind keeps_ret keeps_raise keeps_gets keeps_ensure
  keeps_from_option keeps_map_m : keeps.

Create HintDb pure.
#[export] Hint Resolve pure_ret pure_raise pure_ensure pure_from_option pure_bind
  pure_map_m : pure.
Create HintDb evolves.
#[export] Hint Resolve evolves_bind evolves_ret evolves_raise evolves_gets evolves_ensure
  evolves_from_option evolves_map_m : evolves.

(** The equations of the monad's primitive steps, one rewriting database. *)
Create Rewrite HintDb monad.
#[export] Hint Rewrite @ret_ok @ret_err @raise_ok @raise_err @gets_ok @gets_err
  @modify_ok @modify_err @ensure_ok @ensure_err @from_option_ok
  @from_option_err : monad.

(** [mgo] turns every run in the context into the facts that make it so: binds
    are split into their two runs, primitive steps into equations. *)
Ltac mgo_step :=
  match goal with
  | H : (_ ≫= _) _ = Ok _ _ |- _ =>
      apply bind_ok in H; destruct H as (? & ? & ? & H); cbn beta iota in H
  | H : (_ ≫= _) _ = Err _ _ |- _ =>
      apply bind_err in H; destruct H as [H | (? & ? & ? & H)]; cbn beta iota in H
  | H : ?m ?w = Ok _ _ |- _ => progress (autorewrite with monad in H)
  | H : ?m ?w = Err _ _ |- _ => progress (autorewrite with monad in H)
  | H : ∃ _, _ |- _ => destruct H
  | H : _ ∧ _ |- _ => destruct H
  | H : False |- _ => destruct H
  | x : unit |- _ => destruct x
  | H : @eq ?T ?x ?y |- _ => (is_var x; subst x) || (is_var y; subst y)
  end.
Ltac mgo := repeat mgo_step.

(** [mcase] also follows every branch a run may have taken. *)
Ltac mcase_step :=
  match goal with
  | H : context [match ?x with _ => _ end] |- _ =>
      lazymatch type of H with
      | _ = Ok _ _ => destruct x eqn:?
      | _ = Err _ _ => destruct x eqn:?
      end
  end.
Ltac mcase := repeat first [mgo_step | progress simplify_eq/= | mcase_step]; try done.

(** [lia] with quotients and remainders by constants. *)
Ltac dlia := Z.to_euclidean_division_equations; lia.

(** ** Filtering by a boolean test, as [WHERE] does *)

Lemma filter_filter {A} (f g : A → bool) l :
  List.filter f (List.filter g l) = List.filter (λ x, g x && f x) l.
Proof.
  induction l as [|a l IH]; simpl; [done|]. destruct (g a); simpl; [|done].
  by rewrite IH.
Qed.
Lemma filter_ext_bool {A} (f g : A → bool) l :
  (∀ x, f x = g x) → List.filter f l = List.filter g l.
Proof. intros H. induction l as [|a l IH]; simpl; [done|]. by rewrite H, IH. Qed.

(** ** Related lists, and a change at a known key *)

Lemma Forall2_in_r {A B} (P : A → B → Prop) l k y :
  Forall2 P l k → y ∈ k → ∃ x, x ∈ l ∧ P x y.
Proof.
  induction 1 as [|x y' l k Hp _ IH]; intros Hy; [by apply not_elem_of_nil in Hy|].
  apply elem_of_cons in Hy as [-> | Hy]; [exists x; split; [left|done]|].
  destruct (IH Hy) as (z & Hz & Hpz). exists z. split; [by right|done].
Qed.
Lemma Forall2_in_l {A B} (P : A → B → Prop) l k x :
  Forall2 P l k → x ∈ l → ∃ y, y ∈ k ∧ P x y.
Proof. intros Hf Hx. apply (Forall2_in_r (flip P) k l x); [by apply Forall2_flip|done]. Qed.
Lemma alter_known {A} (f : A → A) (m : gmap string A) i x :
  m !! i = Some x → alter f i m = <[i := f x]> m.
Proof.
  intros Hi. apply map_eq. intros j. destruct (decide (i = j)) as [<- | Hne].
  - by rewrite lookup_alter_eq, lookup_insert_eq, Hi.
  - by rewrite lookup_alter_ne, lookup_insert_ne.
Qed.

(** ** Sorting by a boolean order, as [ORDER BY] and [sorted] do *)

Section Sort.
Context {A : Type} (le : A → A → bool).

Fixpoint insert_by (a : A) (l : list A) : list A :=
  match l with
  | [] => [a]
  | b :: l' => if le a b then a :: b :: l' else b :: insert_by a l'
  end.
Fixpoint isort (l : list A) : list A :=
  match l with [] => [] | a :: l' => insert_by a (isort l') end.

Lemma insert_by_perm a l : insert_by a l ≡ₚ a :: l.
Proof.
  induction l as [|b l IH]; simpl; [done|]. destruct (le a b); [done|].
  rewrite IH. apply Permutation_swap.
Qed.
Lemma isort_perm l : isort l ≡ₚ l.
Proof. induction l as [|a l IH]; simpl; [done|]. by rewrite insert_by_perm, IH. Qed.
Lemma elem_of_isort a l : a ∈ isort l ↔ a ∈ l.
Proof. by rewrite isort_perm. Qed.

Context (le_total : ∀ a b, le a b = false → le b a = true)
  (le_trans : ∀ a b c, le a b = true → le b c = true → le a c = true).

Lemma insert_by_sorted a l :
  StronglySorted (λ a b, le a b = true) l →
  StronglySorted (λ a b, le a b = true) (insert_by a l).
Proof.
  induction 1 as [|b l Hl IH Hb]; simpl; [by repeat constructor|].
  destruct (le a b) eqn:E.
  - constructor; [by constructor|]. constructor; [done|].
    eapply Forall_impl; [exact Hb|]. intros c Hc. by eapply le_trans.
  - constructor; [done|]. rewrite insert_by_perm. constructor; [by apply le_total|done].
Qed.
Lemma isort_sorted l : StronglySorted (λ a b, le a b = true) (isort l).
Proof. induction l as [|a l IH]; simpl; [constructor|]. by apply insert_by_sorted. Qed.
End Sort.
