(* ===== verification/PyText.v ===== *)
(** * Text

    A Python [str] is a [string] whose characters are its code points; the
    model covers the code points 0 to 255 (one [ascii] each), on which the
    string methods the sources call are defined exactly as CPython defines
    them.  A [bytes] value is a [string] of bytes.  This file also holds the
    fixed-width decimal fields that timestamps are made of. *)

From Stdlib Require Import Ascii.
From S2P Require Import Prelude.
Open Scope Z_scope.

Definition ord (c : ascii) : Z := Z.of_N (N_of_ascii c).
Definition chr (n : Z) : ascii := ascii_of_N (Z.to_N n).

Definition slen (s : string) : Z := Z.of_nat (String.length s).

Fixpoint str_all (p : ascii → bool) (s : string) : bool :=
  match s with
  | EmptyString => true
  | String c s' => p c && str_all p s'
  end.

Fixpoint str_map (f : ascii → ascii) (s : string) : string :=
  match s with
  | EmptyString => EmptyString
  | String c s' => String (f c) (str_map f s')
  end.

Definition str_has (c : ascii) (s : string) : bool :=
  negb (str_all (λ d, negb (Ascii.eqb c d)) s).

Fixpoint str_take (n : nat) (s : string) : string :=
  match n, s with
  | S n', String c s' => String c (str_take n' s')
  | _, _ => EmptyString
  end.

Fixpoint str_drop (n : nat) (s : string) : string :=
  match n, s with
  | S n', String _ s' => str_drop n' s'
  | _, _ => s
  end.

(** [s.partition(c)]: what precedes the first [c], whether there is one, and
    what follows it. *)
Fixpoint partition (c : ascii) (s : string) : string * bool * string :=
  match s with
  | EmptyString => (EmptyString, false, EmptyString)
  | String d s' =>
      if Ascii.eqb d c then (EmptyString, true, s')
      else let '(b, f, a) := partition c s' in (String d b, f, a)
  end.

(** [s.rpartition(c)]: the same around the last [c]; without one, Python
    returns the whole text as the last part. *)
Fixpoint rpartition (c : ascii) (s : string) : string * bool * string :=
  match s with
  | EmptyString => (EmptyString, false, EmptyString)
  | String d s' =>
      let '(b, f, a) := rpartition c s' in
      if f then (String d b, true, a)
      else if Ascii.eqb d c then (EmptyString, true, a)
      else (EmptyString, false, String d a)
  end.

(** [str.isspace] on one code point. *)
Definition is_space (c : ascii) : bool :=
  let n := ord c in
  ((9 <=? n) && (n <=? 13)) || ((28 <=? n) && (n <=? 32)) || (n =? 133) || (n =? 160).

Fixpoint lstrip (s : string) : string :=
  match s with
  | String c s' => if is_space c then lstrip s' else s
  | EmptyString => EmptyString
  end.
Fixpoint rstrip (s : string) : string :=
  match s with
  | EmptyString => EmptyString
  | String c s' =>
      match rstrip s' with
      | EmptyString => if is_space c then EmptyString else String c EmptyString
      | r => String c r
      end
  end.
Definition strip (s : string) : string := rstrip (lstrip s).

(** [str.lower]: the Latin capital letters move by 32. *)
Definition is_upper (c : ascii) : bool :=
  let n := ord c in
  ((65 <=? n) && (n <=? 90)) || ((192 <=? n) && (n <=? 214))
  || ((216 <=? n) && (n <=? 222)).
Definition lower_char (c : ascii) : ascii :=
  if is_upper c then chr (ord c + 32) else c.
Definition lower (s : string) : string := str_map lower_char s.

(** Character classes of the regular expressions. *)
Definition is_digit (c : ascii) : bool := (48 <=? ord c) && (ord c <=? 57).
Definition is_az (c : ascii) : bool := (97 <=? ord c) && (ord c <=? 122).
Definition is_AZ (c : ascii) : bool := (65 <=? ord c) && (ord c <=? 90).
Definition is_alnum (c : ascii) : bool := is_digit c || is_az c || is_AZ c.
Definition one_of (cs : string) (c : ascii) : bool := str_has c cs.

(** [re.fullmatch(r"[first][rest]{lo,hi}", s)]. *)
Definition fullmatch (first rest : ascii → bool) (lo hi : Z) (s : string) : bool :=
  match s with
  | EmptyString => false
  | String c s' => first c && str_all rest s' && (lo <=? slen s') && (slen s' <=? hi)
  end.

(** [re.fullmatch(r"[0-9a-f]{64}", s)]. *)
Definition is_hex (c : ascii) : bool :=
  is_digit c || ((97 <=? ord c) && (ord c <=? 102)).
Definition is_sha256 (s : string) : bool := str_all is_hex s && (slen s =? 64).

(** Text order: SQLite's BINARY collation and Python's [str] order. *)
Definition str_le (a b : string) : bool := String.leb a b.
Definition str_lt (a b : string) : bool := String.ltb a b.

(** Fixed-width decimal fields, [f"{n:0{w}d}"] for [0 <= n < 10 ** w]. *)
Definition digit (n : Z) : ascii := chr (48 + n).
Fixpoint pad (w : nat) (n : Z) : string :=
  match w with
  | O => EmptyString
  | S w' => pad w' (n / 10) +:+ String (digit (n mod 10)) EmptyString
  end.

(** Reads one given character. *)
Definition read_char (c : ascii) (s : string) : option string :=
  match s with
  | String d s' => if Ascii.eqb d c then Some s' else None
  | EmptyString => None
  end.

(** Reads exactly [w] digits. *)
Fixpoint read_digits (w : nat) (acc : Z) (s : string) : option (Z * string) :=
  match w with
  | O => Some (acc, s)
  | S w' =>
      match s with
      | String c s' =>
          if is_digit c then read_digits w' (10 * acc + (ord c - 48)) s' else None
      | EmptyString => None
      end
  end.

(** ** Lemmas *)

Lemma str_app_nil_r (s : string) : s +:+ "" = s.
Proof. induction s; simpl; congruence. Qed.
Lemma str_app_assoc (a b c : string) : (a +:+ b) +:+ c = a +:+ (b +:+ c).
Proof. induction a; simpl; congruence. Qed.
Lemma str_app_length (a b : string) :
  String.length (a +:+ b) = (String.length a + String.length b)%nat.
Proof. induction a; simpl; congruence. Qed.
Lemma slen_app a b : slen (a +:+ b) = slen a + slen b.
Proof. unfold slen. rewrite str_app_length. lia. Qed.
Lemma slen_nonneg s : 0 <= slen s.
Proof. unfold slen. lia. Qed.

Lemma str_all_app p a b : str_all p (a +:+ b) = str_all p a && str_all p b.
Proof. induction a; simpl; [done|]. by rewrite IHa, andb_assoc. Qed.
Lemma str_all_impl (p q : ascii → bool) s :
  (∀ c, p c = true → q c = true) → str_all p s = true → str_all q s = true.
Proof.
  intros Hpq. induction s; simpl; [done|]. rewrite !andb_true_iff. naive_solver.
Qed.

Lemma str_map_app f a b : str_map f (a +:+ b) = str_map f a +:+ str_map f b.
Proof. induction a; simpl; congruence. Qed.
Lemma str_map_length f s : String.length (str_map f s) = String.length s.
Proof. induction s; simpl; congruence. Qed.
Lemma str_map_map f g s : str_map f (str_map g s) = str_map (λ c, f (g c)) s.
Proof. induction s; simpl; congruence. Qed.
Lemma str_map_ext f g s : (∀ c, f c = g c) → str_map f s = str_map g s.
Proof. intros H. induction s; simpl; congruence. Qed.

Lemma str_take_drop n s : str_take n s +:+ str_drop n s = s.
Proof. revert s. induction n; intros [|]; simpl; try done. by rewrite IHn. Qed.
Lemma str_take_app a b : str_take (String.length a) (a +:+ b) = a.
Proof. induction a; simpl; [by destruct b|congruence]. Qed.
Lemma str_drop_app a b : str_drop (String.length a) (a +:+ b) = b.
Proof. induction a; simpl; [by destruct b|congruence]. Qed.

Lemma ord_range c : 0 <= ord c < 256.
Proof. unfold ord. pose proof (N_ascii_bounded c). lia. Qed.
Lemma ord_chr n : 0 <= n < 256 → ord (chr n) = n.
Proof. intros H. unfold ord, chr. rewrite N_ascii_embedding; lia. Qed.
Lemma chr_ord c : chr (ord c) = c.
Proof. unfold ord, chr. rewrite N2Z.id. apply ascii_N_embedding. Qed.
Lemma ord_inj c d : ord c = ord d → c = d.
Proof. intros H. by rewrite <- (chr_ord c), H, chr_ord. Qed.

Lemma lower_char_idemp c : lower_char (lower_char c) = lower_char c.
Proof. destruct c as [[] [] [] [] [] [] [] []]; reflexivity. Qed.
Lemma lower_idemp s : lower (lower s) = lower s.
Proof. unfold lower. rewrite str_map_map. apply str_map_ext, lower_char_idemp. Qed.
Lemma lower_app a b : lower (a +:+ b) = lower a +:+ lower b.
Proof. apply str_map_app. Qed.

Lemma partition_spec c s b f a :
  partition c s = (b, f, a) →
  s = b +:+ (if f then String c a else a) ∧ (f = false → a = EmptyString).
Proof.
  revert b f a. induction s as [|d s IH]; simpl; intros b f a Hp; [naive_solver|].
  destruct (Ascii.eqb_spec d c) as [->|Hne]; [naive_solver|].
  destruct (partition c s) as [[b' f'] a'] eqn:E. simplify_eq.
  destruct (IH _ _ _ eq_refl) as [-> Ha]. done.
Qed.
Lemma rpartition_spec c s b f a :
  rpartition c s = (b, f, a) →
  s = b +:+ (if f then String c a else a) ∧ (f = false → b = EmptyString).
Proof.
  revert b f a. induction s as [|d s IH]; simpl; intros b f a Hp; [naive_solver|].
  destruct (rpartition c s) as [[b' f'] a'] eqn:E.
  destruct (IH _ _ _ eq_refl) as [-> Hb].
  destruct f'; simplify_eq; [done|].
  rewrite (Hb eq_refl). destruct (Ascii.eqb_spec d c); naive_solver.
Qed.

(** ** Fixed-width fields *)

Lemma is_digit_digit n : 0 <= n < 10 → is_digit (digit n) = true.
Proof. intros H. unfold is_digit, digit. rewrite ord_chr; lia. Qed.

Lemma digit_compare x y :
  0 <= x < 10 → 0 <= y < 10 → Ascii.compare (digit x) (digit y) = (x ?= y).
Proof.
  intros Hx Hy. unfold Ascii.compare, digit, chr.
  rewrite !N_ascii_embedding by lia. rewrite !Z2N.inj_compare by lia.
  destruct (Z.compare_spec (48 + x) (48 + y)), (Z.compare_spec x y); lia || done.
Qed.

Lemma div10_bound (w : nat) n :
  0 <= n < 10 ^ Z.of_nat (S w) → 0 <= n / 10 < 10 ^ Z.of_nat w ∧ 0 <= n mod 10 < 10.
Proof.
  rewrite Nat2Z.inj_succ, Z.pow_succ_r by lia. intros H.
  split; [split; [apply Z.div_pos; lia | apply Z.div_lt_upper_bound; lia] |].
  apply Z.mod_pos_bound; lia.
Qed.

(** Equal-width decimal fields compare as the numbers they spell. *)
Lemma pad_compare w a b s t :
  0 <= a < 10 ^ Z.of_nat w → 0 <= b < 10 ^ Z.of_nat w →
  String.compare (pad w a +:+ s) (pad w b +:+ t) =
  match a ?= b with Eq => String.compare s t | c => c end.
Proof.
  revert a b s t. induction w as [|w IH]; intros a b s t Ha Hb.
  - change (10 ^ Z.of_nat 0) with 1 in *. assert (a = 0) as -> by lia.
    by assert (b = 0) as -> by lia.
  - destruct (div10_bound w a Ha) as [Hqa Hra], (div10_bound w b Hb) as [Hqb Hrb].
    cbn [pad]. rewrite !str_app_assoc. rewrite IH by done. simpl.
    rewrite digit_compare by done.
    pose proof (Z.div_mod a 10) as Ea. pose proof (Z.div_mod b 10) as Eb.
    destruct (Z.compare_spec (a / 10) (b / 10)) as [Eq|Lt|Gt].
    + destruct (Z.compare_spec (a mod 10) (b mod 10)), (Z.compare_spec a b);
        lia || done.
    + destruct (Z.compare_spec a b); lia || done.
    + destruct (Z.compare_spec a b); lia || done.
Qed.

Lemma read_digits_pad w acc n s :
  0 <= n < 10 ^ Z.of_nat w →
  read_digits w acc (pad w n +:+ s) = Some (acc * 10 ^ Z.of_nat w + n, s).
Proof.
  enough (∀ k s', 0 <= n < 10 ^ Z.of_nat w →
    read_digits (w + k) acc (pad w n +:+ s')
    = read_digits k (acc * 10 ^ Z.of_nat w + n) s') as Hgen.
  { intros H. specialize (Hgen 0%nat s H). by rewrite Nat.add_0_r in Hgen. }
  revert n. induction w as [|w IH]; intros n k s' H.
  - change (10 ^ Z.of_nat 0) with 1 in *. assert (n = 0) as -> by lia.
    simpl. f_equal. lia.
  - destruct (div10_bound w n H) as [Hq Hr]. cbn [pad]. rewrite str_app_assoc.
    replace (S w + k)%nat with (w + S k)%nat by lia. rewrite IH by done. simpl.
    rewrite is_digit_digit by done. f_equal. unfold digit.
    rewrite ord_chr by lia.
    rewrite Nat2Z.inj_succ, Z.pow_succ_r by lia.
    pose proof (Z.div_mod n 10). lia.
Qed.

Lemma pad_length w n : String.length (pad w n) = w.
Proof.
  revert n. induction w as [|w IH]; intros n; [done|].
  cbn [pad]. rewrite str_app_length, IH. simpl. lia.
Qed.

Lemma str_compare_refl s : String.compare s s = Eq.
Proof.
  induction s as [|c s IH]; simpl; [done|].
  unfold Ascii.compare. by rewrite N.compare_refl.
Qed.
Lemma str_le_compare a b :
  str_le a b = match String.compare a b with Gt => false | _ => true end.
Proof. unfold str_le, String.leb. by destruct (String.compare a b). Qed.

(** [<] and [<=] on text are a total order. *)
Lemma str_compare_eq a b : String.compare a b = Eq → a = b.
Proof. apply String.compare_eq_iff. Qed.
Lemma str_compare_trans_lt a b c :
  String.compare a b = Lt → String.compare b c = Lt → String.compare a c = Lt.
Proof.
  revert b c. induction a as [|x a IH]; intros [|y b] [|z c]; simpl; try done.
  unfold Ascii.compare.
  destruct (N.compare_spec (N_of_ascii x) (N_of_ascii y)) as [E1 | L1 | G1]; [| |done];
  destruct (N.compare_spec (N_of_ascii y) (N_of_ascii z)) as [E2 | L2 | G2]; try done; intros.
  - rewrite E1, E2, N.compare_refl. by eapply IH.
  - by rewrite E1, (proj2 (N.compare_lt_iff _ _) L2).
  - by rewrite <- E2, (proj2 (N.compare_lt_iff _ _) L1).
  - by rewrite (proj2 (N.compare_lt_iff _ _) (N.lt_trans _ _ _ L1 L2)).
Qed.
Lemma str_le_trans a b c : str_le a b = true → str_le b c = true → str_le a c = true.
Proof.
  rewrite !str_le_compare. intros H1 H2.
  destruct (String.compare a b) eqn:E1; [apply str_compare_eq in E1 as ->; done| |done].
  destruct (String.compare b c) eqn:E2; [apply str_compare_eq in E2 as ->; by rewrite E1| |done].
  by rewrite (str_compare_trans_lt _ _ _ E1 E2).
Qed.
Lemma str_lt_compare a b :
  str_lt a b = match String.compare a b with Lt => true | _ => false end.
Proof. unfold str_lt, String.ltb. by destruct (String.compare a b). Qed.

(** The order of the pairs [(time, id)] the queries sort by. *)
Definition pair_le (a b : string * string) : bool :=
  str_lt a.1 b.1 || (String.eqb a.1 b.1 && str_le a.2 b.2).
Lemma pair_le_compare a b : pair_le a b =
  match String.compare a.1 b.1 with Lt => true | Eq => str_le a.2 b.2 | Gt => false end.
Proof.
  unfold pair_le. rewrite str_lt_compare.
  destruct (String.compare a.1 b.1) eqn:E; simpl; [|done|].
  - apply str_compare_eq in E as ->. by rewrite String.eqb_refl.
  - destruct (String.eqb_spec a.1 b.1) as [E' | _]; [|done].
    rewrite E', str_compare_refl in E. done.
Qed.
Lemma pair_le_total a b : pair_le a b = false → pair_le b a = true.
Proof.
  rewrite !pair_le_compare, (String.compare_antisym b.1 a.1).
  destruct (String.compare a.1 b.1); simpl; [|done|done].
  rewrite !str_le_compare, (String.compare_antisym b.2 a.2). by destruct (String.compare a.2 b.2).
Qed.
Lemma pair_le_trans a b c : pair_le a b = true → pair_le b c = true → pair_le a c = true.
Proof.
  rewrite !pair_le_compare. intros H1 H2.
  destruct (String.compare a.1 b.1) eqn:E1; [apply str_compare_eq in E1 as ->| |done].
  - destruct (String.compare b.1 c.1); [by eapply str_le_trans|done|done].
  - destruct (String.compare b.1 c.1) eqn:E2; [apply str_compare_eq in E2 as <-; by rewrite E1| |done].
    by rewrite (str_compare_trans_lt _ _ _ E1 E2).
Qed.
Lemma pair_le_antisym a b : pair_le a b = true → pair_le b a = true → a = b.
Proof.
  rewrite !pair_le_compare, (String.compare_antisym b.1 a.1).
  destruct (String.compare a.1 b.1) eqn:E1; simpl; [|done|done].
  rewrite !str_le_compare, (String.compare_antisym b.2 a.2).
  destruct (String.compare a.2 b.2) eqn:E2; simpl; [|done|done]. intros _ _.
  apply str_compare_eq in E1, E2. destruct a, b; simpl in *; congruence.
Qed.
Lemma pair_le_refl a : pair_le a a = true.
Proof. destruct (pair_le a a) eqn:E; [done|]. pose proof (pair_le_total _ _ E). congruence. Qed.
