(* ===== verification/Clock.v ===== *)
(** * Time

    [datetime] as the control store uses it: aware UTC instants, the
    [timedelta] added to a lease or a window, and the two text forms the store
    writes ([_format_time], which drops a zero fraction, and
    [_format_registry_time], which never does) with the reader
    [_parse_control_time].  An instant is the number of microseconds since
    0001-01-01T00:00:00Z; the calendar is CPython's [_ymd2ord]/[_ord2ymd]. *)

From Stdlib Require Import Ascii.
From S2P Require Import Prelude PyText.
Open Scope Z_scope.

(** ** The proleptic Gregorian calendar *)

Definition is_leap (y : Z) : bool :=
  (y mod 4 =? 0) && (negb (y mod 100 =? 0) || (y mod 400 =? 0)).

Definition days_in_month (leap : bool) (m : Z) : Z :=
  if m =? 2 then (if leap then 29 else 28)
  else if (m =? 4) || (m =? 6) || (m =? 9) || (m =? 11) then 30 else 31.

Definition days_before_month (leap : bool) (m : Z) : Z :=
  let base := match m with
    | 1 => 0 | 2 => 31 | 3 => 59 | 4 => 90 | 5 => 120 | 6 => 151
    | 7 => 181 | 8 => 212 | 9 => 243 | 10 => 273 | 11 => 304 | _ => 334 end in
  base + (if (2 <? m) && leap then 1 else 0).

Definition days_before_year (year : Z) : Z :=
  let y := year - 1 in y * 365 + y / 4 - y / 100 + y / 400.

Definition ymd2ord (y m d : Z) : Z :=
  days_before_year y + days_before_month (is_leap y) m + d.

(** The month and day of the [n]-th day (from 0) of a year. *)
Definition month_day (leap : bool) (n : Z) : Z * Z :=
  let m := Z.shiftr (n + 50) 5 in
  let before := days_before_month leap m in
  if n <? before
  then (m - 1, n - (before - days_in_month leap (m - 1)) + 1)
  else (m, n - before + 1).

Definition ord2ymd (ordinal : Z) : Z * Z * Z :=
  let n := ordinal - 1 in
  let n400 := n / 146097 in let n := n mod 146097 in
  let n100 := n / 36524 in let n := n mod 36524 in
  let n4 := n / 1461 in let n := n mod 1461 in
  let n1 := n / 365 in let n := n mod 365 in
  let year := n400 * 400 + 1 + n100 * 100 + n4 * 4 + n1 in
  if (n1 =? 4) || (n100 =? 4) then (year - 1, 12, 31)
  else
    let leap := (n1 =? 3) && (negb (n4 =? 24) || (n100 =? 3)) in
    let '(m, d) := month_day leap n in (year, m, d).

(** ** Instants *)

Definition us_per_second : Z := 1000000.
Definition us_per_day : Z := 86400 * us_per_second.
Definition max_ordinal : Z := 3652059.

(** The instants [datetime] can represent (years 1 to 9999). *)
Definition dt_valid (t : Z) : bool := (0 <=? t) && (t <? max_ordinal * us_per_day).

(** [value + timedelta(seconds=n)]: [None] stands for [OverflowError]. *)
Definition dt_add_seconds (t n : Z) : option Z :=
  let r := t + n * us_per_second in if dt_valid r then Some r else None.

Record fields := Fields {
  f_year : Z; f_month : Z; f_day : Z; f_hour : Z; f_minute : Z; f_second : Z;
  f_micro : Z }.

Definition to_fields (t : Z) : fields :=
  let '(y, m, d) := ord2ymd (t / us_per_day + 1) in
  let r := t mod us_per_day in
  let s := r / us_per_second in
  Fields y m d (s / 3600) (s / 60 mod 60) (s mod 60) (r mod us_per_second).

Definition of_fields (f : fields) : Z :=
  (ymd2ord (f_year f) (f_month f) (f_day f) - 1) * us_per_day
  + (f_hour f * 3600 + f_minute f * 60 + f_second f) * us_per_second + f_micro f.

Definition fields_ok (f : fields) : bool :=
  (1 <=? f_year f) && (f_year f <=? 9999) && (1 <=? f_month f) && (f_month f <=? 12)
  && (1 <=? f_day f) && (f_day f <=? days_in_month (is_leap (f_year f)) (f_month f))
  && (0 <=? f_hour f) && (f_hour f <=? 23) && (0 <=? f_minute f)
  && (f_minute f <=? 59) && (0 <=? f_second f) && (f_second f <=? 59)
  && (0 <=? f_micro f) && (f_micro f <=? 999999).

(** ** The text forms *)

Definition seconds_text (f : fields) (tail : string) : string :=
  pad 4 (f_year f) +:+ "-" +:+ pad 2 (f_month f) +:+ "-" +:+ pad 2 (f_day f)
  +:+ "T" +:+ pad 2 (f_hour f) +:+ ":" +:+ pad 2 (f_minute f) +:+ ":"
  +:+ pad 2 (f_second f) +:+ tail.

Definition micro_text (f : fields) : string := "." +:+ pad 6 (f_micro f) +:+ "Z".

(** [value.astimezone(UTC).isoformat().replace("+00:00", "Z")]. *)
Definition format_time (t : Z) : string :=
  let f := to_fields t in
  seconds_text f (if f_micro f =? 0 then "Z" else micro_text f).

(** The same with [timespec="microseconds"]. *)
Definition format_registry_time (t : Z) : string :=
  let f := to_fields t in seconds_text f (micro_text f).

Definition read_fraction (s : string) : option (Z * string) :=
  match read_char "." s with
  | None => Some (0, s)
  | Some s' => read_digits 6 0 s'
  end.

(** [datetime.fromisoformat(value).astimezone(UTC)] on the shapes above; any
    other text is [None], a [ValueError]. *)
Definition parse_control_time (s : string) : option Z :=
  '(y, s) ← read_digits 4 0 s; s ← read_char "-" s;
  '(m, s) ← read_digits 2 0 s; s ← read_char "-" s;
  '(d, s) ← read_digits 2 0 s; s ← read_char "T" s;
  '(h, s) ← read_digits 2 0 s; s ← read_char ":" s;
  '(mi, s) ← read_digits 2 0 s; s ← read_char ":" s;
  '(sec, s) ← read_digits 2 0 s;
  '(us, s) ← read_fraction s;
  let f := Fields y m d h mi sec us in
  if String.eqb s "Z" && fields_ok f then Some (of_fields f) else None.

Example format_epoch : format_time (719162 * us_per_day) = "1970-01-01T00:00:00Z".
Proof. vm_compute. reflexivity. Qed.
Example format_leap :
  format_time ((ymd2ord 2024 2 29 - 1) * us_per_day + 1500000)
  = "2024-02-29T00:00:01.500000Z".
Proof. vm_compute. reflexivity. Qed.

(** ** The calendar is a bijection in date order *)

Definition month_day_ok (leap : bool) (n : Z) : bool :=
  let '(m, d) := month_day leap n in
  (1 <=? m) && (m <=? 12) && (1 <=? d) && (d <=? days_in_month leap m)
  && (days_before_month leap m + d =? n + 1).

Definition days_in_year (leap : bool) : Z := if leap then 366 else 365.

Lemma month_day_table :
  forallb (λ leap, forallb (λ n, month_day_ok leap (Z.of_nat n))
    (seq 0 (Z.to_nat (days_in_year leap)))) [true; false] = true.
Proof. vm_compute. reflexivity. Qed.

Lemma month_day_spec leap n :
  0 <= n < days_in_year leap → month_day_ok leap n = true.
Proof.
  intros Hn. pose proof month_day_table as H.
  rewrite forallb_forall in H. specialize (H leap).
  assert (In leap [true; false]) as Hl by (destruct leap; simpl; auto).
  specialize (H Hl). rewrite forallb_forall in H.
  rewrite <- (Z2Nat.id n) by lia. apply H, in_seq. lia.
Qed.

(** A month ends before the next one starts, and December ends the year. *)
Lemma month_order_table :
  forallb (λ leap, forallb (λ m, forallb (λ m', (m' <=? m) ||
    (days_before_month leap m + days_in_month leap m <=? days_before_month leap m'))
    (map Z.of_nat (seq 1 12))) (map Z.of_nat (seq 1 12))
    && forallb (λ m, days_before_month leap m + days_in_month leap m
                     <=? days_in_year leap) (map Z.of_nat (seq 1 12)))
    [true; false] = true.
Proof. vm_compute. reflexivity. Qed.

Lemma in_months m : 1 <= m <= 12 → In m (map Z.of_nat (seq 1 12)).
Proof.
  intros H. apply in_map_iff. exists (Z.to_nat m). rewrite in_seq. lia.
Qed.

Lemma month_order leap m m' :
  1 <= m <= 12 → 1 <= m' <= 12 →
  (m < m' → days_before_month leap m + days_in_month leap m
            <= days_before_month leap m') ∧
  days_before_month leap m + days_in_month leap m <= days_in_year leap.
Proof.
  intros Hm Hm'. pose proof month_order_table as H.
  rewrite forallb_forall in H. specialize (H leap).
  assert (In leap [true; false]) as Hl by (destruct leap; simpl; auto).
  specialize (H Hl). apply andb_true_iff in H as [H1 H2].
  rewrite forallb_forall in H1, H2.
  specialize (H1 m (in_months m Hm)). specialize (H2 m (in_months m Hm)).
  rewrite forallb_forall in H1. specialize (H1 m' (in_months m' Hm')). lia.
Qed.

Lemma days_before_month_nonneg leap m : 0 <= days_before_month leap m.
Proof.
  unfold days_before_month.
  destruct ((2 <? m) && leap), m as [|[[[[]|[]|]|[[]|[]|]|]|[[[]|[]|]|[[]|[]|]|]|]|];
    simpl; lia.
Qed.

Lemma div_mod_facts n k :
  0 < k → n = k * (n / k) + n mod k ∧ 0 <= n mod k < k ∧ (0 <= n → 0 <= n / k).
Proof.
  intros H. split; [apply Z.div_mod; lia|]. split; [by apply Z.mod_pos_bound|].
  intros. by apply Z.div_pos.
Qed.

Lemma div_pred y k : 0 < k → y / k = (y - 1) / k + (if y mod k =? 0 then 1 else 0).
Proof.
  intros Hk. pose proof (Z.div_mod y k ltac:(lia)) as E.
  pose proof (Z.mod_pos_bound y k Hk) as B.
  destruct (Z.eqb_spec (y mod k) 0) as [H0|H0].
  - rewrite <- (Z.div_unique (y - 1) k (y / k - 1) (k - 1)); lia.
  - rewrite <- (Z.div_unique (y - 1) k (y / k) (y mod k - 1)); lia.
Qed.

Lemma days_before_year_succ y :
  days_before_year (y + 1) = days_before_year y + days_in_year (is_leap y).
Proof.
  unfold days_before_year, days_in_year, is_leap.
  replace (y + 1 - 1) with y by lia.
  rewrite (div_pred y 4), (div_pred y 100), (div_pred y 400) by lia.
  pose proof (Z.div_mod y 4 ltac:(lia)). pose proof (Z.div_mod y 100 ltac:(lia)).
  pose proof (Z.div_mod y 400 ltac:(lia)).
  pose proof (Z.mod_pos_bound y 4 ltac:(lia)).
  pose proof (Z.mod_pos_bound y 100 ltac:(lia)).
  destruct (Z.eqb_spec (y mod 4) 0), (Z.eqb_spec (y mod 100) 0),
    (Z.eqb_spec (y mod 400) 0); simpl; lia.
Qed.

Lemma days_before_year_mono y y' :
  y < y' → days_before_year y + days_in_year (is_leap y) <= days_before_year y'.
Proof.
  intros H. rewrite <- days_before_year_succ.
  destruct (Z.eq_dec (y + 1) y') as [->|]; [lia|]. unfold days_before_year. dlia.
Qed.

Definition date_ok (y m d : Z) : Prop :=
  1 <= y ∧ 1 <= m <= 12 ∧ 1 <= d <= days_in_month (is_leap y) m.

Lemma ymd2ord_pos y m d : date_ok y m d → 1 <= ymd2ord y m d.
Proof.
  intros (Hy & _ & Hd). unfold ymd2ord.
  pose proof (days_before_month_nonneg (is_leap y) m). unfold days_before_year. dlia.
Qed.

Lemma ymd2ord_in_year y m d :
  date_ok y m d →
  days_before_year y < ymd2ord y m d <= days_before_year y + days_in_year (is_leap y).
Proof.
  intros (Hy & Hm & Hd). unfold ymd2ord.
  pose proof (days_before_month_nonneg (is_leap y) m).
  destruct (month_order (is_leap y) m m Hm Hm) as [_ ?]. lia.
Qed.

(** Dates in calendar order have ordinals in order. *)
Lemma ymd2ord_lt y m d y' m' d' :
  date_ok y m d → date_ok y' m' d' →
  y < y' ∨ y = y' ∧ (m < m' ∨ m = m' ∧ d < d') →
  ymd2ord y m d < ymd2ord y' m' d'.
Proof.
  intros H H' [Hy | [-> [Hm | [-> Hd]]]].
  - pose proof (ymd2ord_in_year _ _ _ H). pose proof (ymd2ord_in_year _ _ _ H').
    pose proof (days_before_year_mono y y' Hy). lia.
  - destruct H as (_ & Hm1 & Hd1), H' as (_ & Hm2 & Hd2). unfold ymd2ord.
    destruct (month_order (is_leap y') m m' Hm1 Hm2) as [Ho _].
    specialize (Ho Hm). lia.
  - unfold ymd2ord. lia.
Qed.

(** The four quotients of [ord2ymd] and what they say about the year. *)
Lemma year_decomposition a b c e :
  0 <= a → 0 <= b <= 3 → 0 <= c <= 24 → 0 <= e <= 3 →
  let y := a * 400 + 1 + b * 100 + c * 4 + e in
  days_before_year y = 146097 * a + 36524 * b + 1461 * c + 365 * e ∧
  is_leap y = (e =? 3) && (negb (c =? 24) || (b =? 3)).
Proof.
  intros Ha Hb Hc He y. subst y. split.
  - unfold days_before_year. dlia.
  - unfold is_leap.
    destruct (Z.eqb_spec e 3), (Z.eqb_spec c 24), (Z.eqb_spec b 3); simpl;
    repeat match goal with |- context [?x =? 0] => destruct (Z.eqb_spec x 0) end;
    simpl; try done; dlia.
Qed.

(** The two exits of [ord2ymd] on the last day of a leap cycle. *)
Lemma december_31 a b c e :
  0 <= a → (b = 4 ∧ c = 0 ∧ e = 0 ∨ 0 <= b <= 3 ∧ 0 <= c <= 24 ∧ e = 4) →
  (c = 24 → b = 3 ∨ e <> 4 ∨ False) →
  let y := a * 400 + 1 + b * 100 + c * 4 + e in
  ymd2ord (y - 1) 12 31 = 146097 * a + 36524 * b + 1461 * c + 365 * e + 1 ∧
  1 <= y - 1.
Proof.
  intros Ha Hcase Hcent y. subst y. unfold ymd2ord, days_before_year, is_leap.
  split; [|lia].
  change (days_before_month ?l 12) with (334 + (if true && l then 1 else 0)).
  repeat match goal with |- context [?x =? 0] => destruct (Z.eqb_spec x 0) end;
    simpl; dlia.
Qed.

Lemma ord2ymd_spec n y m d :
  1 <= n → ord2ymd n = (y, m, d) → date_ok y m d ∧ ymd2ord y m d = n.
Proof.
  intros Hn. unfold ord2ymd.
  destruct (div_mod_facts (n - 1) 146097) as (E0 & Hr1 & Ha); [lia|].
  set (a := (n - 1) / 146097) in *. set (r1 := (n - 1) mod 146097) in *.
  destruct (div_mod_facts r1 36524) as (E1 & Hr2 & Hb); [lia|].
  set (b := r1 / 36524) in *. set (r2 := r1 mod 36524) in *.
  destruct (div_mod_facts r2 1461) as (E2 & Hr3 & Hc); [lia|].
  set (c := r2 / 1461) in *. set (r3 := r2 mod 1461) in *.
  destruct (div_mod_facts r3 365) as (E3 & Hr4 & He); [lia|].
  set (e := r3 / 365) in *. set (r4 := r3 mod 365) in *.
  clearbody a r1 b r2 c r3 e r4.
  destruct (Z.eqb_spec e 4) as [He4|He4]; cbn [orb];
    [|destruct (Z.eqb_spec b 4) as [Hb4|Hb4]].
  - intros [= <- <- <-].
    destruct (december_31 a b c e) as [Ho Hy]; [lia..|].
    split; [split; [lia|]; change (days_in_month _ 12) with 31; lia|]. rewrite Ho. lia.
  - intros [= <- <- <-].
    destruct (december_31 a b c e) as [Ho Hy]; [lia..|].
    split; [split; [lia|]; change (days_in_month _ 12) with 31; lia|]. rewrite Ho. lia.
  - destruct (year_decomposition a b c e) as [Hdb Hleap]; [lia..|].
    rewrite <- Hleap. set (yr := _ + e) in *.
    destruct (month_day (is_leap yr) r4) as [m' d'] eqn:Hmd. intros [= <- <- <-].
    pose proof (month_day_spec (is_leap yr) r4) as Hok.
    unfold month_day_ok in Hok. rewrite Hmd in Hok.
    assert (0 <= r4 < days_in_year (is_leap yr)) as Hr
      by (unfold days_in_year; destruct (is_leap yr); lia).
    specialize (Hok Hr). unfold date_ok, ymd2ord. rewrite Hdb. lia.
Qed.

(** ** Instants and their fields *)

Lemma ord2ymd_year_max n y m d :
  1 <= n <= max_ordinal → ord2ymd n = (y, m, d) → y <= 9999.
Proof.
  intros Hn Heq. destruct (ord2ymd_spec n y m d) as [Hok Ho]; [lia|done|].
  pose proof (ymd2ord_in_year _ _ _ Hok) as Hin. rewrite Ho in Hin.
  destruct (Z.le_gt_cases y 9999) as [|Hgt]; [done|].
  pose proof (days_before_year_mono 9999 y ltac:(lia)) as Hm.
  change (days_before_year 9999 + days_in_year (is_leap 9999)) with 3652059 in Hm.
  unfold max_ordinal in Hn. lia.
Qed.

Lemma to_fields_spec t :
  dt_valid t = true →
  fields_ok (to_fields t) = true ∧ of_fields (to_fields t) = t.
Proof.
  intros Hv. unfold dt_valid, us_per_day, us_per_second, max_ordinal in Hv.
  unfold to_fields. destruct (ord2ymd (t / us_per_day + 1)) as [[y m] d] eqn:E.
  unfold us_per_day, us_per_second in *.
  destruct (div_mod_facts t (86400 * 1000000)) as (Et & Hr & Hq); [lia|].
  set (q := t / (86400 * 1000000)) in *. set (r := t mod (86400 * 1000000)) in *.
  assert (q < 3652059) by lia.
  destruct (ord2ymd_spec (q + 1) y m d) as [(Hy & Hm & Hd) Ho]; [lia|done|].
  pose proof (ord2ymd_year_max (q + 1) y m d) as Hy'. unfold max_ordinal in Hy'.
  specialize (Hy' ltac:(lia) E).
  unfold fields_ok, of_fields; cbn [f_year f_month f_day f_hour f_minute f_second f_micro].
  rewrite Ho. unfold us_per_day, us_per_second. clearbody q r. split; [|dlia].
  repeat (apply andb_true_intro; split); apply Z.leb_le; try lia; dlia.
Qed.

Ltac fields_bounds H :=
  unfold fields_ok in H; rewrite !andb_true_iff, !Z.leb_le in H;
  destruct_and! H.

(** The order of instants, field by field. *)
Definition seconds_compare (f g : fields) : comparison :=
  match f_year f ?= f_year g with Eq =>
  match f_month f ?= f_month g with Eq =>
  match f_day f ?= f_day g with Eq =>
  match f_hour f ?= f_hour g with Eq =>
  match f_minute f ?= f_minute g with Eq => f_second f ?= f_second g
  | c => c end | c => c end | c => c end | c => c end | c => c end.

Definition to_seconds (f : fields) : Z :=
  ymd2ord (f_year f) (f_month f) (f_day f) * 86400
  + f_hour f * 3600 + f_minute f * 60 + f_second f.

Lemma to_seconds_div f t :
  fields_ok f = true → of_fields f = t → to_seconds f = t / us_per_second + 86400.
Proof.
  intros Hf <-. fields_bounds Hf. unfold to_seconds, of_fields, us_per_day, us_per_second.
  set (o := ymd2ord _ _ _). clearbody o. dlia.
Qed.

Lemma to_seconds_lt f g :
  fields_ok f = true → fields_ok g = true →
  seconds_compare f g = Lt → to_seconds f < to_seconds g.
Proof.
  intros Hf Hg. fields_bounds Hf. fields_bounds Hg. unfold seconds_compare, to_seconds.
  assert (date_ok (f_year f) (f_month f) (f_day f)) as Of by (unfold date_ok; lia).
  assert (date_ok (f_year g) (f_month g) (f_day g)) as Og by (unfold date_ok; lia).
  pose proof (ymd2ord_lt _ _ _ _ _ _ Of Og) as Hlt.
  destruct (Z.compare_spec (f_year f) (f_year g)) as [Ey|?|?]; [|intros _; lia|done].
  destruct (Z.compare_spec (f_month f) (f_month g)) as [Em|?|?]; [|intros _; lia|done].
  destruct (Z.compare_spec (f_day f) (f_day g)) as [Ed|?|?]; [|intros _; lia|done].
  rewrite Ey, Em, Ed.
  destruct (Z.compare_spec (f_hour f) (f_hour g)); [|intros _; lia|done].
  destruct (Z.compare_spec (f_minute f) (f_minute g)); [|intros _; lia|done].
  intros Hs. rewrite Z.compare_lt_iff in Hs. lia.
Qed.

Lemma seconds_compare_antisym f g : seconds_compare g f = CompOpp (seconds_compare f g).
Proof.
  unfold seconds_compare.
  rewrite (Z.compare_antisym (f_year f) (f_year g)), (Z.compare_antisym (f_month f)),
    (Z.compare_antisym (f_day f)), (Z.compare_antisym (f_hour f)),
    (Z.compare_antisym (f_minute f)), (Z.compare_antisym (f_second f)).
  by repeat match goal with |- context [?x ?= ?y] => destruct (x ?= y); simpl end.
Qed.

Lemma seconds_compare_eq f g :
  seconds_compare f g = Eq → to_seconds f = to_seconds g.
Proof.
  unfold seconds_compare, to_seconds.
  repeat match goal with |- context [?x ?= ?y] =>
    destruct (Z.compare_spec x y) as [->|?|?]; try done end.
Qed.

Lemma seconds_compare_spec f g :
  fields_ok f = true → fields_ok g = true →
  seconds_compare f g = (to_seconds f ?= to_seconds g).
Proof.
  intros Hf Hg. symmetry. destruct (seconds_compare f g) eqn:E.
  - apply Z.compare_eq_iff. by apply seconds_compare_eq.
  - apply Z.compare_lt_iff. by apply to_seconds_lt.
  - apply Z.compare_gt_iff. apply to_seconds_lt; [done..|].
    by rewrite seconds_compare_antisym, E.
Qed.

Lemma seconds_text_compare f g s t :
  fields_ok f = true → fields_ok g = true →
  String.compare (seconds_text f s) (seconds_text g t) =
  match seconds_compare f g with Eq => String.compare s t | c => c end.
Proof.
  intros Hf Hg. fields_bounds Hf. fields_bounds Hg. unfold seconds_text, seconds_compare.
  assert (∀ l, days_in_month l (f_month f) <= 31) as Hdf
    by (intros l; unfold days_in_month; repeat case_match; lia).
  assert (∀ l, days_in_month l (f_month g) <= 31) as Hdg
    by (intros l; unfold days_in_month; repeat case_match; lia).
  specialize (Hdf (is_leap (f_year f))). specialize (Hdg (is_leap (f_year g))).
  repeat (rewrite pad_compare by
    (change (10 ^ Z.of_nat 4) with 10000; change (10 ^ Z.of_nat 2) with 100; lia);
    match goal with |- context [?x ?= ?y] => destruct (Z.compare x y) eqn:? end;
    [|done|done]; cbn [String.append String.compare]; unfold Ascii.compare at 1;
    rewrite ?N.compare_refl).
  rewrite pad_compare by (change (10 ^ Z.of_nat 2) with 100; lia). done.
Qed.

(** ** What the text forms preserve *)

Lemma read_pad_field w n s :
  0 <= n < 10 ^ Z.of_nat w → read_digits w 0 (pad w n +:+ s) = Some (n, s).
Proof. intros H. by rewrite read_digits_pad. Qed.

#[local] Arguments read_fraction : simpl never.
Lemma parse_seconds_text f tail us :
  fields_ok f = true → read_fraction tail = Some (us, "Z") → us = f_micro f →
  parse_control_time (seconds_text f tail) = Some (of_fields f).
Proof.
  intros Hf Htail ->. pose proof Hf as Hb. fields_bounds Hb.
  assert (∀ l, days_in_month l (f_month f) <= 31) as Hd
    by (intros l; unfold days_in_month; repeat case_match; lia).
  specialize (Hd (is_leap (f_year f))).
  unfold parse_control_time, seconds_text.
  repeat (rewrite read_pad_field by
    (change (10 ^ Z.of_nat 4) with 10000; change (10 ^ Z.of_nat 2) with 100; lia);
    cbn [String.append read_char mbind option_bind Ascii.eqb Bool.eqb]).
  rewrite Htail. destruct f; simpl. by rewrite Hf.
Qed.

Lemma read_micro_text f :
  fields_ok f = true → read_fraction (micro_text f) = Some (f_micro f, "Z").
Proof.
  intros Hf. fields_bounds Hf. unfold read_fraction, micro_text.
  cbn [String.append read_char Ascii.eqb Bool.eqb].
  rewrite read_digits_pad by (change (10 ^ Z.of_nat 6) with 1000000; lia). done.
Qed.

(** Reading back a stored time gives the instant that was stored. *)
Lemma parse_format_time t :
  dt_valid t = true → parse_control_time (format_time t) = Some t.
Proof.
  intros Hv. destruct (to_fields_spec t Hv) as [Hf Ho]. unfold format_time.
  transitivity (Some (of_fields (to_fields t))); [|by rewrite Ho].
  destruct (Z.eqb_spec (f_micro (to_fields t)) 0) as [E|E].
  - by apply (parse_seconds_text _ _ 0).
  - by apply (parse_seconds_text _ _ _ Hf (read_micro_text _ Hf)).
Qed.
Lemma parse_format_registry_time t :
  dt_valid t = true → parse_control_time (format_registry_time t) = Some t.
Proof.
  intros Hv. destruct (to_fields_spec t Hv) as [Hf Ho]. unfold format_registry_time.
  transitivity (Some (of_fields (to_fields t))); [|by rewrite Ho]. by apply (parse_seconds_text _ _ _ Hf (read_micro_text _ Hf)).
Qed.

Lemma micro_of_fields t :
  dt_valid t = true → f_micro (to_fields t) = t mod us_per_second.
Proof.
  intros Hv. unfold to_fields. destruct (ord2ymd _) as [[y m] d]. simpl.
  unfold us_per_day. rewrite Z.mul_comm, <- Znumtheory.Zmod_div_mod; try done.
  by exists 86400.
Qed.

Lemma seconds_compare_instants t u :
  dt_valid t = true → dt_valid u = true →
  seconds_compare (to_fields t) (to_fields u) = (t / us_per_second ?= u / us_per_second).
Proof.
  intros Ht Hu. destruct (to_fields_spec t Ht) as [Ft Ot], (to_fields_spec u Hu) as [Fu Ou].
  rewrite seconds_compare_spec, (to_seconds_div _ _ Ft Ot), (to_seconds_div _ _ Fu Ou) by done.
  destruct (Z.compare_spec (t / us_per_second) (u / us_per_second)); [|..].
  - apply Z.compare_eq_iff; lia.
  - apply Z.compare_lt_iff; lia.
  - apply Z.compare_gt_iff; lia.
Qed.

(** Stored times of different seconds compare, as text, as the instants do. *)
Lemma format_time_seconds t u :
  dt_valid t = true → dt_valid u = true →
  t / us_per_second ≠ u / us_per_second →
  String.compare (format_time t) (format_time u) = (t ?= u).
Proof.
  intros Ht Hu Hne. destruct (to_fields_spec t Ht) as [Ft _], (to_fields_spec u Hu) as [Fu _].
  unfold format_time. rewrite seconds_text_compare, seconds_compare_instants by done.
  unfold us_per_second in *.
  destruct (Z.compare_spec (t / 1000000) (u / 1000000)), (Z.compare_spec t u);
    done || dlia.
Qed.

(** Within one second the text order is the instants' order when both or
    neither carry a fraction. *)
Lemma format_time_same_shape t u :
  dt_valid t = true → dt_valid u = true →
  (t mod us_per_second = 0 ↔ u mod us_per_second = 0) →
  String.compare (format_time t) (format_time u) = (t ?= u).
Proof.
  intros Ht Hu Hshape.
  destruct (decide (t / us_per_second = u / us_per_second)) as [Es|]; [|by apply format_time_seconds].
  destruct (to_fields_spec t Ht) as [Ft _], (to_fields_spec u Hu) as [Fu _].
  unfold format_time. rewrite seconds_text_compare, seconds_compare_instants by done.
  rewrite !micro_of_fields, Es, Z.compare_refl by done.
  destruct (Z.eqb_spec (t mod us_per_second) 0) as [E|E],
    (Z.eqb_spec (u mod us_per_second) 0) as [E'|E']; [|tauto..|].
  - rewrite str_compare_refl. symmetry. apply Z.compare_eq_iff.
    rewrite (Z.div_mod t us_per_second), (Z.div_mod u us_per_second) by done. lia.
  - unfold micro_text. rewrite !micro_of_fields by done.
    cbn [String.append String.compare]. unfold Ascii.compare; rewrite N.compare_refl.
    rewrite pad_compare by (change (10 ^ Z.of_nat 6) with us_per_second;
      apply Z.mod_pos_bound; done).
    unfold us_per_second in *.
    destruct (Z.compare_spec (t mod 1000000) (u mod 1000000)), (Z.compare_spec t u);
      done || dlia.
Qed.

(** The form with a fixed width always compares as the instants do. *)
Lemma format_registry_time_compare t u :
  dt_valid t = true → dt_valid u = true →
  String.compare (format_registry_time t) (format_registry_time u) = (t ?= u).
Proof.
  intros Ht Hu. destruct (to_fields_spec t Ht) as [Ft _], (to_fields_spec u Hu) as [Fu _].
  unfold format_registry_time.
  rewrite seconds_text_compare, seconds_compare_instants by done.
  unfold micro_text. rewrite !micro_of_fields by done.
  cbn [String.append String.compare]. unfold Ascii.compare; rewrite N.compare_refl.
  rewrite pad_compare by (change (10 ^ Z.of_nat 6) with us_per_second;
    apply Z.mod_pos_bound; done).
  unfold us_per_second in *. simpl.
  destruct (Z.compare_spec (t / 1000000) (u / 1000000)),
    (Z.compare_spec (t mod 1000000) (u mod 1000000)), (Z.compare_spec t u); done || dlia.
Qed.
