(* ===== verification/Json.v ===== *)
(** * JSON

    The JSON the control store and the operation ledger write and read back:
    [json.dumps(value, sort_keys=True, separators=(",", ":"))] with and
    without [ensure_ascii], and [json.loads], whose [object_pairs_hook] may
    refuse duplicate keys.  A float is held by the text CPython prints for it;
    an escape that names a code point above 255 is outside the text model and
    is not read.  The parsers are total: their fuel is computed from the text. *)

From Stdlib Require Import Ascii.
From S2P Require Import Prelude PyText.
Open Scope Z_scope.

Inductive json :=
| JNull
| JBool (b : bool)
| JInt (n : Z)
| JFloat (repr : string)
| JStr (s : string)
| JArr (l : list json)
| JObj (kvs : list (string * json)).

Definition dquote : ascii := chr 34.
Definition backslash : ascii := chr 92.

(** ** Printing *)

(** Decimal text of a non-negative integer. *)
Fixpoint dec_fuel (fuel : nat) (n : Z) : string :=
  match fuel with
  | O => EmptyString
  | S f =>
      if n <? 10 then String (digit n) EmptyString
      else dec_fuel f (n / 10) +:+ String (digit (n mod 10)) EmptyString
  end.
Definition dec (n : Z) : string := dec_fuel (S (Z.to_nat (Z.log2 n))) n.
Definition int_text (n : Z) : string := if n <? 0 then "-" +:+ dec (- n) else dec n.

Definition hex_digit (n : Z) : ascii := if n <? 10 then chr (48 + n) else chr (87 + n).

Definition escape_u (c : ascii) : string :=
  String backslash (String "u" (String "0" (String "0"
    (String (hex_digit (ord c / 16)) (String (hex_digit (ord c mod 16)) EmptyString))))).

Definition escape2 (c : ascii) : string := String backslash (String c EmptyString).

Definition escape (ensure_ascii : bool) (c : ascii) : string :=
  let n := ord c in
  if n =? 34 then escape2 dquote
  else if n =? 92 then escape2 backslash
  else if n =? 10 then escape2 "n"
  else if n =? 13 then escape2 "r"
  else if n =? 9 then escape2 "t"
  else if n =? 12 then escape2 "f"
  else if n =? 8 then escape2 "b"
  else if (n <? 32) || (ensure_ascii && (126 <? n)) then escape_u c
  else String c EmptyString.

Fixpoint escape_all (ea : bool) (s : string) : string :=
  match s with
  | EmptyString => EmptyString
  | String c s' => escape ea c +:+ escape_all ea s'
  end.
Definition str_text (ea : bool) (s : string) : string :=
  String dquote (escape_all ea s +:+ String dquote EmptyString).

(** The items of an array or an object, comma separated. *)
Definition join_items {A} (item : A → string) (close : string) : bool → list A → string :=
  fix go first l :=
    match l with
    | [] => close
    | a :: l' => (if first then "" else ",") +:+ item a +:+ go false l'
    end.

Fixpoint render (ea : bool) (v : json) : string :=
  match v with
  | JNull => "null"
  | JBool true => "true"
  | JBool false => "false"
  | JInt n => int_text n
  | JFloat r => r
  | JStr s => str_text ea s
  | JArr l => String "[" (join_items (render ea) "]" true l)
  | JObj kvs =>
      String "{" (join_items (λ p, str_text ea p.1 +:+ ":" +:+ render ea p.2) "}" true kvs)
  end.

(** [sort_keys=True]. *)
Definition sort_pairs (l : list (string * json)) : list (string * json) :=
  isort (λ p q, str_le p.1 q.1) l.
Fixpoint canon (v : json) : json :=
  match v with
  | JArr l => JArr (map canon l)
  | JObj kvs => JObj (sort_pairs (map (λ p, (p.1, canon p.2)) kvs))
  | _ => v
  end.

Definition dumps (ea : bool) (v : json) : string := render ea (canon v).

(** ** Reading *)

Definition is_ws (c : ascii) : bool :=
  let n := ord c in (n =? 32) || (n =? 9) || (n =? 10) || (n =? 13).
Fixpoint skip_ws (s : string) : string :=
  match s with
  | String c s' => if is_ws c then skip_ws s' else s
  | EmptyString => s
  end.

Definition hex_value (c : ascii) : option Z :=
  let n := ord c in
  if (48 <=? n) && (n <=? 57) then Some (n - 48)
  else if (97 <=? n) && (n <=? 102) then Some (n - 87)
  else if (65 <=? n) && (n <=? 70) then Some (n - 55)
  else None.
Definition hex4 (a b c d : ascii) : option Z :=
  a ← hex_value a; b ← hex_value b; c ← hex_value c; d ← hex_value d;
  Some (((a * 16 + b) * 16 + c) * 16 + d).

Definition simple_escape (c : ascii) : option ascii :=
  let n := ord c in
  if n =? 34 then Some dquote
  else if n =? 92 then Some backslash
  else if n =? 47 then Some c
  else if n =? 98 then Some (chr 8)
  else if n =? 102 then Some (chr 12)
  else if n =? 110 then Some (chr 10)
  else if n =? 114 then Some (chr 13)
  else if n =? 116 then Some (chr 9)
  else None.

(** The rest of a string literal after its opening quote. *)
Fixpoint scan_string (s : string) : option (string * string) :=
  match s with
  | EmptyString => None
  | String c s1 =>
      if Ascii.eqb c dquote then Some (EmptyString, s1)
      else if Ascii.eqb c backslash then
        match s1 with
        | EmptyString => None
        | String e s2 =>
            if Ascii.eqb e "u" then
              match s2 with
              | String a (String b (String c' (String d s3))) =>
                  match hex4 a b c' d with
                  | Some n =>
                      if n <? 256 then
                        match scan_string s3 with
                        | Some (x, r) => Some (String (chr n) x, r)
                        | None => None
                        end
                      else None
                  | None => None
                  end
              | _ => None
              end
            else
              match simple_escape e, scan_string s2 with
              | Some ch, Some (x, r) => Some (String ch x, r)
              | _, _ => None
              end
        end
      else if ord c <? 32 then None
      else match scan_string s1 with
           | Some (x, r) => Some (String c x, r)
           | None => None
           end
  end.

Fixpoint span (p : ascii → bool) (s : string) : string * string :=
  match s with
  | EmptyString => (EmptyString, EmptyString)
  | String c s' =>
      if p c then let '(a, b) := span p s' in (String c a, b) else (EmptyString, s)
  end.

Definition is_number_char (c : ascii) : bool :=
  is_digit c || one_of "+-.eE" c.

Fixpoint digits_value (acc : Z) (s : string) : Z :=
  match s with
  | EmptyString => acc
  | String c s' => digits_value (10 * acc + (ord c - 48)) s'
  end.

(** [0|[1-9][0-9]*]. *)
Definition is_natural (s : string) : bool :=
  match s with
  | EmptyString => false
  | String c s' =>
      is_digit c && str_all is_digit s' && (negb (Ascii.eqb c "0") || (slen s' =? 0))
  end.
Definition is_digits1 (s : string) : bool := str_all is_digit s && (1 <=? slen s).

(** [natural ([.] digits)? ([eE] [+-]? digits)?] with a fraction or an exponent. *)
Definition is_float_body (s : string) : bool :=
  let '(ip, r) := span is_digit s in
  let '(frac_ok, has_frac, r) := match r with
    | String "." r' => let '(d, r'') := span is_digit r' in (1 <=? slen d, true, r'')
    | _ => (true, false, r) end in
  let '(exp_ok, has_exp) := match r with
    | EmptyString => (true, false)
    | String c r' =>
        if one_of "eE" c then
          match r' with
          | String s r'' => if one_of "+-" s then (is_digits1 r'', true) else (is_digits1 r', true)
          | EmptyString => (false, true)
          end
        else (false, false)
    end in
  is_natural ip && frac_ok && exp_ok && (has_frac || has_exp).

Definition unsign (s : string) : bool * string :=
  match s with
  | String c s' => if Ascii.eqb c "-" then (true, s') else (false, s)
  | EmptyString => (false, s)
  end.

Definition number_of (tok : string) : option json :=
  let '(neg, body) := unsign tok in
  if is_natural body then
    Some (JInt (if neg then - digits_value 0 body else digits_value 0 body))
  else if is_float_body body then Some (JFloat tok)
  else None.

Fixpoint read_lit (lit s : string) : option string :=
  match lit, s with
  | EmptyString, _ => Some s
  | String c lit', String d s' => if Ascii.eqb c d then read_lit lit' s' else None
  | _, EmptyString => None
  end.

Definition constants : list (string * json) :=
  [("null", JNull); ("true", JBool true); ("false", JBool false);
   ("NaN", JFloat "NaN"); ("Infinity", JFloat "Infinity");
   ("-Infinity", JFloat "-Infinity")].
Fixpoint read_constant (cs : list (string * json)) (s : string) : option (json * string) :=
  match cs with
  | [] => None
  | (lit, v) :: cs' =>
      match read_lit lit s with
      | Some r => Some (v, r)
      | None => read_constant cs' s
      end
  end.

Definition parse_atom (s : string) : option (json * string) :=
  match read_constant constants s with
  | Some r => Some r
  | None =>
      let '(tok, r) := span is_number_char s in
      v ← number_of tok; Some (v, r)
  end.

Fixpoint parse_value (fuel : nat) (s : string) : option (json * string) :=
  match fuel with
  | O => None
  | S f =>
      match read_char dquote s, read_char "[" s, read_char "{" s with
      | Some s', _, _ => '(x, r) ← scan_string s'; Some (JStr x, r)
      | None, Some s', _ =>
          match read_char "]" (skip_ws s') with
          | Some r => Some (JArr [], r)
          | None => '(l, r) ← parse_elements f (skip_ws s'); Some (JArr l, r)
          end
      | None, None, Some s' =>
          match read_char "}" (skip_ws s') with
          | Some r => Some (JObj [], r)
          | None => '(l, r) ← parse_members f (skip_ws s'); Some (JObj l, r)
          end
      | None, None, None => parse_atom s
      end
  end
with parse_elements (fuel : nat) (s : string) : option (list json * string) :=
  match fuel with
  | O => None
  | S f =>
      '(v, r) ← parse_value f s;
      match read_char "]" (skip_ws r) with
      | Some r' => Some ([v], r')
      | None =>
          r' ← read_char "," (skip_ws r);
          '(l, r'') ← parse_elements f (skip_ws r'); Some (v :: l, r'')
      end
  end
with parse_members (fuel : nat) (s : string) : option (list (string * json) * string) :=
  match fuel with
  | O => None
  | S f =>
      s ← read_char dquote s; '(k, r) ← scan_string s;
      r ← read_char ":" (skip_ws r);
      '(v, r) ← parse_value f (skip_ws r);
      match read_char "}" (skip_ws r) with
      | Some r' => Some ([(k, v)], r')
      | None =>
          r' ← read_char "," (skip_ws r);
          '(l, r'') ← parse_members f (skip_ws r'); Some ((k, v) :: l, r'')
      end
  end.

(** Each nested call is preceded by at least one consumed character, except
    that of an array's first element: two units of fuel per character. *)
Definition fuel_for (s : string) : nat := 2 * String.length s + 2.

(** [JSONDecoder.decode]: every pair of every object, in text order. *)
Definition parse (s : string) : option json :=
  '(v, r) ← parse_value (fuel_for s) (skip_ws s);
  match skip_ws r with EmptyString => Some v | _ => None end.

(** [dict(pairs)]: the last value of a key, at its first position. *)
Fixpoint assoc_set (k : string) (v : json) (l : list (string * json)) :=
  match l with
  | [] => [(k, v)]
  | (k', v') :: l' => if String.eqb k k' then (k, v) :: l' else (k', v') :: assoc_set k v l'
  end.
Definition dict_of (kvs : list (string * json)) : list (string * json) :=
  fold_left (λ d p, assoc_set p.1 p.2 d) kvs [].
Fixpoint dedup (v : json) : json :=
  match v with
  | JArr l => JArr (map dedup l)
  | JObj kvs => JObj (dict_of (map (λ p, (p.1, dedup p.2)) kvs))
  | _ => v
  end.
Fixpoint keys_unique (kvs : list (string * json)) : bool :=
  match kvs with
  | [] => true
  | p :: l => forallb (λ q, negb (String.eqb p.1 q.1)) l && keys_unique l
  end.
Fixpoint unique_keys (v : json) : bool :=
  match v with
  | JArr l => forallb unique_keys l
  | JObj kvs => keys_unique kvs && forallb (λ p, unique_keys p.2) kvs
  | _ => true
  end.

Definition loads (s : string) : option json := dedup <$> parse s.
(** [json.loads(payload, object_pairs_hook=_unique_object)]. *)
Definition loads_unique (s : string) : option json :=
  v ← parse s; if unique_keys v then Some v else None.

(** [value.get(key)] on an object. *)
Fixpoint assoc (k : string) (l : list (string * json)) : option json :=
  match l with
  | [] => None
  | (k', v) :: l' => if String.eqb k k' then Some v else assoc k l'
  end.
Definition jget (k : string) (v : json) : option json :=
  match v with JObj kvs => assoc k kvs | _ => None end.

(** [set(value) == expected], then each [value[key]]. *)
Definition object_keys (v : json) : list string :=
  match v with JObj kvs => kvs.*1 | _ => [] end.
Definition same_keys (v : json) (expected : list string) : bool :=
  forallb (λ k, existsb (String.eqb k) expected) (object_keys v)
  && forallb (λ k, existsb (String.eqb k) (object_keys v)) expected.
Definition field (k : string) (v : json) : json := default JNull (jget k v).

(** The texts CPython prints for floats. *)
Definition float_ok (r : string) : bool :=
  (str_all is_number_char r
   && match number_of r with Some (JFloat _) => true | _ => false end)
  || existsb (String.eqb r) ["NaN"; "Infinity"; "-Infinity"].
Fixpoint floats_ok (v : json) : bool :=
  match v with
  | JFloat r => float_ok r
  | JArr l => forallb floats_ok l
  | JObj kvs => forallb (λ p, floats_ok p.2) kvs
  | _ => true
  end.

Definition opt_json (o : option string) : json :=
  match o with Some s => JStr s | None => JNull end.

Example dumps_example :
  dumps false (JObj [("b", JArr [JInt (-12); JNull]); ("a", JStr (String dquote "x"))])
  = String "{" (str_text false "a" +:+ ":" +:+ str_text false (String dquote "x")
    +:+ "," +:+ str_text false "b" +:+ ":[-12,null]}").
Proof. vm_compute. reflexivity. Qed.
Example loads_example :
  loads (dumps true (JObj [("b", JArr [JInt (-120); JNull; JFloat "1.5e-07"; JArr []]); ("a", JStr (String (chr 200) "x")); ("c", JObj [])]))
  = Some (JObj [("a", JStr (String (chr 200) "x")); ("b", JArr [JInt (-120); JNull; JFloat "1.5e-07"; JArr []]); ("c", JObj [])]).
Proof. vm_compute. reflexivity. Qed.

(** ** Induction over values *)

Section JsonInd.
Context (P : json → Prop).
Context (Hnull : P JNull) (Hbool : ∀ b, P (JBool b)) (Hint : ∀ n, P (JInt n))
  (Hfloat : ∀ r, P (JFloat r)) (Hstr : ∀ s, P (JStr s))
  (Harr : ∀ l, Forall P l → P (JArr l))
  (Hobj : ∀ kvs, Forall (λ p, P p.2) kvs → P (JObj kvs)).

Fixpoint json_ind' (v : json) : P v :=
  match v with
  | JNull => Hnull
  | JBool b => Hbool b
  | JInt n => Hint n
  | JFloat r => Hfloat r
  | JStr s => Hstr s
  | JArr l =>
      Harr l ((fix go (l : list json) : Forall P l :=
        match l with
        | [] => Forall_nil_2 P
        | v :: l' => Forall_cons_2 P v l' (json_ind' v) (go l')
        end) l)
  | JObj kvs =>
      Hobj kvs ((fix go (l : list (string * json)) : Forall (λ p, P p.2) l :=
        match l with
        | [] => Forall_nil_2 _
        | p :: l' => Forall_cons_2 (λ p, P p.2) p l' (json_ind' p.2) (go l')
        end) kvs)
  end.
End JsonInd.

(** ** Numbers *)

Lemma digits_value_app acc a b : digits_value acc (a +:+ b) = digits_value (digits_value acc a) b.
Proof. revert acc. induction a as [|c a IH]; intros acc; simpl; [done|]. apply IH. Qed.

Definition natural_head (s : string) : Prop :=
  match s with String c _ => c ≠ "0"%char | EmptyString => False end.

Lemma digit_nonzero n : 0 < n < 10 → digit n ≠ "0"%char.
Proof.
  intros H E. apply (f_equal ord) in E. unfold digit in E.
  rewrite ord_chr in E by lia. change (ord "0") with 48 in E. lia.
Qed.

Lemma dec_fuel_spec fuel n :
  0 <= n < 2 ^ Z.of_nat fuel →
  str_all is_digit (dec_fuel fuel n) = true
  ∧ digits_value 0 (dec_fuel fuel n) = n
  ∧ (0 < n → natural_head (dec_fuel fuel n))
  ∧ (n = 0 → (0 < fuel)%nat → dec_fuel fuel n = "0").
Proof.
  revert n. induction fuel as [|f IH]; intros n Hn.
  - change (2 ^ Z.of_nat 0) with 1 in Hn. simpl. repeat split; lia.
  - rewrite Nat2Z.inj_succ, Z.pow_succ_r in Hn by lia. simpl.
    destruct (Z.ltb_spec n 10) as [Hlt|Hge].
    + simpl. rewrite is_digit_digit by lia. unfold digit at 1. rewrite ord_chr by lia.
      repeat split; [lia| |by intros ->].
      intros Hpos. by apply digit_nonzero.
    + destruct (IH (n / 10)) as (Hd & Hv & Hh & _); [dlia|].
      rewrite str_all_app, Hd, digits_value_app, Hv. simpl.
      rewrite is_digit_digit by dlia. unfold digit at 1. rewrite ord_chr by dlia.
      repeat split; [dlia| |lia].
      intros _. specialize (Hh ltac:(dlia)). by destruct (dec_fuel f (n / 10)).
Qed.

Lemma dec_spec n :
  0 <= n →
  is_natural (dec n) = true ∧ digits_value 0 (dec n) = n ∧ str_all is_digit (dec n) = true.
Proof.
  intros Hn. unfold dec. set (f := S (Z.to_nat (Z.log2 n))).
  destruct (dec_fuel_spec f n) as (Hd & Hv & Hh & Hz).
  { subst f. rewrite Nat2Z.inj_succ, Z2Nat.id by apply Z.log2_nonneg.
    destruct (decide (n = 0)) as [->|]; [done|].
    pose proof (Z.log2_spec n ltac:(lia)). lia. }
  split; [|done]. destruct (decide (n = 0)) as [->|Hne].
  - by rewrite Hz by (subst f; lia || done).
  - specialize (Hh ltac:(lia)). unfold natural_head in Hh.
    destruct (dec_fuel f n) as [|c s]; [done|]. simpl in Hd |- *.
    apply andb_true_iff in Hd as [-> ->]. simpl.
    by destruct (Ascii.eqb_spec c "0").
Qed.

Definition no_number_head (s : string) : Prop :=
  match s with String c _ => is_number_char c = false | EmptyString => True end.

Lemma span_all p a rest :
  str_all p a = true →
  match rest with String c _ => p c = false | EmptyString => True end →
  span p (a +:+ rest) = (a, rest).
Proof.
  intros Ha Hr. induction a as [|c a IH]; simpl in *.
  - destruct rest as [|c r]; simpl; [done|]. by rewrite Hr.
  - apply andb_true_iff in Ha as [-> Ha]. by rewrite (IH Ha).
Qed.

Lemma is_digit_number c : is_digit c = true → is_number_char c = true.
Proof. unfold is_number_char. by intros ->. Qed.

(** What the text of an integer looks like to the reader. *)
Lemma int_text_spec n :
  str_all is_number_char (int_text n) = true ∧ number_of (int_text n) = Some (JInt n).
Proof.
  unfold int_text. destruct (Z.ltb_spec n 0).
  - destruct (dec_spec (- n)) as (Hnat & Hv & Hd); [lia|]. split.
    + cbn [String.append str_all].
      by rewrite (str_all_impl _ _ _ is_digit_number Hd).
    + unfold number_of. cbn [String.append unsign Ascii.eqb Bool.eqb].
      rewrite Hnat, Hv. repeat f_equal. lia.
  - destruct (dec_spec n) as (Hnat & Hv & Hd); [lia|]. split.
    + exact (str_all_impl _ _ _ is_digit_number Hd).
    + assert (unsign (dec n) = (false, dec n)) as Hu.
      { unfold unsign. destruct (dec n) as [|c s]; [done|]. simpl in Hd.
        destruct (Ascii.eqb_spec c "-") as [->|]; [|done]. discriminate. }
      unfold number_of. by rewrite Hu, Hnat, Hv.
Qed.

Lemma number_token_head tok v :
  number_of tok = Some v → ∃ c s, tok = String c s.
Proof. destruct tok as [|c s]; [|eauto]. discriminate. Qed.

(** A token of number characters is none of the constants, except a signed
    infinity, whose second character gives it away. *)
Lemma read_lit_number lit tok rest c lit' :
  lit = String c lit' → is_number_char c = false →
  str_all is_number_char tok = true → tok ≠ "" →
  read_lit lit (tok +:+ rest) = None.
Proof.
  intros -> Hc Ht Hne. destruct tok as [|d tok]; [done|]. simpl in *.
  apply andb_true_iff in Ht as [Hd _].
  destruct (Ascii.eqb_spec c d); congruence.
Qed.

Lemma read_constant_number tok rest :
  str_all is_number_char tok = true → tok ≠ "" → no_number_head rest ∧ tok ≠ "-" →
  read_constant constants (tok +:+ rest) = None.
Proof.
  intros Ht Hne [Hr Hm]. unfold constants. cbn [read_constant].
  do 5 (erewrite read_lit_number by (try done; reflexivity)).
  destruct tok as [|c [|d tok]]; [done| |].
  - cbn [String.append read_lit]. destruct (Ascii.eqb_spec "-" c); [congruence|done].
  - cbn [String.append read_lit]. destruct (Ascii.eqb_spec "-" c); [|done].
    simpl in Ht. rewrite !andb_true_iff in Ht. destruct Ht as (_ & Hd & _).
    destruct (Ascii.eqb_spec "I" d); [subst; discriminate|done].
Qed.

Lemma parse_atom_number tok rest v :
  str_all is_number_char tok = true → number_of tok = Some v → no_number_head rest →
  parse_atom (tok +:+ rest) = Some (v, rest).
Proof.
  intros Ht Hv Hr. destruct (number_token_head _ _ Hv) as (c & s & ->).
  unfold parse_atom. rewrite read_constant_number; [|done..|].
  - rewrite span_all by done. simpl. by rewrite Hv.
  - split; [done|]. intros [= -> ->]. discriminate.
Qed.

(** ** Strings *)

Lemma scan_escape ea c t :
  scan_string (escape ea c +:+ t) =
  match scan_string t with Some (x, r) => Some (String c x, r) | None => None end.
Proof. destruct ea, c as [[] [] [] [] [] [] [] []]; reflexivity. Qed.

Lemma scan_escape_all ea s rest :
  scan_string (escape_all ea s +:+ String dquote rest) = Some (s, rest).
Proof.
  induction s as [|c s IH]; [done|]. cbn [escape_all].
  by rewrite str_app_assoc, scan_escape, IH.
Qed.

Lemma read_str_text ea s rest :
  read_char dquote (str_text ea s +:+ rest) = Some (escape_all ea s +:+ String dquote rest).
Proof. unfold str_text. cbn. by rewrite str_app_assoc. Qed.

(** ** The round trip *)

(** The fuel a value's text needs. *)
Definition need_items {A} (need : A → nat) : list A → nat :=
  fix go l := match l with [] => 0 | a :: l' => S (need a + go l') end%nat.
Fixpoint need (v : json) : nat :=
  match v with
  | JArr l => S (need_items need l)
  | JObj kvs => S (need_items (λ p, need p.2) kvs)
  | _ => 1
  end.

(** A value's text starts with a character that is neither white space nor a
    closing bracket. *)
Definition value_head (s : string) : Prop :=
  match s with
  | String c _ => is_ws c = false ∧ c ≠ "]"%char ∧ c ≠ "}"%char
  | EmptyString => False
  end.

Lemma number_char_head c :
  is_number_char c = true →
  is_ws c = false ∧ c ≠ "]"%char ∧ c ≠ "}"%char ∧ c ≠ dquote ∧ c ≠ "["%char ∧ c ≠ "{"%char.
Proof. destruct c as [[] [] [] [] [] [] [] []]; try discriminate; intros _; by repeat split. Qed.

Lemma float_ok_cases r :
  float_ok r = true →
  (str_all is_number_char r = true ∧ number_of r = Some (JFloat r))
  ∨ r = "NaN" ∨ r = "Infinity" ∨ r = "-Infinity".
Proof.
  unfold float_ok. rewrite orb_true_iff, andb_true_iff. intros [[Ha Hn] | Hc].
  - left. split; [done|]. unfold number_of in *. destruct (unsign r) as [neg body].
    repeat case_match; try done.
  - right. simpl in Hc. rewrite !orb_true_iff, !String.eqb_eq in Hc. naive_solver.
Qed.

Lemma int_text_head n : ∃ c s, int_text n = String c s ∧ is_number_char c = true.
Proof.
  destruct (int_text_spec n) as [Ha Hn].
  destruct (number_token_head _ _ Hn) as (c & s & E). rewrite E in Ha |- *.
  simpl in Ha. apply andb_true_iff in Ha as [Hc _]. eauto.
Qed.

Lemma render_head ea v : floats_ok v = true → value_head (render ea v).
Proof.
  destruct v as [|[]|n|r|s|l|kvs]; simpl; try done.
  - destruct (int_text_head n) as (c & s & -> & Hc). simpl.
    pose proof (number_char_head c Hc). naive_solver.
  - intros [[Ha Hn] | [-> | [-> | ->]]]%float_ok_cases; try done.
    destruct (number_token_head _ _ Hn) as (c & s & ->). simpl in Ha |- *.
    apply andb_true_iff in Ha as [Hc _]. pose proof (number_char_head c Hc). naive_solver.
Qed.

Lemma skip_ws_head s : value_head s → skip_ws s = s.
Proof. destruct s as [|c s]; [done|]. simpl. by intros (-> & _). Qed.
Lemma skip_ws_app_head s t : value_head s → skip_ws (s +:+ t) = s +:+ t.
Proof. destruct s as [|c s]; [done|]. simpl. by intros (-> & _). Qed.
Lemma read_close_head c s t :
  value_head s → c = "]"%char ∨ c = "}"%char → read_char c (s +:+ t) = None.
Proof.
  destruct s as [|d s]; [done|]. simpl. intros (_ & H1 & H2) Hc.
  destruct (Ascii.eqb_spec d c); naive_solver.
Qed.

Lemma need_items_cons {A} (nd : A → nat) a l :
  need_items nd (a :: l) = S (nd a + need_items nd l).
Proof. reflexivity. Qed.
Lemma join_items_cons {A} (item : A → string) close first a l :
  join_items item close first (a :: l)
  = (if first then "" else ",") +:+ item a +:+ join_items item close false l.
Proof. reflexivity. Qed.

Lemma join_items_false {A} (item : A → string) close a l :
  join_items item close false (a :: l) = String "," (join_items item close true (a :: l)).
Proof. reflexivity. Qed.
Lemma join_items_head {A} (item : A → string) close a l t :
  value_head (item a) → value_head (join_items item close true (a :: l) +:+ t).
Proof. cbn. by destruct (item a). Qed.

Lemma need_items_bound {A} (nd : A → nat) (item : A → string) close first l :
  Forall (λ a, (nd a <= 2 * String.length (item a))%nat) l →
  (need_items nd l <= 2 * String.length (join_items item close first l)
                      + (if first then 1 else 0))%nat.
Proof.
  intros H. revert first. induction H as [|a l Ha Hl IH]; intros first; [cbn; lia|].
  specialize (IH false). rewrite need_items_cons, join_items_cons, !str_app_length.
  set (x := String.length (join_items item close false l)) in *. clearbody x.
  destruct first; simpl in *; lia.
Qed.

Lemma int_text_length n : (1 <= String.length (int_text n))%nat.
Proof. destruct (int_text_head n) as (c & s & -> & _). simpl. lia. Qed.

Lemma need_bound ea v :
  floats_ok v = true → (need v <= 2 * String.length (render ea v))%nat.
Proof.
  induction v as [|[]|n|r|s|l IH|kvs IH] using json_ind'; simpl; intros Hl; try lia.
  - pose proof (int_text_length n). lia.
  - apply (render_head ea (JFloat r)) in Hl. destruct r; [done|]. simpl. lia.
  - rewrite forallb_forall in Hl. rewrite Forall_forall in IH.
    assert (Forall (λ v, (need v <= 2 * String.length (render ea v))%nat) l) as Hn.
    { apply Forall_forall. intros v Hv. apply IH; [done|].
      apply Hl. by apply list_elem_of_In. }
    pose proof (need_items_bound _ _ "]" true l Hn). simpl in *. lia.
  - rewrite forallb_forall in Hl. rewrite Forall_forall in IH.
    assert (Forall (λ p, (need p.2 <= 2 * String.length
      (str_text ea p.1 +:+ ":" +:+ render ea p.2))%nat) kvs) as Hn.
    { apply Forall_forall. intros p Hp. rewrite !str_app_length.
      specialize (IH p Hp (Hl p ltac:(by apply list_elem_of_In))). lia. }
    pose proof (need_items_bound _ _ "}" true kvs Hn). simpl in *. lia.
Qed.

Section RoundTrip.
Context (ea : bool).

Definition reads (v : json) : Prop :=
  ∀ fuel rest, (need v <= fuel)%nat → no_number_head rest →
    parse_value fuel (render ea v +:+ rest) = Some (v, rest).

Lemma reads_number tok v :
  str_all is_number_char tok = true → number_of tok = Some v →
  render ea v = tok → need v = 1%nat → reads v.
Proof.
  intros Ha Hn Hr Hnd fuel rest Hf Hrest. rewrite Hr. rewrite Hnd in Hf.
  destruct fuel as [|fuel]; [lia|]. cbn [parse_value].
  destruct (number_token_head _ _ Hn) as (c & s & E).
  assert (is_number_char c = true) as Hc.
  { rewrite E in Ha. simpl in Ha. by apply andb_true_iff in Ha as []. }
  destruct (number_char_head c Hc) as (_ & _ & _ & H1 & H2 & H3).
  assert (∀ d, c ≠ d → read_char d (tok +:+ rest) = None) as Hrd.
  { intros d Hd. rewrite E. simpl. by destruct (Ascii.eqb_spec c d). }
  rewrite !Hrd by done. by apply parse_atom_number.
Qed.

Lemma reads_elements l fuel rest :
  Forall reads l → Forall (λ v, floats_ok v = true) l → l ≠ [] →
  (need_items need l <= fuel)%nat →
  parse_elements fuel (join_items (render ea) "]" true l +:+ rest) = Some (l, rest).
Proof.
  intros Hl. revert fuel. induction Hl as [|v l Hv Hl IH]; intros fuel Hok Hne Hf; [done|]. clear Hne.
  apply Forall_cons in Hok as [Hv1 Hok]. rewrite need_items_cons in Hf.
  destruct fuel as [|fuel]; [lia|]. cbn [parse_elements].
  rewrite join_items_cons, !str_app_assoc. cbn [String.append].
  rewrite Hv; [|lia|by destruct l]. cbn [mbind option_bind].
  destruct l as [|v2 l]; [done|]. rewrite join_items_false.
  assert (value_head (join_items (render ea) "]" true (v2 :: l) +:+ rest)) as Hh.
  { apply join_items_head, render_head. by apply Forall_cons in Hok as [? _]. }
  specialize (IH fuel Hok ltac:(done) ltac:(lia)). cbn [String.append].
  remember (join_items (render ea) "]" true (v2 :: l) +:+ rest) as tail eqn:Et.
  cbn. change (is_ws ",") with false. cbn.
  rewrite skip_ws_head by done. by rewrite IH.
Qed.

Lemma reads_members kvs fuel rest :
  Forall (λ p, reads p.2) kvs → Forall (λ p, floats_ok p.2 = true) kvs → kvs ≠ [] →
  (need_items (λ p, need p.2) kvs <= fuel)%nat →
  parse_members fuel (join_items (λ p, str_text ea p.1 +:+ ":" +:+ render ea p.2)
    "}" true kvs +:+ rest) = Some (kvs, rest).
Proof.
  intros Hl. revert fuel.
  induction Hl as [|[k v] l Hv Hl IH]; intros fuel Hok Hne Hf; [done|]. clear Hne.
  apply Forall_cons in Hok as [Hv1 Hok]. rewrite need_items_cons in Hf.
  cbn in Hf, Hv, Hv1. destruct fuel as [|fuel]; [lia|]. cbn [parse_members].
  rewrite join_items_cons, !str_app_assoc. cbn [String.append fst snd].
  rewrite read_str_text. cbn [mbind option_bind]. rewrite scan_escape_all.
  cbn. change (is_ws ":") with false. cbn.
  rewrite skip_ws_app_head by (by apply render_head).
  rewrite Hv; [|lia|by destruct l]. cbn [mbind option_bind].
  destruct l as [|p2 l]; [done|]. rewrite join_items_false.
  specialize (IH fuel Hok ltac:(done) ltac:(lia)). cbn [String.append].
  assert (value_head (join_items (λ p, str_text ea p.1 +:+ ":" +:+ render ea p.2)
    "}" true (p2 :: l) +:+ rest)) as Hh by (by apply join_items_head).
  remember (join_items _ "}" true (p2 :: l) +:+ rest) as tail eqn:Et.
  cbn. change (is_ws ",") with false. cbn.
  rewrite skip_ws_head by done. by rewrite IH.
Qed.

Lemma reads_render v : floats_ok v = true → reads v.
Proof.
  induction v as [|b|n|r|s|l IH|kvs IH] using json_ind'; intros Hok.
  - intros [|f] rest Hf _; [simpl in Hf; lia|done].
  - intros [|f] rest Hf _; [simpl in Hf; lia|by destruct b].
  - destruct (int_text_spec n). by eapply reads_number.
  - apply float_ok_cases in Hok as [[Ha Hn] | [-> | [-> | ->]]];
      [by eapply reads_number| | |];
      (intros [|f] rest Hf _; [simpl in Hf; lia|done]).
  - intros [|f] rest Hf _; [simpl in Hf; lia|]. cbn [parse_value render].
    rewrite read_str_text. cbn. by rewrite scan_escape_all.
  - intros fuel rest Hf Hrest. simpl in Hok, Hf. destruct fuel as [|f]; [lia|].
    destruct l as [|v l]; [done|]. rewrite forallb_forall in Hok.
    assert (Forall (λ v, floats_ok v = true) (v :: l)) as Hoks.
    { apply Forall_forall. intros x Hx. apply Hok. by apply list_elem_of_In. }
    assert (value_head (join_items (render ea) "]" true (v :: l))) as Hh.
    { cbn. apply Forall_cons in Hoks as [Hv _]. pose proof (render_head ea v Hv).
      by destruct (render ea v). }
    cbn [parse_value render String.append read_char Ascii.eqb Bool.eqb dquote].
    cbn [chr Z.to_N ascii_of_N ascii_of_pos] in *.
    rewrite skip_ws_app_head, read_close_head by auto.
    rewrite reads_elements; [done| |done|done|lia].
    rewrite Forall_forall in *. auto.
  - intros fuel rest Hf Hrest. simpl in Hok, Hf. destruct fuel as [|f]; [lia|].
    destruct kvs as [|[k v] l]; [done|]. rewrite forallb_forall in Hok.
    assert (Forall (λ p : string * json, floats_ok p.2 = true) ((k, v) :: l)) as Hoks.
    { apply Forall_forall. intros x Hx. apply Hok. by apply list_elem_of_In. }
    cbn [parse_value render String.append read_char Ascii.eqb Bool.eqb dquote].
    rewrite skip_ws_app_head, read_close_head by (by auto).
    rewrite reads_members; [done| |done|done|lia].
    rewrite Forall_forall in *. auto.
Qed.
End RoundTrip.

(** A text may be followed by blanks. *)
Lemma parse_render_blank ea v tail :
  floats_ok v = true → no_number_head tail → skip_ws tail = EmptyString →
  parse (render ea v +:+ tail) = Some v.
Proof.
  intros Hv Ht Hb. unfold parse. rewrite skip_ws_app_head by (by apply render_head).
  pose proof (need_bound ea v Hv).
  rewrite (reads_render ea v Hv) by (unfold fuel_for; rewrite ?str_app_length; lia || done).
  simpl. by rewrite Hb.
Qed.
Lemma parse_render ea v : floats_ok v = true → parse (render ea v) = Some v.
Proof.
  intros Hv. rewrite <- (str_app_nil_r (render ea v)). by apply parse_render_blank.
Qed.

(** ** Objects as dictionaries *)

Lemma keys_unique_NoDup kvs : keys_unique kvs = true ↔ NoDup (kvs.*1).
Proof.
  induction kvs as [|[k v] l IH]; simpl; [by split; [constructor|]|].
  rewrite andb_true_iff, IH, NoDup_cons, forallb_forall.
  assert ((∀ q, In q l → negb (String.eqb k q.1) = true) ↔ k ∉ l.*1) as ->; [|done].
  rewrite list_elem_of_fmap. split.
  - intros H ([k' v'] & -> & Hin). apply list_elem_of_In in Hin.
    specialize (H _ Hin). simpl in H. by rewrite String.eqb_refl in H.
  - intros H q Hq. destruct (String.eqb_spec k q.1) as [->|]; [|done].
    destruct H. exists q. split; [done|]. by apply list_elem_of_In.
Qed.

Lemma sort_pairs_perm l : Permutation (sort_pairs l) l.
Proof. apply isort_perm. Qed.

Lemma forallb_perm {A} (f : A → bool) l l' : Permutation l l' → forallb f l = forallb f l'.
Proof.
  induction 1; simpl; try congruence. by rewrite !andb_assoc, (andb_comm (f y)).
Qed.

Lemma map_pair_fst (f : json → json) kvs :
  (map (λ p : string * json, (p.1, f p.2)) kvs).*1 = kvs.*1.
Proof. induction kvs as [|p l IH]; [done|]. cbn. f_equal. exact IH. Qed.

Lemma forallb_map_forall {A B} (f : B → bool) (g : A → B) (h : A → bool) l :
  Forall (λ a, h a = true → f (g a) = true) l →
  forallb h l = true → forallb f (map g l) = true.
Proof.
  induction 1; simpl; [done|]. rewrite !andb_true_iff. naive_solver.
Qed.

Lemma canon_floats v : floats_ok v = true → floats_ok (canon v) = true.
Proof.
  induction v as [| | | | |l IH|kvs IH] using json_ind'; simpl; try done.
  - by apply forallb_map_forall.
  - rewrite (forallb_perm _ _ _ (sort_pairs_perm _)).
    apply (forallb_map_forall (λ p, floats_ok p.2) (λ p, (p.1, canon p.2))
      (λ p, floats_ok p.2)). done.
Qed.

Lemma canon_unique v : unique_keys v = true → unique_keys (canon v) = true.
Proof.
  induction v as [| | | | |l IH|kvs IH] using json_ind'; simpl; try done.
  - by apply forallb_map_forall.
  - rewrite !andb_true_iff. intros [Hk Hu]. split.
    + apply keys_unique_NoDup. rewrite sort_pairs_perm, map_pair_fst.
      by apply keys_unique_NoDup.
    + rewrite (forallb_perm _ _ _ (sort_pairs_perm _)). revert Hu.
      apply (forallb_map_forall (λ p, unique_keys p.2) (λ p, (p.1, canon p.2))
        (λ p, unique_keys p.2)). done.
Qed.

Lemma assoc_set_fresh k v d : k ∉ d.*1 → assoc_set k v d = d ++ [(k, v)].
Proof.
  induction d as [|[k' v'] d IH]; simpl; [done|].
  rewrite not_elem_of_cons. intros [Hne Hd].
  destruct (String.eqb_spec k k'); [done|]. by rewrite IH.
Qed.

Lemma dict_of_unique kvs : NoDup (kvs.*1) → dict_of kvs = kvs.
Proof.
  unfold dict_of. intros Hnd. change kvs with ([] ++ kvs) in Hnd |- * at 2.
  generalize (@nil (string * json)) as d, Hnd. clear Hnd.
  induction kvs as [|[k v] l IH]; intros d Hnd; simpl; [by rewrite app_nil_r|].
  rewrite fmap_app in Hnd. simpl in Hnd. rewrite assoc_set_fresh.
  - rewrite IH; [by rewrite <- app_assoc|]. rewrite <- app_assoc. simpl.
    by rewrite fmap_app.
  - apply NoDup_app in Hnd as (_ & Hd & _). intros Hin. apply (Hd k Hin). by left.
Qed.

Lemma map_id_forall {A} (f : A → A) (P : A → bool) l :
  Forall (λ a, P a = true → f a = a) l → forallb P l = true → map f l = l.
Proof.
  induction 1 as [|a l Ha Hl IH]; simpl; [done|]. rewrite andb_true_iff.
  intros [HP Hf]. rewrite Ha, IH; done.
Qed.

Lemma dedup_unique v : unique_keys v = true → dedup v = v.
Proof.
  induction v as [| | | | |l IH|kvs IH] using json_ind'; simpl; try done.
  - intros Hu. f_equal. by apply (map_id_forall _ unique_keys).
  - rewrite andb_true_iff. intros [Hk Hu].
    rewrite (map_id_forall _ (λ p, unique_keys p.2)).
    + by rewrite dict_of_unique by (by apply keys_unique_NoDup).
    + eapply Forall_impl; [exact IH|]. intros [k v]; simpl. intros H Hv. by rewrite H.
    + done.
Qed.

(** What a value must satisfy to be written and read back: the keys of every
    object are distinct (a [dict] always is such) and its floats are floats. *)
Definition json_ok (v : json) : bool := unique_keys v && floats_ok v.

Lemma loads_dumps_ok ea v : json_ok v = true → loads (dumps ea v) = Some (canon v).
Proof.
  unfold json_ok. rewrite andb_true_iff. intros [Hu Hf]. unfold loads, dumps.
  rewrite parse_render by (by apply canon_floats). simpl.
  by rewrite dedup_unique by (by apply canon_unique).
Qed.

Lemma loads_unique_dumps_blank ea v tail :
  json_ok v = true → no_number_head tail → skip_ws tail = EmptyString →
  loads_unique (dumps ea v +:+ tail) = Some (canon v).
Proof.
  unfold json_ok. rewrite andb_true_iff. intros [Hu Hf] Ht Hb. unfold loads_unique, dumps.
  rewrite parse_render_blank by (done || by apply canon_floats). simpl. by rewrite canon_unique.
Qed.
Lemma loads_unique_dumps_ok ea v :
  json_ok v = true → loads_unique (dumps ea v) = Some (canon v).
Proof.
  intros Hv. rewrite <- (str_app_nil_r (dumps ea v)). by apply loads_unique_dumps_blank.
Qed.

Lemma assoc_elem k v l : NoDup (l.*1) → assoc k l = Some v ↔ (k, v) ∈ l.
Proof.
  induction l as [|[k' v'] l IH]; simpl; [set_solver|].
  rewrite NoDup_cons. intros [Hk Hnd]. rewrite elem_of_cons.
  destruct (String.eqb_spec k k') as [->|Hne].
  - split; [intros [= ->]; by left|]. intros [[= ->]|Hin]; [done|].
    destruct Hk. apply list_elem_of_fmap. by exists (k', v).
  - rewrite IH by done. naive_solver.
Qed.

Lemma assoc_perm k l l' : NoDup (l.*1) → Permutation l l' → assoc k l = assoc k l'.
Proof.
  intros Hnd Hp. assert (NoDup (l'.*1)) as Hnd' by (by rewrite <- Hp).
  apply option_eq. intros v. by rewrite !assoc_elem, Hp.
Qed.

Lemma assoc_map k (f : json → json) l :
  assoc k (map (λ p, (p.1, f p.2)) l) = f <$> assoc k l.
Proof. induction l as [|[k' v'] l IH]; simpl; [done|]. by destruct (String.eqb k k'). Qed.

(** Reading a key of a stored object gives the stored key's value. *)
Lemma jget_canon k v : unique_keys v = true → jget k (canon v) = canon <$> jget k v.
Proof.
  destruct v; simpl; try done. rewrite andb_true_iff, keys_unique_NoDup. intros [Hk _].
  rewrite (assoc_perm _ _ (map (λ p, (p.1, canon p.2)) kvs)).
  - apply assoc_map.
  - by rewrite sort_pairs_perm, map_pair_fst.
  - apply sort_pairs_perm.
Qed.

(** ** Reading a longer text

    What the reader recognised in a text it recognises in every extension of
    that text; so no proper prefix of an object's text is itself read. *)

Lemma skip_ws_app s t c r :
  skip_ws s = String c r → skip_ws (s +:+ t) = String c (r +:+ t).
Proof.
  induction s as [|d s IH]; simpl; [done|]. destruct (is_ws d); [done|]. by intros [= -> ->].
Qed.

Lemma read_char_app c s r t : read_char c s = Some r → read_char c (s +:+ t) = Some (r +:+ t).
Proof. destruct s as [|d s]; simpl; [done|]. destruct (Ascii.eqb d c); naive_solver. Qed.

Lemma read_char_none_app c s t : s ≠ "" → read_char c s = None → read_char c (s +:+ t) = None.
Proof. destruct s as [|d s]; [done|]. simpl. by destruct (Ascii.eqb d c). Qed.

Lemma read_char_cons c s r : read_char c s = Some r ↔ s = String c r.
Proof.
  destruct s as [|d s]; simpl; [done|].
  destruct (Ascii.eqb_spec d c) as [->|]; naive_solver.
Qed.

Lemma read_char_skip_app c s r t :
  read_char c (skip_ws s) = Some r → read_char c (skip_ws (s +:+ t)) = Some (r +:+ t).
Proof.
  intros H. apply read_char_cons in H. erewrite skip_ws_app by done.
  by apply read_char_cons.
Qed.

Lemma read_char_skip_other c d s r t :
  c ≠ d → read_char d (skip_ws s) = Some r → read_char c (skip_ws (s +:+ t)) = None.
Proof.
  intros Hne H. apply read_char_cons in H. erewrite skip_ws_app by done. simpl.
  destruct (Ascii.eqb_spec d c); congruence.
Qed.

Lemma scan_string_app s x r t :
  scan_string s = Some (x, r) → scan_string (s +:+ t) = Some (x, r +:+ t).
Proof.
  remember (String.length s) as n eqn:En. revert s x r En.
  induction (lt_wf n) as [n _ IH]. intros [|c s1] x r En; [done|]. simpl in En.
  cbn [scan_string String.append].
  destruct (Ascii.eqb c dquote); [naive_solver|].
  destruct (Ascii.eqb c backslash).
  - destruct s1 as [|e s2]; [done|]. simpl in En. cbn [String.append].
    destruct (Ascii.eqb e "u").
    + destruct s2 as [|a [|b [|c' [|d s3]]]]; try done. simpl in En. cbn [String.append].
      destruct (hex4 a b c' d) as [n'|]; [|done]. destruct (n' <? 256); [|done].
      destruct (scan_string s3) as [[x' r']|] eqn:E; [|done].
      apply (IH (String.length s3) ltac:(lia) _ _ _ eq_refl) in E. rewrite E. naive_solver.
    + destruct (simple_escape e); [|done].
      destruct (scan_string s2) as [[x' r']|] eqn:E; [|done].
      apply (IH (String.length s2) ltac:(lia) _ _ _ eq_refl) in E. rewrite E. naive_solver.
  - destruct (ord c <? 32); [done|].
    destruct (scan_string s1) as [[x' r']|] eqn:E; [|done].
    apply (IH (String.length s1) ltac:(lia) _ _ _ eq_refl) in E. rewrite E. naive_solver.
Qed.

Lemma read_lit_app lit s r t : read_lit lit s = Some r → read_lit lit (s +:+ t) = Some (r +:+ t).
Proof.
  revert s. induction lit as [|c lit IH]; intros s; simpl; [naive_solver|].
  destruct s as [|d s]; [done|]. simpl. destruct (Ascii.eqb c d); [apply IH|done].
Qed.

Definition lit_head (s : string) : option ascii :=
  match s with String c _ => Some c | EmptyString => None end.

Lemma read_lit_head lit s r : read_lit lit s = Some r → lit ≠ "" → lit_head s = lit_head lit.
Proof.
  destruct lit as [|c lit]; [done|]. destruct s as [|d s]; [done|]. simpl.
  destruct (Ascii.eqb_spec c d); naive_solver.
Qed.

Lemma read_constant_app cs s v r t :
  NoDup (map (λ p : string * json, lit_head p.1) cs) → Forall (λ p : string * json, p.1 ≠ "") cs →
  read_constant cs s = Some (v, r) → read_constant cs (s +:+ t) = Some (v, r +:+ t).
Proof.
  intros Hnd Hne. induction cs as [|[lit w] cs IH]; simpl; [done|].
  apply NoDup_cons in Hnd as [Hh Hnd]. apply Forall_cons in Hne as [Hl Hne]. simpl in Hl.
  destruct (read_lit lit s) as [r'|] eqn:E.
  - intros [= <- <-]. by rewrite (read_lit_app _ _ _ _ E).
  - intros Hc. rewrite (IH Hnd Hne Hc).
    destruct (read_lit lit (s +:+ t)) as [r'|] eqn:E'; [|done]. exfalso.
    apply Hh. apply list_elem_of_fmap.
    assert (∃ p, p ∈ cs ∧ lit_head s = lit_head p.1) as (p & Hp & Hs).
    { clear -Hc Hne. induction cs as [|[l' w'] cs IH]; simpl in *; [done|].
      apply Forall_cons in Hne as [Hl Hne].
      destruct (read_lit l' s) eqn:E2.
      - exists (l', w'). split; [by left|]. by eapply read_lit_head.
      - destruct (IH Hne Hc) as (p & Hp & Hs). exists p. split; [by right|done]. }
    exists p. split; [|done]. rewrite <- Hs. apply read_lit_head in E'; [|done].
    rewrite Forall_forall in Hne. specialize (Hne p Hp). simpl in Hne.
    destruct p as [lp wp], s as [|c s]; simpl in *; [by destruct lp|congruence].
Qed.

Lemma span_spec p s a b :
  span p s = (a, b) →
  s = a +:+ b ∧ str_all p a = true
  ∧ match b with String c _ => p c = false | EmptyString => True end.
Proof.
  revert a b. induction s as [|c s IH]; intros a b; simpl; [naive_solver|].
  destruct (p c) eqn:Hc.
  - destruct (span p s) as [a' b'] eqn:E. intros [= <- <-].
    destruct (IH _ _ eq_refl) as (-> & Ha & Hb). simpl. by rewrite Hc, Ha.
  - intros [= <- <-]. done.
Qed.

Lemma parse_atom_app s v r t :
  parse_atom s = Some (v, r) → r ≠ "" → parse_atom (s +:+ t) = Some (v, r +:+ t).
Proof.
  unfold parse_atom at 1. intros H Hr. destruct (read_constant constants s) as [[w q]|] eqn:E.
  - simplify_eq. unfold parse_atom. erewrite read_constant_app; [done| | |done].
    + apply NoDup_ListNoDup. repeat constructor; simpl; intuition discriminate.
    + by repeat constructor.
  - destruct (span is_number_char s) as [tok q] eqn:Es.
    destruct (number_of tok) as [w|] eqn:En; [|done]. simpl in H. simplify_eq.
    destruct (span_spec _ _ _ _ Es) as (-> & Ha & Hq). rewrite str_app_assoc.
    apply parse_atom_number; [done..|]. by destruct r.
Qed.

(** A number at the very end of a text is the one thing an extension may
    change. *)
Definition closed (v : json) : Prop :=
  match v with JStr _ | JArr _ | JObj _ => True | _ => False end.

Lemma nonempty_skip c s r : read_char c (skip_ws s) = Some r → s ≠ "".
Proof. intros H ->. discriminate. Qed.

(** The three parsers at one level of fuel, given the level below. *)
Definition value_ext (f : nat) : Prop :=
  ∀ s v r f' t, parse_value f s = Some (v, r) → r ≠ "" ∨ closed v →
    (f <= f')%nat → parse_value f' (s +:+ t) = Some (v, r +:+ t).
Definition elements_ext (f : nat) : Prop :=
  ∀ s l r f' t, parse_elements f s = Some (l, r) →
    (f <= f')%nat → parse_elements f' (s +:+ t) = Some (l, r +:+ t).
Definition members_ext (f : nat) : Prop :=
  ∀ s l r f' t, parse_members f s = Some (l, r) →
    (f <= f')%nat → parse_members f' (s +:+ t) = Some (l, r +:+ t).

Lemma parse_atom_closed s v r : parse_atom s = Some (v, r) → ¬ closed v.
Proof.
  unfold parse_atom. intros H Hc. destruct (read_constant constants s) as [[w q]|] eqn:E.
  - simplify_eq. unfold constants in E. cbn [read_constant] in E.
    repeat case_match; simplify_eq; done.
  - destruct (span is_number_char s) as [tok q]. unfold number_of in H.
    destruct (unsign tok). repeat case_match; simpl in H; simplify_eq; done.
Qed.

Section Extension.
Context (f : nat) (IHv : value_ext f) (IHe : elements_ext f) (IHm : members_ext f).

Lemma value_skip_ext s v r f' t :
  parse_value f (skip_ws s) = Some (v, r) → r ≠ "" → (f <= f')%nat →
  parse_value f' (skip_ws (s +:+ t)) = Some (v, r +:+ t).
Proof.
  intros H Hr Hf. destruct (skip_ws s) as [|c s2] eqn:E; [by destruct f|].
  rewrite (skip_ws_app _ _ _ _ E). by apply (IHv (String c s2)); [|left|].
Qed.
Lemma elements_skip_ext s l r f' t :
  parse_elements f (skip_ws s) = Some (l, r) → (f <= f')%nat →
  parse_elements f' (skip_ws (s +:+ t)) = Some (l, r +:+ t).
Proof.
  intros H Hf. destruct (skip_ws s) as [|c s2] eqn:E.
  - destruct f as [|[|]]; done.
  - rewrite (skip_ws_app _ _ _ _ E). by apply (IHe (String c s2)).
Qed.
Lemma members_skip_ext s l r f' t :
  parse_members f (skip_ws s) = Some (l, r) → (f <= f')%nat →
  parse_members f' (skip_ws (s +:+ t)) = Some (l, r +:+ t).
Proof.
  intros H Hf. destruct (skip_ws s) as [|c s2] eqn:E; [by destruct f|].
  rewrite (skip_ws_app _ _ _ _ E). by apply (IHm (String c s2)).
Qed.

(** A bracket that does not follow now does not follow in the extension. *)
Lemma no_close_ext c s t : skip_ws s ≠ "" →
  read_char c (skip_ws s) = None → read_char c (skip_ws (s +:+ t)) = None.
Proof.
  intros Hs H. destruct (skip_ws s) as [|d s2] eqn:E; [done|].
  rewrite (skip_ws_app _ _ _ _ E). by apply (read_char_none_app c (String d s2)).
Qed.

Lemma value_step : value_ext (S f).
Proof.
  intros s v r [|f'] t H Hrc Hf; [lia|].
  assert (s ≠ "") as Hne by (intros ->; discriminate).
  cbn [parse_value] in H |- *.
  destruct (read_char dquote s) as [s'|] eqn:E1.
  { rewrite (read_char_app _ _ _ _ E1).
    destruct (scan_string s') as [[x q]|] eqn:Ex; simpl in H; simplify_eq.
    by rewrite (scan_string_app _ _ _ _ Ex). }
  rewrite read_char_none_app by done.
  destruct (read_char "[" s) as [s'|] eqn:E2.
  { rewrite (read_char_app _ _ _ _ E2).
    destruct (read_char "]" (skip_ws s')) as [q|] eqn:E4.
    - simplify_eq. by rewrite (read_char_skip_app _ _ _ _ E4).
    - destruct (parse_elements f (skip_ws s')) as [[l q]|] eqn:El; simpl in H; simplify_eq.
      rewrite no_close_ext; [|intros E; rewrite E in El; by destruct f as [|[|]]|done].
      by erewrite elements_skip_ext by (done || lia). }
  rewrite read_char_none_app by done.
  destruct (read_char "{" s) as [s'|] eqn:E3.
  { rewrite (read_char_app _ _ _ _ E3).
    destruct (read_char "}" (skip_ws s')) as [q|] eqn:E4.
    - simplify_eq. by rewrite (read_char_skip_app _ _ _ _ E4).
    - destruct (parse_members f (skip_ws s')) as [[l q]|] eqn:El; simpl in H; simplify_eq.
      rewrite no_close_ext; [|intros E; rewrite E in El; by destruct f|done].
      by erewrite members_skip_ext by (done || lia). }
  rewrite read_char_none_app by done.
  destruct Hrc as [Hr|Hc]; [by apply parse_atom_app|].
  by destruct (parse_atom_closed _ _ _ H).
Qed.

Lemma elements_step : elements_ext (S f).
Proof.
  intros s l r [|f'] t H Hf; [lia|]. cbn [parse_elements] in H |- *.
  destruct (parse_value f s) as [[w q]|] eqn:Ev; [|done]. simpl in H.
  destruct (read_char "]" (skip_ws q)) as [q'|] eqn:E1.
  - simplify_eq. rewrite (IHv _ _ _ f' t Ev); [|left; by eapply nonempty_skip|lia].
    simpl. by rewrite (read_char_skip_app _ _ _ _ E1).
  - destruct (read_char "," (skip_ws q)) as [q'|] eqn:E2; [|done]. simpl in H.
    rewrite (IHv _ _ _ f' t Ev); [|left; by eapply nonempty_skip|lia]. simpl.
    rewrite (read_char_skip_other "]" "," _ _ t ltac:(done) E2),
      (read_char_skip_app _ _ _ _ E2). simpl.
    destruct (parse_elements f (skip_ws q')) as [[l' q2]|] eqn:El; simpl in H; simplify_eq.
    by erewrite elements_skip_ext by (done || lia).
Qed.

Lemma members_step : members_ext (S f).
Proof.
  intros s l r [|f'] t H Hf; [lia|]. cbn [parse_members] in H |- *.
  destruct (read_char dquote s) as [s'|] eqn:E0; [|done]. simpl in H.
  rewrite (read_char_app _ _ _ _ E0). simpl.
  destruct (scan_string s') as [[k q0]|] eqn:Ek; [|done]. simpl in H.
  rewrite (scan_string_app _ _ _ _ Ek). simpl.
  destruct (read_char ":" (skip_ws q0)) as [q1|] eqn:E1; [|done]. simpl in H.
  rewrite (read_char_skip_app _ _ _ _ E1). simpl.
  destruct (parse_value f (skip_ws q1)) as [[w q]|] eqn:Ev; [|done]. simpl in H.
  destruct (read_char "}" (skip_ws q)) as [q'|] eqn:E2.
  - simplify_eq. erewrite value_skip_ext; [|done|by eapply nonempty_skip|lia].
    simpl. by rewrite (read_char_skip_app _ _ _ _ E2).
  - destruct (read_char "," (skip_ws q)) as [q'|] eqn:E3; [|done]. simpl in H.
    erewrite value_skip_ext; [|done|by eapply nonempty_skip|lia]. simpl.
    rewrite (read_char_skip_other "}" "," _ _ t ltac:(done) E3),
      (read_char_skip_app _ _ _ _ E3). simpl.
    destruct (parse_members f (skip_ws q')) as [[l' q2]|] eqn:El; simpl in H; simplify_eq.
    by erewrite members_skip_ext by (done || lia).
Qed.
End Extension.

Lemma parse_ext f : value_ext f ∧ elements_ext f ∧ members_ext f.
Proof.
  induction f as [|f (IHv & IHe & IHm)]; [by repeat split; intros ?|].
  split_and!; [by apply value_step | by apply elements_step | by apply members_step].
Qed.

(** No proper prefix of an object's text is a JSON text. *)
Lemma parse_prefix ea kvs p q :
  floats_ok (JObj kvs) = true → render ea (JObj kvs) = p +:+ q → q ≠ "" → parse p = None.
Proof.
  intros Hf Hr Hq. unfold parse. destruct p as [|c p].
  { by destruct (fuel_for ""). }
  assert (c = "{"%char) as -> by (simpl in Hr; congruence).
  assert (skip_ws (String "{" p) = String "{" p) as -> by done.
  destruct (parse_value (fuel_for (String "{" p)) (String "{" p)) as [[v r]|] eqn:E; [|done].
  simpl. destruct (skip_ws r) eqn:Er; [|done]. exfalso.
  assert (closed v) as Hc.
  { unfold fuel_for in E. cbn in E. repeat case_match; simpl in *; simplify_eq; try done.
    all: match goal with H : (parse_members _ _ ≫= _) = Some _ |- _ =>
      destruct (parse_members _ _) as [[]|]; simpl in H; simplify_eq end; done. }
  destruct (parse_ext (fuel_for (String "{" p))) as (Hv & _).
  specialize (Hv _ _ _ (fuel_for (render ea (JObj kvs))) q E (or_intror Hc)).
  rewrite <- Hr in Hv.
  pose proof (reads_render ea (JObj kvs) Hf (fuel_for (render ea (JObj kvs))) "") as Hrd.
  rewrite str_app_nil_r in Hrd. pose proof (need_bound ea _ Hf) as Hn.
  rewrite Hrd in Hv by (unfold fuel_for; lia || done).
  assert (Some (JObj kvs, "") = Some (v, r +:+ q)) as [= _ Habs].
  { apply Hv. unfold fuel_for. rewrite Hr, str_app_length. lia. }
  destruct r; [by destruct q|done].
Qed.

(** ** Equality of dictionaries

    Python compares dictionaries without regard to the order of their keys;
    two values are the same when their sorted forms are. *)
Definition json_equiv (v w : json) : Prop := canon v = canon w.
#[export] Instance json_equiv_equivalence : Equivalence json_equiv.
Proof. split; unfold json_equiv; repeat intro; congruence. Qed.
#[export] Instance dumps_proper ea : Proper (json_equiv ==> eq) (dumps ea).
Proof. intros v w H. unfold dumps. by rewrite H. Qed.

(** ** What the reader returns can be written again *)

Lemma parse_atom_floats s v r : parse_atom s = Some (v, r) → floats_ok v = true.
Proof.
  unfold parse_atom. intros H. destruct (read_constant constants s) as [[w q]|] eqn:E.
  - simplify_eq. unfold constants in E. cbn [read_constant] in E.
    repeat case_match; simplify_eq; done.
  - destruct (span is_number_char s) as [tok q] eqn:Es.
    destruct (number_of tok) as [w|] eqn:En; simpl in H; simplify_eq.
    destruct (span_spec _ _ _ _ Es) as (_ & Ha & _).
    assert (v = JFloat tok ∨ ∃ n, v = JInt n) as [->|[n ->]]; [|simpl|done].
    + unfold number_of in En. destruct (unsign tok). repeat case_match; simplify_eq; eauto.
    + unfold float_ok. by rewrite Ha, En.
Qed.

Lemma parse_floats fuel :
  (∀ s v r, parse_value fuel s = Some (v, r) → floats_ok v = true) ∧
  (∀ s l r, parse_elements fuel s = Some (l, r) → forallb floats_ok l = true) ∧
  (∀ s l r, parse_members fuel s = Some (l, r) → forallb (λ p, floats_ok p.2) l = true).
Proof.
  induction fuel as [|f (IHv & IHe & IHm)]; [by repeat split|].
  split_and!; intros s l r H.
  - cbn [parse_value] in H. repeat case_match; simplify_eq; try done.
    + destruct (scan_string _) as [[? ?]|]; simpl in H; by simplify_eq.
    + destruct (parse_elements _ _) as [[? ?]|] eqn:E; simpl in H; simplify_eq. eauto.
    + destruct (parse_members _ _) as [[? ?]|] eqn:E; simpl in H; simplify_eq. eauto.
    + by eapply parse_atom_floats.
  - cbn [parse_elements] in H.
    destruct (parse_value f s) as [[w q]|] eqn:Ev; simpl in H; [|done].
    apply IHv in Ev. destruct (read_char "]" (skip_ws q)); simplify_eq; simpl.
    { by rewrite Ev. }
    destruct (read_char "," (skip_ws q)); simpl in H; [|done].
    destruct (parse_elements f _) as [[l' q']|] eqn:El; simpl in H; simplify_eq. simpl.
    rewrite Ev. by eapply IHe.
  - cbn [parse_members] in H.
    destruct (read_char dquote s); simpl in H; [|done].
    destruct (scan_string _) as [[k q0]|]; simpl in H; [|done].
    destruct (read_char ":" _); simpl in H; [|done].
    destruct (parse_value f _) as [[w q]|] eqn:Ev; simpl in H; [|done].
    apply IHv in Ev. destruct (read_char "}" (skip_ws q)); simplify_eq; simpl.
    { by rewrite Ev. }
    destruct (read_char "," (skip_ws q)); simpl in H; [|done].
    destruct (parse_members f _) as [[l' q']|] eqn:El; simpl in H; simplify_eq. simpl.
    rewrite Ev. by eapply IHm.
Qed.

Lemma assoc_set_keys k v d : NoDup (d.*1) → NoDup ((assoc_set k v d).*1) ∧
  (∀ k', k' ∈ (assoc_set k v d).*1 → k' = k ∨ k' ∈ d.*1).
Proof.
  induction d as [|[k1 v1] d IH]; simpl.
  - intros _. split; [repeat constructor; set_solver|set_solver].
  - rewrite NoDup_cons. intros [Hk Hd]. destruct (IH Hd) as [IH1 IH2].
    destruct (String.eqb_spec k k1) as [->|Hne]; simpl.
    + rewrite NoDup_cons. set_solver.
    + rewrite NoDup_cons. set_solver.
Qed.

Lemma assoc_set_forall (P : json → bool) k v d :
  P v = true → forallb (λ p, P p.2) d = true → forallb (λ p, P p.2) (assoc_set k v d) = true.
Proof.
  intros Hv. induction d as [|[k1 v1] d IH]; simpl; [by rewrite Hv|].
  rewrite andb_true_iff. intros [H1 Hd].
  destruct (String.eqb k k1); simpl; [by rewrite Hv, Hd|by rewrite H1, IH].
Qed.

Lemma dict_of_ok (P : json → bool) kvs :
  forallb (λ p, P p.2) kvs = true →
  keys_unique (dict_of kvs) = true ∧ forallb (λ p, P p.2) (dict_of kvs) = true.
Proof.
  unfold dict_of. rewrite keys_unique_NoDup.
  assert (NoDup ((@nil (string * json)).*1)) as Hn by constructor.
  assert (forallb (λ p : string * json, P p.2) [] = true) as Hf by done.
  revert Hn Hf. generalize (@nil (string * json)) as d.
  induction kvs as [|p kvs IH]; intros d Hn Hf; simpl; [done|].
  rewrite andb_true_iff. intros [Hp Hk]. apply IH; [|by apply assoc_set_forall|done].
  by apply assoc_set_keys.
Qed.

Lemma dedup_ok v : floats_ok v = true → json_ok (dedup v) = true.
Proof.
  unfold json_ok.
  induction v as [| | | | |l IH|kvs IH] using json_ind'; simpl; try done.
  - intros Hl. rewrite forallb_forall in Hl. rewrite Forall_forall in IH.
    apply andb_true_iff; split; apply forallb_forall; intros x Hx;
      apply in_map_iff in Hx as (y & <- & Hy);
      specialize (IH y ltac:(by apply list_elem_of_In) (Hl y Hy));
      by apply andb_true_iff in IH as [].
  - intros Hl. rewrite forallb_forall in Hl. rewrite Forall_forall in IH.
    assert (∀ P, (∀ p, In p kvs → P (dedup p.2) = true) →
      forallb (λ p, P p.2) (map (λ p : string * json, (p.1, dedup p.2)) kvs) = true) as Hmap.
    { intros P HP. apply forallb_forall. intros x Hx.
      apply in_map_iff in Hx as (y & <- & Hy). by apply HP. }
    assert (∀ p, In p kvs → unique_keys (dedup p.2) = true ∧ floats_ok (dedup p.2) = true)
      as Hboth.
    { intros p Hp. apply andb_true_iff. apply IH; [by apply list_elem_of_In|by apply Hl]. }
    destruct (dict_of_ok unique_keys (map (λ p, (p.1, dedup p.2)) kvs)) as [Hk Hu].
    { apply Hmap. intros p Hp. by apply Hboth. }
    destruct (dict_of_ok floats_ok (map (λ p, (p.1, dedup p.2)) kvs)) as [_ Hfl].
    { apply Hmap. intros p Hp. by apply Hboth. }
    by rewrite Hk, Hu, Hfl.
Qed.

Lemma loads_ok s v : loads s = Some v → json_ok v = true.
Proof.
  unfold loads, parse. destruct (parse_value _ _) as [[w r]|] eqn:E; [|done]. simpl.
  destruct (skip_ws r); [|done]. intros [= <-]. apply dedup_ok.
  by apply (parse_floats (fuel_for s)) in E.
Qed.
