(* ===== verification/Schema.v ===== *)
(** * The control database

    The rows of the tables the modelled commands read and write
    ([control/schema.py]) and the database that holds them.  A table whose
    rows are fetched by primary key is a finite map; a table read in insertion
    order ([ORDER BY rowid], [ORDER BY cursor]) is a list, oldest row first.
    A TEXT column that stores a time or a JSON document is that text.  The
    CHECK clauses a row type does not rule out by its shape are boolean
    functions beside it; an INSERT or UPDATE that breaks one raises. *)

From S2P Require Import Prelude PyText.
Open Scope Z_scope.

(** ** idempotency_receipts *)
Record receipt_row := ReceiptRow {
  rc_request_hash : string; rc_status_code : Z; rc_response_json : string;
  rc_created_at : string }.
Abbreviation receipt_key := (string * string * string)%type.

(** ** control_audit *)
Record audit_row := AuditRow {
  au_id : string; au_aggregate_type : string; au_aggregate_id : string;
  au_type : string; au_occurred_at : string; au_payload_json : string }.

(** ** captures *)
Inductive capture_state :=
| pending | approved | claimed | uncertain | consumed | dismissed | failed.
#[export] Instance capture_state_eq_dec : EqDecision capture_state.
Proof. solve_decision. Defined.
Definition state_text (s : capture_state) : string :=
  match s with
  | pending => "pending" | approved => "approved" | claimed => "claimed"
  | uncertain => "uncertain" | consumed => "consumed" | dismissed => "dismissed"
  | failed => "failed"
  end.

Inductive capture_kind := kind_url | kind_text.
#[export] Instance capture_kind_eq_dec : EqDecision capture_kind.
Proof. solve_decision. Defined.
Definition kind_name (k : capture_kind) : string :=
  match k with kind_url => "url" | kind_text => "text" end.

Record capture_row := CaptureRow {
  c_key : string; c_payload : string; c_kind : capture_kind; c_note : string;
  c_state : capture_state; c_claim_owner : option string; c_claim_epoch : Z;
  c_claim_expires_at : option string; c_known_source_id : option string;
  c_consumed_source_ids : option string; c_failure_category : option string;
  c_revision : Z; c_created_at : string; c_updated_at : string }.
Definition capture_check (c : capture_row) : bool :=
  (1 <=? slen (c_payload c)) && (slen (c_payload c) <=? 16384)
  && (slen (c_note c) <=? 2000)
  && match c_failure_category c with
     | None => true
     | Some f => (1 <=? slen f) && (slen f <=? 100)
     end.

(** ** sources and source_aliases (the columns the modelled commands read) *)
Record source_row := SourceRow { s_canonical_id : string }.
Record alias_row := AliasRow { al_source_id : string; al_normalized_value : string }.

(** ** runtime_release_approvals *)
Inductive release_decision := approve | revoke.
#[export] Instance release_decision_eq_dec : EqDecision release_decision.
Proof. solve_decision. Defined.
Definition release_decision_text (d : release_decision) : string :=
  match d with approve => "approve" | revoke => "revoke" end.
Record release_row := ReleaseRow {
  rr_id : string; rr_decision : release_decision; rr_release_id : string;
  rr_manifest_sha256 : string; rr_actor_id : string; rr_decided_at : string }.
Definition release_check (r : release_row) : bool :=
  (1 <=? slen (rr_release_id r)) && (slen (rr_release_id r) <=? 200)
  && is_sha256 (rr_manifest_sha256 r)
  && (1 <=? slen (rr_actor_id r)) && (slen (rr_actor_id r) <=? 200).

(** ** runtime_activation_decisions and transport_activation_decisions *)
Inductive activation_decision := enable | disable.
#[export] Instance activation_decision_eq_dec : EqDecision activation_decision.
Proof. solve_decision. Defined.
Definition activation_decision_text (d : activation_decision) : string :=
  match d with enable => "enable" | disable => "disable" end.
Inductive activation_mode := permanent | window.
#[export] Instance activation_mode_eq_dec : EqDecision activation_mode.
Proof. solve_decision. Defined.
Definition mode_text (m : activation_mode) : string :=
  match m with permanent => "permanent" | window => "window" end.

(** One row type for both tables: the second adds [transport] and calls the
    mode [scope]. *)
Record activation_row := ActivationRow {
  ar_id : string; ar_transport : string; ar_decision : activation_decision;
  ar_mode : option activation_mode; ar_expires_at : option string;
  ar_actor_id : string; ar_decided_at : string }.
Definition activation_check (r : activation_row) : bool :=
  (1 <=? slen (ar_actor_id r)) && (slen (ar_actor_id r) <=? 200)
  && match ar_decision r, ar_mode r, ar_expires_at r with
     | enable, Some window, Some _ | enable, Some permanent, None => true
     | disable, None, None => true
     | _, _, _ => false
     end.

(** ** research_schedules *)
Inductive schedule_operation := capture_drain | legacy | xhs_pull | xhs_drain.
#[export] Instance schedule_operation_eq_dec : EqDecision schedule_operation.
Proof. solve_decision. Defined.
Definition schedule_operation_text (o : schedule_operation) : string :=
  match o with
  | capture_drain => "capture_drain" | legacy => "legacy"
  | xhs_pull => "xhs_pull" | xhs_drain => "xhs_drain"
  end.
Inductive cadence_source := product | migrated | unknown.
Definition cadence_source_text (c : cadence_source) : string :=
  match c with product => "product" | migrated => "migrated" | unknown => "unknown" end.
Inductive schedule_outcome := ran | skipped | refused | outcome_failed.
Definition schedule_outcome_text (o : schedule_outcome) : string :=
  match o with
  | ran => "ran" | skipped => "skipped" | refused => "refused" | outcome_failed => "failed"
  end.
Record schedule_row := ScheduleRow {
  sc_operation : schedule_operation; sc_enabled : bool; sc_interval_seconds : Z;
  sc_next_due_at : string; sc_last_started_at : option string;
  sc_last_finished_at : option string; sc_last_outcome : option schedule_outcome;
  sc_cadence_source : cadence_source; sc_legacy_schedule : option string;
  sc_revision : Z; sc_created_at : string; sc_updated_at : string }.
Definition schedule_check (job_key : string) (r : schedule_row) : bool :=
  (1 <=? slen job_key) && (slen job_key <=? 100)
  && (60 <=? sc_interval_seconds r) && (sc_interval_seconds r <=? 604800)
  && match sc_legacy_schedule r with None => true | Some s => slen s <=? 200 end.

(** ** workspaces, threads and messages *)
Record workspace_row := WorkspaceRow {
  ws_title : string; ws_revision : Z; ws_created_at : string; ws_updated_at : string }.
Definition title_check (title : string) : bool :=
  (1 <=? slen title) && (slen title <=? 500).
Record thread_row := ThreadRow {
  th_workspace_id : string; th_title : string; th_status : string;
  th_active_run_id : option string; th_revision : Z; th_created_at : string;
  th_updated_at : string; th_archived_at : option string }.
Inductive message_role := user | assistant | system.
Definition role_text (r : message_role) : string :=
  match r with user => "user" | assistant => "assistant" | system => "system" end.
Record message_row := MessageRow {
  m_thread_id : string; m_role : message_role; m_content : string;
  m_position : Z; m_created_at : string }.
Definition message_check (m : message_row) : bool :=
  (1 <=? slen (m_content m)) && (1 <=? m_position m).

(** ** runs, attempts and run_events

    [state] is an unconstrained TEXT column of both tables. *)
Record run_row := RunRow {
  ru_thread_id : string; ru_state : string; ru_active_attempt_id : option string;
  ru_stage : option string; ru_latest_sequence : Z; ru_revision : Z;
  ru_created_at : string; ru_updated_at : string }.
Record attempt_row := AttemptRow {
  at_run_id : string; at_number : Z; at_state : string;
  at_runtime_binding_id : option string; at_runtime_release_id : option string;
  at_checkpoint_uri : option string; at_source_attempt_id : option string;
  at_source_checkpoint_uri : option string; at_started_at : option string;
  at_finished_at : option string; at_state_generation_id : option string;
  at_dispatch_owner : option string; at_dispatch_expires_at : option string;
  at_runtime_identity_version : Z; at_runtime_slot_id : option string;
  at_runtime_artifact_digest : option string; at_runtime_worker_protocol : option string }.
(** [durability] is the constant ['durable']. *)
Record event_row := EventRow {
  ev_global_cursor : Z; ev_id : string; ev_schema_version : Z; ev_run_id : string;
  ev_attempt_id : option string; ev_sequence : Z; ev_type : string;
  ev_occurred_at : string; ev_causation_id : option string; ev_payload_json : string }.

(** ** runtime_actions and runtime_pin_releases *)
Inductive action_state := act_pending | act_acked | act_failed.
#[export] Instance action_state_eq_dec : EqDecision action_state.
Proof. solve_decision. Defined.
Definition action_state_text (s : action_state) : string :=
  match s with act_pending => "pending" | act_acked => "acked" | act_failed => "failed" end.
Inductive outcome_state := ready | outcome_unknown | reconcile.
#[export] Instance outcome_state_eq_dec : EqDecision outcome_state.
Proof. solve_decision. Defined.
Definition outcome_state_text (s : outcome_state) : string :=
  match s with
  | ready => "ready" | outcome_unknown => "outcome_unknown" | reconcile => "reconcile"
  end.

(** The lease columns both tables have. *)
Record claim := Claim {
  cl_owner : option string; cl_expires_at : option string; cl_epoch : Z }.
Record action_row := ActionRow {
  ra_run_id : string; ra_attempt_id : string; ra_runtime_binding_id : string;
  ra_runtime_release_id : string; ra_kind : string; ra_payload_json : string;
  ra_created_at : string; ra_state : action_state; ra_acknowledged_at : option string;
  ra_claim : claim; ra_failure_category : option string; ra_outcome_state : outcome_state }.
Record pin_row := PinRow {
  pr_run_id : string; pr_attempt_id : string; pr_runtime_release_id : string;
  pr_state_generation_id : string; pr_created_at : string;
  pr_runtime_slot_id : option string; pr_runtime_artifact_digest : option string;
  pr_runtime_worker_protocol : option string; pr_runtime_identity_version : Z;
  pr_state : action_state; pr_claim : claim; pr_failure_category : option string;
  pr_acknowledged_at : option string }.

(** ** The open work of a run: source intents, decisions, imports, artifacts

    Of every table but [decisions], the columns the life of a run reads and
    writes. *)
Inductive intent_state := intent_pending | intent_resolved | intent_canceled.
#[export] Instance intent_state_eq_dec : EqDecision intent_state.
Proof. solve_decision. Defined.
Record intent_row := IntentRow {
  si_run_id : string; si_state : intent_state; si_decision_id : option string;
  si_revision : Z; si_created_at : string; si_updated_at : string }.
Inductive decision_state := decision_pending | decision_resolved | decision_expired.
#[export] Instance decision_state_eq_dec : EqDecision decision_state.
Proof. solve_decision. Defined.
Record decision_row := DecisionRow {
  de_run_id : string; de_attempt_id : string; de_kind : string; de_prompt : string;
  de_options_json : string; de_state : decision_state; de_resolution_json : option string;
  de_revision : Z; de_created_at : string; de_resolved_at : option string;
  de_runtime_decision_ref : option string; de_runtime_decision_revision : option Z }.
Inductive waiter_state := waiter_waiting | waiter_bound | waiter_canceled.
#[export] Instance waiter_state_eq_dec : EqDecision waiter_state.
Proof. solve_decision. Defined.
Record waiter_row := WaiterRow {
  wa_action_id : string; wa_run_id : string; wa_resolution_id : string;
  wa_state : waiter_state; wa_created_at : string; wa_completed_at : option string }.
Inductive import_state := import_pending | import_completed | import_failed | import_canceled.
#[export] Instance import_state_eq_dec : EqDecision import_state.
Proof. solve_decision. Defined.
Record import_row := ImportRow {
  im_run_id : string; im_resolution_id : string; im_state : import_state;
  im_claim : claim; im_completed_at : option string }.
Inductive version_state := version_pending | version_committed | version_failed.
#[export] Instance version_state_eq_dec : EqDecision version_state.
Proof. solve_decision. Defined.
Record version_row := VersionRow {
  av_run_id : string; av_attempt_id : string; av_state : version_state }.
Inductive materialization_state := mat_pending | mat_claimed | mat_materialized
  | mat_completed | mat_failed.
#[export] Instance materialization_state_eq_dec : EqDecision materialization_state.
Proof. solve_decision. Defined.
Record materialization_row := MaterializationRow {
  ma_artifact_version_id : string; ma_state : materialization_state; ma_claim : claim;
  ma_failure_category : option string; ma_created_at : string;
  ma_completed_at : option string }.

(** ** runtime_bindings and runtime_event_inbox

    The inbox is keyed by attempt and adapter event. *)
Record binding_row := BindingRow {
  rb_thread_id : string; rb_adapter_id : string; rb_runtime_session_ref : string;
  rb_generation : Z; rb_adapter_version : string; rb_parent_ref : option string;
  rb_created_at : string; rb_updated_at : string }.
Record inbox_row := InboxRow {
  ib_payload_hash : string; ib_status_code : Z; ib_response_json : string;
  ib_received_at : string; ib_adapter_event_sequence : option Z }.

(** ** Workflows (the columns the resolution of a decision reads and writes) *)
Inductive workflow_state :=
| workflow_running | workflow_waiting | workflow_completed | workflow_failed
| workflow_manual_recovery.
Record workflow_row := WorkflowRow {
  wf_run_id : string; wf_definition_id : string; wf_state : workflow_state;
  wf_revision : Z; wf_updated_at : string }.
Inductive stage_state :=
| stage_pending | stage_ready | stage_active | stage_waiting | stage_completed
| stage_failed | stage_manual_recovery.
#[export] Instance stage_state_eq_dec : EqDecision stage_state.
Proof. solve_decision. Defined.
Definition stage_state_text (s : stage_state) : string :=
  match s with
  | stage_pending => "pending" | stage_ready => "ready" | stage_active => "active"
  | stage_waiting => "waiting" | stage_completed => "completed" | stage_failed => "failed"
  | stage_manual_recovery => "manual_recovery"
  end.
Record stage_row := StageRow {
  st_workflow_id : string; st_stage_key : string; st_state : stage_state; st_revision : Z }.
(** [dr_resolved] is [state] with the three columns its CHECK ties to it:
    [resolved_revision], [selected_choice] and [resolved_at]. *)
Record decision_ref_row := DecisionRefRow {
  dr_workflow_id : string; dr_stage_id : string; dr_decision_id : string;
  dr_resolved : option (Z * string * string) }.

(** ** runtime_recovery_commands *)
Inductive recovery_state := recovery_pending | recovery_completed | recovery_failed
  | recovery_manual_required.
#[export] Instance recovery_state_eq_dec : EqDecision recovery_state.
Proof. solve_decision. Defined.
Definition recovery_state_text (s : recovery_state) : string :=
  match s with
  | recovery_pending => "pending" | recovery_completed => "completed"
  | recovery_failed => "failed" | recovery_manual_required => "manual_required"
  end.
Record recovery_row := RecoveryRow {
  rr_run_id : string; rr_attempt_id : string; rr_runtime_binding_id : option string;
  rr_runtime_release_id : option string; rr_state_generation_id : option string;
  rr_kind : string; rr_created_at : string; rr_runtime_slot_id : option string;
  rr_runtime_artifact_digest : option string; rr_runtime_worker_protocol : option string;
  rr_runtime_identity_version : Z; rr_state : recovery_state; rr_claim : claim;
  rr_result_json : option string; rr_completed_at : option string }.

(** ** Transports

    The primary key of a frozen delivery, and with a chunk index of a chunk. *)
Record delivery_key := DeliveryKey {
  dk_transport : string; dk_destination_digest : string; dk_event_id : string;
  dk_projection_version : Z }.
#[export] Instance delivery_key_eq_dec : EqDecision delivery_key.
Proof. solve_decision. Defined.
#[export] Instance delivery_key_countable : Countable delivery_key.
Proof.
  apply (inj_countable' (λ k, (dk_transport k, dk_destination_digest k, dk_event_id k,
    dk_projection_version k)) (λ x, DeliveryKey x.1.1.1 x.1.1.2 x.1.2 x.2)).
  by intros [].
Defined.
Record transport_binding_row := TransportBindingRow {
  tb_transport : string; tb_external_scope : string; tb_thread_id : string;
  tb_revision : Z; tb_created_at : string; tb_updated_at : string }.
Record transport_command_row := TransportCommandRow {
  tc_request_hash : string; tc_response_json : string; tc_created_at : string }.
Inductive delivery_row_state := delivery_pending | delivery_claimed | delivery_delivered.
#[export] Instance delivery_row_state_eq_dec : EqDecision delivery_row_state.
Proof. solve_decision. Defined.
Record delivery_row := DeliveryRow {
  td_state : delivery_row_state; td_claim : claim; td_created_at : string;
  td_delivered_at : option string }.
Definition unclaimed (c : claim) : bool :=
  bool_decide (cl_owner c = None) && bool_decide (cl_expires_at c = None).
Definition delivery_check (r : delivery_row) : bool :=
  (0 <=? cl_epoch (td_claim r)) && match td_state r with
  | delivery_pending => unclaimed (td_claim r) && bool_decide (td_delivered_at r = None)
  | delivery_claimed => bool_decide (is_Some (cl_owner (td_claim r)))
      && bool_decide (is_Some (cl_expires_at (td_claim r))) && bool_decide (td_delivered_at r = None)
  | delivery_delivered => unclaimed (td_claim r) && bool_decide (is_Some (td_delivered_at r))
  end.
(** [tt_consumed] is the pair of columns the CHECK ties together. *)
Record target_row := TargetRow {
  tt_namespace : string; tt_purpose : string; tt_resource_kind : string;
  tt_resource_id : string; tt_expected_revision : option Z; tt_choice : option string;
  tt_scope_digest : option string; tt_expires_at : string; tt_created_at : string;
  tt_consumed : option (string * string) }.
Inductive projection_state := projection_pending | projection_delivered | projection_failed
  | projection_manual_required.
#[export] Instance projection_state_eq_dec : EqDecision projection_state.
Proof. solve_decision. Defined.
Definition projection_state_text (s : projection_state) : string :=
  match s with
  | projection_pending => "pending" | projection_delivered => "delivered"
  | projection_failed => "failed" | projection_manual_required => "manual_required"
  end.
Record projection_row := ProjectionRow {
  tp_operation_id : string; tp_request_hash : string; tp_projection_hash : string;
  tp_destination_binding_digest : string; tp_routing : string;
  tp_capability_binding_digest : string; tp_rpc_timeout_seconds : Z; tp_chunk_count : Z;
  tp_created_at : string; tp_state : projection_state; tp_revision : Z;
  tp_completed_at : option string }.
Definition projection_check (r : projection_row) : bool :=
  (0 <=? tp_revision r) && match tp_state r with
  | projection_pending | projection_manual_required => bool_decide (tp_completed_at r = None)
  | projection_delivered | projection_failed => bool_decide (is_Some (tp_completed_at r))
  end.
Inductive chunk_state := chunk_pending | chunk_claimed | chunk_sending_unknown
  | chunk_delivered | chunk_failed.
#[export] Instance chunk_state_eq_dec : EqDecision chunk_state.
Proof. solve_decision. Defined.
Definition chunk_state_text (s : chunk_state) : string :=
  match s with
  | chunk_pending => "pending" | chunk_claimed => "claimed"
  | chunk_sending_unknown => "sending_unknown" | chunk_delivered => "delivered"
  | chunk_failed => "failed"
  end.
Record chunk_row := ChunkRow {
  ck_operation_id : string; ck_text : string; ck_parse_mode : string; ck_chunk_hash : string;
  ck_state : chunk_state; ck_revision : Z; ck_claim : claim;
  ck_retry_not_before : option string; ck_provider_receipt_digest : option string;
  ck_failure_category : option string; ck_manual_resolution_id : option string;
  ck_completed_at : option string; ck_transport_window_id : option string }.
Definition unsettled_chunk (r : chunk_row) : bool :=
  bool_decide (ck_provider_receipt_digest r = None) && bool_decide (ck_failure_category r = None)
  && bool_decide (ck_manual_resolution_id r = None) && bool_decide (ck_completed_at r = None).
Definition chunk_check (r : chunk_row) : bool :=
  (0 <=? ck_revision r) && (0 <=? cl_epoch (ck_claim r)) && match ck_state r with
  | chunk_pending => unclaimed (ck_claim r) && unsettled_chunk r
  | chunk_claimed => bool_decide (is_Some (cl_owner (ck_claim r)))
      && bool_decide (is_Some (cl_expires_at (ck_claim r)))
      && bool_decide (ck_retry_not_before r = None) && unsettled_chunk r
  | chunk_sending_unknown => bool_decide (is_Some (cl_owner (ck_claim r)))
      && bool_decide (cl_expires_at (ck_claim r) = None)
      && bool_decide (ck_retry_not_before r = None) && unsettled_chunk r
  | chunk_delivered => unclaimed (ck_claim r) && bool_decide (ck_retry_not_before r = None)
      && bool_decide (ck_failure_category r = None) && bool_decide (is_Some (ck_completed_at r))
      && (bool_decide (is_Some (ck_provider_receipt_digest r))
          || bool_decide (is_Some (ck_manual_resolution_id r)))
  | chunk_failed => unclaimed (ck_claim r) && bool_decide (ck_retry_not_before r = None)
      && bool_decide (ck_provider_receipt_digest r = None)
      && bool_decide (is_Some (ck_failure_category r)) && bool_decide (is_Some (ck_completed_at r))
  end.
(** The rows of a chunk's buttons and capabilities, by [position]. *)
Record button_row := ButtonRow {
  bu_label : string; bu_callback_data : string; bu_token_digest : string }.
Record capability_row := CapabilityRow {
  cp_target_position : Z; cp_namespace : string; cp_token_digest : string;
  cp_expires_at : string; cp_start_offset : option Z; cp_end_offset : option Z }.
Record resolution_row := ResolutionRow {
  re_key : delivery_key; re_chunk_index : Z; re_actor_id : string; re_idempotency_key : string;
  re_request_hash : string; re_expected_revision : Z; re_resolution : string;
  re_prior_revision : Z; re_prior_claim_epoch : Z; re_result_state : chunk_state;
  re_result_revision : Z; re_created_at : string }.

(** [asset_roots], [connectors]: the triggers keep the names and the kinds. *)
Record asset_root_row := AssetRootRow {
  ag_private_path : string; ag_max_bytes : Z; ag_enabled : bool; ag_revision : Z;
  ag_created_at : string; ag_updated_at : string }.
Record connector_row := ConnectorRow {
  cn_kind : string; cn_adapter_id : string; cn_display_name : string;
  cn_credential_alias : option string; cn_enabled : bool; cn_revision : Z;
  cn_created_at : string; cn_updated_at : string }.
(** [paired_backup_proofs] and [system_health_observations]: written once; their JSON
    columns are what [json.dumps] wrote, which is valid. *)
Record proof_row := ProofRow {
  bp_backup_set_digest : string; bp_manifest_json : string;
  bp_primary_completed_at : string; bp_primary_snapshot_count : Z;
  bp_independent_completed_at : string; bp_independent_snapshot_count : Z;
  bp_restore_completed_at : string; bp_restored_database_count : Z;
  bp_verified_sample_count : Z; bp_created_at : string }.
Definition proof_check (r : proof_row) : bool :=
  is_sha256 (bp_backup_set_digest r)
  && (1 <=? bp_primary_snapshot_count r) && (1 <=? bp_independent_snapshot_count r)
  && (1 <=? bp_restored_database_count r) && (0 <=? bp_verified_sample_count r)
  && str_le (bp_primary_completed_at r) (bp_restore_completed_at r)
  && str_le (bp_independent_completed_at r) (bp_restore_completed_at r).
Record observation_row := ObservationRow {
  ho_asset_root_id : option string; ho_connector_id : option string;
  ho_backup_proof_id : option string; ho_status : string; ho_category : string;
  ho_observed_at : string; ho_metrics_json : string; ho_created_at : string }.
Definition observation_check (r : observation_row) : bool :=
  existsb (String.eqb (ho_status r)) ["ok"; "degraded"; "unavailable"; "unknown"]
  && (length (List.filter (λ o : option string, bool_decide (is_Some o))
        [ho_asset_root_id r; ho_connector_id r; ho_backup_proof_id r]) =? 1)%nat.

(** ** The database *)
Record db := Db {
  idempotency_receipts : gmap receipt_key receipt_row;
  control_audit : list audit_row;
  captures : gmap string capture_row;
  sources : gmap string source_row;
  source_aliases : gmap string alias_row;
  runtime_release_approvals : list release_row;
  runtime_activation_decisions : list activation_row;
  transport_activation_decisions : list activation_row;
  research_schedules : gmap string schedule_row;
  workspaces : gmap string workspace_row;
  threads : gmap string thread_row;
  messages : gmap string message_row;
  runs : gmap string run_row;
  attempts : gmap string attempt_row;
  run_events : list event_row;
  runtime_actions : gmap string action_row;
  runtime_pin_releases : gmap string pin_row;
  source_intents : gmap string intent_row;
  decisions : gmap string decision_row;
  source_import_waiters : gmap string waiter_row;
  source_import_actions : gmap string import_row;
  artifact_versions : gmap string version_row;
  artifact_materialization_actions : gmap string materialization_row;
  runtime_bindings : gmap string binding_row;
  runtime_event_inbox : gmap (string * string) inbox_row;
  workflow_instances : gmap string workflow_row;
  workflow_stage_instances : gmap string stage_row;
  workflow_decision_refs : gmap string decision_ref_row;
  runtime_recovery_commands : gmap string recovery_row;
  transport_bindings : gmap string transport_binding_row;
  transport_command_receipts : gmap (string * string) transport_command_row;
  transport_deliveries : gmap delivery_key delivery_row;
  transport_opaque_targets : gmap string target_row;
  transport_delivery_projections : gmap delivery_key projection_row;
  transport_delivery_chunks : gmap (delivery_key * Z) chunk_row;
  transport_delivery_chunk_buttons : gmap (delivery_key * Z) (list button_row);
  transport_delivery_chunk_capabilities : gmap (delivery_key * Z) (list capability_row);
  transport_delivery_chunk_resolutions : gmap string resolution_row;
  asset_roots : gmap string asset_root_row;
  connectors : gmap string connector_row;
  paired_backup_proofs : gmap string proof_row;
  system_health_observations : gmap string observation_row }.

Definition empty_db : db := Db ∅ [] ∅ ∅ ∅ [] [] [] ∅ ∅ ∅ ∅ ∅ ∅ [] ∅ ∅ ∅ ∅ ∅ ∅ ∅ ∅ ∅ ∅ ∅
  ∅ ∅ ∅ ∅ ∅ ∅ ∅ ∅ ∅ ∅ ∅ ∅ ∅ ∅ ∅ ∅.

Definition set_receipts f d := Db (f (idempotency_receipts d)) (control_audit d)
  (captures d) (sources d) (source_aliases d) (runtime_release_approvals d)
  (runtime_activation_decisions d) (transport_activation_decisions d)
  (research_schedules d) (workspaces d) (threads d) (messages d) (runs d) (attempts d)
  (run_events d) (runtime_actions d) (runtime_pin_releases d) (source_intents d)
  (decisions d) (source_import_waiters d) (source_import_actions d)
  (artifact_versions d) (artifact_materialization_actions d) (runtime_bindings d)
  (runtime_event_inbox d) (workflow_instances d) (workflow_stage_instances d)
  (workflow_decision_refs d) (runtime_recovery_commands d) (transport_bindings d)
  (transport_command_receipts d) (transport_deliveries d) (transport_opaque_targets d)
  (transport_delivery_projections d) (transport_delivery_chunks d)
  (transport_delivery_chunk_buttons d) (transport_delivery_chunk_capabilities d)
  (transport_delivery_chunk_resolutions d) (asset_roots d) (connectors d)
  (paired_backup_proofs d) (system_health_observations d).
Definition set_audit f d := Db (idempotency_receipts d) (f (control_audit d))
  (captures d) (sources d) (source_aliases d) (runtime_release_approvals d)
  (runtime_activation_decisions d) (transport_activation_decisions d)
  (research_schedules d) (workspaces d) (threads d) (messages d) (runs d) (attempts d)
  (run_events d) (runtime_actions d) (runtime_pin_releases d) (source_intents d)
  (decisions d) (source_import_waiters d) (source_import_actions d)
  (artifact_versions d) (artifact_materialization_actions d) (runtime_bindings d)
  (runtime_event_inbox d) (workflow_instances d) (workflow_stage_instances d)
  (workflow_decision_refs d) (runtime_recovery_commands d) (transport_bindings d)
  (transport_command_receipts d) (transport_deliveries d) (transport_opaque_targets d)
  (transport_delivery_projections d) (transport_delivery_chunks d)
  (transport_delivery_chunk_buttons d) (transport_delivery_chunk_capabilities d)
  (transport_delivery_chunk_resolutions d) (asset_roots d) (connectors d)
  (paired_backup_proofs d) (system_health_observations d).
Definition set_captures f d := Db (idempotency_receipts d) (control_audit d)
  (f (captures d)) (sources d) (source_aliases d) (runtime_release_approvals d)
  (runtime_activation_decisions d) (transport_activation_decisions d)
  (research_schedules d) (workspaces d) (threads d) (messages d) (runs d) (attempts d)
  (run_events d) (runtime_actions d) (runtime_pin_releases d) (source_intents d)
  (decisions d) (source_import_waiters d) (source_import_actions d)
  (artifact_versions d) (artifact_materialization_actions d) (runtime_bindings d)
  (runtime_event_inbox d) (workflow_instances d) (workflow_stage_instances d)
  (workflow_decision_refs d) (runtime_recovery_commands d) (transport_bindings d)
  (transport_command_receipts d) (transport_deliveries d) (transport_opaque_targets d)
  (transport_delivery_projections d) (transport_delivery_chunks d)
  (transport_delivery_chunk_buttons d) (transport_delivery_chunk_capabilities d)
  (transport_delivery_chunk_resolutions d) (asset_roots d) (connectors d)
  (paired_backup_proofs d) (system_health_observations d).
Definition set_sources f d := Db (idempotency_receipts d) (control_audit d)
  (captures d) (f (sources d)) (source_aliases d) (runtime_release_approvals d)
  (runtime_activation_decisions d) (transport_activation_decisions d)
  (research_schedules d) (workspaces d) (threads d) (messages d) (runs d) (attempts d)
  (run_events d) (runtime_actions d) (runtime_pin_releases d) (source_intents d)
  (decisions d) (source_import_waiters d) (source_import_actions d)
  (artifact_versions d) (artifact_materialization_actions d) (runtime_bindings d)
  (runtime_event_inbox d) (workflow_instances d) (workflow_stage_instances d)
  (workflow_decision_refs d) (runtime_recovery_commands d) (transport_bindings d)
  (transport_command_receipts d) (transport_deliveries d) (transport_opaque_targets d)
  (transport_delivery_projections d) (transport_delivery_chunks d)
  (transport_delivery_chunk_buttons d) (transport_delivery_chunk_capabilities d)
  (transport_delivery_chunk_resolutions d) (asset_roots d) (connectors d)
  (paired_backup_proofs d) (system_health_observations d).
Definition set_releases f d := Db (idempotency_receipts d) (control_audit d)
  (captures d) (sources d) (source_aliases d) (f (runtime_release_approvals d))
  (runtime_activation_decisions d) (transport_activation_decisions d)
  (research_schedules d) (workspaces d) (threads d) (messages d) (runs d) (attempts d)
  (run_events d) (runtime_actions d) (runtime_pin_releases d) (source_intents d)
  (decisions d) (source_import_waiters d) (source_import_actions d)
  (artifact_versions d) (artifact_materialization_actions d) (runtime_bindings d)
  (runtime_event_inbox d) (workflow_instances d) (workflow_stage_instances d)
  (workflow_decision_refs d) (runtime_recovery_commands d) (transport_bindings d)
  (transport_command_receipts d) (transport_deliveries d) (transport_opaque_targets d)
  (transport_delivery_projections d) (transport_delivery_chunks d)
  (transport_delivery_chunk_buttons d) (transport_delivery_chunk_capabilities d)
  (transport_delivery_chunk_resolutions d) (asset_roots d) (connectors d)
  (paired_backup_proofs d) (system_health_observations d).
Definition set_runtime_activations f d := Db (idempotency_receipts d) (control_audit d)
  (captures d) (sources d) (source_aliases d) (runtime_release_approvals d)
  (f (runtime_activation_decisions d)) (transport_activation_decisions d)
  (research_schedules d) (workspaces d) (threads d) (messages d) (runs d) (attempts d)
  (run_events d) (runtime_actions d) (runtime_pin_releases d) (source_intents d)
  (decisions d) (source_import_waiters d) (source_import_actions d)
  (artifact_versions d) (artifact_materialization_actions d) (runtime_bindings d)
  (runtime_event_inbox d) (workflow_instances d) (workflow_stage_instances d)
  (workflow_decision_refs d) (runtime_recovery_commands d) (transport_bindings d)
  (transport_command_receipts d) (transport_deliveries d) (transport_opaque_targets d)
  (transport_delivery_projections d) (transport_delivery_chunks d)
  (transport_delivery_chunk_buttons d) (transport_delivery_chunk_capabilities d)
  (transport_delivery_chunk_resolutions d) (asset_roots d) (connectors d)
  (paired_backup_proofs d) (system_health_observations d).
Definition set_transport_activations f d := Db (idempotency_receipts d)
  (control_audit d) (captures d) (sources d) (source_aliases d)
  (runtime_release_approvals d) (runtime_activation_decisions d)
  (f (transport_activation_decisions d)) (research_schedules d) (workspaces d)
  (threads d) (messages d) (runs d) (attempts d) (run_events d) (runtime_actions d)
  (runtime_pin_releases d) (source_intents d) (decisions d) (source_import_waiters d)
  (source_import_actions d) (artifact_versions d) (artifact_materialization_actions d)
  (runtime_bindings d) (runtime_event_inbox d) (workflow_instances d)
  (workflow_stage_instances d) (workflow_decision_refs d) (runtime_recovery_commands d)
  (transport_bindings d) (transport_command_receipts d) (transport_deliveries d)
  (transport_opaque_targets d) (transport_delivery_projections d)
  (transport_delivery_chunks d) (transport_delivery_chunk_buttons d)
  (transport_delivery_chunk_capabilities d) (transport_delivery_chunk_resolutions d)
  (asset_roots d) (connectors d) (paired_backup_proofs d)
  (system_health_observations d).
Definition set_schedules f d := Db (idempotency_receipts d) (control_audit d)
  (captures d) (sources d) (source_aliases d) (runtime_release_approvals d)
  (runtime_activation_decisions d) (transport_activation_decisions d)
  (f (research_schedules d)) (workspaces d) (threads d) (messages d) (runs d)
  (attempts d) (run_events d) (runtime_actions d) (runtime_pin_releases d)
  (source_intents d) (decisions d) (source_import_waiters d) (source_import_actions d)
  (artifact_versions d) (artifact_materialization_actions d) (runtime_bindings d)
  (runtime_event_inbox d) (workflow_instances d) (workflow_stage_instances d)
  (workflow_decision_refs d) (runtime_recovery_commands d) (transport_bindings d)
  (transport_command_receipts d) (transport_deliveries d) (transport_opaque_targets d)
  (transport_delivery_projections d) (transport_delivery_chunks d)
  (transport_delivery_chunk_buttons d) (transport_delivery_chunk_capabilities d)
  (transport_delivery_chunk_resolutions d) (asset_roots d) (connectors d)
  (paired_backup_proofs d) (system_health_observations d).
Definition set_workspaces f d := Db (idempotency_receipts d) (control_audit d)
  (captures d) (sources d) (source_aliases d) (runtime_release_approvals d)
  (runtime_activation_decisions d) (transport_activation_decisions d)
  (research_schedules d) (f (workspaces d)) (threads d) (messages d) (runs d)
  (attempts d) (run_events d) (runtime_actions d) (runtime_pin_releases d)
  (source_intents d) (decisions d) (source_import_waiters d) (source_import_actions d)
  (artifact_versions d) (artifact_materialization_actions d) (runtime_bindings d)
  (runtime_event_inbox d) (workflow_instances d) (workflow_stage_instances d)
  (workflow_decision_refs d) (runtime_recovery_commands d) (transport_bindings d)
  (transport_command_receipts d) (transport_deliveries d) (transport_opaque_targets d)
  (transport_delivery_projections d) (transport_delivery_chunks d)
  (transport_delivery_chunk_buttons d) (transport_delivery_chunk_capabilities d)
  (transport_delivery_chunk_resolutions d) (asset_roots d) (connectors d)
  (paired_backup_proofs d) (system_health_observations d).
Definition set_threads f d := Db (idempotency_receipts d) (control_audit d) (captures d)
  (sources d) (source_aliases d) (runtime_release_approvals d)
  (runtime_activation_decisions d) (transport_activation_decisions d)
  (research_schedules d) (workspaces d) (f (threads d)) (messages d) (runs d)
  (attempts d) (run_events d) (runtime_actions d) (runtime_pin_releases d)
  (source_intents d) (decisions d) (source_import_waiters d) (source_import_actions d)
  (artifact_versions d) (artifact_materialization_actions d) (runtime_bindings d)
  (runtime_event_inbox d) (workflow_instances d) (workflow_stage_instances d)
  (workflow_decision_refs d) (runtime_recovery_commands d) (transport_bindings d)
  (transport_command_receipts d) (transport_deliveries d) (transport_opaque_targets d)
  (transport_delivery_projections d) (transport_delivery_chunks d)
  (transport_delivery_chunk_buttons d) (transport_delivery_chunk_capabilities d)
  (transport_delivery_chunk_resolutions d) (asset_roots d) (connectors d)
  (paired_backup_proofs d) (system_health_observations d).
Definition set_messages f d := Db (idempotency_receipts d) (control_audit d)
  (captures d) (sources d) (source_aliases d) (runtime_release_approvals d)
  (runtime_activation_decisions d) (transport_activation_decisions d)
  (research_schedules d) (workspaces d) (threads d) (f (messages d)) (runs d)
  (attempts d) (run_events d) (runtime_actions d) (runtime_pin_releases d)
  (source_intents d) (decisions d) (source_import_waiters d) (source_import_actions d)
  (artifact_versions d) (artifact_materialization_actions d) (runtime_bindings d)
  (runtime_event_inbox d) (workflow_instances d) (workflow_stage_instances d)
  (workflow_decision_refs d) (runtime_recovery_commands d) (transport_bindings d)
  (transport_command_receipts d) (transport_deliveries d) (transport_opaque_targets d)
  (transport_delivery_projections d) (transport_delivery_chunks d)
  (transport_delivery_chunk_buttons d) (transport_delivery_chunk_capabilities d)
  (transport_delivery_chunk_resolutions d) (asset_roots d) (connectors d)
  (paired_backup_proofs d) (system_health_observations d).
Definition set_runs f d := Db (idempotency_receipts d) (control_audit d) (captures d)
  (sources d) (source_aliases d) (runtime_release_approvals d)
  (runtime_activation_decisions d) (transport_activation_decisions d)
  (research_schedules d) (workspaces d) (threads d) (messages d) (f (runs d))
  (attempts d) (run_events d) (runtime_actions d) (runtime_pin_releases d)
  (source_intents d) (decisions d) (source_import_waiters d) (source_import_actions d)
  (artifact_versions d) (artifact_materialization_actions d) (runtime_bindings d)
  (runtime_event_inbox d) (workflow_instances d) (workflow_stage_instances d)
  (workflow_decision_refs d) (runtime_recovery_commands d) (transport_bindings d)
  (transport_command_receipts d) (transport_deliveries d) (transport_opaque_targets d)
  (transport_delivery_projections d) (transport_delivery_chunks d)
  (transport_delivery_chunk_buttons d) (transport_delivery_chunk_capabilities d)
  (transport_delivery_chunk_resolutions d) (asset_roots d) (connectors d)
  (paired_backup_proofs d) (system_health_observations d).
Definition set_attempts f d := Db (idempotency_receipts d) (control_audit d)
  (captures d) (sources d) (source_aliases d) (runtime_release_approvals d)
  (runtime_activation_decisions d) (transport_activation_decisions d)
  (research_schedules d) (workspaces d) (threads d) (messages d) (runs d)
  (f (attempts d)) (run_events d) (runtime_actions d) (runtime_pin_releases d)
  (source_intents d) (decisions d) (source_import_waiters d) (source_import_actions d)
  (artifact_versions d) (artifact_materialization_actions d) (runtime_bindings d)
  (runtime_event_inbox d) (workflow_instances d) (workflow_stage_instances d)
  (workflow_decision_refs d) (runtime_recovery_commands d) (transport_bindings d)
  (transport_command_receipts d) (transport_deliveries d) (transport_opaque_targets d)
  (transport_delivery_projections d) (transport_delivery_chunks d)
  (transport_delivery_chunk_buttons d) (transport_delivery_chunk_capabilities d)
  (transport_delivery_chunk_resolutions d) (asset_roots d) (connectors d)
  (paired_backup_proofs d) (system_health_observations d).
Definition set_run_events f d := Db (idempotency_receipts d) (control_audit d)
  (captures d) (sources d) (source_aliases d) (runtime_release_approvals d)
  (runtime_activation_decisions d) (transport_activation_decisions d)
  (research_schedules d) (workspaces d) (threads d) (messages d) (runs d) (attempts d)
  (f (run_events d)) (runtime_actions d) (runtime_pin_releases d) (source_intents d)
  (decisions d) (source_import_waiters d) (source_import_actions d)
  (artifact_versions d) (artifact_materialization_actions d) (runtime_bindings d)
  (runtime_event_inbox d) (workflow_instances d) (workflow_stage_instances d)
  (workflow_decision_refs d) (runtime_recovery_commands d) (transport_bindings d)
  (transport_command_receipts d) (transport_deliveries d) (transport_opaque_targets d)
  (transport_delivery_projections d) (transport_delivery_chunks d)
  (transport_delivery_chunk_buttons d) (transport_delivery_chunk_capabilities d)
  (transport_delivery_chunk_resolutions d) (asset_roots d) (connectors d)
  (paired_backup_proofs d) (system_health_observations d).
Definition set_runtime_actions f d := Db (idempotency_receipts d) (control_audit d)
  (captures d) (sources d) (source_aliases d) (runtime_release_approvals d)
  (runtime_activation_decisions d) (transport_activation_decisions d)
  (research_schedules d) (workspaces d) (threads d) (messages d) (runs d) (attempts d)
  (run_events d) (f (runtime_actions d)) (runtime_pin_releases d) (source_intents d)
  (decisions d) (source_import_waiters d) (source_import_actions d)
  (artifact_versions d) (artifact_materialization_actions d) (runtime_bindings d)
  (runtime_event_inbox d) (workflow_instances d) (workflow_stage_instances d)
  (workflow_decision_refs d) (runtime_recovery_commands d) (transport_bindings d)
  (transport_command_receipts d) (transport_deliveries d) (transport_opaque_targets d)
  (transport_delivery_projections d) (transport_delivery_chunks d)
  (transport_delivery_chunk_buttons d) (transport_delivery_chunk_capabilities d)
  (transport_delivery_chunk_resolutions d) (asset_roots d) (connectors d)
  (paired_backup_proofs d) (system_health_observations d).
Definition set_pin_releases f d := Db (idempotency_receipts d) (control_audit d)
  (captures d) (sources d) (source_aliases d) (runtime_release_approvals d)
  (runtime_activation_decisions d) (transport_activation_decisions d)
  (research_schedules d) (workspaces d) (threads d) (messages d) (runs d) (attempts d)
  (run_events d) (runtime_actions d) (f (runtime_pin_releases d)) (source_intents d)
  (decisions d) (source_import_waiters d) (source_import_actions d)
  (artifact_versions d) (artifact_materialization_actions d) (runtime_bindings d)
  (runtime_event_inbox d) (workflow_instances d) (workflow_stage_instances d)
  (workflow_decision_refs d) (runtime_recovery_commands d) (transport_bindings d)
  (transport_command_receipts d) (transport_deliveries d) (transport_opaque_targets d)
  (transport_delivery_projections d) (transport_delivery_chunks d)
  (transport_delivery_chunk_buttons d) (transport_delivery_chunk_capabilities d)
  (transport_delivery_chunk_resolutions d) (asset_roots d) (connectors d)
  (paired_backup_proofs d) (system_health_observations d).
Definition set_source_intents f d := Db (idempotency_receipts d) (control_audit d)
  (captures d) (sources d) (source_aliases d) (runtime_release_approvals d)
  (runtime_activation_decisions d) (transport_activation_decisions d)
  (research_schedules d) (workspaces d) (threads d) (messages d) (runs d) (attempts d)
  (run_events d) (runtime_actions d) (runtime_pin_releases d) (f (source_intents d))
  (decisions d) (source_import_waiters d) (source_import_actions d)
  (artifact_versions d) (artifact_materialization_actions d) (runtime_bindings d)
  (runtime_event_inbox d) (workflow_instances d) (workflow_stage_instances d)
  (workflow_decision_refs d) (runtime_recovery_commands d) (transport_bindings d)
  (transport_command_receipts d) (transport_deliveries d) (transport_opaque_targets d)
  (transport_delivery_projections d) (transport_delivery_chunks d)
  (transport_delivery_chunk_buttons d) (transport_delivery_chunk_capabilities d)
  (transport_delivery_chunk_resolutions d) (asset_roots d) (connectors d)
  (paired_backup_proofs d) (system_health_observations d).
Definition set_decisions f d := Db (idempotency_receipts d) (control_audit d)
  (captures d) (sources d) (source_aliases d) (runtime_release_approvals d)
  (runtime_activation_decisions d) (transport_activation_decisions d)
  (research_schedules d) (workspaces d) (threads d) (messages d) (runs d) (attempts d)
  (run_events d) (runtime_actions d) (runtime_pin_releases d) (source_intents d)
  (f (decisions d)) (source_import_waiters d) (source_import_actions d)
  (artifact_versions d) (artifact_materialization_actions d) (runtime_bindings d)
  (runtime_event_inbox d) (workflow_instances d) (workflow_stage_instances d)
  (workflow_decision_refs d) (runtime_recovery_commands d) (transport_bindings d)
  (transport_command_receipts d) (transport_deliveries d) (transport_opaque_targets d)
  (transport_delivery_projections d) (transport_delivery_chunks d)
  (transport_delivery_chunk_buttons d) (transport_delivery_chunk_capabilities d)
  (transport_delivery_chunk_resolutions d) (asset_roots d) (connectors d)
  (paired_backup_proofs d) (system_health_observations d).
Definition set_import_waiters f d := Db (idempotency_receipts d) (control_audit d)
  (captures d) (sources d) (source_aliases d) (runtime_release_approvals d)
  (runtime_activation_decisions d) (transport_activation_decisions d)
  (research_schedules d) (workspaces d) (threads d) (messages d) (runs d) (attempts d)
  (run_events d) (runtime_actions d) (runtime_pin_releases d) (source_intents d)
  (decisions d) (f (source_import_waiters d)) (source_import_actions d)
  (artifact_versions d) (artifact_materialization_actions d) (runtime_bindings d)
  (runtime_event_inbox d) (workflow_instances d) (workflow_stage_instances d)
  (workflow_decision_refs d) (runtime_recovery_commands d) (transport_bindings d)
  (transport_command_receipts d) (transport_deliveries d) (transport_opaque_targets d)
  (transport_delivery_projections d) (transport_delivery_chunks d)
  (transport_delivery_chunk_buttons d) (transport_delivery_chunk_capabilities d)
  (transport_delivery_chunk_resolutions d) (asset_roots d) (connectors d)
  (paired_backup_proofs d) (system_health_observations d).
Definition set_import_actions f d := Db (idempotency_receipts d) (control_audit d)
  (captures d) (sources d) (source_aliases d) (runtime_release_approvals d)
  (runtime_activation_decisions d) (transport_activation_decisions d)
  (research_schedules d) (workspaces d) (threads d) (messages d) (runs d) (attempts d)
  (run_events d) (runtime_actions d) (runtime_pin_releases d) (source_intents d)
  (decisions d) (source_import_waiters d) (f (source_import_actions d))
  (artifact_versions d) (artifact_materialization_actions d) (runtime_bindings d)
  (runtime_event_inbox d) (workflow_instances d) (workflow_stage_instances d)
  (workflow_decision_refs d) (runtime_recovery_commands d) (transport_bindings d)
  (transport_command_receipts d) (transport_deliveries d) (transport_opaque_targets d)
  (transport_delivery_projections d) (transport_delivery_chunks d)
  (transport_delivery_chunk_buttons d) (transport_delivery_chunk_capabilities d)
  (transport_delivery_chunk_resolutions d) (asset_roots d) (connectors d)
  (paired_backup_proofs d) (system_health_observations d).
Definition set_artifact_versions f d := Db (idempotency_receipts d) (control_audit d)
  (captures d) (sources d) (source_aliases d) (runtime_release_approvals d)
  (runtime_activation_decisions d) (transport_activation_decisions d)
  (research_schedules d) (workspaces d) (threads d) (messages d) (runs d) (attempts d)
  (run_events d) (runtime_actions d) (runtime_pin_releases d) (source_intents d)
  (decisions d) (source_import_waiters d) (source_import_actions d)
  (f (artifact_versions d)) (artifact_materialization_actions d) (runtime_bindings d)
  (runtime_event_inbox d) (workflow_instances d) (workflow_stage_instances d)
  (workflow_decision_refs d) (runtime_recovery_commands d) (transport_bindings d)
  (transport_command_receipts d) (transport_deliveries d) (transport_opaque_targets d)
  (transport_delivery_projections d) (transport_delivery_chunks d)
  (transport_delivery_chunk_buttons d) (transport_delivery_chunk_capabilities d)
  (transport_delivery_chunk_resolutions d) (asset_roots d) (connectors d)
  (paired_backup_proofs d) (system_health_observations d).
Definition set_materializations f d := Db (idempotency_receipts d) (control_audit d)
  (captures d) (sources d) (source_aliases d) (runtime_release_approvals d)
  (runtime_activation_decisions d) (transport_activation_decisions d)
  (research_schedules d) (workspaces d) (threads d) (messages d) (runs d) (attempts d)
  (run_events d) (runtime_actions d) (runtime_pin_releases d) (source_intents d)
  (decisions d) (source_import_waiters d) (source_import_actions d)
  (artifact_versions d) (f (artifact_materialization_actions d)) (runtime_bindings d)
  (runtime_event_inbox d) (workflow_instances d) (workflow_stage_instances d)
  (workflow_decision_refs d) (runtime_recovery_commands d) (transport_bindings d)
  (transport_command_receipts d) (transport_deliveries d) (transport_opaque_targets d)
  (transport_delivery_projections d) (transport_delivery_chunks d)
  (transport_delivery_chunk_buttons d) (transport_delivery_chunk_capabilities d)
  (transport_delivery_chunk_resolutions d) (asset_roots d) (connectors d)
  (paired_backup_proofs d) (system_health_observations d).
Definition set_bindings f d := Db (idempotency_receipts d) (control_audit d)
  (captures d) (sources d) (source_aliases d) (runtime_release_approvals d)
  (runtime_activation_decisions d) (transport_activation_decisions d)
  (research_schedules d) (workspaces d) (threads d) (messages d) (runs d) (attempts d)
  (run_events d) (runtime_actions d) (runtime_pin_releases d) (source_intents d)
  (decisions d) (source_import_waiters d) (source_import_actions d)
  (artifact_versions d) (artifact_materialization_actions d) (f (runtime_bindings d))
  (runtime_event_inbox d) (workflow_instances d) (workflow_stage_instances d)
  (workflow_decision_refs d) (runtime_recovery_commands d) (transport_bindings d)
  (transport_command_receipts d) (transport_deliveries d) (transport_opaque_targets d)
  (transport_delivery_projections d) (transport_delivery_chunks d)
  (transport_delivery_chunk_buttons d) (transport_delivery_chunk_capabilities d)
  (transport_delivery_chunk_resolutions d) (asset_roots d) (connectors d)
  (paired_backup_proofs d) (system_health_observations d).
Definition set_inbox f d := Db (idempotency_receipts d) (control_audit d) (captures d)
  (sources d) (source_aliases d) (runtime_release_approvals d)
  (runtime_activation_decisions d) (transport_activation_decisions d)
  (research_schedules d) (workspaces d) (threads d) (messages d) (runs d) (attempts d)
  (run_events d) (runtime_actions d) (runtime_pin_releases d) (source_intents d)
  (decisions d) (source_import_waiters d) (source_import_actions d)
  (artifact_versions d) (artifact_materialization_actions d) (runtime_bindings d)
  (f (runtime_event_inbox d)) (workflow_instances d) (workflow_stage_instances d)
  (workflow_decision_refs d) (runtime_recovery_commands d) (transport_bindings d)
  (transport_command_receipts d) (transport_deliveries d) (transport_opaque_targets d)
  (transport_delivery_projections d) (transport_delivery_chunks d)
  (transport_delivery_chunk_buttons d) (transport_delivery_chunk_capabilities d)
  (transport_delivery_chunk_resolutions d) (asset_roots d) (connectors d)
  (paired_backup_proofs d) (system_health_observations d).
Definition set_workflows f d := Db (idempotency_receipts d) (control_audit d)
  (captures d) (sources d) (source_aliases d) (runtime_release_approvals d)
  (runtime_activation_decisions d) (transport_activation_decisions d)
  (research_schedules d) (workspaces d) (threads d) (messages d) (runs d) (attempts d)
  (run_events d) (runtime_actions d) (runtime_pin_releases d) (source_intents d)
  (decisions d) (source_import_waiters d) (source_import_actions d)
  (artifact_versions d) (artifact_materialization_actions d) (runtime_bindings d)
  (runtime_event_inbox d) (f (workflow_instances d)) (workflow_stage_instances d)
  (workflow_decision_refs d) (runtime_recovery_commands d) (transport_bindings d)
  (transport_command_receipts d) (transport_deliveries d) (transport_opaque_targets d)
  (transport_delivery_projections d) (transport_delivery_chunks d)
  (transport_delivery_chunk_buttons d) (transport_delivery_chunk_capabilities d)
  (transport_delivery_chunk_resolutions d) (asset_roots d) (connectors d)
  (paired_backup_proofs d) (system_health_observations d).
Definition set_stages f d := Db (idempotency_receipts d) (control_audit d) (captures d)
  (sources d) (source_aliases d) (runtime_release_approvals d)
  (runtime_activation_decisions d) (transport_activation_decisions d)
  (research_schedules d) (workspaces d) (threads d) (messages d) (runs d) (attempts d)
  (run_events d) (runtime_actions d) (runtime_pin_releases d) (source_intents d)
  (decisions d) (source_import_waiters d) (source_import_actions d)
  (artifact_versions d) (artifact_materialization_actions d) (runtime_bindings d)
  (runtime_event_inbox d) (workflow_instances d) (f (workflow_stage_instances d))
  (workflow_decision_refs d) (runtime_recovery_commands d) (transport_bindings d)
  (transport_command_receipts d) (transport_deliveries d) (transport_opaque_targets d)
  (transport_delivery_projections d) (transport_delivery_chunks d)
  (transport_delivery_chunk_buttons d) (transport_delivery_chunk_capabilities d)
  (transport_delivery_chunk_resolutions d) (asset_roots d) (connectors d)
  (paired_backup_proofs d) (system_health_observations d).
Definition set_decision_refs f d := Db (idempotency_receipts d) (control_audit d)
  (captures d) (sources d) (source_aliases d) (runtime_release_approvals d)
  (runtime_activation_decisions d) (transport_activation_decisions d)
  (research_schedules d) (workspaces d) (threads d) (messages d) (runs d) (attempts d)
  (run_events d) (runtime_actions d) (runtime_pin_releases d) (source_intents d)
  (decisions d) (source_import_waiters d) (source_import_actions d)
  (artifact_versions d) (artifact_materialization_actions d) (runtime_bindings d)
  (runtime_event_inbox d) (workflow_instances d) (workflow_stage_instances d)
  (f (workflow_decision_refs d)) (runtime_recovery_commands d) (transport_bindings d)
  (transport_command_receipts d) (transport_deliveries d) (transport_opaque_targets d)
  (transport_delivery_projections d) (transport_delivery_chunks d)
  (transport_delivery_chunk_buttons d) (transport_delivery_chunk_capabilities d)
  (transport_delivery_chunk_resolutions d) (asset_roots d) (connectors d)
  (paired_backup_proofs d) (system_health_observations d).
Definition set_recoveries f d := Db (idempotency_receipts d) (control_audit d)
  (captures d) (sources d) (source_aliases d) (runtime_release_approvals d)
  (runtime_activation_decisions d) (transport_activation_decisions d)
  (research_schedules d) (workspaces d) (threads d) (messages d) (runs d) (attempts d)
  (run_events d) (runtime_actions d) (runtime_pin_releases d) (source_intents d)
  (decisions d) (source_import_waiters d) (source_import_actions d)
  (artifact_versions d) (artifact_materialization_actions d) (runtime_bindings d)
  (runtime_event_inbox d) (workflow_instances d) (workflow_stage_instances d)
  (workflow_decision_refs d) (f (runtime_recovery_commands d)) (transport_bindings d)
  (transport_command_receipts d) (transport_deliveries d) (transport_opaque_targets d)
  (transport_delivery_projections d) (transport_delivery_chunks d)
  (transport_delivery_chunk_buttons d) (transport_delivery_chunk_capabilities d)
  (transport_delivery_chunk_resolutions d) (asset_roots d) (connectors d)
  (paired_backup_proofs d) (system_health_observations d).
Definition set_transport_bindings f d := Db (idempotency_receipts d) (control_audit d)
  (captures d) (sources d) (source_aliases d) (runtime_release_approvals d)
  (runtime_activation_decisions d) (transport_activation_decisions d)
  (research_schedules d) (workspaces d) (threads d) (messages d) (runs d) (attempts d)
  (run_events d) (runtime_actions d) (runtime_pin_releases d) (source_intents d)
  (decisions d) (source_import_waiters d) (source_import_actions d)
  (artifact_versions d) (artifact_materialization_actions d) (runtime_bindings d)
  (runtime_event_inbox d) (workflow_instances d) (workflow_stage_instances d)
  (workflow_decision_refs d) (runtime_recovery_commands d) (f (transport_bindings d))
  (transport_command_receipts d) (transport_deliveries d) (transport_opaque_targets d)
  (transport_delivery_projections d) (transport_delivery_chunks d)
  (transport_delivery_chunk_buttons d) (transport_delivery_chunk_capabilities d)
  (transport_delivery_chunk_resolutions d) (asset_roots d) (connectors d)
  (paired_backup_proofs d) (system_health_observations d).
Definition set_transport_commands f d := Db (idempotency_receipts d) (control_audit d)
  (captures d) (sources d) (source_aliases d) (runtime_release_approvals d)
  (runtime_activation_decisions d) (transport_activation_decisions d)
  (research_schedules d) (workspaces d) (threads d) (messages d) (runs d) (attempts d)
  (run_events d) (runtime_actions d) (runtime_pin_releases d) (source_intents d)
  (decisions d) (source_import_waiters d) (source_import_actions d)
  (artifact_versions d) (artifact_materialization_actions d) (runtime_bindings d)
  (runtime_event_inbox d) (workflow_instances d) (workflow_stage_instances d)
  (workflow_decision_refs d) (runtime_recovery_commands d) (transport_bindings d)
  (f (transport_command_receipts d)) (transport_deliveries d)
  (transport_opaque_targets d) (transport_delivery_projections d)
  (transport_delivery_chunks d) (transport_delivery_chunk_buttons d)
  (transport_delivery_chunk_capabilities d) (transport_delivery_chunk_resolutions d)
  (asset_roots d) (connectors d) (paired_backup_proofs d)
  (system_health_observations d).
Definition set_deliveries f d := Db (idempotency_receipts d) (control_audit d)
  (captures d) (sources d) (source_aliases d) (runtime_release_approvals d)
  (runtime_activation_decisions d) (transport_activation_decisions d)
  (research_schedules d) (workspaces d) (threads d) (messages d) (runs d) (attempts d)
  (run_events d) (runtime_actions d) (runtime_pin_releases d) (source_intents d)
  (decisions d) (source_import_waiters d) (source_import_actions d)
  (artifact_versions d) (artifact_materialization_actions d) (runtime_bindings d)
  (runtime_event_inbox d) (workflow_instances d) (workflow_stage_instances d)
  (workflow_decision_refs d) (runtime_recovery_commands d) (transport_bindings d)
  (transport_command_receipts d) (f (transport_deliveries d))
  (transport_opaque_targets d) (transport_delivery_projections d)
  (transport_delivery_chunks d) (transport_delivery_chunk_buttons d)
  (transport_delivery_chunk_capabilities d) (transport_delivery_chunk_resolutions d)
  (asset_roots d) (connectors d) (paired_backup_proofs d)
  (system_health_observations d).
Definition set_targets f d := Db (idempotency_receipts d) (control_audit d) (captures d)
  (sources d) (source_aliases d) (runtime_release_approvals d)
  (runtime_activation_decisions d) (transport_activation_decisions d)
  (research_schedules d) (workspaces d) (threads d) (messages d) (runs d) (attempts d)
  (run_events d) (runtime_actions d) (runtime_pin_releases d) (source_intents d)
  (decisions d) (source_import_waiters d) (source_import_actions d)
  (artifact_versions d) (artifact_materialization_actions d) (runtime_bindings d)
  (runtime_event_inbox d) (workflow_instances d) (workflow_stage_instances d)
  (workflow_decision_refs d) (runtime_recovery_commands d) (transport_bindings d)
  (transport_command_receipts d) (transport_deliveries d)
  (f (transport_opaque_targets d)) (transport_delivery_projections d)
  (transport_delivery_chunks d) (transport_delivery_chunk_buttons d)
  (transport_delivery_chunk_capabilities d) (transport_delivery_chunk_resolutions d)
  (asset_roots d) (connectors d) (paired_backup_proofs d)
  (system_health_observations d).
Definition set_projections f d := Db (idempotency_receipts d) (control_audit d)
  (captures d) (sources d) (source_aliases d) (runtime_release_approvals d)
  (runtime_activation_decisions d) (transport_activation_decisions d)
  (research_schedules d) (workspaces d) (threads d) (messages d) (runs d) (attempts d)
  (run_events d) (runtime_actions d) (runtime_pin_releases d) (source_intents d)
  (decisions d) (source_import_waiters d) (source_import_actions d)
  (artifact_versions d) (artifact_materialization_actions d) (runtime_bindings d)
  (runtime_event_inbox d) (workflow_instances d) (workflow_stage_instances d)
  (workflow_decision_refs d) (runtime_recovery_commands d) (transport_bindings d)
  (transport_command_receipts d) (transport_deliveries d) (transport_opaque_targets d)
  (f (transport_delivery_projections d)) (transport_delivery_chunks d)
  (transport_delivery_chunk_buttons d) (transport_delivery_chunk_capabilities d)
  (transport_delivery_chunk_resolutions d) (asset_roots d) (connectors d)
  (paired_backup_proofs d) (system_health_observations d).
Definition set_chunks f d := Db (idempotency_receipts d) (control_audit d) (captures d)
  (sources d) (source_aliases d) (runtime_release_approvals d)
  (runtime_activation_decisions d) (transport_activation_decisions d)
  (research_schedules d) (workspaces d) (threads d) (messages d) (runs d) (attempts d)
  (run_events d) (runtime_actions d) (runtime_pin_releases d) (source_intents d)
  (decisions d) (source_import_waiters d) (source_import_actions d)
  (artifact_versions d) (artifact_materialization_actions d) (runtime_bindings d)
  (runtime_event_inbox d) (workflow_instances d) (workflow_stage_instances d)
  (workflow_decision_refs d) (runtime_recovery_commands d) (transport_bindings d)
  (transport_command_receipts d) (transport_deliveries d) (transport_opaque_targets d)
  (transport_delivery_projections d) (f (transport_delivery_chunks d))
  (transport_delivery_chunk_buttons d) (transport_delivery_chunk_capabilities d)
  (transport_delivery_chunk_resolutions d) (asset_roots d) (connectors d)
  (paired_backup_proofs d) (system_health_observations d).
Definition set_buttons f d := Db (idempotency_receipts d) (control_audit d) (captures d)
  (sources d) (source_aliases d) (runtime_release_approvals d)
  (runtime_activation_decisions d) (transport_activation_decisions d)
  (research_schedules d) (workspaces d) (threads d) (messages d) (runs d) (attempts d)
  (run_events d) (runtime_actions d) (runtime_pin_releases d) (source_intents d)
  (decisions d) (source_import_waiters d) (source_import_actions d)
  (artifact_versions d) (artifact_materialization_actions d) (runtime_bindings d)
  (runtime_event_inbox d) (workflow_instances d) (workflow_stage_instances d)
  (workflow_decision_refs d) (runtime_recovery_commands d) (transport_bindings d)
  (transport_command_receipts d) (transport_deliveries d) (transport_opaque_targets d)
  (transport_delivery_projections d) (transport_delivery_chunks d)
  (f (transport_delivery_chunk_buttons d)) (transport_delivery_chunk_capabilities d)
  (transport_delivery_chunk_resolutions d) (asset_roots d) (connectors d)
  (paired_backup_proofs d) (system_health_observations d).
Definition set_capabilities f d := Db (idempotency_receipts d) (control_audit d)
  (captures d) (sources d) (source_aliases d) (runtime_release_approvals d)
  (runtime_activation_decisions d) (transport_activation_decisions d)
  (research_schedules d) (workspaces d) (threads d) (messages d) (runs d) (attempts d)
  (run_events d) (runtime_actions d) (runtime_pin_releases d) (source_intents d)
  (decisions d) (source_import_waiters d) (source_import_actions d)
  (artifact_versions d) (artifact_materialization_actions d) (runtime_bindings d)
  (runtime_event_inbox d) (workflow_instances d) (workflow_stage_instances d)
  (workflow_decision_refs d) (runtime_recovery_commands d) (transport_bindings d)
  (transport_command_receipts d) (transport_deliveries d) (transport_opaque_targets d)
  (transport_delivery_projections d) (transport_delivery_chunks d)
  (transport_delivery_chunk_buttons d) (f (transport_delivery_chunk_capabilities d))
  (transport_delivery_chunk_resolutions d) (asset_roots d) (connectors d)
  (paired_backup_proofs d) (system_health_observations d).
Definition set_resolutions f d := Db (idempotency_receipts d) (control_audit d)
  (captures d) (sources d) (source_aliases d) (runtime_release_approvals d)
  (runtime_activation_decisions d) (transport_activation_decisions d)
  (research_schedules d) (workspaces d) (threads d) (messages d) (runs d) (attempts d)
  (run_events d) (runtime_actions d) (runtime_pin_releases d) (source_intents d)
  (decisions d) (source_import_waiters d) (source_import_actions d)
  (artifact_versions d) (artifact_materialization_actions d) (runtime_bindings d)
  (runtime_event_inbox d) (workflow_instances d) (workflow_stage_instances d)
  (workflow_decision_refs d) (runtime_recovery_commands d) (transport_bindings d)
  (transport_command_receipts d) (transport_deliveries d) (transport_opaque_targets d)
  (transport_delivery_projections d) (transport_delivery_chunks d)
  (transport_delivery_chunk_buttons d) (transport_delivery_chunk_capabilities d)
  (f (transport_delivery_chunk_resolutions d)) (asset_roots d) (connectors d)
  (paired_backup_proofs d) (system_health_observations d).
Definition set_asset_roots f d := Db (idempotency_receipts d) (control_audit d)
  (captures d) (sources d) (source_aliases d) (runtime_release_approvals d)
  (runtime_activation_decisions d) (transport_activation_decisions d)
  (research_schedules d) (workspaces d) (threads d) (messages d) (runs d) (attempts d)
  (run_events d) (runtime_actions d) (runtime_pin_releases d) (source_intents d)
  (decisions d) (source_import_waiters d) (source_import_actions d)
  (artifact_versions d) (artifact_materialization_actions d) (runtime_bindings d)
  (runtime_event_inbox d) (workflow_instances d) (workflow_stage_instances d)
  (workflow_decision_refs d) (runtime_recovery_commands d) (transport_bindings d)
  (transport_command_receipts d) (transport_deliveries d) (transport_opaque_targets d)
  (transport_delivery_projections d) (transport_delivery_chunks d)
  (transport_delivery_chunk_buttons d) (transport_delivery_chunk_capabilities d)
  (transport_delivery_chunk_resolutions d) (f (asset_roots d)) (connectors d)
  (paired_backup_proofs d) (system_health_observations d).
Definition set_connectors f d := Db (idempotency_receipts d) (control_audit d)
  (captures d) (sources d) (source_aliases d) (runtime_release_approvals d)
  (runtime_activation_decisions d) (transport_activation_decisions d)
  (research_schedules d) (workspaces d) (threads d) (messages d) (runs d) (attempts d)
  (run_events d) (runtime_actions d) (runtime_pin_releases d) (source_intents d)
  (decisions d) (source_import_waiters d) (source_import_actions d)
  (artifact_versions d) (artifact_materialization_actions d) (runtime_bindings d)
  (runtime_event_inbox d) (workflow_instances d) (workflow_stage_instances d)
  (workflow_decision_refs d) (runtime_recovery_commands d) (transport_bindings d)
  (transport_command_receipts d) (transport_deliveries d) (transport_opaque_targets d)
  (transport_delivery_projections d) (transport_delivery_chunks d)
  (transport_delivery_chunk_buttons d) (transport_delivery_chunk_capabilities d)
  (transport_delivery_chunk_resolutions d) (asset_roots d) (f (connectors d))
  (paired_backup_proofs d) (system_health_observations d).
Definition set_backup_proofs f d := Db (idempotency_receipts d) (control_audit d)
  (captures d) (sources d) (source_aliases d) (runtime_release_approvals d)
  (runtime_activation_decisions d) (transport_activation_decisions d)
  (research_schedules d) (workspaces d) (threads d) (messages d) (runs d) (attempts d)
  (run_events d) (runtime_actions d) (runtime_pin_releases d) (source_intents d)
  (decisions d) (source_import_waiters d) (source_import_actions d)
  (artifact_versions d) (artifact_materialization_actions d) (runtime_bindings d)
  (runtime_event_inbox d) (workflow_instances d) (workflow_stage_instances d)
  (workflow_decision_refs d) (runtime_recovery_commands d) (transport_bindings d)
  (transport_command_receipts d) (transport_deliveries d) (transport_opaque_targets d)
  (transport_delivery_projections d) (transport_delivery_chunks d)
  (transport_delivery_chunk_buttons d) (transport_delivery_chunk_capabilities d)
  (transport_delivery_chunk_resolutions d) (asset_roots d) (connectors d)
  (f (paired_backup_proofs d)) (system_health_observations d).
Definition set_health f d := Db (idempotency_receipts d) (control_audit d) (captures d)
  (sources d) (source_aliases d) (runtime_release_approvals d)
  (runtime_activation_decisions d) (transport_activation_decisions d)
  (research_schedules d) (workspaces d) (threads d) (messages d) (runs d) (attempts d)
  (run_events d) (runtime_actions d) (runtime_pin_releases d) (source_intents d)
  (decisions d) (source_import_waiters d) (source_import_actions d)
  (artifact_versions d) (artifact_materialization_actions d) (runtime_bindings d)
  (runtime_event_inbox d) (workflow_instances d) (workflow_stage_instances d)
  (workflow_decision_refs d) (runtime_recovery_commands d) (transport_bindings d)
  (transport_command_receipts d) (transport_deliveries d) (transport_opaque_targets d)
  (transport_delivery_projections d) (transport_delivery_chunks d)
  (transport_delivery_chunk_buttons d) (transport_delivery_chunk_capabilities d)
  (transport_delivery_chunk_resolutions d) (asset_roots d) (connectors d)
  (paired_backup_proofs d) (f (system_health_observations d)).
