(* ===== verification/Store.v ===== *)
(** * The control store's shared machinery

    What every command of [ControlStore] is made of: the clock, the identifier
    factory and the digest it is built with, the transaction that rolls back,
    the idempotency receipts, the audit trail and the argument checks. *)

From Stdlib Require Import Ascii.
From S2P Require Import Prelude PyText Clock Json Schema.
Open Scope Z_scope.

(** The constructor's arguments and the digest of [hashlib]: the [n]-th
    reading of the clock, the [n]-th identifier of a kind, and SHA-256 in hex
    over the UTF-8 text.  A [datetime] is always an instant of its range. *)
Class Env := {
  clock : nat → Z;
  id_factory : string → nat → string;
  sha256 : string → string;
  clock_valid : ∀ n, dt_valid (clock n) = true;
  id_named : ∀ kind n, id_factory kind n ≠ "" }.

(** The store and the readings taken so far; a rolled-back transaction has
    still read the clock. *)
Record world := World { w_db : db; w_ticks : nat; w_ids : nat }.
Definition on_db (f : db → db) (w : world) : world :=
  World (f (w_db w)) (w_ticks w) (w_ids w).

(** [control/errors.py], and the exceptions of the language and of SQLite the
    commands let through. *)
Inductive exc :=
| ValueError (message : string)
| NotFound (resource resource_id : string)
| IdempotencyConflict
| RevisionConflict (current : json)
| InvalidTransition (source target : string)
| CaptureConflict (current : json)
| ThreadArchived (current : json)
| ThreadActiveRun (current : json)
| MachineRunRefused (run_id target : string)
| TransportBindingConflict (current : json)
| LookupError
| IntegrityError
| JSONDecodeError
| OverflowError
| RuntimeError (message : string).

Abbreviation Store := (M world exc).

Record command_result := CommandResult {
  cr_value : json; cr_status_code : Z; cr_replayed : bool }.

Section Store.
Context `{Env}.

(** [_utc_now], [_now] and the identifier factory. *)
Definition utc_now : Store Z := λ w,
  Ok (clock (w_ticks w)) (World (w_db w) (S (w_ticks w)) (w_ids w)).
Definition now : Store string := t ← utc_now; mret (format_time t).
Definition new_id (kind : string) : Store string := λ w,
  Ok (id_factory kind (w_ids w)) (World (w_db w) (w_ticks w) (S (w_ids w))).

Definition query {A} (f : db → A) : Store A := gets (λ w, f (w_db w)).
Definition execute (f : db → db) : Store unit := modify (on_db f).

(** [_transaction]: commit, or roll back and raise again. *)
Definition transaction {A} (body : Store A) : Store A := λ w,
  match body w with
  | Ok a w' => Ok a w'
  | Err e w' => Err e (World (w_db w) (w_ticks w') (w_ids w'))
  end.

(** [_json] and [_request_hash]. *)
Definition json_text (v : json) : string := dumps false v.
Definition request_hash (request : json) : string := sha256 (json_text request).
Definition json_loads (s : string) : Store json := from_option (loads s) JSONDecodeError.

(** [_KEY_RE]. *)
Definition key_char (c : ascii) : bool := is_alnum c || one_of "_-" c.
Definition key_ok (key : string) : bool :=
  str_all key_char key && (16 <=? slen key) && (slen key <=? 128).
Definition validate_key (key : string) : Store unit :=
  ensure (key_ok key) (ValueError "idempotency key must be 16-128 URL-safe characters").

(** [_receipt]. *)
Definition receipt (actor_id operation key : string) (request : json) :
    Store (option command_result) :=
  validate_key key;;
  row ← query (λ d, idempotency_receipts d !! (actor_id, operation, key));
  match row with
  | None => mret None
  | Some r =>
      ensure (String.eqb (rc_request_hash r) (request_hash request)) IdempotencyConflict;;
      v ← json_loads (rc_response_json r);
      mret (Some (CommandResult v (rc_status_code r) true))
  end.

(** [_save_receipt]. *)
Definition save_receipt (actor_id operation key : string) (request response : json)
    (status_code : Z) : Store command_result :=
  t ← now;
  taken ← query (λ d, idempotency_receipts d !! (actor_id, operation, key));
  ensure (bool_decide (taken = None)) IntegrityError;;
  execute (set_receipts (<[(actor_id, operation, key) :=
    ReceiptRow (request_hash request) status_code (json_text response) t]>));;
  mret (CommandResult response status_code false).

(** [_audit]. *)
Definition audit (aggregate_type aggregate_id event_type : string)
    (payload : json) : Store unit :=
  id ← new_id "audit"; t ← now;
  used ← query (λ d, existsb (λ r, String.eqb (au_id r) id) (control_audit d));
  ensure (negb used) IntegrityError;;
  execute (set_audit (λ l, l ++
    [AuditRow id aggregate_type aggregate_id event_type t (json_text payload)])).

(** [_required_text]: the stripped text of a non-blank bounded argument. *)
Definition required_text (value name : string) (maximum : Z) : Store string :=
  ensure (negb (String.eqb (strip value) "") && (slen value <=? maximum))
    (ValueError (name +:+ " is invalid"));;
  mret (strip value).

(** [_expect_revision]. *)
Definition expect_revision (resource : json) (revision expected : Z) : Store unit :=
  ensure (0 <=? expected) (ValueError "expected_revision must be a non-negative integer");;
  ensure (revision =? expected) (RevisionConflict resource).

(** [now + timedelta(seconds=n)] as stored text. *)
Definition format_after (t seconds : Z) : Store string :=
  r ← from_option (dt_add_seconds t seconds) OverflowError; mret (format_time r).

(** The shape shared by the commands: replay the saved receipt, or run the
    body and save one for its response. *)
Definition command (actor_id operation key : string) (request : json)
    (body : Store (json * Z)) : Store command_result :=
  transaction (
    replay ← receipt actor_id operation key request;
    match replay with
    | Some r => mret r
    | None =>
        '(value, status_code) ← body;
        save_receipt actor_id operation key request value status_code
    end).

(** [replay_command]. *)
Definition replay_command (actor_id operation key : string) (request : json) :
    Store (option command_result) := receipt actor_id operation key request.
End Store.

(** ** What each step of a command does *)

Section StoreLaws.
Context `{Env}.

Lemma utc_now_ok w t w' :
  utc_now w = Ok t w' ↔
  t = clock (w_ticks w) ∧ w' = World (w_db w) (S (w_ticks w)) (w_ids w).
Proof. unfold utc_now. naive_solver. Qed.
Lemma now_ok w t w' :
  now w = Ok t w' ↔
  t = format_time (clock (w_ticks w)) ∧ w' = World (w_db w) (S (w_ticks w)) (w_ids w).
Proof. unfold now, utc_now, mbind, M_bind, mret, M_ret. naive_solver. Qed.
Lemma now_err w e w' : now w = Err e w' ↔ False.
Proof. unfold now, utc_now, mbind, M_bind, mret, M_ret. naive_solver. Qed.
Lemma new_id_ok kind w i w' :
  new_id kind w = Ok i w' ↔
  i = id_factory kind (w_ids w) ∧ w' = World (w_db w) (w_ticks w) (S (w_ids w)).
Proof. unfold new_id. naive_solver. Qed.
Lemma query_ok {A} (f : db → A) w a w' : query f w = Ok a w' ↔ a = f (w_db w) ∧ w' = w.
Proof. unfold query, gets. naive_solver. Qed.
Lemma execute_ok f w u w' : execute f w = Ok u w' ↔ u = tt ∧ w' = on_db f w.
Proof. unfold execute, modify. destruct u. naive_solver. Qed.
Lemma json_loads_ok s w v w' : json_loads s w = Ok v w' ↔ loads s = Some v ∧ w' = w.
Proof. unfold json_loads. by rewrite from_option_ok. Qed.
Lemma transaction_ok {A} (body : Store A) w a w' :
  transaction body w = Ok a w' ↔ body w = Ok a w'.
Proof. unfold transaction. destruct (body w); naive_solver. Qed.
Lemma expect_revision_ok res rev exp w u w' :
  expect_revision res rev exp w = Ok u w' ↔ 0 <= exp ∧ rev = exp ∧ u = tt ∧ w' = w.
Proof.
  unfold expect_revision, ensure, mbind, M_bind, mret, M_ret, raise.
  destruct (Z.leb_spec 0 exp); [|naive_solver lia].
  destruct (Z.eqb_spec rev exp), u; naive_solver.
Qed.
Lemma required_text_ok value name maximum w t w' :
  required_text value name maximum w = Ok t w' ↔
  strip value ≠ "" ∧ slen value <= maximum ∧ t = strip value ∧ w' = w.
Proof.
  unfold required_text, ensure, mbind, M_bind, mret, M_ret, raise.
  destruct (String.eqb_spec (strip value) ""); [naive_solver|]. simpl.
  destruct (Z.leb_spec (slen value) maximum); naive_solver lia.
Qed.
Lemma format_after_ok t seconds w s w' :
  format_after t seconds w = Ok s w' ↔
  ∃ r, dt_add_seconds t seconds = Some r ∧ s = format_time r ∧ w' = w.
Proof.
  unfold format_after, from_option, mbind, M_bind, mret, M_ret, raise.
  destruct (dt_add_seconds t seconds); naive_solver.
Qed.

Lemma receipt_ok a o k request w res w' :
  receipt a o k request w = Ok res w' ↔
  w' = w ∧ key_ok k = true ∧
  match idempotency_receipts (w_db w) !! (a, o, k) with
  | None => res = None
  | Some r => rc_request_hash r = request_hash request ∧
      ∃ v, loads (rc_response_json r) = Some v ∧
           res = Some (CommandResult v (rc_status_code r) true)
  end.
Proof.
  unfold receipt, validate_key, ensure, query, gets, json_loads, from_option,
    mbind, M_bind, mret, M_ret, raise.
  destruct (key_ok k); [|naive_solver].
  destruct (idempotency_receipts (w_db w) !! (a, o, k)) as [row|]; [|naive_solver].
  destruct (String.eqb_spec (rc_request_hash row) (request_hash request)); [|naive_solver].
  destruct (loads (rc_response_json row)); naive_solver.
Qed.

Lemma save_receipt_ok a o k request response code w r w' :
  save_receipt a o k request response code w = Ok r w' ↔
  idempotency_receipts (w_db w) !! (a, o, k) = None ∧
  r = CommandResult response code false ∧
  w' = World (set_receipts (<[(a, o, k) := ReceiptRow (request_hash request) code
         (json_text response) (format_time (clock (w_ticks w)))]>) (w_db w))
         (S (w_ticks w)) (w_ids w).
Proof.
  unfold save_receipt, now, utc_now, ensure, query, gets, execute, modify, on_db,
    mbind, M_bind, mret, M_ret, raise. simpl.
  destruct (idempotency_receipts (w_db w) !! (a, o, k)); naive_solver.
Qed.

Definition audit_id_free (w : world) : Prop :=
  existsb (λ r, String.eqb (au_id r) (id_factory "audit" (w_ids w)))
    (control_audit (w_db w)) = false.

Lemma audit_ok ty i ev payload w u w' :
  audit ty i ev payload w = Ok u w' ↔
  u = tt ∧ audit_id_free w ∧
  w' = World (set_audit (λ l, l ++ [AuditRow (id_factory "audit" (w_ids w)) ty i ev
         (format_time (clock (w_ticks w))) (json_text payload)]) (w_db w))
         (S (w_ticks w)) (S (w_ids w)).
Proof.
  unfold audit, audit_id_free, now, utc_now, new_id, ensure, query, gets, execute,
    modify, on_db, mbind, M_bind, mret, M_ret, raise. simpl.
  destruct u, (existsb _ _); simpl; naive_solver.
Qed.

(** A command either replays or runs its body and files the receipt. *)
Lemma command_ok a o k request body w r w' :
  command a o k request body w = Ok r w' ↔
  key_ok k = true ∧
  match idempotency_receipts (w_db w) !! (a, o, k) with
  | Some row => w' = w ∧ rc_request_hash row = request_hash request ∧
      ∃ v, loads (rc_response_json row) = Some v ∧
           r = CommandResult v (rc_status_code row) true
  | None => ∃ v code w1, body w = Ok (v, code) w1 ∧
      save_receipt a o k request v code w1 = Ok r w'
  end.
Proof.
  unfold command. rewrite transaction_ok, bind_ok. setoid_rewrite receipt_ok.
  destruct (idempotency_receipts (w_db w) !! (a, o, k)) as [row|] eqn:E.
  - split.
    + intros (? & ? & (-> & Hk & Hh & v & Hv & ->) & Hr). rewrite ret_ok in Hr. naive_solver.
    + intros (Hk & -> & Hh & v & Hv & ->). eexists _, _. split; [naive_solver|done].
  - split.
    + intros (? & ? & (-> & Hk & ->) & Hr). apply bind_ok in Hr as ([v code] & w1 & Hb & Hs).
      naive_solver.
    + intros (Hk & v & code & w1 & Hb & Hs). eexists _, _. split; [done|].
      apply bind_ok. by exists (v, code), w1.
Qed.

(** A view of the database that ignores the audit trail survives an audit. *)
Lemma keeps_audit {V} (view : db → V) ty i ev payload :
  (∀ f d, view (set_audit f d) = view d) → keeps (λ w, view (w_db w)) (audit ty i ev payload).
Proof.
  intros Hv w. destruct (audit ty i ev payload w) as [u w'|e w'] eqn:E; simpl.
  - apply audit_ok in E as (_ & _ & ->). apply Hv.
  - revert E. unfold audit, now, utc_now, new_id, ensure, query, gets, execute, modify,
      on_db, mbind, M_bind, mret, M_ret, raise. simpl.
    destruct (existsb _ _); simpl; naive_solver.
Qed.

(** ... and one that ignores the receipts survives the filing of one. *)
Lemma keeps_save_receipt {V} (view : db → V) a o k request response code :
  (∀ f d, view (set_receipts f d) = view d) →
  keeps (λ w, view (w_db w)) (save_receipt a o k request response code).
Proof.
  intros Hv w. destruct (save_receipt a o k request response code w) as [r w'|e w'] eqn:E; simpl.
  - apply save_receipt_ok in E as (_ & _ & ->). apply Hv.
  - revert E. unfold save_receipt, now, utc_now, ensure, query, gets, execute, modify, on_db,
      mbind, M_bind, mret, M_ret, raise. simpl. by case_bool_decide; intros [= _ <-].
Qed.
Lemma keeps_receipt {V} (view : world → V) a o k request : keeps view (receipt a o k request).
Proof.
  unfold receipt, validate_key, query, json_loads.
  repeat (apply keeps_bind; [|intros]; repeat case_match; eauto with keeps).
Qed.

Lemma keeps_query {V A} (view : world → V) (f : db → A) : keeps view (query f).
Proof. apply keeps_gets. Qed.
Lemma keeps_json_loads {V} (view : world → V) s : keeps view (json_loads s).
Proof. apply keeps_from_option. Qed.
Lemma keeps_required_text {V} (view : world → V) value name maximum :
  keeps view (required_text value name maximum).
Proof. unfold required_text. eauto with keeps. Qed.

(** A command is [atomic]: when it raises, the database is what it was. *)
Definition atomic {A} (m : Store A) : Prop :=
  ∀ w e w', m w = Err e w' → w_db w' = w_db w.

Lemma atomic_bind {A B} (m : Store A) (f : A → Store B) :
  keeps w_db m → (∀ a, atomic (f a)) → atomic (m ≫= f).
Proof.
  intros Hm Hf w e w'. specialize (Hm w). unfold mbind, M_bind.
  destruct (m w) as [a w1|e1 w1]; simpl in Hm; [|by intros [= _ <-]].
  intros He. rewrite <- Hm. by eapply Hf.
Qed.
Lemma atomic_transaction {A} (body : Store A) : atomic (transaction body).
Proof. intros w e w'. unfold transaction. destruct (body w); naive_solver. Qed.
Lemma atomic_keeps {A} (m : Store A) : keeps w_db m → atomic m.
Proof. intros Hk w e w' Hm. specialize (Hk w). by rewrite Hm in Hk. Qed.
Lemma atomic_command a o k request body : atomic (command a o k request body).
Proof. apply atomic_transaction. Qed.

Lemma transaction_err {A} (body : Store A) w e w' :
  transaction body w = Err e w' → w_db w' = w_db w.
Proof. unfold transaction. destruct (body w); naive_solver. Qed.
End StoreLaws.

#[export] Hint Rewrite @utc_now_ok @now_ok @now_err @new_id_ok @query_ok @execute_ok
  @json_loads_ok @transaction_ok @expect_revision_ok @required_text_ok
  @format_after_ok @receipt_ok @save_receipt_ok @audit_ok : monad.

(** A relation that only looks at a view of the database ignoring receipts and
    audit is kept by everything that leaves the view alone, and by a transaction
    or a command whose body keeps it. *)
Section View.
Context `{Env} {V : Type} (view : db → V) (R : world → world → Prop) `{!PreOrder R}
  (view_same : ∀ w w', view (w_db w') = view (w_db w) → R w w').

Lemma view_keeps {A} (m : Store A) : keeps (λ w, view (w_db w)) m → evolves R m.
Proof. intros Hk w. apply view_same, (Hk w). Qed.
Lemma view_pure {A} (m : Store A) : pure m → evolves R m.
Proof. intros [[a Hm] | [e Hm]] w; rewrite Hm; by apply view_same. Qed.
Lemma view_transaction {A} (body : Store A) :
  evolves R body → evolves R (transaction body).
Proof.
  intros Hb w. specialize (Hb w). unfold transaction. destruct (body w); [done|].
  by apply view_same.
Qed.
Lemma view_command a o k request body :
  (∀ f d, view (set_receipts f d) = view d) →
  evolves R body → evolves R (command a o k request body).
Proof.
  intros Hv Hb. apply view_transaction, evolves_bind; [done|by apply view_keeps, keeps_receipt|].
  intros [r|]; [by apply evolves_ret|]. apply evolves_bind; [done|done|]. intros [v code].
  by apply view_keeps, keeps_save_receipt.
Qed.
(** A body known by what it answers evolves under its command. *)
Lemma view_body a o k request body :
  (∀ f d, view (set_receipts f d) = view d) →
  (∀ w v code w', body w = Ok (v, code) w' → R w w') →
  evolves R (command a o k request body).
Proof.
  intros Hv Hb w. destruct (command a o k request body w) as [r w'|e w'] eqn:E; simpl.
  - apply command_ok in E as [_ E]. destruct (idempotency_receipts _ !! _).
    + destruct E as [-> _]. by apply view_same.
    + destruct E as (v & code & w1 & Hw & (_ & _ & ->)%save_receipt_ok).
      etrans; [by eapply Hb|]. apply view_same. apply Hv.
  - apply atomic_command in E. apply view_same. by rewrite E.
Qed.
Lemma view_audit ty i ev payload :
  (∀ f d, view (set_audit f d) = view d) → evolves R (audit ty i ev payload).
Proof. intros Hv. by apply view_keeps, keeps_audit. Qed.
End View.

(** ** The journal

    Receipts and the audit trail only ever grow: no command rewrites or drops
    an entry, whatever else it does. *)

Definition journal_le (w w' : world) : Prop :=
  idempotency_receipts (w_db w) ⊆ idempotency_receipts (w_db w') ∧
  control_audit (w_db w) `prefix_of` control_audit (w_db w').

#[export] Instance journal_le_preorder : PreOrder journal_le.
Proof.
  split; [by intros w|]. intros w1 w2 w3 [H1 H2] [H3 H4]. split; by etrans.
Qed.

Section Journal.
Context `{Env}.

Lemma evolves_query {A} (f : db → A) : evolves journal_le (query f).
Proof. apply evolves_gets, _. Qed.
Lemma evolves_execute f :
  (∀ d, idempotency_receipts (f d) = idempotency_receipts d) →
  (∀ d, control_audit (f d) = control_audit d) →
  evolves journal_le (execute f).
Proof. intros Hr Ha w. unfold journal_le. simpl. by rewrite Hr, Ha. Qed.
Lemma evolves_json_loads s : evolves journal_le (json_loads s).
Proof. apply evolves_from_option, _. Qed.
Lemma evolves_required_text v n m : evolves journal_le (required_text v n m).
Proof. unfold required_text. eauto 10 using journal_le_preorder with evolves. Qed.
Lemma evolves_utc_now : evolves journal_le utc_now.
Proof. by intros w. Qed.
Lemma evolves_now : evolves journal_le now.
Proof. by intros w. Qed.
Lemma evolves_new_id kind : evolves journal_le (new_id kind).
Proof. by intros w. Qed.
Lemma evolves_expect_revision v r e : evolves journal_le (expect_revision v r e).
Proof. unfold expect_revision. eauto with evolves typeclass_instances. Qed.
Lemma evolves_format_after t n : evolves journal_le (format_after t n).
Proof. unfold format_after. eauto with evolves typeclass_instances. Qed.

Lemma evolves_audit ty i ev payload : evolves journal_le (audit ty i ev payload).
Proof.
  unfold audit. repeat (apply evolves_bind; [apply _|eauto using evolves_new_id, evolves_now,
    evolves_query with evolves typeclass_instances|intros]).
  intros w. split; simpl; [done|]. by apply prefix_app_r.
Qed.
Lemma evolves_receipt a o k request : evolves journal_le (receipt a o k request).
Proof.
  unfold receipt, validate_key. repeat (apply evolves_bind; [apply _| |intros]; repeat case_match;
    eauto using evolves_query, evolves_json_loads with evolves typeclass_instances).
Qed.
Lemma evolves_save_receipt a o k request response code :
  evolves journal_le (save_receipt a o k request response code).
Proof.
  intros w. destruct (save_receipt a o k request response code w) as [r w'|e w'] eqn:E.
  - apply save_receipt_ok in E as (Hn & _ & ->). split; simpl; [|done].
    by apply insert_subseteq.
  - revert E. unfold save_receipt, now, utc_now, ensure, query, gets, execute, modify, on_db,
      mbind, M_bind, mret, M_ret, raise. simpl. by case_bool_decide; intros [= _ <-].
Qed.
Lemma evolves_transaction {A} (body : Store A) :
  evolves journal_le body → evolves journal_le (transaction body).
Proof.
  intros Hb w. specialize (Hb w). unfold transaction. by destruct (body w).
Qed.
Lemma evolves_command a o k request body :
  evolves journal_le body → evolves journal_le (command a o k request body).
Proof.
  intros Hb. apply evolves_transaction, evolves_bind; [apply _|apply evolves_receipt|].
  intros [r|]; [apply evolves_ret, _|]. apply evolves_bind; [apply _|done|].
  intros [v code]. apply evolves_save_receipt.
Qed.

(** The receipt a command filed is still there. *)
Lemma journal_receipt w w' key r :
  journal_le w w' → idempotency_receipts (w_db w) !! key = Some r →
  idempotency_receipts (w_db w') !! key = idempotency_receipts (w_db w) !! key.
Proof. intros [Hr _] Hk. rewrite Hk. by eapply lookup_weaken. Qed.
End Journal.

#[export] Hint Resolve evolves_query evolves_json_loads evolves_required_text evolves_utc_now
  evolves_now evolves_new_id evolves_expect_revision evolves_format_after evolves_audit
  evolves_receipt evolves_save_receipt evolves_transaction evolves_command
  journal_le_preorder : evolves.
#[export] Hint Extern 1 (evolves _ (execute _)) => (apply evolves_execute; intros; reflexivity) : evolves.

(** [journal] proves that a command's code only extends the journal. *)
Ltac journal := repeat first
  [ solve [eauto 3 with evolves]
  | apply evolves_command
  | apply evolves_transaction
  | apply evolves_bind; [apply _| |intros]
  | apply evolves_map_m; [apply _|intros]
  | case_match ].

#[export] Hint Resolve keeps_query keeps_json_loads keeps_required_text : keeps.
#[export] Hint Resolve atomic_bind atomic_transaction atomic_command : keeps.

(** ** The idempotency contract

    [Replayable c key] is what the control API relies on: once [c] has
    committed under [key], running it again, in any later state that still
    holds the receipt, answers the same value marked as replayed and changes
    nothing.  Commands discharge it from [Responds]: their bodies answer values
    that can be stored. *)

Class Responds (body : M world exc (json * Z)) : Prop :=
  responds : ∀ w v code w1, body w = Ok (v, code) w1 → json_ok v = true.

Class Replayable (c : M world exc command_result) (key : receipt_key) : Prop :=
  replayable : ∀ w r w1,
    c w = Ok r w1 → cr_replayed r = false →
    is_Some (idempotency_receipts (w_db w1) !! key) ∧
    ∀ w2, idempotency_receipts (w_db w2) !! key = idempotency_receipts (w_db w1) !! key →
      c w2 = Ok (CommandResult (canon (cr_value r)) (cr_status_code r) true) w2.

(** A client that repeats a command [n] times. *)
Fixpoint retry (n : nat) (c : M world exc command_result) :
    M world exc (list command_result) :=
  match n with
  | O => mret []
  | S n' => r ← c; rs ← retry n' c; mret (r :: rs)
  end.

Section Contract.
Context `{Env}.

#[export] Instance command_replayable a o k request body :
  Responds body → Replayable (command a o k request body) (a, o, k).
Proof.
  intros Hb w r w1 Hc Hr. rewrite command_ok in Hc. destruct Hc as [Hk Hc].
  destruct (idempotency_receipts (w_db w) !! (a, o, k)); [naive_solver|].
  destruct Hc as (v & code & w0 & Hbody & Hs). rewrite save_receipt_ok in Hs.
  destruct Hs as (_ & -> & ->). cbn [w_db set_receipts idempotency_receipts].
  rewrite lookup_insert_eq. split; [by eexists|]. intros w2 Hkey.
  rewrite command_ok. split; [done|]. rewrite Hkey. cbn [rc_request_hash rc_response_json].
  split; [done|]. split; [done|]. exists (canon v). split; [|done].
  apply loads_dumps_ok. by eapply Hb.
Qed.

(** Argument checks before a command do not spoil its contract. *)
Lemma replayable_checked {A} (m : Store A) (f : A → Store command_result) key :
  pure m → (∀ a, Replayable (f a) key) → Replayable (m ≫= f) key.
Proof.
  intros [[a Hm] | [e Hm]] Hf w r w1; unfold mbind, M_bind; rewrite Hm; [|done].
  setoid_rewrite Hm. apply Hf.
Qed.
Lemma pure_required_text value name maximum : pure (required_text value name maximum).
Proof. unfold required_text. eauto with pure. Qed.

Lemma responds_bind {A} (m : Store A) (f : A → Store (json * Z)) :
  (∀ w a w1, m w = Ok a w1 → Responds (f a)) → Responds (m ≫= f).
Proof.
  intros Hf w v code w1 Hb. apply bind_ok in Hb as (a & w0 & Hm & Hb).
  by eapply (Hf _ _ _ Hm).
Qed.
Lemma responds_ret v code : json_ok v = true → Responds (mret (v, code)).
Proof. intros Hv w v' code' w1 [[= <- <-] _]%ret_ok. done. Qed.
Lemma responds_raise e : Responds (raise e).
Proof. intros w v code w1 Hr. by rewrite raise_ok in Hr. Qed.

(** Retries answer what the first run did, as long as the journal is kept. *)
Lemma retry_replays c key `{!Replayable c key} w r w1 w2 n :
  c w = Ok r w1 → cr_replayed r = false → journal_le w1 w2 →
  retry n c w2 = Ok (replicate n (CommandResult (canon (cr_value r)) (cr_status_code r) true)) w2.
Proof.
  intros Hc Hr Hj. destruct (replayable w r w1 Hc Hr) as [[row Hrow] Hrep].
  specialize (Hrep w2 (journal_receipt _ _ _ _ Hj Hrow)).
  induction n as [|n IH]; [done|]. simpl.
  unfold mbind, M_bind. rewrite Hrep. by rewrite IH.
Qed.

(** A fresh command raises what its body raises, with nothing written. *)
Lemma command_raises a o k request body w e w1 :
  key_ok k = true → idempotency_receipts (w_db w) !! (a, o, k) = None →
  body w = Err e w1 →
  command a o k request body w = Err e (World (w_db w) (w_ticks w1) (w_ids w1)).
Proof.
  intros Hk Hn Hb. unfold command, transaction.
  rewrite (bind_run _ _ _ None w) by (apply receipt_ok; by rewrite Hn).
  by rewrite (bind_run_err _ _ _ _ _ Hb).
Qed.
Lemma command_refuses a o k request body w e :
  key_ok k = true → idempotency_receipts (w_db w) !! (a, o, k) = None →
  body w = Err e w → command a o k request body w = Err e w.
Proof. intros Hk Hn Hb. rewrite (command_raises _ _ _ _ _ _ _ _ Hk Hn Hb). by destruct w. Qed.
(** A revision check that fails reports the row as it is. *)
Lemma expect_revision_stale v revision expected w :
  0 <= expected → revision ≠ expected →
  expect_revision v revision expected w = Err (RevisionConflict v) w.
Proof.
  intros Hp Hne. unfold expect_revision. rewrite (bind_run _ _ _ tt w).
  - unfold ensure. by rewrite (proj2 (Z.eqb_neq _ _)).
  - apply ensure_ok. split; [by apply Z.leb_le|done].
Qed.

Lemma command_conflict a o k request body w row :
  key_ok k = true →
  idempotency_receipts (w_db w) !! (a, o, k) = Some row →
  rc_request_hash row ≠ request_hash request →
  command a o k request body w = Err IdempotencyConflict w.
Proof.
  intros Hk Hrow Hh. unfold command, transaction, receipt, validate_key.
  unfold mbind, M_bind, ensure, query, gets. rewrite Hk. simpl. rewrite Hrow.
  destruct (String.eqb_spec (rc_request_hash row) (request_hash request)); [done|].
  by destruct w.
Qed.
End Contract.
#[export] Hint Resolve pure_required_text : pure.
