(* ===== verification/CaptureKey.v ===== *)
(** * The key of a capture

    [_capture_shape] of [control/store.py]: whether a submission is a URL and
    the text under which two submissions count as the same one.  [urlsplit] is
    the standard library's, on the texts that reach it; its check of a
    bracketed host differs between Python releases and is a parameter. *)

From Stdlib Require Import Ascii.
From S2P Require Import Prelude PyText Schema.
Open Scope Z_scope.

Class UrlChecks := { bracketed_netloc_ok : string → bool }.

Section UrlSplit.
Context `{UrlChecks}.

(** What [urlsplit] finds: the scheme, the network location and the rest. *)
Record split_result := SplitResult { sp_scheme : string; sp_netloc : string }.

Definition is_alpha (c : ascii) : bool := is_az c || is_AZ c.
Definition scheme_char (c : ascii) : bool := is_alnum c || one_of "+-." c.
Definition c0_or_space (c : ascii) : bool := ord c <=? 32.
Definition unsafe_byte (c : ascii) : bool :=
  (ord c =? 9) || (ord c =? 10) || (ord c =? 13).

Fixpoint drop_while (p : ascii → bool) (s : string) : string :=
  match s with
  | String c s' => if p c then drop_while p s' else s
  | EmptyString => EmptyString
  end.
Fixpoint remove_chars (p : ascii → bool) (s : string) : string :=
  match s with
  | String c s' => if p c then remove_chars p s' else String c (remove_chars p s')
  | EmptyString => EmptyString
  end.
Fixpoint until (p : ascii → bool) (s : string) : string :=
  match s with
  | String c s' => if p c then EmptyString else String c (until p s')
  | EmptyString => EmptyString
  end.

Definition split_scheme (url : string) : string * string :=
  let '(before, found, after) := partition ":" url in
  match before with
  | String c _ =>
      if found && is_alpha c && str_all scheme_char before
      then (lower before, after) else (EmptyString, url)
  | EmptyString => (EmptyString, url)
  end.

Definition split_netloc (url : string) : string :=
  match url with
  | String "/" (String "/" rest) => until (one_of "/?#") rest
  | _ => EmptyString
  end.

(** [None] is [ValueError]. *)
Definition urlsplit (url : string) : option split_result :=
  let url := remove_chars unsafe_byte (drop_while c0_or_space url) in
  let '(scheme, rest) := split_scheme url in
  let netloc := split_netloc rest in
  if negb (Bool.eqb (str_has "[" netloc) (str_has "]" netloc)) then None
  else if str_has "[" netloc && str_has "]" netloc && negb (bracketed_netloc_ok netloc)
  then None
  else Some (SplitResult scheme netloc).

(** [SplitResult.hostname], up to case; the empty text is [None]. *)
Definition hostname (netloc : string) : string :=
  let '(_, _, hostinfo) := rpartition "@" netloc in
  let '(_, have_open_br, bracketed) := partition "[" hostinfo in
  if have_open_br then (partition "]" bracketed).1.1 else (partition ":" hostinfo).1.1.

Definition url_scheme (scheme : string) : bool :=
  String.eqb scheme "http" || String.eqb scheme "https".

(** [_capture_shape]. *)
Definition capture_shape (payload : string) : capture_kind * string :=
  if negb (str_all (λ c, 32 <=? ord c) payload) then (kind_text, payload)
  else match urlsplit payload with
  | None => (kind_text, payload)
  | Some parts =>
      if negb (url_scheme (sp_scheme parts))
         || String.eqb (hostname (sp_netloc parts)) "" then (kind_text, payload)
      else
        let scheme_len := String.length (sp_scheme parts) in
        let netloc_start := (scheme_len + 3)%nat in
        let netloc_end := (netloc_start + String.length (sp_netloc parts))%nat in
        let '(userinfo, separator, hostinfo) := rpartition "@" (sp_netloc parts) in
        let at_sign := if separator then "@" else "" in
        let lowered :=
          match read_char "[" hostinfo with
          | Some inner =>
              let '(host, bracket, after) := partition "]" inner in
              "[" +:+ lower host +:+ (if bracket then "]" else "") +:+ after
          | None =>
              let '(host, colon, port) := partition ":" hostinfo in
              lower host +:+ (if colon then ":" else "") +:+ port
          end in
        (kind_url,
         lower (str_take scheme_len payload)
         +:+ str_take (netloc_start - scheme_len) (str_drop scheme_len payload)
         +:+ userinfo +:+ at_sign +:+ lowered +:+ str_drop netloc_end payload)
  end.
End UrlSplit.

(** ** The key folds case in place *)

Section CaptureKeyFacts.
Context `{UrlChecks}.

Lemma drop_while_none p s :
  match s with String c _ => p c = false | EmptyString => True end → drop_while p s = s.
Proof. destruct s as [|c s]; simpl; [done|]. by intros ->. Qed.

Lemma remove_chars_none p q s :
  (∀ c, q c = true → p c = false) → str_all q s = true → remove_chars p s = s.
Proof.
  intros Hpq. induction s as [|c s IH]; simpl; [done|].
  rewrite andb_true_iff. intros [Hc Hs]. by rewrite (Hpq c Hc), IH.
Qed.

Lemma until_prefix p s : ∃ rest, s = until p s +:+ rest.
Proof.
  induction s as [|c s [rest IH]]; simpl; [by exists ""|].
  destruct (p c); [by exists (String c s)|]. exists rest. simpl. congruence.
Qed.

(** A stripped text without C0 controls reaches the splitter unchanged. *)
Lemma lstrip_head s :
  match lstrip s with String c _ => is_space c = false | EmptyString => True end.
Proof.
  induction s as [|c s IH]; simpl; [done|]. destruct (is_space c) eqn:E; [done|].
  by simpl.
Qed.
Lemma rstrip_head s c s' : rstrip s = String c s' → ∃ s'', s = String c s''.
Proof.
  destruct s as [|d s]; simpl; [done|].
  destruct (rstrip s); [destruct (is_space d); [done|]|]; naive_solver.
Qed.
Lemma strip_head s c s' : strip s = String c s' → is_space c = false.
Proof.
  unfold strip. intros Hs. destruct (rstrip_head _ _ _ Hs) as [s'' E].
  pose proof (lstrip_head s) as Hh. by rewrite E in Hh.
Qed.

Lemma urlsplit_input p :
  strip p = p → str_all (λ c, 32 <=? ord c) p = true →
  remove_chars unsafe_byte (drop_while c0_or_space p) = p.
Proof.
  intros Hs Hc. rewrite drop_while_none.
  - apply (remove_chars_none _ (λ c, 32 <=? ord c)); [|done].
    intros c Hle. unfold unsafe_byte. lia.
  - destruct p as [|c p]; [done|]. apply strip_head in Hs.
    simpl in Hc. apply andb_true_iff in Hc as [Hc _].
    unfold is_space in Hs. unfold c0_or_space. lia.
Qed.

Lemma split_scheme_spec p scheme rest :
  split_scheme p = (scheme, rest) → scheme ≠ "" →
  ∃ raw, p = raw +:+ String ":" rest ∧ scheme = lower raw.
Proof.
  unfold split_scheme. destruct (partition ":" p) as [[before found] after] eqn:E.
  apply partition_spec in E as [-> Hf].
  destruct before as [|c before]; [naive_solver|].
  destruct found; simpl; [|naive_solver].
  destruct (is_alpha c && _); intros; simplify_eq. by exists (String c before).
Qed.

Lemma split_netloc_spec rest :
  split_netloc rest ≠ "" → ∃ tail, rest = "//" +:+ split_netloc rest +:+ tail.
Proof.
  unfold split_netloc. intros Hne. repeat case_match; simplify_eq; try done.
  match goal with |- context [until ?p ?s] => destruct (until_prefix p s) as [tail E] end.
  exists tail. simpl. congruence.
Qed.

Lemma hostname_empty : hostname "" = "".
Proof. reflexivity. Qed.

Lemma str_take_app_plus a b n : str_take (String.length a + n) (a +:+ b) = a +:+ str_take n b.
Proof. induction a; simpl; congruence. Qed.
Lemma str_drop_app_plus a b n : str_drop (String.length a + n) (a +:+ b) = str_drop n b.
Proof. induction a; simpl; [done|congruence]. Qed.

(** Lowering the host inside a network location. *)
Definition fold_netloc (netloc : string) : string :=
  let '(userinfo, separator, hostinfo) := rpartition "@" netloc in
  userinfo +:+ (if separator then "@" else "") +:+
  match read_char "[" hostinfo with
  | Some inner =>
      let '(host, bracket, after) := partition "]" inner in
      "[" +:+ lower host +:+ (if bracket then "]" else "") +:+ after
  | None =>
      let '(host, colon, port) := partition ":" hostinfo in
      lower host +:+ (if colon then ":" else "") +:+ port
  end.

Lemma partition_glue c s b f a :
  partition c s = (b, f, a) → s = b +:+ (if f then String c "" else "") +:+ a.
Proof. intros E. apply partition_spec in E as [-> _]. by destruct f. Qed.
Lemma rpartition_glue c s b f a :
  rpartition c s = (b, f, a) → s = b +:+ (if f then String c "" else "") +:+ a.
Proof. intros E. apply rpartition_spec in E as [-> _]. by destruct f. Qed.

Lemma str_has_false c s : str_has c s = false ↔ str_all (λ d, negb (Ascii.eqb c d)) s = true.
Proof. unfold str_has. by rewrite negb_false_iff. Qed.
Lemma partition_free c s b f a : partition c s = (b, f, a) → str_has c b = false.
Proof.
  rewrite str_has_false. revert b f a. induction s as [|d s IH]; simpl; intros b f a Hp; [naive_solver|].
  destruct (Ascii.eqb_spec d c) as [->|Hne]; [naive_solver|].
  destruct (partition c s) as [[b' f'] a'] eqn:E. simplify_eq/=.
  destruct (Ascii.eqb_spec c d); [done|]. by eapply IH.
Qed.
Lemma rpartition_free c s b f a : rpartition c s = (b, f, a) → str_has c a = false.
Proof.
  rewrite str_has_false. revert b f a. induction s as [|d s IH]; simpl; intros b f a Hp; [naive_solver|].
  destruct (rpartition c s) as [[b' f'] a'] eqn:E. specialize (IH _ _ _ eq_refl).
  destruct f'; simplify_eq; [done|].
  destruct (Ascii.eqb_spec d c); simplify_eq/=; [done|].
  destruct (Ascii.eqb_spec c d); [done|]. done.
Qed.
Lemma until_free p s : str_all (λ c, negb (p c)) (until p s) = true.
Proof. induction s as [|c s IH]; simpl; [done|]. destruct (p c) eqn:E; [done|]. simpl. by rewrite E. Qed.

Lemma split_netloc_free rest : str_all (λ c, negb (one_of "/?#" c)) (split_netloc rest) = true.
Proof.
  unfold split_netloc. repeat (case_match; try done). exact (until_free (one_of "/?#") _).
Qed.

(** The host of a network location: behind the last [@], up to the port, or
    between brackets. *)
Definition is_host (front host : string) : Prop :=
  str_has "@" host = false ∧
  ((front = "" ∨ ∃ u, front = u +:+ "@") ∧ str_has ":" host = false ∨
   (∃ u, front = u +:+ "[") ∧ str_has "]" host = false).

Lemma fold_netloc_spec netloc :
  ∃ front host back, netloc = front +:+ host +:+ back ∧
    fold_netloc netloc = front +:+ lower host +:+ back ∧ is_host front host.
Proof.
  unfold fold_netloc. destruct (rpartition "@" netloc) as [[u sep] hi] eqn:Eu.
  pose proof (rpartition_free _ _ _ _ _ Eu) as Hat. pose proof (rpartition_spec _ _ _ _ _ Eu) as [_ Hu].
  apply rpartition_glue in Eu as ->. rewrite str_has_false in Hat.
  destruct (read_char "[" hi) as [inner|] eqn:Eb.
  - assert (hi = "[" +:+ inner) as ->.
    { destruct hi as [|c hi]; [done|]. simpl in Eb.
      destruct (Ascii.eqb_spec c "["); naive_solver. }
    destruct (partition "]" inner) as [[h br] a] eqn:Ep. pose proof (partition_free _ _ _ _ _ Ep).
    apply partition_glue in Ep as ->.
    exists (u +:+ (if sep then "@" else "") +:+ "["), h, ((if br then "]" else "") +:+ a).
    rewrite !str_all_app, !andb_true_iff in Hat.
    rewrite !str_app_assoc. split; [by destruct sep|]. split; [by destruct sep|].
    split; [rewrite str_has_false; tauto|]. right. split; [|done].
    exists (u +:+ (if sep then "@" else "")). by rewrite <- str_app_assoc.
  - destruct (partition ":" hi) as [[h br] a] eqn:Ep. pose proof (partition_free _ _ _ _ _ Ep).
    apply partition_glue in Ep as ->.
    exists (u +:+ (if sep then "@" else "")), h, ((if br then ":" else "") +:+ a).
    rewrite !str_all_app, !andb_true_iff in Hat.
    rewrite !str_app_assoc. split; [by destruct sep|]. split; [by destruct sep|].
    split; [rewrite str_has_false; tauto|]. left. split; [|done].
    destruct sep; [by right; exists u|left]. by rewrite (Hu eq_refl).
Qed.

Lemma capture_shape_url p key :
  strip p = p → capture_shape p = (kind_url, key) →
  ∃ raw netloc rest, p = raw +:+ "://" +:+ netloc +:+ rest
    ∧ url_scheme (lower raw) = true
    ∧ str_all (λ c, negb (one_of "/?#" c)) netloc = true
    ∧ key = lower raw +:+ "://" +:+ fold_netloc netloc +:+ rest.
Proof.
  intros Hs. unfold capture_shape, urlsplit.
  destruct (str_all (λ c, 32 <=? ord c) p) eqn:Hc; simpl; [|done].
  rewrite urlsplit_input by done.
  destruct (split_scheme p) as [scheme rest] eqn:Esc.
  repeat (destruct (negb _ && _) || destruct (negb (Bool.eqb _ _))); try done.
  destruct (str_has "[" _ && _ && _); [done|]. simpl.
  destruct (url_scheme scheme) eqn:Hurl; simpl; [|done].
  destruct (String.eqb_spec (hostname (split_netloc rest)) ""); [done|].
  assert (split_netloc rest ≠ "") as Hnl by (intros E; by rewrite E in n).
  assert (scheme ≠ "") as Hsc by (by intros ->).
  destruct (split_scheme_spec _ _ _ Esc Hsc) as (raw & -> & ->).
  destruct (split_netloc_spec _ Hnl) as (tail & Erest).
  set (netloc := split_netloc rest) in *.
  assert (String.length (lower raw) = String.length raw) as -> by apply str_map_length.
  intros Heq. exists raw, netloc, tail.
  assert (raw +:+ String ":" rest = raw +:+ "://" +:+ netloc +:+ tail) as Ep
    by (by rewrite Erest).
  split; [done|]. split; [done|]. split.
  { apply split_netloc_free. }
  rewrite Ep in Heq. rewrite !str_take_app, !str_drop_app in Heq.
  replace (String.length raw + 3 - String.length raw)%nat with 3%nat in Heq by lia.
  rewrite <- Nat.add_assoc, str_drop_app_plus in Heq.
  change (3 + String.length netloc)%nat
    with (String.length "://" + String.length netloc)%nat in Heq.
  rewrite (str_drop_app_plus "://" (netloc +:+ tail) (String.length netloc)) in Heq.
  rewrite str_drop_app in Heq.
  unfold fold_netloc. destruct (rpartition "@" netloc) as [[u sep] hi].
  injection Heq as <-. by rewrite !str_app_assoc.
Qed.
End CaptureKeyFacts.

(** Two letters that differ only in case, and only in the host. *)
Example capture_shape_example :
  @capture_shape {| bracketed_netloc_ok := λ _, true |} "HTTPS://User@ArXiv.org:80/Abs?"
  = (kind_url, "https://User@arxiv.org:80/Abs?").
Proof. vm_compute. reflexivity. Qed.
Example capture_shape_text :
  @capture_shape {| bracketed_netloc_ok := λ _, true |} "ftp://X/" = (kind_text, "ftp://X/").
Proof. vm_compute. reflexivity. Qed.
