(* ===== verification/Demo.v ===== *)
(** * A concrete environment

    A clock, an identifier factory, a digest and a URL check to evaluate the
    model with. *)

From S2P Require Import Prelude PyText Clock Json Schema Store CaptureKey.
Open Scope Z_scope.

(** A clock that moves on by a second and a half, for a fortnight. *)
Definition demo_clock (n : nat) : Z := 63902908800000000 + Z.of_nat n mod 1000000 * 1500000.

Lemma demo_clock_valid n : dt_valid (demo_clock n) = true.
Proof.
  unfold demo_clock, dt_valid, max_ordinal, us_per_day, us_per_second.
  pose proof (Z.mod_pos_bound (Z.of_nat n) 1000000). lia.
Qed.

Lemma demo_id_named (kind s : string) : kind +:+ "-" +:+ s ≠ "".
Proof. by destruct kind. Qed.

#[export] Instance demo_env : Env := {|
  clock := demo_clock;
  id_factory := λ kind n, kind +:+ "-" +:+ dec (Z.of_nat n);
  sha256 := λ s, s;
  clock_valid := demo_clock_valid;
  id_named := λ kind n, demo_id_named kind (dec (Z.of_nat n)) |}.

#[export] Instance demo_url : UrlChecks := {| bracketed_netloc_ok := λ _, true |}.

Definition demo_world : world := World empty_db 0 0.

(** The answer of a run that is known to answer. *)
Definition answer {A} (d : A) (o : outcome world exc A) : A :=
  match o with Ok a _ => a | Err _ _ => d end.
Definition is_ok {A} (o : outcome world exc A) : bool :=
  match o with Ok _ _ => true | Err _ _ => false end.
Definition no_result : command_result := CommandResult JNull 0 true.

Lemma answered {A} (d : A) o : is_ok o = true → o = Ok (answer d o) (end_world o).
Proof. by destruct o. Qed.
