(* ===== verification/Captures.v ===== *)
(** * The capture inbox

    The commands of [control/store.py] over the [captures] table: staging a
    submission, the operator's decisions on it (approve, dismiss, reopen), the
    consumer's claim under a lease and its completion, the sweep of expired
    leases, and the inbox reads. *)

From S2P Require Import Prelude PyText Clock Json Schema Store CaptureKey.
Open Scope Z_scope.

(** ** Constants *)

Definition CAPTURE_FAILURES : list string :=
  ["adapter_unavailable"; "capability_unavailable"; "invalid_source";
   "materialization_failed"; "outcome_unknown"].
Definition CAPTURE_UNCERTAIN_CATEGORIES : list string :=
  ["outcome_unknown"; "carrier_thread_busy"; "carrier_thread_foreign"].
Definition capture_open (s : capture_state) : bool :=
  match s with pending | approved | claimed | uncertain => true | _ => false end.
Definition capture_terminal (s : capture_state) : bool :=
  match s with consumed | dismissed | failed => true | _ => false end.
Definition capture_dismissable (s : capture_state) : bool :=
  match s with pending | approved | uncertain => true | _ => false end.
Definition member (x : string) (l : list string) : bool := existsb (String.eqb x) l.

(** [UPDATE captures SET ... WHERE id = ? AND ...]: the changed columns. *)
Definition set_state s (c : capture_row) := CaptureRow (c_key c) (c_payload c) (c_kind c)
  (c_note c) s (c_claim_owner c) (c_claim_epoch c) (c_claim_expires_at c)
  (c_known_source_id c) (c_consumed_source_ids c) (c_failure_category c)
  (c_revision c) (c_created_at c) (c_updated_at c).
Definition set_claim owner epoch expires (c : capture_row) := CaptureRow (c_key c)
  (c_payload c) (c_kind c) (c_note c) (c_state c) owner epoch expires
  (c_known_source_id c) (c_consumed_source_ids c) (c_failure_category c)
  (c_revision c) (c_created_at c) (c_updated_at c).
Definition set_outcome ids failure (c : capture_row) := CaptureRow (c_key c)
  (c_payload c) (c_kind c) (c_note c) (c_state c) (c_claim_owner c) (c_claim_epoch c)
  (c_claim_expires_at c) (c_known_source_id c) ids failure
  (c_revision c) (c_created_at c) (c_updated_at c).
Definition bump (t : string) (c : capture_row) := CaptureRow (c_key c) (c_payload c)
  (c_kind c) (c_note c) (c_state c) (c_claim_owner c) (c_claim_epoch c)
  (c_claim_expires_at c) (c_known_source_id c) (c_consumed_source_ids c)
  (c_failure_category c) (c_revision c + 1) (c_created_at c) t.

Definition opt_int (o : option Z) : json := match o with Some n => JInt n | None => JNull end.

(** The dictionary of a row, [consumed_source_ids] parsed. *)
Definition capture_json (id : string) (c : capture_row) (ids : json) : json := JObj
  [("id", JStr id); ("capture_key", JStr (c_key c)); ("payload", JStr (c_payload c));
   ("kind", JStr (kind_name (c_kind c))); ("note", JStr (c_note c));
   ("state", JStr (state_text (c_state c))); ("claim_owner", opt_json (c_claim_owner c));
   ("claim_epoch", JInt (c_claim_epoch c));
   ("claim_expires_at", opt_json (c_claim_expires_at c));
   ("known_source_id", opt_json (c_known_source_id c)); ("consumed_source_ids", ids);
   ("failure_category", opt_json (c_failure_category c));
   ("revision", JInt (c_revision c)); ("created_at", JStr (c_created_at c));
   ("updated_at", JStr (c_updated_at c))].

(** [ORDER BY created_at, id]. *)
Definition capture_le (a b : string * capture_row) : bool :=
  pair_le (c_created_at a.2, a.1) (c_created_at b.2, b.1).
Definition captures_where (p : capture_row → bool) (d : db) : list (string * capture_row) :=
  isort capture_le (List.filter (λ x, p x.2) (map_to_list (captures d))).

Section Captures.
Context `{Env} `{UrlChecks}.

(** [_capture]: the row and its dictionary. *)
Definition capture (id : string) : Store (capture_row * json) :=
  row ← query (λ d, captures d !! id);
  c ← from_option row (NotFound "capture" id);
  ids ← match c_consumed_source_ids c with
        | Some s => if String.eqb s "" then mret JNull else json_loads s
        | None => mret JNull
        end;
  mret (c, capture_json id c ids).

Definition get_capture (id : string) : Store json := '(_, v) ← capture id; mret v.

(** An UPDATE of one row; the result is [cursor.rowcount]. *)
Definition update_capture (id : string) (where_ : capture_row → bool)
    (f : capture_row → capture_row) : Store Z :=
  row ← query (λ d, captures d !! id);
  match row with
  | Some c =>
      if where_ c then
        ensure (capture_check (f c)) IntegrityError;;
        execute (set_captures (<[id := f c]>));;
        mret 1
      else mret 0
  | None => mret 0
  end.

(** [_capture_note]. *)
Definition capture_note (value : string) : Store string :=
  ensure (slen value <=? 2000) (ValueError "note is invalid");; mret value.

(** [_open_capture]. *)
Definition open_capture (capture_key : string) : Store (option json) :=
  rows ← query (captures_where (λ c, String.eqb (c_key c) capture_key && capture_open (c_state c)));
  match rows with
  | [] => mret None
  | (id, _) :: _ => '(_, v) ← capture id; mret (Some v)
  end.

(** [ORDER BY id] on aliases, [ORDER BY updated_at DESC, id DESC] on captures. *)
Definition alias_le (a b : string * alias_row) : bool := str_le a.1 b.1.
Definition newest_le (a b : string * capture_row) : bool :=
  pair_le (c_updated_at b.2, b.1) (c_updated_at a.2, a.1).

(** [_known_capture_source]. *)
Definition known_capture_source (capture_key : string) : Store (option string) :=
  aliases ← query (λ d, isort alias_le (List.filter
    (λ x, String.eqb (al_normalized_value x.2) capture_key) (map_to_list (source_aliases d))));
  match aliases with
  | (_, a) :: _ => mret (Some (al_source_id a))
  | [] =>
      rows ← query (λ d, isort newest_le (List.filter
        (λ x, String.eqb (c_key x.2) capture_key && bool_decide (c_state x.2 = consumed)
              && bool_decide (is_Some (c_consumed_source_ids x.2)))
        (map_to_list (captures d))));
      match rows with
      | (_, c) :: _ =>
          ids ← json_loads (default "" (c_consumed_source_ids c));
          match ids with
          | JArr (JStr s :: _) => mret (Some s)
          | JArr [] => mret None
          | _ => raise (RuntimeError "consumed_source_ids is not a list of text")
          end
      | [] => mret None
      end
  end.

(** [_insert_capture]. *)
Definition insert_capture (payload note : string) (kind : capture_kind)
    (capture_key : string) : Store json :=
  t ← now; id ← new_id "capture";
  known ← known_capture_source capture_key;
  let row := CaptureRow capture_key payload kind note pending None 0 None known None
    None 0 t t in
  taken ← query (λ d, captures d !! id);
  ensure (bool_decide (taken = None) && capture_check row) IntegrityError;;
  execute (set_captures (<[id := row]>));;
  audit "capture" id "capture.created" (JObj [("kind", JStr (kind_name kind))]);;
  '(_, v) ← capture id; mret v.

(** [create_capture]. *)
Definition create_capture (payload note actor_id key : string) : Store command_result :=
  required_text payload "payload" 16384;;
  note ← capture_note note;
  let '(kind, capture_key) := capture_shape (strip payload) in
  command actor_id "POST:/api/v1/captures" key
    (JObj [("payload", JStr payload); ("note", JStr note)]) (
    opened ← open_capture capture_key;
    match opened with
    | Some current => raise (CaptureConflict current)
    | None => v ← insert_capture payload note kind capture_key; mret (v, 201)
    end).

(** [_stage_capture]: the open capture of the key, or a new pending one. *)
Definition stage_capture (payload note : string) : Store (json * bool) :=
  required_text payload "payload" 16384;;
  note ← capture_note note;
  let '(kind, capture_key) := capture_shape (strip payload) in
  opened ← open_capture capture_key;
  match opened with
  | Some current => mret (current, true)
  | None => v ← insert_capture payload note kind capture_key; mret (v, false)
  end.

(** The tail of the operator's three decisions: one guarded UPDATE, the audit
    row and the fresh dictionary. *)
Definition decide_capture (id event : string) (where_ : capture_row → bool)
    (f : string → capture_row → capture_row) : Store (json * Z) :=
  t ← now;
  n ← update_capture id where_ (f t);
  (if n =? 1 then mret tt
   else '(_, current) ← capture id; raise (RevisionConflict current));;
  audit "capture" id event (JObj []);;
  '(_, v) ← capture id; mret (v, 200).

Definition revision_request (expected_revision : Z) : json :=
  JObj [("expected_revision", JInt expected_revision)].
Definition capture_path (id action : string) : string :=
  "POST:/api/v1/captures/" +:+ id +:+ "/" +:+ action.

(** [approve_capture]. *)
Definition approve_capture (id : string) (expected_revision : Z) (actor_id key : string) :
    Store command_result :=
  command actor_id (capture_path id "approve") key (revision_request expected_revision) (
    '(c, v) ← capture id;
    expect_revision v (c_revision c) expected_revision;;
    ensure (bool_decide (c_state c = pending))
      (InvalidTransition (state_text (c_state c)) "approved");;
    decide_capture id "capture.approved"
      (λ r, (c_revision r =? expected_revision) && bool_decide (c_state r = pending))
      (λ t r, bump t (set_state approved r))).

(** [dismiss_capture]. *)
Definition dismiss_capture (id : string) (expected_revision : Z) (actor_id key : string) :
    Store command_result :=
  command actor_id (capture_path id "dismiss") key (revision_request expected_revision) (
    '(c, v) ← capture id;
    expect_revision v (c_revision c) expected_revision;;
    ensure (capture_dismissable (c_state c))
      (InvalidTransition (state_text (c_state c)) "dismissed");;
    decide_capture id "capture.dismissed"
      (λ r, (c_revision r =? expected_revision) && capture_dismissable (c_state r))
      (λ t r, bump t (set_state dismissed r))).

(** [reopen_capture]; the epoch is retained. *)
Definition reopen_capture (id : string) (expected_revision : Z) (acknowledged : bool)
    (actor_id key : string) : Store command_result :=
  ensure acknowledged (ValueError "acknowledged must be true");;
  command actor_id (capture_path id "reopen") key
    (JObj [("expected_revision", JInt expected_revision); ("acknowledged", JBool true)]) (
    '(c, v) ← capture id;
    expect_revision v (c_revision c) expected_revision;;
    ensure (bool_decide (c_state c = uncertain))
      (InvalidTransition (state_text (c_state c)) "approved");;
    decide_capture id "capture.reopened"
      (λ r, (c_revision r =? expected_revision) && bool_decide (c_state r = uncertain))
      (λ t r, bump t (set_outcome (c_consumed_source_ids r) None
               (set_claim None (c_claim_epoch r) None (set_state approved r))))).

(** [_sweep_expired_captures]. *)
Definition lease_expired (t : string) (c : capture_row) : bool :=
  bool_decide (c_state c = claimed)
  && match c_claim_expires_at c with Some e => str_le e t | None => false end.
Definition sweep_row (t : string) (c : capture_row) : capture_row :=
  if lease_expired t c
  then bump t (set_outcome (c_consumed_source_ids c) (Some "outcome_unknown")
         (set_claim None (c_claim_epoch c) None (set_state uncertain c)))
  else c.
Definition sweep_expired_captures : Store unit :=
  t ← now;
  expired ← query (λ d, List.filter (λ x, lease_expired t x.2) (map_to_list (captures d)));
  match expired with
  | [] => mret tt
  | _ =>
      execute (set_captures (fmap (sweep_row t)));;
      map_m (λ x : string * capture_row,
        audit "capture" x.1 "capture.lease_expired"
          (JObj [("failure_category", JStr "outcome_unknown")])) expired;;
      mret tt
  end.

Definition limit_ok (limit : Z) : bool := (1 <=? limit) && (limit <=? 1000).
Definition limit_error : exc := ValueError "limit must be between 1 and 1000".

Definition capture_dicts (rows : list (string * capture_row)) : Store (list json) :=
  map_m (λ x : string * capture_row, get_capture x.1) rows.

(** [list_pending_captures]. *)
Definition list_pending_captures (limit : Z) : Store (list json) :=
  ensure (limit_ok limit) limit_error;;
  transaction (
    sweep_expired_captures;;
    rows ← query (captures_where (λ c, bool_decide (c_state c = approved)));
    capture_dicts (take (Z.to_nat limit) rows)).

(** [claim_capture]. *)
Definition internal_path (id action : string) : string :=
  "POST:/internal/v1/captures/" +:+ id +:+ "/" +:+ action.
Definition claim_capture (id worker_id : string) (lease_seconds : Z)
    (actor_id key : string) : Store command_result :=
  worker ← required_text worker_id "worker_id" 200;
  ensure ((1 <=? lease_seconds) && (lease_seconds <=? 3600))
    (ValueError "lease_seconds must be between 1 and 3600");;
  let request := JObj [("worker_id", JStr worker); ("lease_seconds", JInt lease_seconds)] in
  let operation := internal_path id "claim" in
  transaction (
    replay ← receipt actor_id operation key request;
    match replay with
    | Some r =>
        '(current, _) ← capture id;
        ensure (bool_decide (c_state current = claimed)
                && bool_decide (c_claim_owner current = Some worker)
                && match jget "claim_epoch" (cr_value r) with
                   | Some (JInt n) => n =? c_claim_epoch current
                   | _ => false
                   end)
          (InvalidTransition "stale_claim_receipt" "claimed");;
        mret r
    | None =>
        sweep_expired_captures;;
        '(c, _) ← capture id;
        ensure (bool_decide (c_state c = approved))
          (InvalidTransition (state_text (c_state c)) "claimed");;
        t ← utc_now;
        expires ← format_after t lease_seconds;
        n ← update_capture id (λ r, bool_decide (c_state r = approved))
          (λ r, bump (format_time t) (set_claim (Some worker) (c_claim_epoch r + 1)
                  (Some expires) (set_state claimed r)));
        ensure (n =? 1) (InvalidTransition "claim_conflict" "claimed");;
        audit "capture" id "capture.claimed" (JObj []);;
        '(_, v) ← capture id;
        save_receipt actor_id operation key request v 200
    end).

(** [_capture_source_ids]; [None] is a value that is not a list of texts. *)
Definition capture_source_ids (value : option (list string)) : Store (list string) :=
  items ← from_option value (ValueError "consumed_source_ids is invalid");
  source_ids ← map_m (λ item, required_text item "consumed_source_id" 200) items;
  ensure ((1 <=? Z.of_nat (length source_ids)) && (Z.of_nat (length source_ids) <=? 100))
    (ValueError "consumed_source_ids must name 1 to 100 sources");;
  ensure (bool_decide (NoDup source_ids)) (ValueError "consumed_source_ids must be unique");;
  mret source_ids.

Definition member_opt (o : option string) (l : list string) : bool :=
  match o with Some x => member x l | None => false end.

(** [_capture_outcome]: the sources and the failure category to store. *)
Definition capture_outcome (outcome : string) (consumed : option (list string))
    (failure_category : option string) : Store (option (list string) * option string) :=
  if String.eqb outcome "consumed" then
    ensure (bool_decide (failure_category = None))
      (ValueError "a consumed capture has no failure category");;
    ids ← capture_source_ids consumed;
    mret (Some ids, None)
  else
    ensure (match consumed with Some (_ :: _) => false | _ => true end)
      (ValueError "only a consumed capture names sources");;
    if String.eqb outcome "failed" then
      ensure (member_opt failure_category CAPTURE_FAILURES)
        (ValueError "capture failure category is invalid");;
      mret (None, failure_category)
    else if String.eqb outcome "uncertain" then
      match failure_category with
      | None => mret (None, Some "outcome_unknown")
      | Some _ =>
          ensure (member_opt failure_category CAPTURE_UNCERTAIN_CATEGORIES)
            (ValueError "capture failure category is invalid");;
          mret (None, failure_category)
      end
    else raise (ValueError "capture outcome is invalid").

(** The state an accepted outcome names. *)
Definition outcome_state (outcome : string) : capture_state :=
  if String.eqb outcome "consumed" then consumed
  else if String.eqb outcome "failed" then failed else uncertain.

(** [_validate_capture_sources]. *)
Definition validate_capture_sources (source_ids : list string) : Store unit :=
  known ← query (λ d, forallb (λ s, bool_decide (is_Some (sources d !! s))) source_ids);
  ensure known (ValueError "consumed_source_ids names an unknown source").

Definition strings_json (l : list string) : json := JArr (map JStr l).
Definition opt_strings (o : option (list string)) : json :=
  match o with Some l => strings_json l | None => JNull end.
Definition detail_item (kv : string * string) : Store (string * json) :=
  k ← required_text kv.1 "detail key" 100;
  v ← required_text kv.2 "detail value" 200;
  mret (k, JStr v).

Definition complete_request (owner : string) (epoch : Z) (outcome : string)
    (ids : option (list string)) (category : option string)
    (detail : list (string * json)) : json :=
  JObj ([("claim_owner", JStr owner); ("claim_epoch", JInt epoch);
         ("outcome", JStr outcome); ("consumed_source_ids", opt_strings ids);
         ("failure_category", opt_json category)]
        ++ match detail with [] => [] | _ => [("detail", JObj detail)] end).

(** The claimed row this owner and epoch hold. *)
Definition claim_fence (owner : string) (epoch : Z) (r : capture_row) : bool :=
  bool_decide (c_state r = claimed) && bool_decide (c_claim_owner r = Some owner)
  && (c_claim_epoch r =? epoch).

(** The stored form of the sources: an absent or empty list is NULL. *)
Definition stored_ids (ids : option (list string)) : option string :=
  match ids with Some ((_ :: _) as l) => Some (json_text (strings_json l)) | _ => None end.
Definition check_named (ids : option (list string)) : Store unit :=
  match ids with Some ((_ :: _) as l) => validate_capture_sources l | _ => mret tt end.

(** [complete_capture]. *)
Definition complete_body (id owner : string) (epoch : Z) (outcome : string)
    (ids : option (list string)) (category : option string)
    (detail : list (string * json)) : Store (json * Z) :=
  capture id;;
  check_named ids;;
  t ← now;
  n ← update_capture id (claim_fence owner epoch)
    (λ r, bump t (set_outcome (stored_ids ids) category
           (set_claim None (c_claim_epoch r) None (set_state (outcome_state outcome) r))));
  ensure (n =? 1) (InvalidTransition "claim_fence_mismatch" outcome);;
  audit "capture" id ("capture." +:+ outcome)
    (JObj (dict_of (("failure_category", opt_json category) :: detail)));;
  '(_, v) ← capture id; mret (v, 200).
Definition complete_capture (id claim_owner : string) (claim_epoch : Z)
    (outcome : string) (named : option (list string))
    (failure_category : option string) (detail : list (string * string))
    (actor_id key : string) : Store command_result :=
  owner ← required_text claim_owner "claim_owner" 200;
  ensure (1 <=? claim_epoch) (ValueError "claim_epoch must be a positive integer");;
  '(ids, category) ← capture_outcome outcome named failure_category;
  items ← map_m detail_item detail;
  let detail := dict_of items in
  command actor_id (internal_path id "complete") key
    (complete_request owner claim_epoch outcome ids category detail)
    (complete_body id owner claim_epoch outcome ids category detail).

(** [capture_blocked_by]: the rows are read oldest first, the newest wins. *)
Definition blocked_step (acc : gmap string string) (r : audit_row) :
    Store (gmap string string) :=
  v ← json_loads (au_payload_json r);
  match v with
  | JObj _ =>
      match jget "blocked_by" v with
      | Some (JStr b) =>
          if String.eqb b "" then mret (delete (au_aggregate_id r) acc)
          else mret (<[au_aggregate_id r := b]> acc)
      | _ => mret (delete (au_aggregate_id r) acc)
      end
  | _ => raise (RuntimeError "audit payload is not an object")
  end.
Fixpoint fold_blocked (acc : gmap string string) (rows : list audit_row) :
    Store (gmap string string) :=
  match rows with
  | [] => mret acc
  | r :: rows' => acc' ← blocked_step acc r; fold_blocked acc' rows'
  end.
Definition uncertain_row (ids : list string) (r : audit_row) : bool :=
  String.eqb (au_aggregate_type r) "capture" && member (au_aggregate_id r) ids
  && String.eqb (au_type r) "capture.uncertain".
Definition capture_blocked_by (ids : list string) : Store (gmap string string) :=
  match ids with
  | [] => mret ∅
  | _ =>
      rows ← query (λ d, List.filter (uncertain_row ids) (control_audit d));
      fold_blocked ∅ rows
  end.

(** [list_captures]: one row past the page decides whether there is more. *)
Definition after_cursor (cursor : option (string * string)) (x : string * capture_row) : bool :=
  match cursor with
  | None => true
  | Some (created, id) => negb (pair_le (c_created_at x.2, x.1) (created, id))
  end.
Definition page_rows (state : option capture_state) (cursor : option (string * string))
    (d : db) : list (string * capture_row) :=
  List.filter (after_cursor cursor) (captures_where (λ c,
    match state with None => true | Some s => bool_decide (c_state c = s) end) d).
Definition list_captures (state : option capture_state) (limit : Z)
    (cursor : option string) : Store (list json * option string) :=
  ensure (limit_ok limit) limit_error;;
  position ← (match cursor with
    | None => mret None
    | Some id =>
        row ← query (λ d, captures d !! id);
        c ← from_option row (ValueError "cursor is invalid");
        mret (Some (c_created_at c, id))
    end);
  rows ← query (λ d, take (Z.to_nat (limit + 1)) (page_rows state position d));
  let has_more := limit <? Z.of_nat (length rows) in
  let page := take (Z.to_nat limit) rows in
  items ← capture_dicts page;
  mret (items, if has_more then fst <$> last page else None).
End Captures.
