(* ===== verification/CaptureFacts.v ===== *)
(** * What the capture inbox guarantees

    The abstract state machine of one capture ([row_move]) and of the inbox
    ([inbox_step]), the proof that every command refines it, and what follows
    for every sequence of commands. *)

From S2P Require Import Prelude PyText Clock Json Schema Store CaptureKey Captures.
Open Scope Z_scope.

(** ** The abstract inbox *)

(** One committed change of a capture.  [row_move c c'] is all a command may
    do to a row: its submission never changes, its revision goes up by one and
    its epoch counts the claims. *)
Definition same_submission (c c' : capture_row) : Prop :=
  c_key c' = c_key c ∧ c_payload c' = c_payload c ∧ c_kind c' = c_kind c ∧
  c_note c' = c_note c ∧ c_known_source_id c' = c_known_source_id c ∧
  c_created_at c' = c_created_at c.

Inductive row_move (c c' : capture_row) : Prop :=
| move_decide :
    c_state c = pending ∧ c_state c' = approved ∨
      capture_dismissable (c_state c) = true ∧ c_state c' = dismissed →
    c_claim_owner c' = c_claim_owner c → c_claim_expires_at c' = c_claim_expires_at c →
    c_claim_epoch c' = c_claim_epoch c →
    c_consumed_source_ids c' = c_consumed_source_ids c →
    c_failure_category c' = c_failure_category c → row_move c c'
| move_reopen :
    c_state c = uncertain → c_state c' = approved →
    c_claim_owner c' = None → c_claim_expires_at c' = None →
    c_claim_epoch c' = c_claim_epoch c →
    c_consumed_source_ids c' = c_consumed_source_ids c →
    c_failure_category c' = None → row_move c c'
| move_claim owner expires :
    c_state c = approved → c_state c' = claimed →
    c_claim_owner c' = Some owner → c_claim_expires_at c' = Some expires →
    c_claim_epoch c' = c_claim_epoch c + 1 →
    c_consumed_source_ids c' = c_consumed_source_ids c →
    c_failure_category c' = c_failure_category c → row_move c c'
| move_lapse :
    c_state c = claimed → c_state c' = uncertain →
    c_claim_owner c' = None → c_claim_expires_at c' = None →
    c_claim_epoch c' = c_claim_epoch c →
    c_consumed_source_ids c' = c_consumed_source_ids c →
    c_failure_category c' = Some "outcome_unknown" → row_move c c'
| move_complete ids category :
    c_state c = claimed →
    c_claim_owner c' = None → c_claim_expires_at c' = None →
    c_claim_epoch c' = c_claim_epoch c →
    c_consumed_source_ids c' = (λ l, json_text (strings_json l)) <$> ids →
    c_failure_category c' = category →
    (c_state c' = consumed ∧ category = None ∧
       (∃ s l, ids = Some (s :: l)))
    ∨ (c_state c' = failed ∧ ids = None ∧
         ∃ f, category = Some f ∧ member f CAPTURE_FAILURES = true)
    ∨ (c_state c' = uncertain ∧ ids = None ∧
         ∃ f, category = Some f ∧ member f CAPTURE_UNCERTAIN_CATEGORIES = true) →
    row_move c c'.

Definition moves (c c' : capture_row) : Prop :=
  row_move c c' ∧ same_submission c c' ∧ c_revision c' = c_revision c + 1
  ∧ (capture_check c = true → capture_check c' = true).

(** A row as [_insert_capture] writes it. *)
Definition fresh_row (c : capture_row) : Prop :=
  c_state c = pending ∧ c_claim_owner c = None ∧ c_claim_epoch c = 0 ∧
  c_claim_expires_at c = None ∧ c_consumed_source_ids c = None ∧
  c_failure_category c = None ∧ c_revision c = 0 ∧ capture_check c = true.

Definition no_open (key : string) (t : gmap string capture_row) : Prop :=
  ∀ id c, t !! id = Some c → c_key c = key → capture_open (c_state c) = false.

Inductive inbox_step (t t' : gmap string capture_row) : Prop :=
| step_stage id c :
    t !! id = None → fresh_row c → no_open (c_key c) t → t' = <[id := c]> t →
    inbox_step t t'
| step_move id c c' :
    t !! id = Some c → moves c c' → t' = <[id := c']> t → inbox_step t t'
| step_sweep :
    (∀ id, option_Forall2 (λ c c', c' = c ∨ moves c c') (t !! id) (t' !! id)) →
    inbox_step t t'.

(** The invariant of one row, and of the table. *)
Definition row_wf (c : capture_row) : Prop :=
  capture_check c = true ∧ 0 <= c_revision c ∧ 0 <= c_claim_epoch c ∧
  match c_state c with
  | claimed => is_Some (c_claim_owner c) ∧ is_Some (c_claim_expires_at c) ∧
      1 <= c_claim_epoch c
  | _ => c_claim_owner c = None ∧ c_claim_expires_at c = None
  end ∧
  match c_state c with
  | consumed => ∃ s l, c_consumed_source_ids c = Some (json_text (strings_json (s :: l)))
  | _ => c_consumed_source_ids c = None
  end ∧
  match c_state c with
  | failed => ∃ f, c_failure_category c = Some f ∧ member f CAPTURE_FAILURES = true
  | uncertain =>
      ∃ f, c_failure_category c = Some f ∧ member f CAPTURE_UNCERTAIN_CATEGORIES = true
  | dismissed => True
  | _ => c_failure_category c = None
  end.

Definition inbox_wf (t : gmap string capture_row) : Prop :=
  (∀ id c, t !! id = Some c → row_wf c) ∧
  (∀ i j c d, t !! i = Some c → t !! j = Some d → c_key c = c_key d →
     capture_open (c_state c) = true → capture_open (c_state d) = true → i = j).

(** ** Facts of the abstract inbox *)

Lemma moves_wf c c' : row_wf c → moves c c' → row_wf c'.
Proof.
  intros (Hck & Hr & He & Hcl & Hids & Hf) (Hm & Hs & Hrev & Hck').
  unfold row_wf. split; [auto|]. split; [lia|]. clear Hck'.
  destruct Hm as [[[H1 H2] | [H1 H2]] ? ? ? ? ? | H1 H2 ? ? ? ? ? | ? ? H1 H2 ? ? ? ? ?
    | H1 H2 ? ? ? ? ? | ids cat H1 ? ? ? Hi ? [(H2 & ? & s & l & ->) | [(H2 & -> & ?) | (H2 & -> & ?)]]];
    rewrite ?H1 in *; rewrite ?H2;
    repeat match goal with H : _ c' = _ |- _ => rewrite H; clear H end;
    try (destruct (c_state c); try discriminate H1);
    (naive_solver lia || (repeat split; try done; lia)).
Qed.

Lemma moves_open c c' : moves c c' → capture_open (c_state c') = true →
  capture_open (c_state c) = true.
Proof.
  intros (Hm & _) Ho.
  destruct Hm as [[[H1 H2] | [H1 H2]] | | | |]; rewrite ?H1; try done; try congruence.
  - by rewrite H2 in Ho.
  - by match goal with H : c_state c = _ |- _ => rewrite H end.
  - by match goal with H : c_state c = _ |- _ => rewrite H end.
  - by match goal with H : c_state c = _ |- _ => rewrite H end.
  - by match goal with H : c_state c = _ |- _ => rewrite H end.
Qed.

Lemma moves_not_terminal c c' : moves c c' → capture_terminal (c_state c) = false.
Proof.
  intros (Hm & _).
  destruct Hm as [[[H1 _] | [H1 _]] | | | |]; rewrite ?H1; try done;
    try (by destruct (c_state c));
    by match goal with H : c_state c = _ |- _ => rewrite H end.
Qed.

Lemma moves_key c c' : moves c c' → c_key c' = c_key c.
Proof. intros (_ & (? & _) & _). done. Qed.

Lemma moves_epoch c c' : moves c c' →
  c_claim_epoch c' = c_claim_epoch c + (if decide (c_state c' = claimed) then 1 else 0).
Proof.
  intros (Hm & _). destruct Hm as [[[H1 H2] | [H1 H2]] | | | |
    ids cat H1 ? ? ? Hi ? [(H2 & ?) | [(H2 & ?) | (H2 & ?)]]]; case_decide; try lia; congruence.
Qed.

Lemma inbox_step_row t t' id c : inbox_step t t' → t !! id = Some c →
  ∃ c', t' !! id = Some c' ∧ (c' = c ∨ moves c c').
Proof.
  intros [i r Hi _ _ -> | i r r' Hi Hm -> | Hall] Hc.
  - exists c. rewrite lookup_insert_ne by congruence. auto.
  - destruct (decide (i = id)) as [-> | Hne].
    + rewrite lookup_insert_eq. naive_solver.
    + rewrite lookup_insert_ne by done. eauto.
  - specialize (Hall id). rewrite Hc in Hall. inversion Hall; subst. eauto.
Qed.

Lemma inbox_step_row_back t t' id c' : inbox_step t t' → t' !! id = Some c' →
  (t !! id = None ∧ fresh_row c' ∧ no_open (c_key c') t) ∨
  ∃ c, t !! id = Some c ∧ (c' = c ∨ moves c c').
Proof.
  intros [i r Hi Hf Hn -> | i r r' Hi Hm -> | Hall] Hc.
  - destruct (decide (i = id)) as [-> | Hne].
    + rewrite lookup_insert_eq in Hc. naive_solver.
    + rewrite lookup_insert_ne in Hc by done. eauto.
  - destruct (decide (i = id)) as [-> | Hne].
    + rewrite lookup_insert_eq in Hc. naive_solver.
    + rewrite lookup_insert_ne in Hc by done. eauto.
  - specialize (Hall id). rewrite Hc in Hall. inversion Hall; subst. eauto.
Qed.

Lemma fresh_wf c : fresh_row c → row_wf c.
Proof. intros (H1 & ? & ? & ? & ? & ? & ? & ?). unfold row_wf. rewrite H1. naive_solver lia. Qed.

(** At most one row of a step is staged, so two rows that are open after it and
    share a key were open before it. *)
Lemma inbox_step_wf t t' : inbox_wf t → inbox_step t t' → inbox_wf t'.
Proof.
  intros [Hrow Hone] Hstep. split.
  - intros id c' Hc'. destruct (inbox_step_row_back _ _ _ _ Hstep Hc')
      as [(_ & Hf & _) | (c & Hc & [-> | Hm])]; [by apply fresh_wf|by eapply Hrow|].
    eapply moves_wf; [|done]. by eapply Hrow.
  - intros i j c d Hc Hd Hk Hoc Hod.
    destruct (inbox_step_row_back _ _ _ _ Hstep Hc) as [(Hi & Hf & Hn) | (c0 & Hc0 & Hcm)];
    destruct (inbox_step_row_back _ _ _ _ Hstep Hd) as [(Hj & Hg & Hn') | (d0 & Hd0 & Hdm)].
    + destruct Hstep as [k r _ _ _ -> | k r r' Hkr _ -> | Hall].
      * apply lookup_insert_Some in Hc as [[<- _] | [_ Hc]]; [|congruence].
        apply lookup_insert_Some in Hd as [[<- _] | [_ Hd]]; [done|congruence].
      * apply lookup_insert_Some in Hc as [[<- _] | [_ Hc]]; congruence.
      * specialize (Hall i). rewrite Hi, Hc in Hall. inversion Hall.
    + assert (capture_open (c_state d0) = true) as Ho
        by (destruct Hdm as [-> | Hdm]; [done|by eapply moves_open]).
      assert (c_key d0 = c_key c) as Hk0
        by (destruct Hdm as [-> | Hdm]; [done|apply moves_key in Hdm; congruence]).
      rewrite (Hn _ _ Hd0 Hk0) in Ho. done.
    + assert (capture_open (c_state c0) = true) as Ho
        by (destruct Hcm as [-> | Hcm]; [done|by eapply moves_open]).
      assert (c_key c0 = c_key d) as Hk0
        by (destruct Hcm as [-> | Hcm]; [done|apply moves_key in Hcm; congruence]).
      rewrite (Hn' _ _ Hc0 Hk0) in Ho. done.
    + apply (Hone i j c0 d0); try done.
      * destruct Hcm as [-> | Hcm%moves_key], Hdm as [-> | Hdm%moves_key]; congruence.
      * destruct Hcm as [-> | Hcm]; [done|by eapply moves_open].
      * destruct Hdm as [-> | Hdm]; [done|by eapply moves_open].
Qed.

Lemma inbox_steps_wf t t' : inbox_wf t → rtc inbox_step t t' → inbox_wf t'.
Proof. intros Hwf. induction 1; eauto using inbox_step_wf. Qed.

Lemma inbox_steps_terminal t t' id c :
  rtc inbox_step t t' → t !! id = Some c → capture_terminal (c_state c) = true →
  t' !! id = Some c.
Proof.
  induction 1 as [|t t1 t' Hs _ IH]; [done|]. intros Hc Ht.
  destruct (inbox_step_row _ _ _ _ Hs Hc) as (c' & Hc' & [-> | Hm]); [auto|].
  apply moves_not_terminal in Hm. congruence.
Qed.

(** Over a run a row's epoch grows, and strictly when a claim intervened. *)
Definition row_later (c c' : capture_row) : Prop :=
  same_submission c c' ∧ c_revision c <= c_revision c' ∧ c_claim_epoch c <= c_claim_epoch c' ∧
  (c_revision c' = c_revision c → c' = c) ∧
  (c_claim_epoch c' = c_claim_epoch c → c_state c' = claimed → c' = c).

Lemma row_later_refl c : row_later c c.
Proof. unfold row_later, same_submission. naive_solver lia. Qed.

Lemma row_later_step c c1 c2 : (c1 = c ∨ moves c c1) → row_later c1 c2 → row_later c c2.
Proof.
  intros [-> | Hm] Hl; [done|]. pose proof (moves_epoch _ _ Hm) as He.
  destruct Hm as (Hm & Hs & Hr & _). destruct Hl as (Hs' & Hr' & He' & Hsame & Hcl).
  unfold row_later, same_submission in *. split; [naive_solver congruence|].
  case_decide; repeat split; try lia; intros.
  exfalso. assert (c2 = c1) as -> by (apply Hcl; [lia|done]). done.
Qed.

Lemma inbox_steps_row t t' id c :
  rtc inbox_step t t' → t !! id = Some c → ∃ c', t' !! id = Some c' ∧ row_later c c'.
Proof.
  intros Hs. revert c. induction Hs as [t|t t1 t' Hs _ IH]; intros c Hc.
  - exists c. split; [done|apply row_later_refl].
  - destruct (inbox_step_row _ _ _ _ Hs Hc) as (c1 & Hc1 & Hm).
    destruct (IH _ Hc1) as (c' & Hc' & Hl). exists c'. split; [done|].
    by eapply row_later_step.
Qed.

(** ** What each operation does to the table *)

Lemma capture_json_ok id c ids : json_ok ids = true → json_ok (capture_json id c ids) = true.
Proof.
  unfold json_ok, capture_json. intros [Hu Hf]%andb_true_iff. simpl. rewrite Hu, Hf.
  destruct (c_claim_owner c), (c_claim_expires_at c), (c_known_source_id c),
    (c_failure_category c); done.
Qed.

Lemma captures_where_elem p d id c :
  (id, c) ∈ captures_where p d ↔ captures d !! id = Some c ∧ p c = true.
Proof.
  unfold captures_where. rewrite elem_of_isort, list_elem_of_In, List.filter_In, <- list_elem_of_In.
  rewrite elem_of_map_to_list. done.
Qed.

Section CaptureLaws.
Context `{Env} `{UrlChecks}.

Lemma capture_ok id w c v w' :
  capture id w = Ok (c, v) w' →
  w' = w ∧ captures (w_db w) !! id = Some c ∧ json_ok v = true ∧
  ∃ ids, v = capture_json id c ids.
Proof.
  unfold capture. intros Hc. mgo. repeat case_match; mgo; simplify_eq.
  - split_and!; [done|done|by apply capture_json_ok|eauto].
  - split_and!; [done|done| |eauto]. apply capture_json_ok. by eapply loads_ok.
  - split_and!; [done|done|by apply capture_json_ok|eauto].
Qed.

Lemma get_capture_ok id w v w' :
  get_capture id w = Ok v w' → ∃ c, capture id w = Ok (c, v) w'.
Proof. unfold get_capture. intros Hg. mgo. destruct x as [c u]. mgo. eauto. Qed.

Lemma update_capture_ok id p f w n w' :
  update_capture id p f w = Ok n w' →
  (∃ c, captures (w_db w) !! id = Some c ∧ p c = true ∧ capture_check (f c) = true ∧
        n = 1 ∧ w' = on_db (set_captures <[id := f c]>) w) ∨
  (n = 0 ∧ w' = w).
Proof.
  unfold update_capture. intros Hu. mgo. repeat case_match; mgo; [left|by right..].
  eauto 10.
Qed.

Lemma open_capture_none key w w' :
  open_capture key w = Ok None w' → w' = w ∧ no_open key (captures (w_db w)).
Proof.
  unfold open_capture. intros Ho. mgo.
  case_match eqn:E; mgo.
  - split; [done|]. intros i c Hc Hk.
    destruct (capture_open (c_state c)) eqn:Hop; [exfalso|done].
    assert ((i, c) ∈ @nil (string * capture_row)) as Hin.
    { rewrite <- E. apply captures_where_elem. split; [done|]. by rewrite Hk, String.eqb_refl. }
    by apply not_elem_of_nil in Hin.
  - mcase.
Qed.

(** The capture an open key is answered with. *)
Lemma open_capture_some key w v w' :
  open_capture key w = Ok (Some v) w' →
  w' = w ∧ ∃ id c ids, captures (w_db w) !! id = Some c ∧ c_key c = key ∧
    capture_open (c_state c) = true ∧ v = capture_json id c ids.
Proof.
  unfold open_capture. intros Ho. mgo.
  case_match eqn:E; mcase.
  apply capture_ok in H1 as (-> & Hc & _ & ids & ->). split; [done|].
  assert ((s, c) ∈ captures_where (λ c, String.eqb (c_key c) key && capture_open (c_state c))
    (w_db w)) as Hin by (rewrite E; left).
  apply captures_where_elem in Hin as [Hc2 [Hk Hop]%andb_true_iff].
  apply String.eqb_eq in Hk. rewrite Hc in Hc2. simplify_eq. eauto 10.
Qed.

Lemma known_capture_source_ok key w o w' :
  known_capture_source key w = Ok o w' → w' = w.
Proof.
  unfold known_capture_source. intros Hk. mcase.
Qed.

End CaptureLaws.

(** The facts of the runs in the context. *)
Ltac cfacts := repeat (
  match goal with
  | H : capture _ _ = Ok ?p _ |- _ => is_var p; destruct p
  | H : capture _ _ = Ok _ _ |- _ =>
      apply capture_ok in H as (-> & ? & ? & ? & ->)
  | H : <[?i:=_]> _ !! ?i = _ |- _ => rewrite lookup_insert_eq in H
  | H : known_capture_source _ _ = Ok _ _ |- _ => apply known_capture_source_ok in H as ->
  | H : update_capture _ _ _ _ = Ok _ _ |- _ =>
      apply update_capture_ok in H as [(? & ? & ? & ? & ? & ->) | [? ->]]
  end; simplify_eq/=); try done.

Section CaptureEffects.
Context `{Env} `{UrlChecks}.

Lemma insert_capture_ok payload note kind key w v w' :
  insert_capture payload note kind key w = Ok v w' →
  ∃ id c ids, captures (w_db w) !! id = None ∧ fresh_row c ∧ c_key c = key ∧
    c_payload c = payload ∧ c_note c = note ∧ c_kind c = kind ∧
    captures (w_db w') = <[id := c]> (captures (w_db w)) ∧
    json_ok v = true ∧ v = capture_json id c ids.
Proof.
  unfold insert_capture. intros Hi. mcase; cfacts.
  match goal with Hb : _ && _ = true |- _ =>
    apply andb_true_iff in Hb as [Hb%bool_decide_eq_true Hck] end.
  eexists _, (CaptureRow key payload kind note pending None 0 None _ None None 0 _ _), _.
  split_and!; [done| |done..]. unfold fresh_row. by split_and!; try done.
Qed.

Lemma decide_capture_ok id event p f w v code w' :
  decide_capture id event p f w = Ok (v, code) w' →
  ∃ c t, captures (w_db w) !! id = Some c ∧ p c = true ∧ capture_check (f t c) = true ∧
    captures (w_db w') = <[id := f t c]> (captures (w_db w)) ∧
    json_ok v = true ∧ code = 200 ∧ ∃ ids, v = capture_json id (f t c) ids.
Proof.
  unfold decide_capture. intros Hd. mcase; cfacts.
  eexists _, _. split_and!; try done. by eexists.
Qed.

(** Only a sweep changes more than one row. *)
Lemma sweep_ok w u w' :
  sweep_expired_captures w = Ok u w' →
  captures (w_db w') = sweep_row (format_time (clock (w_ticks w))) <$> captures (w_db w).
Proof.
  unfold sweep_expired_captures. intros Hs. mgo. mcase_step; mgo.
  - symmetry. apply map_eq. intros id. rewrite lookup_fmap.
    destruct (captures (w_db w) !! id) as [c|] eqn:Hc; [|done]. simpl. f_equal.
    unfold sweep_row. destruct (lease_expired _ c) eqn:Hl; [exfalso|done].
    apply (not_elem_of_nil (id, c)).
    match goal with E : _ = [] |- _ => rewrite <- E end.
    apply list_elem_of_In, List.filter_In. rewrite <- list_elem_of_In, elem_of_map_to_list. done.
  - match goal with Hm : map_m _ _ _ = Ok _ _ |- _ =>
      apply (keeps_ok (λ w, captures (w_db w))) in Hm; [by rewrite Hm|] end.
    apply keeps_map_m. intros x. by apply keeps_audit.
Qed.

Lemma capture_outcome_ok outcome sources failure w ids category w' :
  capture_outcome outcome sources failure w = Ok (ids, category) w' →
  w' = w ∧
  ((outcome_state outcome = consumed ∧ category = None ∧ ∃ s l, ids = Some (s :: l))
   ∨ (outcome_state outcome = failed ∧ ids = None ∧
        ∃ f, category = Some f ∧ member f CAPTURE_FAILURES = true)
   ∨ (outcome_state outcome = uncertain ∧ ids = None ∧
        ∃ f, category = Some f ∧ member f CAPTURE_UNCERTAIN_CATEGORIES = true)).
Proof.
  unfold capture_outcome, outcome_state, capture_source_ids. intros Ho.
  repeat case_match; mgo; simplify_eq; try done.
  - match goal with Hm : map_m _ _ _ = Ok ?l _ |- _ =>
      apply (keeps_ok id) in Hm;
        [simpl in Hm; subst|apply keeps_map_m; unfold required_text; eauto with keeps];
      destruct l as [|s l]; [done|eauto 10] end.
  - split; [done|]. right; left. destruct category; [|done]. eauto.
  - split; [done|]. right; left. destruct category; [|done]. eauto.
  - split; [done|]. right; right. eauto.
  - split; [done|]. right; right. eauto.
  - split; [done|]. right; right. eauto.
  - split; [done|]. right; right. eauto.
Qed.
End CaptureEffects.

(** ** Every command refines the abstract inbox *)

Section Refinement.
Context `{Env} `{UrlChecks}.

(** A command that replays leaves the table; one that runs does what its body
    does, and the receipt is filed beside it. *)
Lemma command_refines a o k request body w r w' :
  command a o k request body w = Ok r w' →
  (∀ v code w1, body w = Ok (v, code) w1 →
     rtc inbox_step (captures (w_db w)) (captures (w_db w1))) →
  rtc inbox_step (captures (w_db w)) (captures (w_db w')).
Proof.
  intros Hc Hb. rewrite command_ok in Hc. destruct Hc as [_ Hc].
  destruct (idempotency_receipts (w_db w) !! (a, o, k)) as [row|].
  - destruct Hc as [-> _]. apply rtc_refl.
  - destruct Hc as (v & code & w1 & Hbody & Hs). apply save_receipt_ok in Hs as (_ & _ & ->).
    exact (Hb _ _ _ Hbody).
Qed.

Lemma decide_refines id event p f w v code w' :
  decide_capture id event p f w = Ok (v, code) w' →
  (∀ t c, p c = true → capture_check (f t c) = true → moves c (f t c)) →
  rtc inbox_step (captures (w_db w)) (captures (w_db w')).
Proof.
  intros Hd Hm. apply decide_capture_ok in Hd as (c & t & Hc & Hp & Hck & -> & _).
  apply rtc_once. eapply step_move; [done|by apply Hm|done].
Qed.

Lemma approve_refines id n a k w r w' :
  approve_capture id n a k w = Ok r w' →
  rtc inbox_step (captures (w_db w)) (captures (w_db w')).
Proof.
  intros Hr. eapply command_refines; [exact Hr|]. clear. intros v code w1 Hb. mcase; cfacts.
  eapply decide_refines; [done|]. intros t r [_ Hp%bool_decide_eq_true]%andb_true_iff Hck.
  split_and!; try done. by apply move_decide; [left|..].
Qed.

Lemma dismiss_refines id n a k w r w' :
  dismiss_capture id n a k w = Ok r w' →
  rtc inbox_step (captures (w_db w)) (captures (w_db w')).
Proof.
  intros Hr. eapply command_refines; [exact Hr|]. clear. intros v code w1 Hb. mcase; cfacts.
  eapply decide_refines; [done|]. intros t r [_ Hp]%andb_true_iff Hck.
  split_and!; try done. by apply move_decide; [right|..].
Qed.

Lemma reopen_refines id n ack a k w r w' :
  reopen_capture id n ack a k w = Ok r w' →
  rtc inbox_step (captures (w_db w)) (captures (w_db w')).
Proof.
  unfold reopen_capture. intros Hr. apply bind_ok in Hr as (? & w1 & He & Hr). mgo.
  eapply command_refines; [exact Hr|]. clear. intros v code w1 Hb. mcase; cfacts.
  eapply decide_refines; [done|]. intros t r [_ Hp%bool_decide_eq_true]%andb_true_iff Hck.
  split_and!; try done. by apply move_reopen.
Qed.

Lemma insert_refines payload note kind key w v w' :
  insert_capture payload note kind key w = Ok v w' → no_open key (captures (w_db w)) →
  rtc inbox_step (captures (w_db w)) (captures (w_db w')).
Proof.
  intros Hi Hno. apply insert_capture_ok in Hi as (id & c & ids & Hid & Hf & <- & _ & _ & _ & -> & _).
  apply rtc_once. by eapply step_stage.
Qed.

Lemma create_refines payload note a k w r w' :
  create_capture payload note a k w = Ok r w' →
  rtc inbox_step (captures (w_db w)) (captures (w_db w')).
Proof.
  unfold create_capture, capture_note. intros Hr. mgo.
  destruct (capture_shape (strip payload)) as [kind key].
  eapply command_refines; [exact Hr|]. intros v code w1 Hb. mgo. mcase_step; mgo. simplify_eq.
  match goal with Ho : open_capture _ _ = Ok None _ |- _ => apply open_capture_none in Ho as [-> Ho] end.
  by eapply insert_refines.
Qed.

Lemma stage_refines payload note w r w' :
  stage_capture payload note w = Ok r w' →
  rtc inbox_step (captures (w_db w)) (captures (w_db w')).
Proof.
  unfold stage_capture, capture_note. intros Hr. mgo.
  destruct (capture_shape (strip payload)) as [kind key]. mgo. mcase_step; mgo.
  - match goal with Ho : open_capture _ _ = Ok (Some _) _ |- _ =>
      apply open_capture_some in Ho as [-> _] end. apply rtc_refl.
  - match goal with Ho : open_capture _ _ = Ok None _ |- _ => apply open_capture_none in Ho as [-> Ho] end.
    by eapply insert_refines.
Qed.

Lemma sweep_row_moves t c : sweep_row t c = c ∨ moves c (sweep_row t c).
Proof.
  unfold sweep_row. destruct (lease_expired t c) eqn:Hl; [right|by left].
  unfold lease_expired in Hl. apply andb_true_iff in Hl as [Hs%bool_decide_eq_true _].
  split_and!; try done; [by apply move_lapse|]. unfold capture_check. simpl.
  rewrite !andb_true_iff. naive_solver.
Qed.
Lemma sweep_refines w u w' :
  sweep_expired_captures w = Ok u w' → inbox_step (captures (w_db w)) (captures (w_db w')).
Proof.
  intros Hs%sweep_ok. apply step_sweep. intros id. rewrite Hs, lookup_fmap.
  destruct (captures (w_db w) !! id) as [c|]; simpl; constructor. apply sweep_row_moves.
Qed.

Lemma capture_dicts_keeps {V} (view : world → V) l : keeps view (capture_dicts l).
Proof.
  apply keeps_map_m. intros x. unfold get_capture, capture, query, json_loads.
  repeat (apply keeps_bind; [|intros]); repeat case_match; eauto with keeps.
Qed.

Lemma list_pending_refines limit w r w' :
  list_pending_captures limit w = Ok r w' →
  rtc inbox_step (captures (w_db w)) (captures (w_db w')).
Proof.
  unfold list_pending_captures. intros Hr. mgo. apply rtc_once.
  match goal with Hc : capture_dicts _ _ = Ok _ _ |- _ =>
    apply (keeps_ok (λ w, w)) in Hc as ->; [|apply capture_dicts_keeps] end.
  by eapply sweep_refines.
Qed.

(** The row a claim writes. *)
Definition claimed_row (worker t expires : string) (c : capture_row) : capture_row :=
  bump t (set_claim (Some worker) (c_claim_epoch c + 1) (Some expires) (set_state claimed c)).

Lemma claim_ok id worker lease a k w r w' :
  claim_capture id worker lease a k w = Ok r w' →
  w' = w ∧ cr_replayed r = true ∨
  cr_replayed r = false ∧ ∃ c t expires ids w1,
    sweep_expired_captures w = Ok tt w1 ∧ captures (w_db w1) !! id = Some c ∧
    c_state c = approved ∧ capture_check (claimed_row (strip worker) t expires c) = true ∧
    captures (w_db w') = <[id := claimed_row (strip worker) t expires c]> (captures (w_db w1)) ∧
    (∃ t2 r2, t2 = clock (w_ticks w1) ∧ dt_add_seconds t2 lease = Some r2 ∧
       t = format_time t2 ∧ expires = format_time r2) ∧
    cr_value r = capture_json id (claimed_row (strip worker) t expires c) ids ∧
    json_ok (cr_value r) = true.
Proof.
  unfold claim_capture. intros Hr. mgo. mcase_step; mgo.
  - left. mcase; cfacts. split; [done|]. match goal with Hm : match ?o with _ => _ end |- _ =>
      destruct o; [|done] end. naive_solver.
  - right. mcase; cfacts. split; [done|].
    match goal with Hc : bool_decide (c_state _ = approved) = true |- _ =>
      apply bool_decide_eq_true in Hc end.
    do 5 eexists. split_and!; try done. do 2 eexists. split_and!; done.
Qed.

Lemma claim_refines id worker lease a k w r w' :
  claim_capture id worker lease a k w = Ok r w' →
  rtc inbox_step (captures (w_db w)) (captures (w_db w')).
Proof.
  intros [[-> _] | (_ & c & t & e & ids & w1 & Hs & Hc & Hst & Hck & -> & _)]%claim_ok;
    [apply rtc_refl|].
  apply sweep_refines in Hs. eapply rtc_l; [exact Hs|]. apply rtc_once.
  eapply step_move; [done| |done]. split_and!; try done. by eapply move_claim.
Qed.

(** The row a completion writes. *)
Definition completed_row (t : string) (outcome : string) (ids : option (list string))
    (category : option string) (c : capture_row) : capture_row :=
  bump t (set_outcome (stored_ids ids) category
    (set_claim None (c_claim_epoch c) None (set_state (outcome_state outcome) c))).

Lemma check_named_ok ids w u w' :
  check_named ids w = Ok u w' →
  w' = w ∧ Forall (λ s, is_Some (sources (w_db w) !! s)) (default [] ids).
Proof.
  unfold check_named, validate_capture_sources. intros Hv.
  destruct ids as [[|s l]|]; mgo; (split; [done|]); [by constructor| |by constructor].
  match goal with Hb : forallb _ _ = true |- _ => rewrite List.forallb_forall in Hb;
    apply List.Forall_forall; intros i Hi; by apply Hb, bool_decide_eq_true in Hi end.
Qed.

Lemma detail_items_keeps {V} (view : world → V) l : keeps view (map_m detail_item l).
Proof.
  apply keeps_map_m. intros [x y]. unfold detail_item, required_text. eauto 10 with keeps.
Qed.

Lemma complete_body_ok id owner epoch outcome ids category detail w v code w' :
  complete_body id owner epoch outcome ids category detail w = Ok (v, code) w' →
  ∃ c t, captures (w_db w) !! id = Some c ∧ claim_fence owner epoch c = true ∧
    capture_check (completed_row t outcome ids category c) = true ∧
    Forall (λ s, is_Some (sources (w_db w) !! s)) (default [] ids) ∧
    captures (w_db w') = <[id := completed_row t outcome ids category c]> (captures (w_db w)) ∧
    json_ok v = true ∧ ∃ ids', v = capture_json id (completed_row t outcome ids category c) ids'.
Proof.
  unfold complete_body. intros Hb. mgo.
  match goal with Hn : check_named _ _ = _ |- _ => apply check_named_ok in Hn as [-> Hn] end.
  mcase; cfacts. eexists _, _. split_and!; try done. by eexists.
Qed.

Lemma complete_ok id owner epoch outcome named failure detail a k w r w' :
  complete_capture id owner epoch outcome named failure detail a k w = Ok r w' →
  ∃ ids category items, capture_outcome outcome named failure w = Ok (ids, category) w ∧
    1 <= epoch ∧
    command a (internal_path id "complete") k
      (complete_request (strip owner) epoch outcome ids category (dict_of items))
      (complete_body id (strip owner) epoch outcome ids category (dict_of items)) w = Ok r w'.
Proof.
  unfold complete_capture. intros Hr. mcase.
  match goal with Ho : capture_outcome _ _ _ _ = _ |- _ => pose proof Ho as Ho2;
    apply capture_outcome_ok in Ho2 as [-> _] end.
  match goal with Hd : map_m detail_item _ _ = _ |- _ =>
    apply (keeps_ok (λ w, w)) in Hd as ->; [|apply detail_items_keeps] end.
  do 3 eexists. split_and!; [done|lia|done].
Qed.

Lemma complete_refines id owner epoch outcome named failure detail a k w r w' :
  complete_capture id owner epoch outcome named failure detail a k w = Ok r w' →
  rtc inbox_step (captures (w_db w)) (captures (w_db w')).
Proof.
  intros (ids & category & items & Ho & _ & Hr)%complete_ok.
  eapply command_refines; [exact Hr|]. intros v code w1 Hb.
  apply complete_body_ok in Hb as (c & t & Hc & Hf & Hck & _ & -> & _).
  apply rtc_once. eapply step_move; [done| |done].
  unfold claim_fence in Hf. rewrite !andb_true_iff, !bool_decide_eq_true in Hf.
  split_and!; try done. eapply (move_complete _ _ ids category); try done; [naive_solver| |].
  - apply capture_outcome_ok in Ho as [_ [(_ & _ & s & l & ->) | [(_ & -> & _) | (_ & -> & _)]]]; done.
  - by apply capture_outcome_ok in Ho as [_ Ho].
Qed.
End Refinement.
