(* ===== verification/CaptureInbox.v ===== *)
(** * The capture inbox over time

    Sequences of inbox commands, in any order, with any arguments and any
    number of refusals, and the properties that hold along them. *)

From S2P Require Import Prelude PyText Clock Json Schema Store CaptureKey Captures CaptureFacts Demo.
Open Scope Z_scope.

(** ** Commands and sessions *)

Inductive capture_command :=
| CreateCapture (payload note actor key : string)
| StageCapture (payload note : string)
| ApproveCapture (id : string) (revision : Z) (actor key : string)
| DismissCapture (id : string) (revision : Z) (actor key : string)
| ReopenCapture (id : string) (revision : Z) (acknowledged : bool) (actor key : string)
| ListPendingCaptures (limit : Z)
| ClaimCapture (id worker : string) (lease : Z) (actor key : string)
| CompleteCapture (id owner : string) (epoch : Z) (outcome : string)
    (named : option (list string)) (failure : option string)
    (detail : list (string * string)) (actor key : string).

Section Sessions.
Context `{Env} `{UrlChecks}.

Definition run_capture (c : capture_command) : Store unit :=
  match c with
  | CreateCapture p n a k => create_capture p n a k;; mret tt
  | StageCapture p n => transaction (stage_capture p n);; mret tt
  | ApproveCapture i r a k => approve_capture i r a k;; mret tt
  | DismissCapture i r a k => dismiss_capture i r a k;; mret tt
  | ReopenCapture i r ack a k => reopen_capture i r ack a k;; mret tt
  | ListPendingCaptures l => list_pending_captures l;; mret tt
  | ClaimCapture i wk l a k => claim_capture i wk l a k;; mret tt
  | CompleteCapture i o e oc n f d a k => complete_capture i o e oc n f d a k;; mret tt
  end.

(** A command that raises is followed by the next one all the same. *)
Definition session (cmds : list capture_command) (w : world) : world :=
  fold_left (λ w c, end_world (run_capture c w)) cmds w.

Lemma then_ret_err {A} (m : Store A) w e w' :
  (m;; mret tt : Store unit) w = Err e w' → m w = Err e w'.
Proof. intros [Hm | (? & ? & _ & Hm)]%bind_err; [done|]. by rewrite ret_err in Hm. Qed.
Lemma then_ret_ok {A} (m : Store A) w u w' :
  (m;; mret tt : Store unit) w = Ok u w' → ∃ a, m w = Ok a w'.
Proof. intros (a & w1 & Hm & [_ ->]%ret_ok)%bind_ok. eauto. Qed.

Lemma keeps_capture_note {V} (view : world → V) note : keeps view (capture_note note).
Proof. unfold capture_note. eauto with keeps. Qed.
Lemma keeps_capture_source_ids {V} (view : world → V) l : keeps view (capture_source_ids l).
Proof. unfold capture_source_ids. eauto 10 with keeps. Qed.
Lemma keeps_capture_outcome {V} (view : world → V) o ids f :
  keeps view (capture_outcome o ids f).
Proof.
  unfold capture_outcome. repeat case_match;
    eauto 10 using keeps_capture_source_ids with keeps.
Qed.
Lemma keeps_detail_items {V} (view : world → V) l : keeps view (map_m detail_item l).
Proof. apply detail_items_keeps. Qed.

(** Every command is all or nothing. *)
Lemma run_capture_atomic c : atomic (run_capture c).
Proof.
  intros w e w'. destruct c; simpl; intros Hr%then_ret_err; revert Hr; apply (λ H : atomic _, H w e w').
  - unfold create_capture. repeat (apply atomic_bind; [eauto using keeps_capture_note with keeps|intros]).
    destruct (capture_shape _). eauto with keeps.
  - eauto with keeps.
  - unfold approve_capture. eauto with keeps.
  - unfold dismiss_capture. eauto with keeps.
  - unfold reopen_capture. eauto with keeps.
  - unfold list_pending_captures. eauto with keeps.
  - unfold claim_capture. eauto with keeps.
  - unfold complete_capture. apply atomic_bind; [eauto with keeps|intros].
    apply atomic_bind; [eauto with keeps|intros].
    apply atomic_bind; [apply keeps_capture_outcome|intros [ids category]].
    apply atomic_bind; [apply keeps_detail_items|intros]. eauto with keeps.
Qed.

Lemma run_capture_refines c w :
  rtc inbox_step (captures (w_db w)) (captures (w_db (end_world (run_capture c w)))).
Proof.
  destruct (run_capture c w) as [u w'|e w'] eqn:Hr; simpl.
  - destruct c; simpl in Hr; apply then_ret_ok in Hr as [r Hr];
      eauto using create_refines, approve_refines, dismiss_refines, reopen_refines,
        list_pending_refines, claim_refines, complete_refines.
    rewrite transaction_ok in Hr. by eapply stage_refines.
  - apply run_capture_atomic in Hr. rewrite Hr. apply rtc_refl.
Qed.

Lemma session_steps cmds w :
  rtc inbox_step (captures (w_db w)) (captures (w_db (session cmds w))).
Proof.
  revert w. induction cmds as [|c cmds IH]; intros w; simpl; [apply rtc_refl|].
  etrans; [apply run_capture_refines|apply IH].
Qed.

Lemma evolves_capture id : evolves journal_le (capture id).
Proof. unfold capture. journal. Qed.
Lemma evolves_update_capture id p f : evolves journal_le (update_capture id p f).
Proof. unfold update_capture. journal. Qed.
Hint Resolve evolves_capture evolves_update_capture : evolves.
Lemma evolves_open_capture key : evolves journal_le (open_capture key).
Proof. unfold open_capture. journal. Qed.
Lemma evolves_insert_capture p n kd key : evolves journal_le (insert_capture p n kd key).
Proof. unfold insert_capture, known_capture_source. journal. Qed.
Lemma evolves_decide_capture id ev p f : evolves journal_le (decide_capture id ev p f).
Proof. unfold decide_capture. journal. Qed.
Lemma evolves_sweep : evolves journal_le sweep_expired_captures.
Proof. unfold sweep_expired_captures. journal. Qed.
Lemma evolves_capture_outcome o ids f : evolves journal_le (capture_outcome o ids f).
Proof. unfold capture_outcome, capture_source_ids. journal. Qed.
Hint Resolve evolves_open_capture evolves_insert_capture evolves_decide_capture evolves_sweep
  evolves_capture_outcome : evolves.

Lemma run_capture_journal c : evolves journal_le (run_capture c).
Proof.
  destruct c; simpl; (apply evolves_bind; [apply _| |intros; apply evolves_ret, _]).
  - unfold create_capture, capture_note. journal.
  - unfold stage_capture, capture_note. journal.
  - unfold approve_capture. journal.
  - unfold dismiss_capture. journal.
  - unfold reopen_capture. journal.
  - unfold list_pending_captures, capture_dicts, get_capture. journal.
  - unfold claim_capture. journal.
  - unfold complete_capture, complete_body, check_named, validate_capture_sources, detail_item.
    journal.
Qed.

Lemma session_journal cmds w : journal_le w (session cmds w).
Proof.
  revert w. induction cmds as [|c cmds IH]; intros w; simpl; [reflexivity|].
  etrans; [apply run_capture_journal|apply IH].
Qed.

Lemma empty_inbox_wf : inbox_wf ∅.
Proof. split; intros *; rewrite lookup_empty; done. Qed.

Lemma reachable_wf cmds ticks ids :
  inbox_wf (captures (w_db (session cmds (World empty_db ticks ids)))).
Proof.
  apply (inbox_steps_wf ∅); [apply empty_inbox_wf|].
  apply (session_steps cmds (World empty_db ticks ids)).
Qed.

(** The sources a consumed row names are rows of [sources]. *)
Definition names_sources (known : gmap string source_row) (c : capture_row) : Prop :=
  ∃ s l, c_consumed_source_ids c = Some (json_text (strings_json (s :: l))) ∧
    Forall (λ i, is_Some (known !! i)) (s :: l).
(** The sources stay, and a row that becomes consumed names some of them. *)
Definition consumes (w w' : world) : Prop :=
  sources (w_db w') = sources (w_db w) ∧
  ∀ id c, captures (w_db w') !! id = Some c → c_state c = consumed →
    captures (w_db w) !! id = Some c ∨ names_sources (sources (w_db w)) c.
#[export] Instance consumes_preorder : PreOrder consumes.
Proof.
  split; [by split; [|left]|]. intros w1 w2 w3 [E1 H1] [E2 H2]. split; [congruence|].
  intros id c Hc Hs. destruct (H2 id c Hc Hs) as [Hc'|Hn]; [by apply H1|]. right. by rewrite <- E1.
Qed.
Abbreviation consuming_view d := (captures d, sources d).
Lemma consumes_same w w' :
  consuming_view (w_db w') = consuming_view (w_db w) → consumes w w'.
Proof. intros [= E1 E2]. split; [done|]. rewrite E1. by left. Qed.
Lemma consumes_insert id c f w :
  (∀ d, consuming_view (f d) = (<[id := c]> (captures d), sources d)) → c_state c ≠ consumed →
  consumes w (on_db f w).
Proof.
  intros Hf Hn. specialize (Hf (w_db w)) as [= E1 E2]. split; [done|]. simpl. rewrite E1.
  intros i c' [[_ <-] | [_ Hc]]%lookup_insert_Some Hs; [done|by left].
Qed.
Lemma consumes_update id p f :
  (∀ c, c_state (f c) ≠ consumed) → evolves consumes (update_capture id p f).
Proof.
  intros Hf. unfold update_capture.
  apply evolves_bind; [apply _|apply evolves_gets, _|intros [c|]]; [|apply evolves_ret, _].
  destruct (p c); [|apply evolves_ret, _].
  apply evolves_bind; [apply _|apply evolves_ensure, _|intros _].
  apply evolves_bind; [apply _| |intros _; apply evolves_ret, _].
  apply evolves_modify; intros w; by apply (consumes_insert id (f c)).
Qed.
Lemma consumes_reads {A} (m : Store A) : keeps w_db m → evolves consumes m.
Proof. intros Hk w. apply consumes_same. specialize (Hk w). by rewrite Hk. Qed.
Lemma consumes_ticks {A} (m : Store A) : (∀ w, w_db (end_world (m w)) = w_db w) → evolves consumes m.
Proof. exact (consumes_reads m). Qed.
Lemma consumes_audit ty i ev payload : evolves consumes (audit ty i ev payload).
Proof. by apply (view_audit (λ d, consuming_view d) consumes consumes_same). Qed.
Lemma consumes_save a o k request response code :
  evolves consumes (save_receipt a o k request response code).
Proof.
  apply (view_keeps (λ d, consuming_view d) consumes consumes_same).
  by apply (keeps_save_receipt (λ d, consuming_view d)).
Qed.
Ltac reading := repeat first
  [ solve [eauto 8 with keeps] | apply keeps_map_m; intros ? | apply keeps_bind; [|intros ?] | case_match ].
Lemma reads_capture id : keeps w_db (capture id).
Proof. unfold capture. reading. Qed.
Hint Resolve reads_capture : keeps.
Lemma reads_open key : keeps w_db (open_capture key).
Proof. unfold open_capture. reading. Qed.
Lemma reads_known key : keeps w_db (known_capture_source key).
Proof. unfold known_capture_source. reading. Qed.
Lemma reads_check_named ids : keeps w_db (check_named ids).
Proof. unfold check_named, validate_capture_sources. reading. Qed.
Lemma reads_dicts rows : keeps w_db (capture_dicts rows).
Proof. unfold capture_dicts, get_capture. reading. Qed.
Lemma reads_expect v r e : keeps w_db (expect_revision v r e).
Proof. unfold expect_revision. eauto with keeps. Qed.
Lemma reads_format t n : keeps w_db (format_after t n).
Proof. unfold format_after. eauto with keeps. Qed.
Hint Resolve reads_open reads_known reads_check_named reads_dicts reads_expect reads_format
  keeps_capture_note : keeps.
Ltac consuming := repeat first
  [ match goal with Hc : context [evolves consumes _] |- _ => apply Hc end
  | solve [apply consumes_reads; eauto 8 with keeps]
  | solve [by apply consumes_ticks]
  | apply consumes_audit
  | apply consumes_save
  | apply (view_command (λ d, consuming_view d) consumes consumes_same); [done|]
  | apply (view_transaction (λ d, consuming_view d) consumes consumes_same)
  | solve [apply consumes_update; intros ?; discriminate]
  | apply evolves_map_m; [apply _|intros ?]
  | apply evolves_bind; [apply _| |intros ?]
  | case_match ].
Lemma consumes_decide id ev p f :
  (∀ t c, c_state (f t c) ≠ consumed) → evolves consumes (decide_capture id ev p f).
Proof. intros Hf. unfold decide_capture. pose proof (λ t, consumes_update id p (f t) (Hf t)). consuming. Qed.
Lemma consumes_insert_capture p n kd key : evolves consumes (insert_capture p n kd key).
Proof.
  unfold insert_capture. consuming. intros w. by eapply consumes_insert.
Qed.
Lemma consumes_sweep : evolves consumes sweep_expired_captures.
Proof.
  unfold sweep_expired_captures. consuming. intros w. split; [done|]. simpl. intros id c Hc Hs.
  rewrite lookup_fmap in Hc. destruct (captures (w_db w) !! id) as [c0|]; [|done]. simpl in Hc.
  injection Hc as <-. left. f_equal. unfold sweep_row in *. by case_match.
Qed.
Lemma sources_update id p f : keeps (λ w, sources (w_db w)) (update_capture id p f).
Proof. unfold update_capture. reading. by intros w. Qed.
Lemma sources_complete id owner epoch outcome ids category detail :
  keeps (λ w, sources (w_db w)) (complete_body id owner epoch outcome ids category detail).
Proof.
  pose proof sources_update. assert (Hc : ∀ i, keeps (λ w, sources (w_db w)) (capture i)) by (intros; unfold capture; reading).
  unfold complete_body, check_named, validate_capture_sources. reading; first [by intros w|by apply (keeps_audit sources)].
Qed.
Lemma consumes_complete id owner epoch outcome named failure detail a k :
  evolves consumes (complete_capture id owner epoch outcome named failure detail a k).
Proof.
  unfold complete_capture. do 2 (apply evolves_bind; [apply _|by consuming|intros ?]).
  apply evolves_then; [apply _|apply consumes_reads, keeps_capture_outcome|].
  intros w [ids category] w' Ho. apply capture_outcome_ok in Ho as [_ Ho].
  apply evolves_bind; [apply _|apply consumes_reads, keeps_detail_items|intros items]. cbv zeta.
  apply (view_body (λ d, consuming_view d) consumes consumes_same); [done|].
  intros w1 v code w2 Hb. split; [exact (keeps_ok _ _ _ _ _ (sources_complete _ _ _ _ _ _ _) Hb)|].
  apply complete_body_ok in Hb as (c & t & Hc & _ & _ & Hn & -> & _).
  intros i c' [[_ <-] | [_ Hi]]%lookup_insert_Some Hs; [|by left]. right. simpl in Hs.
  destruct Ho as [(_ & _ & s & l & ->) | [(E & _) | (E & _)]]; [by exists s, l|congruence..].
Qed.
Lemma run_capture_consumes c : evolves consumes (run_capture c).
Proof.
  pose proof consumes_insert_capture. pose proof consumes_decide. pose proof consumes_sweep.
  destruct c; simpl; (apply evolves_bind; [apply _| |intros; apply evolves_ret, _]).
  - unfold create_capture. consuming.
  - unfold stage_capture. consuming.
  - unfold approve_capture. by consuming.
  - unfold dismiss_capture. by consuming.
  - unfold reopen_capture. by consuming.
  - unfold list_pending_captures. consuming.
  - unfold claim_capture. consuming.
  - apply consumes_complete.
Qed.
Lemma session_consumes cmds w : consumes w (session cmds w).
Proof.
  revert w. induction cmds as [|c cmds IH]; intros w; simpl; [reflexivity|].
  etrans; [apply run_capture_consumes|apply IH].
Qed.

(** What a claim that is not a replay does to its row. *)
Lemma claim_fresh id worker lease a k w r w' :
  claim_capture id worker lease a k w = Ok r w' → cr_replayed r = false →
  ∃ c c', captures (w_db w) !! id = Some c ∧ c_state c = approved ∧
    captures (w_db w') !! id = Some c' ∧ c_state c' = claimed ∧
    c_claim_owner c' = Some (strip worker) ∧ c_claim_epoch c' = c_claim_epoch c + 1.
Proof.
  intros [[_ ?] | (_ & c & t & e & ids & w1 & Hs & Hc & Hst & _ & Hw' & _)]%claim_ok ?;
    [congruence|].
  apply sweep_ok in Hs. rewrite Hs, lookup_fmap in Hc.
  destruct (captures (w_db w) !! id) as [c0|]; simpl in Hc; [|done]. injection Hc as <-.
  destruct (sweep_row_moves (format_time (clock (w_ticks w))) c0) as [E | Hm].
  - exists c0. rewrite E in *. eexists. rewrite Hw', lookup_insert_eq. done.
  - exfalso. destruct Hm as (_ & _ & Hrev & _). unfold sweep_row in Hst, Hrev.
    destruct (lease_expired _ c0); [done|lia].
Qed.
End Sessions.

(** ** The commands honour the idempotency contract *)

Section Contract.
Context `{Env} `{UrlChecks}.

#[export] Instance approve_replayable id n a k :
  Replayable (approve_capture id n a k) (a, capture_path id "approve", k).
Proof.
  apply command_replayable. intros w v code w1 Hb. mcase; cfacts.
  match goal with Hd : decide_capture _ _ _ _ _ = _ |- _ => apply decide_capture_ok in Hd end.
  naive_solver.
Qed.
#[export] Instance dismiss_replayable id n a k :
  Replayable (dismiss_capture id n a k) (a, capture_path id "dismiss", k).
Proof.
  apply command_replayable. intros w v code w1 Hb. mcase; cfacts.
  match goal with Hd : decide_capture _ _ _ _ _ = _ |- _ => apply decide_capture_ok in Hd end.
  naive_solver.
Qed.
#[export] Instance reopen_replayable id n ack a k :
  Replayable (reopen_capture id n ack a k) (a, capture_path id "reopen", k).
Proof.
  apply replayable_checked; [apply pure_ensure|intros _].
  apply command_replayable. intros w v code w1 Hb. mcase; cfacts.
  match goal with Hd : decide_capture _ _ _ _ _ = _ |- _ => apply decide_capture_ok in Hd end.
  naive_solver.
Qed.
#[export] Instance create_replayable payload note a k :
  Replayable (create_capture payload note a k) (a, "POST:/api/v1/captures", k).
Proof.
  unfold create_capture, capture_note.
  apply replayable_checked; [eauto with pure|intros _].
  apply replayable_checked; [eauto with pure|intros n].
  destruct (capture_shape (strip payload)) as [kind key].
  apply command_replayable. intros w v code w1 Hb. mgo. mcase_step; mgo; simplify_eq.
  match goal with Hd : insert_capture _ _ _ _ _ = _ |- _ => apply insert_capture_ok in Hd end.
  naive_solver.
Qed.
#[export] Instance complete_replayable id o e oc n f d a k :
  Replayable (complete_capture id o e oc n f d a k) (a, internal_path id "complete", k).
Proof.
  unfold complete_capture, capture_outcome, capture_source_ids, detail_item.
  apply replayable_checked; [eauto with pure|intros owner].
  apply replayable_checked; [eauto with pure|intros _].
  apply replayable_checked; [repeat case_match; eauto 10 with pure|intros [ids category]].
  apply replayable_checked; [eauto 10 with pure|intros items].
  apply command_replayable. intros w v code w1 Hb.
  apply complete_body_ok in Hb. naive_solver.
Qed.
End Contract.
