(* ===== verification/InboxPages.v ===== *)
(** * Reading the inbox

    Following [list_captures] page by page, and the reading of the audit trail
    that names what blocks a capture. *)

From S2P Require Import Prelude PyText Clock Json Schema Store CaptureKey Captures CaptureFacts Demo.
Open Scope Z_scope.

(** ** Cursor pages *)

Definition row_key (x : string * capture_row) : string * string := (c_created_at x.2, x.1).

(** A tail of a list sorted by distinct keys is what lies strictly after its
    predecessor. *)
Lemma filter_after {A} (key : A → string * string) (l1 l2 : list A) a :
  StronglySorted (λ x y, pair_le (key x) (key y) = true) (l1 ++ a :: l2) →
  NoDup (key <$> l1 ++ a :: l2) →
  List.filter (λ x, negb (pair_le (key x) (key a))) (l1 ++ a :: l2) = l2.
Proof.
  intros Hs Hnd. induction l1 as [|b l1 IH]; simpl in *.
  - inversion Hs as [|? ? _ Ha]; subst. inversion Hnd as [|? ? Hna _]; subst.
    rewrite pair_le_refl. simpl. clear -Ha Hna. induction l2 as [|x l2 IH]; simpl in *; [done|].
    inversion Ha as [|? ? Hx Ha']; subst. apply not_elem_of_cons in Hna as [Hne Hna].
    destruct (pair_le (key x) (key a)) eqn:E; simpl; [|by rewrite IH].
    exfalso. by apply Hne, pair_le_antisym.
  - inversion Hs as [|? ? Hs' Hb]; subst. inversion Hnd; subst.
    rewrite List.Forall_forall in Hb.
    assert (pair_le (key b) (key a) = true) as -> by (apply Hb, in_or_app; right; left; done).
    simpl. by apply IH.
Qed.

Lemma captures_where_sorted p d :
  StronglySorted (λ x y, pair_le (row_key x) (row_key y) = true) (captures_where p d).
Proof.
  apply (isort_sorted capture_le).
  - intros a b. apply pair_le_total.
  - intros a b c. apply pair_le_trans.
Qed.
Lemma captures_where_NoDup p d : NoDup (captures_where p d).*1.
Proof.
  unfold captures_where. rewrite isort_perm.
  pose proof (NoDup_fst_map_to_list (captures d)) as Hn.
  induction (map_to_list (captures d)) as [|x l IH]; simpl in *; [constructor|].
  inversion Hn as [|? ? Hx Hl]; subst. destruct (p x.2); [|auto]. simpl. constructor; [|auto].
  intros Hin. apply Hx. apply list_elem_of_fmap in Hin as (y & -> & Hy).
  apply list_elem_of_In, List.filter_In in Hy as [Hy _].
  apply list_elem_of_fmap. exists y. by rewrite list_elem_of_In.
Qed.

Definition in_state (state : option capture_state) (c : capture_row) : bool :=
  match state with None => true | Some s => bool_decide (c_state c = s) end.

Lemma page_rows_start state d : page_rows state None d = captures_where (in_state state) d.
Proof.
  unfold page_rows. simpl. fold (in_state state). induction (captures_where _ d); simpl; congruence.
Qed.

Lemma page_rows_after state d l1 id c l2 :
  captures_where (in_state state) d = l1 ++ (id, c) :: l2 →
  page_rows state (Some (c_created_at c, id)) d = l2.
Proof.
  intros E. unfold page_rows. fold (in_state state). rewrite E.
  apply (filter_after row_key l1 l2 (id, c)); rewrite <- E; [apply captures_where_sorted|].
  apply (NoDup_fmap_1 snd). rewrite <- list_fmap_compose. apply captures_where_NoDup.
Qed.

(** A position in the listing: the rows still to come. *)
Definition rows_left (state : option capture_state) (d : db) (cursor : option string)
    (rows : list (string * capture_row)) : Prop :=
  match cursor with
  | None => rows = captures_where (in_state state) d
  | Some id => ∃ l1 c, captures_where (in_state state) d = l1 ++ (id, c) :: rows
  end.

Section Pages.
Context `{Env} `{UrlChecks}.

(** The client that follows the cursors. *)
Fixpoint read_pages (fuel : nat) (state : option capture_state) (limit : Z)
    (cursor : option string) : Store (list json) :=
  match fuel with
  | O => raise (RuntimeError "no fuel")
  | S fuel' =>
      '(items, next) ← list_captures state limit cursor;
      match next with
      | None => mret items
      | Some c => rest ← read_pages fuel' state limit (Some c); mret (items ++ rest)
      end
  end.

(** A well-formed row is read as its dictionary. *)
Definition row_dict (x : string * capture_row) : json :=
  capture_json x.1 x.2
    match c_consumed_source_ids x.2 with
    | Some s => default JNull (loads s)
    | None => JNull
    end.

Lemma strings_json_ok l : json_ok (strings_json l) = true.
Proof.
  unfold json_ok, strings_json. simpl. induction l as [|s l IH]; [done|].
  apply andb_true_iff in IH as [H1 H2]. simpl. by rewrite H1, H2.
Qed.
Lemma loads_strings l : loads (json_text (strings_json l)) = Some (canon (strings_json l)).
Proof. apply loads_dumps_ok, strings_json_ok. Qed.
Lemma json_text_strings_nonempty l : String.eqb (json_text (strings_json l)) "" = false.
Proof. done. Qed.

Lemma capture_total id w c :
  captures (w_db w) !! id = Some c → row_wf c → capture id w = Ok (c, row_dict (id, c)) w.
Proof.
  intros Hc (_ & _ & _ & _ & Hids & _). unfold capture, row_dict, query, gets, from_option,
    mbind, M_bind, mret, M_ret. rewrite Hc. simpl.
  assert (c_consumed_source_ids c = None ∨
    ∃ l, c_consumed_source_ids c = Some (json_text (strings_json l))) as [-> | [l ->]].
  { destruct (c_state c); naive_solver. }
  - done.
  - rewrite json_text_strings_nonempty. unfold json_loads. by rewrite loads_strings.
Qed.

Lemma capture_dicts_total rows w :
  (∀ id c, (id, c) ∈ rows → captures (w_db w) !! id = Some c ∧ row_wf c) →
  capture_dicts rows w = Ok (map row_dict rows) w.
Proof.
  induction rows as [|[id c] rows IH]; intros Hr; [done|].
  destruct (Hr id c) as [Hc Hwf]; [by left|].
  assert (get_capture id w = Ok (row_dict (id, c)) w) as Hg.
  { unfold get_capture, mbind, M_bind. by rewrite (capture_total _ _ _ Hc Hwf). }
  unfold capture_dicts in *. simpl. unfold mbind at 1, M_bind. rewrite Hg.
  unfold mbind, M_bind. rewrite IH; [done|]. intros i r Hi. apply Hr. by right.
Qed.

(** One page: the next [limit] rows, and a cursor exactly when rows remain. *)
Lemma list_captures_page state limit cursor rows w :
  limit_ok limit = true → inbox_wf (captures (w_db w)) →
  rows_left state (w_db w) cursor rows →
  list_captures state limit cursor w =
    Ok (map row_dict (take (Z.to_nat limit) rows),
        if limit <? Z.of_nat (length rows) then fst <$> last (take (Z.to_nat limit) rows)
        else None) w.
Proof.
  intros Hl [Hwf _] Hrows.
  assert (∀ id c, (id, c) ∈ rows → (id, c) ∈ captures_where (in_state state) (w_db w)) as Hin.
  { intros id c Hi. destruct cursor as [cur|]; simpl in Hrows; [|congruence].
    destruct Hrows as (l1 & c1 & ->). apply elem_of_app. right. by right. }
  assert (capture_dicts (take (Z.to_nat limit) rows) w =
    Ok (map row_dict (take (Z.to_nat limit) rows)) w) as Hd.
  { apply capture_dicts_total. intros id c Hi. apply elem_of_take in Hi as (i & Hi & _).
    apply list_elem_of_lookup_2, Hin, captures_where_elem in Hi as [Hi _]. eauto. }
  assert (∀ pos, page_rows state pos (w_db w) = rows →
    (rows ← query (λ d, take (Z.to_nat (limit + 1)) (page_rows state pos d));
     let has_more := limit <? Z.of_nat (length rows) in
     let page := take (Z.to_nat limit) rows in
     items ← capture_dicts page;
     mret (items, if has_more then fst <$> last page else None)) w =
    Ok (map row_dict (take (Z.to_nat limit) rows),
        if limit <? Z.of_nat (length rows) then fst <$> last (take (Z.to_nat limit) rows)
        else None) w) as Hpage.
  { intros pos Hpos. unfold query, gets, mbind, M_bind, mret, M_ret. simpl.
    unfold limit_ok in Hl.
    rewrite Hpos, take_take, Nat.min_l, Hd, length_take by lia.
    repeat f_equal. destruct (Z.ltb_spec limit (Z.of_nat (length rows))),
      (Z.ltb_spec limit (Z.of_nat (Nat.min (Z.to_nat (limit + 1)) (length rows)))); done || lia. }
  unfold list_captures. unfold mbind at 1, M_bind, ensure. rewrite Hl. simpl.
  destruct cursor as [id|]; simpl in Hrows.
  - destruct Hrows as (l1 & c & Hrows).
    assert (captures (w_db w) !! id = Some c) as Hc.
    { apply (captures_where_elem (in_state state)). rewrite Hrows. apply elem_of_app.
      right. by left. }
    specialize (Hpage (Some (c_created_at c, id)) (page_rows_after _ _ _ _ _ _ Hrows)).
    unfold mbind at 1, M_bind. unfold mbind at 1, M_bind, query, gets, mret, M_ret.
    unfold mbind at 1, M_bind. rewrite Hc. exact Hpage.
  - specialize (Hpage None). rewrite page_rows_start in Hpage. exact (Hpage (eq_sym Hrows)).
Qed.

Lemma rows_left_next state d cursor rows n id c :
  rows_left state d cursor rows → last (take n rows) = Some (id, c) →
  rows_left state d (Some id) (drop n rows).
Proof.
  intros Hr Hl. apply last_Some in Hl as [l1 Hl]. simpl.
  rewrite <- (take_drop n rows) in Hr. rewrite Hl in Hr.
  destruct cursor as [cur|]; simpl in Hr.
  - destruct Hr as (l0 & c0 & ->). exists (l0 ++ (cur, c0) :: l1), c.
    rewrite <- !List.app_assoc. simpl. done.
  - exists l1, c. by rewrite <- Hr, <- List.app_assoc.
Qed.

Lemma read_pages_ok fuel state limit cursor rows w :
  limit_ok limit = true → inbox_wf (captures (w_db w)) →
  rows_left state (w_db w) cursor rows → (length rows < fuel)%nat →
  read_pages fuel state limit cursor w = Ok (map row_dict rows) w.
Proof.
  intros Hl Hwf. revert cursor rows.
  induction fuel as [|fuel IH]; intros cursor rows Hrows Hf; [lia|]. simpl.
  unfold mbind at 1, M_bind. rewrite (list_captures_page _ _ _ rows) by done.
  pose proof Hl as Hl'. unfold limit_ok in Hl'.
  destruct (Z.ltb_spec limit (Z.of_nat (length rows))).
  - destruct (last (take (Z.to_nat limit) rows)) as [[id c]|] eqn:Hlast.
    + simpl. unfold mbind, M_bind. rewrite (IH (Some id) (drop (Z.to_nat limit) rows)).
      * unfold mret, M_ret. by rewrite <- map_app, take_drop.
      * by eapply rows_left_next.
      * rewrite length_drop. lia.
    + apply last_None in Hlast. apply (f_equal length) in Hlast.
      rewrite length_take in Hlast. simpl in Hlast. lia.
  - rewrite take_ge by lia. done.
Qed.
End Pages.

(** ** What blocks a capture *)

(** The text an audit row names as blocking, if it names one. *)
Definition blocker (r : audit_row) : option string :=
  match loads (au_payload_json r) with
  | Some v =>
      match jget "blocked_by" v with
      | Some (JStr b) => if String.eqb b "" then None else Some b
      | _ => None
      end
  | None => None
  end.
Definition payload_object (r : audit_row) : Prop :=
  ∃ kvs, loads (au_payload_json r) = Some (JObj kvs).
Definition payload_is_object (r : audit_row) : bool :=
  match loads (au_payload_json r) with Some (JObj _) => true | _ => false end.
Lemma payload_objects rows : forallb payload_is_object rows = true → Forall payload_object rows.
Proof.
  rewrite List.forallb_forall, List.Forall_forall. intros H r Hr. specialize (H r Hr).
  unfold payload_is_object, payload_object in *. repeat case_match; naive_solver.
Qed.
Definition newest (id : string) (rows : list audit_row) : option audit_row :=
  last (List.filter (λ r, String.eqb (au_aggregate_id r) id) rows).

Section Blocked.
Context `{Env} `{UrlChecks}.

Lemma blocked_step_ok acc r w :
  payload_object r →
  ∃ m, blocked_step acc r w = Ok m w ∧ m !! au_aggregate_id r = blocker r ∧
    ∀ i, i ≠ au_aggregate_id r → m !! i = acc !! i.
Proof.
  intros [kvs Hv]. unfold blocked_step, blocker, json_loads, mbind, M_bind. rewrite Hv. simpl.
  assert (∀ b, (<[au_aggregate_id r := b]> acc) !! au_aggregate_id r = Some b ∧
    ∀ i, i ≠ au_aggregate_id r → <[au_aggregate_id r := b]> acc !! i = acc !! i) as Hins.
  { intros b. split; [apply lookup_insert_eq|]. intros i Hi. by rewrite lookup_insert_ne. }
  assert (delete (au_aggregate_id r) acc !! au_aggregate_id r = None ∧
    ∀ i, i ≠ au_aggregate_id r → delete (au_aggregate_id r) acc !! i = acc !! i) as Hdel.
  { split; [apply lookup_delete_eq|]. intros i Hi. by rewrite lookup_delete_ne. }
  repeat case_match; eexists; (split; [reflexivity|]); auto.
Qed.

Lemma fold_blocked_ok acc rows w :
  Forall payload_object rows →
  ∃ m, fold_blocked acc rows w = Ok m w ∧
    ∀ i, m !! i = match newest i rows with Some r => blocker r | None => acc !! i end.
Proof.
  intros Hrows. revert acc. induction Hrows as [|r rows Hr _ IH]; intros acc.
  - by exists acc.
  - destruct (blocked_step_ok acc r w Hr) as (m1 & Hm1 & Hat & Hoff).
    destruct (IH m1) as (m & Hm & Hget). exists m. split.
    + simpl. unfold mbind, M_bind. by rewrite Hm1.
    + intros i. rewrite Hget. unfold newest. simpl.
      destruct (String.eqb_spec (au_aggregate_id r) i) as [<- | Hne].
      * rewrite last_cons. destruct (last (List.filter _ rows)); [done|]. by rewrite Hat.
      * destruct (last (List.filter _ rows)); [done|]. apply Hoff. congruence.
Qed.

Lemma newest_filter id ids rows :
  member id ids = true →
  newest id (List.filter (uncertain_row ids) rows) =
  last (List.filter (uncertain_row [id]) rows).
Proof.
  intros Hid. unfold newest. f_equal. rewrite filter_filter. apply filter_ext_bool.
  intros r. unfold uncertain_row, member in *. simpl.
  destruct (String.eqb_spec (au_aggregate_id r) id) as [-> | Hne]; simpl; [rewrite Hid|];
    by rewrite ?andb_true_r, ?andb_false_r.
Qed.
End Blocked.
