(* ===== verification/InboxTheorems.v ===== *)
(** * The capture inbox: its theorems

    What an operator and a consumer may rely on, each with an instance. *)

From S2P Require Import Prelude PyText Clock Json Schema Store CaptureKey Demo Captures CaptureFacts CaptureInbox InboxPages.
Open Scope Z_scope.

(** ** A session to instantiate the theorems with *)

Definition demo_key (n : Z) : string := "idempotency-key-" +:+ dec n.
Definition demo_create : capture_command :=
  CreateCapture " https://ArXiv.org/abs/1" "" "operator" (demo_key 1).
Definition demo_id : string := "capture-0".
Definition demo_approve : capture_command :=
  ApproveCapture demo_id 0 "operator" (demo_key 2).
Definition demo_claim : capture_command :=
  ClaimCapture demo_id "worker" 60 "consumer" (demo_key 3).
Definition demo_fail : capture_command :=
  CompleteCapture demo_id "worker" 1 "failed" None (Some "invalid_source") [] "consumer"
    (demo_key 4).
Definition demo_uncertain : capture_command :=
  CompleteCapture demo_id "worker" 1 "uncertain" None (Some "carrier_thread_busy")
    [("blocked_by", "run-7")] "consumer" (demo_key 4).
Definition demo_reopen : capture_command :=
  ReopenCapture demo_id 3 true "operator" (demo_key 5).
Definition demo_reclaim : capture_command :=
  ClaimCapture demo_id "worker" 60 "consumer" (demo_key 6).
Definition demo_after (cmds : list capture_command) : world := session cmds demo_world.
Definition demo_row (w : world) : capture_row :=
  default (CaptureRow "" "" kind_text "" pending None 0 None None None None 0 "" "")
    (captures (w_db w) !! demo_id).

Example demo_states :
  (λ cmds, c_state (demo_row (demo_after cmds))) <$>
  [[demo_create]; [demo_create; demo_approve]; [demo_create; demo_approve; demo_claim];
   [demo_create; demo_approve; demo_claim; demo_fail];
   [demo_create; demo_approve; demo_claim; demo_uncertain];
   [demo_create; demo_approve; demo_claim; demo_uncertain; demo_reopen; demo_reclaim]]
  = [pending; approved; claimed; failed; uncertain; claimed].
Proof. vm_compute. reflexivity. Qed.

(** ** Refinement and invariant *)

(** C4: whatever commands arrive, in whatever order, answered or refused, the
    [captures] table only ever takes the steps of the abstract inbox: a fresh
    pending row under a key with no open row, or rows moving along the arrows
    of the capture state machine. *)
Theorem inbox_refines `{Env} `{UrlChecks} cmds w :
  rtc inbox_step (captures (w_db w)) (captures (w_db (session cmds w))).
Proof. apply session_steps. Qed.

(** C16: from an empty inbox, beside any other tables, every reachable table is well
    formed: a claim owner and a lease exactly on claimed rows, a readable list of sources
    exactly on consumed rows, a listed failure category exactly where one belongs, and at
    most one open capture per key; and the sources a consumed row names are rows of
    [sources]. *)
Theorem inbox_invariant `{Env} `{UrlChecks} cmds w :
  captures (w_db w) = ∅ →
  let d := w_db (session cmds w) in
  inbox_wf (captures d) ∧
  ∀ id c, captures d !! id = Some c → c_state c = consumed → names_sources (sources d) c.
Proof.
  intros He d. split.
  - apply (inbox_steps_wf ∅); [apply empty_inbox_wf|]. rewrite <- He. apply session_steps.
  - intros id c Hc Hs. destruct (session_consumes cmds w) as [Es Hn]. unfold d. rewrite Es.
    destruct (Hn id c Hc Hs) as [Hold|?]; [|done]. by rewrite He in Hold.
Qed.

(** A store with a source, and a capture that is answered with it. *)
Definition demo_sourced : world := World (set_sources <["src-1" := SourceRow "arxiv:1"]> empty_db) 0 0.
Definition demo_consume : list capture_command :=
  [demo_create; demo_approve; demo_claim;
   CompleteCapture demo_id "worker" 1 "consumed" (Some ["src-1"]) None [] "consumer" (demo_key 4)].
Lemma demo_consumed :
  c_state <$> captures (w_db (session demo_consume demo_sourced)) !! demo_id = Some consumed.
Proof. vm_compute. reflexivity. Qed.
Lemma inbox_invariant_witness :
  match captures (w_db (session demo_consume demo_sourced)) !! demo_id with
  | Some c => row_wf c ∧ names_sources (sources (w_db (session demo_consume demo_sourced))) c
  | None => False
  end.
Proof.
  destruct (inbox_invariant demo_consume demo_sourced eq_refl) as [[Hw _] Hn].
  pose proof demo_consumed as Hs.
  destruct (captures (w_db (session demo_consume demo_sourced)) !! demo_id) as [c|] eqn:Hc; [|discriminate].
  injection Hs as Hs. exact (conj (Hw _ _ Hc) (Hn _ _ Hc Hs)).
Defined.

(** A consumed, dismissed or failed capture is final: no later command
    changes any column of its row, or deletes it. *)
Theorem inbox_terminal_final `{Env} `{UrlChecks} cmds w id c :
  captures (w_db w) !! id = Some c → capture_terminal (c_state c) = true →
  captures (w_db (session cmds w)) !! id = Some c.
Proof. apply inbox_steps_terminal, session_steps. Qed.

Lemma inbox_terminal_final_witness :
  let w := demo_after [demo_create; demo_approve; demo_claim; demo_fail] in
  captures (w_db (session [demo_approve; demo_reopen; demo_claim] w)) !! demo_id
  = Some (demo_row w).
Proof.
  apply (inbox_terminal_final [demo_approve; demo_reopen; demo_claim]
    (demo_after [demo_create; demo_approve; demo_claim; demo_fail]) demo_id);
    vm_compute; reflexivity.
Defined.

(** ** The consumer's fence *)

(** A consumer whose claim is no longer the row's claim cannot complete it:
    once anything has happened to the row after the claim, a completion under
    the claim's owner and epoch either answers from the receipt of a completion
    it already made or is refused, and a refusal changes nothing. *)
Theorem stale_completion_refused `{Env} `{UrlChecks} cmds w id c c' owner outcome named
    failure detail actor key :
  captures (w_db w) !! id = Some c → c_state c = claimed →
  captures (w_db (session cmds w)) !! id = Some c' → c' ≠ c →
  match complete_capture id owner (c_claim_epoch c) outcome named failure detail actor key
          (session cmds w) with
  | Ok r w' => cr_replayed r = true ∧ w' = session cmds w
  | Err _ w' => w_db w' = w_db (session cmds w)
  end.
Proof.
  intros Hc Hst Hc' Hne.
  destruct (complete_capture _ _ _ _ _ _ _ _ _ _) as [r w'|e w'] eqn:Hr.
  - apply complete_ok in Hr as (ids & cat & items & _ & _ & Hr). rewrite command_ok in Hr.
    destruct Hr as [_ Hr]. destruct (idempotency_receipts _ !! _); [naive_solver|].
    exfalso. destruct Hr as (v & code & w1 & Hb & _).
    apply complete_body_ok in Hb as (r0 & t & Hr0 & Hf & _). rewrite Hc' in Hr0. simplify_eq.
    unfold claim_fence in Hf. rewrite !andb_true_iff, !bool_decide_eq_true, Z.eqb_eq in Hf.
    destruct (inbox_steps_row _ _ _ _ (session_steps cmds w) Hc) as (r1 & Hr1 & Hl).
    rewrite Hc' in Hr1. simplify_eq. apply Hne, Hl; tauto.
  - apply (run_capture_atomic
      (CompleteCapture id owner (c_claim_epoch c) outcome named failure detail actor key)
      (session cmds w) e w').
    simpl. unfold mbind, M_bind. by rewrite Hr.
Qed.

Lemma stale_completion_refused_witness :
  let w := demo_after [demo_create; demo_approve; demo_claim] in
  match complete_capture demo_id "worker" (c_claim_epoch (demo_row w)) "failed" None
          (Some "invalid_source") [] "consumer" (demo_key 9)
          (session [demo_uncertain; demo_reopen; demo_reclaim] w) with
  | Ok r w' => cr_replayed r = true ∧ w' = session [demo_uncertain; demo_reopen; demo_reclaim] w
  | Err _ w' => w_db w' = w_db (session [demo_uncertain; demo_reopen; demo_reclaim] w)
  end.
Proof.
  apply (stale_completion_refused [demo_uncertain; demo_reopen; demo_reclaim]
    (demo_after [demo_create; demo_approve; demo_claim]) demo_id
    (demo_row (demo_after [demo_create; demo_approve; demo_claim]))
    (demo_row (demo_after [demo_create; demo_approve; demo_claim; demo_uncertain; demo_reopen;
       demo_reclaim]))); try (vm_compute; reflexivity).
  vm_compute. discriminate.
Defined.

(** Claims never overlap and work is never redelivered: a claim that is not
    a replay takes an approved row, whatever leases have expired, and any two of
    them on one capture carry different epochs, the later one the larger. *)
Theorem claims_are_exclusive `{Env} `{UrlChecks} id worker lease actor key worker' lease'
    actor' key' w r w1 cmds r' w2 :
  claim_capture id worker lease actor key w = Ok r w1 → cr_replayed r = false →
  claim_capture id worker' lease' actor' key' (session cmds w1) = Ok r' w2 →
  cr_replayed r' = false →
  ∃ c c1 c2, captures (w_db w) !! id = Some c ∧ c_state c = approved ∧
    captures (w_db w1) !! id = Some c1 ∧ c_state c1 = claimed ∧
    captures (w_db w2) !! id = Some c2 ∧ c_state c2 = claimed ∧
    c_claim_epoch c < c_claim_epoch c1 < c_claim_epoch c2.
Proof.
  intros H1 Hr H2 Hr'.
  apply claim_fresh in H1 as (c & c1 & Hc & Hst & Hc1 & Hst1 & _ & He1); [|done].
  apply claim_fresh in H2 as (d & c2 & Hd & Hstd & Hc2 & Hst2 & _ & He2); [|done].
  exists c, c1, c2. split_and!; try done; [lia|].
  destruct (inbox_steps_row _ _ _ _ (session_steps cmds w1) Hc1) as (d' & Hd' & Hl).
  rewrite Hd in Hd'. simplify_eq. destruct Hl as (_ & _ & Hle & _). lia.
Qed.

Abbreviation demo_w0 := (demo_after [demo_create; demo_approve]).
Abbreviation demo_first :=
  (claim_capture demo_id "worker" 60 "consumer" (demo_key 3) demo_w0).
Abbreviation demo_w1 := (end_world demo_first).
Abbreviation demo_second :=
  (claim_capture demo_id "other" 30 "consumer" (demo_key 6)
    (session [demo_uncertain; demo_reopen] demo_w1)).
Lemma claims_are_exclusive_witness :
  ∃ c d e, captures (w_db demo_w0) !! demo_id = Some c ∧ c_state c = approved ∧
    captures (w_db demo_w1) !! demo_id = Some d ∧ c_state d = claimed ∧
    captures (w_db (end_world demo_second)) !! demo_id = Some e ∧ c_state e = claimed ∧
    c_claim_epoch c < c_claim_epoch d < c_claim_epoch e.
Proof.
  assert (is_ok demo_first = true) as A1 by (vm_compute; reflexivity).
  assert (is_ok demo_second = true) as A2 by (vm_compute; reflexivity).
  assert (cr_replayed (answer no_result demo_first) = false) as A3 by (vm_compute; reflexivity).
  assert (cr_replayed (answer no_result demo_second) = false) as A4 by (vm_compute; reflexivity).
  pose proof (answered no_result demo_first A1) as B1.
  pose proof (answered no_result demo_second A2) as B2.
  exact (claims_are_exclusive _ _ _ _ _ _ _ _ _ _ _ _ _ _ _ B1 A3 B2 A4).
Defined.

(** ** Retries *)

(** The receipt a command files, for the commands whose saved answer is given
    back unconditionally. *)
Definition filed_call `{Env} `{UrlChecks} (c : capture_command) :
    option (receipt_key * M world exc command_result) :=
  match c with
  | CreateCapture p n a k => Some ((a, "POST:/api/v1/captures", k), create_capture p n a k)
  | ApproveCapture i r a k => Some ((a, capture_path i "approve", k), approve_capture i r a k)
  | DismissCapture i r a k => Some ((a, capture_path i "dismiss", k), dismiss_capture i r a k)
  | ReopenCapture i r ack a k =>
      Some ((a, capture_path i "reopen", k), reopen_capture i r ack a k)
  | CompleteCapture i o e oc n f d a k =>
      Some ((a, internal_path i "complete", k), complete_capture i o e oc n f d a k)
  | _ => None
  end.

(** C17: retries are harmless: once a create, approve, dismiss, reopen or
    complete has committed, sending it again any number of times, after any
    other commands, gives the first answer back each time, marked as replayed,
    and changes nothing at all. *)
Theorem inbox_retry_storm `{Env} `{UrlChecks} c key call w r w1 cmds n :
  filed_call c = Some (key, call) → call w = Ok r w1 → cr_replayed r = false →
  retry n call (session cmds w1) =
    Ok (replicate n (CommandResult (canon (cr_value r)) (cr_status_code r) true))
       (session cmds w1).
Proof.
  intros Hf Hc Hr. assert (Replayable call key) as Hrep.
  { destruct c; cbn [filed_call] in Hf; try discriminate Hf; injection Hf as <- <-;
      auto using create_replayable, approve_replayable, dismiss_replayable, reopen_replayable,
        complete_replayable. }
  exact (retry_replays call key w r w1 _ n Hc Hr (session_journal cmds w1)).
Qed.

Abbreviation demo_created :=
  (create_capture " https://ArXiv.org/abs/1" "" "operator" (demo_key 1) demo_world).
Lemma inbox_retry_storm_witness :
  retry 3 (create_capture " https://ArXiv.org/abs/1" "" "operator" (demo_key 1))
    (session [demo_approve; demo_claim] (end_world demo_created))
  = Ok (replicate 3 (CommandResult (canon (cr_value (answer no_result demo_created)))
          (cr_status_code (answer no_result demo_created)) true))
       (session [demo_approve; demo_claim] (end_world demo_created)).
Proof.
  assert (is_ok demo_created = true) as A by (vm_compute; reflexivity).
  assert (cr_replayed (answer no_result demo_created) = false) as B by (vm_compute; reflexivity).
  pose proof (answered no_result demo_created A) as C.
  exact (inbox_retry_storm demo_create (_, _) _ _ _ _ _ 3 eq_refl C B).
Defined.

(** A claim's receipt, unlike the others, is good only while the claim
    holds: repeating a claim answers the saved claim when the row is still
    claimed by this worker under the saved epoch, and otherwise is refused as
    stale; either way nothing changes. *)
Theorem claim_receipt_expires `{Env} `{UrlChecks} id worker lease actor key w row v c :
  strip worker ≠ "" → slen worker <= 200 → 1 <= lease <= 3600 → key_ok key = true →
  idempotency_receipts (w_db w) !! (actor, internal_path id "claim", key) = Some row →
  rc_request_hash row =
    request_hash (JObj [("worker_id", JStr (strip worker)); ("lease_seconds", JInt lease)]) →
  loads (rc_response_json row) = Some v →
  captures (w_db w) !! id = Some c → row_wf c →
  claim_capture id worker lease actor key w =
    if bool_decide (c_state c = claimed) && bool_decide (c_claim_owner c = Some (strip worker))
       && match jget "claim_epoch" v with Some (JInt n) => n =? c_claim_epoch c | _ => false end
    then Ok (CommandResult v (rc_status_code row) true) w
    else Err (InvalidTransition "stale_claim_receipt" "claimed") w.
Proof.
  intros Hw1 Hw2 Hl Hk Hrow Hh Hv Hc Hwf.
  assert (receipt actor (internal_path id "claim") key
    (JObj [("worker_id", JStr (strip worker)); ("lease_seconds", JInt lease)]) w =
    Ok (Some (CommandResult v (rc_status_code row) true)) w) as Hrec.
  { apply receipt_ok. split; [done|]. split; [done|]. rewrite Hrow. eauto. }
  unfold claim_capture.
  rewrite (bind_run _ _ _ (strip worker) w) by (by apply required_text_ok).
  rewrite (bind_run _ _ _ tt w) by (apply ensure_ok; split_and!; [lia|done|done]).
  cbv zeta. unfold transaction. rewrite (bind_run _ _ _ _ _ Hrec).
  rewrite (bind_run _ _ _ _ _ (capture_total _ _ _ Hc Hwf)). cbn [cr_value].
  destruct (_ && _ && _); [done|]. by destruct w.
Qed.

Abbreviation demo_claimed := (demo_after [demo_create; demo_approve; demo_claim]).
Definition demo_receipt (key : receipt_key) (w : world) : receipt_row :=
  default (ReceiptRow "" 0 "" "") (idempotency_receipts (w_db w) !! key).
Abbreviation demo_claim_receipt :=
  (demo_receipt ("consumer", internal_path demo_id "claim", demo_key 3) demo_claimed).
Lemma claim_receipt_expires_witness :
  is_ok (claim_capture demo_id "worker" 60 "consumer" (demo_key 3) demo_claimed) = true.
Proof.
  rewrite (claim_receipt_expires demo_id "worker" 60 "consumer" (demo_key 3) demo_claimed
    demo_claim_receipt (default JNull (loads (rc_response_json demo_claim_receipt)))
    (demo_row demo_claimed)); try (vm_compute; (reflexivity || discriminate)); [lia|].
  eapply (proj1 (reachable_wf [demo_create; demo_approve; demo_claim] 0 0) demo_id).
  vm_compute. reflexivity.
Defined.

(** ** Submissions *)

(** The capture a key is open under, whichever page it would be on. *)
Lemma open_capture_total `{Env} `{UrlChecks} key w id c :
  inbox_wf (captures (w_db w)) → captures (w_db w) !! id = Some c → c_key c = key →
  capture_open (c_state c) = true →
  open_capture key w = Ok (Some (row_dict (id, c))) w.
Proof.
  intros [Hwf Hone] Hc Hk Ho. unfold open_capture.
  set (p := λ c0 : capture_row, String.eqb (c_key c0) key && capture_open (c_state c0)).
  rewrite (bind_run _ _ _ (captures_where p (w_db w)) w) by (by apply query_ok).
  assert ((id, c) ∈ captures_where p (w_db w)) as Hin.
  { apply captures_where_elem. subst p. simpl. by rewrite Hk, String.eqb_refl, Ho. }
  destruct (captures_where p (w_db w)) as [|[i d] rows] eqn:E.
  { by apply not_elem_of_nil in Hin. }
  assert ((i, d) ∈ captures_where p (w_db w)) as Hd by (rewrite E; by left).
  apply captures_where_elem in Hd as [Hd [Hdk%String.eqb_eq Hdo]%andb_true_iff].
  assert (i = id) as -> by (eapply Hone; [exact Hd|exact Hc|congruence|done|done]).
  rewrite Hc in Hd. injection Hd as <-.
  rewrite (bind_run _ _ _ _ _ (capture_total _ _ _ Hc (Hwf _ _ Hc))). done.
Qed.

(** A submission whose key is still open is refused with exactly the open
    capture of that key, and stores nothing: not even a receipt. *)
Theorem duplicate_submission_refused `{Env} `{UrlChecks} payload note actor key w id c :
  strip payload ≠ "" → slen payload <= 16384 → slen note <= 2000 → key_ok key = true →
  idempotency_receipts (w_db w) !! (actor, "POST:/api/v1/captures", key) = None →
  inbox_wf (captures (w_db w)) → captures (w_db w) !! id = Some c →
  c_key c = (capture_shape (strip payload)).2 → capture_open (c_state c) = true →
  create_capture payload note actor key w = Err (CaptureConflict (row_dict (id, c))) w.
Proof.
  intros Hp Hpl Hn Hk Hrec Hwf Hc Hck Ho. unfold create_capture, capture_note.
  rewrite (bind_run _ _ _ (strip payload) w) by (by apply required_text_ok).
  rewrite (bind_run _ _ _ note w).
  2: { apply bind_ok. exists tt, w. split; [apply ensure_ok; split_and!; [lia|done|done]|done]. }
  destruct (capture_shape (strip payload)) as [kind ckey]. unfold command, transaction.
  rewrite (bind_run _ _ _ None w).
  2: { apply receipt_ok. by rewrite Hrec. }
  rewrite (bind_run_err _ _ _ (CaptureConflict (row_dict (id, c))) w); [by destruct w|].
  by rewrite (bind_run _ _ _ _ _ (open_capture_total ckey w id c Hwf Hc Hck Ho)).
Qed.

Lemma duplicate_submission_refused_witness :
  create_capture "HTTPS://arxiv.ORG/abs/1" "again" "operator" (demo_key 7) demo_claimed
  = Err (CaptureConflict (row_dict (demo_id, demo_row demo_claimed))) demo_claimed.
Proof.
  apply duplicate_submission_refused;
    [discriminate|vm_compute; discriminate|vm_compute; discriminate|reflexivity
    |vm_compute; reflexivity
    |apply (reachable_wf [demo_create; demo_approve; demo_claim] 0 0)
    |vm_compute; reflexivity|vm_compute; reflexivity|vm_compute; reflexivity].
Defined.

(** The key of a URL is the submission with its scheme and its host in lower
    case, where they stand: the host is what lies in the network location behind
    the last [@], up to the port or between brackets; user name, port, path,
    query and fragment are kept to the letter. *)
Theorem capture_key_folds_in_place `{UrlChecks} p key :
  strip p = p → capture_shape p = (kind_url, key) →
  ∃ scheme front host back,
    p = scheme +:+ "://" +:+ front +:+ host +:+ back ∧
    key = lower scheme +:+ "://" +:+ front +:+ lower host +:+ back ∧
    url_scheme (lower scheme) = true ∧ is_host front host ∧
    str_all (λ c, negb (one_of "/?#" c)) (front +:+ host) = true.
Proof.
  intros Hs Hk. destruct (capture_shape_url p key Hs Hk) as (raw & nl & rest & -> & Hu & Hf & ->).
  destruct (fold_netloc_spec nl) as (front & host & back & -> & -> & Hh).
  rewrite !str_all_app, !andb_true_iff in Hf.
  exists raw, front, host, (back +:+ rest). rewrite !str_app_assoc. split_and!; try done.
  rewrite str_all_app, andb_true_iff. tauto.
Qed.

Lemma capture_key_folds_in_place_witness :
  ∃ scheme front host back,
    "HTTPS://User@ArXiv.org:80/Abs?" = scheme +:+ "://" +:+ front +:+ host +:+ back ∧
    "https://User@arxiv.org:80/Abs?" = lower scheme +:+ "://" +:+ front +:+ lower host +:+ back ∧
    url_scheme (lower scheme) = true ∧ is_host front host ∧
    str_all (λ c, negb (one_of "/?#" c)) (front +:+ host) = true.
Proof. apply (capture_key_folds_in_place _ _); vm_compute; reflexivity. Defined.

(** ** Reading *)

(** Following the cursors of [list_captures] to the end returns every
    capture of the asked state exactly once, oldest first, and stops: the pages
    neither skip nor repeat a row and no page is a needless empty one. *)
Theorem inbox_pages_complete `{Env} `{UrlChecks} state limit w fuel :
  limit_ok limit = true → inbox_wf (captures (w_db w)) →
  (length (captures_where (in_state state) (w_db w)) < fuel)%nat →
  read_pages fuel state limit None w =
    Ok (map row_dict (captures_where (in_state state) (w_db w))) w ∧
  StronglySorted (λ x y, pair_le (row_key x) (row_key y) = true)
    (captures_where (in_state state) (w_db w)) ∧
  NoDup (captures_where (in_state state) (w_db w)).*1 ∧
  (∀ id c, (id, c) ∈ captures_where (in_state state) (w_db w) ↔
     captures (w_db w) !! id = Some c ∧ in_state state c = true) ∧
  ∀ items next w', list_captures state limit None w = Ok (items, next) w' →
    next = None ∨ items ≠ [].
Proof.
  intros Hl Hwf Hf. split_and!.
  - by apply read_pages_ok.
  - apply captures_where_sorted.
  - apply captures_where_NoDup.
  - intros id c. apply captures_where_elem.
  - intros items next w' Hp. rewrite (list_captures_page state limit None _ w Hl Hwf eq_refl) in Hp.
    injection Hp as <- <- <-. unfold limit_ok in Hl.
    destruct (Z.ltb_spec limit (Z.of_nat (length (captures_where (in_state state) (w_db w)))));
      [right|by left].
    intros E%(f_equal length). rewrite length_map, length_take in E. simpl in E. lia.
Qed.

Abbreviation demo_two :=
  (demo_after [demo_create; CreateCapture "a note to self" "" "operator" (demo_key 8)]).
Lemma inbox_pages_complete_witness :
  read_pages 3 None 1 None demo_two =
    Ok (map row_dict (captures_where (in_state None) (w_db demo_two))) demo_two.
Proof.
  apply (inbox_pages_complete None 1 demo_two 3);
    [reflexivity
    |apply (reachable_wf [demo_create; CreateCapture "a note to self" "" "operator" (demo_key 8)] 0 0)
    |vm_compute; lia].
Defined.

(** What blocks a capture is what its newest uncertain audit row names:
    an older name is cleared by a newer row that names nothing, and a capture
    without such a row is not reported. *)
Theorem blocked_by_newest `{Env} `{UrlChecks} ids w id :
  forallb payload_is_object (List.filter (uncertain_row ids) (control_audit (w_db w))) = true →
  member id ids = true →
  ∃ m, capture_blocked_by ids w = Ok m w ∧
    m !! id = last (List.filter (uncertain_row [id]) (control_audit (w_db w))) ≫= blocker.
Proof.
  intros Hobj Hid.
  destruct (fold_blocked_ok ∅ _ w (payload_objects _ Hobj)) as (m & Hm & Hget). exists m. split.
  - unfold capture_blocked_by. destruct ids as [|i ids]; [done|].
    rewrite (bind_run _ _ _ (List.filter (uncertain_row (i :: ids)) (control_audit (w_db w))) w)
      by (by apply query_ok). done.
  - rewrite Hget, newest_filter by done.
    destruct (last _); [done|]. by rewrite lookup_empty.
Qed.

Abbreviation demo_blocked := (demo_after [demo_create; demo_approve; demo_claim; demo_uncertain]).
Lemma blocked_by_newest_witness :
  ∃ m, capture_blocked_by [demo_id] demo_blocked = Ok m demo_blocked ∧
    m !! demo_id = Some "run-7".
Proof.
  destruct (blocked_by_newest [demo_id] demo_blocked demo_id) as (m & Hm & Hget).
  - vm_compute. reflexivity.
  - reflexivity.
  - exists m. split; [exact Hm|]. rewrite Hget. vm_compute. reflexivity.
Defined.

(** ** Leases *)

(** A lease lapses when the clock passes its end: at any later reading in
    another second the sweep leaves the row claimed before the end and turns it
    [uncertain], with its epoch kept and its claim cleared, after it. *)
Theorem lease_lapses_on_time c expires t :
  c_state c = claimed → c_claim_expires_at c = Some (format_time expires) →
  dt_valid expires = true → dt_valid t = true →
  expires / us_per_second ≠ t / us_per_second →
  sweep_row (format_time t) c =
    if expires <? t
    then CaptureRow (c_key c) (c_payload c) (c_kind c) (c_note c) uncertain None
           (c_claim_epoch c) None (c_known_source_id c) (c_consumed_source_ids c)
           (Some "outcome_unknown") (c_revision c + 1) (c_created_at c) (format_time t)
    else c.
Proof.
  intros Hs He Hve Hvt Hne. unfold sweep_row, lease_expired.
  rewrite Hs, He, bool_decide_eq_true_2, str_le_compare, format_time_seconds by done.
  destruct (Z.compare_spec expires t) as [-> | |]; [done|..]; simpl.
  - by rewrite (proj2 (Z.ltb_lt expires t)).
  - destruct (Z.ltb_spec expires t); [lia|done].
Qed.

Definition demo_leased : capture_row := CaptureRow "k" "p" kind_text "" claimed (Some "worker") 1
  (Some (format_time 63902908868500000)) None None None 2 "" "".
Lemma lease_lapses_on_time_witness :
  c_state (sweep_row (format_time 63902909000000000) demo_leased) = uncertain.
Proof.
  assert (63902908868500000 / us_per_second ≠ 63902909000000000 / us_per_second) as Hne
    by (vm_compute; discriminate).
  rewrite (lease_lapses_on_time demo_leased 63902908868500000 63902909000000000 eq_refl eq_refl
    eq_refl eq_refl Hne). reflexivity.
Defined.

(** Between a whole second and an instant inside it the text order is the wrong way round:
    the letter that ends the one comes after the dot of the other. *)
Definition whole_second (t : Z) : bool := t mod us_per_second =? 0.
Lemma format_time_mixed t u :
  dt_valid t = true → dt_valid u = true → t / us_per_second = u / us_per_second →
  whole_second t = true → whole_second u = false →
  String.compare (format_time t) (format_time u) = Gt ∧
  String.compare (format_time u) (format_time t) = Lt.
Proof.
  unfold whole_second. intros Ht Hu Es Hwt Hwu.
  destruct (to_fields_spec t Ht) as [Ft _], (to_fields_spec u Hu) as [Fu _].
  unfold format_time. rewrite !seconds_text_compare, !seconds_compare_instants by done.
  by rewrite !micro_of_fields, Es, Z.compare_refl, Hwt, Hwu by done.
Qed.

(** C37: within the second a lease ends in, the sweep judges it rightly exactly when the
    end and the clock both are whole seconds or neither is.  A lease that ended on the
    whole second is not seen to have expired during that second, and one that ends
    inside the second is swept when the clock reads the whole second, with time left. *)
Theorem lease_misjudged_within_second c expires t :
  c_state c = claimed → c_claim_expires_at c = Some (format_time expires) →
  dt_valid expires = true → dt_valid t = true →
  expires / us_per_second = t / us_per_second →
  lease_expired (format_time t) c
  = (if Bool.eqb (whole_second expires) (whole_second t) then expires <=? t else t <? expires) ∧
  (whole_second expires = true → whole_second t = false →
     expires < t ∧ lease_expired (format_time t) c = false) ∧
  (whole_second expires = false → whole_second t = true →
     t < expires ∧ lease_expired (format_time t) c = true).
Proof.
  intros Hs He Hve Hvt Es.
  assert (Hl : lease_expired (format_time t) c
    = match String.compare (format_time expires) (format_time t) with Gt => false | _ => true end).
  { unfold lease_expired. by rewrite Hs, He, bool_decide_eq_true_2, str_le_compare. }
  assert (Hd : ∀ x y, x / us_per_second = y / us_per_second → whole_second x = true →
    whole_second y = false → x < y).
  { unfold whole_second. intros x y E Hx%Z.eqb_eq Hy%Z.eqb_neq. unfold us_per_second in *.
    pose proof (Z.mod_pos_bound y 1000000). dlia. }
  destruct (whole_second expires) eqn:We, (whole_second t) eqn:Wt; simpl; rewrite Hl.
  1,4: split; [|by split]; rewrite format_time_same_shape by
    (done || (unfold whole_second in *; rewrite <- !Z.eqb_eq, We, Wt; done));
    unfold Z.leb; by destruct (expires ?= t).
  - pose proof (Hd _ _ Es We Wt). destruct (format_time_mixed expires t) as [-> _]; try done.
    rewrite (proj2 (Z.ltb_ge t expires)) by lia. by split_and!.
  - pose proof (Hd _ _ (eq_sym Es) Wt We). destruct (format_time_mixed t expires) as [_ ->]; try done.
    rewrite (proj2 (Z.ltb_lt t expires)) by lia. by split_and!.
Qed.

Definition demo_instant : Z := 63902908800000000.
Definition demo_ending (expires : Z) : capture_row := CaptureRow "k" "p" kind_text "" claimed
  (Some "worker") 1 (Some (format_time expires)) None None None 2 "" "".
Lemma lease_misjudged_within_second_witness :
  lease_expired (format_time (demo_instant + 500000)) (demo_ending demo_instant) = false ∧
  lease_expired (format_time demo_instant) (demo_ending (demo_instant + 500000)) = true.
Proof.
  split.
  - apply (proj1 (proj2 (lease_misjudged_within_second (demo_ending demo_instant) demo_instant
      (demo_instant + 500000) eq_refl eq_refl eq_refl eq_refl eq_refl))); vm_compute; reflexivity.
  - apply (proj2 (proj2 (lease_misjudged_within_second (demo_ending (demo_instant + 500000))
      (demo_instant + 500000) demo_instant eq_refl eq_refl eq_refl eq_refl eq_refl)));
      vm_compute; reflexivity.
Defined.
