(* ===== verification/Activation.v ===== *)
(** * Release approvals and activation gates

    The append-only decision tables of [control/store.py]: which release the
    operator approved, whether the managed runtime may dispatch and whether a
    transport may send, for good or for a window.  The runtime gate and the
    transport gate are written twice in the source, word for word but for their
    names; the shared code takes the gate as an argument here. *)

From S2P Require Import Prelude PyText Clock Json Schema Store.
Open Scope Z_scope.

Section Activation.
Context `{Env}.

(** [_parse_control_time], and [str] on the JSON values a receipt holds. *)
Definition control_time (s : string) : Store Z :=
  from_option (parse_control_time s) (ValueError "stored control timestamp is invalid").
Definition py_str (v : json) : Store string :=
  match v with
  | JStr s => mret s
  | JNull => mret "None"
  | JBool b => mret (if b then "True" else "False")
  | JInt n => mret (int_text n)
  | JFloat r => mret r
  | _ => raise (RuntimeError "the text of a container is not modelled")
  end.
Definition opt_text (v : json) : Store (option string) :=
  match v with JNull => mret None | _ => s ← py_str v; mret (Some s) end.
Definition opt_time (v : json) : Store (option Z) :=
  match v with JNull => mret None | _ => s ← py_str v; t ← control_time s; mret (Some t) end.
(** ** Release approvals *)

Record release_record := ReleaseRecord {
  rl_id : string; rl_decision : string; rl_release_id : string;
  rl_manifest_sha256 : string; rl_actor_id : string; rl_decided_at : Z }.

(** [_validated_release_identity]. *)
Definition validated_release_identity (release_id manifest_sha256 : string) : Store unit :=
  ensure ((1 <=? slen release_id) && (slen release_id <=? 200))
    (ValueError "release_id must be 1-200 characters");;
  ensure (is_sha256 manifest_sha256)
    (ValueError "manifest_sha256 must be a lowercase sha256 digest").

(** [_runtime_release_row], [_runtime_release_response], [_runtime_release_receipt]. *)
Definition runtime_release_row (r : release_row) : Store release_record :=
  t ← control_time (rr_decided_at r);
  mret (ReleaseRecord (rr_id r) (release_decision_text (rr_decision r)) (rr_release_id r)
          (rr_manifest_sha256 r) (rr_actor_id r) t).
Definition runtime_release_response (r : release_record) : json := JObj
  [("id", JStr (rl_id r)); ("decision", JStr (rl_decision r));
   ("release_id", JStr (rl_release_id r)); ("manifest_sha256", JStr (rl_manifest_sha256 r));
   ("actor_id", JStr (rl_actor_id r)); ("decided_at", JStr (format_time (rl_decided_at r)))].
Definition runtime_release_receipt (v : json) : Store release_record :=
  ensure (same_keys v ["id"; "decision"; "release_id"; "manifest_sha256"; "actor_id"; "decided_at"])
    (RuntimeError "runtime release approval receipt is invalid");;
  id ← py_str (field "id" v); decision ← py_str (field "decision" v);
  release_id ← py_str (field "release_id" v);
  sha ← py_str (field "manifest_sha256" v); actor ← py_str (field "actor_id" v);
  at_ ← py_str (field "decided_at" v); t ← control_time at_;
  mret (ReleaseRecord id decision release_id sha actor t).

(** [_standing_release_decision]: the newest row of this identity. *)
Definition release_rows (release_id manifest_sha256 : string) (d : db) : list release_row :=
  List.filter (λ r, String.eqb (rr_release_id r) release_id
                    && String.eqb (rr_manifest_sha256 r) manifest_sha256)
    (runtime_release_approvals d).
Definition standing_release_decision (release_id manifest_sha256 : string) :
    Store (option release_record) :=
  row ← query (λ d, last (release_rows release_id manifest_sha256 d));
  match row with
  | None => mret None
  | Some r => rec ← runtime_release_row r; mret (Some rec)
  end.

(** [runtime_release_decision], [runtime_release_approved] and
    [runtime_release_approval_report]. *)
Definition runtime_release_decision (release_id manifest_sha256 : string) :
    Store (option release_record) :=
  validated_release_identity release_id manifest_sha256;;
  standing_release_decision release_id manifest_sha256.
Definition approves (r : option release_record) : bool :=
  match r with Some r => String.eqb (rl_decision r) "approve" | None => false end.
Definition runtime_release_approved (release_id manifest_sha256 : string) : Store bool :=
  r ← runtime_release_decision release_id manifest_sha256; mret (approves r).
Definition runtime_release_approval_report (release_id manifest_sha256 : string) : Store json :=
  r ← runtime_release_decision release_id manifest_sha256;
  mret (JObj [("release_id", JStr release_id); ("manifest_sha256", JStr manifest_sha256);
    ("approved", JBool (approves r)); ("decision", opt_json (rl_decision <$> r));
    ("decided_at", opt_json ((λ x, format_time (rl_decided_at x)) <$> r));
    ("actor_id", opt_json (rl_actor_id <$> r))]).

(** [DELETE FROM idempotency_receipts WHERE ...]. *)
Definition delete_receipt (key : receipt_key) : Store unit :=
  execute (set_receipts (delete key)).

(** [_record_runtime_release_decision]. *)
Definition release_operation (decision : release_decision) : string :=
  "INTERNAL:runtime-release/" +:+ release_decision_text decision.
Definition release_request (decision : release_decision) (release_id sha : string) : json :=
  JObj [("decision", JStr (release_decision_text decision)); ("release_id", JStr release_id);
        ("manifest_sha256", JStr sha)].
Definition insert_release (decision : release_decision) (release_id sha actor_id : string) :
    Store release_record :=
  id ← new_id "runtime-release-approval"; t ← now;
  let row := ReleaseRow id decision release_id sha actor_id t in
  taken ← query (λ d, existsb (λ r, String.eqb (rr_id r) id) (runtime_release_approvals d));
  ensure (negb taken && release_check row) IntegrityError;;
  execute (set_releases (λ l, l ++ [row]));;
  audit "runtime_release_approval" id
    ("runtime_release." +:+ release_decision_text decision +:+ "d")
    (JObj [("release_id", JStr release_id); ("manifest_sha256", JStr sha)]);;
  runtime_release_row row.
Definition record_runtime_release_decision (decision : release_decision)
    (release_id sha actor_id key : string) : Store release_record :=
  validated_release_identity release_id sha;;
  let request := release_request decision release_id sha in
  let operation := release_operation decision in
  transaction (
    replay ← receipt actor_id operation key request;
    standing ← standing_release_decision release_id sha;
    let new_decision :=
      record ← insert_release decision release_id sha actor_id;
      (match replay with
       | Some _ => delete_receipt (actor_id, operation, key)
       | None => mret tt
       end);;
      save_receipt actor_id operation key request (runtime_release_response record) 201;;
      mret record in
    match standing with
    | Some s =>
        if String.eqb (rl_decision s) (release_decision_text decision) then
          match replay with
          | Some r => runtime_release_receipt (cr_value r)
          | None =>
              save_receipt actor_id operation key request (runtime_release_response s) 200;;
              mret s
          end
        else new_decision
    | None => new_decision
    end).

(** [approve_runtime_release] and [revoke_runtime_release]. *)
Definition approve_runtime_release := record_runtime_release_decision approve.
Definition revoke_runtime_release := record_runtime_release_decision revoke.

(** ** The gates *)

Definition TRANSPORT_WINDOW_MAX_SECONDS : Z := 1800.
Definition TRANSPORT_WINDOW_AGGREGATE : string := "transport_window".
Definition TRANSPORT_WINDOW_CLOSED_EVENT : string := "transport_window_closed".
Definition TRANSPORT_WINDOW_ABORTED_EVENT : string := "transport_window_aborted".

Inductive gate := runtime_gate | transport_gate (transport : string).

(** The names the two copies of the code differ in. *)
Definition gate_noun (g : gate) : string :=
  match g with runtime_gate => "runtime_activation" | transport_gate _ => "transport_activation" end.
Definition gate_kind (g : gate) : string :=
  match g with runtime_gate => "runtime-activation" | transport_gate _ => "transport-activation" end.
Definition gate_words (g : gate) : string :=
  match g with runtime_gate => "runtime activation" | transport_gate _ => "transport activation" end.
Definition mode_name (g : gate) : string :=
  match g with runtime_gate => "mode" | transport_gate _ => "scope" end.
Definition gate_transport (g : gate) : string :=
  match g with runtime_gate => "" | transport_gate t => t end.
Definition window_max (g : gate) : Z :=
  match g with runtime_gate => 604800 | transport_gate _ => TRANSPORT_WINDOW_MAX_SECONDS end.
Definition transport_item (g : gate) : list (string * json) :=
  match g with runtime_gate => [] | transport_gate t => [("transport", JStr t)] end.
Definition gate_table (g : gate) (d : db) : list activation_row :=
  match g with
  | runtime_gate => runtime_activation_decisions d
  | transport_gate _ => transport_activation_decisions d
  end.
Definition set_gate_table (g : gate) (f : list activation_row → list activation_row) (d : db) : db :=
  match g with
  | runtime_gate => set_runtime_activations f d
  | transport_gate _ => set_transport_activations f d
  end.
(** [WHERE transport = ?] of the second table. *)
Definition gate_rows (g : gate) (d : db) : list activation_row :=
  match g with
  | runtime_gate => runtime_activation_decisions d
  | transport_gate t =>
      List.filter (λ r, String.eqb (ar_transport r) t) (transport_activation_decisions d)
  end.

Record activation_record := ActivationRecord {
  av_id : string; av_transport : string; av_decision : string; av_mode : option string;
  av_expires_at : option Z; av_actor_id : string; av_decided_at : Z }.

(** [_runtime_activation_row], [_transport_activation_row]. *)
Definition activation_row_record (r : activation_row) : Store activation_record :=
  e ← (match ar_expires_at r with
       | None => mret None
       | Some s => t ← control_time s; mret (Some t)
       end);
  t ← control_time (ar_decided_at r);
  mret (ActivationRecord (ar_id r) (ar_transport r) (activation_decision_text (ar_decision r))
          (mode_text <$> ar_mode r) e (ar_actor_id r) t).

(** [_runtime_activation_response], [_transport_activation_response]. *)
Definition activation_response (g : gate) (r : activation_record) : json := JObj
  ([("id", JStr (av_id r))]
   ++ match g with
      | runtime_gate => []
      | transport_gate _ => [("transport", JStr (av_transport r))]
      end
   ++ [("decision", JStr (av_decision r)); (mode_name g, opt_json (av_mode r));
       ("expires_at", opt_json (format_time <$> av_expires_at r));
       ("actor_id", JStr (av_actor_id r)); ("decided_at", JStr (format_time (av_decided_at r)))]).

(** [_runtime_activation_receipt], [_transport_activation_receipt]. *)
Definition activation_keys (g : gate) : list string :=
  "id" :: match g with runtime_gate => [] | transport_gate _ => ["transport"] end
  ++ ["decision"; mode_name g; "expires_at"; "actor_id"; "decided_at"].
Definition activation_receipt (g : gate) (v : json) : Store activation_record :=
  ensure (same_keys v (activation_keys g)) (RuntimeError (gate_words g +:+ " receipt is invalid"));;
  id ← py_str (field "id" v);
  transport ← (match g with
    | runtime_gate => mret ""
    | transport_gate _ => py_str (field "transport" v)
    end);
  decision ← py_str (field "decision" v);
  mode ← opt_text (field (mode_name g) v);
  expires ← opt_time (field "expires_at" v);
  actor ← py_str (field "actor_id" v);
  at_ ← py_str (field "decided_at" v); t ← control_time at_;
  mret (ActivationRecord id transport decision mode expires actor t).

(** [_insert_runtime_activation], [_insert_transport_activation]; the second
    table holds one transport. *)
Definition insert_activation (g : gate) (decision : activation_decision)
    (mode : option activation_mode) (expires_at : option string) (actor_id t : string) :
    Store activation_record :=
  id ← new_id (gate_kind g);
  let row := ActivationRow id (gate_transport g) decision mode expires_at actor_id t in
  taken ← query (λ d, existsb (λ r, String.eqb (ar_id r) id) (gate_table g d));
  ensure (negb taken && activation_check row
          && match g with runtime_gate => true | transport_gate t => String.eqb t "telegram" end)
    IntegrityError;;
  execute (set_gate_table g (λ l, l ++ [row]));;
  audit (gate_noun g) id
    (gate_noun g +:+ "." +:+ activation_decision_text decision +:+ "d")
    (JObj (transport_item g ++ [(mode_name g, opt_json (mode_text <$> mode));
                                ("expires_at", opt_json expires_at)]));;
  activation_row_record row.

(** The body of the four decisions: one row and its receipt, or the saved one. *)
Definition decide_activation (g : gate) (operation : string) (request : json)
    (actor_id key : string) (insert : Store activation_record) : Store activation_record :=
  transaction (
    replay ← receipt actor_id operation key request;
    match replay with
    | Some r => activation_receipt g (cr_value r)
    | None =>
        record ← insert;
        save_receipt actor_id operation key request (activation_response g record) 201;;
        mret record
    end).

Definition parse_mode (mode : string) : option activation_mode :=
  if String.eqb mode "permanent" then Some permanent
  else if String.eqb mode "window" then Some window else None.
Definition opt_seconds (o : option Z) : json :=
  match o with Some n => JInt n | None => JNull end.

Definition enable_operation (g : gate) : string :=
  match g with
  | runtime_gate => "INTERNAL:runtime-activation/enable"
  | transport_gate _ => "INTERNAL:transport-activation/enable"
  end.
Definition enable_activation (g : gate) (mode : string) (window_seconds : option Z)
    (actor_id key : string) : Store activation_record :=
  m ← from_option (parse_mode mode)
        (ValueError (mode_name g +:+ " must be 'permanent' or 'window'"));
  ensure (match m, window_seconds with
          | window, Some n => (1 <=? n) && (n <=? window_max g)
          | window, None => false
          | permanent, _ => true
          end) (ValueError ("window_seconds must be between 1 and " +:+ int_text (window_max g)
                      +:+ " for a window"));;
  ensure (match m, window_seconds with permanent, Some _ => false | _, _ => true end)
    (ValueError "window_seconds is only valid for a window");;
  decide_activation g (enable_operation g)
    (JObj (transport_item g ++ [(mode_name g, JStr mode);
                                ("window_seconds", opt_seconds window_seconds)]))
    actor_id key (
    t ← now;
    expires ← (match m with
      | permanent => mret None
      | window =>
          n ← control_time t;
          e ← format_after n (default 0 window_seconds); mret (Some e)
      end);
    insert_activation g enable (Some m) expires actor_id t).

Definition disable_operation (g : gate) : string :=
  match g with
  | runtime_gate => "INTERNAL:runtime-activation/disable"
  | transport_gate _ => "INTERNAL:transport-activation/disable"
  end.
Definition disable_activation (g : gate) (actor_id key : string) : Store activation_record :=
  decide_activation g (disable_operation g)
    (JObj (transport_item g ++ [("decision", JStr "disable")]))
    actor_id key (t ← now; insert_activation g disable None None actor_id t).

(** [runtime_activation], [_transport_activation_in_force]: the newest decision
    of the gate when it enables and has not expired. *)
Definition activation_in_force (g : gate) : Store (option activation_record) :=
  row ← query (λ d, last (gate_rows g d));
  match row with
  | Some r =>
      if bool_decide (ar_decision r = enable) then
        record ← activation_row_record r;
        match av_expires_at record with
        | None => mret (Some record)
        | Some e => t ← utc_now; if e <=? t then mret None else mret (Some record)
        end
      else mret None
  | None => mret None
  end.
End Activation.

(** The runtime gate. *)
Section RuntimeActivation.
Context `{Env}.

Definition enable_runtime_activation := enable_activation runtime_gate.
Definition disable_runtime_activation := disable_activation runtime_gate.
Definition runtime_activation : Store (option activation_record) :=
  activation_in_force runtime_gate.
Definition runtime_dispatch_enabled : Store bool :=
  r ← runtime_activation; mret (bool_decide (is_Some r)).
Definition runtime_activation_report : Store json :=
  r ← runtime_activation;
  mret (JObj [("enabled", JBool (bool_decide (is_Some r)));
    ("mode", opt_json (r ≫= av_mode));
    ("expires_at", opt_json (format_time <$> (r ≫= av_expires_at)))]).
End RuntimeActivation.

(** The transport gate and its windows. *)
Section TransportActivation.
Context `{Env}.

(** [_activation_transport]. *)
Definition activation_transport (transport : string) : Store string :=
  ensure (String.eqb transport "telegram") (ValueError "transport is invalid");; mret transport.

Definition enable_transport_activation (transport scope : string) (window_seconds : option Z)
    (actor_id key : string) : Store activation_record :=
  t ← activation_transport transport;
  enable_activation (transport_gate t) scope window_seconds actor_id key.
Definition disable_transport_activation (transport actor_id key : string) :
    Store activation_record :=
  t ← activation_transport transport; disable_activation (transport_gate t) actor_id key.
Definition transport_activation (transport : string) : Store (option activation_record) :=
  t ← activation_transport transport; activation_in_force (transport_gate t).
Definition find_decision (id : string) (d : db) : option activation_row :=
  List.find (λ r, String.eqb (ar_id r) id) (transport_activation_decisions d).
Definition transport_activation_decision (decision_id : string) :
    Store (option activation_record) :=
  id ← required_text decision_id "decision_id" 200;
  row ← query (find_decision id);
  match row with
  | None => mret None
  | Some r => record ← activation_row_record r; mret (Some record)
  end.
Definition telegram_dispatch_enabled : Store bool :=
  r ← transport_activation "telegram"; mret (bool_decide (is_Some r)).

(** [record_transport_window_closed]. *)
Definition record_transport_window_closed (window_id : string) (poller_stopped : bool)
    (proof actor_id : string) : Store unit :=
  window_id ← required_text window_id "window_id" 200;
  proof ← required_text proof "proof" 200;
  actor_id ← required_text actor_id "actor_id" 200;
  transaction (
    row ← query (find_decision window_id);
    r ← from_option row (NotFound "transport activation decision" window_id);
    record ← activation_row_record r;
    ensure (bool_decide (av_mode record = Some "window"))
      (InvalidTransition (default "None" (av_mode record)) "closed");;
    in_force ← activation_in_force (transport_gate (av_transport record));
    ensure (match in_force with Some f => negb (String.eqb (av_id f) window_id) | None => true end)
      (InvalidTransition "open" "closed");;
    audit TRANSPORT_WINDOW_AGGREGATE window_id TRANSPORT_WINDOW_CLOSED_EVENT
      (JObj [("transport", JStr (av_transport record)); ("poller_stopped", JBool poller_stopped);
             ("proof", JStr proof); ("actor_id", JStr actor_id)])).

(** [abort_open_transport_windows]. *)
Definition accounted (d : db) (id : string) : bool :=
  existsb (λ r, String.eqb (au_aggregate_type r) TRANSPORT_WINDOW_AGGREGATE
                && String.eqb (au_aggregate_id r) id) (control_audit d).
Definition open_windows (d : db) : list activation_row :=
  List.filter (λ r, bool_decide (ar_mode r = Some window) && bool_decide (ar_decision r = enable)
                    && negb (accounted d (ar_id r))) (transport_activation_decisions d).
Definition abort_window (reason actor_id : string) (row : activation_row) : Store string :=
  record ← activation_row_record row;
  in_force ← activation_in_force (transport_gate (av_transport record));
  (match in_force with
   | Some f =>
       if String.eqb (av_id f) (av_id record) then
         t ← now;
         insert_activation (transport_gate (av_transport record)) disable None None actor_id t;;
         mret tt
       else mret tt
   | None => mret tt
   end);;
  audit TRANSPORT_WINDOW_AGGREGATE (av_id record) TRANSPORT_WINDOW_ABORTED_EVENT
    (JObj [("transport", JStr (av_transport record)); ("reason", JStr reason);
           ("actor_id", JStr actor_id)]);;
  mret (av_id record).
Definition abort_open_transport_windows (reason actor_id : string) : Store (list string) :=
  reason ← required_text reason "reason" 200;
  actor_id ← required_text actor_id "actor_id" 200;
  transaction (rows ← query open_windows; map_m (abort_window reason actor_id) rows).
End TransportActivation.
