(* ===== verification/ActivationFacts.v ===== *)
(** * What the approvals and the gates guarantee

    The decision tables only grow, by well-formed rows; what each operation
    appends; and what is in force afterwards. *)

From S2P Require Import Prelude PyText Clock Json Schema Store Demo Activation.
Open Scope Z_scope.

Section ReleaseFacts.
Context `{Env}.

Lemma control_time_format t w :
  dt_valid t = true → control_time (format_time t) w = Ok t w.
Proof. intros Ht. unfold control_time. by rewrite parse_format_time. Qed.
Lemma control_time_ok s w t w' :
  control_time s w = Ok t w' ↔ parse_control_time s = Some t ∧ w' = w.
Proof. unfold control_time. apply from_option_ok. Qed.
Lemma pure_control_time s : pure (control_time s).
Proof. apply pure_from_option. Qed.
Lemma pure_runtime_release_row r : pure (runtime_release_row r).
Proof. unfold runtime_release_row. eauto using pure_control_time with pure. Qed.
Lemma pure_activation_row_record r : pure (activation_row_record r).
Proof.
  unfold activation_row_record. destruct (ar_expires_at r);
    eauto 10 using pure_control_time with pure.
Qed.

(** What a pure run answers, it answers in every world and leaves alone. *)
Lemma pure_ok {A} (m : Store A) w a w' : pure m → m w = Ok a w' → w' = w ∧ ∀ w1, m w1 = Ok a w1.
Proof. intros [[b Hm] | [e Hm]] Hr; rewrite Hm in Hr; naive_solver. Qed.

Lemma standing_ok release_id sha w s w' :
  standing_release_decision release_id sha w = Ok s w' →
  w' = w ∧
  match last (release_rows release_id sha (w_db w)) with
  | None => s = None
  | Some r => ∃ rec, s = Some rec ∧ rl_decision rec = release_decision_text (rr_decision r)
      ∧ rl_id rec = rr_id r ∧ ∀ w1, runtime_release_row r w1 = Ok rec w1
  end.
Proof.
  unfold standing_release_decision. intros Hs. mgo.
  destruct (last _) as [r|]; mgo; [|done].
  match goal with Hr : runtime_release_row _ _ = Ok _ _ |- _ =>
    destruct (pure_ok _ _ _ _ (pure_runtime_release_row r) Hr) as [-> Hp];
    unfold runtime_release_row in Hr; mgo; simplify_eq end.
  eauto 10.
Qed.

Lemma validated_ok release_id sha w u w' :
  validated_release_identity release_id sha w = Ok u w' → w' = w.
Proof. unfold validated_release_identity. intros Hv. by mgo. Qed.

Lemma insert_release_ok decision release_id sha actor w rec w' :
  insert_release decision release_id sha actor w = Ok rec w' →
  ∃ row, runtime_release_approvals (w_db w') = runtime_release_approvals (w_db w) ++ [row] ∧
    rr_decision row = decision ∧ rr_release_id row = release_id ∧ rr_manifest_sha256 row = sha ∧
    rr_actor_id row = actor ∧ idempotency_receipts (w_db w') = idempotency_receipts (w_db w) ∧
    (∀ w1, runtime_release_row row w1 = Ok rec w1).
Proof.
  unfold insert_release. intros Hi. mgo.
  match goal with Hr : runtime_release_row _ _ = Ok _ _ |- _ =>
    destruct (pure_ok _ _ _ _ (pure_runtime_release_row _) Hr) as [-> Hp] end.
  eexists. split_and!; try done.
Qed.

(** Rows of other identities are not read. *)
Lemma release_rows_snoc release_id sha d d' row :
  runtime_release_approvals d' = runtime_release_approvals d ++ [row] →
  release_rows release_id sha d' =
    release_rows release_id sha d ++
    (if String.eqb (rr_release_id row) release_id && String.eqb (rr_manifest_sha256 row) sha
     then [row] else []).
Proof. intros E. unfold release_rows. rewrite E, List.filter_app. simpl. by destruct (_ && _). Qed.

(** A recorded decision: either it was in force and nothing is written to the
    decision table, or one row is appended. *)
Lemma record_release_ok decision release_id sha actor key w r w' :
  record_runtime_release_decision decision release_id sha actor key w = Ok r w' →
  (runtime_release_approvals (w_db w') = runtime_release_approvals (w_db w) ∧
   control_audit (w_db w') = control_audit (w_db w) ∧
   (∃ row, last (release_rows release_id sha (w_db w)) = Some row ∧ rr_decision row = decision))
  ∨ (∃ row, runtime_release_approvals (w_db w') = runtime_release_approvals (w_db w) ++ [row] ∧
     rr_decision row = decision ∧ rr_release_id row = release_id ∧ rr_manifest_sha256 row = sha ∧
     rr_actor_id row = actor ∧ (∀ w1, runtime_release_row row w1 = Ok r w1)).
Proof.
  unfold record_runtime_release_decision. intros Hr.
  apply bind_ok in Hr as (u & w0 & Hv%validated_ok & Hr). subst. cbv zeta in Hr.
  rewrite transaction_ok in Hr. apply bind_ok in Hr as (replay & w0 & Hrec & Hr).
  apply receipt_ok in Hrec as (-> & _ & _). apply bind_ok in Hr as (s & w0 & Hs & Hr).
  apply standing_ok in Hs as [-> Hs].
  assert (∀ r w', (record ← insert_release decision release_id sha actor;
      (match replay with
       | Some _ => delete_receipt (actor, release_operation decision, key)
       | None => mret tt
       end);;
      save_receipt actor (release_operation decision) key (release_request decision release_id sha)
        (runtime_release_response record) 201;;
      mret record) w = Ok r w' →
     ∃ row, runtime_release_approvals (w_db w') = runtime_release_approvals (w_db w) ++ [row] ∧
     rr_decision row = decision ∧ rr_release_id row = release_id ∧ rr_manifest_sha256 row = sha ∧
     rr_actor_id row = actor ∧ (∀ w1, runtime_release_row row w1 = Ok r w1)) as Hnew.
  { clear. intros r w' Hr. apply bind_ok in Hr as (rec & w0 & Hi & Hr).
    apply insert_release_ok in Hi as (row & Ht & ? & ? & ? & ? & _ & ?). exists row.
    unfold delete_receipt in Hr. destruct replay; mgo; simpl; done. }
  destruct s as [s|]; [|right; by apply Hnew].
  destruct (String.eqb_spec (rl_decision s) (release_decision_text decision)) as [Ed|]; [|right; by apply Hnew].
  left. destruct (last (release_rows release_id sha (w_db w))) as [row|]; [|done].
  destruct Hs as (rec & [= ->] & Hdec & _).
  assert (rr_decision row = decision) by (destruct (rr_decision row), decision; simpl in *; congruence).
  destruct replay; [|mgo; simpl; eauto].
  apply (keeps_ok w_db) in Hr; [rewrite Hr; eauto|].
  unfold runtime_release_receipt, py_str. repeat (apply keeps_bind; [|intros]); repeat case_match;
    unfold control_time; eauto with keeps.
Qed.
End ReleaseFacts.

(** ** The gates *)

Section GateFacts.
Context `{Env}.

(** A row as the gate's operations write it. *)
Definition row_good (g : gate) (r : activation_row) : Prop :=
  activation_check r = true ∧
  (∀ t, g = transport_gate t → ar_transport r = "telegram") ∧
  ∃ t, dt_valid t = true ∧ ar_decided_at r = format_time t ∧
    match ar_mode r with
    | Some window => ∃ n, 1 <= n <= window_max g ∧ dt_valid (t + n * us_per_second) = true ∧
        ar_expires_at r = Some (format_time (t + n * us_per_second))
    | _ => ar_expires_at r = None
    end.

Definition table_grows (g : gate) (d d' : db) : Prop :=
  ∃ new, gate_table g d' = gate_table g d ++ new ∧ Forall (row_good g) new.
Definition gates_grow (w w' : world) : Prop :=
  table_grows runtime_gate (w_db w) (w_db w') ∧
  table_grows (transport_gate "telegram") (w_db w) (w_db w').

Lemma table_grows_refl g d : table_grows g d d.
Proof. exists []. by rewrite app_nil_r. Qed.
Lemma table_same g d d' : gate_table g d' = gate_table g d → table_grows g d d'.
Proof. intros E. exists []. by rewrite app_nil_r. Qed.
Lemma table_grows_trans g d1 d2 d3 :
  table_grows g d1 d2 → table_grows g d2 d3 → table_grows g d1 d3.
Proof.
  intros (n1 & E1 & F1) (n2 & E2 & F2). exists (n1 ++ n2). rewrite E2, E1, app_assoc.
  split; [done|]. by apply Forall_app.
Qed.
#[export] Instance gates_grow_preorder : PreOrder gates_grow.
Proof.
  split.
  - intros w. split; apply table_grows_refl.
  - intros w1 w2 w3 [] []. split; by eapply table_grows_trans.
Qed.

(** Steps that do not touch the decision tables. *)
Lemma grow_keeps {A} (m : Store A) :
  keeps (λ w, (runtime_activation_decisions (w_db w), transport_activation_decisions (w_db w))) m →
  evolves gates_grow m.
Proof.
  intros Hk w. specialize (Hk w). simpl in Hk. injection Hk as E1 E2.
  split; exists []; simpl; by rewrite ?E1, ?E2, app_nil_r.
Qed.
Lemma keeps_of_pure {A V} (view : world → V) (m : Store A) : pure m → keeps view m.
Proof. intros [[a Hm] | [e Hm]] w; by rewrite Hm. Qed.
Lemma grow_pure {A} (m : Store A) : pure m → evolves gates_grow m.
Proof. intros Hp. by apply grow_keeps, keeps_of_pure. Qed.
Lemma grow_audit ty i ev payload : evolves gates_grow (audit ty i ev payload).
Proof.
  apply grow_keeps.
  apply (keeps_audit (λ d, (runtime_activation_decisions d, transport_activation_decisions d))).
  done.
Qed.
Lemma grow_query {A} (f : db → A) : evolves gates_grow (query f).
Proof. apply grow_keeps, keeps_query. Qed.
Lemma grow_now : evolves gates_grow now.
Proof. by apply grow_keeps. Qed.
Lemma grow_utc_now : evolves gates_grow utc_now.
Proof. by apply grow_keeps. Qed.
Lemma grow_receipt a o k request : evolves gates_grow (receipt a o k request).
Proof. apply grow_keeps, keeps_receipt. Qed.
Lemma grow_save_receipt a o k request response code :
  evolves gates_grow (save_receipt a o k request response code).
Proof.
  apply grow_keeps. apply (keeps_save_receipt
    (λ d, (runtime_activation_decisions d, transport_activation_decisions d))). done.
Qed.
Lemma grow_transaction {A} (body : Store A) :
  evolves gates_grow body → evolves gates_grow (transaction body).
Proof.
  intros Hb w. specialize (Hb w). unfold transaction. destruct (body w); [done|].
  split; apply table_grows_refl.
Qed.

(** The one step that appends. *)
Definition is_gate (g : gate) : Prop := g = runtime_gate ∨ g = transport_gate "telegram".

Lemma insert_activation_ok g decision mode expires actor t w rec w' :
  insert_activation g decision mode expires actor t w = Ok rec w' →
  ∃ row, row = ActivationRow (id_factory (gate_kind g) (w_ids w)) (gate_transport g) decision
                 mode expires actor t ∧
  activation_check row = true ∧ is_gate g ∧
  existsb (λ r, String.eqb (ar_id r) (ar_id row)) (gate_table g (w_db w)) = false ∧
  gate_table g (w_db w') = gate_table g (w_db w) ++ [row] ∧
  (∀ g', is_gate g' → g' ≠ g → gate_table g' (w_db w') = gate_table g' (w_db w)) ∧
  (∃ au, control_audit (w_db w') = control_audit (w_db w) ++ [au]
         ∧ au_aggregate_type au = gate_noun g) ∧
  idempotency_receipts (w_db w') = idempotency_receipts (w_db w) ∧
  (∀ w1, activation_row_record row w1 = Ok rec w1).
Proof.
  unfold insert_activation. intros Hi. mgo. eexists. split; [reflexivity|].
  match goal with Hr : activation_row_record _ _ = Ok _ _ |- _ =>
    destruct (pure_ok _ _ _ _ (pure_activation_row_record _) Hr) as [-> Hp] end.
  match goal with Hb : _ && _ && _ = true |- _ =>
    apply andb_true_iff in Hb as [[Hfree Hck]%andb_true_iff Hg] end.
  assert (is_gate g) as Hgate.
  { destruct g as [|tr]; [by left|right]. apply String.eqb_eq in Hg. by subst. }
  split_and!; try done.
  - by apply negb_true_iff in Hfree.
  - by destruct g.
  - intros g' [-> | ->] Hne; destruct Hgate as [-> | ->]; done.
  - destruct g; simpl; eauto.
  - by destruct g.
Qed.

(** What makes the appended row good, its CHECKs aside. *)
Definition times_good (g : gate) (mode : option activation_mode) (expires : option string)
    (t : string) : Prop :=
  ∃ i, dt_valid i = true ∧ t = format_time i ∧
    match mode with
    | Some window => ∃ n, 1 <= n <= window_max g ∧ dt_valid (i + n * us_per_second) = true ∧
        expires = Some (format_time (i + n * us_per_second))
    | _ => expires = None
    end.

Lemma grow_insert g decision mode expires actor t :
  times_good g mode expires t →
  evolves gates_grow (insert_activation g decision mode expires actor t).
Proof.
  intros (i & Hi & -> & Hm). unfold insert_activation.
  apply evolves_then; [apply _|by apply grow_keeps|intros _ id _ _].
  apply evolves_then; [apply _|apply grow_query|intros _ taken _ _].
  apply evolves_then; [apply _|apply grow_pure, pure_ensure|].
  intros w u w' (Hb & _ & _)%ensure_ok.
  apply andb_true_iff in Hb as [[_ Hck]%andb_true_iff Hg].
  apply evolves_bind; [apply _| |intros _].
  - intros w1. destruct g as [|tr].
    + split; [|by apply table_same]. eexists. split; [reflexivity|]. constructor; [|done].
      split_and!; [done|done|]. by exists i.
    + apply String.eqb_eq in Hg as ->. split; [by apply table_same|].
      eexists. split; [reflexivity|]. constructor; [|done]. split_and!; [done|done|]. by exists i.
  - apply evolves_bind; [apply _|apply grow_audit|intros _].
    apply grow_pure, pure_activation_row_record.
Qed.

Lemma grow_decide g operation request actor key insert :
  evolves gates_grow insert →
  evolves gates_grow (decide_activation g operation request actor key insert).
Proof.
  intros Hi. apply grow_transaction, evolves_bind; [apply _|apply grow_receipt|].
  intros [r|].
  - unfold activation_receipt, opt_text, opt_time, control_time.
    apply grow_keeps. repeat (apply keeps_bind; [|intros]); repeat case_match;
      unfold py_str; repeat case_match; eauto 10 with keeps.
  - apply evolves_bind; [apply _|done|intros rec].
    apply evolves_bind; [apply _|apply grow_save_receipt|intros _]. by apply grow_pure, pure_ret.
Qed.

Lemma grow_enable g mode seconds actor key :
  evolves gates_grow (enable_activation g mode seconds actor key).
Proof.
  unfold enable_activation.
  apply evolves_then; [apply _|apply grow_pure, pure_from_option|]. intros _ m _ _.
  apply evolves_then; [apply _|apply grow_pure, pure_ensure|]. intros _ _ _ (Hb & _ & _)%ensure_ok.
  apply evolves_then; [apply _|apply grow_pure, pure_ensure|]. intros _ _ _ (Hb2 & _ & _)%ensure_ok.
  apply grow_decide, evolves_then; [apply _|apply grow_now|].
  intros w t w' (-> & _)%now_ok. set (i := clock (w_ticks w)). pose proof (clock_valid (w_ticks w)) as Hi.
  fold i in Hi. destruct m.
  - apply evolves_then; [apply _|apply grow_pure, pure_ret|]. intros _ e _ [<- _]%ret_ok.
    apply grow_insert. by exists i.
  - destruct seconds as [n|]; [|done].
    apply evolves_then; [apply _| |].
    { apply grow_keeps. repeat (apply keeps_bind; [|intros]); unfold control_time, format_after;
        eauto with keeps. }
    intros w1 e w1' He. apply grow_insert. exists i. split_and!; [done..|].
    apply bind_ok in He as (t1 & w2 & Ht1 & He). rewrite control_time_format in Ht1 by done.
    simplify_eq. apply bind_ok in He as (e1 & w3 & He1 & [<- _]%ret_ok).
    apply format_after_ok in He1 as (r & Hr & -> & _). unfold dt_add_seconds in Hr. cbn in Hr. case_match eqn:Hv; simplify_eq.
    exists n. split_and!; [lia|lia|done|done].
Qed.

Lemma grow_disable g actor key : evolves gates_grow (disable_activation g actor key).
Proof.
  apply grow_decide, evolves_then; [apply _|apply grow_now|].
  intros w t w' (-> & _)%now_ok. apply grow_insert.
  exists (clock (w_ticks w)). split_and!; [apply clock_valid|done..].
Qed.

Lemma keeps_in_force {V} (view : world → V) g :
  (∀ w, view (World (w_db w) (S (w_ticks w)) (w_ids w)) = view w) →
  keeps view (activation_in_force g).
Proof.
  intros Hv. unfold activation_in_force.
  apply keeps_bind; [apply keeps_query|]. intros [r|]; [|apply keeps_ret].
  case_bool_decide; [|apply keeps_ret].
  apply keeps_bind; [apply keeps_of_pure, pure_activation_row_record|]. intros rec.
  destruct (av_expires_at rec); [|apply keeps_ret].
  apply keeps_bind; [intros w; apply Hv|]. intros t. by case_match.
Qed.

Lemma grow_close window_id stopped proof actor :
  evolves gates_grow (record_transport_window_closed window_id stopped proof actor).
Proof.
  unfold record_transport_window_closed.
  do 3 (apply evolves_bind; [apply _|apply grow_pure, pure_required_text|intros ?]).
  apply grow_transaction.
  apply evolves_bind; [apply _|apply grow_query|intros row].
  apply evolves_bind; [apply _|apply grow_pure, pure_from_option|intros r].
  apply evolves_bind; [apply _|apply grow_pure, pure_activation_row_record|intros rec].
  apply evolves_bind; [apply _|apply grow_pure, pure_ensure|intros _].
  apply evolves_bind; [apply _|by apply grow_keeps, keeps_in_force|intros f].
  apply evolves_bind; [apply _|apply grow_pure, pure_ensure|intros _]. apply grow_audit.
Qed.

Lemma grow_abort_window reason actor row : evolves gates_grow (abort_window reason actor row).
Proof.
  unfold abort_window.
  apply evolves_bind; [apply _|apply grow_pure, pure_activation_row_record|intros rec].
  apply evolves_bind; [apply _|by apply grow_keeps, keeps_in_force|intros f].
  apply evolves_bind; [apply _| |intros _].
  - destruct f as [f|]; [|apply evolves_ret, _]. case_match; [|apply evolves_ret, _].
    apply evolves_then; [apply _|apply grow_now|]. intros w t w' (-> & _)%now_ok.
    apply evolves_bind; [apply _| |intros; apply evolves_ret, _]. apply grow_insert.
    exists (clock (w_ticks w)). split_and!; [apply clock_valid|done..].
  - apply evolves_bind; [apply _|apply grow_audit|intros _]. apply evolves_ret, _.
Qed.
Lemma grow_abort reason actor : evolves gates_grow (abort_open_transport_windows reason actor).
Proof.
  unfold abort_open_transport_windows.
  do 2 (apply evolves_bind; [apply _|apply grow_pure, pure_required_text|intros ?]).
  apply grow_transaction, evolves_bind; [apply _|apply grow_query|intros rows].
  apply evolves_map_m; [apply _|]. intros row. apply grow_abort_window.
Qed.

(** What a record says of its row. *)
Lemma activation_record_ok r w rec w' :
  activation_row_record r w = Ok rec w' →
  w' = w ∧ av_id rec = ar_id r ∧ av_transport rec = ar_transport r ∧
  av_decision rec = activation_decision_text (ar_decision r) ∧
  av_mode rec = mode_text <$> ar_mode r ∧ av_actor_id rec = ar_actor_id r ∧
  parse_control_time (ar_decided_at r) = Some (av_decided_at rec) ∧
  av_expires_at rec = ar_expires_at r ≫= parse_control_time ∧
  ∀ w1, activation_row_record r w1 = Ok rec w1.
Proof.
  intros Hr. pose proof (pure_ok _ _ _ _ (pure_activation_row_record r) Hr) as [-> Hp].
  unfold activation_row_record in Hr. apply bind_ok in Hr as (e & w1 & He & Hr).
  unfold control_time in *. destruct (ar_expires_at r); mgo; split_and!; done.
Qed.

Lemma in_force_ok g w res w' :
  activation_in_force g w = Ok res w' →
  w_db w' = w_db w ∧
  match last (gate_rows g (w_db w)) with
  | Some r =>
      if decide (ar_decision r = enable) then
        ∃ rec, (∀ w1, activation_row_record r w1 = Ok rec w1) ∧
          res = match av_expires_at rec with
                | None => Some rec
                | Some e => if e <=? clock (w_ticks w) then None else Some rec
                end
      else res = None
  | None => res = None
  end.
Proof.
  unfold activation_in_force. intros Hf. apply bind_ok in Hf as (row & w1 & Hq & Hf).
  apply query_ok in Hq as [-> ->]. destruct (last _) as [r|]; [|by mgo].
  destruct (decide _) as [Hd | Hd]; [rewrite bool_decide_eq_true_2 in Hf by done
                                    |rewrite bool_decide_eq_false_2 in Hf by done; by mgo].
  apply bind_ok in Hf as (rec & w1 & Hr & Hf).
  apply activation_record_ok in Hr as (-> & _ & _ & _ & _ & _ & _ & _ & Hp).
  destruct (av_expires_at rec) as [e|] eqn:Ee.
  - apply bind_ok in Hf as (t & w1 & Ht & Hf). apply utc_now_ok in Ht as [-> ->].
    case_match; mgo; simpl; (split; [done|]); exists rec; rewrite Ee;
      (split; [done|]); by rewrite H0.
  - mgo. split; [done|]. exists rec. by rewrite Ee.
Qed.

(** The rows of a gate after an insertion into it. *)
Lemma gate_rows_insert g d d' row :
  is_gate g → gate_table g d' = gate_table g d ++ [row] → ar_transport row = gate_transport g →
  gate_rows g d' = gate_rows g d ++ [row].
Proof.
  intros [-> | ->]; simpl; [done|]. intros -> Ht. rewrite List.filter_app. simpl.
  by rewrite Ht.
Qed.

Lemma enable_ok g mode seconds actor key w rec w' :
  enable_activation g mode seconds actor key w = Ok rec w' →
  ∃ m request insert, parse_mode mode = Some m ∧
    decide_activation g (enable_operation g) request actor key insert w = Ok rec w' ∧
    match m, seconds with
    | window, Some n => 1 <= n <= window_max g
    | permanent, None => True
    | _, _ => False
    end ∧
    ∀ w0 rec w1, insert w0 = Ok rec w1 → ∃ row,
      is_gate g ∧ gate_table g (w_db w1) = gate_table g (w_db w0) ++ [row] ∧
      ar_transport row = gate_transport g ∧ ar_decision row = enable ∧
      (∀ w2, activation_row_record row w2 = Ok rec w2) ∧
      av_decided_at rec = clock (w_ticks w0) ∧
      av_expires_at rec = match m, seconds with
        | window, Some n => Some (clock (w_ticks w0) + n * us_per_second)
        | _, _ => None
        end.
Proof.
  unfold enable_activation. intros He. apply bind_ok in He as (m & w1 & Hm & He).
  apply from_option_ok in Hm as [Hm ->].
  apply bind_ok in He as ([] & w1 & (Hb & _ & ->)%ensure_ok & He).
  apply bind_ok in He as ([] & w1 & (Hb2 & _ & ->)%ensure_ok & He).
  exists m. do 2 eexists. split; [done|]. split; [exact He|]. split.
  { destruct m, seconds; try done. lia. }
  clear He. intros w0 rec0 w1 Hi. apply bind_ok in Hi as (t & w2 & (-> & ->)%now_ok & Hi).
  apply bind_ok in Hi as (e & w3 & He & Hi). pose proof (clock_valid (w_ticks w0)) as Hv.
  apply insert_activation_ok in Hi as (row & Hrow & _ & Hg & _ & Ht & _ & _ & _ & Hp).
  pose proof (activation_record_ok _ _ _ _ (Hp w1)) as (_ & _ & _ & _ & _ & _ & Hat & Hexp & _).
  subst row. simpl in Hat, Hexp. rewrite parse_format_time in Hat by done. injection Hat as Hat.
  destruct m.
  - apply ret_ok in He as [<- <-]. eexists. split_and!; done.
  - destruct seconds as [n|]; [|done]. apply bind_ok in He as (t1 & w4 & Ht1 & He).
    rewrite control_time_format in Ht1 by done. simplify_eq.
    apply bind_ok in He as (e1 & w5 & (r & Hr & -> & ->)%format_after_ok & [<- <-]%ret_ok).
    unfold dt_add_seconds in Hr. cbn in Hr. case_match eqn:Hv2; [|done]. injection Hr as <-.
    eexists. split_and!; try done. simpl in Hexp. by rewrite parse_format_time in Hexp.
Qed.

(** A decision either answers from its receipt and changes nothing, or inserts. *)
Lemma decide_ok g operation request actor key insert w rec w' :
  decide_activation g operation request actor key insert w = Ok rec w' →
  match idempotency_receipts (w_db w) !! (actor, operation, key) with
  | Some _ => w_db w' = w_db w
  | None => ∃ w1, insert w = Ok rec w1 ∧
      w_db w' = set_receipts (<[(actor, operation, key) := ReceiptRow (request_hash request) 201
        (json_text (activation_response g rec)) (format_time (clock (w_ticks w1)))]>) (w_db w1)
  end.
Proof.
  unfold decide_activation. rewrite transaction_ok. intros Hd.
  apply bind_ok in Hd as (replay & w0 & Hrec & Hd). apply receipt_ok in Hrec as (-> & _ & Hrec).
  destruct (idempotency_receipts _ !! _) as [row|].
  - destruct Hrec as (_ & v & _ & ->).
    apply (keeps_ok w_db) in Hd; [done|].
    unfold activation_receipt, opt_text, opt_time, control_time.
    repeat (apply keeps_bind; [|intros]); repeat case_match;
      unfold py_str; repeat case_match; eauto 10 with keeps.
  - subst. apply bind_ok in Hd as (rec0 & w1 & Hi & Hd).
    apply bind_ok in Hd as (cr & w2 & (_ & _ & ->)%save_receipt_ok & [<- <-]%ret_ok). eauto.
Qed.

Lemma gate_table_receipts g f d : gate_table g (set_receipts f d) = gate_table g d.
Proof. by destruct g. Qed.
Lemma gate_rows_table g d d' :
  gate_table g d' = gate_table g d → gate_rows g d' = gate_rows g d.
Proof. destruct g; simpl; congruence. Qed.

Lemma disable_ok g actor key w rec w' :
  disable_activation g actor key w = Ok rec w' →
  match idempotency_receipts (w_db w) !! (actor, disable_operation g, key) with
  | Some _ => w_db w' = w_db w
  | None => ∃ row, is_gate g ∧ gate_table g (w_db w') = gate_table g (w_db w) ++ [row] ∧
      ar_transport row = gate_transport g ∧ ar_decision row = disable
  end.
Proof.
  intros Hd%decide_ok. destruct (idempotency_receipts _ !! _); [done|].
  destruct Hd as (w1 & Hi & ->). apply bind_ok in Hi as (t & w2 & (-> & ->)%now_ok & Hi).
  apply insert_activation_ok in Hi as (row & -> & _ & Hg & _ & Ht & _). eexists.
  split_and!; [done|by rewrite gate_table_receipts|done..].
Qed.

(** A gate whose newest decision disables is shut. *)
Lemma shut g w row :
  last (gate_rows g (w_db w)) = Some row → ar_decision row = disable →
  activation_in_force g w = Ok None w.
Proof.
  intros Hl Hd. unfold activation_in_force.
  rewrite (bind_run _ _ _ (Some row) w) by (by apply query_ok).
  by rewrite bool_decide_eq_false_2 by (by rewrite Hd).
Qed.

(** One aborted window: accounted for, and nothing but [disable] decisions added. *)
Lemma abort_window_ok reason actor row w id w' :
  abort_window reason actor row w = Ok id w' →
  id = ar_id row ∧ accounted (w_db w') id = true ∧
  control_audit (w_db w) `prefix_of` control_audit (w_db w') ∧
  ∃ new, transport_activation_decisions (w_db w') = transport_activation_decisions (w_db w) ++ new
    ∧ Forall (λ r, ar_decision r = disable) new.
Proof.
  unfold abort_window. intros Hr. apply bind_ok in Hr as (rec & w0 & Hrec & Hr).
  apply activation_record_ok in Hrec as (-> & Eid & Etr & _). rewrite Eid in Hr.
  apply bind_ok in Hr as (f & w1 & Hf & Hr). apply in_force_ok in Hf as [Hdb _].
  apply bind_ok in Hr as (u & w2 & Hd & Hr).
  apply bind_ok in Hr as (u' & w3 & (_ & _ & ->)%audit_ok & [<- <-]%ret_ok).
  rewrite <- Hdb. split; [done|]. split.
  { unfold accounted. simpl. rewrite existsb_app. simpl. by rewrite String.eqb_refl, orb_true_r. }
  assert (control_audit (w_db w1) `prefix_of` control_audit (w_db w2) ∧
    ∃ new, transport_activation_decisions (w_db w2) = transport_activation_decisions (w_db w1) ++ new
      ∧ Forall (λ r, ar_decision r = disable) new) as [Hp Hnew].
  { destruct f as [f|]; [destruct (String.eqb _ _)|]; try (apply ret_ok in Hd as [_ ->];
      split; [done|exists []; by rewrite app_nil_r]).
    apply bind_ok in Hd as (t & w4 & (-> & ->)%now_ok & Hd).
    apply bind_ok in Hd as (r & w5 & Hi & [_ ->]%ret_ok).
    apply insert_activation_ok in Hi as (nrow & -> & _ & _ & _ & Ht & _ & (au & Hau & _) & _).
    simpl in Ht. split; [rewrite Hau; by apply prefix_app_r|]. eexists. split; [exact Ht|].
    by constructor. }
  split; [simpl; by apply prefix_app_r|]. exact Hnew.
Qed.

Lemma accounted_prefix d d' id :
  control_audit d `prefix_of` control_audit d' → accounted d id = true → accounted d' id = true.
Proof. intros [l E]. unfold accounted. rewrite E, existsb_app. intros ->. done. Qed.

Lemma abort_windows_ok reason actor rows w ids w' :
  map_m (abort_window reason actor) rows w = Ok ids w' →
  ids = map ar_id rows ∧ Forall (λ id, accounted (w_db w') id = true) ids ∧
  control_audit (w_db w) `prefix_of` control_audit (w_db w') ∧
  ∃ new, transport_activation_decisions (w_db w') = transport_activation_decisions (w_db w) ++ new
    ∧ Forall (λ r, ar_decision r = disable) new.
Proof.
  revert w ids. induction rows as [|row rows IH]; intros w ids Hm; simpl in Hm.
  - apply ret_ok in Hm as [<- <-]. split_and!; [done|done|done|].
    exists []. by rewrite app_nil_r.
  - apply bind_ok in Hm as (id & w1 & Hw & Hm). apply bind_ok in Hm as (ids' & w2 & Hm & [<- <-]%ret_ok).
    apply abort_window_ok in Hw as (-> & Ha & Hp & n1 & E1 & F1).
    destruct (IH _ _ Hm) as (-> & Ha' & Hp' & n2 & E2 & F2).
    split_and!; [done| |by etrans|].
    + constructor; [|done]. by eapply accounted_prefix.
    + exists (n1 ++ n2). rewrite E2, E1, app_assoc. split; [done|]. by apply Forall_app.
Qed.

Lemma open_windows_elem d r :
  r ∈ open_windows d ↔ r ∈ transport_activation_decisions d ∧ ar_mode r = Some window ∧
    ar_decision r = enable ∧ accounted d (ar_id r) = false.
Proof.
  unfold open_windows. rewrite list_elem_of_In, List.filter_In, <- list_elem_of_In.
  rewrite !andb_true_iff, !bool_decide_eq_true, negb_true_iff. tauto.
Qed.
End GateFacts.
