(* ===== verification/ActivationTheorems.v ===== *)
(** * Approvals and gates: their theorems *)

From S2P Require Import Prelude PyText Clock Json Schema Store Demo Activation ActivationFacts.
Open Scope Z_scope.

(** ** Release approvals *)

Inductive release_command :=
| ReleaseCommand (decision : release_decision) (release_id sha actor key : string).

Section Releases.
Context `{Env}.

Definition run_release (c : release_command) : M world exc release_record :=
  match c with
  | ReleaseCommand d r s a k => record_runtime_release_decision d r s a k
  end.

(** The abstract register: what was last decided of each identity. *)
Abbreviation register := (gmap (string * string) release_decision).
Definition register_step (c : release_command) (o : outcome world exc release_record)
    (m : register) : register :=
  match o, c with
  | Ok _ _, ReleaseCommand d r s _ _ => <[(r, s) := d]> m
  | Err _ _, _ => m
  end.
Fixpoint release_session (cmds : list release_command) (w : world) (m : register) :
    world * register :=
  match cmds with
  | [] => (w, m)
  | c :: cmds' =>
      release_session cmds' (end_world (run_release c w)) (register_step c (run_release c w) m)
  end.

Definition register_of (d : db) (m : register) : Prop :=
  (∀ r s, m !! (r, s) = rr_decision <$> last (release_rows r s d)) ∧
  (∀ row, row ∈ runtime_release_approvals d → ∃ rec, ∀ w, runtime_release_row row w = Ok rec w).

Lemma release_rows_elem r s d row :
  last (release_rows r s d) = Some row → row ∈ runtime_release_approvals d.
Proof.
  intros (l & Hl)%last_Some. assert (row ∈ release_rows r s d) as Hin.
  { rewrite Hl. apply elem_of_app. right. by left. }
  unfold release_rows in Hin.
  rewrite list_elem_of_In, List.filter_In, <- list_elem_of_In in Hin. tauto.
Qed.

Lemma register_step_ok c w m :
  register_of (w_db w) m →
  register_of (w_db (end_world (run_release c w))) (register_step c (run_release c w) m).
Proof.
  intros [Hm Hrows]. destruct c as [d r s a k]. simpl.
  destruct (record_runtime_release_decision d r s a k w) as [rec w'|e w'] eqn:Hr; simpl.
  - apply record_release_ok in Hr as [(Ht & _ & row & Hl & Hd) | (row & Ht & <- & <- & <- & _ & Hrec)].
    + assert (∀ r s, release_rows r s (w_db w') = release_rows r s (w_db w)) as E
        by (intros; unfold release_rows; by rewrite Ht).
      split; [|by rewrite Ht]. intros r' s'. rewrite E.
      destruct (decide ((r, s) = (r', s'))) as [[= <- <-] | Hne].
      * by rewrite lookup_insert_eq, Hl, <- Hd.
      * by rewrite lookup_insert_ne, Hm.
    + split.
      * intros r' s'. rewrite (release_rows_snoc _ _ _ _ _ Ht).
        destruct (String.eqb_spec (rr_release_id row) r') as [<- | Hne1],
          (String.eqb_spec (rr_manifest_sha256 row) s') as [<- | Hne2]; simpl;
          rewrite ?app_nil_r.
        -- by rewrite lookup_insert_eq, last_snoc.
        -- rewrite lookup_insert_ne by congruence. apply Hm.
        -- rewrite lookup_insert_ne by congruence. apply Hm.
        -- rewrite lookup_insert_ne by congruence. apply Hm.
      * intros row' Hin. rewrite Ht in Hin. apply elem_of_app in Hin as [Hin | Hin]; [auto|].
        apply list_elem_of_singleton in Hin as ->. eauto.
  - assert (w_db w' = w_db w) as ->; [|done].
    revert Hr. apply (λ X : atomic _, X w e w'). unfold record_runtime_release_decision.
    apply atomic_bind; [|intros; apply atomic_transaction].
    unfold validated_release_identity. eauto with keeps.
Qed.

Lemma release_session_ok cmds w m :
  register_of (w_db w) m →
  register_of (w_db (release_session cmds w m).1) (release_session cmds w m).2.
Proof.
  revert w m. induction cmds as [|c cmds IH]; intros w m Hm; [done|]. simpl.
  by apply IH, register_step_ok.
Qed.
End Releases.

(** C20: the approval table refines a register of last decisions: after any
    sequence of approvals and revocations, retried, repeated, reversed or
    refused, an exact release is approved precisely when the last request that
    was answered for this release and digest was an approval. *)
Theorem release_approval_refines `{Env} cmds ticks ids release_id sha :
  let '(w, register) := release_session cmds (World empty_db ticks ids) ∅ in
  1 <= slen release_id <= 200 → is_sha256 sha = true →
  runtime_release_approved release_id sha w =
    Ok (bool_decide (register !! (release_id, sha) = Some approve)) w.
Proof.
  assert (register_of (w_db (World empty_db ticks ids)) ∅) as H0.
  { split; [by intros; rewrite lookup_empty|]. intros row Hin. by apply not_elem_of_nil in Hin. }
  apply (release_session_ok cmds) in H0.
  destruct (release_session cmds _ ∅) as [w register]. simpl in H0. destruct H0 as [Hm Hrows].
  intros Hid Hsha. unfold runtime_release_approved, runtime_release_decision.
  rewrite Hm.
  assert (validated_release_identity release_id sha w = Ok tt w) as Hv.
  { unfold validated_release_identity, ensure. rewrite Hsha.
    rewrite (proj2 (andb_true_iff _ _)) by lia. done. }
  assert (∃ s, standing_release_decision release_id sha w = Ok s w ∧
    approves s = bool_decide (rr_decision <$> last (release_rows release_id sha (w_db w)) = Some approve))
    as (s & Hs & Ha).
  { unfold standing_release_decision.
    rewrite (bind_run _ _ _ (last (release_rows release_id sha (w_db w))) w) by (by apply query_ok).
    destruct (last _) as [row|] eqn:El; [|by exists None].
    destruct (Hrows row (release_rows_elem _ _ _ _ El)) as [rec Hrec].
    rewrite (bind_run _ _ _ _ _ (Hrec w)). exists (Some rec). split; [done|]. simpl.
    specialize (Hrec w). unfold runtime_release_row in Hrec. mgo. simpl.
    by destruct (rr_decision row). }
  rewrite (bind_run _ _ _ s w); [by rewrite <- Ha|]. by rewrite (bind_run _ _ _ _ _ Hv).
Qed.

Definition demo_sha : string := pad 64 7.
Lemma release_approval_refines_witness :
  let cmds := [ReleaseCommand approve "r1" demo_sha "op" "idempotency-key-1";
               ReleaseCommand revoke "r1" demo_sha "op" "idempotency-key-2";
               ReleaseCommand approve "r1" demo_sha "op" "idempotency-key-1"] in
  let w := (release_session cmds demo_world ∅).1 in
  runtime_release_approved "r1" demo_sha w = Ok true w.
Proof.
  assert (1 <= slen "r1" <= 200) as H1 by (vm_compute; split; discriminate).
  assert (is_sha256 demo_sha = true) as H2 by (vm_compute; reflexivity).
  pose proof (release_approval_refines [ReleaseCommand approve "r1" demo_sha "op" "idempotency-key-1";
               ReleaseCommand revoke "r1" demo_sha "op" "idempotency-key-2";
               ReleaseCommand approve "r1" demo_sha "op" "idempotency-key-1"] 0 0 "r1" demo_sha) as H3.
  revert H3. cbv zeta. fold demo_world.
  set (s := release_session _ demo_world ∅).
  assert (bool_decide (s.2 !! ("r1", demo_sha) = Some approve) = true) as E by (vm_compute; reflexivity).
  destruct s as [w register]. simpl in *. intros H3. rewrite (H3 H1 H2), E. reflexivity.
Defined.

(** Repeating an approval under the key of an older one, after a revocation
    and a fresh approval, writes nothing but does not answer with the decision
    in force: it answers with the superseded one its receipt was filed for. *)
Theorem release_replay_is_superseded :
  let approve key := ReleaseCommand approve "r1" demo_sha "op" key in
  let revoke key := ReleaseCommand revoke "r1" demo_sha "op" key in
  let w := (release_session [approve "idempotency-key-1"; revoke "idempotency-key-2";
              approve "idempotency-key-3"] demo_world ∅).1 in
  let none := ReleaseRecord "" "" "" "" "" 0 in
  let replayed := answer none (run_release (approve "idempotency-key-1") w) in
  let standing := answer None (standing_release_decision "r1" demo_sha w) in
  is_ok (run_release (approve "idempotency-key-1") w) = true ∧
  rl_id replayed = "runtime-release-approval-0" ∧
  rl_id <$> standing = Some "runtime-release-approval-4".
Proof. vm_compute. done. Qed.

(** ** Gates *)

(** An enabling decision made under a fresh key puts its gate in force
    exactly until its stored end: for every later reading of the clock, as long
    as no further decision is made for the gate, the gate answers this decision
    while the reading is before [decision time + window_seconds] and nothing from
    that instant on; a permanent one has no end. *)
Theorem enabled_until_expiry `{Env} g mode seconds actor key w rec w1 :
  enable_activation g mode seconds actor key w = Ok rec w1 →
  idempotency_receipts (w_db w) !! (actor, enable_operation g, key) = None →
  ∀ w2, gate_rows g (w_db w2) = gate_rows g (w_db w1) →
  let ended := match seconds with
               | Some n => clock (w_ticks w) + n * us_per_second <=? clock (w_ticks w2)
               | None => false
               end in
  ∃ w3, activation_in_force g w2 = Ok (if ended then None else Some rec) w3 ∧ w_db w3 = w_db w2.
Proof.
  intros (m & request & insert & Hm & Hd & Hms & Hins)%enable_ok Hkey w2 Hrows ended.
  apply decide_ok in Hd. rewrite Hkey in Hd. destruct Hd as (w0 & Hi & Hw1).
  destruct (Hins _ _ _ Hi) as (row & Hg & Ht & Htr & Hdec & Hrec & Hat & Hexp).
  assert (last (gate_rows g (w_db w2)) = Some row) as Hlast.
  { rewrite Hrows, (gate_rows_insert g (w_db w) (w_db w1) row);
      [apply last_snoc|done|by rewrite Hw1, gate_table_receipts|done]. }
  unfold activation_in_force.
  rewrite (bind_run _ _ _ (Some row) w2) by (by apply query_ok).
  rewrite bool_decide_eq_true_2 by done. rewrite (bind_run _ _ _ _ _ (Hrec w2)).
  rewrite Hexp. subst ended. destruct m, seconds as [n|]; try done; [by eexists|].
  rewrite (bind_run _ _ _ _ _ (proj2 (utc_now_ok w2 _ _) (conj eq_refl eq_refl))).
  by destruct (_ <=? _); eexists.
Qed.

Abbreviation demo_window :=
  (enable_activation (transport_gate "telegram") "window" (Some 600) "op" "idempotency-key-1"
    demo_world).
Abbreviation demo_no_record := (ActivationRecord "" "" "" None None "" 0).
Lemma enabled_until_expiry_witness :
  ∃ w3, activation_in_force (transport_gate "telegram") (end_world demo_window)
        = Ok (Some (answer demo_no_record demo_window)) w3 ∧ w_db w3 = w_db (end_world demo_window).
Proof.
  assert (is_ok demo_window = true) as A by (vm_compute; reflexivity).
  pose proof (answered demo_no_record demo_window A) as B.
  assert (idempotency_receipts (w_db demo_world) !!
    ("op", enable_operation (transport_gate "telegram"), "idempotency-key-1") = None) as C
    by (vm_compute; reflexivity).
  destruct (enabled_until_expiry _ _ _ _ _ _ _ _ B C (end_world demo_window) eq_refl)
    as (w3 & H1 & H2).
  exists w3. split; [|exact H2]. rewrite H1.
  assert ((clock (w_ticks demo_world) + 600 * us_per_second
    <=? clock (w_ticks (end_world demo_window))) = false) as -> by (vm_compute; reflexivity).
  reflexivity.
Defined.

(** The commands on the gates. *)
Inductive gate_command :=
| EnableRuntime (mode : string) (seconds : option Z) (actor key : string)
| DisableRuntime (actor key : string)
| EnableTransport (transport scope : string) (seconds : option Z) (actor key : string)
| DisableTransport (transport actor key : string)
| CloseWindow (window_id : string) (poller_stopped : bool) (proof actor : string)
| AbortWindows (reason actor : string).

Section GateSessions.
Context `{Env}.

Definition run_gate (c : gate_command) : M world exc unit :=
  match c with
  | EnableRuntime m s a k => enable_runtime_activation m s a k;; mret tt
  | DisableRuntime a k => disable_runtime_activation a k;; mret tt
  | EnableTransport t m s a k => enable_transport_activation t m s a k;; mret tt
  | DisableTransport t a k => disable_transport_activation t a k;; mret tt
  | CloseWindow i p q a => record_transport_window_closed i p q a
  | AbortWindows r a => abort_open_transport_windows r a;; mret tt
  end.
Definition gate_session (cmds : list gate_command) (w : world) : world :=
  fold_left (λ w c, end_world (run_gate c w)) cmds w.

Lemma run_gate_grows c : evolves gates_grow (run_gate c).
Proof.
  destruct c; simpl; try (apply evolves_bind; [apply _| |intros; apply evolves_ret, _]).
  - apply grow_enable.
  - apply grow_disable.
  - apply evolves_bind; [apply _| |intros; apply grow_enable].
    unfold activation_transport. apply grow_pure. eauto with pure.
  - apply evolves_bind; [apply _| |intros; apply grow_disable].
    unfold activation_transport. apply grow_pure. eauto with pure.
  - apply grow_close.
  - apply grow_abort.
Qed.

Lemma gate_session_grows cmds w : gates_grow w (gate_session cmds w).
Proof.
  revert w. induction cmds as [|c cmds IH]; intros w; simpl; [reflexivity|].
  etrans; [apply run_gate_grows|apply IH].
Qed.
End GateSessions.

(** C21: the decision tables are an append-only log of well-formed decisions,
    and no window outlasts its bound: whatever is asked of the gates, what is in
    force for Telegram at a reading of the clock is either permanent or ends
    after that reading and at most 1800 seconds after it was decided. *)
Theorem telegram_window_bounded `{Env} cmds ticks ids f w' :
  let w := gate_session cmds (World empty_db ticks ids) in
  transport_activation "telegram" w = Ok (Some f) w' →
  av_transport f = "telegram" ∧ av_decision f = "enable" ∧
  match av_expires_at f with
  | None => av_mode f = Some "permanent"
  | Some e => av_mode f = Some "window" ∧
      clock (w_ticks w) < e <= av_decided_at f + TRANSPORT_WINDOW_MAX_SECONDS * us_per_second
  end.
Proof.
  intros w Hf. unfold transport_activation, activation_transport in Hf.
  rewrite (bind_run _ _ _ "telegram" w) in Hf by done.
  apply in_force_ok in Hf as [_ Hf].
  destruct (gate_session_grows cmds (World empty_db ticks ids)) as [_ (new & Ht & Hgood)].
  fold w in Ht. simpl in Ht.
  destruct (last (gate_rows (transport_gate "telegram") (w_db w))) as [r|] eqn:El; [|done].
  destruct (decide (ar_decision r = enable)) as [Hd|]; [|done].
  destruct Hf as (rec & Hrec & Hf).
  apply last_Some in El as (l & El).
  assert (r ∈ gate_rows (transport_gate "telegram") (w_db w)) as Hin.
  { rewrite El. apply elem_of_app. right. by left. }
  simpl in Hin. rewrite list_elem_of_In, List.filter_In, Ht in Hin. destruct Hin as [Hin _].
  rewrite List.Forall_forall in Hgood. destruct (Hgood r Hin) as (Hck & Htr & t & Hv & Hat & Hm).
  pose proof (activation_record_ok _ _ _ _ (Hrec w)) as (_ & _ & Et & Ed & Em & _ & Ea & Ee & _).
  rewrite Hat, parse_format_time in Ea by done. injection Ea as Ea.
  assert (f = rec) as -> by (repeat case_match; congruence).
  split; [rewrite Et; by eapply Htr|]. split; [by rewrite Ed, Hd|].
  unfold activation_check in Hck. rewrite Hd in Hck.
  destruct (ar_mode r) as [[]|]; [|destruct Hm as (n & Hn & Hvn & Hx)|].
  - rewrite Hm in Ee. simpl in Ee. by rewrite Ee, Em.
  - rewrite Hx in Ee. simpl in Ee. rewrite parse_format_time in Ee by done. rewrite Ee in *.
    rewrite Em. split; [done|]. unfold window_max in Hn.
    destruct (Z.leb_spec (t + n * us_per_second) (clock (w_ticks w))); [done|].
    unfold us_per_second in *. lia.
  - rewrite !andb_false_r in Hck. done.
Qed.

Lemma telegram_window_bounded_witness :
  let cmds := [EnableTransport "telegram" "window" (Some 600) "op" "idempotency-key-1"] in
  let w := gate_session cmds (World empty_db 0 0) in
  av_transport (default demo_no_record (answer None (transport_activation "telegram" w)))
  = "telegram".
Proof.
  assert (is_ok (transport_activation "telegram" (gate_session
    [EnableTransport "telegram" "window" (Some 600) "op" "idempotency-key-1"] (World empty_db 0 0)))
    = true) as A by (vm_compute; reflexivity).
  pose proof (answered None _ A) as B. cbv zeta. revert B.
  set (o := transport_activation "telegram" _).
  assert (is_Some (answer None o)) as [f Hf] by (vm_compute; eexists; reflexivity).
  rewrite Hf. intros B. exact (proj1 (telegram_window_bounded _ _ _ _ _ B)).
Defined.

(** A disabling decision shuts its gate, and a repeated enable does not open
    it again: after a disable under a fresh key nothing is in force, at any
    reading, until a new decision is made, and an enable whose key was used before
    answers its old decision without making one. *)
Theorem disable_shuts_gate `{Env} g actor key w rec w1 :
  disable_activation g actor key w = Ok rec w1 →
  idempotency_receipts (w_db w) !! (actor, disable_operation g, key) = None →
  ∀ w2, gate_rows g (w_db w2) = gate_rows g (w_db w1) →
  activation_in_force g w2 = Ok None w2 ∧
  ∀ mode seconds actor' key' rec' w3,
    is_Some (idempotency_receipts (w_db w2) !! (actor', enable_operation g, key')) →
    enable_activation g mode seconds actor' key' w2 = Ok rec' w3 →
    activation_in_force g w3 = Ok None w3.
Proof.
  intros Hd Hk w2 Hw2. apply disable_ok in Hd. rewrite Hk in Hd.
  destruct Hd as (row & Hg & Ht & Htr & Hdec).
  assert (last (gate_rows g (w_db w2)) = Some row) as Hl.
  { rewrite Hw2, (gate_rows_insert g (w_db w) (w_db w1) row) by done. apply last_snoc. }
  split; [by eapply shut|]. intros mode seconds actor' key' rec' w3 [r Hr] He.
  apply enable_ok in He as (m & request & insert & _ & He & _). apply decide_ok in He.
  rewrite Hr in He. eapply shut; [|exact Hdec]. by rewrite He.
Qed.

Abbreviation demo_opened := (end_world demo_window).
Abbreviation demo_shut :=
  (disable_activation (transport_gate "telegram") "op" "idempotency-key-2" demo_opened).
Lemma disable_shuts_gate_witness :
  activation_in_force (transport_gate "telegram") (end_world demo_shut)
  = Ok None (end_world demo_shut).
Proof.
  assert (is_ok demo_shut = true) as A by (vm_compute; reflexivity).
  assert (idempotency_receipts (w_db demo_opened) !!
    ("op", disable_operation (transport_gate "telegram"), "idempotency-key-2") = None) as C
    by (vm_compute; reflexivity).
  exact (proj1 (disable_shuts_gate _ _ _ _ _ _ (answered demo_no_record _ A) C _ eq_refl)).
Defined.

(** A window is never recorded closed while it still authorises a send: the
    closing of the window in force is refused, whatever proof is offered, and
    writes nothing. *)
Theorem open_window_not_closed `{Env} id stopped proof actor row f w w0 :
  strip id ≠ "" → slen id <= 200 → strip proof ≠ "" → slen proof <= 200 →
  strip actor ≠ "" → slen actor <= 200 →
  find_decision (strip id) (w_db w) = Some row → ar_mode row = Some window →
  activation_in_force (transport_gate (ar_transport row)) w = Ok (Some f) w0 →
  av_id f = strip id → is_Some (parse_control_time (ar_decided_at row)) →
  match ar_expires_at row with Some e => is_Some (parse_control_time e) | None => True end →
  ∃ w', record_transport_window_closed id stopped proof actor w
        = Err (InvalidTransition "open" "closed") w' ∧ w_db w' = w_db w.
Proof.
  intros Hi1 Hi2 Hp1 Hp2 Ha1 Ha2 Hfind Hmode Hf Hid [t Ht] He.
  assert (∃ rec, activation_row_record row w = Ok rec w) as [rec Hrec].
  { unfold activation_row_record, control_time, from_option.
    destruct (ar_expires_at row) as [e|]; [destruct He as [te Hte]|];
      eexists; unfold mbind, M_bind; rewrite ?Hte, Ht; reflexivity. }
  pose proof (activation_record_ok _ _ _ _ Hrec) as (_ & _ & Etr & _ & Em & _).
  unfold record_transport_window_closed.
  rewrite (bind_run _ _ _ (strip id) w) by (by apply required_text_ok).
  rewrite (bind_run _ _ _ (strip proof) w) by (by apply required_text_ok).
  rewrite (bind_run _ _ _ (strip actor) w) by (by apply required_text_ok).
  unfold transaction.
  rewrite (bind_run _ _ _ (Some row) w) by (by apply query_ok).
  rewrite (bind_run _ _ _ row w) by done.
  rewrite (bind_run _ _ _ _ _ Hrec). rewrite Em, Hmode.
  rewrite (bind_run _ _ _ tt w) by done. rewrite Etr.
  rewrite (bind_run _ _ _ _ _ Hf), Hid, String.eqb_refl. simpl. by eexists.
Qed.

Abbreviation demo_open_row :=
  (default (ActivationRow "" "" disable None None "" "")
    (find_decision "transport-activation-0" (w_db demo_opened))).
Lemma open_window_not_closed_witness :
  ∃ w', record_transport_window_closed "transport-activation-0" true "socket gone" "op" demo_opened
        = Err (InvalidTransition "open" "closed") w' ∧ w_db w' = w_db demo_opened.
Proof.
  assert (is_ok (activation_in_force (transport_gate (ar_transport demo_open_row)) demo_opened) = true)
    as A by (vm_compute; reflexivity).
  pose proof (answered None _ A) as B. revert B.
  set (o := activation_in_force _ _).
  assert (answer None o = Some (answer demo_no_record demo_window)) as Hf by (vm_compute; reflexivity).
  rewrite Hf. intros B.
  assert (find_decision (strip "transport-activation-0") (w_db demo_opened) = Some demo_open_row)
    as G1 by (vm_compute; reflexivity).
  assert (ar_mode demo_open_row = Some window) as G2 by (vm_compute; reflexivity).
  assert (av_id (answer demo_no_record demo_window) = strip "transport-activation-0") as G3
    by (vm_compute; reflexivity).
  assert (is_Some (parse_control_time (ar_decided_at demo_open_row))) as G4
    by (vm_compute; eexists; reflexivity).
  assert (match ar_expires_at demo_open_row with
          | Some e => is_Some (parse_control_time e) | None => True end) as G5
    by (vm_compute; eexists; reflexivity).
  exact (open_window_not_closed "transport-activation-0" true "socket gone" "op" demo_open_row
    (answer demo_no_record demo_window) demo_opened (end_world o) ltac:(discriminate) ltac:(discriminate)
    ltac:(discriminate) ltac:(discriminate) ltac:(discriminate) ltac:(discriminate) G1 G2 B G3 G4 G5).
Defined.

(** At a restart every window the product cannot account for is accounted
    for, once: the abort answers the ids of exactly the windows without a closing
    or aborting record, leaves none such, only ever adds disabling decisions, and
    a second abort finds nothing to do. *)
Theorem abort_accounts_for_windows `{Env} reason actor w ids w' :
  abort_open_transport_windows reason actor w = Ok ids w' →
  ids = map ar_id (open_windows (w_db w)) ∧ open_windows (w_db w') = [] ∧
  (∃ new, transport_activation_decisions (w_db w') = transport_activation_decisions (w_db w) ++ new
     ∧ Forall (λ r, ar_decision r = disable) new) ∧
  ∀ ids2 w2, abort_open_transport_windows reason actor w' = Ok ids2 w2 → ids2 = [] ∧ w2 = w'.
Proof.
  intros Ha. unfold abort_open_transport_windows in *.
  apply bind_ok in Ha as (r & w1 & (_ & _ & -> & ->)%required_text_ok & Ha).
  apply bind_ok in Ha as (a & w1 & (_ & _ & -> & ->)%required_text_ok & Ha).
  rewrite transaction_ok in Ha. apply bind_ok in Ha as (rows & w1 & [-> ->]%query_ok & Ha).
  apply abort_windows_ok in Ha as (-> & Hacc & Hpre & new & Ht & Hnew).
  assert (open_windows (w_db w') = []) as Hnone.
  { apply elem_of_nil_inv. intros x (Hx & Hm & Hd & Hun)%open_windows_elem.
    rewrite Ht in Hx. apply elem_of_app in Hx as [Hx | Hx].
    - destruct (accounted (w_db w) (ar_id x)) eqn:E.
      + by rewrite (accounted_prefix _ _ _ Hpre E) in Hun.
      + rewrite List.Forall_forall in Hacc. rewrite (Hacc (ar_id x)) in Hun; [done|].
        apply in_map, list_elem_of_In, open_windows_elem. done.
    - rewrite List.Forall_forall in Hnew. rewrite (Hnew x) in Hd by (by apply list_elem_of_In). done. }
  split_and!; [done|done|eauto|]. intros ids2 w2 Ha2.
  apply bind_ok in Ha2 as (r & w1 & (_ & _ & -> & ->)%required_text_ok & Ha2).
  apply bind_ok in Ha2 as (a & w1 & (_ & _ & -> & ->)%required_text_ok & Ha2).
  rewrite transaction_ok in Ha2. apply bind_ok in Ha2 as (rows & w1 & [-> ->]%query_ok & Ha2).
  rewrite Hnone in Ha2. by apply ret_ok in Ha2 as [<- <-].
Qed.

Abbreviation demo_aborted := (abort_open_transport_windows "restart" "op" demo_opened).
Lemma abort_accounts_for_windows_witness :
  answer [] demo_aborted = map ar_id (open_windows (w_db demo_opened)) ∧
  open_windows (w_db (end_world demo_aborted)) = [].
Proof.
  assert (is_ok demo_aborted = true) as A by (vm_compute; reflexivity).
  destruct (abort_accounts_for_windows _ _ _ _ _ (answered [] demo_aborted A)) as (H1 & H2 & _).
  split; assumption.
Defined.
