(* ===== verification/Schedules.v ===== *)
(** * Research schedules

    The durable job inventory of [control/store.py]: registration, arming, the
    due list and the closing of a tick. *)

From S2P Require Import Prelude PyText Clock Json Schema Store Demo.
Open Scope Z_scope.

(** [_RESEARCH_SCHEDULE_OPERATIONS], [_RESEARCH_CADENCE_SOURCES],
    [_RESEARCH_SCHEDULE_OUTCOMES]: membership, as the enumerated value. *)
Definition parse_operation (s : string) : option schedule_operation :=
  if String.eqb s "capture_drain" then Some capture_drain
  else if String.eqb s "legacy" then Some legacy
  else if String.eqb s "xhs_pull" then Some xhs_pull
  else if String.eqb s "xhs_drain" then Some xhs_drain else None.
Definition parse_cadence (s : string) : option cadence_source :=
  if String.eqb s "product" then Some product
  else if String.eqb s "migrated" then Some migrated
  else if String.eqb s "unknown" then Some unknown else None.
Definition parse_outcome (s : string) : option schedule_outcome :=
  if String.eqb s "ran" then Some ran
  else if String.eqb s "skipped" then Some skipped
  else if String.eqb s "refused" then Some refused
  else if String.eqb s "failed" then Some outcome_failed else None.

(** The dictionary of a row, [enabled] as a boolean. *)
Definition schedule_json (job_key : string) (r : schedule_row) : json := JObj
  [("job_key", JStr job_key); ("operation", JStr (schedule_operation_text (sc_operation r)));
   ("enabled", JBool (sc_enabled r)); ("interval_seconds", JInt (sc_interval_seconds r));
   ("next_due_at", JStr (sc_next_due_at r)); ("last_started_at", opt_json (sc_last_started_at r));
   ("last_finished_at", opt_json (sc_last_finished_at r));
   ("last_outcome", opt_json (schedule_outcome_text <$> sc_last_outcome r));
   ("cadence_source", JStr (cadence_source_text (sc_cadence_source r)));
   ("legacy_schedule", opt_json (sc_legacy_schedule r)); ("revision", JInt (sc_revision r));
   ("created_at", JStr (sc_created_at r)); ("updated_at", JStr (sc_updated_at r))].

(** The two UPDATEs. *)
Definition with_enabled (enabled : bool) (t : string) (r : schedule_row) : schedule_row :=
  ScheduleRow (sc_operation r) enabled (sc_interval_seconds r) (sc_next_due_at r)
    (sc_last_started_at r) (sc_last_finished_at r) (sc_last_outcome r) (sc_cadence_source r)
    (sc_legacy_schedule r) (sc_revision r + 1) (sc_created_at r) t.
Definition with_outcome (due started t : string) (o : schedule_outcome) (r : schedule_row) :
    schedule_row :=
  ScheduleRow (sc_operation r) (sc_enabled r) (sc_interval_seconds r) due (Some started) (Some t)
    (Some o) (sc_cadence_source r) (sc_legacy_schedule r) (sc_revision r + 1) (sc_created_at r) t.

(** [enabled = 1 AND next_due_at <= ?] and [ORDER BY next_due_at, job_key]. *)
Definition schedule_due (t : string) (r : schedule_row) : bool :=
  sc_enabled r && str_le (sc_next_due_at r) t.
Definition due_le (a b : string * schedule_row) : bool :=
  pair_le (sc_next_due_at a.2, a.1) (sc_next_due_at b.2, b.1).
Definition key_le (a b : string * schedule_row) : bool := str_le a.1 b.1.

Section Schedules.
Context `{Env}.

(** [_research_schedule]. *)
Definition research_schedule (job_key : string) : Store (schedule_row * json) :=
  row ← query (λ d, research_schedules d !! job_key);
  r ← from_option row (NotFound "research schedule" job_key);
  mret (r, schedule_json job_key r).
Definition get_research_schedule (job_key : string) : Store json :=
  '(_, v) ← research_schedule job_key; mret v.
Definition list_research_schedules : Store (list json) :=
  rows ← query (λ d, isort key_le (map_to_list (research_schedules d)));
  map_m (λ x : string * schedule_row, get_research_schedule x.1) rows.

(** [list_due_research_schedules]. *)
Definition list_due_research_schedules (limit : Z) : Store (list json) :=
  ensure ((1 <=? limit) && (limit <=? 100)) (ValueError "limit must be between 1 and 100");;
  t ← now;
  rows ← query (λ d, take (Z.to_nat limit) (isort due_le (List.filter
           (λ x, schedule_due t x.2) (map_to_list (research_schedules d)))));
  map_m (λ x : string * schedule_row, get_research_schedule x.1) rows.

(** An UPDATE of one row under a revision; the result is [cursor.rowcount]. *)
Definition update_schedule (job_key : string) (expected_revision : Z)
    (f : schedule_row → schedule_row) : Store Z :=
  row ← query (λ d, research_schedules d !! job_key);
  match row with
  | Some r =>
      if sc_revision r =? expected_revision then
        ensure (schedule_check job_key (f r)) IntegrityError;;
        execute (set_schedules (<[job_key := f r]>));;
        mret 1
      else mret 0
  | None => mret 0
  end.

(** The INSERT: a taken key or a broken CHECK raises. *)
Definition insert_schedule (job_key : string) (row : schedule_row) : Store unit :=
  taken ← query (λ d, research_schedules d !! job_key);
  ensure (bool_decide (taken = None) && schedule_check job_key row) IntegrityError;;
  execute (set_schedules (<[job_key := row]>)).

(** [register_research_schedule]. *)
Definition register_request (operation : string) (enabled : bool) (interval_seconds : Z)
    (cadence_source : string) (legacy_schedule : option string) : json := JObj
  [("operation", JStr operation); ("enabled", JBool enabled);
   ("interval_seconds", JInt interval_seconds); ("cadence_source", JStr cadence_source);
   ("legacy_schedule", opt_json legacy_schedule)].
Definition register_research_schedule (job_key operation : string) (enabled : bool)
    (interval_seconds : Z) (cadence_source : string) (legacy_schedule : option string)
    (actor_id key : string) : Store command_result :=
  job_key ← required_text job_key "job_key" 100;
  op ← from_option (parse_operation operation)
         (ValueError "research schedule operation is unsupported");
  cadence ← from_option (parse_cadence cadence_source)
         (ValueError "research schedule cadence source is unsupported");
  ensure ((60 <=? interval_seconds) && (interval_seconds <=? 604800))
    (ValueError "interval_seconds must be between 60 and 604800");;
  legacy_text ← (match legacy_schedule with
    | None => mret None
    | Some s => t ← required_text s "legacy_schedule" 200; mret (Some t)
    end);
  ensure (negb (enabled && bool_decide (op = legacy)))
    (ValueError "a legacy schedule cannot be enabled");;
  command actor_id ("INTERNAL:research-schedules/" +:+ job_key) key
    (register_request operation enabled interval_seconds cadence_source legacy_text) (
    t ← now;
    let row := ScheduleRow op enabled interval_seconds t None None None cadence legacy_text 0 t t in
    insert_schedule job_key row;;
    audit "research_schedule" job_key "research.schedule.registered"
      (JObj [("operation", JStr operation); ("enabled", JBool enabled)]);;
    '(_, v) ← research_schedule job_key; mret (v, 201)).

(** [set_research_schedule_enabled]. *)
Definition set_enabled_body (job_key : string) (enabled : bool) (expected_revision : Z) :
    Store (json * Z) :=
  '(r, v) ← research_schedule job_key;
  expect_revision v (sc_revision r) expected_revision;;
  ensure (negb (enabled && bool_decide (sc_operation r = legacy)))
    (InvalidTransition "legacy_schedule" "enabled");;
  t ← now;
  n ← update_schedule job_key expected_revision (with_enabled enabled t);
  (if n =? 1 then mret tt
   else '(_, current) ← research_schedule job_key; raise (RevisionConflict current));;
  audit "research_schedule" job_key
    (if enabled then "research.schedule.enabled" else "research.schedule.disabled") (JObj []);;
  '(_, v) ← research_schedule job_key; mret (v, 200).
Definition set_research_schedule_enabled (job_key : string) (enabled : bool)
    (expected_revision : Z) (actor_id key : string) : Store command_result :=
  command actor_id ("INTERNAL:research-schedules/" +:+ job_key +:+ "/enabled") key
    (JObj [("enabled", JBool enabled); ("expected_revision", JInt expected_revision)])
    (set_enabled_body job_key enabled expected_revision).

(** [record_research_schedule_outcome]. *)
Definition record_outcome_body (job_key : string) (expected_revision : Z)
    (o : schedule_outcome) (started_at : string) : Store (json * Z) :=
  '(r, v) ← research_schedule job_key;
  expect_revision v (sc_revision r) expected_revision;;
  t ← utc_now;
  due ← format_after t (sc_interval_seconds r);
  n ← update_schedule job_key expected_revision (with_outcome due started_at (format_time t) o);
  (if n =? 1 then mret tt
   else '(_, current) ← research_schedule job_key; raise (RevisionConflict current));;
  '(_, v) ← research_schedule job_key; mret (v, 200).
Definition record_research_schedule_outcome (job_key : string) (expected_revision : Z)
    (outcome started_at actor_id key : string) : Store command_result :=
  o ← from_option (parse_outcome outcome) (ValueError "research schedule outcome is unsupported");
  command actor_id ("INTERNAL:research-schedules/" +:+ job_key +:+ "/outcome") key
    (JObj [("outcome", JStr outcome); ("started_at", JStr started_at);
           ("expected_revision", JInt expected_revision)])
    (record_outcome_body job_key expected_revision o started_at).
End Schedules.

(** ** What the operations do *)

Lemma schedule_json_ok k r : json_ok (schedule_json k r) = true.
Proof.
  unfold json_ok, schedule_json. simpl.
  by destruct (sc_last_started_at r), (sc_last_finished_at r), (sc_last_outcome r),
    (sc_legacy_schedule r).
Qed.

(** The rows an inventory may hold, and how one may change. *)
Definition schedule_wf (job_key : string) (r : schedule_row) : Prop :=
  schedule_check job_key r = true ∧ 0 <= sc_revision r ∧
  (sc_operation r = legacy → sc_enabled r = false).
Definition schedule_later (r r' : schedule_row) : Prop :=
  sc_operation r' = sc_operation r ∧ sc_created_at r' = sc_created_at r ∧
  sc_interval_seconds r' = sc_interval_seconds r ∧ sc_cadence_source r' = sc_cadence_source r ∧
  sc_legacy_schedule r' = sc_legacy_schedule r ∧ sc_revision r <= sc_revision r' ∧
  (sc_revision r' = sc_revision r → r' = r).
Definition inventory_step (w w' : world) : Prop :=
  (∀ k r', research_schedules (w_db w') !! k = Some r' →
     research_schedules (w_db w) !! k = None ∧ schedule_wf k r' ∨
     ∃ r, research_schedules (w_db w) !! k = Some r ∧ schedule_later r r' ∧
       (schedule_wf k r → schedule_wf k r')) ∧
  (∀ k r, research_schedules (w_db w) !! k = Some r →
     ∃ r', research_schedules (w_db w') !! k = Some r' ∧ schedule_later r r').

Lemma schedule_later_refl r : schedule_later r r.
Proof. unfold schedule_later. naive_solver lia. Qed.
Lemma schedule_later_trans r1 r2 r3 :
  schedule_later r1 r2 → schedule_later r2 r3 → schedule_later r1 r3.
Proof.
  unfold schedule_later. intros (E1 & E2 & E3 & E4 & E5 & L & S) (F1 & F2 & F3 & F4 & F5 & L' & S').
  split_and!; try congruence; [lia|]. intros E.
  assert (r3 = r2) as -> by (apply S'; lia). apply S. lia.
Qed.

Lemma inventory_same w w' :
  research_schedules (w_db w') = research_schedules (w_db w) → inventory_step w w'.
Proof.
  intros E. unfold inventory_step. rewrite E. split; [right|]; eauto using schedule_later_refl.
Qed.

#[export] Instance inventory_step_preorder : PreOrder inventory_step.
Proof.
  split.
  - intros w. by apply inventory_same.
  - intros w1 w2 w3 [B12 F12] [B23 F23]. split.
    + intros k r3 H3. destruct (B23 k r3 H3) as [[Hn Hw] | (r2 & H2 & L & W)].
      * left. split; [|done]. destruct (research_schedules (w_db w1) !! k) eqn:E; [|done].
        destruct (F12 k _ E) as (? & ? & _). congruence.
      * destruct (B12 k r2 H2) as [[Hn Hw] | (r1 & H1 & L1 & W1)]; [left; auto|right].
        exists r1. split_and!; [done|by eapply schedule_later_trans|auto].
    + intros k r1 H1. destruct (F12 k r1 H1) as (r2 & H2 & L). destruct (F23 k r2 H2) as (r3 & H3 & L').
      exists r3. split; [done|]. by eapply schedule_later_trans.
Qed.

(** Steps that leave the inventory alone. *)
Ltac inv_keep := solve
  [ apply (view_pure (λ d, research_schedules d) inventory_step inventory_same);
    repeat case_match; eauto with pure
  | apply (view_audit (λ d, research_schedules d) inventory_step inventory_same); reflexivity
  | apply (view_keeps (λ d, research_schedules d) inventory_step inventory_same);
    first [ intros ?; reflexivity | unfold research_schedule; eauto 10 with keeps ] ].
Ltac inv_next := apply evolves_bind; [apply _|inv_keep|intros ?].

Section ScheduleFacts.
Context `{Env}.

Lemma research_schedule_ok k w r v w' :
  research_schedule k w = Ok (r, v) w' ↔
  w' = w ∧ research_schedules (w_db w) !! k = Some r ∧ v = schedule_json k r.
Proof.
  unfold research_schedule, query, gets, from_option, mbind, M_bind, mret, M_ret, raise.
  destruct (research_schedules (w_db w) !! k); naive_solver.
Qed.

Lemma inventory_insert k r :
  0 <= sc_revision r → (sc_operation r = legacy → sc_enabled r = false) →
  evolves inventory_step (insert_schedule k r).
Proof.
  intros Hrev Hleg w. unfold insert_schedule, query, gets, mbind, M_bind, ensure.
  destruct (bool_decide _ && _) eqn:Hb; [|by apply inventory_same]. simpl.
  apply andb_true_iff in Hb as [Hn%bool_decide_eq_true Hck]. split; simpl.
  - intros k' r' Hk'. apply lookup_insert_Some in Hk' as [[<- <-] | [_ Hk']]; [by left|].
    right. exists r'. split_and!; [done|apply schedule_later_refl|done].
  - intros k' r' Hk'. exists r'. rewrite lookup_insert_ne by congruence.
    split; [done|apply schedule_later_refl].
Qed.

(** One row replaced by a later version of itself. *)
Lemma inventory_replace k r r' w w' :
  research_schedules (w_db w) !! k = Some r →
  research_schedules (w_db w') = <[k := r']> (research_schedules (w_db w)) →
  schedule_later r r' → schedule_check k r' = true →
  (schedule_wf k r → sc_operation r' = legacy → sc_enabled r' = false) →
  inventory_step w w'.
Proof.
  intros Hr E Hl Hck Hleg. split; rewrite E.
  - intros k' r1 Hk'. apply lookup_insert_Some in Hk' as [[<- <-] | [Hne Hk']].
    + right. exists r. split_and!; [done|done|]. intros Hwf. pose proof Hwf as (W1 & W2 & W3).
      split_and!; [done| |by apply Hleg]. destruct Hl as (_ & _ & _ & _ & _ & L & _). lia.
    + right. exists r1. split_and!; [done|apply schedule_later_refl|done].
  - intros k' r1 Hk'. destruct (decide (k = k')) as [<- | Hne].
    + rewrite lookup_insert_eq. rewrite Hr in Hk'. simplify_eq. eauto.
    + rewrite lookup_insert_ne by done. eauto using schedule_later_refl.
Qed.

Lemma update_schedule_ok k rev f w n w' :
  update_schedule k rev f w = Ok n w' →
  (∃ r, research_schedules (w_db w) !! k = Some r ∧ sc_revision r = rev ∧
     schedule_check k (f r) = true ∧ n = 1 ∧ w' = on_db (set_schedules <[k := f r]>) w)
  ∨ (n = 0 ∧ w' = w).
Proof.
  unfold update_schedule. intros Hu. mcase; [left|by right..]. eexists. split_and!; try done. lia.
Qed.

Lemma with_enabled_later e t r : schedule_later r (with_enabled e t r).
Proof. unfold schedule_later. simpl. split_and!; try done; lia. Qed.
Lemma with_outcome_later due s t o r : schedule_later r (with_outcome due s t o r).
Proof. unfold schedule_later. simpl. split_and!; try done; lia. Qed.

Lemma register_inventory k op e i c l a key :
  evolves inventory_step (register_research_schedule k op e i c l a key).
Proof.
  unfold register_research_schedule. do 5 inv_next.
  apply evolves_then; [apply _|inv_keep|]. intros _ _ _ (Hleg & _ & _)%ensure_ok.
  apply (view_command (λ d, research_schedules d)); [apply _|apply inventory_same|done|].
  inv_next. apply evolves_bind; [apply _| |intros _; do 2 inv_next; case_match; inv_keep].
  apply inventory_insert; simpl; [done|]. intros ->. by destruct e.
Qed.

(** What arming and disarming do, when not a replay. *)
Lemma set_enabled_ok k e rev w v code w' :
  set_enabled_body k e rev w = Ok (v, code) w' →
  ∃ r t, research_schedules (w_db w) !! k = Some r ∧ sc_revision r = rev ∧
    (e = true → sc_operation r ≠ legacy) ∧ schedule_check k (with_enabled e t r) = true ∧
    research_schedules (w_db w') = <[k := with_enabled e t r]> (research_schedules (w_db w)) ∧
    v = schedule_json k (with_enabled e t r).
Proof.
  unfold set_enabled_body. intros Hb.
  apply bind_ok in Hb as ([r v0] & w0 & (-> & Hr & ->)%research_schedule_ok & Hb). mgo.
  match goal with Hu : update_schedule _ _ _ _ = _ |- _ =>
    apply update_schedule_ok in Hu as [(r' & Hr' & Hrev & Hck & -> & ->) | [-> ->]] end;
    [|mcase].
  simpl in *. rewrite Hr in Hr'. injection Hr' as <-. mgo.
  match goal with Hp : (let '(_, _) := ?p in _) _ = _ |- _ => destruct p as [r2 v2] end. mgo.
  match goal with Hs : research_schedule _ _ = _ |- _ =>
    apply research_schedule_ok in Hs as (-> & Hr2 & ->) end. simpl in *.
  rewrite lookup_insert_eq in Hr2. simplify_eq. do 2 eexists. split_and!; try done.
  intros -> Hl. rewrite Hl in *. done.
Qed.

Lemma record_outcome_ok k rev o started w v code w' :
  record_outcome_body k rev o started w = Ok (v, code) w' →
  0 <= rev ∧
  ∃ r due, research_schedules (w_db w) !! k = Some r ∧ sc_revision r = rev ∧
    dt_add_seconds (clock (w_ticks w)) (sc_interval_seconds r) = Some due ∧
    let r' := with_outcome (format_time due) started (format_time (clock (w_ticks w))) o r in
    schedule_check k r' = true ∧
    research_schedules (w_db w') = <[k := r']> (research_schedules (w_db w)) ∧
    v = schedule_json k r'.
Proof.
  unfold record_outcome_body. intros Hb.
  apply bind_ok in Hb as ([r v0] & w0 & (-> & Hr & ->)%research_schedule_ok & Hb). mgo.
  match goal with Hu : update_schedule _ _ _ _ = _ |- _ =>
    apply update_schedule_ok in Hu as [(r' & Hr' & Hrev & Hck & -> & ->) | [-> ->]] end;
    [|mcase].
  simpl in *. rewrite Hr in Hr'. injection Hr' as <-. mgo.
  match goal with Hp : (let '(_, _) := ?p in _) _ = _ |- _ => destruct p as [r2 v2] end. mgo.
  match goal with Hs : research_schedule _ _ = _ |- _ =>
    apply research_schedule_ok in Hs as (-> & Hr2 & ->) end. simpl in *.
  rewrite lookup_insert_eq in Hr2. simplify_eq. split; [done|]. do 2 eexists. by split_and!.
Qed.

(** Decisions taken from an old revision. *)
Lemma stale_outcome k rev o s w r :
  research_schedules (w_db w) !! k = Some r → 0 <= rev → sc_revision r ≠ rev →
  record_outcome_body k rev o s w = Err (RevisionConflict (schedule_json k r)) w.
Proof.
  intros Hr Hp Hne. unfold record_outcome_body.
  rewrite (bind_run _ _ _ (r, schedule_json k r) w) by (by apply research_schedule_ok).
  by apply bind_run_err, expect_revision_stale.
Qed.
Lemma stale_enabled k e rev w r :
  research_schedules (w_db w) !! k = Some r → 0 <= rev → sc_revision r ≠ rev →
  set_enabled_body k e rev w = Err (RevisionConflict (schedule_json k r)) w.
Proof.
  intros Hr Hp Hne. unfold set_enabled_body.
  rewrite (bind_run _ _ _ (r, schedule_json k r) w) by (by apply research_schedule_ok).
  by apply bind_run_err, expect_revision_stale.
Qed.

Lemma inventory_body a o k request body :
  (∀ w v code w', body w = Ok (v, code) w' → inventory_step w w') →
  evolves inventory_step (command a o k request body).
Proof. by apply (view_body (λ d, research_schedules d) inventory_step inventory_same). Qed.

Lemma set_enabled_inventory k e rev a key :
  evolves inventory_step (set_research_schedule_enabled k e rev a key).
Proof.
  apply inventory_body. intros w v code w' (r & t & Hr & _ & Hl & Hck & E & _)%set_enabled_ok.
  eapply inventory_replace; [done|done|apply with_enabled_later|done|].
  intros (_ & _ & Hleg) Hop. simpl in *. destruct e; [|done]. by destruct Hl.
Qed.
Lemma record_outcome_inventory k rev o s a key :
  evolves inventory_step (record_research_schedule_outcome k rev o s a key).
Proof.
  unfold record_research_schedule_outcome. inv_next.
  apply inventory_body. intros w v code w' (_ & r & due & Hr & _ & _ & Hck & E & _)%record_outcome_ok.
  eapply inventory_replace; [done|done|apply with_outcome_later|done|].
  intros (_ & _ & Hleg) Hop. by apply Hleg.
Qed.
End ScheduleFacts.
