(* ===== verification/ScheduleTheorems.v ===== *)
(** * Research schedules: their theorems *)

From S2P Require Import Prelude PyText Clock Json Schema Store Demo Schedules.
Open Scope Z_scope.

Inductive schedule_command :=
| RegisterSchedule (job_key operation : string) (enabled : bool) (interval : Z) (cadence : string)
    (legacy_text : option string) (actor key : string)
| SetScheduleEnabled (job_key : string) (enabled : bool) (revision : Z) (actor key : string)
| RecordScheduleOutcome (job_key : string) (revision : Z) (outcome started_at actor key : string).

Section ScheduleSessions.
Context `{Env}.

Definition run_schedule (c : schedule_command) : M world exc command_result :=
  match c with
  | RegisterSchedule j o e i c l a k => register_research_schedule j o e i c l a k
  | SetScheduleEnabled j e r a k => set_research_schedule_enabled j e r a k
  | RecordScheduleOutcome j r o s a k => record_research_schedule_outcome j r o s a k
  end.
Definition schedule_session (cmds : list schedule_command) (w : world) : world :=
  fold_left (λ w c, end_world (run_schedule c w)) cmds w.

Lemma schedule_session_steps cmds w : inventory_step w (schedule_session cmds w).
Proof.
  revert w. induction cmds as [|c cmds IH]; intros w; simpl; [reflexivity|].
  etrans; [|apply IH]. destruct c; simpl.
  - apply register_inventory.
  - apply set_enabled_inventory.
  - apply record_outcome_inventory.
Qed.

Definition inventory_wf (d : db) : Prop :=
  ∀ k r, research_schedules d !! k = Some r → schedule_wf k r.

Lemma inventory_wf_step w w' :
  inventory_wf (w_db w) → inventory_step w w' → inventory_wf (w_db w').
Proof. intros Hw [Hb _] k r Hr. destruct (Hb k r Hr) as [[_ ?] | (r0 & H0 & _ & ?)]; eauto. Qed.
End ScheduleSessions.

Definition demo_register : schedule_command :=
  RegisterSchedule "drain" "capture_drain" true 600 "product" None "op" "idempotency-key-1".
Definition demo_legacy : schedule_command :=
  RegisterSchedule "old" "legacy" false 3600 "unknown" (Some "0 4 * * *") "op" "idempotency-key-2".
Definition demo_arm_legacy : schedule_command :=
  SetScheduleEnabled "old" true 0 "op" "idempotency-key-3".
Definition demo_outcome : schedule_command :=
  RecordScheduleOutcome "drain" 0 "ran" "2026-01-01T00:00:00Z" "op" "idempotency-key-4".

(** The inventory is durable and a legacy job can never fire: whatever is
    asked, in whatever order, no row disappears or changes its operation,
    interval, cadence or creation time, its revision only grows, and no legacy
    row is ever armed, so none is ever due. *)
Theorem schedule_inventory_safe `{Env} cmds w k r :
  inventory_wf (w_db w) →
  research_schedules (w_db w) !! k = Some r →
  let w' := schedule_session cmds w in
  inventory_wf (w_db w') ∧
  ∃ r', research_schedules (w_db w') !! k = Some r' ∧ schedule_later r r' ∧
    (sc_operation r = legacy → ∀ t, schedule_due t r' = false).
Proof.
  intros Hwf Hr w'. pose proof (schedule_session_steps cmds w) as Hs. fold w' in Hs.
  pose proof (inventory_wf_step _ _ Hwf Hs) as Hwf'. split; [done|].
  destruct (proj2 Hs k r Hr) as (r' & Hr' & Hl). exists r'. split_and!; [done|done|].
  intros Hop t. destruct (Hwf' k r' Hr') as (_ & _ & Hleg). unfold schedule_due.
  rewrite Hleg; [done|]. destruct Hl as [-> _]. done.
Qed.

Definition demo_inventory : world := schedule_session [demo_register; demo_legacy] demo_world.
Definition demo_schedule (k : string) (w : world) : schedule_row :=
  default (ScheduleRow legacy false 0 "" None None None unknown None 0 "" "")
    (research_schedules (w_db w) !! k).
Lemma demo_inventory_wf : inventory_wf (w_db demo_inventory).
Proof.
  apply (inventory_wf_step demo_world); [intros k r Hk; simpl in Hk; by rewrite lookup_empty in Hk|].
  apply schedule_session_steps.
Qed.
Lemma schedule_inventory_safe_witness :
  ∃ r', research_schedules (w_db (schedule_session [demo_arm_legacy] demo_inventory)) !! "old"
        = Some r' ∧ schedule_due "9999" r' = false.
Proof.
  assert (research_schedules (w_db demo_inventory) !! "old" = Some (demo_schedule "old" demo_inventory))
    as Hr by (vm_compute; reflexivity).
  assert (sc_operation (demo_schedule "old" demo_inventory) = legacy) as Ho by (vm_compute; reflexivity).
  destruct (schedule_inventory_safe [demo_arm_legacy] demo_inventory "old" _ demo_inventory_wf Hr)
    as (_ & r' & Hr' & _ & Hd).
  exists r'. split; [exact Hr'|]. apply Hd, Ho.
Defined.

(** Closing a tick re-arms the job from its own interval: the stored next
    due time is the closing time plus the interval, so at any clock reading in
    another second the job is due again exactly when it is armed and that much
    time has passed. *)
Theorem outcome_rearms `{Env} k rev o started actor key w r w1 row :
  record_research_schedule_outcome k rev o started actor key w = Ok r w1 →
  cr_replayed r = false →
  research_schedules (w_db w1) !! k = Some row →
  ∃ due, due = clock (w_ticks w) + sc_interval_seconds row * us_per_second ∧
    sc_next_due_at row = format_time due ∧
    ∀ t, dt_valid t = true → due / us_per_second ≠ t / us_per_second →
      schedule_due (format_time t) row = sc_enabled row && (due <=? t).
Proof.
  unfold record_research_schedule_outcome. intros Hr Hrep Hrow.
  apply bind_ok in Hr as (oc & w0 & [_ ->]%from_option_ok & Hr).
  apply command_ok in Hr as [_ Hr]. destruct (idempotency_receipts _ !! _); [naive_solver|].
  destruct Hr as (v & code & w2 & Hb & (_ & _ & ->)%save_receipt_ok).
  apply record_outcome_ok in Hb as (_ & r0 & due & Hr0 & _ & Hdue & _ & E & _). simpl in Hrow.
  rewrite E, lookup_insert_eq in Hrow. injection Hrow as <-. simpl.
  unfold dt_add_seconds in Hdue. cbv zeta in Hdue.
  destruct (dt_valid (clock (w_ticks w) + _)) eqn:Hv; [|done]. injection Hdue as Hdue.
  rewrite Hdue in Hv. exists due. split_and!; [done|done|]. intros t Ht Hne.
  unfold schedule_due. simpl. f_equal. rewrite str_le_compare, format_time_seconds by done.
  destruct (Z.compare_spec due t), (Z.leb_spec due t); done || lia.
Qed.

Abbreviation demo_closed :=
  (record_research_schedule_outcome "drain" 0 "ran" "2026-01-01T00:00:00Z" "op" "idempotency-key-4"
     demo_inventory).
Lemma outcome_rearms_witness :
  ∃ due, due = clock (w_ticks demo_inventory)
                 + sc_interval_seconds (demo_schedule "drain" (end_world demo_closed)) * us_per_second
    ∧ sc_next_due_at (demo_schedule "drain" (end_world demo_closed)) = format_time due.
Proof.
  assert (is_ok demo_closed = true) as A by (vm_compute; reflexivity).
  assert (cr_replayed (answer no_result demo_closed) = false) as B by (vm_compute; reflexivity).
  assert (research_schedules (w_db (end_world demo_closed)) !! "drain"
          = Some (demo_schedule "drain" (end_world demo_closed))) as C by (vm_compute; reflexivity).
  destruct (outcome_rearms _ _ _ _ _ _ _ _ _ _ (answered no_result _ A) B C) as (due & H1 & H2 & _).
  exists due. split; assumption.
Defined.

(** A tick is closed once: after a closing that was not a replay, nothing
    that was decided from the revision it saw goes through any more; a second
    closing or an arming from that revision is refused, naming the row as it is
    now, and writes nothing. *)
Theorem tick_closed_once `{Env} k rev o started actor key w r w1 cmds oc started' enabled
    actor' key' :
  record_research_schedule_outcome k rev o started actor key w = Ok r w1 →
  cr_replayed r = false →
  let w2 := schedule_session cmds w1 in
  key_ok key' = true → is_Some (parse_outcome oc) →
  idempotency_receipts (w_db w2) !! (actor', "INTERNAL:research-schedules/" +:+ k +:+ "/outcome", key') = None →
  idempotency_receipts (w_db w2) !! (actor', "INTERNAL:research-schedules/" +:+ k +:+ "/enabled", key') = None →
  ∃ row, research_schedules (w_db w2) !! k = Some row ∧
    record_research_schedule_outcome k rev oc started' actor' key' w2
      = Err (RevisionConflict (schedule_json k row)) w2 ∧
    set_research_schedule_enabled k enabled rev actor' key' w2
      = Err (RevisionConflict (schedule_json k row)) w2.
Proof.
  intros Hr Hrep w2 Hkey [oc' Hoc] Hrec1 Hrec2.
  unfold record_research_schedule_outcome in Hr.
  apply bind_ok in Hr as (o1 & w0 & [_ ->]%from_option_ok & Hr).
  apply command_ok in Hr as [_ Hr]. destruct (idempotency_receipts (w_db w) !! _); [naive_solver|].
  destruct Hr as (v & code & w3 & Hb & (_ & _ & Hw1)%save_receipt_ok).
  apply record_outcome_ok in Hb as (Hpos & r0 & due & Hr0 & Hrev & _ & _ & E & _).
  assert (research_schedules (w_db w1) !! k = Some (with_outcome (format_time due) started
    (format_time (clock (w_ticks w))) o1 r0)) as H1.
  { rewrite Hw1. simpl. by rewrite E, lookup_insert_eq. }
  destruct (proj2 (schedule_session_steps cmds w1) k _ H1) as (row & Hrow & Hl).
  exists row. split; [exact Hrow|].
  assert (sc_revision row ≠ rev) as Hne.
  { destruct Hl as (_ & _ & _ & _ & _ & L & _). simpl in L. lia. }
  split.
  - unfold record_research_schedule_outcome.
    rewrite (bind_run _ _ _ oc' w2) by (by apply from_option_ok).
    exact (command_refuses _ _ _ _ _ _ _ Hkey Hrec1 (stale_outcome _ _ _ _ _ _ Hrow Hpos Hne)).
  - unfold set_research_schedule_enabled.
    exact (command_refuses _ _ _ _ _ _ _ Hkey Hrec2 (stale_enabled _ _ _ _ _ Hrow Hpos Hne)).
Qed.

Lemma tick_closed_once_witness :
  ∃ row, research_schedules (w_db (end_world demo_closed)) !! "drain" = Some row ∧
    record_research_schedule_outcome "drain" 0 "failed" "" "op" "idempotency-key-5"
      (end_world demo_closed)
    = Err (RevisionConflict (schedule_json "drain" row)) (end_world demo_closed).
Proof.
  assert (is_ok demo_closed = true) as A by (vm_compute; reflexivity).
  assert (cr_replayed (answer no_result demo_closed) = false) as B by (vm_compute; reflexivity).
  assert (is_Some (parse_outcome "failed")) as C by (vm_compute; eexists; reflexivity).
  assert (idempotency_receipts (w_db (schedule_session [] (end_world demo_closed)))
    !! ("op", "INTERNAL:research-schedules/" +:+ "drain" +:+ "/outcome", "idempotency-key-5") = None)
    as D by (vm_compute; reflexivity).
  assert (idempotency_receipts (w_db (schedule_session [] (end_world demo_closed)))
    !! ("op", "INTERNAL:research-schedules/" +:+ "drain" +:+ "/enabled", "idempotency-key-5") = None)
    as E by (vm_compute; reflexivity).
  destruct (tick_closed_once _ _ _ _ _ _ _ _ _ [] "failed" "" false "op" "idempotency-key-5"
    (answered no_result _ A) B eq_refl C D E) as (row & H1 & H2 & _).
  exists row. split; assumption.
Defined.
