(* ===== verification/Threads.v ===== *)
(** * Workspaces, threads and messages

    The container commands of [control/store.py]: creating and renaming
    workspaces and threads, archiving threads, and appending messages. *)

From S2P Require Import Prelude PyText Clock Json Schema Store.
Open Scope Z_scope.

Definition workspace_json (id : string) (r : workspace_row) : json := JObj
  [("id", JStr id); ("title", JStr (ws_title r)); ("revision", JInt (ws_revision r));
   ("created_at", JStr (ws_created_at r)); ("updated_at", JStr (ws_updated_at r))].
Definition thread_json (id : string) (r : thread_row) : json := JObj
  [("id", JStr id); ("workspace_id", JStr (th_workspace_id r)); ("title", JStr (th_title r));
   ("status", JStr (th_status r)); ("active_run_id", opt_json (th_active_run_id r));
   ("revision", JInt (th_revision r)); ("created_at", JStr (th_created_at r));
   ("updated_at", JStr (th_updated_at r)); ("archived_at", opt_json (th_archived_at r))].
Definition message_json (id : string) (r : message_row) : json := JObj
  [("id", JStr id); ("thread_id", JStr (m_thread_id r)); ("role", JStr (role_text (m_role r)));
   ("content", JStr (m_content r)); ("position", JInt (m_position r));
   ("created_at", JStr (m_created_at r))].

Definition parse_role (s : string) : option message_role :=
  if String.eqb s "user" then Some user
  else if String.eqb s "assistant" then Some assistant
  else if String.eqb s "system" then Some system else None.

(** Changed columns. *)
Definition ws_touch (t : string) (r : workspace_row) : workspace_row :=
  WorkspaceRow (ws_title r) (ws_revision r + 1) (ws_created_at r) t.
Definition ws_retitle (title : string) (r : workspace_row) : workspace_row :=
  WorkspaceRow title (ws_revision r) (ws_created_at r) (ws_updated_at r).
Definition th_touch (t : string) (r : thread_row) : thread_row :=
  ThreadRow (th_workspace_id r) (th_title r) (th_status r) (th_active_run_id r)
    (th_revision r + 1) (th_created_at r) t (th_archived_at r).
Definition th_retitle (title : string) (r : thread_row) : thread_row :=
  ThreadRow (th_workspace_id r) title (th_status r) (th_active_run_id r)
    (th_revision r) (th_created_at r) (th_updated_at r) (th_archived_at r).
Definition th_archive (at_ : option string) (r : thread_row) : thread_row :=
  ThreadRow (th_workspace_id r) (th_title r) (th_status r) (th_active_run_id r)
    (th_revision r) (th_created_at r) (th_updated_at r) at_.

(** [SELECT COALESCE(MAX(position), 0) + 1 FROM messages WHERE thread_id = ?]. *)
Definition thread_positions (id : string) (d : db) : list Z :=
  map (λ x, m_position x.2)
    (List.filter (λ x : string * message_row, String.eqb (m_thread_id x.2) id)
      (map_to_list (messages d))).
Definition next_position (id : string) (d : db) : Z :=
  foldr Z.max 0 (thread_positions id d) + 1.

Section Threads.
Context `{Env}.

(** [_workspace], [_thread], [_message]. *)
Definition workspace (id : string) : Store (workspace_row * json) :=
  row ← query (λ d, workspaces d !! id);
  r ← from_option row (NotFound "workspace" id); mret (r, workspace_json id r).
Definition thread (id : string) : Store (thread_row * json) :=
  row ← query (λ d, threads d !! id);
  r ← from_option row (NotFound "thread" id); mret (r, thread_json id r).
Definition message (id : string) : Store json :=
  row ← query (λ d, messages d !! id);
  r ← from_option row (NotFound "message" id); mret (message_json id r).

(** [_update_revision] on the two tables. *)
Definition update_revision_workspace (id : string) (expected : Z) (t : string) : Store unit :=
  row ← query (λ d, workspaces d !! id);
  match row with
  | Some r =>
      if ws_revision r =? expected then execute (set_workspaces (<[id := ws_touch t r]>))
      else '(_, v) ← workspace id; raise (RevisionConflict v)
  | None => '(_, v) ← workspace id; raise (RevisionConflict v)
  end.
Definition update_revision_thread (id : string) (expected : Z) (t : string) : Store unit :=
  row ← query (λ d, threads d !! id);
  match row with
  | Some r =>
      if th_revision r =? expected then execute (set_threads (<[id := th_touch t r]>))
      else '(_, v) ← thread id; raise (RevisionConflict v)
  | None => '(_, v) ← thread id; raise (RevisionConflict v)
  end.

(** [create_workspace]. *)
Definition create_workspace_body (title : string) : Store (json * Z) :=
  t ← now; id ← new_id "ws";
  taken ← query (λ d, workspaces d !! id);
  ensure (bool_decide (taken = None) && title_check title) IntegrityError;;
  execute (set_workspaces (<[id := WorkspaceRow title 0 t t]>));;
  audit "workspace" id "workspace.created" (JObj [("title", JStr title)]);;
  '(_, v) ← workspace id; mret (v, 201).
Definition create_workspace (title actor_id key : string) : Store command_result :=
  title ← required_text title "title" 500;
  command actor_id "POST:/api/v1/workspaces" key (JObj [("title", JStr title)])
    (create_workspace_body title).

Definition titled_request (title : string) (expected_revision : Z) : json :=
  JObj [("title", JStr title); ("expected_revision", JInt expected_revision)].

(** [create_thread]: the workspace is a foreign key. *)
Definition create_thread_body (workspace_id title : string) (expected_revision : Z) :
    Store (json * Z) :=
  '(ws, v) ← workspace workspace_id;
  expect_revision v (ws_revision ws) expected_revision;;
  t ← now; id ← new_id "thread";
  taken ← query (λ d, threads d !! id);
  owner ← query (λ d, workspaces d !! workspace_id);
  ensure (bool_decide (taken = None) && title_check title && bool_decide (is_Some owner))
    IntegrityError;;
  execute (set_threads (<[id := ThreadRow workspace_id title "idle" None 0 t t None]>));;
  update_revision_workspace workspace_id expected_revision t;;
  audit "thread" id "thread.created"
    (JObj [("workspace_id", JStr workspace_id); ("title", JStr title)]);;
  '(_, v) ← thread id; mret (v, 201).
Definition create_thread (workspace_id title : string) (expected_revision : Z)
    (actor_id key : string) : Store command_result :=
  title ← required_text title "title" 500;
  command actor_id ("POST:/api/v1/workspaces/" +:+ workspace_id +:+ "/threads") key
    (titled_request title expected_revision)
    (create_thread_body workspace_id title expected_revision).

(** [rename_workspace]. *)
Definition rename_workspace_body (workspace_id title : string) (expected_revision : Z) :
    Store (json * Z) :=
  '(ws, v) ← workspace workspace_id;
  expect_revision v (ws_revision ws) expected_revision;;
  t ← now;
  ensure (title_check title) IntegrityError;;
  execute (set_workspaces (alter (ws_retitle title) workspace_id));;
  update_revision_workspace workspace_id expected_revision t;;
  audit "workspace" workspace_id "workspace.renamed"
    (JObj [("from", JStr (ws_title ws)); ("to", JStr title)]);;
  '(_, v) ← workspace workspace_id; mret (v, 200).
Definition rename_workspace (workspace_id title : string) (expected_revision : Z)
    (actor_id key : string) : Store command_result :=
  title ← required_text title "title" 500;
  command actor_id ("POST:/api/v1/workspaces/" +:+ workspace_id +:+ "/rename") key
    (titled_request title expected_revision)
    (rename_workspace_body workspace_id title expected_revision).

(** [rename_thread]. *)
Definition rename_thread_body (thread_id title : string) (expected_revision : Z) :
    Store (json * Z) :=
  '(th, v) ← thread thread_id;
  expect_revision v (th_revision th) expected_revision;;
  t ← now;
  ensure (title_check title) IntegrityError;;
  execute (set_threads (alter (th_retitle title) thread_id));;
  update_revision_thread thread_id expected_revision t;;
  audit "thread" thread_id "thread.renamed"
    (JObj [("from", JStr (th_title th)); ("to", JStr title)]);;
  '(_, v) ← thread thread_id; mret (v, 200).
Definition rename_thread (thread_id title : string) (expected_revision : Z)
    (actor_id key : string) : Store command_result :=
  title ← required_text title "title" 500;
  command actor_id ("POST:/api/v1/threads/" +:+ thread_id +:+ "/rename") key
    (titled_request title expected_revision)
    (rename_thread_body thread_id title expected_revision).

(** [_set_thread_archived], [archive_thread], [unarchive_thread]. *)
Definition archive_action (archived : bool) : string :=
  if archived then "archive" else "unarchive".
Definition set_archived_body (thread_id : string) (archived : bool) (expected_revision : Z) :
    Store (json * Z) :=
  '(th, v) ← thread thread_id;
  expect_revision v (th_revision th) expected_revision;;
  ensure (negb (archived && bool_decide (is_Some (th_active_run_id th)))) (ThreadActiveRun v);;
  if Bool.eqb (bool_decide (is_Some (th_archived_at th))) archived then mret (v, 200)
  else
    t ← now;
    execute (set_threads (alter (th_archive (if archived then Some t else None)) thread_id));;
    update_revision_thread thread_id expected_revision t;;
    audit "thread" thread_id ("thread." +:+ archive_action archived +:+ "d") (JObj []);;
    '(_, v) ← thread thread_id; mret (v, 200).
Definition set_thread_archived (thread_id : string) (archived : bool) (expected_revision : Z)
    (actor_id key : string) : Store command_result :=
  command actor_id
    ("POST:/api/v1/threads/" +:+ thread_id +:+ "/" +:+ archive_action archived) key
    (JObj [("expected_revision", JInt expected_revision)])
    (set_archived_body thread_id archived expected_revision).
Definition archive_thread (thread_id : string) := set_thread_archived thread_id true.
Definition unarchive_thread (thread_id : string) := set_thread_archived thread_id false.

(** [append_message]; UNIQUE(thread_id, position). *)
Definition insert_message (id : string) (row : message_row) : Store unit :=
  taken ← query (λ d, messages d !! id);
  owner ← query (λ d, threads d !! m_thread_id row);
  clash ← query (λ d, existsb (Z.eqb (m_position row)) (thread_positions (m_thread_id row) d));
  ensure (bool_decide (taken = None) && message_check row && bool_decide (is_Some owner)
          && negb clash) IntegrityError;;
  execute (set_messages (<[id := row]>)).
Definition append_message_body (thread_id : string) (role : message_role) (content : string)
    (expected_revision : Z) : Store (json * Z) :=
  '(th, v) ← thread thread_id;
  expect_revision v (th_revision th) expected_revision;;
  ensure (bool_decide (th_archived_at th = None)) (ThreadArchived v);;
  position ← query (next_position thread_id);
  t ← now; id ← new_id "msg";
  insert_message id (MessageRow thread_id role content position t);;
  update_revision_thread thread_id expected_revision t;;
  audit "thread" thread_id "message.created"
    (JObj [("message_id", JStr id); ("role", JStr (role_text role)); ("position", JInt position)]);;
  v ← message id; mret (v, 201).
Definition append_message (thread_id role content : string) (expected_revision : Z)
    (actor_id key : string) : Store command_result :=
  r ← from_option (parse_role role) (ValueError "role is invalid");
  content ← required_text content "content" 1000000;
  command actor_id ("POST:/api/v1/threads/" +:+ thread_id +:+ "/messages") key
    (JObj [("role", JStr role); ("content", JStr content);
           ("expected_revision", JInt expected_revision)])
    (append_message_body thread_id r content expected_revision).
End Threads.

(** ** Containers over time *)

Definition workspace_later (r r' : workspace_row) : Prop :=
  ws_created_at r' = ws_created_at r ∧ ws_revision r <= ws_revision r' ∧
  (ws_revision r' = ws_revision r → r' = r).
Definition thread_later (r r' : thread_row) : Prop :=
  th_workspace_id r' = th_workspace_id r ∧ th_created_at r' = th_created_at r ∧
  th_active_run_id r' = th_active_run_id r ∧ th_revision r <= th_revision r' ∧
  (th_revision r' = th_revision r → r' = r).

(** The positions of a thread's messages are 1, 2, ..., n. *)
Definition contiguous (id : string) (d : db) : Prop :=
  ∃ n, 0 <= n ∧ thread_positions id d ≡ₚ seqZ 1 n.

Record container_step (w w' : world) : Prop := {
  cs_workspaces : ∀ k r, workspaces (w_db w) !! k = Some r →
    ∃ r', workspaces (w_db w') !! k = Some r' ∧ workspace_later r r';
  cs_threads : ∀ k r, threads (w_db w) !! k = Some r →
    ∃ r', threads (w_db w') !! k = Some r' ∧ thread_later r r';
  cs_messages : messages (w_db w) ⊆ messages (w_db w');
  cs_contiguous : ∀ k, contiguous k (w_db w) → contiguous k (w_db w');
  cs_transcript : ∀ k r, threads (w_db w) !! k = Some r →
    threads (w_db w') !! k = Some r → thread_positions k (w_db w') ≡ₚ thread_positions k (w_db w) }.

Definition containers (d : db) := (workspaces d, threads d, messages d).
Lemma workspace_later_refl r : workspace_later r r.
Proof. unfold workspace_later. naive_solver lia. Qed.
Lemma thread_later_refl r : thread_later r r.
Proof. unfold thread_later. naive_solver lia. Qed.
Lemma container_same w w' : containers (w_db w') = containers (w_db w) → container_step w w'.
Proof.
  unfold containers. intros [= E1 E2 E3]. split; rewrite ?E1, ?E2, ?E3;
    unfold contiguous, thread_positions; rewrite ?E3; eauto using workspace_later_refl, thread_later_refl.
Qed.
#[export] Instance container_step_preorder : PreOrder container_step.
Proof.
  split; [intros w; by apply container_same|].
  intros w1 w2 w3 [A1 A2 A3 A4 A5] [B1 B2 B3 B4 B5]. split.
  - intros k r Hr. destruct (A1 k r Hr) as (r2 & H2 & L). destruct (B1 k r2 H2) as (r3 & H3 & L').
    exists r3. split; [done|]. destruct L as (? & ? & L), L' as (? & ? & L').
    split_and!; [congruence|lia|]. intros E. rewrite (L' ltac:(lia)). apply L. lia.
  - intros k r Hr. destruct (A2 k r Hr) as (r2 & H2 & L). destruct (B2 k r2 H2) as (r3 & H3 & L').
    exists r3. split; [done|]. destruct L as (? & ? & ? & ? & L), L' as (? & ? & ? & ? & L').
    split_and!; [congruence..|lia|]. intros E. rewrite (L' ltac:(lia)). apply L. lia.
  - by etrans.
  - auto.
  - intros k r H1 H3. destruct (A2 k r H1) as (r2 & H2 & L). destruct (B2 k r2 H2) as (r3 & H3' & L').
    rewrite H3 in H3'. injection H3' as <-.
    assert (r2 = r) as ->.
    { destruct L as (_ & _ & _ & Hle & L), L' as (_ & _ & _ & Hle' & _). apply L. lia. }
    rewrite (B5 k r H2 H3). by apply A5 with r.
Qed.

(** ** Positions *)

Lemma foldr_max_spec l : (∀ x, x ∈ l → 0 <= x) →
  (∀ x, x ∈ l → x <= foldr Z.max 0 l) ∧ (foldr Z.max 0 l = 0 ∨ foldr Z.max 0 l ∈ l) ∧
  0 <= foldr Z.max 0 l.
Proof.
  induction l as [|a l IH]; intros Hl; simpl.
  - split_and!; [by intros x Hx%not_elem_of_nil|by left|done].
  - destruct IH as (H1 & H2 & H3); [intros x Hx; apply Hl; by right|].
    assert (0 <= a) by (apply Hl; left). split_and!; [|right|lia].
    + intros x [-> | Hx]%elem_of_cons; [lia|]. specialize (H1 x Hx). lia.
    + destruct (Z.max_spec a (foldr Z.max 0 l)) as [[Hlt ->] | [Hle ->]]; [|by left].
      right. destruct H2 as [E|]; [lia|done].
Qed.

Lemma next_position_contiguous id d n :
  0 <= n → thread_positions id d ≡ₚ seqZ 1 n → next_position id d = n + 1.
Proof.
  intros Hn Hp. unfold next_position.
  destruct (foldr_max_spec (thread_positions id d)) as (H1 & H2 & H3).
  { intros x. rewrite Hp, elem_of_seqZ. lia. }
  assert (∀ x, x ∈ thread_positions id d ↔ 1 <= x <= n) as Hin.
  { intros x. rewrite Hp, elem_of_seqZ. lia. }
  destruct (decide (n = 0)) as [-> | Hn0].
  - destruct H2 as [-> | H2]; [done|]. apply Hin in H2. lia.
  - assert (n ∈ thread_positions id d) as Hx by (apply Hin; lia). apply H1 in Hx.
    destruct H2 as [H2 | H2]; [lia|]. apply Hin in H2. lia.
Qed.

Lemma thread_positions_insert k i row d d' :
  messages d !! i = None → messages d' = <[i := row]> (messages d) →
  thread_positions k d' ≡ₚ
    (if String.eqb (m_thread_id row) k then [m_position row] else []) ++ thread_positions k d.
Proof.
  intros Hi E. unfold thread_positions. rewrite E.
  assert (∀ (l l' : list (string * message_row)), l ≡ₚ l' →
    List.filter (λ x, String.eqb (m_thread_id x.2) k) l ≡ₚ
    List.filter (λ x, String.eqb (m_thread_id x.2) k) l') as Hf.
  { induction 1 as [|x l l' _ IH|x y l|l1 l2 l3 _ IH1 _ IH2]; simpl.
    - done.
    - destruct (String.eqb _ k); [by constructor|done].
    - destruct (String.eqb _ k), (String.eqb _ k); try done. apply Permutation_swap.
    - by etrans. }
  rewrite (Permutation_map _ (Hf _ _ (map_to_list_insert _ _ _ Hi))). simpl.
  by destruct (String.eqb _ _).
Qed.

Lemma contiguous_append k i row d d' :
  messages d !! i = None → messages d' = <[i := row]> (messages d) →
  m_position row = next_position (m_thread_id row) d → contiguous k d → contiguous k d'.
Proof.
  intros Hi E Hpos (n & Hn & Hp). unfold contiguous.
  destruct (String.eqb_spec (m_thread_id row) k) as [<- | Hne].
  - exists (n + 1). split; [lia|]. rewrite (thread_positions_insert _ _ _ _ _ Hi E).
    rewrite String.eqb_refl, Hpos, (next_position_contiguous _ _ n), Hp by done.
    rewrite seqZ_app by lia. rewrite (Permutation_app_comm (seqZ 1 n)). simpl.
    replace (1 + n) with (n + 1) by lia. done.
  - exists n. split; [done|]. rewrite (thread_positions_insert _ _ _ _ _ Hi E).
    by rewrite (proj2 (String.eqb_neq _ _) Hne).
Qed.
