(* ===== verification/ThreadFacts.v ===== *)
(** * What the container commands do *)

From S2P Require Import Prelude PyText Clock Json Schema Store Demo Threads.
Open Scope Z_scope.

Lemma insert_alter_same {A} (m : gmap string A) i (f : A → A) x y :
  m !! i = Some x → <[i := y]> (alter f i m) = <[i := y]> m.
Proof.
  intros Hi. apply map_eq. intros j. destruct (decide (i = j)) as [<- | Hne].
  - by rewrite !lookup_insert_eq.
  - by rewrite !lookup_insert_ne, lookup_alter_ne.
Qed.

(** Steps known only by their effect on the three tables. *)
Lemma step_workspace i r r' w w' :
  workspaces (w_db w) !! i = Some r → workspace_later r r' →
  containers (w_db w') = (<[i := r']> (workspaces (w_db w)), threads (w_db w), messages (w_db w)) →
  container_step w w'.
Proof.
  unfold containers. intros Hr Hl [= E1 E2 E3].
  split; rewrite ?E1, ?E2, ?E3; unfold contiguous, thread_positions; rewrite ?E3;
    eauto using thread_later_refl.
  intros k r0 Hk. destruct (decide (i = k)) as [<- | Hne].
  - rewrite lookup_insert_eq. rewrite Hr in Hk. injection Hk as <-. eauto.
  - rewrite lookup_insert_ne by done. eauto using workspace_later_refl.
Qed.
Lemma step_thread i r r' w w' :
  threads (w_db w) !! i = Some r → thread_later r r' →
  containers (w_db w') = (workspaces (w_db w), <[i := r']> (threads (w_db w)), messages (w_db w)) →
  container_step w w'.
Proof.
  unfold containers. intros Hr Hl [= E1 E2 E3].
  split; rewrite ?E1, ?E2, ?E3; unfold contiguous, thread_positions; rewrite ?E3;
    eauto using workspace_later_refl.
  intros k r0 Hk. destruct (decide (i = k)) as [<- | Hne].
  - rewrite lookup_insert_eq. rewrite Hr in Hk. injection Hk as <-. eauto.
  - rewrite lookup_insert_ne by done. eauto using thread_later_refl.
Qed.
Lemma step_new_workspace i r w w' :
  workspaces (w_db w) !! i = None →
  containers (w_db w') = (<[i := r]> (workspaces (w_db w)), threads (w_db w), messages (w_db w)) →
  container_step w w'.
Proof.
  unfold containers. intros Hr [= E1 E2 E3].
  split; rewrite ?E1, ?E2, ?E3; unfold contiguous, thread_positions; rewrite ?E3;
    eauto using thread_later_refl.
  intros k r0 Hk. rewrite lookup_insert_ne by congruence. eauto using workspace_later_refl.
Qed.
Lemma step_new_thread i r w w' :
  threads (w_db w) !! i = None →
  containers (w_db w') = (workspaces (w_db w), <[i := r]> (threads (w_db w)), messages (w_db w)) →
  container_step w w'.
Proof.
  unfold containers. intros Hr [= E1 E2 E3].
  split; rewrite ?E1, ?E2, ?E3; unfold contiguous, thread_positions; rewrite ?E3;
    eauto using workspace_later_refl.
  intros k r0 Hk. rewrite lookup_insert_ne by congruence. eauto using thread_later_refl.
Qed.
Lemma step_message i row th th' w w' :
  messages (w_db w) !! i = None → m_position row = next_position (m_thread_id row) (w_db w) →
  threads (w_db w) !! m_thread_id row = Some th → thread_later th th' →
  th_revision th' = th_revision th + 1 →
  containers (w_db w') = (workspaces (w_db w), <[m_thread_id row := th']> (threads (w_db w)),
                          <[i := row]> (messages (w_db w))) →
  container_step w w'.
Proof.
  unfold containers. intros Hi Hpos Hth Hl Hrev [= E1 E2 E3]. split; rewrite ?E1, ?E2.
  - eauto using workspace_later_refl.
  - intros k r0 Hk. destruct (decide (m_thread_id row = k)) as [<- | Hne].
    + rewrite lookup_insert_eq. rewrite Hth in Hk. injection Hk as <-. eauto.
    + rewrite lookup_insert_ne by done. eauto using thread_later_refl.
  - rewrite E3. by apply insert_subseteq.
  - intros k Hc. by eapply contiguous_append.
  - intros k r0 Hk Hk'. rewrite (thread_positions_insert _ _ _ _ _ Hi E3).
    destruct (String.eqb_spec (m_thread_id row) k) as [<- | Hne]; [|done].
    rewrite lookup_insert_eq in Hk'. rewrite Hth in Hk. simplify_eq. lia.
Qed.

Section ThreadEffects.
Context `{Env}.

Lemma workspace_ok i w r v w' :
  workspace i w = Ok (r, v) w' ↔
  w' = w ∧ workspaces (w_db w) !! i = Some r ∧ v = workspace_json i r.
Proof.
  unfold workspace, query, gets, from_option, mbind, M_bind, mret, M_ret, raise.
  destruct (workspaces (w_db w) !! i); naive_solver.
Qed.
Lemma thread_ok i w r v w' :
  thread i w = Ok (r, v) w' ↔
  w' = w ∧ threads (w_db w) !! i = Some r ∧ v = thread_json i r.
Proof.
  unfold thread, query, gets, from_option, mbind, M_bind, mret, M_ret, raise.
  destruct (threads (w_db w) !! i); naive_solver.
Qed.
Lemma message_ok i w v w' :
  message i w = Ok v w' ↔
  w' = w ∧ ∃ r, messages (w_db w) !! i = Some r ∧ v = message_json i r.
Proof.
  unfold message, query, gets, from_option, mbind, M_bind, mret, M_ret, raise.
  destruct (messages (w_db w) !! i); naive_solver.
Qed.
Lemma update_revision_workspace_ok i e t w u w' :
  update_revision_workspace i e t w = Ok u w' →
  ∃ r, workspaces (w_db w) !! i = Some r ∧ ws_revision r = e ∧
    w' = on_db (set_workspaces <[i := ws_touch t r]>) w.
Proof.
  unfold update_revision_workspace. intros Hu. mgo.
  destruct (workspaces (w_db w) !! i) as [r|] eqn:Hr; [destruct (Z.eqb_spec (ws_revision r) e)|]; mcase. eauto.
Qed.
Lemma update_revision_thread_ok i e t w u w' :
  update_revision_thread i e t w = Ok u w' →
  ∃ r, threads (w_db w) !! i = Some r ∧ th_revision r = e ∧
    w' = on_db (set_threads <[i := th_touch t r]>) w.
Proof.
  unfold update_revision_thread. intros Hu. mgo.
  destruct (threads (w_db w) !! i) as [r|] eqn:Hr; [destruct (Z.eqb_spec (th_revision r) e)|]; mcase. eauto.
Qed.
End ThreadEffects.

(** [tgo] reads a run of a container body. *)
Ltac tgo_step :=
  match goal with
  | H : workspace _ _ = Ok ?p _ |- _ => is_var p; destruct p
  | H : thread _ _ = Ok ?p _ |- _ => is_var p; destruct p
  | H : workspace _ _ = Ok _ _ |- _ => apply workspace_ok in H as (-> & ? & ->)
  | H : thread _ _ = Ok _ _ |- _ => apply thread_ok in H as (-> & ? & ->)
  | H : message _ _ = Ok _ _ |- _ => apply message_ok in H as (-> & ? & ? & ->)
  | H : update_revision_workspace _ _ _ _ = Ok _ _ |- _ =>
      apply update_revision_workspace_ok in H as (? & ? & ? & ->)
  | H : update_revision_thread _ _ _ _ = Ok _ _ |- _ =>
      apply update_revision_thread_ok in H as (? & ? & ? & ->)
  | H : alter _ ?i _ !! ?i = Some _ |- _ =>
      rewrite lookup_alter_eq in H; apply fmap_Some in H as (? & ? & ->)
  | H : <[?i := _]> _ !! ?i = Some _ |- _ => rewrite lookup_insert_eq in H
  | H : (_ && _) = true |- _ => apply andb_true_iff in H as [? ?]
  | H : bool_decide _ = true |- _ => apply bool_decide_eq_true in H
  end.
Ltac tgo := repeat first [mgo_step | progress simplify_eq/= | tgo_step].

Section ThreadBodies.
Context `{Env}.

Lemma create_workspace_body_ok title w v code w' :
  create_workspace_body title w = Ok (v, code) w' →
  ∃ i t, workspaces (w_db w) !! i = None ∧ v = workspace_json i (WorkspaceRow title 0 t t) ∧
    containers (w_db w') = (<[i := WorkspaceRow title 0 t t]> (workspaces (w_db w)),
                            threads (w_db w), messages (w_db w)).
Proof. unfold create_workspace_body. intros Hb. tgo. do 2 eexists. by split_and!. Qed.

Lemma create_thread_body_ok wid title rev w v code w' :
  create_thread_body wid title rev w = Ok (v, code) w' →
  ∃ i r ws t, workspaces (w_db w) !! wid = Some ws ∧ ws_revision ws = rev ∧
    threads (w_db w) !! i = None ∧ r = ThreadRow wid title "idle" None 0 t t None ∧
    v = thread_json i r ∧
    containers (w_db w') = (<[wid := ws_touch t ws]> (workspaces (w_db w)),
                            <[i := r]> (threads (w_db w)), messages (w_db w)).
Proof.
  unfold create_thread_body. intros Hb. tgo. do 4 eexists. split_and!; try done.
Qed.

Lemma rename_workspace_body_ok wid title rev w v code w' :
  rename_workspace_body wid title rev w = Ok (v, code) w' →
  ∃ ws t, workspaces (w_db w) !! wid = Some ws ∧ ws_revision ws = rev ∧
    v = workspace_json wid (ws_touch t (ws_retitle title ws)) ∧
    containers (w_db w') = (<[wid := ws_touch t (ws_retitle title ws)]> (workspaces (w_db w)),
                            threads (w_db w), messages (w_db w)).
Proof.
  unfold rename_workspace_body. intros Hb. tgo. do 2 eexists. split_and!; try done.
  unfold containers. simpl. by erewrite insert_alter_same.
Qed.

Lemma rename_thread_body_ok tid title rev w v code w' :
  rename_thread_body tid title rev w = Ok (v, code) w' →
  ∃ th t, threads (w_db w) !! tid = Some th ∧ th_revision th = rev ∧
    v = thread_json tid (th_touch t (th_retitle title th)) ∧
    containers (w_db w') = (workspaces (w_db w),
      <[tid := th_touch t (th_retitle title th)]> (threads (w_db w)), messages (w_db w)).
Proof.
  unfold rename_thread_body. intros Hb. tgo. do 2 eexists. split_and!; try done.
  unfold containers. simpl. by erewrite insert_alter_same.
Qed.

Lemma set_archived_body_ok tid archived rev w v code w' :
  set_archived_body tid archived rev w = Ok (v, code) w' →
  ∃ th, threads (w_db w) !! tid = Some th ∧ th_revision th = rev ∧
    (archived = true → th_active_run_id th = None) ∧
    (w' = w ∧ v = thread_json tid th ∧ (is_Some (th_archived_at th) ↔ archived = true) ∨
     ∃ t, let th' := th_touch t (th_archive (if archived then Some t else None) th) in
       v = thread_json tid th' ∧
       containers (w_db w') =
         (workspaces (w_db w), <[tid := th']> (threads (w_db w)), messages (w_db w))).
Proof.
  unfold set_archived_body. intros Hb. tgo.
  match goal with Ht : threads (w_db _) !! tid = Some ?r |- _ => exists r end.
  split_and!; [done|done| |].
  { intros ->. simpl in *. match goal with Hn : negb (bool_decide _) = true |- _ =>
      apply negb_true_iff, bool_decide_eq_false in Hn; by apply eq_None_not_Some end. }
  destruct (Bool.eqb _ archived) eqn:Eb; tgo.
  - left. split_and!; [done|done|]. apply eqb_prop in Eb. rewrite <- Eb. by rewrite bool_decide_eq_true.
  - right. eexists. split; [done|]. unfold containers. simpl. by erewrite insert_alter_same.
Qed.

Lemma append_message_body_ok tid role content rev w v code w' :
  append_message_body tid role content rev w = Ok (v, code) w' →
  ∃ th i t, threads (w_db w) !! tid = Some th ∧ th_revision th = rev ∧ th_archived_at th = None ∧
    messages (w_db w) !! i = None ∧
    let row := MessageRow tid role content (next_position tid (w_db w)) t in
    message_check row = true ∧ v = message_json i row ∧
    containers (w_db w') = (workspaces (w_db w), <[tid := th_touch t th]> (threads (w_db w)),
                            <[i := row]> (messages (w_db w))).
Proof.
  unfold append_message_body, insert_message. intros Hb. tgo. do 3 eexists. by split_and!.
Qed.

(** Every command moves the containers along [container_step]. *)
Lemma retouch_later t r r' :
  th_workspace_id r' = th_workspace_id r → th_created_at r' = th_created_at r →
  th_active_run_id r' = th_active_run_id r → th_revision r' = th_revision r →
  thread_later r (th_touch t r').
Proof. intros E1 E2 E3 E4. unfold thread_later. simpl. rewrite E1, E2, E3, E4. naive_solver lia. Qed.
Lemma ws_touch_later t r r' :
  ws_created_at r' = ws_created_at r → ws_revision r' = ws_revision r →
  workspace_later r (ws_touch t r').
Proof. intros E1 E2. unfold workspace_later. simpl. rewrite E1, E2. naive_solver lia. Qed.

Lemma container_command a o k request body :
  (∀ w v code w', body w = Ok (v, code) w' → container_step w w') →
  evolves container_step (command a o k request body).
Proof. by apply (view_body containers container_step container_same). Qed.
Lemma container_pure {A} (m : Store A) : pure m → evolves container_step m.
Proof. apply (view_pure containers container_step container_same). Qed.

Lemma create_workspace_steps title a k : evolves container_step (create_workspace title a k).
Proof.
  apply evolves_bind; [apply _|apply container_pure, pure_required_text|intros t].
  apply container_command. intros w v code w' (i & t' & Hi & _ & E)%create_workspace_body_ok.
  by eapply step_new_workspace.
Qed.
Lemma create_thread_steps wid title rev a k :
  evolves container_step (create_thread wid title rev a k).
Proof.
  apply evolves_bind; [apply _|apply container_pure, pure_required_text|intros t].
  apply container_command.
  intros w v code w' (i & r & ws & t' & Hw & _ & Hi & _ & _ & E)%create_thread_body_ok.
  unfold containers in E. injection E as E1 E2 E3.
  etrans; [eapply (step_workspace wid ws (ws_touch t' ws) w
    (on_db (set_workspaces <[wid := ws_touch t' ws]>) w)); [done|by apply ws_touch_later|done]|].
  eapply (step_new_thread i r); [exact Hi|]. unfold containers. simpl. by rewrite E1, E2, E3.
Qed.
Lemma rename_workspace_steps wid title rev a k :
  evolves container_step (rename_workspace wid title rev a k).
Proof.
  apply evolves_bind; [apply _|apply container_pure, pure_required_text|intros t].
  apply container_command. intros w v code w' (ws & t' & Hw & _ & _ & E)%rename_workspace_body_ok.
  eapply step_workspace; [exact Hw| |exact E]. by apply ws_touch_later.
Qed.
Lemma rename_thread_steps tid title rev a k :
  evolves container_step (rename_thread tid title rev a k).
Proof.
  apply evolves_bind; [apply _|apply container_pure, pure_required_text|intros t].
  apply container_command. intros w v code w' (th & t' & Hw & _ & _ & E)%rename_thread_body_ok.
  eapply step_thread; [exact Hw| |exact E]. by apply retouch_later.
Qed.
Lemma set_archived_steps tid archived rev a k :
  evolves container_step (set_thread_archived tid archived rev a k).
Proof.
  apply container_command. intros w v code w' (th & Hw & _ & _ & Ho)%set_archived_body_ok.
  destruct Ho as [(-> & _) | (t & _ & E)]; [reflexivity|].
  eapply step_thread; [exact Hw| |exact E]. by apply retouch_later.
Qed.
Lemma append_message_steps tid role content rev a k :
  evolves container_step (append_message tid role content rev a k).
Proof.
  apply evolves_bind; [apply _|apply container_pure, pure_from_option|intros r].
  apply evolves_bind; [apply _|apply container_pure, pure_required_text|intros c].
  apply container_command.
  intros w v code w' (th & i & t & Hth & _ & _ & Hi & _ & _ & E)%append_message_body_ok.
  eapply (step_message i (MessageRow tid r c (next_position tid (w_db w)) t) th (th_touch t th));
    [done|done|done|by apply retouch_later|done|done].
Qed.
End ThreadBodies.

(** ** Sessions *)

Inductive container_cmd :=
| CreateWorkspace (title actor key : string)
| CreateThread (workspace_id title : string) (revision : Z) (actor key : string)
| RenameWorkspace (workspace_id title : string) (revision : Z) (actor key : string)
| RenameThread (thread_id title : string) (revision : Z) (actor key : string)
| ArchiveThread (thread_id : string) (revision : Z) (actor key : string)
| UnarchiveThread (thread_id : string) (revision : Z) (actor key : string)
| AppendMessage (thread_id role content : string) (revision : Z) (actor key : string).

Section ContainerSessions.
Context `{Env}.

Definition run_container (c : container_cmd) : M world exc command_result :=
  match c with
  | CreateWorkspace t a k => create_workspace t a k
  | CreateThread w t r a k => create_thread w t r a k
  | RenameWorkspace w t r a k => rename_workspace w t r a k
  | RenameThread i t r a k => rename_thread i t r a k
  | ArchiveThread i r a k => archive_thread i r a k
  | UnarchiveThread i r a k => unarchive_thread i r a k
  | AppendMessage i ro c r a k => append_message i ro c r a k
  end.
Definition container_session (cmds : list container_cmd) (w : world) : world :=
  fold_left (λ w c, end_world (run_container c w)) cmds w.

Lemma container_session_steps cmds w : container_step w (container_session cmds w).
Proof.
  revert w. induction cmds as [|c cmds IH]; intros w; simpl; [reflexivity|].
  etrans; [|apply IH]. destruct c; simpl; [apply create_workspace_steps|apply create_thread_steps
    |apply rename_workspace_steps|apply rename_thread_steps|apply set_archived_steps
    |apply set_archived_steps|apply append_message_steps].
Qed.
End ContainerSessions.
