(* ===== verification/ThreadTheorems.v ===== *)
(** * Workspaces, threads and messages: their theorems *)

From S2P Require Import Prelude PyText Clock Json Schema Store Demo Threads ThreadFacts.
Open Scope Z_scope.

(** ** Archived threads *)

(** An archived thread stays archived and keeps its transcript. *)
Definition frozen (k : string) (w w' : world) : Prop :=
  ∀ r, threads (w_db w) !! k = Some r → is_Some (th_archived_at r) →
  ∃ r', threads (w_db w') !! k = Some r' ∧ is_Some (th_archived_at r') ∧
    thread_positions k (w_db w') ≡ₚ thread_positions k (w_db w).

#[export] Instance frozen_preorder k : PreOrder (frozen k).
Proof.
  split; [intros w r; eauto|]. intros w1 w2 w3 H12 H23 r Hr Ha.
  destruct (H12 r Hr Ha) as (r2 & H2 & Ha2 & P2). destruct (H23 r2 H2 Ha2) as (r3 & H3 & Ha3 & P3).
  exists r3. split_and!; [done|done|]. by rewrite P3.
Qed.
Lemma frozen_same k w w' : containers (w_db w') = containers (w_db w) → frozen k w w'.
Proof.
  unfold containers. intros [= _ E2 E3] r Hr Ha. exists r. rewrite E2. split_and!; [done|done|].
  unfold thread_positions. by rewrite E3.
Qed.
(** A step that leaves the messages alone and un-archives nothing. *)
Lemma frozen_threads k f w w' :
  (∀ r, th_archived_at (f r) = th_archived_at r) →
  (∀ r, threads (w_db w) !! k = Some r → ∃ r', threads (w_db w') !! k = Some r' ∧ (r' = r ∨ r' = f r)) →
  messages (w_db w') = messages (w_db w) → frozen k w w'.
Proof.
  intros Hf Ht Hm r Hr Ha. destruct (Ht r Hr) as (r' & Hr' & Hc). exists r'.
  split_and!; [done|destruct Hc as [-> | ->]; [done|by rewrite Hf]|].
  unfold thread_positions. by rewrite Hm.
Qed.

Section Frozen.
Context `{Env}.

Lemma frozen_command k a o key request body :
  (∀ w v code w', body w = Ok (v, code) w' → frozen k w w') →
  evolves (frozen k) (command a o key request body).
Proof. by apply (view_body containers (frozen k) (frozen_same k)). Qed.
Lemma frozen_pure {A} k (m : M world exc A) : pure m → evolves (frozen k) m.
Proof. apply (view_pure containers (frozen k) (frozen_same k)). Qed.

Lemma insert_row_or k i (r0 : thread_row) (f : thread_row → thread_row) (m : gmap string thread_row) r :
  m !! i = Some r0 → m !! k = Some r →
  ∃ r', <[i := f r0]> m !! k = Some r' ∧ (r' = r ∨ r' = f r).
Proof.
  intros Hi Hk. destruct (decide (i = k)) as [-> | Hne].
  - rewrite lookup_insert_eq. rewrite Hi in Hk. injection Hk as ->. eauto.
  - rewrite lookup_insert_ne by done. eauto.
Qed.

Lemma run_container_frozen k c :
  (∀ r a key, c ≠ UnarchiveThread k r a key) → evolves (frozen k) (run_container c).
Proof.
  intros Hc. destruct c as [t a key|wid t rev a key|wid t rev a key|tid t rev a key|tid rev a key
    |tid rev a key|tid ro co rev a key]; simpl.
  - apply evolves_bind; [apply _|apply frozen_pure, pure_required_text|intros t'].
    apply frozen_command. intros w v code w' (i & t0 & _ & _ & [= E1 E2 E3])%create_workspace_body_ok.
    apply (frozen_threads k id); [done| |done]. intros r Hr. rewrite E2. eauto.
  - apply evolves_bind; [apply _|apply frozen_pure, pure_required_text|intros t'].
    apply frozen_command.
    intros w v code w' (i & r0 & ws & t0 & _ & _ & Hi & _ & _ & [= E1 E2 E3])%create_thread_body_ok.
    apply (frozen_threads k id); [done| |done]. intros r Hr. rewrite E2, lookup_insert_ne by congruence. eauto.
  - apply evolves_bind; [apply _|apply frozen_pure, pure_required_text|intros t'].
    apply frozen_command. intros w v code w' (ws & t0 & _ & _ & _ & [= E1 E2 E3])%rename_workspace_body_ok.
    apply (frozen_threads k id); [done| |done]. intros r Hr. rewrite E2. eauto.
  - apply evolves_bind; [apply _|apply frozen_pure, pure_required_text|intros t'].
    apply frozen_command. intros w v code w' (th & t0 & Hth & _ & _ & [= E1 E2 E3])%rename_thread_body_ok.
    apply (frozen_threads k (λ r, th_touch t0 (th_retitle t' r))); [done| |done].
    intros r Hr. rewrite E2. by apply (insert_row_or k tid th (λ r, th_touch t0 (th_retitle t' r))).
  - apply frozen_command. intros w v code w' (th & Hth & _ & _ & Ho)%set_archived_body_ok.
    destruct Ho as [(-> & _) | (t & _ & [= E1 E2 E3])]; [reflexivity|].
    intros r Hr Ha. rewrite E2. unfold thread_positions. rewrite E3.
    destruct (decide (tid = k)) as [-> | Hne].
    + rewrite lookup_insert_eq. eexists. split_and!; [done|simpl; by eexists|done].
    + rewrite lookup_insert_ne by done. eauto.
  - apply frozen_command. intros w v code w' (th & Hth & _ & _ & Ho)%set_archived_body_ok.
    destruct Ho as [(-> & _) | (t & _ & [= E1 E2 E3])]; [reflexivity|].
    apply (frozen_threads k id); [done| |done]. intros r Hr. rewrite E2, lookup_insert_ne; [eauto|].
    intros ->. by eapply Hc.
  - apply evolves_bind; [apply _|apply frozen_pure, pure_from_option|intros ro'].
    apply evolves_bind; [apply _|apply frozen_pure, pure_required_text|intros co'].
    apply frozen_command.
    intros w v code w' (th & i & t & Hth & _ & Hna & Hi & _ & _ & [= E1 E2 E3])%append_message_body_ok.
    intros r Hr Ha. assert (tid ≠ k) as Hne.
    { intros ->. rewrite Hth in Hr. injection Hr as ->. rewrite Hna in Ha. by destruct Ha. }
    exists r. rewrite E2, lookup_insert_ne by done. split_and!; [done|done|].
    rewrite (thread_positions_insert _ _ _ _ _ Hi E3). simpl.
    by rewrite (proj2 (String.eqb_neq _ _) Hne).
Qed.
End Frozen.

(** An archived thread is frozen: as long as nobody un-archives it, no
    sequence of workspace, thread and message commands adds a message to it or takes it
    out of the archive. *)
Theorem archived_thread_frozen `{Env} cmds w k r :
  threads (w_db w) !! k = Some r → is_Some (th_archived_at r) →
  (∀ c rev a key, In c cmds → c ≠ UnarchiveThread k rev a key) →
  let w' := container_session cmds w in
  ∃ r', threads (w_db w') !! k = Some r' ∧ is_Some (th_archived_at r') ∧
    thread_positions k (w_db w') ≡ₚ thread_positions k (w_db w).
Proof.
  intros Hr Ha Hc w'. assert (frozen k w w') as Hf; [|exact (Hf r Hr Ha)].
  subst w'. clear Hr Ha. revert w. induction cmds as [|c cmds IH]; intros w; [simpl; reflexivity|].
  simpl. etrans; [apply run_container_frozen|apply IH].
  - intros rev a key. apply Hc. by left.
  - intros c' rev a key Hin. apply Hc. by right.
Qed.

Definition demo_container : list container_cmd :=
  [CreateWorkspace "lab" "op" "idempotency-key-1";
   CreateThread "ws-0" "reading" 0 "op" "idempotency-key-2";
   AppendMessage "thread-2" "user" "hello" 0 "op" "idempotency-key-3";
   ArchiveThread "thread-2" 1 "op" "idempotency-key-4"].
Abbreviation demo_archived := (container_session demo_container demo_world).
Definition demo_thread (w : world) : thread_row :=
  default (ThreadRow "" "" "" None 0 "" "" None) (threads (w_db w) !! "thread-2").
Lemma archived_thread_frozen_witness :
  ∃ r', threads (w_db (container_session
          [AppendMessage "thread-2" "user" "again" 2 "op" "idempotency-key-5"] demo_archived))
        !! "thread-2" = Some r' ∧ is_Some (th_archived_at r').
Proof.
  assert (threads (w_db demo_archived) !! "thread-2" = Some (demo_thread demo_archived)) as A
    by (vm_compute; reflexivity).
  assert (is_Some (th_archived_at (demo_thread demo_archived))) as B by (vm_compute; eexists; reflexivity).
  destruct (archived_thread_frozen
    [AppendMessage "thread-2" "user" "again" 2 "op" "idempotency-key-5"] demo_archived _ _ A B)
    as (r' & H1 & H2 & _); [|exists r'; split; assumption].
  intros c rev a key [<- | []]. discriminate.
Defined.

(** No update is lost: once a message was appended from some revision, a
    second append or a rename issued from the same revision is refused with the
    thread as it is now, whatever happened in between, and writes nothing. *)
Theorem append_prevents_lost_update `{Env} tid role content rev actor key w r w1 cmds
    role' content' title' actor' key' :
  append_message tid role content rev actor key w = Ok r w1 → cr_replayed r = false →
  let w2 := container_session cmds w1 in
  key_ok key' = true → is_Some (parse_role role') →
  strip content' ≠ "" → slen content' <= 1000000 → strip title' ≠ "" → slen title' <= 500 →
  idempotency_receipts (w_db w2) !! (actor', "POST:/api/v1/threads/" +:+ tid +:+ "/messages", key') = None →
  idempotency_receipts (w_db w2) !! (actor', "POST:/api/v1/threads/" +:+ tid +:+ "/rename", key') = None →
  ∃ row, threads (w_db w2) !! tid = Some row ∧
    append_message tid role' content' rev actor' key' w2
      = Err (RevisionConflict (thread_json tid row)) w2 ∧
    rename_thread tid title' rev actor' key' w2 = Err (RevisionConflict (thread_json tid row)) w2.
Proof.
  intros Hr Hrep w2 Hkey [ro Hro] Hc1 Hc2 Ht1 Ht2 Hrec1 Hrec2. unfold append_message in Hr.
  apply bind_ok in Hr as (ro0 & w0 & [_ ->]%from_option_ok & Hr).
  apply bind_ok in Hr as (co & w0 & (_ & _ & _ & ->)%required_text_ok & Hr).
  apply command_ok in Hr as [_ Hr]. destruct (idempotency_receipts (w_db w) !! _); [naive_solver|].
  destruct Hr as (v & code & w3 & Hb & (_ & _ & Hw1)%save_receipt_ok).
  assert (0 <= rev) as Hpos.
  { unfold append_message_body in Hb. apply bind_ok in Hb as ([th v0] & w4 & _ & Hb).
    by apply bind_ok in Hb as (u & w5 & (Hp & _)%expect_revision_ok & _). }
  apply append_message_body_ok in Hb as (th & i & t & Hth & Hrev & _ & _ & _ & _ & [= _ E2 _]).
  assert (threads (w_db w1) !! tid = Some (th_touch t th)) as H1.
  { rewrite Hw1. simpl. by rewrite E2, lookup_insert_eq. }
  destruct (cs_threads _ _ (container_session_steps cmds w1) tid _ H1) as (row & Hrow & Hl).
  exists row. split; [exact Hrow|].
  assert (sc : th_revision row ≠ rev) by (destruct Hl as (_ & _ & _ & L & _); simpl in L; lia).
  split.
  - unfold append_message. rewrite (bind_run _ _ _ ro w2) by (by apply from_option_ok).
    rewrite (bind_run _ _ _ (strip content') w2) by (by apply required_text_ok).
    apply command_refuses; [done|done|]. unfold append_message_body.
    rewrite (bind_run _ _ _ (row, thread_json tid row) w2) by (by apply thread_ok).
    by apply bind_run_err, expect_revision_stale.
  - unfold rename_thread. rewrite (bind_run _ _ _ (strip title') w2) by (by apply required_text_ok).
    apply command_refuses; [done|done|]. unfold rename_thread_body.
    rewrite (bind_run _ _ _ (row, thread_json tid row) w2) by (by apply thread_ok).
    by apply bind_run_err, expect_revision_stale.
Qed.

Abbreviation demo_threaded :=
  (container_session [CreateWorkspace "lab" "op" "idempotency-key-1";
     CreateThread "ws-0" "reading" 0 "op" "idempotency-key-2"] demo_world).
Abbreviation demo_append :=
  (append_message "thread-2" "user" "hello" 0 "op" "idempotency-key-3" demo_threaded).
Lemma append_prevents_lost_update_witness :
  ∃ row, threads (w_db (end_world demo_append)) !! "thread-2" = Some row ∧
    append_message "thread-2" "user" "other" 0 "op" "idempotency-key-4" (end_world demo_append)
    = Err (RevisionConflict (thread_json "thread-2" row)) (end_world demo_append).
Proof.
  assert (is_ok demo_append = true) as A by (vm_compute; reflexivity).
  assert (cr_replayed (answer no_result demo_append) = false) as B by (vm_compute; reflexivity).
  assert (is_Some (parse_role "user")) as C by (vm_compute; eexists; reflexivity).
  assert (idempotency_receipts (w_db (container_session [] (end_world demo_append))) !!
    ("op", "POST:/api/v1/threads/" +:+ "thread-2" +:+ "/messages", "idempotency-key-4") = None) as D
    by (vm_compute; reflexivity).
  assert (idempotency_receipts (w_db (container_session [] (end_world demo_append))) !!
    ("op", "POST:/api/v1/threads/" +:+ "thread-2" +:+ "/rename", "idempotency-key-4") = None) as E
    by (vm_compute; reflexivity).
  destruct (append_prevents_lost_update _ _ _ _ _ _ _ _ _ [] "user" "other" "title" "op"
    "idempotency-key-4" (answered no_result _ A) B eq_refl C ltac:(discriminate) ltac:(discriminate)
    ltac:(discriminate) ltac:(discriminate) D E) as (row & H1 & H2 & _).
  exists row. split; assumption.
Defined.
