(* ===== verification/Ledger.v ===== *)
(** * The operation ledger of a managed worker

    [runtime_update/operation_ledger.py] (and its copy shipped in the worker
    payload): an append-only file of one JSON record per line, the sidecar that
    marks one torn fragment as quarantined, the lock file, and the object that
    holds the replayed entries.

    File contents are byte strings.  The disk carries what the code inspects of
    each file.  A fault makes the process die, or a system call fail, once the
    given number of bytes written and syncs completed is used up; a crash leaves
    the bytes written so far.  Reading does not fail, and a file the code creates
    has the mode it asks for.  A payload with a byte outside 1 to 127 is never
    written here; how [json.loads] reads one is a parameter. *)

From Stdlib Require Import Ascii.
From S2P Require Import Prelude PyText Json.
Open Scope Z_scope.

(** ** Numbers and digests *)

(** Whether the decimal text of a non-negative float rounds to zero: its value
    is at most half the least positive double, 2 ** -1075. *)
Definition signed_digits (s : string) : Z :=
  match s with
  | String c d =>
      if Ascii.eqb c "-" then - digits_value 0 d
      else if Ascii.eqb c "+" then digits_value 0 d else digits_value 0 s
  | EmptyString => 0
  end.
Definition float_rounds_to_zero (body : string) : bool :=
  let '(ip, r) := span is_digit body in
  let '(fp, r) := match r with
    | String c r' => if Ascii.eqb c "." then span is_digit r' else (EmptyString, r)
    | EmptyString => (EmptyString, r) end in
  let e := match r with String _ r' => signed_digits r' | EmptyString => 0 end in
  let m := digits_value 0 (ip +:+ fp) in
  let x := e - slen fp in
  if m =? 0 then true else if 0 <=? x then false else m * 2 ^ 1075 <=? 10 ^ (- x).
(** [recorded < 0] on a float held by its text. *)
Definition float_negative (r : string) : bool :=
  if String.eqb r "-Infinity" then true
  else let '(neg, body) := unsign r in neg && negb (float_rounds_to_zero body).

Class LedgerEnv := {
  euid : Z;
  file_sha256 : string → string;
  monotonic : nat → string;
  foreign_json : string → option json;
  file_sha256_hex : ∀ s, is_sha256 (file_sha256 s) = true;
  monotonic_ok : ∀ n, float_ok (monotonic n) = true ∧ float_negative (monotonic n) = false }.

(** ** Errors *)

Inductive lexn :=
| LedgerUnavailable (message : string)
| OperationConflict (message : string)
| LTypeError
| LOSError
| LCrash.

(** Checks that need no world. *)
Definition res (A : Type) : Type := lexn + A.
#[export] Instance res_ret : MRet res := λ A a, inr a.
#[export] Instance res_bind : MBind res := λ A B f r,
  match r with inl e => inl e | inr a => f a end.
Definition refuse {A} (message : string) : res A := inl (LedgerUnavailable message).
Definition check (b : bool) (message : string) : res unit :=
  if b then inr tt else refuse message.
Definition some_or {A} (o : option A) (message : string) : res A :=
  match o with Some a => inr a | None => refuse message end.

(** ** Entries *)

Inductive op_phase := in_progress | committed | op_failed | op_uncertain.
#[export] Instance op_phase_eq_dec : EqDecision op_phase.
Proof. solve_decision. Defined.
Definition phase_text (p : op_phase) : string :=
  match p with
  | in_progress => "in_progress" | committed => "committed"
  | op_failed => "failed" | op_uncertain => "uncertain"
  end.
Definition parse_phase (s : string) : option op_phase :=
  if String.eqb s "in_progress" then Some in_progress
  else if String.eqb s "committed" then Some committed
  else if String.eqb s "failed" then Some op_failed
  else if String.eqb s "uncertain" then Some op_uncertain else None.
Definition finished (p : op_phase) : bool :=
  match p with committed | op_failed => true | _ => false end.
Definition finishable (p : op_phase) : bool := negb (finished p).

(** [_Entry], and the dictionary of entries under their own identifiers. *)
Record entry := Entry {
  e_operation_id : string; e_kind : string; e_phase : op_phase;
  e_request_digest : string; e_result_digest : option string }.
Fixpoint find_entry (id : string) (es : list entry) : option entry :=
  match es with
  | [] => None
  | e :: es' => if String.eqb (e_operation_id e) id then Some e else find_entry id es'
  end.
Fixpoint set_entry (e : entry) (es : list entry) : list entry :=
  match es with
  | [] => [e]
  | e' :: es' =>
      if String.eqb (e_operation_id e') (e_operation_id e) then e :: es'
      else e' :: set_entry e es'
  end.

(** [_OPERATION_ID], and what a kind must be. *)
Definition operation_id_ok (s : string) : bool :=
  fullmatch is_alnum (λ c, is_alnum c || one_of "._-" c) 0 127 s.
Definition kind_ok (s : string) : bool :=
  negb (String.eqb s EmptyString) && negb (str_has (chr 0) s).
Definition entry_ok (e : entry) : bool :=
  operation_id_ok (e_operation_id e) && kind_ok (e_kind e)
  && is_sha256 (e_request_digest e)
  && match e_result_digest e with
     | Some r => finished (e_phase e) && is_sha256 r
     | None => finishable (e_phase e)
     end.

(** ** The record format *)

Definition newline : string := String (chr 10) EmptyString.

Definition RECORD_FIELDS : list string :=
  ["schema_version"; "operation_id"; "kind"; "phase"; "request_digest"; "result_digest";
   "recorded_at_monotonic"].
Definition QUARANTINE_FIELDS : list string :=
  ["schema_version"; "offset"; "length"; "fragment_sha256"].

Definition record_json (e : entry) (t : string) : json := JObj
  [("schema_version", JInt 1); ("operation_id", JStr (e_operation_id e));
   ("kind", JStr (e_kind e)); ("phase", JStr (phase_text (e_phase e)));
   ("request_digest", JStr (e_request_digest e));
   ("result_digest", opt_json (e_result_digest e)); ("recorded_at_monotonic", JFloat t)].
Definition record_text (e : entry) (t : string) : string := dumps true (record_json e t).

Section Format.
Context `{LedgerEnv}.

(** [json.loads(payload, object_pairs_hook=_unique_object)] on bytes. *)
Definition plain_byte (c : ascii) : bool := (1 <=? ord c) && (ord c <=? 127).
Definition loads_bytes (payload : string) : option json :=
  if str_all plain_byte payload then loads_unique payload else foreign_json payload.

Definition text_where (ok : string → bool) (v : json) (message : string) : res string :=
  match v with JStr s => if ok s then inr s else refuse message | _ => refuse message end.
Definition is_version_1 (v : json) : bool :=
  match v with JInt 1 => true | _ => false end.
Definition timestamp_ok (v : json) : bool :=
  match v with JInt n => 0 <=? n | JFloat r => negb (float_negative r) | _ => false end.

(** A list or a dictionary has no hash, so the set refuses to look it up. *)
Definition read_phase (v : json) : res op_phase :=
  match v with
  | JStr s => some_or (parse_phase s) "ledger operation phase is invalid"
  | JArr _ | JObj _ => inl LTypeError
  | _ => refuse "ledger operation phase is invalid"
  end.
Definition read_result (p : op_phase) (v : json) : res (option string) :=
  if finished p then
    s ← text_where is_sha256 v "ledger result digest is invalid"; inr (Some s)
  else match v with JNull => inr None | _ => refuse "ledger result digest is invalid" end.

(** [_parse_record]. *)
Definition parse_record (payload : string) : res entry :=
  raw ← some_or (loads_bytes payload) "ledger record is malformed";
  check (same_keys raw RECORD_FIELDS) "ledger record fields do not match schema";;
  check (is_version_1 (field "schema_version" raw)) "ledger schema version is invalid";;
  operation_id ← text_where operation_id_ok (field "operation_id" raw)
    "ledger operation identifier is invalid";
  kind ← text_where kind_ok (field "kind" raw) "ledger operation kind is invalid";
  phase ← read_phase (field "phase" raw);
  request ← text_where is_sha256 (field "request_digest" raw)
    "ledger request digest is invalid";
  result ← read_result phase (field "result_digest" raw);
  check (timestamp_ok (field "recorded_at_monotonic" raw)) "ledger timestamp is invalid";;
  inr (Entry operation_id kind phase request result).

(** ** Replay *)

(** [bytes.splitlines(keepends=True)]. *)
Fixpoint split_lines (s : string) : list string :=
  match s with
  | EmptyString => []
  | String c s' =>
      if ord c =? 10 then String c EmptyString :: split_lines s'
      else if ord c =? 13 then
        match s' with
        | String d s'' =>
            if ord d =? 10 then String c (String d EmptyString) :: split_lines s''
            else String c EmptyString :: split_lines s'
        | EmptyString => [String c EmptyString]
        end
      else match split_lines s' with
           | [] => [String c EmptyString]
           | l :: ls => String c l :: ls
           end
  end.

(** [line.endswith(b"\n")] and [line[:-1]]. *)
Fixpoint ends_nl (s : string) : bool :=
  match s with
  | EmptyString => false
  | String c EmptyString => ord c =? 10
  | String _ s' => ends_nl s'
  end.
Fixpoint drop_last (s : string) : string :=
  match s with
  | EmptyString | String _ EmptyString => EmptyString
  | String c s' => String c (drop_last s')
  end.

(** [_replay]: the entries, the torn fragment at the end with its offset, and
    whether the last line lacks its newline. *)
Definition replayed : Type := list entry * option (Z * string) * bool.
Fixpoint replay_lines (es : list entry) (offset : Z) (lines : list string)
    (needs_newline : bool) : res replayed :=
  match lines with
  | [] => inr (es, None, needs_newline)
  | line :: rest =>
      let terminated := ends_nl line in
      let payload := if terminated then drop_last line else line in
      if String.eqb payload EmptyString then refuse "ledger contains an empty record"
      else
        match parse_record payload, rest with
        | inr e, _ => replay_lines (set_entry e es) (offset + slen line) rest (negb terminated)
        | inl (LedgerUnavailable _), [] =>
            if terminated then refuse "ledger contains a malformed non-quarantined line"
            else inr (es, Some (offset, payload), false)
        | inl (LedgerUnavailable _), _ =>
            refuse "ledger contains a malformed non-quarantined line"
        | inl error, _ => inl error
        end
  end.
Definition replay (data : string) : res replayed :=
  replay_lines [] 0 (split_lines data) false.

(** ** The quarantine sidecar *)

Record quarantine := Quarantine { q_offset : Z; q_length : Z; q_sha256 : string }.

Definition quarantine_json (q : quarantine) : json := JObj
  [("schema_version", JInt 1); ("offset", JInt (q_offset q)); ("length", JInt (q_length q));
   ("fragment_sha256", JStr (q_sha256 q))].
Definition quarantine_text (q : quarantine) : string := dumps true (quarantine_json q).

Definition range_of (offset length : json) : res (Z * Z) :=
  match offset, length with
  | JInt o, JInt l =>
      check ((0 <=? o) && (0 <? l)) "quarantine sidecar range is invalid";; inr (o, l)
  | _, _ => refuse "quarantine sidecar range is invalid"
  end.
(** [_load_quarantine] after the file was read. *)
Definition parse_quarantine (raw_bytes : string) : res quarantine :=
  raw ← some_or (loads_bytes raw_bytes) "quarantine sidecar is malformed";
  check (same_keys raw QUARANTINE_FIELDS) "quarantine sidecar fields do not match schema";;
  check (is_version_1 (field "schema_version" raw))
    "quarantine sidecar schema version is invalid";;
  range ← range_of (field "offset" raw) (field "length" raw);
  digest ← text_where is_sha256 (field "fragment_sha256" raw)
    "quarantine sidecar digest is invalid";
  inr (Quarantine range.1 range.2 digest).

(** [data[start:end]]. *)
Definition slice (a b : Z) (s : string) : string :=
  str_take (Z.to_nat (b - a)) (str_drop (Z.to_nat a) s).
(** [_exclude_quarantine]. *)
Definition quarantine_matches (data : string) (q : quarantine) : bool :=
  let start := q_offset q in
  let stop := start + q_length q in
  if slen data <=? stop then false
  else if (0 <? start) && negb (String.eqb (slice (start - 1) start data) newline) then false
  else if negb (String.eqb (slice stop (stop + 1) data) newline) then false
  else String.eqb (file_sha256 (slice start stop data)) (q_sha256 q).
Definition exclude_quarantine (data : string) (q : quarantine) : res string :=
  let start := q_offset q in
  let stop := start + q_length q in
  check (quarantine_matches data q) "quarantine sidecar does not match ledger evidence";;
  match parse_record (slice start stop data) with
  | inr _ => refuse "quarantine sidecar covers a valid ledger record"
  | inl (LedgerUnavailable _) =>
      inr (slice 0 start data +:+ str_drop (Z.to_nat (stop + 1)) data)
  | inl error => inl error
  end.
End Format.

(** ** The disk and the process *)

Record file := File {
  f_regular : bool; f_owner : Z; f_mode : Z; f_nlink : Z; f_data : string }.
(** What the path of the state directory names; one that is absent can or
    cannot be created, and a directory has its device and inode. *)
Record directory := Directory { dir_is_dir : bool; dir_owner : Z; dir_inode : Z }.
Inductive path_state :=
| path_absent (creatable : bool) (inode : Z)
| path_names (d : directory).

Record disk := Disk {
  d_path : path_state; d_ledger : option file; d_sidecar : option file;
  d_lock : option file }.

Inductive fault := no_fault | crash_after (n : nat) | error_after (n : nat).

(** An [OperationLedger] object; its descriptors are the files of the disk. *)
Record ledger := Ledger {
  l_entries : list entry; l_quarantined : bool; l_needs_newline : bool; l_closed : bool }.

(** [w_locked]: some open descriptor holds the lock. *)
Record lworld := LWorld {
  w_disk : disk; w_object : option ledger; w_locked : bool; w_fault : fault; w_clock : nat }.

Abbreviation L := (M lworld lexn).

Definition on_disk (f : disk → disk) (w : lworld) : lworld :=
  LWorld (f (w_disk w)) (w_object w) (w_locked w) (w_fault w) (w_clock w).
Definition set_path (p : path_state) (d : disk) : disk :=
  Disk p (d_ledger d) (d_sidecar d) (d_lock d).
Definition set_ledger_file (f : option file) (d : disk) : disk :=
  Disk (d_path d) f (d_sidecar d) (d_lock d).
Definition set_sidecar (f : option file) (d : disk) : disk :=
  Disk (d_path d) (d_ledger d) f (d_lock d).
Definition set_lock (f : option file) (d : disk) : disk :=
  Disk (d_path d) (d_ledger d) (d_sidecar d) f.
Definition set_object (o : option ledger) (w : lworld) : lworld :=
  LWorld (w_disk w) o (w_locked w) (w_fault w) (w_clock w).
Definition set_locked (b : bool) (w : lworld) : lworld :=
  LWorld (w_disk w) (w_object w) b (w_fault w) (w_clock w).
Definition set_fault (f : fault) (w : lworld) : lworld :=
  LWorld (w_disk w) (w_object w) (w_locked w) f (w_clock w).
Definition tick (w : lworld) : lworld :=
  LWorld (w_disk w) (w_object w) (w_locked w) (w_fault w) (S (w_clock w)).

Definition append_data (data : string) (f : file) : file :=
  File (f_regular f) (f_owner f) (f_mode f) (f_nlink f) (f_data f +:+ data).
Definition append_ledger (data : string) (d : disk) : disk :=
  set_ledger_file (append_data data <$> d_ledger d) d.
Definition append_sidecar (data : string) (d : disk) : disk :=
  set_sidecar (append_data data <$> d_sidecar d) d.

(** A new process: no object, no lock held, no fault. *)
Definition reboot (w : lworld) : lworld :=
  LWorld (w_disk w) None false no_fault (w_clock w).

Definition lift {A} (r : res A) : L A :=
  match r with inl e => raise e | inr a => mret a end.

(** [except OSError as exc: raise LedgerUnavailable(message) from exc]. *)
Definition os_guard {A} (message : string) (m : L A) : L A := λ w,
  match m w with
  | Err LOSError w' => Err (LedgerUnavailable message) w'
  | o => o
  end.

(** [_write_all]: what fits before the fault is written. *)
Definition write_all (put : string → disk → disk) (payload : string) : L unit := λ w,
  let size := String.length payload in
  let partial n := set_fault no_fault (on_disk (put (str_take n payload)) w) in
  match w_fault w with
  | no_fault => Ok tt (on_disk (put payload) w)
  | crash_after n =>
      if (size <=? n)%nat then Ok tt (set_fault (crash_after (n - size)) (on_disk (put payload) w))
      else Err LCrash (partial n)
  | error_after n =>
      if (size <=? n)%nat then Ok tt (set_fault (error_after (n - size)) (on_disk (put payload) w))
      else Err LOSError (partial n)
  end.
(** [os.fsync]. *)
Definition fsync : L unit := λ w,
  match w_fault w with
  | no_fault => Ok tt w
  | crash_after (S n) => Ok tt (set_fault (crash_after n) w)
  | error_after (S n) => Ok tt (set_fault (error_after n) w)
  | crash_after O => Err LCrash (set_fault no_fault w)
  | error_after O => Err LOSError (set_fault no_fault w)
  end.

(** [_fsync_directory] and [_append_bytes]. *)
Definition fsync_directory : L unit :=
  os_guard "ledger directory cannot be synchronized" fsync.
Definition append_bytes (payload : string) : L unit :=
  os_guard "ledger append failed" (write_all append_ledger payload;; fsync).

Section Ledger.
Context `{LedgerEnv}.

(** [_validate_private_file]: a regular file of this user, mode 0600, one link. *)
Definition private (f : file) : bool :=
  f_regular f && (f_owner f =? euid) && (f_mode f =? 384) && (f_nlink f =? 1).
Definition new_file : file := File true euid 384 1 EmptyString.

(** [_prepare_state_dir]: the directory its descriptor refers to. *)
Definition prepare_state_dir : L directory :=
  path ← gets (λ w, d_path (w_disk w));
  (match path with
   | path_absent true inode =>
       modify (on_disk (set_path (path_names (Directory true euid inode))))
   | path_absent false _ => raise (LedgerUnavailable "ledger state directory is unavailable")
   | path_names _ => mret tt
   end);;
  path ← gets (λ w, d_path (w_disk w));
  match path with
  | path_names d =>
      ensure (dir_is_dir d) (LedgerUnavailable "ledger state directory is unavailable");;
      ensure (dir_owner d =? euid) (LedgerUnavailable "ledger state directory is unsafe");;
      mret d
  | path_absent _ _ => raise (LedgerUnavailable "ledger state directory is unavailable")
  end.

(** [_verify_directory_binding]. *)
Definition verify_directory_binding (descriptor : directory) : L unit :=
  path ← gets (λ w, d_path (w_disk w));
  match path with
  | path_names d =>
      ensure (dir_is_dir d && (dir_owner d =? euid) && (dir_inode d =? dir_inode descriptor))
        (LedgerUnavailable "ledger state directory binding changed")
  | path_absent _ _ => raise (LedgerUnavailable "ledger state directory is unavailable")
  end.

(** [_open_lock].  An existing lock file that is not a plain file of this user
    with one link, or that its owner cannot read and write, fails to open, to
    change mode or to validate, with the same message each time. *)
Definition lockable (f : file) : bool :=
  f_regular f && (f_owner f =? euid) && (f_nlink f =? 1)
  && ((euid =? 0) || (Z.land (f_mode f) 384 =? 384)).
Definition chmod_private (f : file) : file :=
  File (f_regular f) (f_owner f) 384 (f_nlink f) (f_data f).
Definition open_lock : L unit :=
  lock ← gets (λ w, d_lock (w_disk w));
  (match lock with
   | None => modify (on_disk (set_lock (Some new_file)));; fsync_directory
   | Some f =>
       ensure (lockable f) (LedgerUnavailable "operation ledger lock is unsafe");;
       modify (on_disk (set_lock (Some (chmod_private f))))
   end);;
  locked ← gets w_locked;
  ensure (negb locked) (LedgerUnavailable "operation ledger is owned by another process");;
  modify (set_locked true).

(** [_open_ledger]: whether the file was created. *)
Definition open_ledger : L bool :=
  f ← gets (λ w, d_ledger (w_disk w));
  match f with
  | Some f => ensure (private f) (LedgerUnavailable "ledger file is unsafe");; mret false
  | None => modify (on_disk (set_ledger_file (Some new_file)));; mret true
  end.

Definition ledger_data (d : disk) : string :=
  match d_ledger d with Some f => f_data f | None => EmptyString end.

(** [_load_quarantine], with [_open_private_read]. *)
Definition load_quarantine (d : disk) : res (option quarantine) :=
  match d_sidecar d with
  | None => inr None
  | Some f =>
      check (private f) "quarantine sidecar is unsafe";;
      q ← parse_quarantine (f_data f); inr (Some q)
  end.

(** [_write_quarantine]: the sidecar is created exclusively. *)
Definition quarantine_of (offset : Z) (fragment : string) : quarantine :=
  Quarantine offset (slen fragment) (file_sha256 fragment).
Definition write_quarantine (offset : Z) (fragment : string) : L unit :=
  os_guard "quarantine sidecar cannot be recorded" (
    sidecar ← gets (λ w, d_sidecar (w_disk w));
    ensure (match sidecar with None => true | Some _ => false end) LOSError;;
    modify (on_disk (set_sidecar (Some new_file)));;
    write_all append_sidecar (quarantine_text (quarantine_of offset fragment) +:+ newline);;
    fsync;;
    fsync_directory).

(** ** The operations *)

Definition the_object : L ledger :=
  o ← gets w_object; from_option o (LedgerUnavailable "there is no ledger object").
(** [_require_open]. *)
Definition require_open : L ledger :=
  g ← the_object;
  ensure (negb (l_closed g)) (LedgerUnavailable "operation ledger is closed");; mret g.

(** [_append]. *)
Definition append_line (needs_newline : bool) (record : string) : string :=
  (if needs_newline then newline else EmptyString) +:+ record +:+ newline.
Definition with_entry (e : entry) (g : ledger) : ledger :=
  Ledger (set_entry e (l_entries g)) (l_quarantined g) false (l_closed g).
Definition append (e : entry) : L unit :=
  g ← the_object;
  t ← gets (λ w, monotonic (w_clock w));
  modify tick;;
  append_bytes (append_line (l_needs_newline g) (record_text e t));;
  modify (set_object (Some (with_entry e g))).

(** The read-only part of [open]: the quarantine and the replayed entries. *)
Definition load_evidence (d : disk) : res (option quarantine * replayed) :=
  q ← load_quarantine d;
  data ← (match q with
          | Some q => exclude_quarantine (ledger_data d) q
          | None => inr (ledger_data d)
          end);
  r ← replay data; inr (q, r).

(** A torn fragment is marked and cut off from what follows, at most once. *)
Definition quarantine_torn (q : option quarantine) (torn : option (Z * string))
    (needs_newline : bool) : L (bool * bool) :=
  match torn, q with
  | None, _ => mret (match q with Some _ => true | None => false end, needs_newline)
  | Some _, Some _ => raise (LedgerUnavailable "ledger contains a second torn fragment")
  | Some (offset, fragment), None =>
      write_quarantine offset fragment;;
      append_bytes newline;;
      mret (true, false)
  end.

Definition uncertain_entry (e : entry) : entry :=
  Entry (e_operation_id e) (e_kind e) op_uncertain (e_request_digest e) None.
Definition unsettled (es : list entry) : list entry :=
  List.filter (λ e, bool_decide (e_phase e = in_progress)) es.

(** A failing [open] closes its descriptors, which releases the lock. *)
Definition releasing {A} (m : L A) : L A := λ w,
  match m w with
  | Err e w' => Err e (set_object None (set_locked false w'))
  | o => o
  end.
Definition open_object (descriptor : directory) (q : option quarantine) (r : replayed) : L unit :=
  let '(es, torn, nn) := r in
  '(quarantined, nn) ← quarantine_torn q torn nn;
  modify (set_object (Some (Ledger es quarantined nn false)));;
  verify_directory_binding descriptor;;
  map_m (λ e, append (uncertain_entry e)) (unsettled es);;
  mret tt.
Definition open_body (descriptor : directory) : L unit :=
  created ← open_ledger;
  (match created with true => fsync_directory | false => mret tt end);;
  d ← gets w_disk;
  '(q, r) ← lift (load_evidence d);
  open_object descriptor q r.
(** [OperationLedger.open]. *)
Definition open : L unit :=
  descriptor ← prepare_state_dir;
  verify_directory_binding descriptor;;
  open_lock;;
  releasing (open_body descriptor).

(** [close]. *)
Definition close : L unit :=
  g ← the_object;
  if l_closed g then mret tt
  else
    modify (set_object (Some (Ledger (l_entries g) (l_quarantined g) (l_needs_newline g) true)));;
    modify (set_locked false).

(** [_validate_identity]. *)
Definition validate_identity (operation_id kind request_digest : string) : L unit :=
  ensure (operation_id_ok operation_id)
    (OperationConflict "operation identifier is invalid");;
  ensure (kind_ok kind) (OperationConflict "operation kind is invalid");;
  ensure (is_sha256 request_digest)
    (OperationConflict "operation request digest is invalid").

(** [begin]. *)
Definition begin (operation_id kind request_digest : string) : L string :=
  g ← require_open;
  validate_identity operation_id kind request_digest;;
  match find_entry operation_id (l_entries g) with
  | Some existing =>
      ensure (String.eqb (e_request_digest existing) request_digest)
        (OperationConflict "operation identifier has a different request digest");;
      mret "duplicate"
  | None =>
      append (Entry operation_id kind in_progress request_digest None);;
      mret "accepted"
  end.

(** [finish]. *)
Definition parse_outcome (outcome : string) : option op_phase :=
  if String.eqb outcome "committed" then Some committed
  else if String.eqb outcome "failed" then Some op_failed else None.
Definition finish (operation_id outcome result_digest : string) : L unit :=
  g ← require_open;
  phase ← from_option (parse_outcome outcome) (OperationConflict "operation outcome is invalid");
  ensure (is_sha256 result_digest) (OperationConflict "operation result digest is invalid");;
  match find_entry operation_id (l_entries g) with
  | Some existing =>
      ensure (finishable (e_phase existing)) (OperationConflict "operation is not finishable");;
      append (Entry operation_id (e_kind existing) phase (e_request_digest existing)
                (Some result_digest))
  | None => raise (OperationConflict "operation is not finishable")
  end.

(** [OperationStatus] and [status]. *)
Record operation_status := OperationStatus {
  st_state : string; st_request_digest : option string; st_result_digest : option string }.
Definition status_of (o : option entry) : operation_status :=
  match o with
  | None => OperationStatus "unknown" None None
  | Some e =>
      OperationStatus (phase_text (e_phase e)) (Some (e_request_digest e)) (e_result_digest e)
  end.
Definition status (operation_id : string) : L operation_status :=
  g ← require_open; mret (status_of (find_entry operation_id (l_entries g))).
End Ledger.
