(* ===== verification/LedgerFacts.v ===== *)
(** * Laws of the ledger's file format

    What a record and a sidecar are as bytes, how lines split, and what replay
    makes of a file that grew by a whole record, by a part of one, or by the
    newline that was missing. *)

From Stdlib Require Import Ascii.
From S2P Require Import Prelude PyText Json Ledger.
Open Scope Z_scope.

(** ** What is written is printable ASCII *)

Definition printable (c : ascii) : bool := (32 <=? ord c) && (ord c <=? 126).

Lemma escape_printable c : str_all printable (escape true c) = true.
Proof. destruct c as [[] [] [] [] [] [] [] []]; reflexivity. Qed.
Lemma str_text_printable s : str_all printable (str_text true s) = true.
Proof.
  unfold str_text. simpl. rewrite str_all_app. simpl. rewrite andb_true_r.
  induction s as [|c s IH]; simpl; [done|]. by rewrite str_all_app, escape_printable.
Qed.
Lemma number_char_printable c : is_number_char c = true → printable c = true.
Proof. destruct c as [[] [] [] [] [] [] [] []]; vm_compute; congruence. Qed.
Lemma number_printable s : str_all is_number_char s = true → str_all printable s = true.
Proof. apply str_all_impl, number_char_printable. Qed.
Lemma join_items_printable {A} (item : A → string) close first l :
  str_all printable close = true → Forall (λ a, str_all printable (item a) = true) l →
  str_all printable (join_items item close first l) = true.
Proof.
  intros Hc Hl. revert first. induction Hl as [|a l Ha Hl IH]; intros first; [done|].
  rewrite join_items_cons, !str_all_app, Ha, IH. by destruct first.
Qed.
Lemma render_printable v : floats_ok v = true → str_all printable (render true v) = true.
Proof.
  induction v using json_ind'; simpl; intros Hf; try done.
  - by destruct b.
  - destruct (int_text_spec n) as (Hn & _). by apply number_printable.
  - destruct (float_ok_cases r Hf) as [[Hr _] | Hr]; [by apply number_printable|].
    naive_solver.
  - apply str_text_printable.
  - apply join_items_printable; [done|]. rewrite forallb_forall in Hf.
    rewrite Forall_forall in H |- *. intros x Hx. apply H; [done|].
    apply Hf. by apply list_elem_of_In.
  - apply join_items_printable; [done|]. rewrite forallb_forall in Hf.
    rewrite Forall_forall in H |- *. intros [k x] Hx.
    change (str_all printable (str_text true k +:+ ":" +:+ render true x) = true).
    rewrite !str_all_app, str_text_printable. simpl. apply (H (k, x)); [done|]. apply (Hf (k, x)). by apply list_elem_of_In.
Qed.

(** ** Checks that passed *)

Lemma res_bind_inr {A B} (r : res A) (f : A → res B) b :
  (r ≫= f) = inr b ↔ ∃ a, r = inr a ∧ f a = inr b.
Proof.
  unfold mbind, res_bind. destruct r; split; [done|by intros (? & ? & ?)|eauto|].
  by intros (? & [= ->] & ?).
Qed.
Lemma check_inr b m u : check b m = inr u ↔ b = true.
Proof. unfold check, refuse. destruct b, u; split; congruence. Qed.
Lemma some_or_inr {A} (o : option A) m a : some_or o m = inr a ↔ o = Some a.
Proof. unfold some_or, refuse. destruct o; split; congruence. Qed.
Lemma text_where_inr ok v m s : text_where ok v m = inr s ↔ v = JStr s ∧ ok s = true.
Proof.
  unfold text_where, refuse. destruct v; try (split; [done|by intros [? _]]).
  destruct (ok s0) eqn:E; (split; [intros Hs|intros [[= ->] Hs]]); try congruence.
  injection Hs as <-. done.
Qed.
Ltac res_go := repeat match goal with
  | H : (_ ≫= _) = inr _ |- _ => apply res_bind_inr in H as (? & ? & H)
  | H : check _ _ = inr _ |- _ => apply check_inr in H
  | H : some_or _ _ = inr _ |- _ => apply some_or_inr in H
  | H : text_where _ _ _ = inr _ |- _ => apply text_where_inr in H as [? H]
  | H : inr _ = inr _ |- _ => injection H as H
  end.

(** ** Round trips *)

Section RoundTrips.
Context `{LedgerEnv}.

Lemma plain_dumps v : json_ok v = true → str_all plain_byte (dumps true v) = true.
Proof.
  unfold json_ok. rewrite andb_true_iff. intros [_ Hf]. apply (str_all_impl printable).
  - intros c. unfold printable, plain_byte. rewrite !andb_true_iff. lia.
  - by apply render_printable, canon_floats.
Qed.
Lemma loads_bytes_blank v tail :
  json_ok v = true → tail = EmptyString ∨ tail = newline →
  loads_bytes (dumps true v +:+ tail) = Some (canon v).
Proof.
  intros Hv Ht. unfold loads_bytes. rewrite str_all_app, plain_dumps by done.
  assert (str_all plain_byte tail = true) as -> by (by destruct Ht as [-> | ->]).
  apply loads_unique_dumps_blank; [done|by destruct Ht as [-> | ->]..].
Qed.
Lemma loads_bytes_dumps v : json_ok v = true → loads_bytes (dumps true v) = Some (canon v).
Proof.
  intros Hv. rewrite <- (str_app_nil_r (dumps true v)). apply loads_bytes_blank; auto.
Qed.

Lemma parse_phase_text p : parse_phase (phase_text p) = Some p.
Proof. by destruct p. Qed.

Definition stamp_ok (t : string) : bool := float_ok t && negb (float_negative t).
Lemma monotonic_stamp n : stamp_ok (monotonic n) = true.
Proof. unfold stamp_ok. destruct (monotonic_ok n) as [-> ->]. done. Qed.

Lemma record_json_ok e t : stamp_ok t = true → json_ok (record_json e t) = true.
Proof.
  unfold stamp_ok. rewrite andb_true_iff. intros [Ht _].
  unfold json_ok, record_json. cbn. rewrite Ht. by destruct (e_result_digest e).
Qed.

Lemma parse_record_text e t :
  entry_ok e = true → stamp_ok t = true → parse_record (record_text e t) = inr e.
Proof.
  intros He Ht. unfold parse_record, record_text.
  rewrite loads_bytes_dumps by (by apply record_json_ok).
  unfold entry_ok in He. rewrite !andb_true_iff in He. destruct He as [[[Hid Hk] Hq] Hr].
  unfold stamp_ok in Ht. apply andb_true_iff in Ht as [_ Ht].
  destruct e as [id k p q r]; simpl in *.
  destruct r as [r|].
  - apply andb_true_iff in Hr as [Hp Hr]. cbn. rewrite Hid. cbn. rewrite Hk. cbn.
    rewrite parse_phase_text. cbn. rewrite Hq. cbn. unfold read_result. rewrite Hp. cbn.
    rewrite Hr. cbn. by rewrite Ht.
  - cbn. rewrite Hid. cbn. rewrite Hk. cbn.
    rewrite parse_phase_text. cbn. rewrite Hq. cbn. unfold read_result.
    destruct (finished p) eqn:E; [by unfold finishable in Hr; rewrite E in Hr|]. cbn. by rewrite Ht.
Qed.

Lemma parse_quarantine_text q tail :
  0 <= q_offset q → 0 < q_length q → is_sha256 (q_sha256 q) = true →
  tail = EmptyString ∨ tail = newline →
  parse_quarantine (quarantine_text q +:+ tail) = inr q.
Proof.
  intros Ho Hl Hs Ht. unfold parse_quarantine, quarantine_text.
  rewrite loads_bytes_blank by done. destruct q as [o l d]; simpl in *. cbn.
  rewrite (proj2 (Z.leb_le 0 o) Ho), (proj2 (Z.ltb_lt 0 l) Hl). cbn. by rewrite Hs.
Qed.
End RoundTrips.

(** ** Lines *)

Definition no_eol (c : ascii) : bool := negb (ord c =? 10) && negb (ord c =? 13).
(** A text that is empty or ends in a newline. *)
Definition clean (s : string) : bool := String.eqb s EmptyString || ends_nl s.
Definition total (ls : list string) : Z := foldr (λ l n, slen l + n) 0 ls.

Lemma printable_no_eol c : printable c = true → no_eol c = true.
Proof. unfold printable, no_eol. rewrite !andb_true_iff, !negb_true_iff. lia. Qed.
Lemma slen_cons c s : slen (String c s) = 1 + slen s.
Proof. unfold slen. simpl. lia. Qed.
Lemma ends_nl_cons c s : s ≠ EmptyString → ends_nl (String c s) = ends_nl s.
Proof. by destruct s. Qed.
Lemma str_app_nonempty (s : string) c t : s +:+ String c t ≠ EmptyString.
Proof. by destruct s. Qed.
Lemma ends_nl_app s t : t ≠ EmptyString → ends_nl (s +:+ t) = ends_nl t.
Proof.
  intros Ht. induction s as [|c s IH]; [done|]. cbn [String.append].
  rewrite ends_nl_cons; [done|]. destruct t; [done|]. apply str_app_nonempty.
Qed.
Lemma ends_nl_newline s : ends_nl (s +:+ newline) = true.
Proof. by rewrite ends_nl_app. Qed.
Lemma no_eol_ends s : str_all no_eol s = true → ends_nl s = false.
Proof.
  induction s as [|c s IH]; [done|]. cbn [str_all]. rewrite andb_true_iff. intros [Hc Hs].
  destruct s as [|d s]; [|by rewrite ends_nl_cons by done; apply IH].
  cbn. unfold no_eol in Hc. rewrite andb_true_iff, !negb_true_iff in Hc. tauto.
Qed.
Lemma drop_last_newline s : drop_last (s +:+ newline) = s.
Proof.
  induction s as [|c s IH]; [done|]. cbn [String.append drop_last].
  rewrite IH. destruct (s +:+ newline) eqn:E; [|done]. by destruct s.
Qed.
Lemma clean_newline s : clean (s +:+ newline) = true.
Proof. unfold clean. by rewrite ends_nl_newline, orb_true_r. Qed.

Lemma split_lines_eq c s : split_lines (String c s) =
  if ord c =? 10 then String c EmptyString :: split_lines s
  else if ord c =? 13 then
    match s with
    | String d s' =>
        if ord d =? 10 then String c (String d EmptyString) :: split_lines s'
        else String c EmptyString :: split_lines s
    | EmptyString => [String c EmptyString]
    end
  else match split_lines s with
       | [] => [String c EmptyString] | l :: ls => String c l :: ls
       end.
Proof. done. Qed.

Lemma split_lines_nonempty s : s ≠ EmptyString → split_lines s ≠ [].
Proof.
  destruct s as [|c s]; [done|]. intros _. cbn [split_lines].
  destruct (ord c =? 10); [done|]. destruct (ord c =? 13).
  - destruct s as [|d s]; [done|]. by destruct (ord d =? 10).
  - by destruct (split_lines s).
Qed.

(** Induction over a text by the lines it starts with: one character at a time,
    a carriage return taking the newline after it along. *)
Lemma string_len_ind (P : string → Prop) :
  (∀ s, (∀ t, (String.length t < String.length s)%nat → P t) → P s) → ∀ s, P s.
Proof.
  intros IH s. remember (String.length s) as n eqn:Hn. revert s Hn.
  induction n as [n IHn] using lt_wf_ind. intros s ->. apply IH. intros t Ht. by eapply IHn.
Qed.

Lemma split_lines_app d x : clean d = true → split_lines (d +:+ x) = split_lines d ++ split_lines x.
Proof.
  unfold clean. induction d as [d IH] using string_len_ind. intros Hd.
  destruct d as [|c d]; [done|]. cbn [String.eqb orb] in Hd.
  destruct d as [|e d]; [cbn in *; by rewrite Hd|].
  rewrite ends_nl_cons in Hd by done.
  assert (split_lines (String e d +:+ x) = split_lines (String e d) ++ split_lines x) as IH1.
  { apply IH; [simpl; lia|done]. }
  change (String c (String e d) +:+ x) with (String c (String e d +:+ x)).
  rewrite (split_lines_eq c (String e d)), (split_lines_eq c (String e d +:+ x)).
  destruct (ord c =? 10) eqn:E10; [by rewrite IH1|].
  destruct (ord c =? 13) eqn:E13.
  - change (String e d +:+ x) with (String e (d +:+ x)) in *. cbv beta iota.
    destruct (ord e =? 10) eqn:F10; [|by rewrite IH1].
    cbn [app]. f_equal. apply IH; [simpl; lia|].
    destruct d as [|f d]; [done|]. by rewrite ends_nl_cons in Hd.
  - rewrite IH1. destruct (split_lines (String e d)) eqn:E; [|done].
    by destruct (split_lines_nonempty (String e d)).
Qed.

Lemma split_lines_one p : str_all no_eol p = true → p ≠ EmptyString → split_lines p = [p].
Proof.
  induction p as [|c p IH]; [done|]. cbn [str_all]. rewrite andb_true_iff. intros [Hc Hp] _.
  unfold no_eol in Hc. rewrite andb_true_iff, !negb_true_iff in Hc. destruct Hc as [H10 H13].
  cbn [split_lines]. rewrite H10, H13. destruct p as [|d p]; [done|]. by rewrite IH.
Qed.
Lemma split_lines_line p rest :
  str_all no_eol p = true → split_lines (p +:+ newline +:+ rest) = (p +:+ newline) :: split_lines rest.
Proof.
  induction p as [|c p IH]; [done|]. cbn [str_all]. rewrite andb_true_iff. intros [Hc Hp].
  unfold no_eol in Hc. rewrite andb_true_iff, !negb_true_iff in Hc. destruct Hc as [H10 H13].
  cbn [String.append split_lines]. rewrite H10, H13, IH by done. done.
Qed.

Lemma total_cons l ls : total (l :: ls) = slen l + total ls.
Proof. done. Qed.
Lemma total_split_lines s : total (split_lines s) = slen s.
Proof.
  induction s as [s IH] using string_len_ind. destruct s as [|c s]; [done|].
  rewrite split_lines_eq, slen_cons.
  assert (total (split_lines s) = slen s) as IH1 by (apply IH; simpl; lia).
  destruct (ord c =? 10); [by rewrite total_cons, IH1|]. destruct (ord c =? 13).
  - destruct s as [|d s]; [done|]. destruct (ord d =? 10); [|by rewrite total_cons, IH1].
    rewrite total_cons, IH, slen_cons by (simpl; lia). unfold slen. simpl. lia.
  - rewrite <- IH1. destruct (split_lines s) as [|l ls]; [done|].
    rewrite !total_cons, slen_cons. lia.
Qed.

(** The last line, and what the missing newline does to it. *)
Lemma split_lines_last s : s ≠ EmptyString → ∃ ls l,
  split_lines s = ls ++ [l] ∧ l ≠ EmptyString ∧ ends_nl l = ends_nl s ∧
  (ends_nl s = false → split_lines (s +:+ newline) = ls ++ [l +:+ newline]).
Proof.
  induction s as [s IH] using string_len_ind. destruct s as [|c s]; [done|]. intros _.
  destruct s as [|d s].
  { exists [], (String c EmptyString). cbn.
    destruct (ord c =? 10) eqn:E10, (ord c =? 13); done. }
  rewrite ends_nl_cons by done.
  destruct (IH (String d s)) as (ls & l & Hs & Hl & He & Hn); [simpl; lia|done|].
  change (String c (String d s) +:+ newline) with (String c (String d s +:+ newline)).
  rewrite (split_lines_eq c (String d s)), (split_lines_eq c (String d s +:+ newline)). destruct (ord c =? 10) eqn:E10.
  { exists (String c EmptyString :: ls), l. rewrite Hs. repeat split; [done..|].
    intros H'. by rewrite Hn. }
  destruct (ord c =? 13) eqn:E13.
  - change (String d s +:+ newline) with (String d (s +:+ newline)) in *. cbv beta iota.
    destruct (ord d =? 10) eqn:F10.
    + destruct s as [|e s].
      { exists [], (String c (String d EmptyString)). cbn. by rewrite F10. }
      destruct (IH (String e s)) as (ls' & l' & Hs' & Hl' & He' & Hn'); [simpl; lia|done|].
      exists (String c (String d EmptyString) :: ls'), l'. rewrite Hs', ends_nl_cons by done.
      repeat split; [done..|]. intros H'. by rewrite Hn'.
    + exists (String c EmptyString :: ls), l. rewrite Hs. repeat split; [done..|].
      intros H'. by rewrite Hn.
  - rewrite Hs. destruct ls as [|l0 ls]; cbn [app].
    + exists [], (String c l). cbn [app]. rewrite ends_nl_cons by done.
      repeat split; [done..|]. intros H'. by rewrite Hn.
    + exists (String c l0 :: ls), l. repeat split; [done..|]. intros H'. by rewrite Hn.
Qed.

(** ** Replay of a file that grows *)

Section Replay.
Context `{LedgerEnv}.

(** One step of [replay_lines]. *)
Lemma replay_lines_cons es off l ls nn : replay_lines es off (l :: ls) nn =
  let terminated := ends_nl l in
  let payload := if terminated then drop_last l else l in
  if String.eqb payload EmptyString then refuse "ledger contains an empty record"
  else
    match parse_record payload, ls with
    | inr e, _ => replay_lines (set_entry e es) (off + slen l) ls (negb terminated)
    | inl (LedgerUnavailable _), [] =>
        if terminated then refuse "ledger contains a malformed non-quarantined line"
        else inr (es, Some (off, payload), false)
    | inl (LedgerUnavailable _), _ =>
        refuse "ledger contains a malformed non-quarantined line"
    | inl error, _ => inl error
    end.
Proof. done. Qed.

Lemma replay_lines_app es off ls nn es' nn' ls2 :
  replay_lines es off ls nn = inr (es', None, nn') →
  replay_lines es off (ls ++ ls2) nn = replay_lines es' (off + total ls) ls2 nn'.
Proof.
  revert es off nn. induction ls as [|l ls IH]; intros es off nn.
  { cbn. intros [= -> ->]. by rewrite Z.add_0_r. }
  cbn [app]. rewrite !replay_lines_cons, total_cons. cbn zeta.
  destruct (String.eqb _ _); [done|]. destruct (parse_record _) as [[]|e]; try done.
  - destruct ls; [by destruct (ends_nl l)|done].
  - intros Hr. rewrite (IH _ _ _ Hr). f_equal. lia.
Qed.

Lemma replay_lines_split es off ls nn ls2 es' t nn' :
  ls2 ≠ [] → replay_lines es off (ls ++ ls2) nn = inr (es', t, nn') →
  ∃ es1 nn1, replay_lines es off ls nn = inr (es1, None, nn1) ∧
    replay_lines es1 (off + total ls) ls2 nn1 = inr (es', t, nn').
Proof.
  intros Hne. revert es off nn. induction ls as [|l ls IH]; intros es off nn.
  { cbn [app]. intros Hr. exists es, nn. split; [done|]. cbn. by rewrite Z.add_0_r. }
  cbn [app]. rewrite !replay_lines_cons, total_cons. cbn zeta.
  destruct (String.eqb _ _); [done|]. destruct (parse_record _) as [[]|e]; try done.
  - destruct ls, ls2; done.
  - intros Hr. destruct (IH _ _ _ Hr) as (es1 & nn1 & H1 & H2). exists es1, nn1.
    split; [done|]. rewrite <- H2. f_equal. lia.
Qed.

(** What separates the next record from what is there. *)
Definition sep (nn : bool) : string := if nn then newline else EmptyString.

Lemma replay_clean d es nn : replay d = inr (es, None, nn) → nn = negb (clean d).
Proof.
  unfold replay. intros Hr. destruct (decide (d = EmptyString)) as [->|Hd].
  { cbn in Hr. injection Hr as _ <-. done. }
  destruct (split_lines_last d Hd) as (ls & l & Hs & Hl & He & _). rewrite Hs in Hr.
  apply replay_lines_split in Hr as (es1 & nn1 & _ & H2); [|done].
  rewrite replay_lines_cons in H2. cbn zeta in H2.
  destruct (String.eqb _ _); [done|]. unfold clean.
  rewrite (proj2 (String.eqb_neq d EmptyString) Hd). cbn [orb].
  destruct (parse_record _) as [[]|e]; try (by destruct (ends_nl l)).
  cbn in H2. congruence.
Qed.

Lemma replay_sep d es nn : replay d = inr (es, None, nn) →
  replay (d +:+ sep nn) = inr (es, None, false) ∧ clean (d +:+ sep nn) = true.
Proof.
  intros Hr. pose proof (replay_clean _ _ _ Hr) as Hc. destruct nn; cbn [sep].
  - split; [|apply clean_newline]. symmetry in Hc. apply negb_true_iff in Hc.
    unfold clean in Hc. apply orb_false_iff in Hc as [Hd He].
    apply String.eqb_neq in Hd.
    destruct (split_lines_last d Hd) as (ls & l & Hs & Hl & Hel & Hn).
    unfold replay in *. rewrite Hn by done. rewrite Hs in Hr.
    apply replay_lines_split in Hr as (es1 & nn1 & H1 & H2); [|done].
    rewrite (replay_lines_app _ _ _ _ _ _ _ H1).
    rewrite replay_lines_cons in H2 |- *. cbn zeta in *.
    rewrite Hel, He in H2. rewrite ends_nl_newline, drop_last_newline.
    destruct (String.eqb l EmptyString); [done|].
    destruct (parse_record l) as [[]|e]; try done. cbn in *. congruence.
  - rewrite str_app_nil_r. split; [done|]. symmetry in Hc. by apply negb_false_iff in Hc.
Qed.

(** A whole line, a record that lacks its newline, and a part of a record. *)
Lemma record_no_eol e t : stamp_ok t = true → str_all no_eol (record_text e t) = true.
Proof.
  intros Ht. apply (str_all_impl printable); [apply printable_no_eol|].
  apply render_printable, canon_floats.
  pose proof (record_json_ok e t Ht) as Hj. unfold json_ok in Hj.
  by apply andb_true_iff in Hj as [_ ?].
Qed.
Lemma record_nonempty e t : record_text e t ≠ EmptyString.
Proof. done. Qed.

Lemma replay_record d es e t :
  replay d = inr (es, None, false) → clean d = true → entry_ok e = true → stamp_ok t = true →
  replay (d +:+ record_text e t +:+ newline) = inr (set_entry e es, None, false) ∧
  replay (d +:+ record_text e t) = inr (set_entry e es, None, true).
Proof.
  intros Hr Hc He Ht. pose proof (record_no_eol e t Ht) as Hn. unfold replay in *.
  rewrite !(split_lines_app d), !(replay_lines_app _ _ _ _ _ _ _ Hr) by done.
  rewrite (split_lines_one (record_text e t)) by done.
  pose proof (split_lines_line (record_text e t) EmptyString Hn) as Hl.
  rewrite str_app_nil_r in Hl. rewrite Hl.
  rewrite !replay_lines_cons. cbn zeta.
  rewrite ends_nl_newline, drop_last_newline, (no_eol_ends (record_text e t)) by done.
  rewrite (proj2 (String.eqb_neq _ _) (record_nonempty e t)).
  by rewrite parse_record_text.
Qed.

Lemma parse_record_part e t p q :
  stamp_ok t = true → record_text e t = p +:+ q → q ≠ EmptyString →
  parse_record p = refuse "ledger record is malformed".
Proof.
  intros Ht Hpq Hq. pose proof (record_json_ok e t Ht) as Hj.
  assert (str_all plain_byte p = true) as Hp.
  { pose proof (plain_dumps _ Hj) as Hpl. unfold record_text in Hpq. rewrite Hpq in Hpl.
    rewrite str_all_app in Hpl. by apply andb_true_iff in Hpl as [? _]. }
  unfold parse_record, loads_bytes. rewrite Hp. unfold loads_unique.
  unfold json_ok in Hj. apply andb_true_iff in Hj as [_ Hf].
  unfold record_text, dumps, record_json in Hpq. cbn [canon] in Hpq.
  erewrite (parse_prefix true _ p q); [done| |exact Hpq|done].
  by apply (canon_floats (record_json e t)).
Qed.

(** A file with a fragment at its end that is no record. *)
Record torn_at (data d f : string) (es : list entry) : Prop := TornAt {
  torn_data : data = d +:+ f;
  torn_clean : clean d = true;
  torn_replay : replay d = inr (es, None, false);
  torn_nonempty : f ≠ EmptyString;
  torn_no_eol : str_all no_eol f = true;
  torn_refused : ∃ m, parse_record f = refuse m }.

Lemma replay_torn data d f es :
  torn_at data d f es → replay data = inr (es, Some (slen d, f), false).
Proof.
  intros [-> Hc Hr Hn He [m Hm]]. unfold replay in *.
  rewrite (split_lines_app d), 
    (replay_lines_app _ _ _ _ _ _ _ Hr), (split_lines_one f) by done.
  rewrite replay_lines_cons. cbn zeta. rewrite no_eol_ends by done.
  rewrite (proj2 (String.eqb_neq _ _) Hn), Hm. cbn. by rewrite total_split_lines.
Qed.

Lemma record_part_torn d es e t p q :
  replay d = inr (es, None, false) → clean d = true → stamp_ok t = true →
  record_text e t = p +:+ q → p ≠ EmptyString → q ≠ EmptyString →
  torn_at (d +:+ p) d p es.
Proof.
  intros Hr Hc Ht Hpq Hp Hq. split; [done..| |].
  - pose proof (record_no_eol e t Ht) as Hn. rewrite Hpq, str_all_app in Hn.
    by apply andb_true_iff in Hn as [? _].
  - eexists. by eapply parse_record_part.
Qed.
End Replay.

(** ** The quarantined fragment *)

Lemma str_take_zero s : str_take 0 s = EmptyString.
Proof. by destruct s. Qed.
Lemma str_take_app_le n a b :
  (n <= String.length a)%nat → str_take n (a +:+ b) = str_take n a.
Proof.
  revert n. induction a as [|c a IH]; intros n Hn.
  - assert (n = 0%nat) as -> by (simpl in Hn; lia). by rewrite !str_take_zero.
  - destruct n as [|n]; [by rewrite !str_take_zero|]. simpl in *. by rewrite IH by lia.
Qed.
Lemma str_drop_app_le n a b :
  (n <= String.length a)%nat → str_drop n (a +:+ b) = str_drop n a +:+ b.
Proof.
  revert n. induction a as [|c a IH]; intros n Hn.
  - by assert (n = 0%nat) as -> by (simpl in Hn; lia).
  - destruct n as [|n]; [done|]. simpl in *. by rewrite IH by lia.
Qed.
Lemma str_drop_length n s : String.length (str_drop n s) = (String.length s - n)%nat.
Proof. revert n. induction s; intros [|n]; simpl; try done. Qed.
Lemma str_drop_exact a n : n = String.length a → str_drop n a = EmptyString.
Proof. intros ->. pose proof (str_drop_app a EmptyString) as H. by rewrite str_app_nil_r in H. Qed.

Lemma slice_app a b s x : 0 <= a → b <= slen s → slice a b (s +:+ x) = slice a b s.
Proof.
  intros Ha Hb. unfold slice, slen in *. destruct (decide (a <= b)).
  - rewrite str_drop_app_le by lia. apply str_take_app_le. rewrite str_drop_length. lia.
  - replace (Z.to_nat (b - a)) with 0%nat by lia. by destruct (str_drop _ _), (str_drop _ _).
Qed.
Lemma slice_middle a b c :
  slice (slen a) (slen a + slen b) (a +:+ b +:+ c) = b.
Proof.
  unfold slice, slen. rewrite Nat2Z.id, str_drop_app.
  replace (Z.to_nat _) with (String.length b) by lia. apply str_take_app.
Qed.
Lemma slice_prefix a b : slice 0 (slen a) (a +:+ b) = a.
Proof.
  unfold slice, slen. replace (Z.to_nat _) with (String.length a) by lia. apply str_take_app.
Qed.

Section QuarantineFacts.
Context `{LedgerEnv}.

Lemma exclude_inr data q d : exclude_quarantine data q = inr d →
  quarantine_matches data q = true ∧ q_offset q + q_length q < slen data ∧
  (∃ m, parse_record (slice (q_offset q) (q_offset q + q_length q) data) = refuse m) ∧
  d = slice 0 (q_offset q) data +:+ str_drop (Z.to_nat (q_offset q + q_length q + 1)) data.
Proof.
  unfold exclude_quarantine. destruct (quarantine_matches data q) eqn:E; [|done]. cbn.
  destruct (parse_record _) as [[]|]; try done. intros [= <-]. repeat split; eauto.
  unfold quarantine_matches in E. destruct (Z.leb_spec (slen data) (q_offset q + q_length q)); [done|lia].
Qed.

(** What was cut out stays cut out when the file grows. *)
Lemma exclude_app data q d x :
  0 <= q_offset q → 0 < q_length q → exclude_quarantine data q = inr d →
  exclude_quarantine (data +:+ x) q = inr (d +:+ x).
Proof.
  intros Ho Hl He. destruct (exclude_inr _ _ _ He) as (Hm & Hlt & [m Hp] & ->).
  unfold exclude_quarantine. rewrite !(slice_app _ _ data) by lia. rewrite Hp.
  assert (quarantine_matches (data +:+ x) q = true) as ->.
  { unfold quarantine_matches in *. rewrite slen_app. pose proof (slen_nonneg x).
    destruct (Z.ltb_spec 0 (q_offset q)); cbn [andb] in *; rewrite !(slice_app _ _ data) by lia.
    all: destruct (Z.leb_spec (slen data) (q_offset q + q_length q)); [done|].
    all: destruct (Z.leb_spec (slen data + slen x) (q_offset q + q_length q)); [lia|done]. }
  cbn. rewrite str_drop_app_le by (unfold slen in *; lia). by rewrite str_app_assoc.
Qed.

Lemma clean_last d : clean d = true → d ≠ EmptyString →
  ∃ d', d = d' +:+ newline.
Proof.
  unfold clean. intros Hc Hd. rewrite (proj2 (String.eqb_neq _ _) Hd) in Hc. cbn in Hc.
  induction d as [|c d IH]; [done|]. destruct (decide (d = EmptyString)) as [->|Hd'].
  - exists EmptyString. cbn in *. apply Z.eqb_eq in Hc. rewrite <- (chr_ord c), Hc. done.
  - rewrite ends_nl_cons in Hc by done. destruct (IH Hc Hd') as [d' ->].
    by exists (String c d').
Qed.

(** The fragment a torn file was marked with, once its newline follows. *)
Lemma exclude_torn data d f es : torn_at data d f es →
  exclude_quarantine (data +:+ newline) (quarantine_of (slen d) f) = inr d.
Proof.
  intros [-> Hc Hr Hn He [m Hm]]. unfold exclude_quarantine.
  cbn [q_offset q_length quarantine_of]. rewrite str_app_assoc.
  assert (quarantine_matches (d +:+ f +:+ newline) (quarantine_of (slen d) f) = true) as ->.
  { unfold quarantine_matches. cbn [q_offset q_length q_sha256 quarantine_of].
    rewrite slice_middle, !slen_app, String.eqb_refl.
    destruct (Z.leb_spec (slen d + (slen f + slen newline)) (slen d + slen f));
      [unfold slen in *; simpl in *; lia|].
    assert (slice (slen d + slen f) (slen d + slen f + 1) (d +:+ f +:+ newline) = newline) as ->.
    { rewrite <- str_app_assoc, <- slen_app, <- (str_app_nil_r ((d +:+ f) +:+ newline)).
      rewrite str_app_assoc. exact (slice_middle (d +:+ f) newline EmptyString). }
    rewrite String.eqb_refl. cbn [negb andb].
    destruct (Z.ltb_spec 0 (slen d)); [|done]. cbn [andb].
    destruct (clean_last d) as [d' ->]; [done|by intros ->|].
    rewrite slen_app. change (slen newline) with 1.
    replace (slen d' + 1 - 1) with (slen d') by lia.
    assert (slice (slen d') (slen d' + 1) ((d' +:+ newline) +:+ f +:+ newline) = newline) as ->.
    { rewrite str_app_assoc. exact (slice_middle d' newline (f +:+ newline)). }
    by rewrite String.eqb_refl. }
  cbn. rewrite slice_middle, Hm, slice_prefix. cbn.
  rewrite <- str_app_assoc, str_drop_exact; [by rewrite str_app_nil_r|].
  rewrite !str_app_length. unfold slen. simpl. lia.
Qed.

(** Before its newline follows, the mark matches nothing. *)
Lemma exclude_unmarked data d f es : torn_at data d f es →
  exclude_quarantine data (quarantine_of (slen d) f) =
    refuse "quarantine sidecar does not match ledger evidence".
Proof.
  intros [-> _ _ _ _ _]. unfold exclude_quarantine, quarantine_matches.
  cbn [q_offset q_length quarantine_of]. rewrite slen_app.
  destruct (Z.leb_spec (slen d + slen f) (slen d + slen f)); [done|lia].
Qed.

(** A part of a sidecar is no sidecar. *)
Lemma quarantine_part q k : (k < String.length (quarantine_text q))%nat →
  parse_quarantine (str_take k (quarantine_text q)) = refuse "quarantine sidecar is malformed".
Proof.
  intros Hk. assert (json_ok (quarantine_json q) = true) as Hj by done.
  pose proof (str_take_drop k (quarantine_text q)) as Hpq.
  assert (str_drop k (quarantine_text q) ≠ EmptyString) as Hne.
  { intros E. apply (f_equal String.length) in E. rewrite str_drop_length in E. change (String.length EmptyString) with 0%nat in E. lia. }
  assert (str_all plain_byte (str_take k (quarantine_text q)) = true) as Hp.
  { pose proof (plain_dumps _ Hj) as Hpl. change (dumps true (quarantine_json q)) with (quarantine_text q) in Hpl.
    rewrite <- Hpq, str_all_app in Hpl. by apply andb_true_iff in Hpl as [? _]. }
  unfold parse_quarantine, loads_bytes. rewrite Hp. unfold loads_unique.
  erewrite (parse_prefix true _ _ (str_drop k (quarantine_text q))); [done| | |done].
  2: { rewrite Hpq. unfold quarantine_text, dumps. cbn [canon quarantine_json]. done. }
  by apply (canon_floats (quarantine_json q)).
Qed.
End QuarantineFacts.
