(* ===== verification/LedgerRuns.v ===== *)
(** * Running the operation ledger

    What the disk holds as evidence, when an object agrees with it, and what
    [open], [append], [begin] and [finish] make of both, with and without a
    fault. *)

From Stdlib Require Import Ascii.
From S2P Require Import Prelude PyText Json Ledger LedgerFacts.
Open Scope Z_scope.

(** ** Entries *)

Definition ids (es : list entry) : list string := map e_operation_id es.
Definition entries_wf (es : list entry) : Prop :=
  Forall (λ e, entry_ok e = true) es ∧ NoDup (ids es).

Lemma find_set_same e es : find_entry (e_operation_id e) (set_entry e es) = Some e.
Proof.
  induction es as [|e' es IH]; simpl; [by rewrite String.eqb_refl|].
  destruct (String.eqb_spec (e_operation_id e') (e_operation_id e)); simpl.
  - by rewrite String.eqb_refl.
  - by rewrite (proj2 (String.eqb_neq _ _) n).
Qed.
Lemma find_set_other e es id :
  e_operation_id e ≠ id → find_entry id (set_entry e es) = find_entry id es.
Proof.
  intros Hne. induction es as [|e' es IH]; simpl.
  - by rewrite (proj2 (String.eqb_neq _ _) Hne).
  - destruct (String.eqb_spec (e_operation_id e') (e_operation_id e)) as [He|]; simpl.
    + rewrite He. by rewrite (proj2 (String.eqb_neq _ _) Hne).
    + by rewrite IH.
Qed.
Lemma find_entry_elem id es e : find_entry id es = Some e → e ∈ es ∧ e_operation_id e = id.
Proof.
  induction es as [|e' es IH]; simpl; [done|].
  destruct (String.eqb_spec (e_operation_id e') id) as [He|].
  - intros [= ->]. split; [left|done].
  - intros Hf. destruct (IH Hf). split; [by right|done].
Qed.
Lemma find_entry_none id es : find_entry id es = None ↔ id ∉ ids es.
Proof.
  induction es as [|e es IH]; simpl; [set_solver|]. rewrite not_elem_of_cons.
  destruct (String.eqb_spec (e_operation_id e) id) as [<-|]; naive_solver.
Qed.
Lemma ids_set_entry e es :
  ids (set_entry e es) = if bool_decide (e_operation_id e ∈ ids es) then ids es
                         else ids es ++ [e_operation_id e].
Proof.
  induction es as [|e' es IH]; simpl; [done|].
  destruct (String.eqb_spec (e_operation_id e') (e_operation_id e)) as [He|Hne]; simpl.
  - rewrite bool_decide_true by (rewrite He; left). by rewrite He.
  - rewrite IH. destruct (decide (e_operation_id e ∈ ids es)) as [Hin|Hin].
    + by rewrite !bool_decide_true by (done || by right).
    + rewrite !bool_decide_false; [done| |done]. rewrite not_elem_of_cons. naive_solver.
Qed.
Lemma set_entry_forall (P : entry → Prop) e es : P e → Forall P es → Forall P (set_entry e es).
Proof.
  intros He. induction 1 as [|e' es He' Hes IH]; simpl; [by constructor|].
  by case_match; constructor.
Qed.
Lemma set_entry_wf e es : entry_ok e = true → entries_wf es → entries_wf (set_entry e es).
Proof.
  intros He [Hok Hnd]. split; [by apply set_entry_forall|]. rewrite ids_set_entry.
  case_bool_decide; [done|]. apply NoDup_app. split_and!; [done| |apply NoDup_singleton].
  intros x Hx ->%list_elem_of_singleton. done.
Qed.
Lemma set_entry_middle e e' pre post :
  e_operation_id e' = e_operation_id e → e_operation_id e ∉ ids pre →
  set_entry e' (pre ++ e :: post) = pre ++ e' :: post.
Proof.
  intros He. induction pre as [|p pre IH]; simpl; rewrite He.
  - by rewrite String.eqb_refl.
  - rewrite not_elem_of_cons. intros [Hne Hin].
    destruct (String.eqb_spec (e_operation_id p) (e_operation_id e)); [congruence|].
    by rewrite IH.
Qed.

(** What reopening makes of the entries: nothing stays in progress. *)
Definition settle_entry (e : entry) : entry :=
  if bool_decide (e_phase e = in_progress) then uncertain_entry e else e.
Definition settle (es : list entry) : list entry := map settle_entry es.

Lemma settle_unsettled pre es : NoDup (ids (pre ++ es)) →
  fold_left (λ es e, set_entry (uncertain_entry e) es) (unsettled es) (pre ++ es)
  = pre ++ settle es.
Proof.
  revert pre. induction es as [|e es IH]; intros pre Hnd; simpl; [done|].
  assert (e_operation_id e ∉ ids pre) as Hin.
  { unfold ids in Hnd. rewrite map_app in Hnd. apply NoDup_app in Hnd as (_ & Hd & _).
    intros Hx. apply (Hd _ Hx). left. }
  assert (∀ e', e_operation_id e' = e_operation_id e → NoDup (ids ((pre ++ [e']) ++ es))) as Hnd'.
  { intros e' He'. rewrite <- app_assoc. unfold ids in *. rewrite map_app in *. simpl in *.
    by rewrite He'. }
  assert (∀ x, pre ++ x :: es = (pre ++ [x]) ++ es) as Hm by (intros; by rewrite <- app_assoc).
  assert (∀ x l, (pre ++ [x]) ++ l = pre ++ x :: l) as Hm' by (intros; by rewrite <- app_assoc).
  unfold settle_entry. case_bool_decide; simpl.
  - rewrite set_entry_middle by done. rewrite Hm, IH by (by apply Hnd'). apply Hm'.
  - rewrite Hm, IH by (by apply Hnd'). apply Hm'.
Qed.

Section Evidence.
Context `{LedgerEnv}.

Lemma read_result_inr p v r : read_result p v = inr r →
  match r with Some d => finished p && is_sha256 d | None => finishable p end = true.
Proof.
  unfold read_result, finishable. destruct (finished p); intros Hr.
  - res_go. by subst.
  - destruct v; try done. by injection Hr as <-.
Qed.
Lemma parse_record_ok payload e : parse_record payload = inr e → entry_ok e = true.
Proof.
  unfold parse_record. intros He. res_go. subst e. unfold entry_ok. cbn [e_operation_id e_kind
    e_request_digest e_result_digest e_phase].
  rewrite !andb_true_iff. split_and!; try done. by eapply read_result_inr.
Qed.

Lemma replay_lines_wf es off ls nn es' t nn' :
  replay_lines es off ls nn = inr (es', t, nn') → entries_wf es → entries_wf es'.
Proof.
  revert es off nn. induction ls as [|l ls IH]; intros es off nn.
  { cbn. by intros [= -> _ _]. }
  rewrite replay_lines_cons. cbn zeta. destruct (String.eqb _ _); [done|].
  destruct (parse_record _) as [[]|e] eqn:E; try done.
  - destruct ls; [|done]. destruct (ends_nl l); [done|]. by intros [= -> _ _].
  - intros Hr Hwf. eapply IH; [exact Hr|]. apply set_entry_wf; [by eapply parse_record_ok|done].
Qed.
Lemma replay_wf d es t nn : replay d = inr (es, t, nn) → entries_wf es.
Proof. intros Hr. eapply replay_lines_wf; [exact Hr|]. split; constructor. Qed.

Lemma load_quarantine_range d q :
  load_quarantine d = inr (Some q) → 0 <= q_offset q ∧ 0 < q_length q.
Proof.
  unfold load_quarantine. destruct (d_sidecar d) as [f|]; [|done].
  unfold check. destruct (private f); [|done]. cbn.
  intros Hq. res_go. subst. unfold parse_quarantine in *. res_go. subst. simpl.
  unfold range_of in *. repeat case_match; try done. res_go. subst.
  rewrite andb_true_iff in *. simpl. lia.
Qed.

(** Evidence that was read stays read when the file grows: only the added text
    counts. *)
Lemma load_evidence_grows d q r : load_evidence d = inr (q, r) →
  ∃ data, replay data = inr r ∧ (q = None → data = ledger_data d) ∧
    ∀ x, is_Some (d_ledger d) →
      load_evidence (append_ledger x d) = (r' ← replay (data +:+ x); inr (q, r')).
Proof.
  unfold load_evidence. destruct (load_quarantine d) as [|oq] eqn:Eq; [done|]. cbn.
  intros Hl. assert (∃ data, (match oq with Some q => exclude_quarantine (ledger_data d) q
      | None => inr (ledger_data d) end) = inr data ∧ replay data = inr r ∧ oq = q) as (data & Hd & Hr & ->).
  { destruct oq as [q0|]; cbn in Hl.
    - destruct (exclude_quarantine _ _) as [|data]; [done|]. cbn in Hl.
      destruct (replay data) eqn:E; [done|]. cbn in Hl. injection Hl as -> ->. eauto.
    - destruct (replay (ledger_data d)) eqn:E; [done|]. cbn in Hl. injection Hl as <- ->. eauto. }
  exists data. split; [done|]. split; [intros ->; by injection Hd as ->|]. intros x [f Hf].
  assert (load_quarantine (append_ledger x d) = inr q) as -> by done. cbn.
  assert (ledger_data (append_ledger x d) = ledger_data d +:+ x) as ->.
  { unfold ledger_data, append_ledger. cbn. by rewrite Hf. }
  destruct q as [q|].
  - destruct (load_quarantine_range _ _ Eq). by rewrite (exclude_app _ _ data) by done.
  - by injection Hd as ->.
Qed.
End Evidence.

(** ** An object and its disk *)

Section Runs.
Context `{LedgerEnv}.

(** The state directory and the lock file are this user's. *)
Definition dir_ready (d : disk) : bool :=
  match d_path d with
  | path_names n => dir_is_dir n && (dir_owner n =? euid)
  | path_absent _ _ => false
  end && match d_lock d with Some f => lockable f | None => true end.
Definition file_ready (d : disk) : bool :=
  match d_ledger d with Some f => private f | None => false end.
Definition marked (q : option quarantine) : bool :=
  match q with Some _ => true | None => false end.

(** What the disk proves: these entries, with or without a marked fragment. *)
Record evidence (d : disk) (es : list entry) (quarantined nn : bool) : Prop := Evidence {
  ev_dir : dir_ready d = true;
  ev_file : file_ready d = true;
  ev_load : ∃ q, load_evidence d = inr (q, (es, None, nn)) ∧ quarantined = marked q }.

(** The object in the process is open, alone, and says what the disk proves. *)
Record agrees (w : lworld) (g : ledger) : Prop := Agrees {
  ag_object : w_object w = Some g;
  ag_open : l_closed g = false;
  ag_locked : w_locked w = true;
  ag_fault : w_fault w = no_fault;
  ag_evidence : evidence (w_disk w) (l_entries g) (l_quarantined g) (l_needs_newline g) }.

Lemma file_ready_some d : file_ready d = true → is_Some (d_ledger d).
Proof. unfold file_ready. destruct (d_ledger d); [eauto|done]. Qed.
Lemma file_ready_append x d : file_ready (append_ledger x d) = file_ready d.
Proof. unfold file_ready, append_ledger. cbn. by destruct (d_ledger d). Qed.
Lemma evidence_wf d es q nn : evidence d es q nn → entries_wf es.
Proof.
  intros [_ _ (oq & Hl & _)]. destruct (load_evidence_grows _ _ _ Hl) as (data & Hr & _ & _).
  by eapply replay_wf.
Qed.

(** The record of an entry, appended whole. *)
Lemma evidence_append d es q nn e t :
  evidence d es q nn → entry_ok e = true → stamp_ok t = true →
  evidence (append_ledger (append_line nn (record_text e t)) d) (set_entry e es) q false.
Proof.
  intros [Hd Hf (oq & Hl & Hq)] He Ht.
  destruct (load_evidence_grows _ _ _ Hl) as (data & Hr & Hdata & Hx).
  split; [done|by rewrite file_ready_append|]. exists oq. split; [|done].
  rewrite Hx by (by apply file_ready_some). destruct (replay_sep _ _ _ Hr) as [Hr' Hc].
  unfold append_line. fold (sep nn). rewrite <- str_app_assoc.
  by rewrite (proj1 (replay_record _ _ e t Hr' Hc He Ht)).
Qed.

(** [append] with nothing failing. *)
Definition appended (e : entry) (g : ledger) (w : lworld) : lworld :=
  let line := append_line (l_needs_newline g) (record_text e (monotonic (w_clock w))) in
  set_object (Some (with_entry e g)) (on_disk (append_ledger line) (tick w)).
Lemma append_no_fault e g w :
  w_object w = Some g → w_fault w = no_fault → append e w = Ok tt (appended e g w).
Proof.
  intros Ho Hf. unfold append, the_object, append_bytes, os_guard, write_all, fsync.
  unfold mbind, M_bind, gets, from_option, modify, mret, M_ret. rewrite Ho. cbn.
  rewrite Hf. cbn. by rewrite Hf.
Qed.
Lemma append_agrees e g w : agrees w g → entry_ok e = true →
  append e w = Ok tt (appended e g w) ∧ agrees (appended e g w) (with_entry e g).
Proof.
  intros [Ho Hop Hl Hf He] Hok. split; [by apply append_no_fault|].
  split; try done. cbn [with_entry l_entries l_quarantined l_needs_newline].
  apply evidence_append; [done..|apply monotonic_stamp].
Qed.

(** [append] while bytes run out: the line is cut where the fault strikes. *)
Definition cut (e : entry) (k : nat) (g : ledger) (w : lworld) : lworld :=
  let line := append_line (l_needs_newline g) (record_text e (monotonic (w_clock w))) in
  set_fault no_fault (on_disk (append_ledger (str_take k line)) (tick w)).
Lemma str_take_all k s : (String.length s <= k)%nat → str_take k s = s.
Proof.
  revert k. induction s as [|c s IH]; intros [|k]; simpl; try done; [lia|].
  intros. by rewrite IH by lia.
Qed.
Lemma append_fault e g w k : w_object w = Some g → w_fault w = no_fault →
  let line := append_line (l_needs_newline g) (record_text e (monotonic (w_clock w))) in
  append e (set_fault (crash_after k) w) =
    (if (String.length line <? k)%nat
     then Ok tt (set_fault (crash_after (k - String.length line - 1)) (appended e g w))
     else Err LCrash (cut e k g w)) ∧
  append e (set_fault (error_after k) w) =
    (if (String.length line <? k)%nat
     then Ok tt (set_fault (error_after (k - String.length line - 1)) (appended e g w))
     else Err (LedgerUnavailable "ledger append failed") (cut e k g w)).
Proof.
  intros Ho Hf line.
  unfold append, the_object, append_bytes, os_guard, write_all, fsync, cut, appended.
  unfold mbind, M_bind, gets, from_option, modify, mret, M_ret.
  cbn [w_object set_fault w_clock tick w_fault on_disk]. rewrite Ho.
  cbn [w_object set_fault w_clock tick w_fault on_disk].
  fold line. clearbody line.
  destruct (Nat.ltb_spec (String.length line) k) as [Hlt|Hge].
  - rewrite (proj2 (Nat.leb_le _ _)) by lia. cbn [w_fault set_fault].
    destruct (k - String.length line)%nat as [|m] eqn:Em; [lia|].
    rewrite Nat.sub_succ, Nat.sub_0_r. done.
  - destruct (Nat.leb_spec (String.length line) k) as [Hle|Hgt]; [|done].
    cbn [w_fault set_fault]. replace (k - String.length line)%nat with 0%nat by lia.
    by rewrite str_take_all by lia.
Qed.

(** Where a line can be cut. *)
Lemma str_take_app_ge n a b :
  (String.length a <= n)%nat → str_take n (a +:+ b) = a +:+ str_take (n - String.length a) b.
Proof.
  revert n. induction a as [|c a IH]; intros n Hn; simpl in *; [by rewrite Nat.sub_0_r|].
  destruct n as [|n]; [lia|]. simpl. by rewrite IH by lia.
Qed.
Lemma cut_line nn r k : r ≠ EmptyString →
  let p := str_take k (append_line nn r) in
  p = EmptyString ∨ p = sep nn ∨ p = sep nn +:+ r ∨ p = sep nn +:+ r +:+ newline ∨
  ∃ a b, r = a +:+ b ∧ a ≠ EmptyString ∧ b ≠ EmptyString ∧ p = sep nn +:+ a.
Proof.
  intros Hr. cbn zeta. unfold append_line. fold (sep nn).
  destruct (decide (k < String.length (sep nn))%nat) as [Hk|Hk].
  { left. destruct nn; simpl in Hk; [|lia]. assert (k = 0%nat) as -> by lia. apply str_take_zero. }
  rewrite str_take_app_ge by lia. set (m := (k - String.length (sep nn))%nat).
  destruct (decide (m <= String.length r)%nat) as [Hm|Hm].
  - rewrite str_take_app_le by done. destruct (decide (m = String.length r)) as [->|].
    { rewrite str_take_all by lia. auto. }
    destruct (decide (m = 0%nat)) as [->|].
    { rewrite str_take_zero, str_app_nil_r. auto. }
    do 4 right. exists (str_take m r), (str_drop m r). rewrite str_take_drop.
    split_and!; [done| | |done].
    + destruct m; [done|]. by destruct r.
    + intros E. apply (f_equal String.length) in E. rewrite str_drop_length in E.
      change (String.length EmptyString) with 0%nat in E. lia.
  - rewrite str_take_app_ge by lia. rewrite (str_take_all _ newline) by (simpl; lia). auto.
Qed.

(** What a crash leaves: the evidence from before, the evidence with the new
    entry, or the evidence from before with a torn fragment at the end. *)
Inductive leftover (d : disk) (es : list entry) (q : bool) : Prop :=
| left_whole nn : evidence d es q nn → leftover d es q
| left_torn oq o f : dir_ready d = true → file_ready d = true → q = marked oq →
    load_evidence d = inr (oq, (es, Some (o, f), false)) →
    (oq = None → ∃ D, o = slen D ∧ torn_at (ledger_data d) D f es) → leftover d es q.

Lemma cut_leftover d es q nn e t k : evidence d es q nn → entry_ok e = true → stamp_ok t = true →
  let d' := append_ledger (str_take k (append_line nn (record_text e t))) d in
  leftover d' es q ∨ leftover d' (set_entry e es) q.
Proof.
  intros [Hd Hf (oq & Hl & Hq)] He Ht d'.
  destruct (load_evidence_grows _ _ _ Hl) as (data & Hr & Hdata & Hx).
  specialize (λ x, Hx x (file_ready_some _ Hf)). destruct (replay_sep _ _ _ Hr) as [Hr' Hc].
  destruct (replay_record _ _ e t Hr' Hc He Ht) as [Hline Hbare].
  rewrite str_app_assoc in Hline, Hbare.
  assert (∀ x es' nn', replay (data +:+ x) = inr (es', None, nn') →
    leftover (append_ledger x d) es' q) as Hwhole.
  { intros x es' nn' Hrx. apply (left_whole _ _ _ nn'). split; [done|by rewrite file_ready_append|].
    exists oq. by rewrite Hx, Hrx. }
  unfold d'. destruct (cut_line nn (record_text e t) k (record_nonempty e t))
    as [-> | [-> | [-> | [-> | (a & b & Hab & Ha & Hb & ->)]]]].
  - left. apply (Hwhole _ _ nn). by rewrite str_app_nil_r.
  - left. by eapply Hwhole.
  - right. by eapply Hwhole.
  - right. by eapply Hwhole.
  - left. pose proof (record_part_torn _ _ _ _ a b Hr' Hc Ht Hab Ha Hb) as Htorn.
    apply (left_torn _ _ _ oq (slen (data +:+ sep nn)) a);
      [done|by rewrite file_ready_append|done| |].
    + rewrite Hx, <- str_app_assoc. by rewrite (replay_torn _ _ _ _ Htorn).
    + intros ->. exists (data +:+ sep nn). split; [done|].
      assert (ledger_data (append_ledger (sep nn +:+ a) d) = (data +:+ sep nn) +:+ a) as ->; [|done].
      rewrite Hdata by done. rewrite str_app_assoc. unfold ledger_data, append_ledger. cbn.
      destruct (file_ready_some _ Hf) as [file ->]. done.
Qed.

(** ** Opening *)

Definition locked_disk (d : disk) : disk :=
  set_lock (Some (match d_lock d with Some f => chmod_private f | None => new_file end)) d.

Lemma locked_ready d : dir_ready d = true → dir_ready (locked_disk d) = true.
Proof.
  unfold dir_ready, locked_disk. cbn. rewrite !andb_true_iff. intros [Hp Hl]. split; [done|].
  destruct (d_lock d) as [f|]; unfold lockable in *; cbn.
  - rewrite !andb_true_iff in *. destruct Hl as [[[-> ->] ->] _]. cbn. by rewrite orb_true_r.
  - by rewrite Z.eqb_refl, orb_true_r.
Qed.
Lemma evidence_locked d es q nn : evidence d es q nn → evidence (locked_disk d) es q nn.
Proof. intros [Hd Hf Hl]. split; [by apply locked_ready|done|done]. Qed.

(** Up to the lock, where nothing fails and nobody holds it. *)
Definition after_lock (w : lworld) : lworld :=
  set_locked true (on_disk (λ _, locked_disk (w_disk w)) w).
Lemma open_locks w : dir_ready (w_disk w) = true → w_locked w = false →
  w_fault w = no_fault ∨ is_Some (d_lock (w_disk w)) →
  ∃ n, d_path (w_disk w) = path_names n ∧ dir_is_dir n && (dir_owner n =? euid) = true ∧
    open w = releasing (open_body n) (after_lock w).
Proof.
  unfold dir_ready. rewrite andb_true_iff. intros [Hp Hl] Hw Hf.
  destruct (d_path (w_disk w)) as [|n] eqn:Ep; [done|]. exists n. split; [done|].
  apply andb_true_iff in Hp as [Hdir Hown]. rewrite Hdir, Hown. split; [done|].
  unfold open, prepare_state_dir, verify_directory_binding, open_lock, after_lock, locked_disk.
  destruct w as [d o l f c]. cbn in *. subst l.
  unfold mbind, M_bind, gets, ensure, modify, mret, M_ret. cbn. rewrite Ep. cbn. rewrite Ep. cbn.
  rewrite Hdir, Hown. cbn. rewrite Ep, Hdir, Hown, Z.eqb_refl. cbn.
  destruct (d_lock d) as [lf|] eqn:El; [by rewrite Hl|].
  destruct Hf as [-> | [? ?]]; [|done]. done.
Qed.

Lemma open_body_loads n w q r :
  file_ready (w_disk w) = true → load_evidence (w_disk w) = inr (q, r) →
  open_body n w = open_object n q r w.
Proof.
  unfold file_ready. intros Hf Hl. unfold open_body, open_ledger.
  unfold mbind, M_bind, gets, ensure, mret, M_ret. cbn.
  destruct (d_ledger (w_disk w)) as [f|]; [|done]. rewrite Hf. cbn. by rewrite Hl.
Qed.

Lemma uncertain_ok e : entry_ok e = true → entry_ok (uncertain_entry e) = true.
Proof. unfold entry_ok. simpl. rewrite !andb_true_iff. naive_solver. Qed.

Lemma settle_appends l w g : agrees w g → Forall (λ e, entry_ok e = true) l →
  ∃ us w' g', map_m (λ e, append (uncertain_entry e)) l w = Ok us w' ∧ agrees w' g' ∧
    l_entries g' = fold_left (λ es e, set_entry (uncertain_entry e) es) l (l_entries g) ∧
    l_quarantined g' = l_quarantined g.
Proof.
  intros Ha Hl. revert w g Ha. induction Hl as [|e l He Hl IH]; intros w g Ha.
  { by exists [], w, g. }
  destruct (append_agrees _ _ _ Ha (uncertain_ok _ He)) as [Hap Ha'].
  destruct (IH _ _ Ha') as (us & w' & g' & Hm & Hg & He' & Hq).
  exists (tt :: us), w', g'. split; [|done]. cbn [map_m].
  rewrite (bind_run _ _ _ _ _ Hap). by rewrite (bind_run _ _ _ _ _ Hm).
Qed.

(** The object is made and what was in progress becomes uncertain. *)
Lemma open_object_agrees n w q es nn torn qd nn' w1 :
  d_path (w_disk w1) = path_names n → dir_is_dir n && (dir_owner n =? euid) = true →
  w_locked w1 = true → w_fault w1 = no_fault →
  quarantine_torn q torn nn w = Ok (qd, nn') w1 →
  evidence (w_disk w1) es qd nn' →
  ∃ w' g', open_object n q (es, torn, nn) w = Ok tt w' ∧ agrees w' g' ∧
    l_entries g' = settle es ∧ l_quarantined g' = qd.
Proof.
  intros Hp Hn Hl Hf Hq Hev. set (g := Ledger es qd nn' false).
  assert (agrees (set_object (Some g) w1) g) as Ha by done.
  destruct (evidence_wf _ _ _ _ Hev) as [Hok Hnd].
  destruct (settle_appends (unsettled es) _ _ Ha) as (us & w' & g' & Hm & Hg & He & Hqd).
  { apply Forall_forall. intros e Hin. apply list_elem_of_In, filter_In in Hin as [Hin _].
    rewrite Forall_forall in Hok. apply Hok. by apply list_elem_of_In. }
  exists w', g'. split; [|split; [done|split; [|done]]].
  - unfold open_object. rewrite (bind_run _ _ _ _ _ Hq).
    unfold verify_directory_binding, mbind at 1, M_bind at 1. cbn [modify].
    unfold mbind at 1, M_bind at 1, mbind at 1, M_bind at 1. cbn [gets]. unfold gets.
    cbn [w_disk set_object]. rewrite Hp. apply andb_true_iff in Hn as [-> ->].
    rewrite Z.eqb_refl. cbn [andb ensure]. unfold mret at 1, M_ret at 1.
    by rewrite (bind_run _ _ _ _ _ Hm).
  - rewrite He. apply (settle_unsettled []). done.
Qed.

(** A torn fragment is marked, cut off, and the evidence is whole again. *)
Definition marked_disk (o : Z) (f : string) (d : disk) : disk :=
  append_ledger newline
    (append_sidecar (quarantine_text (quarantine_of o f) +:+ newline)
       (set_sidecar (Some new_file) d)).
Lemma quarantine_torn_ok w o f nn : w_fault w = no_fault → d_sidecar (w_disk w) = None →
  quarantine_torn None (Some (o, f)) nn w = Ok (true, false) (on_disk (marked_disk o f) w).
Proof.
  destruct w as [d ob l f0 c]. cbn [w_fault w_disk]. intros -> Hs.
  unfold quarantine_torn, write_quarantine, append_bytes, fsync_directory, os_guard.
  unfold mbind, M_bind, gets, ensure, modify, mret, M_ret, write_all, fsync.
  cbn [w_disk]. by rewrite Hs.
Qed.
Lemma no_sidecar d r : load_evidence d = inr (None, r) → d_sidecar d = None.
Proof.
  unfold load_evidence, load_quarantine. destruct (d_sidecar d) as [f|]; [|done].
  intros Hl. res_go. subst. congruence.
Qed.
Lemma marked_evidence d D f es :
  dir_ready d = true → file_ready d = true → torn_at (ledger_data d) D f es →
  evidence (marked_disk (slen D) f d) es true false.
Proof.
  intros Hd Hf Ht. split; [done|unfold marked_disk; by rewrite file_ready_append|].
  exists (Some (quarantine_of (slen D) f)). split; [|done].
  unfold load_evidence.
  assert (load_quarantine (marked_disk (slen D) f d) = inr (Some (quarantine_of (slen D) f))) as ->.
  { unfold load_quarantine, marked_disk. cbn [d_sidecar append_ledger set_ledger_file
      append_sidecar set_sidecar fmap option_fmap option_map].
    assert (private (append_data (quarantine_text (quarantine_of (slen D) f) +:+ newline) new_file) = true) as ->.
    { unfold private. cbn. by rewrite Z.eqb_refl. }
    cbn [check mbind res_bind]. cbn [f_data append_data new_file String.append].
    rewrite parse_quarantine_text; [done| | | |by right].
    - apply slen_nonneg.
    - pose proof (torn_nonempty _ _ _ _ Ht) as Hne. destruct f as [|c f]; [done|].
      cbn [q_length quarantine_of]. rewrite slen_cons. pose proof (slen_nonneg f). lia.
    - apply file_sha256_hex. }
  cbn [mbind res_bind].
  assert (ledger_data (marked_disk (slen D) f d) = ledger_data d +:+ newline) as ->.
  { unfold ledger_data, marked_disk, file_ready in *. cbn. by destruct (d_ledger d). }
  rewrite (exclude_torn _ _ _ _ Ht). cbn [mbind res_bind].
  by rewrite (torn_replay _ _ _ _ Ht).
Qed.

(** Opening whole evidence, and what a crash left. *)
Lemma open_whole w es q nn :
  evidence (w_disk w) es q nn → w_locked w = false → w_fault w = no_fault →
  ∃ w' g', open w = Ok tt w' ∧ agrees w' g' ∧ l_entries g' = settle es ∧ l_quarantined g' = q.
Proof.
  intros Hev Hw Hf.
  destruct (open_locks w (ev_dir _ _ _ _ Hev) Hw (or_introl Hf)) as (n & Hp & Hn & ->).
  pose proof (evidence_locked _ _ _ _ Hev) as Hev'.
  destruct (ev_load _ _ _ _ Hev') as (oq & Hl & Hq).
  destruct (open_object_agrees n (after_lock w) oq es nn None q nn (after_lock w))
    as (w' & g' & Hop & Ha & He & Hg); [done..|by destruct oq; subst|done|].
  exists w', g'. split_and!; [|done..].
  unfold releasing. by rewrite (open_body_loads n (after_lock w) _ _ (ev_file _ _ _ _ Hev') Hl), Hop.
Qed.

Definition second_torn : lexn := LedgerUnavailable "ledger contains a second torn fragment".
Lemma open_leftover w es q :
  leftover (w_disk w) es q → w_locked w = false → w_fault w = no_fault →
  (∃ w' g', open w = Ok tt w' ∧ agrees w' g' ∧ l_entries g' = settle es ∧
     (q = true → l_quarantined g' = true)) ∨
  (q = true ∧ ∃ w', open w = Err second_torn w').
Proof.
  intros Hlo Hw Hf. destruct Hlo as [nn Hev | oq o f Hd Hfile Hq Hl Ht].
  - left. destruct (open_whole _ _ _ _ Hev Hw Hf) as (w' & g' & Hop & Ha & He & Hg).
    exists w', g'. split_and!; [done..|by intros ->].
  - destruct (open_locks w Hd Hw (or_introl Hf)) as (n & Hp & Hn & Hopen).
    assert (open_body n (after_lock w) = open_object n oq (es, Some (o, f), false) (after_lock w)) as Hb
      by (by apply open_body_loads).
    destruct oq as [q0|].
    + right. split; [done|]. exists (set_object None (set_locked false (after_lock w))).
      rewrite Hopen. unfold releasing. by rewrite Hb.
    + left. destruct (Ht eq_refl) as (D & -> & Htorn).
      pose proof (no_sidecar _ _ Hl) as Hs.
      destruct (open_object_agrees n (after_lock w) None es false (Some (slen D, f)) true false
        (on_disk (marked_disk (slen D) f) (after_lock w)))
        as (w' & g' & Hop & Ha & He & Hg); [done..| | |].
      * by apply quarantine_torn_ok.
      * apply marked_evidence; [by apply locked_ready|done|done].
      * exists w', g'. split_and!; [|done..]. rewrite Hopen. unfold releasing. by rewrite Hb, Hop.
Qed.
End Runs.
