(* ===== verification/LedgerTheorems.v ===== *)
(** * What the operation ledger promises

    The abstract ledger is a map from operation identifiers to entries.  The
    theorems state that the file, the sidecar and the object implement it, that
    it survives a crash at any byte, and where the recovery itself fails. *)

From S2P Require Import Prelude PyText Json Ledger LedgerFacts LedgerRuns.
Open Scope Z_scope.

(** ** Calls, their answers and the abstract ledger *)

Inductive call :=
| Begin (operation_id kind request_digest : string)
| Finish (operation_id outcome result_digest : string)
| Status (operation_id : string).
Definition call_id (c : call) : string :=
  match c with Begin id _ _ | Finish id _ _ | Status id => id end.

Inductive answer :=
| Said (text : string) | Done | State (st : operation_status) | Refused (error : lexn).

Section Calls.
Context `{LedgerEnv}.

Definition run_call (c : call) : L answer :=
  match c with
  | Begin id kind request => s ← begin id kind request; mret (Said s)
  | Finish id outcome result => finish id outcome result;; mret Done
  | Status id => st ← status id; mret (State st)
  end.
Definition reply (o : outcome lworld lexn answer) : answer :=
  match o with Ok a _ => a | Err e _ => Refused e end.

(** A client's session: calls, and restarts that close and reopen the ledger. *)
Inductive event := Call (c : call) | Restart.
Definition run_event (e : event) : L answer :=
  match e with Call c => run_call c | Restart => close;; open;; mret Done end.
Fixpoint run_events (es : list event) (w : lworld) : list answer * lworld :=
  match es with
  | [] => ([], w)
  | e :: es' =>
      let o := run_event e w in
      let '(answers, w') := run_events es' (end_world o) in (reply o :: answers, w')
  end.
End Calls.

(** What a call answers when the identifier has this entry, and the entry it
    leaves, if it leaves a new one. *)
Definition conflict (message : string) : answer * option entry :=
  (Refused (OperationConflict message), None).
Definition plan (c : call) (existing : option entry) : answer * option entry :=
  match c with
  | Begin id kind request =>
      if negb (operation_id_ok id) then conflict "operation identifier is invalid"
      else if negb (kind_ok kind) then conflict "operation kind is invalid"
      else if negb (is_sha256 request) then conflict "operation request digest is invalid"
      else match existing with
           | None => (Said "accepted", Some (Entry id kind in_progress request None))
           | Some e =>
               if String.eqb (e_request_digest e) request then (Said "duplicate", None)
               else conflict "operation identifier has a different request digest"
           end
  | Finish id outcome result =>
      match parse_outcome outcome with
      | None => conflict "operation outcome is invalid"
      | Some phase =>
          if negb (is_sha256 result) then conflict "operation result digest is invalid"
          else match existing with
               | Some e =>
                   if finishable (e_phase e)
                   then (Done, Some (Entry id (e_kind e) phase (e_request_digest e) (Some result)))
                   else conflict "operation is not finishable"
               | None => conflict "operation is not finishable"
               end
      end
  | Status _ => (State (status_of existing), None)
  end.

(** The abstract ledger: a restart turns what is in progress into uncertain. *)
Definition spec_event (e : event) (m : gmap string entry) : answer * gmap string entry :=
  match e with
  | Call c =>
      let '(a, new) := plan c (m !! call_id c) in
      (a, match new with Some e => <[call_id c := e]> m | None => m end)
  | Restart => (Done, settle_entry <$> m)
  end.
Fixpoint spec_events (es : list event) (m : gmap string entry) : list answer :=
  match es with
  | [] => []
  | e :: es' => let '(a, m') := spec_event e m in a :: spec_events es' m'
  end.

Section Laws.
Context `{LedgerEnv}.

Lemma plan_entry_ok c existing a e : plan c existing = (a, Some e) →
  (∀ e0, existing = Some e0 → entry_ok e0 = true ∧ e_operation_id e0 = call_id c) →
  entry_ok e = true ∧ e_operation_id e = call_id c.
Proof.
  destruct c as [id kind request | id out result | id]; simpl; [| |done].
  - destruct (operation_id_ok id) eqn:Hid, (kind_ok kind) eqn:Hk, (is_sha256 request) eqn:Hr;
      simpl; try done.
    destruct existing as [e0|]; [by destruct (String.eqb _ _)|]. intros [= <- <-] _.
    unfold entry_ok. simpl. by rewrite Hid, Hk, Hr.
  - unfold parse_outcome. repeat case_match; simpl; try done; intros [= <- <-] He.
    all: destruct (He _ eq_refl) as [Hok Hid]; unfold entry_ok in *; simpl in *.
    all: rewrite !andb_true_iff, <- Hid in *; rewrite negb_false_iff in *; naive_solver.
Qed.

(** The code follows the plan: a refusal or an answer, or one appended entry. *)
Lemma run_call_plan c w g : w_object w = Some g → l_closed g = false →
  run_call c w =
    let '(a, new) := plan c (find_entry (call_id c) (l_entries g)) in
    match new with
    | Some e => (append e;; mret a) w
    | None => match a with Refused x => Err x w | _ => Ok a w end
    end.
Proof.
  intros Ho Hc.
  assert (require_open w = Ok g w) as Hr.
  { unfold require_open, the_object, mbind, M_bind, gets. cbn. rewrite Ho. cbn. by rewrite Hc. }
  destruct c as [id kind request | id out result | id]; cbn [run_call plan call_id];
    unfold begin, finish, status, validate_identity, conflict;
    unfold mbind, M_bind, from_option, ensure; rewrite Hr; cbn.
  - destruct (operation_id_ok id); [|done]. cbn. destruct (kind_ok kind); [|done]. cbn.
    destruct (is_sha256 request); [|done]. cbn.
    destruct (find_entry id (l_entries g)) as [e|]; cbn; [by destruct (String.eqb _ _)|].
    by destruct (append _ w).
  - destruct (parse_outcome out) as [phase|]; [|done]. cbn.
    destruct (is_sha256 result); [|done]. cbn.
    destruct (find_entry id (l_entries g)) as [e|]; [|done].
    by destruct (finishable (e_phase e)).
  - done.
Qed.
Lemma plan_refuses c existing a e : plan c existing = (a, Some e) → ∀ x, a ≠ Refused x.
Proof. destruct c; simpl; repeat case_match; by intros [= <-]. Qed.

(** ** The object and the abstract ledger *)

Definition represents (g : ledger) (m : gmap string entry) : Prop :=
  ∀ id, m !! id = find_entry id (l_entries g).

Lemma agrees_entry w g id e : agrees w g → find_entry id (l_entries g) = Some e →
  entry_ok e = true ∧ e_operation_id e = id.
Proof.
  intros Ha Hf. destruct (evidence_wf _ _ _ _ (ag_evidence _ _ Ha)) as [Hok _].
  apply find_entry_elem in Hf as [Hin Hid]. rewrite Forall_forall in Hok. by split; [apply Hok|].
Qed.

Lemma call_simulates c w g m : agrees w g → represents g m →
  let '(a, m') := spec_event (Call c) m in
  reply (run_call c w) = a ∧
  ∃ g', agrees (end_world (run_call c w)) g' ∧ represents g' m' ∧
    l_quarantined g' = l_quarantined g.
Proof.
  intros Ha Hm. cbn [spec_event]. rewrite Hm.
  rewrite (run_call_plan c w g) by (by destruct Ha).
  destruct (plan c _) as [a [e|]] eqn:Hp.
  - destruct (plan_entry_ok _ _ _ _ Hp) as [Hok Hid]; [intros e0; by apply (agrees_entry w g)|].
    destruct (append_agrees _ _ _ Ha Hok) as [Hap Ha'].
    rewrite (bind_run _ _ _ _ _ Hap). split; [done|].
    exists (with_entry e g). split_and!; [done| |done]. intros id. cbn.
    destruct (decide (call_id c = id)) as [<-|Hne].
    + rewrite lookup_insert_eq, <- Hid. by rewrite find_set_same.
    + rewrite lookup_insert_ne by done. rewrite Hm. symmetry. apply find_set_other. congruence.
  - by destruct a; (split; [done|]); exists g.
Qed.

Lemma find_settle id es : find_entry id (settle es) = settle_entry <$> find_entry id es.
Proof.
  induction es as [|e es IH]; simpl; [done|].
  assert (e_operation_id (settle_entry e) = e_operation_id e) as ->.
  { unfold settle_entry. by case_bool_decide. }
  by destruct (String.eqb _ _).
Qed.

Definition closed_world (g : ledger) (w : lworld) : lworld :=
  set_locked false (set_object (Some (Ledger (l_entries g) (l_quarantined g)
    (l_needs_newline g) true)) w).
Lemma close_agrees w g : agrees w g → close w = Ok tt (closed_world g w).
Proof.
  intros [Ho Hc _ _ _]. unfold close, the_object, mbind, M_bind, gets. cbn. rewrite Ho. cbn.
  by rewrite Hc.
Qed.
Lemma restart_simulates w g m : agrees w g → represents g m →
  reply (run_event Restart w) = Done ∧
  ∃ g', agrees (end_world (run_event Restart w)) g' ∧ represents g' (settle_entry <$> m) ∧
    (l_quarantined g = true → l_quarantined g' = true).
Proof.
  intros Ha Hm. cbn [run_event]. rewrite (bind_run _ _ _ _ _ (close_agrees _ _ Ha)).
  destruct Ha as [Ho Hc Hl Hf Hev].
  destruct (open_whole (closed_world g w) _ _ _ Hev) as (w' & g' & Hop & Ha' & He & Hq); [done..|].
  rewrite (bind_run _ _ _ _ _ Hop). split; [done|]. exists g'. split_and!; [done| |by rewrite Hq].
  intros id. rewrite lookup_fmap, Hm, He. by rewrite find_settle.
Qed.
End Laws.

(** ** A concrete environment *)

Lemma pad_hex w n : str_all is_hex (pad w n) = true.
Proof.
  revert n. induction w as [|w IH]; intros n; [done|]. cbn [pad].
  rewrite str_all_app, IH. cbn. rewrite andb_true_r. unfold is_hex.
  rewrite is_digit_digit; [done|]. apply Z.mod_pos_bound. lia.
Qed.
Lemma pad_sha256 n : is_sha256 (pad 64 n) = true.
Proof. unfold is_sha256, slen. by rewrite pad_hex, pad_length. Qed.
Definition demo_monotonic (n : nat) : string := if Nat.even n then "1.5" else "2.25".
Lemma demo_monotonic_ok n :
  float_ok (demo_monotonic n) = true ∧ float_negative (demo_monotonic n) = false.
Proof. unfold demo_monotonic. by destruct (Nat.even n). Qed.

#[export] Instance demo_ledger_env : LedgerEnv := {|
  euid := 501;
  file_sha256 := λ s, pad 64 (slen s);
  monotonic := demo_monotonic;
  foreign_json := λ _, None;
  file_sha256_hex := λ s, pad_sha256 (slen s);
  monotonic_ok := demo_monotonic_ok |}.

Definition demo_digest (n : Z) : string := pad 64 n.
Definition new_host : disk := Disk (path_absent true 7) None None None.
Definition boot (d : disk) : lworld := LWorld d None false no_fault 0.

Example demo_session : (run_events
    [Call (Begin "op-1" "stage" (demo_digest 1)); Call (Begin "op-1" "stage" (demo_digest 1));
     Call (Begin "op-1" "stage" (demo_digest 2)); Restart; Call (Status "op-1");
     Call (Finish "op-1" "committed" (demo_digest 3)); Restart; Call (Status "op-1")]
    (end_world (open (boot new_host)))).1
  = [Said "accepted"; Said "duplicate";
     Refused (OperationConflict "operation identifier has a different request digest"); Done;
     State (OperationStatus "uncertain" (Some (demo_digest 1)) None); Done; Done;
     State (OperationStatus "committed" (Some (demo_digest 1)) (Some (demo_digest 3)))].
Proof. vm_compute. reflexivity. Qed.

(** ** Lemmas of the theorems *)

Section Crashes.
Context `{LedgerEnv}.

Lemma call_crash c w g k : agrees w g →
  let o := run_call c (set_fault (crash_after k) w) in
  let '(a, new) := plan c (find_entry (call_id c) (l_entries g)) in
  let after := match new with Some e => set_entry e (l_entries g) | None => l_entries g end in
  (∃ w1, o = Err LCrash w1 ∧ (leftover (w_disk w1) (l_entries g) (l_quarantined g)
                             ∨ leftover (w_disk w1) after (l_quarantined g))) ∨
  (reply o = a ∧ ∃ nn, evidence (w_disk (end_world o)) after (l_quarantined g) nn).
Proof.
  intros Ha o. unfold o. destruct (Ha) as [Ho Hc Hl Hf Hev].
  rewrite (run_call_plan c _ g) by done.
  destruct (plan c _) as [a [e|]] eqn:Hp.
  - destruct (plan_entry_ok _ _ _ _ Hp) as [Hok _]; [intros e0; by apply (agrees_entry w g)|].
    destruct (append_fault e g w k Ho Hf) as [Hap _].
    destruct (_ <? k)%nat.
    + right. rewrite (bind_run _ _ _ _ _ Hap). split; [done|]. exists false.
      destruct (append_agrees _ _ _ Ha Hok) as [_ Ha']. by destruct Ha'.
    + left. rewrite (bind_run_err _ _ _ _ _ Hap). eexists; split; [done|].
      by apply (cut_leftover _ _ _ (l_needs_newline g)); [| |apply monotonic_stamp].
  - right. destruct a; (split; [done|]; by exists (l_needs_newline g)).
Qed.

Lemma call_crash_reopens c w g k : agrees w g →
  let o := run_call c (set_fault (crash_after k) w) in
  let '(a, new) := plan c (find_entry (call_id c) (l_entries g)) in
  let after := match new with Some e => set_entry e (l_entries g) | None => l_entries g end in
  ∃ es, (es = l_entries g ∨ es = after) ∧
    ((∀ w1, o ≠ Err LCrash w1) → reply o = a ∧ es = after) ∧
    ((∃ w2 g2, open (reboot (end_world o)) = Ok tt w2 ∧ agrees w2 g2 ∧
        l_entries g2 = settle es ∧ (l_quarantined g = true → l_quarantined g2 = true)) ∨
     (l_quarantined g = true ∧ ∃ w2, open (reboot (end_world o)) = Err second_torn w2)).
Proof.
  intros Ha. pose proof (call_crash c w g k Ha) as Hc.
  destruct (plan c _) as [a new]. cbn zeta in *.
  set (o := run_call c _) in *. clearbody o.
  set (after := match new with Some e => _ | None => _ end) in *.
  assert (∀ es, leftover (w_disk (end_world o)) es (l_quarantined g) →
    (∃ w2 g2, open (reboot (end_world o)) = Ok tt w2 ∧ agrees w2 g2 ∧
        l_entries g2 = settle es ∧ (l_quarantined g = true → l_quarantined g2 = true)) ∨
    (l_quarantined g = true ∧ ∃ w2, open (reboot (end_world o)) = Err second_torn w2)) as Hopen.
  { intros es Hlo. by apply open_leftover. }
  destruct Hc as [(w1 & -> & [Hlo | Hlo]) | [Hr [nn Hev]]].
  - exists (l_entries g). split_and!; [by left|intros Hn; by destruct (Hn w1)|by apply Hopen].
  - exists after. split_and!; [by right|intros Hn; by destruct (Hn w1)|by apply Hopen].
  - exists after. split_and!; [by right|done|]. apply Hopen. by apply (left_whole _ _ _ nn).
Qed.

(** A client's history: calls, restarts, and crashes followed by a restart that
    succeeds. *)
Inductive history_step (w : lworld) : lworld → Prop :=
| step_event e : history_step w (end_world (run_event e w))
| step_crash c k w2 : open (reboot (end_world (run_call c (set_fault (crash_after k) w)))) = Ok tt w2 →
    history_step w w2.

(** What is known of an operation only becomes more. *)
Definition entry_grows (e e' : entry) : Prop :=
  e_kind e' = e_kind e ∧ e_request_digest e' = e_request_digest e ∧
  (finished (e_phase e) = true → e' = e).
#[export] Instance entry_grows_preorder : PreOrder entry_grows.
Proof.
  split; [by repeat split|]. intros e1 e2 e3 (Hk & Hr & Hf) (Hk' & Hr' & Hf').
  split_and!; [congruence..|]. intros Hfin. pose proof (Hf Hfin) as ->. auto.
Qed.
Definition known_grows (es es' : list entry) : Prop :=
  ∀ id e, find_entry id es = Some e → ∃ e', find_entry id es' = Some e' ∧ entry_grows e e'.
#[export] Instance known_grows_preorder : PreOrder known_grows.
Proof.
  split; [intros es id e He; by exists e|]. intros es1 es2 es3 H1 H2 id e He.
  destruct (H1 _ _ He) as (e2 & He2 & Hg). destruct (H2 _ _ He2) as (e3 & He3 & Hg').
  exists e3. split; [done|]. by etrans.
Qed.
Lemma settle_grows es : known_grows es (settle es).
Proof.
  intros id e He. exists (settle_entry e). rewrite find_settle, He. split; [done|].
  unfold settle_entry. case_bool_decide as Hp; [|done]. split_and!; [done..|]. by rewrite Hp.
Qed.
Lemma plan_grows w g c a e : agrees w g →
  plan c (find_entry (call_id c) (l_entries g)) = (a, Some e) →
  known_grows (l_entries g) (set_entry e (l_entries g)).
Proof.
  intros Ha Hp id e0 He0.
  destruct (plan_entry_ok _ _ _ _ Hp) as [_ Hid]; [intros e1; by apply (agrees_entry w g)|].
  destruct (decide (id = e_operation_id e)) as [->|Hne].
  - exists e. rewrite find_set_same. split; [done|]. rewrite Hid in He0. rewrite He0 in Hp.
    destruct c; simpl in Hp; repeat case_match; simplify_eq/=.
    match goal with H : _ = e |- _ => rewrite <- H end. split_and!; [done..|].
    unfold finishable in *. intros Hf. by rewrite Hf in *.
  - exists e0. by rewrite find_set_other by done.
Qed.

Lemma event_grows e w g : agrees w g →
  ∃ g', agrees (end_world (run_event e w)) g' ∧ known_grows (l_entries g) (l_entries g').
Proof.
  intros Ha. destruct e as [c|]; cbn [run_event].
  - rewrite (run_call_plan c w g) by (by destruct Ha).
    destruct (plan c _) as [a [e|]] eqn:Hp.
    + destruct (plan_entry_ok _ _ _ _ Hp) as [Hok _]; [intros e0; by apply (agrees_entry w g)|].
      destruct (append_agrees _ _ _ Ha Hok) as [Hap Ha'].
      rewrite (bind_run _ _ _ _ _ Hap). exists (with_entry e g). split; [done|].
      by apply (plan_grows w g c a).
    + exists g. by destruct a.
  - rewrite (bind_run _ _ _ _ _ (close_agrees _ _ Ha)). destruct Ha as [Ho Hc Hl Hf Hev].
    destruct (open_whole (closed_world g w) _ _ _ Hev) as (w' & g' & Hop & Ha' & He & Hq); [done..|].
    rewrite (bind_run _ _ _ _ _ Hop). exists g'. split; [done|]. rewrite He. apply settle_grows.
Qed.
Lemma history_step_grows w w' g : history_step w w' → agrees w g →
  ∃ g', agrees w' g' ∧ known_grows (l_entries g) (l_entries g').
Proof.
  intros [e | c k w2 Hop] Ha; [by apply event_grows|].
  pose proof (call_crash_reopens c w g k Ha) as Hc. 
  destruct (plan c _) as [a new] eqn:Hp. cbn zeta in Hc.
  destruct Hc as (es & Hes & _ & [(w3 & g3 & Hop' & Ha3 & He3 & _) | [_ [w3 Hop']]]); [|congruence].
  assert (w3 = w2) as -> by congruence. exists g3. split; [done|]. rewrite He3.
  etrans; [|apply settle_grows]. destruct Hes as [-> | ->]; [done|].
  destruct new as [e|]; [by apply (plan_grows w g c a)|done].
Qed.
Lemma history_grows w w' g : rtc history_step w w' → agrees w g →
  ∃ g', agrees w' g' ∧ known_grows (l_entries g) (l_entries g').
Proof.
  intros Hr. revert g. induction Hr as [w | w w1 w2 Hs Hr IH]; intros g Ha; [by exists g|].
  destruct (history_step_grows _ _ _ Hs Ha) as (g1 & Ha1 & Hg1).
  destruct (IH _ Ha1) as (g2 & Ha2 & Hg2). exists g2. split; [done|]. by etrans.
Qed.

(** The first opening of a new host. *)
Lemma open_new_host i ob clock : ∃ w g,
  open (LWorld (Disk (path_absent true i) None None None) ob false no_fault clock) = Ok tt w ∧
  agrees w g ∧ l_entries g = [].
Proof.
  set (d := Disk (path_names (Directory true euid i)) (Some new_file) None (Some new_file)).
  set (g := Ledger [] false false false).
  exists (LWorld d (Some g) true no_fault clock), g. split_and!; [| |done].
  - unfold open, prepare_state_dir, verify_directory_binding, open_lock, open_body, open_ledger,
      releasing, open_object, verify_directory_binding.
    unfold mbind, M_bind, gets, ensure, modify, mret, M_ret.
    do 4 (cbn; rewrite ?Z.eqb_refl). done.
  - split; [done..|]. split; cbn.
    + unfold dir_ready. cbn. unfold lockable. cbn. by rewrite !Z.eqb_refl, orb_true_r.
    + unfold file_ready. cbn. unfold private. cbn. by rewrite Z.eqb_refl.
    + by exists None.
Qed.

(** Evidence that cannot be read stays so. *)
Lemma refused_open w m : dir_ready (w_disk w) = true → file_ready (w_disk w) = true →
  load_evidence (w_disk w) = refuse m → w_locked w = false → w_fault w = no_fault →
  open w = Err (LedgerUnavailable m)
    (set_object None (set_locked false (after_lock w))).
Proof.
  intros Hd Hf Hl Hw Hfault.
  destruct (open_locks w Hd Hw (or_introl Hfault)) as (n & Hp & Hn & ->).
  unfold releasing, open_body, open_ledger.
  unfold mbind, M_bind, gets, ensure, mret, M_ret. cbn.
  unfold file_ready in Hf. destruct (d_ledger (w_disk w)) as [f|] eqn:E; [|done].
  rewrite Hf. cbn. change (load_evidence (locked_disk (w_disk w))) with (load_evidence (w_disk w)).
  by rewrite Hl.
Qed.
(** Restarts, one after the other. *)
Definition restarted (n : nat) (w : lworld) : lworld :=
  Nat.iter n (λ w, reboot (end_world (open w))) w.
Lemma refused_forever w m n : dir_ready (w_disk w) = true → file_ready (w_disk w) = true →
  load_evidence (w_disk w) = refuse m →
  ∃ w', open (restarted n (reboot w)) = Err (LedgerUnavailable m) w'.
Proof.
  intros Hd Hf Hl.
  assert (let v := restarted n (reboot w) in
    dir_ready (w_disk v) = true ∧ file_ready (w_disk v) = true ∧
    load_evidence (w_disk v) = refuse m ∧ w_locked v = false ∧ w_fault v = no_fault) as Hn.
  { induction n as [|n IH]; [done|]. destruct IH as (Hd' & Hf' & Hl' & Hw' & Hfa').
    unfold restarted in *. cbn [Nat.iter nat_rect] in *.
    rewrite (refused_open _ m) by done. cbn. split_and!; [by apply locked_ready|done..]. }
  destruct Hn as (Hd' & Hf' & Hl' & Hw' & Hfa'). eexists. by apply refused_open.
Qed.

(** Dying while the fragment is being marked. *)
Lemma quarantine_torn_crash w o f k :
  w_fault w = crash_after k → d_sidecar (w_disk w) = None →
  (k <= String.length (quarantine_text (quarantine_of o f)) + 3)%nat →
  ∃ w1, quarantine_torn None (Some (o, f)) false w = Err LCrash w1 ∧
    (dir_ready (w_disk w) = true → dir_ready (w_disk w1) = true) ∧
    (file_ready (w_disk w) = true → file_ready (w_disk w1) = true) ∧
    d_sidecar (w_disk w1) = Some (append_data (str_take k
      (quarantine_text (quarantine_of o f) +:+ newline)) new_file) ∧
    ledger_data (w_disk w1) = ledger_data (w_disk w).
Proof.
  destruct w as [d ob l f0 c]. cbn [w_fault w_disk]. intros -> Hs Hk.
  unfold quarantine_torn, write_quarantine, append_bytes, fsync_directory, os_guard.
  unfold mbind, M_bind, gets, ensure, modify, mret, M_ret, write_all, fsync.
  cbn [w_disk]. rewrite Hs. cbn [w_fault on_disk].
  set (payload := quarantine_text (quarantine_of o f) +:+ newline).
  assert (String.length payload = S (String.length (quarantine_text (quarantine_of o f)))) as Hlen.
  { unfold payload. rewrite str_app_length. simpl. lia. }
  assert (k <= String.length payload + 2)%nat as Hk' by lia. clear Hlen Hk. clearbody payload.
  destruct (Nat.leb_spec (String.length payload) k) as [Hle|Hgt].
  - rewrite (str_take_all k payload) by done. cbn [w_fault set_fault].
    destruct (k - String.length payload)%nat as [|[|[|m]]] eqn:Em; [| | |lia].
    + eexists. split; [reflexivity|]. done.
    + eexists. split; [reflexivity|]. done.
    + eexists. split; [reflexivity|]. cbn. split; [done|]. unfold file_ready, ledger_data. cbn.
      destruct (d_ledger d) as [file|]; [|done]. cbn. by rewrite str_app_nil_r.
  - eexists. split; [reflexivity|]. done.
Qed.

(** A mark that is incomplete, or whose newline is missing, is refused. *)
Lemma half_marked_refused d D f es k d1 :
  torn_at (ledger_data d) D f es → ledger_data d1 = ledger_data d →
  d_sidecar d1 = Some (append_data (str_take k
      (quarantine_text (quarantine_of (slen D) f) +:+ newline)) new_file) →
  ∃ m, load_evidence d1 = refuse m.
Proof.
  intros Ht Hdata Hs. set (q := quarantine_of (slen D) f) in *.
  unfold load_evidence, load_quarantine. rewrite Hs, Hdata.
  assert (∀ x, private (append_data x new_file) = true) as Hp.
  { intros x. unfold private. cbn. by rewrite Z.eqb_refl. }
  rewrite Hp. cbn [check mbind res_bind f_data append_data new_file String.append].
  destruct (decide (k < String.length (quarantine_text q))%nat) as [Hk|Hk].
  { rewrite str_take_app_le by lia. rewrite quarantine_part by done. by eexists. }
  assert (parse_quarantine (str_take k (quarantine_text q +:+ newline)) = inr q) as Hq.
  { rewrite str_take_app_ge by lia. apply parse_quarantine_text.
    - apply slen_nonneg.
    - pose proof (torn_nonempty _ _ _ _ Ht) as Hne. destruct f as [|c f]; [done|].
      unfold q. cbn [q_length quarantine_of]. rewrite slen_cons. pose proof (slen_nonneg f). lia.
    - apply file_sha256_hex.
    - destruct (k - String.length (quarantine_text q))%nat as [|m]; [left; apply str_take_zero|right].
      apply str_take_all. simpl. lia. }
  rewrite Hq. cbn [mbind res_bind]. unfold q. rewrite (exclude_unmarked _ _ _ _ Ht). by eexists.
Qed.

End Crashes.

(** ** Properties *)

(** The file of these entries, one stamped record per line. *)
Fixpoint ledger_file (records : list (entry * string)) : string :=
  match records with
  | [] => EmptyString
  | (e, t) :: rest => record_text e t +:+ newline +:+ ledger_file rest
  end.
Definition recorded (records : list (entry * string)) : list entry :=
  fold_left (λ es r, set_entry r.1 es) records [].

Section FileRoundTrip.
Context `{LedgerEnv}.
Lemma ledger_file_snoc records e t :
  ledger_file (records ++ [(e, t)]) = ledger_file records +:+ record_text e t +:+ newline.
Proof.
  induction records as [|[e0 t0] records IH]; cbn [app ledger_file].
  - by rewrite str_app_nil_r.
  - by rewrite IH, !str_app_assoc.
Qed.
Lemma ledger_file_replays records :
  Forall (λ r, entry_ok r.1 = true ∧ stamp_ok r.2 = true) records →
  replay (ledger_file records) = inr (recorded records, None, false) ∧
  clean (ledger_file records) = true.
Proof.
  induction records as [|[e t] records IH] using rev_ind; [done|].
  rewrite Forall_app, Forall_singleton. cbn [fst snd]. intros [Hr [He Ht]].
  destruct (IH Hr) as [Hrep Hc]. rewrite ledger_file_snoc.
  unfold recorded. rewrite fold_left_app. cbn [fold_left fst]. split.
  - exact (proj1 (replay_record _ _ e t Hrep Hc He Ht)).
  - rewrite <- str_app_assoc. apply clean_newline.
Qed.
End FileRoundTrip.

(** C33: what the ledger writes it reads back: replaying a file of any valid
    records gives the last entry of every operation in the order they first
    appeared, nothing torn and no newline missing; without its last newline the
    file gives the same entries and asks for the newline; and each record alone
    is parsed to its entry. *)
Theorem ledger_file_round_trip `{LedgerEnv} records e t :
  Forall (λ r, entry_ok r.1 = true ∧ stamp_ok r.2 = true) (records ++ [(e, t)]) →
  replay (ledger_file (records ++ [(e, t)])) =
    inr (recorded (records ++ [(e, t)]), None, false) ∧
  replay (ledger_file records +:+ record_text e t) =
    inr (recorded (records ++ [(e, t)]), None, true) ∧
  parse_record (record_text e t) = inr e.
Proof.
  intros Hf. pose proof Hf as Hr. rewrite Forall_app, Forall_singleton in Hr.
  destruct Hr as [Hr [He Ht]]. cbn [fst snd] in *.
  destruct (ledger_file_replays _ Hr) as [Hrep Hc]. split_and!.
  - by apply ledger_file_replays.
  - unfold recorded. rewrite fold_left_app.
    exact (proj2 (replay_record _ _ e t Hrep Hc He Ht)).
  - by apply parse_record_text.
Qed.

Definition demo_entry (phase : op_phase) (result : option string) : entry :=
  Entry "op-1" "stage" phase (demo_digest 1) result.
Lemma ledger_file_round_trip_witness :
  let records := [(demo_entry in_progress None, "1.5")] in
  let e := demo_entry committed (Some (demo_digest 3)) in
  replay (ledger_file records +:+ record_text e "2.25") = inr ([e], None, true).
Proof.
  intros records e.
  assert (Forall (λ r, entry_ok r.1 = true ∧ stamp_ok r.2 = true) (records ++ [(e, "2.25")])) as Hf.
  { repeat constructor; vm_compute; reflexivity. }
  exact (proj1 (proj2 (ledger_file_round_trip records e "2.25" Hf))).
Defined.

(** C6: the ledger implements a durable map: on a new host, whatever is begun,
    finished or asked, valid or not, and however often the worker is restarted
    in between, every answer is the one the abstract map gives, where a restart
    turns what was in progress into uncertain and forgets nothing. *)
Theorem ledger_refines_map `{LedgerEnv} es i clock :
  ∃ w, open (LWorld (Disk (path_absent true i) None None None) None false no_fault clock) = Ok tt w ∧
    (run_events es w).1 = spec_events es ∅.
Proof.
  destruct (open_new_host i None clock) as (w & g & Hop & Ha & He). exists w. split; [done|].
  assert (represents g ∅) as Hm by (intros id; by rewrite He). clear He Hop.
  revert w g Ha Hm. generalize (∅ : gmap string entry).
  induction es as [|e es IH]; intros m w g Ha Hm; [done|]. cbn [run_events spec_events].
  assert (let '(a, m') := spec_event e m in reply (run_event e w) = a ∧
    ∃ g', agrees (end_world (run_event e w)) g' ∧ represents g' m') as Hs.
  { destruct e as [c|].
    - pose proof (call_simulates c w g m Ha Hm) as Hc. destruct (spec_event _ _) as [a m'].
      destruct Hc as [Hr (g' & ? & ? & _)]. split; [done|]. by exists g'.
    - destruct (restart_simulates w g m Ha Hm) as [Hr (g' & ? & ? & _)]. split; [done|].
      by exists g'. }
  destruct (spec_event e m) as [a m']. destruct Hs as [Hr (g' & Ha' & Hm')].
  specialize (IH m' _ _ Ha' Hm'). destruct (run_events es _) as [answers w']. cbn in *. congruence.
Qed.

(** C7: a crash at any byte or sync of a call loses nothing and invents nothing:
    the next opening gives an object that agrees with its disk and holds the
    entries from before the call or those after it, the latter whenever the call
    had answered; only a ledger that already carries a quarantined fragment may
    refuse instead, and then because a second fragment was torn. *)
Theorem ledger_crash_atomic `{LedgerEnv} c w g k : agrees w g →
  let o := run_call c (set_fault (crash_after k) w) in
  let '(a, new) := plan c (find_entry (call_id c) (l_entries g)) in
  let after := match new with Some e => set_entry e (l_entries g) | None => l_entries g end in
  ∃ es, (es = l_entries g ∨ es = after) ∧
    ((∀ w1, o ≠ Err LCrash w1) → reply o = a ∧ es = after) ∧
    ((∃ w2 g2, open (reboot (end_world o)) = Ok tt w2 ∧ agrees w2 g2 ∧
        l_entries g2 = settle es ∧ (l_quarantined g = true → l_quarantined g2 = true)) ∨
     (l_quarantined g = true ∧ ∃ w2, open (reboot (end_world o)) = Err second_torn w2)).
Proof. apply call_crash_reopens. Qed.

Abbreviation demo_open := (end_world (open (boot new_host))).
Lemma ledger_crash_atomic_witness : ∃ g,
  agrees demo_open g ∧ l_quarantined g = false ∧
  ∃ es w2 g2, (es = l_entries g ∨ es = [demo_entry in_progress None]) ∧
    open (reboot (end_world (run_call (Begin "op-1" "stage" (demo_digest 1))
      (set_fault (crash_after 40) demo_open)))) = Ok tt w2 ∧ agrees w2 g2 ∧
    l_entries g2 = settle es.
Proof.
  destruct (open_new_host 7 None 0) as (w & g & Hop & Ha & He).
  assert (l_quarantined g = false) as Hq.
  { destruct Ha as [Ho _ _ _ _]. apply (f_equal end_world) in Hop. cbn [end_world] in Hop.
    rewrite <- Hop in Ho. vm_compute in Ho. by injection Ho as <-. }
  assert (demo_open = w) as Hw by (unfold boot, new_host; by rewrite Hop).
  exists g. rewrite Hw. split; [exact Ha|]. split; [exact Hq|].
  pose proof (ledger_crash_atomic (Begin "op-1" "stage" (demo_digest 1)) w g 40 Ha) as Hc.
  rewrite He in Hc |- *.
  assert (plan (Begin "op-1" "stage" (demo_digest 1)) (find_entry "op-1" []) =
    (Said "accepted", Some (demo_entry in_progress None))) as Hp by (vm_compute; reflexivity).
  cbn [call_id] in Hc. rewrite Hp in Hc. cbn zeta in Hc.
  destruct Hc as (es & Hes & _ & [(w2 & g2 & Hop2 & Ha2 & He2 & _) | [Hq' _]]);
    [|rewrite Hq in Hq'; discriminate].
  exists es, w2, g2. split_and!; assumption.
Defined.

(** What is known of an operation only becomes more: over any history of
    calls, restarts and crashes at any byte, every entry keeps its kind and its
    request digest, and once it is committed or failed it stays exactly as it
    was recorded, result included. *)
Theorem ledger_evidence_final `{LedgerEnv} w w' g id e :
  rtc history_step w w' → agrees w g → find_entry id (l_entries g) = Some e →
  ∃ g' e', agrees w' g' ∧ find_entry id (l_entries g') = Some e' ∧
    e_kind e' = e_kind e ∧ e_request_digest e' = e_request_digest e ∧
    (finished (e_phase e) = true → e' = e).
Proof.
  intros Hr Ha He. destruct (history_grows _ _ _ Hr Ha) as (g' & Ha' & Hg).
  destruct (Hg _ _ He) as (e' & He' & Hgr). by exists g', e'.
Qed.

Lemma ledger_evidence_final_witness : ∃ w w' g e,
  rtc history_step w w' ∧ agrees w g ∧ find_entry "op-1" (l_entries g) = Some e ∧
  ∃ g' e', agrees w' g' ∧ find_entry "op-1" (l_entries g') = Some e' ∧ e_kind e' = e_kind e.
Proof.
  destruct (open_new_host 7 None 0) as (w0 & g0 & _ & Ha0 & He0).
  destruct (event_grows (Call (Begin "op-1" "stage" (demo_digest 1))) w0 g0 Ha0) as (g1 & Ha1 & _).
  pose proof (call_simulates (Begin "op-1" "stage" (demo_digest 1)) w0 g0 ∅ Ha0) as Hs.
  assert (represents g0 ∅) as Hm by (intros id; rewrite He0; reflexivity).
  specialize (Hs Hm). cbn [spec_event call_id] in Hs. rewrite lookup_empty in Hs.
  assert (plan (Begin "op-1" "stage" (demo_digest 1)) None =
    (Said "accepted", Some (demo_entry in_progress None))) as Hp by (vm_compute; reflexivity).
  rewrite Hp in Hs. destruct Hs as [_ (g & Ha & Hg & _)].
  specialize (Hg "op-1"). rewrite lookup_insert_eq in Hg. symmetry in Hg.
  set (w := end_world (run_call (Begin "op-1" "stage" (demo_digest 1)) w0)) in *.
  pose proof (rtc_once _ _ (step_event w Restart)) as Hr.
  destruct (ledger_evidence_final _ _ _ _ _ Hr Ha Hg) as (g' & e' & Ha' & He' & Hk & _).
  exists w, (end_world (run_event Restart w)), g, (demo_entry in_progress None).
  split; [exact Hr|]. split; [exact Ha|]. split; [exact Hg|]. exists g', e'.
  split; [exact Ha'|]. split; [exact He'|exact Hk].
Defined.

(** One worker at a time: while an object is open, opening the same state
    directory again is refused as owned by another process and changes neither
    the ledger nor the sidecar, and the open object goes on agreeing with them. *)
Theorem ledger_open_exclusive `{LedgerEnv} w g : agrees w g →
  ∃ w', open w = Err (LedgerUnavailable "operation ledger is owned by another process") w' ∧
    agrees w' g ∧ d_ledger (w_disk w') = d_ledger (w_disk w) ∧
    d_sidecar (w_disk w') = d_sidecar (w_disk w).
Proof.
  intros [Ho Hc Hl Hf Hev]. pose proof (evidence_locked _ _ _ _ Hev) as Hev'.
  pose proof (ev_dir _ _ _ _ Hev) as Hd. unfold dir_ready in Hd.
  apply andb_true_iff in Hd as [Hp Hlk].
  exists (on_disk (λ _, locked_disk (w_disk w)) w). split; [|done].
  destruct w as [d ob l f c]. cbn in *. subst.
  destruct (d_path d) as [|n] eqn:Ep; [done|]. apply andb_true_iff in Hp as [Hdir Hown].
  unfold open, prepare_state_dir, verify_directory_binding, open_lock, locked_disk.
  unfold mbind, M_bind, gets, ensure, modify, mret, M_ret. cbn. rewrite Ep. cbn. rewrite Ep. cbn.
  rewrite Hdir, Hown. cbn. rewrite Ep, Hdir, Hown, Z.eqb_refl. cbn.
  destruct (d_lock d) as [lf|] eqn:El; [by rewrite Hlk|done].
Qed.

Lemma ledger_open_exclusive_witness : ∃ w g w', agrees w g ∧
  open w = Err (LedgerUnavailable "operation ledger is owned by another process") w'.
Proof.
  destruct (open_new_host 7 None 0) as (w & g & _ & Ha & _).
  destruct (ledger_open_exclusive w g Ha) as (w' & Hw & _).
  exists w, g, w'. split; assumption.
Defined.

(** Recovery itself is not crash safe: when the worker dies while the first
    opening after a torn append records the fragment, at any byte of the sidecar
    or before the newline behind the fragment is written, no later opening
    succeeds, however often it is tried. *)
Theorem quarantine_crash_wedges `{LedgerEnv} w D f es k n :
  dir_ready (w_disk w) = true → file_ready (w_disk w) = true →
  is_Some (d_lock (w_disk w)) → d_sidecar (w_disk w) = None →
  torn_at (ledger_data (w_disk w)) D f es → w_locked w = false →
  (k <= String.length (quarantine_text (quarantine_of (slen D) f)) + 3)%nat →
  ∃ m w1 w2, open (set_fault (crash_after k) w) = Err LCrash w1 ∧
    open (restarted n (reboot w1)) = Err (LedgerUnavailable m) w2.
Proof.
  intros Hd Hf Hlock Hs Ht Hw Hk.
  destruct (open_locks (set_fault (crash_after k) w) Hd Hw (or_intror Hlock)) as (p & _ & _ & Hop).
  set (v := after_lock (set_fault (crash_after k) w)) in *.
  assert (load_evidence (w_disk v) = inr (None, (es, Some (slen D, f), false))) as Hl.
  { unfold load_evidence, load_quarantine. cbn. rewrite Hs. cbn.
    change (ledger_data (locked_disk (w_disk w))) with (ledger_data (w_disk w)).
    by rewrite (replay_torn _ _ _ _ Ht). }
  destruct (quarantine_torn_crash v (slen D) f k) as (w1 & Hq & Hd1 & Hf1 & Hs1 & Hl1); [done..|].
  assert (∃ m, load_evidence (w_disk w1) = refuse m) as [m Hm].
  { by apply (half_marked_refused (w_disk v) D f es k). }
  exists m, (set_object None (set_locked false w1)).
  destruct (refused_forever (set_object None (set_locked false w1)) m n) as [w2 Hw2];
    [by apply Hd1, locked_ready|by apply Hf1|done|].
  exists w2. split; [|done]. rewrite Hop. unfold releasing.
  rewrite (open_body_loads p v None (es, Some (slen D, f), false)) by done.
  unfold open_object. by rewrite (bind_run_err _ _ _ _ _ Hq).
Qed.

Definition torn_disk : disk :=
  Disk (path_names (Directory true 501 7))
    (Some (File true 501 384 1 "{")) None (Some (File true 501 384 1 "")).
Lemma quarantine_crash_wedges_witness : ∃ m w1 w2,
  open (set_fault (crash_after 20) (boot torn_disk)) = Err LCrash w1 ∧
  open (restarted 5 (reboot w1)) = Err (LedgerUnavailable m) w2.
Proof.
  apply (quarantine_crash_wedges (boot torn_disk) "" "{" [] 20 5).
  - vm_compute. reflexivity.
  - vm_compute. reflexivity.
  - eexists. reflexivity.
  - reflexivity.
  - split; [reflexivity..|discriminate|reflexivity|eexists; vm_compute; reflexivity].
  - reflexivity.
  - apply Nat.leb_le. vm_compute. reflexivity.
Defined.

(** A failed append leaves the object usable on a damaged file: when the
    disk fills up in the middle of a begin's record the call is refused, but the
    next begin and its finish are accepted and answered, and then no restart can
    read the ledger any more. *)
Theorem failed_append_corrupts :
  let full := run_call (Begin "op-1" "stage" (demo_digest 1))
                (set_fault (error_after 30) (end_world (open (boot new_host)))) in
  let begun := run_call (Begin "op-2" "stage" (demo_digest 2)) (end_world full) in
  let done_ := run_call (Finish "op-2" "committed" (demo_digest 3)) (end_world begun) in
  reply full = Refused (LedgerUnavailable "ledger append failed") ∧
  reply begun = Said "accepted" ∧ reply done_ = Done ∧
  reply (run_event Restart (end_world done_)) =
    Refused (LedgerUnavailable "ledger contains a malformed non-quarantined line").
Proof. vm_compute. auto. Qed.
