(* ===== verification/Runs.v ===== *)
(** * Runs, attempts and run events

    What the runtime commands of [control/store.py] read of a run and its
    attempts, the ordered event log they append to, and the fence of a leased
    claim that the delivery queues share. *)

From S2P Require Import Prelude PyText Clock Json Schema Store.
Open Scope Z_scope.

Definition run_json (id : string) (r : run_row) : json := JObj
  [("id", JStr id); ("thread_id", JStr (ru_thread_id r)); ("state", JStr (ru_state r));
   ("active_attempt_id", opt_json (ru_active_attempt_id r)); ("stage", opt_json (ru_stage r));
   ("latest_sequence", JInt (ru_latest_sequence r)); ("revision", JInt (ru_revision r));
   ("created_at", JStr (ru_created_at r)); ("updated_at", JStr (ru_updated_at r))].

(** [_TERMINAL_RUN_STATES]. *)
Definition TERMINAL_RUN_STATES : list string := ["completed"; "failed"; "canceled"].

(** [x in {...}] on texts. *)
Definition in_texts (x : string) (l : list string) : bool := existsb (String.eqb x) l.

(** Changed columns. *)
Definition ru_touch (state t : string) (r : run_row) : run_row :=
  RunRow (ru_thread_id r) state (ru_active_attempt_id r) (ru_stage r)
    (ru_latest_sequence r) (ru_revision r + 1) (ru_created_at r) t.
Definition ru_sequence (n : Z) (r : run_row) : run_row :=
  RunRow (ru_thread_id r) (ru_state r) (ru_active_attempt_id r) (ru_stage r)
    n (ru_revision r) (ru_created_at r) (ru_updated_at r).
Definition at_state_to (state : string) (r : attempt_row) : attempt_row :=
  AttemptRow (at_run_id r) (at_number r) state (at_runtime_binding_id r)
    (at_runtime_release_id r) (at_checkpoint_uri r) (at_source_attempt_id r)
    (at_source_checkpoint_uri r) (at_started_at r) (at_finished_at r)
    (at_state_generation_id r) (at_dispatch_owner r) (at_dispatch_expires_at r)
    (at_runtime_identity_version r) (at_runtime_slot_id r) (at_runtime_artifact_digest r)
    (at_runtime_worker_protocol r).

Definition event_json (e : event_row) (payload : json) : json := JObj
  [("cursor", JInt (ev_global_cursor e)); ("schema_version", JInt (ev_schema_version e));
   ("id", JStr (ev_id e)); ("run_id", JStr (ev_run_id e));
   ("attempt_id", opt_json (ev_attempt_id e)); ("sequence", JInt (ev_sequence e));
   ("type", JStr (ev_type e)); ("occurred_at", JStr (ev_occurred_at e));
   ("causation_id", opt_json (ev_causation_id e)); ("durability", JStr "durable");
   ("payload", payload)].

(** The events of a run, and the next AUTOINCREMENT key. *)
Definition events_of (run_id : string) (d : db) : list event_row :=
  List.filter (λ e, String.eqb (ev_run_id e) run_id) (run_events d).
Definition next_cursor (d : db) : Z :=
  foldr Z.max 0 (map ev_global_cursor (run_events d)) + 1.

(** A truthy text column. *)
Definition has_text (o : option string) : bool :=
  match o with Some s => negb (String.eqb s "") | None => false end.

(** The lease columns before and after a claim. *)
Definition claim_free (t : string) (c : claim) : bool :=
  match cl_owner c with
  | None => true
  | Some _ => match cl_expires_at c with Some e => str_le e t | None => false end
  end.
Definition take_claim (worker expires : string) (c : claim) : claim :=
  Claim (Some worker) (Some expires) (cl_epoch c + 1).
Definition drop_claim (c : claim) : claim := Claim None None (cl_epoch c).
Definition claim_is (worker : string) (epoch : Z) (c : claim) : bool :=
  bool_decide (cl_owner c = Some worker) && (cl_epoch c =? epoch).

Definition is_pending (s : action_state) : bool := bool_decide (s = act_pending).
Definition fence_mismatch (target : string) : exc :=
  InvalidTransition "claim_fence_mismatch" target.


(** [value.get("claim_epoch")], when it is an integer. *)
Definition json_epoch (v : json) : option Z :=
  match jget "claim_epoch" v with Some (JInt n) => Some n | _ => None end.

Section Runs.
Context `{Env}.

(** [_run] and [_attempt]. *)
Definition run (id : string) : Store (run_row * json) :=
  row ← query (λ d, runs d !! id);
  r ← from_option row (NotFound "run" id); mret (r, run_json id r).
Definition attempt (id : string) : Store attempt_row :=
  row ← query (λ d, attempts d !! id);
  from_option row (NotFound "attempt" id).

(** [_required_text] of a value that may be missing. *)
Definition required_opt (value : option string) (name : string) (maximum : Z) : Store string :=
  match value with
  | Some s => required_text s name maximum
  | None => raise (ValueError (name +:+ " is invalid"))
  end.

(** [_validate_runtime_identity]. *)
Definition validate_runtime_identity (run_id : string) (r : run_row) (attempt_id
    runtime_binding_id runtime_release_id : string) (state_generation_id : option string) :
    Store attempt_row :=
  generation ← required_opt state_generation_id "state_generation_id" 200;
  ensure (bool_decide (ru_active_attempt_id r = Some attempt_id))
    (InvalidTransition "attempt_mismatch" "runtime_result");;
  a ← attempt attempt_id;
  ensure ((at_runtime_identity_version a =? 1) && has_text (at_runtime_release_id a)
          && has_text (at_state_generation_id a) && has_text (at_runtime_slot_id a)
          && has_text (at_runtime_artifact_digest a) && has_text (at_runtime_worker_protocol a))
    (InvalidTransition "legacy_runtime_identity" "manual_recovery");;
  ensure (String.eqb (at_run_id a) run_id
          && bool_decide (at_runtime_binding_id a = Some runtime_binding_id)
          && bool_decide (at_runtime_release_id a = Some runtime_release_id)
          && bool_decide (at_state_generation_id a = Some generation))
    (InvalidTransition "runtime_binding_mismatch" "runtime_result");;
  mret a.

(** [UPDATE runs SET state = ?, revision = revision + 1, updated_at = ? WHERE
    id = ? AND revision = ?]; a caller that leaves the state passes it back. *)
Definition update_run (id : string) (expected_revision : Z) (state t : string) : Store unit :=
  execute (set_runs (alter (λ r,
    if ru_revision r =? expected_revision then ru_touch state t r else r) id)).
Definition update_attempt_state (id state : string) : Store unit :=
  execute (set_attempts (alter (at_state_to state) id)).

(** [_insert_event]: the INSERT checks the unique keys and the foreign keys. *)
Definition insert_event (run_id : string) (attempt_id : option string) (event_type : string)
    (payload : json) (causation_id : option string) : Store json :=
  '(r, _) ← run run_id;
  let sequence := ru_latest_sequence r + 1 in
  t ← now; id ← new_id "event";
  cursor ← query next_cursor;
  let e := EventRow cursor id 1 run_id attempt_id sequence event_type t causation_id
             (json_text payload) in
  used ← query (λ d, existsb (λ x, String.eqb (ev_id x) id
    || (String.eqb (ev_run_id x) run_id && (ev_sequence x =? sequence))) (run_events d));
  known ← query (λ d,
    match attempt_id with Some a => bool_decide (is_Some (attempts d !! a)) | None => true end);
  ensure (negb used && known && (1 <=? sequence)) IntegrityError;;
  execute (set_run_events (λ l, l ++ [e]));;
  execute (set_runs (alter (ru_sequence sequence) run_id));;
  mret (event_json e payload).

(** [_claim_fence_is_current]: the clock is read only when the rest agrees. *)
Definition claim_fence_is_current (c : claim) (worker_id : string) (claim_epoch : option Z) :
    Store bool :=
  match cl_expires_at c with
  | Some expires =>
      if bool_decide (cl_owner c = Some worker_id) && bool_decide (claim_epoch = Some (cl_epoch c))
      then t ← now; mret (str_lt t expires)
      else mret false
  | None => mret false
  end.
(** [_claim_replay_is_current]. *)
Definition claim_replay_is_current (state : action_state) (c : claim) (worker_id : string)
    (claim_epoch : option Z) : Store bool :=
  if is_pending state then claim_fence_is_current c worker_id claim_epoch
  else mret false.

(** The arguments of the commands that settle a claim. *)
Definition check_epoch (claim_epoch : Z) : Store unit :=
  ensure (1 <=? claim_epoch) (ValueError "claim_epoch must be a positive integer").
Definition check_lease (lease_seconds : Z) : Store unit :=
  ensure ((1 <=? lease_seconds) && (lease_seconds <=? 300))
    (ValueError "lease_seconds must be between 1 and 300").
Definition lease_request (worker : string) (lease_seconds : Z) : json :=
  JObj [("worker_id", JStr worker); ("lease_seconds", JInt lease_seconds)].

(** The claim commands: a receipt is replayed only while its lease is live. *)
Definition claim_command (actor_id operation key : string) (request : json)
    (replay_current : command_result → Store bool) (target : string)
    (body : Store json) : Store command_result :=
  transaction (
    replay ← receipt actor_id operation key request;
    match replay with
    | Some r =>
        current ← replay_current r;
        ensure current (InvalidTransition "stale_claim_receipt" target);;
        mret r
    | None => v ← body; save_receipt actor_id operation key request v 200
    end).

(** [run = self._run(...)] and [_expect_revision], as the settling commands
    begin. *)
Definition run_at (id : string) (expected_revision : Z) : Store run_row :=
  '(r, v) ← run id;
  expect_revision v (ru_revision r) expected_revision;;
  mret r.
End Runs.
