(* ===== verification/RuntimeActions.v ===== *)
(** * The runtime action queue

    The commands of [control/store.py] over [runtime_actions]: delivering a
    decision, a pause or a cancel to the worker of a run under a leased claim,
    settling the delivery, and inspecting a delivery whose outcome is unknown
    before it may be repeated.  ([fail_runtime_action] also closes the
    run's open work: [RunClosing].) *)

From S2P Require Import Prelude PyText Clock Json Schema Store Runs.
Open Scope Z_scope.

(** The dictionary of a row, [payload_json] parsed. *)
Definition action_json (id : string) (r : action_row) (payload : json) : json := JObj
  [("id", JStr id); ("run_id", JStr (ra_run_id r)); ("attempt_id", JStr (ra_attempt_id r));
   ("runtime_binding_id", JStr (ra_runtime_binding_id r));
   ("runtime_release_id", JStr (ra_runtime_release_id r)); ("kind", JStr (ra_kind r));
   ("state", JStr (action_state_text (ra_state r))); ("created_at", JStr (ra_created_at r));
   ("acknowledged_at", opt_json (ra_acknowledged_at r));
   ("claim_owner", opt_json (cl_owner (ra_claim r)));
   ("claim_expires_at", opt_json (cl_expires_at (ra_claim r)));
   ("failure_category", opt_json (ra_failure_category r));
   ("claim_epoch", JInt (cl_epoch (ra_claim r)));
   ("outcome_state", JStr (outcome_state_text (ra_outcome_state r))); ("payload", payload)].

(** The columns an UPDATE may change. *)
Definition ra_set (state : action_state) (acknowledged_at : option string) (c : claim)
    (failure_category : option string) (o : outcome_state) (r : action_row) : action_row :=
  ActionRow (ra_run_id r) (ra_attempt_id r) (ra_runtime_binding_id r)
    (ra_runtime_release_id r) (ra_kind r) (ra_payload_json r) (ra_created_at r)
    state acknowledged_at c failure_category o.
Definition ra_lease (worker expires : string) (o : outcome_state) (r : action_row) : action_row :=
  ra_set (ra_state r) (ra_acknowledged_at r) (take_claim worker expires (ra_claim r))
    (ra_failure_category r) o r.
Definition ra_release (failure_category : option string) (o : outcome_state)
    (r : action_row) : action_row :=
  ra_set (ra_state r) (ra_acknowledged_at r) (drop_claim (ra_claim r)) failure_category o r.
Definition ra_settle (state : action_state) (t : string) (failure_category : option string)
    (r : action_row) : action_row :=
  ra_set state (Some t) (drop_claim (ra_claim r)) failure_category ready r.

(** [outcome_state IN ('ready', 'reconcile')]. *)
Definition deliverable (o : outcome_state) : bool :=
  match o with ready | reconcile => true | outcome_unknown => false end.
(** [WHERE state = 'pending' AND claim_owner = ? AND claim_epoch = ? AND ...]. *)
Definition fenced (worker : string) (epoch : Z) (allowed : outcome_state → bool)
    (r : action_row) : bool :=
  is_pending (ra_state r) && claim_is worker epoch (ra_claim r) && allowed (ra_outcome_state r).

(** The run state each kind of action is delivered in. *)
Definition delivery_state (kind : string) : option string :=
  if String.eqb kind "decision.resolve" then Some "resuming"
  else if String.eqb kind "control.pause" then Some "pause_requested"
  else if String.eqb kind "control.cancel" then Some "cancel_requested"
  else None.
(** The WHERE clause of the listing: the kind is known and the run waits for it. *)
Definition delivery_due (kind run_state : string) : bool :=
  match delivery_state kind with Some s => String.eqb run_state s | None => false end.
(** The condition the claim raises on: the kind is known and the run does not. *)
Definition delivery_blocked (kind run_state : string) : bool :=
  match delivery_state kind with Some s => negb (String.eqb run_state s) | None => false end.

(** [ORDER BY created_at, id]. *)
Definition action_le (a b : string * action_row) : bool :=
  pair_le (ra_created_at a.2, a.1) (ra_created_at b.2, b.1).
Definition actions_where (p : action_row → bool) (d : db) : list (string * action_row) :=
  isort action_le (List.filter (λ x, p x.2) (map_to_list (runtime_actions d))).

Definition pending_at (t : string) (d : db) (r : action_row) : bool :=
  is_pending (ra_state r) && bool_decide (ra_outcome_state r = ready)
  && match runs d !! ra_run_id r with
     | Some run => bool_decide (ru_active_attempt_id run = Some (ra_attempt_id r))
                   && delivery_due (ra_kind r) (ru_state run)
     | None => false
     end
  && claim_free t (ra_claim r).
(** An expired reconciliation lease. *)
Definition lease_over (t : string) (r : action_row) : bool :=
  match cl_expires_at (ra_claim r) with Some e => str_le e t | None => false end.
Definition inspectable (t : string) (r : action_row) : bool :=
  bool_decide (ra_outcome_state r = outcome_unknown)
  || bool_decide (ra_outcome_state r = reconcile) && lease_over t r.

Definition action_path (id action : string) : string :=
  "POST:/internal/v1/runtime-actions/" +:+ id +:+ "/" +:+ action.
(** The payload of the events these commands append. *)
Definition action_event (id kind : string) (category : option string) : json :=
  JObj ([("runtime_action_id", JStr id); ("kind", JStr kind)]
        ++ match category with Some c => [("category", JStr c)] | None => [] end).
Definition settle_request (owner : string) (epoch expected_revision : Z)
    (category : option string) : json :=
  JObj ([("claim_owner", JStr owner); ("claim_epoch", JInt epoch);
         ("expected_revision", JInt expected_revision)]
        ++ match category with Some c => [("category", JStr c)] | None => [] end).

Section RuntimeActions.
Context `{Env}.

(** [_runtime_action]: the row and its dictionary. *)
Definition runtime_action (id : string) : Store (action_row * json) :=
  row ← query (λ d, runtime_actions d !! id);
  r ← from_option row (NotFound "runtime action" id);
  payload ← json_loads (ra_payload_json r);
  mret (r, action_json id r payload).
Definition action_dicts (rows : list (string * action_row)) : Store (list json) :=
  map_m (λ x : string * action_row, '(_, v) ← runtime_action x.1; mret v) rows.

(** An UPDATE of one row; the result is [cursor.rowcount]. *)
Definition update_action (id : string) (where_ : action_row → bool)
    (f : action_row → action_row) : Store Z :=
  row ← query (λ d, runtime_actions d !! id);
  match row with
  | Some r => if where_ r then execute (set_runtime_actions (<[id := f r]>));; mret 1 else mret 0
  | None => mret 0
  end.

(** [list_pending_runtime_actions]. *)
Definition list_pending_runtime_actions : Store (list json) :=
  t ← now;
  rows ← query (λ d, actions_where (pending_at t d) d);
  action_dicts rows.

(** [list_runtime_actions_requiring_reconciliation]. *)
Definition list_runtime_actions_requiring_reconciliation (limit : Z) : Store (list json) :=
  ensure ((1 <=? limit) && (limit <=? 1000)) (ValueError "limit must be between 1 and 1000");;
  t ← now;
  rows ← query (actions_where (λ r, is_pending (ra_state r) && inspectable t r));
  action_dicts (take (Z.to_nat limit) rows).

(** [claim_runtime_action]. *)
Definition claim_action_body (id worker : string) (lease_seconds : Z) : Store json :=
  '(a, _) ← runtime_action id;
  ensure (is_pending (ra_state a) && bool_decide (ra_outcome_state a = ready))
    (InvalidTransition (action_state_text (ra_state a)) "claimed");;
  '(r, _) ← run (ra_run_id a);
  ensure (bool_decide (ru_active_attempt_id r = Some (ra_attempt_id a))
          && negb (delivery_blocked (ra_kind a) (ru_state r)))
    (InvalidTransition (ru_state r) "claimed");;
  current ← utc_now;
  expires ← format_after current lease_seconds;
  n ← update_action id
    (λ x, is_pending (ra_state x) && bool_decide (ra_outcome_state x = ready)
          && claim_free (format_time current) (ra_claim x))
    (λ x, ra_lease worker expires (ra_outcome_state x) x);
  ensure (n =? 1) (InvalidTransition "already_claimed" "claimed");;
  '(_, v) ← runtime_action id; mret v.
Definition claim_runtime_action (id worker_id : string) (lease_seconds : Z)
    (actor_id key : string) : Store command_result :=
  worker ← required_text worker_id "worker_id" 200;
  check_lease lease_seconds;;
  claim_command actor_id (action_path id "claim") key (lease_request worker lease_seconds)
    (λ replay, '(current, _) ← runtime_action id;
       claim_replay_is_current (ra_state current) (ra_claim current) worker
         (json_epoch (cr_value replay)))
    "claimed" (claim_action_body id worker lease_seconds).

(** [claim_runtime_action_reconciliation]. *)
Definition claim_reconciliation_body (id worker : string) (lease_seconds : Z) : Store json :=
  '(a, _) ← runtime_action id;
  t ← now;
  ensure (is_pending (ra_state a) && inspectable t a)
    (InvalidTransition (outcome_state_text (ra_outcome_state a)) "reconcile");;
  current ← utc_now;
  expires ← format_after current lease_seconds;
  n ← update_action id (λ x, is_pending (ra_state x) && inspectable t x)
    (ra_lease worker expires reconcile);
  ensure (n =? 1) (InvalidTransition "already_claimed" "reconcile");;
  '(_, v) ← runtime_action id; mret v.
Definition claim_runtime_action_reconciliation (id worker_id : string) (lease_seconds : Z)
    (actor_id key : string) : Store command_result :=
  worker ← required_text worker_id "worker_id" 200;
  check_lease lease_seconds;;
  claim_command actor_id (action_path id "reconcile") key (lease_request worker lease_seconds)
    (λ replay, '(current, _) ← runtime_action id;
       if bool_decide (ra_outcome_state current = reconcile) then
         claim_replay_is_current (ra_state current) (ra_claim current) worker
           (json_epoch (cr_value replay))
       else mret false)
    "reconcile" (claim_reconciliation_body id worker lease_seconds).

(** [acknowledge_runtime_action]. *)
Definition acknowledge_body (id run_id attempt_id runtime_binding_id runtime_release_id : string)
    (state_generation_id : option string) (owner : string) (epoch expected_revision : Z) :
    Store (json * Z) :=
  '(a, _) ← runtime_action id;
  ensure (is_pending (ra_state a))
    (InvalidTransition (action_state_text (ra_state a)) "acked");;
  held ← claim_fence_is_current (ra_claim a) owner (Some epoch);
  ensure (held && deliverable (ra_outcome_state a)) (fence_mismatch "acked");;
  ensure (String.eqb (ra_run_id a) run_id && String.eqb (ra_attempt_id a) attempt_id
          && String.eqb (ra_runtime_binding_id a) runtime_binding_id
          && String.eqb (ra_runtime_release_id a) runtime_release_id)
    (InvalidTransition "runtime_binding_mismatch" "acked");;
  r ← run_at run_id expected_revision;
  validate_runtime_identity run_id r attempt_id runtime_binding_id runtime_release_id
    state_generation_id;;
  t ← now;
  n ← update_action id (fenced owner epoch deliverable)
    (λ x, ra_settle act_acked t (ra_failure_category x) x);
  ensure (n =? 1) (fence_mismatch "acked");;
  (if String.eqb (ra_kind a) "decision.resolve" && String.eqb (ru_state r) "resuming" then
     update_run run_id expected_revision "running" t;;
     update_attempt_state attempt_id "running"
   else update_run run_id expected_revision (ru_state r) t);;
  insert_event run_id (Some attempt_id) "runtime.action.acked"
    (action_event id (ra_kind a) None) None;;
  '(_, v) ← runtime_action id; mret (v, 200).
Definition acknowledge_request (run_id attempt_id runtime_binding_id runtime_release_id : string)
    (state_generation_id : option string) (owner : string) (epoch expected_revision : Z) : json :=
  JObj [("run_id", JStr run_id); ("attempt_id", JStr attempt_id);
        ("runtime_binding_id", JStr runtime_binding_id);
        ("runtime_release_id", JStr runtime_release_id);
        ("state_generation_id", opt_json state_generation_id); ("claim_owner", JStr owner);
        ("claim_epoch", JInt epoch); ("expected_revision", JInt expected_revision)].
Definition acknowledge_runtime_action (id run_id attempt_id runtime_binding_id
    runtime_release_id : string) (expected_revision : Z)
    (state_generation_id claim_owner : option string) (claim_epoch : option Z)
    (actor_id key : string) : Store command_result :=
  owner ← required_opt claim_owner "claim_owner" 200;
  epoch ← from_option claim_epoch (ValueError "claim_epoch must be a positive integer");
  check_epoch epoch;;
  command actor_id (action_path id "ack") key
    (acknowledge_request run_id attempt_id runtime_binding_id runtime_release_id
      state_generation_id owner epoch expected_revision)
    (acknowledge_body id run_id attempt_id runtime_binding_id runtime_release_id
      state_generation_id owner epoch expected_revision).

(** The shape of the four settlements by category: the fence, the run's
    revision, one guarded UPDATE, the run's new revision and an event.
    [fence] is what each tests first, in its own order. *)
Definition settle_body (id owner : string) (epoch expected_revision : Z)
    (fence : action_row → Store bool) (target : string)
    (allowed : outcome_state → bool) (change : string → action_row → action_row)
    (finish : action_row → run_row → string → Store unit) (event_type : string)
    (category : option string) : Store (json * Z) :=
  '(a, _) ← runtime_action id;
  held ← fence a;
  ensure held (fence_mismatch target);;
  r ← run_at (ra_run_id a) expected_revision;
  t ← now;
  n ← update_action id (fenced owner epoch allowed) (change t);
  ensure (n =? 1) (fence_mismatch target);;
  finish a r t;;
  insert_event (ra_run_id a) (Some (ra_attempt_id a)) event_type
    (action_event id (ra_kind a) category) None;;
  '(_, v) ← runtime_action id; mret (v, 200).

(** [reject_runtime_action]: the outcome is tested after the fence. *)
Definition reject_fence (owner : string) (epoch : Z) (a : action_row) : Store bool :=
  if is_pending (ra_state a) then
    held ← claim_fence_is_current (ra_claim a) owner (Some epoch);
    mret (held && deliverable (ra_outcome_state a))
  else mret false.
Definition reject_finish (expected_revision : Z) (a : action_row) (r : run_row) (t : string) :
    Store unit :=
  if String.eqb (ra_kind a) "control.pause" && String.eqb (ru_state r) "pause_requested" then
    update_attempt_state (ra_attempt_id a) "running";;
    update_run (ra_run_id a) expected_revision "running" t
  else update_run (ra_run_id a) expected_revision (ru_state r) t.
Definition reject_runtime_action (id claim_owner : string) (claim_epoch expected_revision : Z)
    (category actor_id key : string) : Store command_result :=
  category ← required_text category "category" 100;
  owner ← required_text claim_owner "claim_owner" 200;
  check_epoch claim_epoch;;
  command actor_id (action_path id "reject") key
    (settle_request owner claim_epoch expected_revision (Some category))
    (settle_body id owner claim_epoch expected_revision (reject_fence owner claim_epoch)
      "rejected" deliverable (λ t, ra_settle act_failed t (Some category))
      (reject_finish expected_revision) "runtime.action.rejected" (Some category)).

(** The other three test the outcome before the fence and only bump the run. *)
Definition outcome_fence (o : outcome_state) (owner : string) (epoch : Z) (a : action_row) :
    Store bool :=
  if is_pending (ra_state a) && bool_decide (ra_outcome_state a = o)
  then claim_fence_is_current (ra_claim a) owner (Some epoch) else mret false.
Definition bump_run (expected_revision : Z) (a : action_row) (r : run_row) (t : string) :
    Store unit := update_run (ra_run_id a) expected_revision (ru_state r) t.
Definition is_outcome (o o' : outcome_state) : bool := bool_decide (o' = o).

(** [mark_runtime_action_outcome_unknown]. *)
Definition mark_runtime_action_outcome_unknown (id claim_owner : string)
    (claim_epoch expected_revision : Z) (category actor_id key : string) : Store command_result :=
  owner ← required_text claim_owner "claim_owner" 200;
  category ← required_text category "category" 100;
  check_epoch claim_epoch;;
  command actor_id (action_path id "outcome-unknown") key
    (settle_request owner claim_epoch expected_revision (Some category))
    (settle_body id owner claim_epoch expected_revision (outcome_fence ready owner claim_epoch)
      "outcome_unknown" (is_outcome ready) (λ _, ra_release (Some category) outcome_unknown)
      (bump_run expected_revision) "runtime.action.outcome_unknown" (Some category)).

(** [defer_runtime_action_reconciliation]. *)
Definition defer_runtime_action_reconciliation (id claim_owner : string)
    (claim_epoch expected_revision : Z) (category actor_id key : string) : Store command_result :=
  owner ← required_text claim_owner "claim_owner" 200;
  category ← required_text category "category" 100;
  check_epoch claim_epoch;;
  command actor_id (action_path id "defer-reconcile") key
    (settle_request owner claim_epoch expected_revision (Some category))
    (settle_body id owner claim_epoch expected_revision
      (outcome_fence reconcile owner claim_epoch) "outcome_unknown" (is_outcome reconcile)
      (λ _, ra_release (Some category) outcome_unknown) (bump_run expected_revision)
      "runtime.action.reconciliation_deferred" (Some category)).

(** [retry_runtime_action_delivery]. *)
Definition retry_runtime_action_delivery (id claim_owner : string)
    (claim_epoch expected_revision : Z) (actor_id key : string) : Store command_result :=
  owner ← required_text claim_owner "claim_owner" 200;
  check_epoch claim_epoch;;
  command actor_id (action_path id "retry-delivery") key
    (settle_request owner claim_epoch expected_revision None)
    (settle_body id owner claim_epoch expected_revision
      (outcome_fence reconcile owner claim_epoch) "ready" (is_outcome reconcile)
      (λ _, ra_release None ready) (bump_run expected_revision)
      "runtime.action.retry_scheduled" None).
End RuntimeActions.
