(* ===== verification/PinReleases.v ===== *)
(** * Pin releases

    The commands of [control/store.py] over [runtime_pin_releases]: releasing
    the runtime release and state generation an attempt held, once no active
    attempt owns them, under the same leased claims as the action queue. *)

From S2P Require Import Prelude PyText Clock Json Schema Store Runs.
Open Scope Z_scope.

Definition pin_json (id : string) (r : pin_row) : json := JObj
  [("id", JStr id); ("run_id", JStr (pr_run_id r)); ("attempt_id", JStr (pr_attempt_id r));
   ("runtime_release_id", JStr (pr_runtime_release_id r));
   ("state_generation_id", JStr (pr_state_generation_id r));
   ("state", JStr (action_state_text (pr_state r)));
   ("claim_owner", opt_json (cl_owner (pr_claim r)));
   ("claim_epoch", JInt (cl_epoch (pr_claim r)));
   ("claim_expires_at", opt_json (cl_expires_at (pr_claim r)));
   ("failure_category", opt_json (pr_failure_category r));
   ("created_at", JStr (pr_created_at r)); ("acknowledged_at", opt_json (pr_acknowledged_at r));
   ("runtime_slot_id", opt_json (pr_runtime_slot_id r));
   ("runtime_artifact_digest", opt_json (pr_runtime_artifact_digest r));
   ("runtime_worker_protocol", opt_json (pr_runtime_worker_protocol r));
   ("runtime_identity_version", JInt (pr_runtime_identity_version r))].

(** The columns an UPDATE may change. *)
Definition pr_set (state : action_state) (c : claim) (failure_category acknowledged_at :
    option string) (r : pin_row) : pin_row :=
  PinRow (pr_run_id r) (pr_attempt_id r) (pr_runtime_release_id r) (pr_state_generation_id r)
    (pr_created_at r) (pr_runtime_slot_id r) (pr_runtime_artifact_digest r)
    (pr_runtime_worker_protocol r) (pr_runtime_identity_version r)
    state c failure_category acknowledged_at.
Definition pr_lease (worker expires : string) (r : pin_row) : pin_row :=
  pr_set (pr_state r) (take_claim worker expires (pr_claim r)) (pr_failure_category r)
    (pr_acknowledged_at r) r.

(** The attempt states in which its pin may go while its run goes on. *)
Definition RELEASED_ATTEMPT_STATES : list string := ["paused"; "failed"; "completed"; "canceled"].

(** The pins no active attempt owns; [<>] with a NULL attempt is not true in SQL
    but [!=] with [None] is in Python. *)
Definition pin_listed (d : db) (r : pin_row) : bool :=
  match runs d !! pr_run_id r, attempts d !! pr_attempt_id r with
  | Some run, Some a =>
      in_texts (ru_state run) TERMINAL_RUN_STATES
      || match ru_active_attempt_id run with
         | Some active => negb (String.eqb (pr_attempt_id r) active)
         | None => false
         end && in_texts (at_state a) RELEASED_ATTEMPT_STATES
  | _, _ => false
  end.
Definition pin_superseded (r : pin_row) (run : run_row) (a : attempt_row) : bool :=
  negb (bool_decide (ru_active_attempt_id run = Some (pr_attempt_id r)))
  && in_texts (at_state a) RELEASED_ATTEMPT_STATES.

(** [ORDER BY created_at, id]. *)
Definition pin_le (a b : string * pin_row) : bool :=
  pair_le (pr_created_at a.2, a.1) (pr_created_at b.2, b.1).
Definition pins_where (p : pin_row → bool) (d : db) : list (string * pin_row) :=
  isort pin_le (List.filter (λ x, p x.2) (map_to_list (runtime_pin_releases d))).

Definition pin_path (id action : string) : string :=
  "POST:/internal/v1/pin-releases/" +:+ id +:+ "/" +:+ action.

(** UNIQUE(attempt_id, runtime_release_id, state_generation_id). *)
Definition same_pin (attempt_id release generation : string) (r : pin_row) : bool :=
  String.eqb (pr_attempt_id r) attempt_id && String.eqb (pr_runtime_release_id r) release
  && String.eqb (pr_state_generation_id r) generation.

Section PinReleases.
Context `{Env}.

(** [_pin_release]. *)
Definition pin_release (id : string) : Store (pin_row * json) :=
  row ← query (λ d, runtime_pin_releases d !! id);
  r ← from_option row (NotFound "pin release" id); mret (r, pin_json id r).

(** [_insert_pin_release]: the release of an attempt's pin, once. *)
Definition insert_pin_release (run_id attempt_id : string) (a : attempt_row) (t : string) :
    Store string :=
  release ← required_opt (at_runtime_release_id a) "runtime_release_id" 200;
  generation ← required_opt (at_state_generation_id a) "state_generation_id" 200;
  ensure (at_runtime_identity_version a =? 1)
    (InvalidTransition "legacy_runtime_identity" "pin_release");;
  slot ← required_opt (at_runtime_slot_id a) "runtime_slot_id" 200;
  digest ← required_opt (at_runtime_artifact_digest a) "runtime_artifact_digest" 200;
  protocol ← required_opt (at_runtime_worker_protocol a) "runtime_worker_protocol" 100;
  existing ← query (λ d, List.filter (λ x : string * pin_row,
    same_pin attempt_id release generation x.2) (map_to_list (runtime_pin_releases d)));
  match existing with
  | (id, _) :: _ =>
      '(r, _) ← pin_release id;
      ensure ((pr_runtime_identity_version r =? 1)
              && bool_decide (pr_runtime_slot_id r = Some slot)
              && bool_decide (pr_runtime_artifact_digest r = Some digest)
              && bool_decide (pr_runtime_worker_protocol r = Some protocol))
        (InvalidTransition "runtime_identity_mismatch" "pin_release");;
      mret id
  | [] =>
      id ← new_id "pin_release";
      taken ← query (λ d, runtime_pin_releases d !! id);
      known ← query (λ d, bool_decide (is_Some (runs d !! run_id))
                          && bool_decide (is_Some (attempts d !! attempt_id)));
      ensure (bool_decide (taken = None) && known) IntegrityError;;
      execute (set_pin_releases (<[id := PinRow run_id attempt_id release generation t
        (Some slot) (Some digest) (Some protocol) 1 act_pending (Claim None None 0) None None]>));;
      mret id
  end.

(** An UPDATE of one row; the result is [cursor.rowcount]. *)
Definition update_pin (id : string) (where_ : pin_row → bool) (f : pin_row → pin_row) : Store Z :=
  row ← query (λ d, runtime_pin_releases d !! id);
  match row with
  | Some r => if where_ r then execute (set_pin_releases (<[id := f r]>));; mret 1 else mret 0
  | None => mret 0
  end.

(** [list_pending_pin_releases]: the query's argument reads the clock. *)
Definition list_pending_pin_releases (limit : Z) : Store (list json) :=
  ensure ((1 <=? limit) && (limit <=? 1000)) (ValueError "limit must be between 1 and 1000");;
  t ← now;
  rows ← query (λ d, pins_where (λ r,
    is_pending (pr_state r) && pin_listed d r && claim_free t (pr_claim r)) d);
  map_m (λ x : string * pin_row, '(_, v) ← pin_release x.1; mret v)
    (take (Z.to_nat limit) rows).

(** [claim_pin_release]. *)
Definition claim_pin_body (id worker : string) (lease_seconds : Z) : Store json :=
  '(p, _) ← pin_release id;
  ensure (is_pending (pr_state p)) (InvalidTransition (action_state_text (pr_state p)) "claimed");;
  '(r, _) ← run (pr_run_id p);
  a ← attempt (pr_attempt_id p);
  ensure (in_texts (ru_state r) TERMINAL_RUN_STATES || pin_superseded p r a)
    (InvalidTransition (ru_state r) "pin_release");;
  current ← utc_now;
  expires ← format_after current lease_seconds;
  n ← update_pin id
    (λ x, is_pending (pr_state x) && claim_free (format_time current) (pr_claim x))
    (pr_lease worker expires);
  ensure (n =? 1) (InvalidTransition "already_claimed" "claimed");;
  '(_, v) ← pin_release id; mret v.
Definition claim_pin_release (id worker_id : string) (lease_seconds : Z)
    (actor_id key : string) : Store command_result :=
  worker ← required_text worker_id "worker_id" 200;
  check_lease lease_seconds;;
  claim_command actor_id (pin_path id "claim") key (lease_request worker lease_seconds)
    (λ replay, '(current, _) ← pin_release id;
       claim_replay_is_current (pr_state current) (pr_claim current) worker
         (json_epoch (cr_value replay)))
    "claimed" (claim_pin_body id worker lease_seconds).

(** [_settle_pin_release]; [target] is acked or failed. *)
Definition settle_pin_body (id owner : string) (epoch expected_revision : Z)
    (target : action_state) (category : option string) : Store (json * Z) :=
  '(p, _) ← pin_release id;
  held ← (if is_pending (pr_state p)
          then claim_fence_is_current (pr_claim p) owner (Some epoch) else mret false);
  ensure held (fence_mismatch (action_state_text target));;
  r ← run_at (pr_run_id p) expected_revision;
  t ← now;
  n ← update_pin id (λ x, is_pending (pr_state x) && claim_is owner epoch (pr_claim x))
    (λ x, pr_set target (drop_claim (pr_claim x)) category (Some t) x);
  ensure (n =? 1) (fence_mismatch (action_state_text target));;
  update_run (pr_run_id p) expected_revision (ru_state r) t;;
  insert_event (pr_run_id p) (Some (pr_attempt_id p))
    ("runtime.pin_release." +:+ action_state_text target)
    (JObj [("pin_release_action_id", JStr id); ("category", opt_json category)]) None;;
  '(_, v) ← pin_release id; mret (v, 200).
Definition settle_pin_release (id claim_owner : string) (claim_epoch expected_revision : Z)
    (target : action_state) (category : option string) (actor_id key : string) :
    Store command_result :=
  owner ← required_text claim_owner "claim_owner" 200;
  check_epoch claim_epoch;;
  command actor_id (pin_path id (action_state_text target)) key
    (JObj [("claim_owner", JStr owner); ("claim_epoch", JInt claim_epoch);
           ("expected_revision", JInt expected_revision); ("category", opt_json category)])
    (settle_pin_body id owner claim_epoch expected_revision target category).

(** [acknowledge_pin_release] and [fail_pin_release]. *)
Definition acknowledge_pin_release (id claim_owner : string) (claim_epoch expected_revision : Z)
    (actor_id key : string) : Store command_result :=
  settle_pin_release id claim_owner claim_epoch expected_revision act_acked None actor_id key.
Definition fail_pin_release (id claim_owner : string) (claim_epoch expected_revision : Z)
    (category actor_id key : string) : Store command_result :=
  category ← required_text category "category" 100;
  settle_pin_release id claim_owner claim_epoch expected_revision act_failed (Some category)
    actor_id key.

(** [retry_pin_release]: a failed release is pending again; its epoch stays. *)
Definition retry_pin_body (id : string) (expected_revision : Z) : Store (json * Z) :=
  '(p, _) ← pin_release id;
  ensure (bool_decide (pr_state p = act_failed))
    (InvalidTransition (action_state_text (pr_state p)) "pending");;
  r ← run_at (pr_run_id p) expected_revision;
  t ← now;
  update_pin id (λ x, bool_decide (pr_state x = act_failed))
    (λ x, pr_set act_pending (drop_claim (pr_claim x)) None None x);;
  update_run (pr_run_id p) expected_revision (ru_state r) t;;
  insert_event (pr_run_id p) (Some (pr_attempt_id p)) "runtime.pin_release.retried"
    (JObj [("pin_release_action_id", JStr id)]) None;;
  '(_, v) ← pin_release id; mret (v, 200).
Definition retry_pin_release (id : string) (expected_revision : Z) (actor_id key : string) :
    Store command_result :=
  command actor_id (pin_path id "retry") key
    (JObj [("expected_revision", JInt expected_revision)])
    (retry_pin_body id expected_revision).
End PinReleases.
