(* ===== verification/RuntimeFacts.v ===== *)
(** * What the delivery queues guarantee

    The abstract life of one runtime action and of one pin release, the event
    log of a run, and what each command does to them when it answers. *)

From S2P Require Import Prelude PyText Clock Json Schema Store Runs RuntimeActions PinReleases.
Open Scope Z_scope.

(** ** The abstract life of an action *)

Definition same_action (r r' : action_row) : Prop :=
  ra_run_id r' = ra_run_id r ∧ ra_attempt_id r' = ra_attempt_id r ∧
  ra_runtime_binding_id r' = ra_runtime_binding_id r ∧
  ra_runtime_release_id r' = ra_runtime_release_id r ∧ ra_kind r' = ra_kind r ∧
  ra_payload_json r' = ra_payload_json r ∧ ra_created_at r' = ra_created_at r.

(** An action waits in the queue ([ready], no owner or an expired one), is out
    for delivery ([ready], owned), has an unknown outcome, is being inspected
    ([reconcile], owned), or is settled. *)
Inductive action_step (r r' : action_row) : Prop :=
| step_deliver worker expires t :
    ra_outcome_state r = ready → claim_free t (ra_claim r) = true →
    r' = ra_lease worker expires ready r → action_step r r'
| step_lose worker category :
    ra_outcome_state r = ready → cl_owner (ra_claim r) = Some worker →
    r' = ra_release (Some category) outcome_unknown r → action_step r r'
| step_inspect worker expires t :
    inspectable t r = true → r' = ra_lease worker expires reconcile r → action_step r r'
| step_defer worker category :
    ra_outcome_state r = reconcile → cl_owner (ra_claim r) = Some worker →
    r' = ra_release (Some category) outcome_unknown r → action_step r r'
| step_requeue worker :
    ra_outcome_state r = reconcile → cl_owner (ra_claim r) = Some worker →
    r' = ra_release None ready r → action_step r r'
| step_settle worker state t category :
    deliverable (ra_outcome_state r) = true → cl_owner (ra_claim r) = Some worker →
    state ≠ act_pending → r' = ra_settle state t category r → action_step r r'.

Definition action_moves (r r' : action_row) : Prop :=
  ra_state r = act_pending ∧ action_step r r'.

(** The rows a claim may be held on, and the shape of every reachable row. *)
Definition claim_wf (c : claim) : Prop :=
  0 <= cl_epoch c ∧ (is_Some (cl_owner c) ↔ is_Some (cl_expires_at c)) ∧
  (is_Some (cl_owner c) → 1 <= cl_epoch c).
Definition action_wf (r : action_row) : Prop :=
  claim_wf (ra_claim r) ∧
  match ra_state r, ra_outcome_state r with
  | act_pending, ready => ra_acknowledged_at r = None
  | act_pending, outcome_unknown =>
      cl_owner (ra_claim r) = None ∧ is_Some (ra_failure_category r) ∧ ra_acknowledged_at r = None
  | act_pending, reconcile => is_Some (cl_owner (ra_claim r)) ∧ ra_acknowledged_at r = None
  | _, o => o = ready ∧ cl_owner (ra_claim r) = None ∧ is_Some (ra_acknowledged_at r)
  end.

Ltac action_arm :=
  repeat match goal with H : _ ∧ _ |- _ => destruct H end; split_and!;
  first [ done | lia | by eexists | by intros [? [=]]
        | split; [intros _; by eexists | intros _; by eexists]
        | split; intros [? [=]] | intros _; lia ].
Lemma action_moves_wf r r' : action_wf r → action_moves r r' → action_wf r'.
Proof.
  intros [(He & Hiff & Hpos) Hr] [Hst Hs]. unfold action_wf, claim_wf. rewrite Hst in Hr.
  destruct Hs as [w e t Ho _ -> | w c Ho Hw -> | w e t Ho -> | w c Ho Hw -> | w Ho Hw ->
    | w s t c Ho Hw Hs ->]; unfold ra_lease, ra_release, ra_settle, ra_set, take_claim, drop_claim;
    cbn -[Z.le Z.add]; rewrite ?Hst.
  - rewrite Ho in Hr. action_arm.
  - rewrite Ho in Hr. action_arm.
  - destruct (ra_outcome_state r); action_arm.
  - rewrite Ho in Hr. action_arm.
  - rewrite Ho in Hr. action_arm.
  - destruct s; [done|action_arm..].
Qed.

(** Whatever happens to an action, its identity stays and its epoch counts up;
    with the same epoch it has no new owner. *)
Definition action_later (r r' : action_row) : Prop :=
  same_action r r' ∧ cl_epoch (ra_claim r) <= cl_epoch (ra_claim r') ∧
  (cl_epoch (ra_claim r') = cl_epoch (ra_claim r) →
   cl_owner (ra_claim r') = cl_owner (ra_claim r) ∨ cl_owner (ra_claim r') = None).

Lemma action_moves_later r r' : action_moves r r' → action_later r r'.
Proof.
  intros [_ Hs]. unfold action_later, same_action.
  destruct Hs as [w e t Ho _ -> | w c Ho Hw -> | w e t Ho -> | w c Ho Hw -> | w Ho Hw ->
    | w s t c Ho Hw Hs ->]; cbn -[Z.le Z.add]; naive_solver lia.
Qed.
#[export] Instance action_later_preorder : PreOrder action_later.
Proof.
  split; unfold action_later, same_action; [intros r; split_and!; (done || lia || tauto)|].
  intros r1 r2 r3 (S1 & L1 & E1) (S2 & L2 & E2). split; [intuition congruence|].
  split; [lia|]. intros E. destruct (E1 ltac:(lia)) as [A1 | A1], (E2 ltac:(lia)) as [A2 | A2];
    rewrite ?A2, ?A1; auto.
Qed.
Lemma action_steps_later r r' : rtc action_moves r r' → action_later r r'.
Proof. induction 1 as [|r r1 r2 H _ IH]; [reflexivity|]. etrans; [by apply action_moves_later|done]. Qed.
Lemma action_steps_settled r r' : rtc action_moves r r' → ra_state r ≠ act_pending → r' = r.
Proof. destruct 1 as [|r r1 r2 [H _] _]; naive_solver. Qed.

(** ** The steps of the commands *)

Section Steps.
Context `{Env}.

Lemma run_ok id w r v w' :
  run id w = Ok (r, v) w' ↔ runs (w_db w) !! id = Some r ∧ v = run_json id r ∧ w' = w.
Proof.
  unfold run, query, gets, from_option, mbind, M_bind, mret, M_ret, raise.
  destruct (runs (w_db w) !! id); naive_solver.
Qed.
Lemma attempt_ok id w a w' :
  attempt id w = Ok a w' ↔ attempts (w_db w) !! id = Some a ∧ w' = w.
Proof.
  unfold attempt, query, gets, from_option, mbind, M_bind, mret, M_ret, raise.
  destruct (attempts (w_db w) !! id); naive_solver.
Qed.
Lemma run_at_ok id expected w r w' :
  run_at id expected w = Ok r w' ↔
  runs (w_db w) !! id = Some r ∧ 0 <= expected ∧ ru_revision r = expected ∧ w' = w.
Proof.
  unfold run_at. rewrite bind_ok. split.
  - intros ([r0 v] & w1 & Hr & Hb). apply run_ok in Hr as (Hr & -> & ->). mgo. done.
  - intros (Hr & Hp & He & ->). exists (r, run_json id r), w. split; [by apply run_ok|].
    rewrite bind_ok. exists tt, w. split; [by apply expect_revision_ok|done].
Qed.
Lemma runtime_action_ok id w r v w' :
  runtime_action id w = Ok (r, v) w' ↔
  runtime_actions (w_db w) !! id = Some r ∧ w' = w ∧
  ∃ payload, loads (ra_payload_json r) = Some payload ∧ v = action_json id r payload.
Proof.
  unfold runtime_action, query, gets, json_loads, from_option, mbind, M_bind, mret, M_ret, raise.
  destruct (runtime_actions (w_db w) !! id) as [r0|]; [|naive_solver].
  destruct (loads (ra_payload_json r0)) eqn:E; naive_solver.
Qed.
Lemma pin_release_ok id w r v w' :
  pin_release id w = Ok (r, v) w' ↔
  runtime_pin_releases (w_db w) !! id = Some r ∧ v = pin_json id r ∧ w' = w.
Proof.
  unfold pin_release, query, gets, from_option, mbind, M_bind, mret, M_ret, raise.
  destruct (runtime_pin_releases (w_db w) !! id); naive_solver.
Qed.
Lemma update_action_ok id p f w n w' :
  update_action id p f w = Ok n w' ↔
  match runtime_actions (w_db w) !! id with
  | Some r => if p r then n = 1 ∧ w' = on_db (set_runtime_actions (<[id := f r]>)) w
              else n = 0 ∧ w' = w
  | None => n = 0 ∧ w' = w
  end.
Proof.
  unfold update_action, query, gets, execute, modify, mbind, M_bind, mret, M_ret.
  destruct (runtime_actions (w_db w) !! id) as [r|]; [|naive_solver].
  destruct (p r); naive_solver.
Qed.
Lemma update_pin_ok id p f w n w' :
  update_pin id p f w = Ok n w' ↔
  match runtime_pin_releases (w_db w) !! id with
  | Some r => if p r then n = 1 ∧ w' = on_db (set_pin_releases (<[id := f r]>)) w
              else n = 0 ∧ w' = w
  | None => n = 0 ∧ w' = w
  end.
Proof.
  unfold update_pin, query, gets, execute, modify, mbind, M_bind, mret, M_ret.
  destruct (runtime_pin_releases (w_db w) !! id) as [r|]; [|naive_solver].
  destruct (p r); naive_solver.
Qed.

(** The fence holds of the claim that is on the row, while it is live. *)
Lemma fence_holds c worker epoch w w' :
  claim_fence_is_current c worker epoch w = Ok true w' →
  cl_owner c = Some worker ∧ epoch = Some (cl_epoch c) ∧ w_db w' = w_db w ∧
  ∃ expires, cl_expires_at c = Some expires ∧
    str_lt (format_time (clock (w_ticks w))) expires = true.
Proof.
  unfold claim_fence_is_current. destruct (cl_expires_at c) as [e|]; [|by intros [= ]].
  destruct (bool_decide _ && bool_decide _) eqn:E; [|by intros [= ]].
  apply andb_true_iff in E as [E1%bool_decide_eq_true E2%bool_decide_eq_true].
  intros Hm. mgo. naive_solver.
Qed.
Lemma keeps_fence {V} (view : db → V) c worker epoch :
  keeps (λ w, view (w_db w)) (claim_fence_is_current c worker epoch).
Proof.
  intros w. unfold claim_fence_is_current. destruct (cl_expires_at c); [|done].
  by destruct (bool_decide _ && bool_decide _).
Qed.
Lemma fence_err c worker epoch w e w' :
  claim_fence_is_current c worker epoch w = Err e w' ↔ False.
Proof.
  unfold claim_fence_is_current. destruct (cl_expires_at c); [|done].
  by destruct (bool_decide _ && bool_decide _).
Qed.

(** The event an append files, and what else it touches. *)
Lemma insert_event_ok run_id att ty payload cause w v w' :
  insert_event run_id att ty payload cause w = Ok v w' →
  ∃ r e, runs (w_db w) !! run_id = Some r ∧
    e = EventRow (next_cursor (w_db w)) (id_factory "event" (w_ids w)) 1 run_id att
          (ru_latest_sequence r + 1) ty (format_time (clock (w_ticks w))) cause
          (json_text payload) ∧
    v = event_json e payload ∧
    w' = World (set_runs (alter (ru_sequence (ru_latest_sequence r + 1)) run_id)
                 (set_run_events (λ l, l ++ [e]) (w_db w))) (S (w_ticks w)) (S (w_ids w)).
Proof.
  unfold insert_event. intros Hm. apply bind_ok in Hm as ([r v0] & w1 & Hr & Hm).
  apply run_ok in Hr as (Hr & -> & ->). mgo. simpl in *. eexists r, _. done.
Qed.
End Steps.

#[export] Hint Rewrite @run_ok @attempt_ok @run_at_ok @runtime_action_ok @pin_release_ok
  @update_action_ok @update_pin_ok @fence_err : monad.

(** ** Views the steps leave alone *)

Section Views.
Context `{Env} {V : Type} (view : db → V).
Notation kept m := (keeps (λ w, view (w_db w)) m).

Lemma keeps_now_view : kept now. Proof. by intros w. Qed.
Lemma keeps_utc_now_view : kept utc_now. Proof. by intros w. Qed.
Lemma keeps_new_id_view kind : kept (new_id kind). Proof. by intros w. Qed.
Lemma keeps_execute_view f : (∀ d, view (f d) = view d) → kept (execute f).
Proof. intros Hf w. apply Hf. Qed.
Lemma keeps_run id : kept (run id).
Proof. unfold run. apply keeps_bind; eauto with keeps. Qed.
Lemma keeps_attempt id : kept (attempt id).
Proof. unfold attempt. apply keeps_bind; eauto with keeps. Qed.
Lemma keeps_expect_revision_view v r e : kept (expect_revision v r e).
Proof. unfold expect_revision. eauto with keeps. Qed.
Lemma keeps_run_at id e : kept (run_at id e).
Proof.
  unfold run_at. apply keeps_bind; [apply keeps_run|]. intros [r v].
  apply keeps_bind; [apply keeps_expect_revision_view|]. eauto with keeps.
Qed.
Lemma keeps_required_opt value name maximum : kept (required_opt value name maximum).
Proof. unfold required_opt. destruct value; eauto with keeps. Qed.
Lemma keeps_validate_identity run_id r att b rel g :
  kept (validate_runtime_identity run_id r att b rel g).
Proof.
  unfold validate_runtime_identity.
  repeat (apply keeps_bind; [eauto using keeps_required_opt, keeps_attempt with keeps|intros]).
  eauto with keeps.
Qed.
Lemma keeps_runtime_action id : kept (runtime_action id).
Proof.
  unfold runtime_action. repeat (apply keeps_bind; [eauto with keeps|intros]). eauto with keeps.
Qed.
Lemma keeps_pin_release id : kept (pin_release id).
Proof. unfold pin_release. apply keeps_bind; eauto with keeps. Qed.
Lemma keeps_insert_event run_id att ty payload cause :
  (∀ f d, view (set_runs f d) = view d) → (∀ f d, view (set_run_events f d) = view d) →
  kept (insert_event run_id att ty payload cause).
Proof.
  intros Hr He. unfold insert_event. apply keeps_bind; [apply keeps_run|intros [r v]].
  repeat (apply keeps_bind; [eauto using keeps_now_view, keeps_new_id_view, keeps_execute_view
    with keeps|intros]). eauto with keeps.
Qed.
Lemma keeps_format_after_view t n : kept (format_after t n).
Proof. unfold format_after. eauto with keeps. Qed.
End Views.
#[export] Hint Resolve keeps_now_view keeps_utc_now_view keeps_new_id_view keeps_run
  keeps_attempt keeps_expect_revision_view keeps_run_at keeps_required_opt
  keeps_validate_identity keeps_runtime_action keeps_pin_release keeps_format_after_view
  keeps_fence : keeps.
#[export] Hint Extern 1 (keeps _ (execute _)) =>
  (apply keeps_execute_view; intros; reflexivity) : keeps.
#[export] Hint Extern 1 (keeps _ (insert_event _ _ _ _ _)) =>
  (apply keeps_insert_event; intros; reflexivity) : keeps.

(** [frame] carries a view of the database over the runs in the context that
    leave it alone. *)
Ltac frame view :=
  repeat match goal with
  | H : ?m ?w = Ok _ ?w' |- _ =>
      assert_fails (constr_eq w w');
      let E := fresh "Ev" in
      assert (view (w_db w') = view (w_db w)) as E
        by (refine (keeps_ok (λ w, view (w_db w)) m w _ w' _ H); eauto with keeps);
      clear H; simpl in E
  end.

(** ** What the action commands do when they answer *)

Section ActionCommands.
Context `{Env}.

Lemma settle_body_ok id owner epoch expected fence target allowed change finish ty category
    w v code w' :
  (∀ a, keeps (λ w, runtime_actions (w_db w)) (fence a)) →
  (∀ a r t, keeps (λ w, runtime_actions (w_db w)) (finish a r t)) →
  settle_body id owner epoch expected fence target allowed change finish ty category w
    = Ok (v, code) w' →
  ∃ a t wf payload, runtime_actions (w_db w) !! id = Some a ∧ fence a w = Ok true wf ∧
    fenced owner epoch allowed a = true ∧
    runtime_actions (w_db w') = <[id := change t a]> (runtime_actions (w_db w)) ∧
    loads (ra_payload_json (change t a)) = Some payload ∧
    v = action_json id (change t a) payload ∧ code = 200.
Proof.
  intros Hf Hfin Hb. unfold settle_body in Hb.
  apply bind_ok in Hb as ([a v0] & w1 & Ha & Hb). rewrite runtime_action_ok in Ha.
  destruct Ha as (Ha & -> & _ & _ & _).
  apply bind_ok in Hb as (held & w2 & Hheld & Hb).
  assert (runtime_actions (w_db w2) = runtime_actions (w_db w)) as E2
    by (apply (keeps_ok _ _ _ _ _ (Hf a) Hheld)).
  apply bind_ok in Hb as (? & ? & Hens & Hb). apply ensure_ok in Hens as (-> & _ & ->).
  apply bind_ok in Hb as (r & w3 & Hr & Hb). rewrite run_at_ok in Hr.
  destruct Hr as (_ & _ & _ & ->).
  apply bind_ok in Hb as (t & w3 & Ht & Hb). apply now_ok in Ht as [_ ->].
  apply bind_ok in Hb as (n & w4 & Hu & Hb). rewrite update_action_ok in Hu.
  cbn [w_db w_ticks w_ids] in Hu. rewrite E2, Ha in Hu.
  apply bind_ok in Hb as (? & ? & Hens & Hb). apply ensure_ok in Hens as (Hn & _ & ->).
  destruct (fenced owner epoch allowed a) eqn:Ef; [|by destruct Hu as [-> _]].
  destruct Hu as [_ ->].
  apply bind_ok in Hb as (? & w5 & Hfn & Hb). apply (keeps_ok _ _ _ _ _ (Hfin a r t)) in Hfn.
  apply bind_ok in Hb as (? & w6 & He & Hb).
  assert (runtime_actions (w_db w6) = runtime_actions (w_db w5)) as E6
    by (refine (keeps_ok (λ w, runtime_actions (w_db w)) _ _ _ _ _ He); eauto with keeps).
  apply bind_ok in Hb as ([a' v'] & w7 & Hv & Hb). rewrite runtime_action_ok in Hv.
  destruct Hv as (Hv & -> & payload & Hl & ->). apply ret_ok in Hb as [[= <- <-] <-].
  rewrite E6, Hfn in *. cbn [w_db on_db set_runtime_actions runtime_actions] in *.
  rewrite E2 in *. rewrite lookup_insert_eq in Hv. injection Hv as <-.
  exists a, t, w2, payload. done.
Qed.

(** The settling commands by their effect on the row. *)
Definition acts (c : M world exc command_result) (id : string)
    (P : world → action_row → action_row → Prop) : Prop :=
  ∀ w r w', c w = Ok r w' →
  (cr_replayed r = true ∧ w' = w) ∨
  (cr_replayed r = false ∧ ∃ a a', runtime_actions (w_db w) !! id = Some a ∧
    P w a a' ∧ runtime_actions (w_db w') = <[id := a']> (runtime_actions (w_db w))).

Lemma acts_command id actor operation key request body (P : world → action_row → action_row → Prop) :
  (∀ w v code w', body w = Ok (v, code) w' →
    ∃ a a', runtime_actions (w_db w) !! id = Some a ∧ P w a a' ∧
      runtime_actions (w_db w') = <[id := a']> (runtime_actions (w_db w))) →
  acts (command actor operation key request body) id P.
Proof.
  intros Hb w r w' [_ Hc]%command_ok. destruct (idempotency_receipts _ !! _).
  - left. destruct Hc as (-> & _ & v & _ & ->). done.
  - right. destruct Hc as (v & code & w1 & Hw & (_ & -> & ->)%save_receipt_ok).
    split; [done|]. exact (Hb _ _ _ _ Hw).
Qed.
Lemma acts_checked {A} id (m : Store A) (f : A → Store command_result) P :
  pure m → (∀ a, m (World empty_db 0 0) = Ok a (World empty_db 0 0) → acts (f a) id P) →
  acts (m ≫= f) id P.
Proof.
  intros [[a Hm] | [e Hm]] Hf w r w'; unfold mbind, M_bind; rewrite Hm; [by apply Hf|done].
Qed.
(** A claim either replays a receipt whose lease is live, or runs its body. *)
Lemma claim_command_ok actor operation key request current target body w r w' :
  claim_command actor operation key request current target body w = Ok r w' →
  (is_Some (idempotency_receipts (w_db w) !! (actor, operation, key)) ∧
     cr_replayed r = true ∧ current r w = Ok true w') ∨
  (idempotency_receipts (w_db w) !! (actor, operation, key) = None ∧
     cr_replayed r = false ∧ ∃ v w1, body w = Ok v w1 ∧
       save_receipt actor operation key request v 200 w1 = Ok r w').
Proof.
  intros Hc. unfold claim_command in Hc. rewrite transaction_ok in Hc.
  apply bind_ok in Hc as (replay & w1 & Hr & Hc). rewrite receipt_ok in Hr.
  destruct Hr as (-> & _ & Hr), replay as [r0|].
  - left. destruct (idempotency_receipts _ !! _); [|done].
    apply bind_ok in Hc as (cur & w2 & Hcr & Hc).
    apply bind_ok in Hc as (? & ? & (-> & _ & ->)%ensure_ok & [<- <-]%ret_ok).
    destruct Hr as (_ & v & _ & [= ->]). eauto.
  - right. destruct (idempotency_receipts _ !! _); [by destruct Hr as (_ & v & _ & ?)|].
    apply bind_ok in Hc as (v & w2 & Hv & Hs). pose proof Hs as (_ & -> & _)%save_receipt_ok. eauto 10.
Qed.
Lemma acts_claim_command id actor operation key request current target body
    (P : world → action_row → action_row → Prop) :
  (∀ r, keeps w_db (current r)) →
  (∀ w v w', body w = Ok v w' →
    ∃ a a', runtime_actions (w_db w) !! id = Some a ∧ P w a a' ∧
      runtime_actions (w_db w') = <[id := a']> (runtime_actions (w_db w))) →
  ∀ w r w', claim_command actor operation key request current target body w = Ok r w' →
  (cr_replayed r = true ∧ w_db w' = w_db w ∧ ∃ w1, current r w = Ok true w1) ∨
  (cr_replayed r = false ∧ ∃ a a', runtime_actions (w_db w) !! id = Some a ∧
    P w a a' ∧ runtime_actions (w_db w') = <[id := a']> (runtime_actions (w_db w))).
Proof.
  intros Hcur Hb w r w' [(_ & Hr & Hc) | (_ & Hr & v & w1 & Hv & (_ & -> & ->)%save_receipt_ok)]%claim_command_ok.
  - left. split; [done|]. split; [apply (keeps_ok _ _ _ _ _ (Hcur r) Hc)|by exists w'].
  - right. split; [done|]. exact (Hb _ _ _ Hv).
Qed.

(** The claim is the caller's and its lease is live when the command starts. *)
Definition live (w : world) (c : claim) : Prop :=
  ∃ expires, cl_expires_at c = Some expires ∧
    str_lt (format_time (clock (w_ticks w))) expires = true.
Definition held_by (owner : string) (epoch : Z) (w : world) (a : action_row) : Prop :=
  ra_state a = act_pending ∧ cl_owner (ra_claim a) = Some owner ∧
  cl_epoch (ra_claim a) = epoch ∧ live w (ra_claim a).

Lemma fence_held a owner epoch w w' :
  ra_state a = act_pending →
  claim_fence_is_current (ra_claim a) owner (Some epoch) w = Ok true w' →
  held_by owner epoch w a.
Proof. intros Hst (Ho & [= ->] & _ & He)%fence_holds. done. Qed.
Lemma reject_fence_held owner epoch a w w' :
  reject_fence owner epoch a w = Ok true w' →
  held_by owner epoch w a ∧ deliverable (ra_outcome_state a) = true.
Proof.
  unfold reject_fence, is_pending. case_bool_decide; [|by intros [= ]].
  intros (b & w1 & Hf & [Hb _]%ret_ok)%bind_ok. apply andb_true_iff in Hb as [-> Hd].
  split; [by eapply fence_held|done].
Qed.
Lemma outcome_fence_held o owner epoch a w w' :
  outcome_fence o owner epoch a w = Ok true w' →
  held_by owner epoch w a ∧ ra_outcome_state a = o.
Proof.
  unfold outcome_fence, is_pending. destruct (bool_decide _ && bool_decide _) eqn:E; [|by intros [= ]].
  apply andb_true_iff in E as [?%bool_decide_eq_true ?%bool_decide_eq_true].
  intros Hf. split; [by eapply fence_held|done].
Qed.
Lemma keeps_reject_fence {V} (view : db → V) owner epoch a :
  keeps (λ w, view (w_db w)) (reject_fence owner epoch a).
Proof. unfold reject_fence. destruct (is_pending _); [apply keeps_bind|]; eauto with keeps. Qed.
Lemma keeps_outcome_fence {V} (view : db → V) o owner epoch a :
  keeps (λ w, view (w_db w)) (outcome_fence o owner epoch a).
Proof. unfold outcome_fence. destruct (_ && _); eauto with keeps. Qed.
Lemma keeps_update_run {V} (view : db → V) id e st t :
  (∀ f d, view (set_runs f d) = view d) → keeps (λ w, view (w_db w)) (update_run id e st t).
Proof. intros Hv w. apply Hv. Qed.
Lemma keeps_reject_finish e a r t :
  keeps (λ w, runtime_actions (w_db w)) (reject_finish e a r t).
Proof.
  unfold reject_finish, update_attempt_state. destruct (_ && _);
    [apply keeps_bind; [eauto with keeps|intros]|]; by apply keeps_update_run.
Qed.
Lemma keeps_bump_run e a r t : keeps (λ w, runtime_actions (w_db w)) (bump_run e a r t).
Proof. by apply keeps_update_run. Qed.

Lemma pure_check_epoch epoch : pure (check_epoch epoch : Store unit).
Proof. apply pure_ensure. Qed.
Lemma pure_required_opt o name n : pure (required_opt o name n : Store string).
Proof. destruct o; [apply pure_required_text|apply pure_raise]. Qed.
End ActionCommands.
#[export] Hint Resolve keeps_reject_fence keeps_outcome_fence keeps_reject_finish keeps_bump_run : keeps.
#[export] Hint Resolve pure_check_epoch pure_required_opt : pure.

(** [acts_args] steps over the argument checks of a settling command. *)
Ltac acts_args := repeat (apply acts_checked; [eauto with pure|intros ? ?]); mgo.
Ltac settle_case Hb a t :=
  let wf := fresh in let p := fresh in
  apply settle_body_ok in Hb as (a & t & wf & p & ? & Hb & ? & ? & _); [|eauto with keeps..].

Section ActionEffects.
Context `{Env}.

Lemma reject_acts id owner epoch expected category actor key :
  acts (reject_runtime_action id owner epoch expected category actor key) id (λ w a a',
    held_by (strip owner) epoch w a ∧ deliverable (ra_outcome_state a) = true ∧
    ∃ t, a' = ra_settle act_failed t (Some (strip category)) a).
Proof.
  acts_args. apply acts_command. intros w v code w' Hb. settle_case Hb a t.
  apply reject_fence_held in Hb as [? ?]. eauto 10.
Qed.
Lemma mark_acts id owner epoch expected category actor key :
  acts (mark_runtime_action_outcome_unknown id owner epoch expected category actor key) id
    (λ w a a', held_by (strip owner) epoch w a ∧ ra_outcome_state a = ready ∧
      a' = ra_release (Some (strip category)) outcome_unknown a).
Proof.
  acts_args. apply acts_command. intros w v code w' Hb. settle_case Hb a t.
  apply outcome_fence_held in Hb as [? ?]. eauto 10.
Qed.
Lemma defer_acts id owner epoch expected category actor key :
  acts (defer_runtime_action_reconciliation id owner epoch expected category actor key) id
    (λ w a a', held_by (strip owner) epoch w a ∧ ra_outcome_state a = reconcile ∧
      a' = ra_release (Some (strip category)) outcome_unknown a).
Proof.
  acts_args. apply acts_command. intros w v code w' Hb. settle_case Hb a t.
  apply outcome_fence_held in Hb as [? ?]. eauto 10.
Qed.
Lemma retry_acts id owner epoch expected actor key :
  acts (retry_runtime_action_delivery id owner epoch expected actor key) id
    (λ w a a', held_by (strip owner) epoch w a ∧ ra_outcome_state a = reconcile ∧
      a' = ra_release None ready a).
Proof.
  acts_args. apply acts_command. intros w v code w' Hb. settle_case Hb a t.
  apply outcome_fence_held in Hb as [? ?]. eauto 10.
Qed.

(** An acknowledgement names the action's run, attempt, binding and release. *)
Definition acknowledges (run_id attempt_id binding release owner : string) (epoch : Z)
    (w : world) (a a' : action_row) : Prop :=
  held_by owner epoch w a ∧ deliverable (ra_outcome_state a) = true ∧
  ra_run_id a = run_id ∧ ra_attempt_id a = attempt_id ∧
  ra_runtime_binding_id a = binding ∧ ra_runtime_release_id a = release ∧
  (∃ r, runs (w_db w) !! run_id = Some r ∧ ru_active_attempt_id r = Some attempt_id) ∧
  ∃ t, a' = ra_settle act_acked t (ra_failure_category a) a.

Lemma validate_identity_active run_id r att b rel g w a w' :
  validate_runtime_identity run_id r att b rel g w = Ok a w' →
  ru_active_attempt_id r = Some att ∧ at_run_id a = run_id ∧ attempts (w_db w) !! att = Some a ∧
  w' = w.
Proof.
  unfold validate_runtime_identity, required_opt. destruct g; intros Hm; mgo.
  repeat match goal with H : _ && _ = true |- _ => apply andb_true_iff in H as [? ?] end.
  repeat match goal with H : bool_decide _ = true |- _ => apply bool_decide_eq_true in H
    | H : String.eqb _ _ = true |- _ => apply String.eqb_eq in H end. naive_solver.
Qed.

Lemma acknowledge_body_ok id run_id att b rel g owner epoch expected w v code w' :
  acknowledge_body id run_id att b rel g owner epoch expected w = Ok (v, code) w' →
  ∃ a a', runtime_actions (w_db w) !! id = Some a ∧
    acknowledges run_id att b rel owner epoch w a a' ∧
    runtime_actions (w_db w') = <[id := a']> (runtime_actions (w_db w)).
Proof.
  intros Hb. unfold acknowledge_body in Hb.
  apply bind_ok in Hb as ([a v0] & w1 & Ha & Hb). rewrite runtime_action_ok in Ha.
  destruct Ha as (Ha & -> & _ & _ & _).
  apply bind_ok in Hb as (? & ? & (Hst%bool_decide_eq_true & _ & ->)%ensure_ok & Hb).
  apply bind_ok in Hb as (held & w2 & Hheld & Hb).
  pose proof (keeps_ok w_db _ _ _ _ (keeps_fence (λ d, d) _ _ _) Hheld) as E2.
  apply bind_ok in Hb as (? & ? & (Hd & _ & ->)%ensure_ok & Hb).
  apply andb_true_iff in Hd as [-> Hd]. apply fence_held in Hheld; [|done].
  apply bind_ok in Hb as (? & ? & (Hids & _ & ->)%ensure_ok & Hb).
  rewrite !andb_true_iff, !String.eqb_eq in Hids. destruct Hids as [[[<- <-] <-] <-].
  apply bind_ok in Hb as (r & ? & Hr & Hb). rewrite run_at_ok, E2 in Hr.
  destruct Hr as (Hr & _ & _ & ->).
  apply bind_ok in Hb as (? & ? & (Hact & _ & _ & ->)%validate_identity_active & Hb).
  apply bind_ok in Hb as (t & w3 & [_ ->]%now_ok & Hb).
  apply bind_ok in Hb as (n & w4 & Hu & Hb). rewrite update_action_ok in Hu.
  cbn [w_db w_ticks w_ids] in Hu. rewrite E2, Ha in Hu.
  apply bind_ok in Hb as (? & ? & (Hn & _ & ->)%ensure_ok & Hb).
  destruct (fenced owner epoch deliverable a); [|by destruct Hu as [-> _]].
  destruct Hu as [_ ->].
  exists a, (ra_settle act_acked t (ra_failure_category a) a). split; [done|].
  split; [unfold acknowledges; eauto 15|].
  apply bind_ok in Hb as ([] & w5 & Hup & Hb).
  apply bind_ok in Hb as (? & w6 & Hev & Hb). apply bind_ok in Hb as ([? ?] & w7 & Hv & Hb).
  rewrite ret_ok in Hb. destruct Hb as [_ <-].
  assert (runtime_actions (w_db w5) = <[id := ra_settle act_acked t (ra_failure_category a) a]>
    (runtime_actions (w_db w))) as E5.
  { rewrite <- E2. unfold update_run, update_attempt_state in Hup.
    destruct (_ && _); mgo; simpl; by rewrite E2. }
  rewrite <- E5. frame runtime_actions. congruence.
Qed.

Lemma acknowledge_acts id run_id att b rel expected g owner epoch actor key :
  acts (acknowledge_runtime_action id run_id att b rel expected g owner epoch actor key) id
    (λ w a a', ∃ o e, owner = Some o ∧ epoch = Some e ∧
      acknowledges run_id att b rel (strip o) e w a a').
Proof.
  unfold acknowledge_runtime_action. destruct owner as [o|], epoch as [e|].
  2-4: intros w r w' Hc; mgo; discriminate.
  unfold required_opt. acts_args. simplify_eq. apply acts_command. intros w v code w' Hb.
  apply acknowledge_body_ok in Hb as (x & x' & ? & ? & ?). eauto 10.
Qed.

(** The two claims. *)
Lemma claim_action_body_ok id worker lease w v w' :
  claim_action_body id worker lease w = Ok v w' →
  ∃ a r expires, runtime_actions (w_db w) !! id = Some a ∧
    ra_state a = act_pending ∧ ra_outcome_state a = ready ∧
    runs (w_db w) !! ra_run_id a = Some r ∧
    ru_active_attempt_id r = Some (ra_attempt_id a) ∧
    delivery_blocked (ra_kind a) (ru_state r) = false ∧
    claim_free (format_time (clock (w_ticks w))) (ra_claim a) = true ∧
    dt_add_seconds (clock (w_ticks w)) lease = Some expires ∧
    runtime_actions (w_db w') = <[id := ra_lease worker (format_time expires) ready a]>
      (runtime_actions (w_db w)).
Proof.
  intros Hb. unfold claim_action_body in Hb.
  apply bind_ok in Hb as ([a v0] & w1 & Ha & Hb). rewrite runtime_action_ok in Ha.
  destruct Ha as (Ha & -> & _ & _ & _).
  apply bind_ok in Hb as (? & ? & (Hs & _ & ->)%ensure_ok & Hb).
  unfold is_pending in Hs. rewrite andb_true_iff, !bool_decide_eq_true in Hs. destruct Hs as [Hst Ho].
  apply bind_ok in Hb as ([r v1] & ? & (Hr & _ & ->)%run_ok & Hb).
  apply bind_ok in Hb as (? & ? & (Hd & _ & ->)%ensure_ok & Hb).
  rewrite andb_true_iff, bool_decide_eq_true, negb_true_iff in Hd. destruct Hd as [Hact Hd].
  mgo. match goal with H : match _ with _ => _ end |- _ => rename H into Hu end.
  cbn [w_db w_ticks w_ids] in *. rewrite Ha in Hu. unfold is_pending in Hu.
  rewrite (bool_decide_eq_true_2 _ Hst), (bool_decide_eq_true_2 _ Ho) in Hu. simpl in Hu.
  destruct (claim_free _ _) eqn:Ef; [|by destruct Hu as [-> _]]. destruct Hu as [_ ->].
  rewrite Ho in *. exists a, r.
  match goal with H : dt_add_seconds _ _ = Some ?e |- _ => exists e end. split_and!; try done.
  match goal with H : match ?p with _ => _ end _ = Ok _ _ |- _ => destruct p; mgo end.
  done.
Qed.

Lemma claim_reconciliation_body_ok id worker lease w v w' :
  claim_reconciliation_body id worker lease w = Ok v w' →
  ∃ a expires, runtime_actions (w_db w) !! id = Some a ∧
    ra_state a = act_pending ∧
    inspectable (format_time (clock (w_ticks w))) a = true ∧
    runtime_actions (w_db w') = <[id := ra_lease worker expires reconcile a]>
      (runtime_actions (w_db w)).
Proof.
  intros Hb. unfold claim_reconciliation_body in Hb.
  apply bind_ok in Hb as ([a v0] & w1 & Ha & Hb). rewrite runtime_action_ok in Ha.
  destruct Ha as (Ha & -> & _ & _ & _). mgo.
  match goal with H : is_pending _ && _ = true |- _ => rename H into Hs end.
  match goal with H : match _ with _ => _ end |- _ => rename H into Hu end.
  cbn [w_db w_ticks w_ids] in *. rewrite Ha, Hs in Hu. destruct Hu as [-> ->].
  unfold is_pending in Hs. rewrite andb_true_iff, bool_decide_eq_true in Hs. destruct Hs as [Hst Hi].
  exists a. eexists. split; [done|]. split; [done|]. split; [done|].
  match goal with H : match ?p with _ => _ end _ = Ok _ _ |- _ => destruct p; mgo end.
  done.
Qed.

Lemma claim_action_effect id worker lease actor key w r w' :
  claim_runtime_action id worker lease actor key w = Ok r w' →
  (cr_replayed r = true ∧ w_db w' = w_db w ∧ ∃ a, runtime_actions (w_db w) !! id = Some a ∧
     ∃ e, json_epoch (cr_value r) = Some e ∧ held_by (strip worker) e w a) ∨
  (cr_replayed r = false ∧ ∃ a expires, runtime_actions (w_db w) !! id = Some a ∧
    ra_state a = act_pending ∧ ra_outcome_state a = ready ∧
    claim_free (format_time (clock (w_ticks w))) (ra_claim a) = true ∧
    runtime_actions (w_db w') = <[id := ra_lease (strip worker) expires ready a]>
      (runtime_actions (w_db w))).
Proof.
  unfold claim_runtime_action, check_lease. intros Hc. mgo.
  match goal with H : claim_command _ _ _ _ _ _ _ _ = _ |- _ => rename H into Hc end.
  apply (acts_claim_command id _ _ _ _ _ _ _ (λ w a a', ra_state a = act_pending ∧
    ra_outcome_state a = ready ∧ claim_free (format_time (clock (w_ticks w))) (ra_claim a) = true ∧
    ∃ expires, a' = ra_lease (strip worker) expires ready a)) in Hc.
  - destruct Hc as [(Hr & Hd & w1 & Hcur) | (Hr & a & a' & Ha & (? & ? & ? & e & ->) & Hd)];
      [left|right; eauto 10]. split; [done|]. split; [done|].
    apply bind_ok in Hcur as ([a v] & w2 & Ha & Hcur). rewrite runtime_action_ok in Ha.
    destruct Ha as (Ha & -> & _). exists a. split; [done|].
    unfold claim_replay_is_current, is_pending in Hcur. case_bool_decide; [|by mgo].
    pose proof Hcur as (_ & He & _)%fence_holds. rewrite He in *. exists (cl_epoch (ra_claim a)).
    split; [done|]. by eapply fence_held.
  - intros r0. apply keeps_bind; [apply (keeps_runtime_action (λ d, d))|]. intros [a v].
    unfold claim_replay_is_current. destruct (is_pending _); [apply (keeps_fence (λ d, d))|]. done.
  - intros w0 v w1 (a & r0 & e & ? & ? & ? & _ & _ & _ & ? & _ & ?)%claim_action_body_ok. eauto 15.
Qed.
Lemma claim_reconciliation_effect id worker lease actor key w r w' :
  claim_runtime_action_reconciliation id worker lease actor key w = Ok r w' →
  (cr_replayed r = true ∧ w_db w' = w_db w) ∨
  (cr_replayed r = false ∧ ∃ a expires, runtime_actions (w_db w) !! id = Some a ∧
    ra_state a = act_pending ∧ inspectable (format_time (clock (w_ticks w))) a = true ∧
    runtime_actions (w_db w') = <[id := ra_lease (strip worker) expires reconcile a]>
      (runtime_actions (w_db w))).
Proof.
  unfold claim_runtime_action_reconciliation, check_lease. intros Hc. mgo.
  match goal with H : claim_command _ _ _ _ _ _ _ _ = _ |- _ => rename H into Hc end.
  apply (acts_claim_command id _ _ _ _ _ _ _ (λ w a a', ra_state a = act_pending ∧
    inspectable (format_time (clock (w_ticks w))) a = true ∧
    ∃ expires, a' = ra_lease (strip worker) expires reconcile a)) in Hc.
  - destruct Hc as [(? & ? & _) | (? & a & a' & ? & (? & ? & e & ->) & ?)]; [by left|right].
    split; [done|]. by exists a, e.
  - intros r0. apply keeps_bind; [apply (keeps_runtime_action (λ d, d))|]. intros [a v].
    case_bool_decide; [|done].
    unfold claim_replay_is_current. destruct (is_pending _); [apply (keeps_fence (λ d, d))|]. done.
  - intros w0 v w1 (a & e & ? & ? & ? & ?)%claim_reconciliation_body_ok. eauto 15.
Qed.
End ActionEffects.
