(* ===== verification/PinFacts.v ===== *)
(** * What the pin releases guarantee

    The abstract life of a pin release, what each command does to its row, and
    the uniqueness of the release of one pin. *)

From S2P Require Import Prelude PyText Clock Json Schema Store Runs RuntimeActions PinReleases RuntimeFacts.
Open Scope Z_scope.

(** A pin may be taken away from its attempt. *)
Definition pin_free (d : db) (p : pin_row) : Prop :=
  ∃ r a, runs d !! pr_run_id p = Some r ∧ attempts d !! pr_attempt_id p = Some a ∧
    (in_texts (ru_state r) TERMINAL_RUN_STATES = true ∨
     ru_active_attempt_id r ≠ Some (pr_attempt_id p) ∧
     in_texts (at_state a) RELEASED_ATTEMPT_STATES = true).

Definition same_identity (p p' : pin_row) : Prop :=
  pr_run_id p' = pr_run_id p ∧ pr_attempt_id p' = pr_attempt_id p ∧
  pr_runtime_release_id p' = pr_runtime_release_id p ∧
  pr_state_generation_id p' = pr_state_generation_id p ∧
  pr_created_at p' = pr_created_at p ∧ pr_runtime_slot_id p' = pr_runtime_slot_id p ∧
  pr_runtime_artifact_digest p' = pr_runtime_artifact_digest p ∧
  pr_runtime_worker_protocol p' = pr_runtime_worker_protocol p ∧
  pr_runtime_identity_version p' = pr_runtime_identity_version p.

Inductive pin_step (d : db) (p p' : pin_row) : Prop :=
| pin_take worker expires t :
    pr_state p = act_pending → pin_free d p → claim_free t (pr_claim p) = true →
    p' = pr_lease worker expires p → pin_step d p p'
| pin_settle worker target category t :
    pr_state p = act_pending → cl_owner (pr_claim p) = Some worker → target ≠ act_pending →
    p' = pr_set target (drop_claim (pr_claim p)) category (Some t) p → pin_step d p p'
| pin_again :
    pr_state p = act_failed →
    p' = pr_set act_pending (drop_claim (pr_claim p)) None None p → pin_step d p p'.

Definition pin_later (p p' : pin_row) : Prop :=
  same_identity p p' ∧ cl_epoch (pr_claim p) <= cl_epoch (pr_claim p') ∧
  (pr_state p = act_acked → p' = p).

Lemma pin_step_later d p p' : pin_step d p p' → pin_later p p'.
Proof.
  unfold pin_later, same_identity.
  destruct 1 as [w e t Hst _ _ -> | w s c t Hst _ _ -> | Hst ->];
    cbn -[Z.le Z.add]; rewrite Hst; split_and!; (done || lia).
Qed.
#[export] Instance pin_later_preorder : PreOrder pin_later.
Proof.
  split; unfold pin_later, same_identity; [intros p; split_and!; (done || lia)|].
  intros p1 p2 p3 (S1 & L1 & E1) (S2 & L2 & E2). split; [intuition congruence|].
  split; [lia|]. intros Hst. rewrite (E1 Hst) in *. by apply E2.
Qed.

(** At most one release per pin: UNIQUE(attempt, release, generation). *)
Definition pins_unique (d : db) : Prop :=
  ∀ i j p q, runtime_pin_releases d !! i = Some p → runtime_pin_releases d !! j = Some q →
    same_pin (pr_attempt_id q) (pr_runtime_release_id q) (pr_state_generation_id q) p = true →
    i = j.

Section PinCommands.
Context `{Env}.

Lemma claim_pin_body_ok id worker lease w v w' :
  claim_pin_body id worker lease w = Ok v w' →
  ∃ p expires, runtime_pin_releases (w_db w) !! id = Some p ∧
    pr_state p = act_pending ∧ pin_free (w_db w) p ∧
    claim_free (format_time (clock (w_ticks w))) (pr_claim p) = true ∧
    runtime_pin_releases (w_db w') = <[id := pr_lease worker expires p]>
      (runtime_pin_releases (w_db w)).
Proof.
  intros Hb. unfold claim_pin_body in Hb.
  apply bind_ok in Hb as ([p v0] & w1 & (Hp & _ & ->)%pin_release_ok & Hb).
  apply bind_ok in Hb as (? & ? & (Hst & _ & ->)%ensure_ok & Hb).
  apply bind_ok in Hb as ([r v1] & ? & (Hr & _ & ->)%run_ok & Hb).
  apply bind_ok in Hb as (a & ? & (Ha & ->)%attempt_ok & Hb).
  apply bind_ok in Hb as (? & ? & (Hd & _ & ->)%ensure_ok & Hb). mgo.
  match goal with H : match _ with _ => _ end |- _ => rename H into Hu end.
  cbn [w_db w_ticks w_ids] in *. rewrite Hp, Hst in Hu. simpl in Hu.
  destruct (claim_free _ _) eqn:Ef; [|by destruct Hu as [-> _]]. destruct Hu as [_ ->].
  apply bool_decide_eq_true in Hst. exists p. eexists. split; [done|]. split; [done|]. split.
  { exists r, a. split; [done|]. split; [done|]. apply orb_true_iff in Hd as [Hd | Hd]; [by left|].
    unfold pin_superseded in Hd. rewrite andb_true_iff, negb_true_iff, bool_decide_eq_false in Hd.
    by right. }
  split; [done|].
  match goal with H : match ?p with _ => _ end _ = Ok _ _ |- _ => destruct p; mgo end. done.
Qed.

Lemma claim_pin_effect id worker lease actor key w r w' :
  claim_pin_release id worker lease actor key w = Ok r w' →
  (cr_replayed r = true ∧ w_db w' = w_db w) ∨
  (cr_replayed r = false ∧ ∃ p p', runtime_pin_releases (w_db w) !! id = Some p ∧
    pin_step (w_db w) p p' ∧
    runtime_pin_releases (w_db w') = <[id := p']> (runtime_pin_releases (w_db w))).
Proof.
  unfold claim_pin_release, check_lease. intros Hc. mgo.
  match goal with H : claim_command _ _ _ _ _ _ _ _ = _ |- _ => rename H into Hc end.
  apply claim_command_ok in Hc as [(_ & Hr & Hc) | (_ & Hr & v & w1 & Hv & (_ & -> & ->)%save_receipt_ok)].
  - left. split; [done|]. refine (keeps_ok w_db _ _ _ _ _ Hc).
    apply keeps_bind; [apply (keeps_pin_release (λ d, d))|]. intros [p v].
    unfold claim_replay_is_current. destruct (is_pending _); [apply (keeps_fence (λ d, d))|]. done.
  - right. split; [done|]. apply claim_pin_body_ok in Hv as (p & e & ? & ? & ? & ? & ?).
    exists p, (pr_lease (strip worker) e p). split; [done|]. split; [|done]. by eapply pin_take.
Qed.

(** The tail both writers share: the run's revision and the event. *)
Lemma pin_tail run_id expected st t att ty payload id w v code w' :
  (update_run run_id expected st t;;
   insert_event run_id att ty payload None;;
   '(_, v) ← pin_release id; mret (v, 200)) w = Ok (v, code) w' →
  runtime_pin_releases (w_db w') = runtime_pin_releases (w_db w) ∧
  ∃ p, runtime_pin_releases (w_db w) !! id = Some p ∧ v = pin_json id p ∧ code = 200.
Proof.
  intros Hb. apply bind_ok in Hb as (? & w1 & H1 & Hb).
  apply bind_ok in Hb as (? & w2 & H2 & Hb).
  apply bind_ok in Hb as ([p v0] & w3 & (Hp & -> & ->)%pin_release_ok & [[= <- <-] <-]%ret_ok).
  unfold update_run in H1. apply execute_ok in H1 as [_ ->].
  assert (runtime_pin_releases (w_db w2) = runtime_pin_releases (w_db w)) as E.
  { refine (keeps_ok (λ w, runtime_pin_releases (w_db w)) _ _ _ _ _ H2). eauto with keeps. }
  split; [done|]. exists p. by rewrite <- E.
Qed.

Lemma settle_pin_body_ok id owner epoch expected target category w v code w' :
  settle_pin_body id owner epoch expected target category w = Ok (v, code) w' →
  ∃ p t, runtime_pin_releases (w_db w) !! id = Some p ∧ pr_state p = act_pending ∧
    cl_owner (pr_claim p) = Some owner ∧ cl_epoch (pr_claim p) = epoch ∧ live w (pr_claim p) ∧
    runtime_pin_releases (w_db w') =
      <[id := pr_set target (drop_claim (pr_claim p)) category (Some t) p]>
        (runtime_pin_releases (w_db w)).
Proof.
  intros Hb. unfold settle_pin_body in Hb.
  apply bind_ok in Hb as ([p v0] & w1 & (Hp & _ & ->)%pin_release_ok & Hb).
  apply bind_ok in Hb as (held & w2 & Hheld & Hb).
  apply bind_ok in Hb as (? & ? & (-> & _ & ->)%ensure_ok & Hb).
  unfold is_pending in Hheld. case_bool_decide as Hst; [|by mgo].
  apply fence_holds in Hheld as (Ho & [= ->] & Hdb & Hl).
  apply bind_ok in Hb as (r & ? & Hr & Hb). rewrite run_at_ok in Hr. destruct Hr as (_ & _ & _ & ->).
  apply bind_ok in Hb as (t & w3 & [_ ->]%now_ok & Hb).
  apply bind_ok in Hb as (n & w4 & Hu & Hb). rewrite update_pin_ok in Hu.
  cbn [w_db w_ticks w_ids] in Hu. rewrite Hdb, Hp in Hu.
  apply bind_ok in Hb as (? & ? & (Hn & _ & ->)%ensure_ok & Hb).
  match type of Hu with (if ?b then _ else _) => destruct b end; [|by destruct Hu as [-> _]].
  destruct Hu as [_ ->]. apply pin_tail in Hb as [E _].
  exists p, t. by split_and!.
Qed.

Lemma retry_pin_body_ok id expected w v code w' :
  retry_pin_body id expected w = Ok (v, code) w' →
  ∃ p, runtime_pin_releases (w_db w) !! id = Some p ∧ pr_state p = act_failed ∧
    runtime_pin_releases (w_db w') = <[id := pr_set act_pending (drop_claim (pr_claim p)) None None p]>
      (runtime_pin_releases (w_db w)).
Proof.
  intros Hb. unfold retry_pin_body in Hb.
  apply bind_ok in Hb as ([p v0] & w1 & (Hp & _ & ->)%pin_release_ok & Hb).
  apply bind_ok in Hb as (? & ? & (Hst%bool_decide_eq_true & _ & ->)%ensure_ok & Hb).
  apply bind_ok in Hb as (r & ? & Hr & Hb). rewrite run_at_ok in Hr. destruct Hr as (_ & _ & _ & ->).
  apply bind_ok in Hb as (t & w3 & [_ ->]%now_ok & Hb).
  apply bind_ok in Hb as (n & w4 & Hu & Hb). rewrite update_pin_ok in Hu.
  cbn [w_db w_ticks w_ids] in Hu. rewrite Hp, (bool_decide_eq_true_2 _ Hst) in Hu.
  destruct Hu as [_ ->]. apply pin_tail in Hb as [E _]. exists p. split_and!; try done.
Qed.

(** Uniqueness only looks at the identity of the rows. *)
Lemma pins_unique_update d d' id p p' :
  runtime_pin_releases d !! id = Some p → same_identity p p' →
  runtime_pin_releases d' = <[id := p']> (runtime_pin_releases d) →
  pins_unique d → pins_unique d'.
Proof.
  intros Hp Hs E Hu. unfold pins_unique. rewrite E.
  assert (∀ i q, <[id := p']> (runtime_pin_releases d) !! i = Some q →
    ∃ q0, runtime_pin_releases d !! i = Some q0 ∧ same_identity q0 q) as Hold.
  { intros i q [[<- <-] | [_ Hq]]%lookup_insert_Some; [by exists p|].
    exists q. split; [done|]. by split_and!. }
  intros i j q1 q2 (q1' & H1 & S1)%Hold (q2' & H2 & S2)%Hold Hsame.
  apply (Hu i j q1' q2' H1 H2). revert Hsame. unfold same_pin, same_identity in *.
  destruct S1 as (_ & -> & -> & -> & _), S2 as (_ & -> & -> & -> & _). done.
Qed.

(** The identity of an attempt that [_insert_pin_release] requires. *)
Definition pin_of (attempt_id : string) (a : attempt_row) (p : pin_row) : Prop :=
  ∃ rel gen slot dig proto,
    at_runtime_release_id a = Some rel ∧ at_state_generation_id a = Some gen ∧
    at_runtime_slot_id a = Some slot ∧ at_runtime_artifact_digest a = Some dig ∧
    at_runtime_worker_protocol a = Some proto ∧ at_runtime_identity_version a = 1 ∧
    pr_attempt_id p = attempt_id ∧ pr_runtime_release_id p = strip rel ∧
    pr_state_generation_id p = strip gen ∧ pr_runtime_slot_id p = Some (strip slot) ∧
    pr_runtime_artifact_digest p = Some (strip dig) ∧
    pr_runtime_worker_protocol p = Some (strip proto) ∧ pr_runtime_identity_version p = 1.

Lemma required_opt_ok o name n w t w' :
  required_opt o name n w = Ok t w' ↔
  ∃ s, o = Some s ∧ strip s ≠ "" ∧ slen s <= n ∧ t = strip s ∧ w' = w.
Proof.
  unfold required_opt. destruct o as [s|]; [rewrite required_text_ok|rewrite raise_ok]; naive_solver.
Qed.
Lemma same_pin_true att rel gen p :
  same_pin att rel gen p = true ↔
  pr_attempt_id p = att ∧ pr_runtime_release_id p = rel ∧ pr_state_generation_id p = gen.
Proof. unfold same_pin. rewrite !andb_true_iff, !String.eqb_eq. tauto. Qed.

(** The rows that already hold a pin. *)
Definition holders (att rel gen : string) (d : db) : list (string * pin_row) :=
  List.filter (λ x : string * pin_row, same_pin att rel gen x.2)
    (map_to_list (runtime_pin_releases d)).
Lemma elem_of_holders att rel gen d i p :
  (i, p) ∈ holders att rel gen d ↔
  runtime_pin_releases d !! i = Some p ∧ same_pin att rel gen p = true.
Proof.
  unfold holders. rewrite list_elem_of_In, List.filter_In, <- list_elem_of_In, elem_of_map_to_list.
  done.
Qed.

Lemma insert_pin_ok run_id att a t w id w' :
  insert_pin_release run_id att a t w = Ok id w' →
  (∃ p, runtime_pin_releases (w_db w') !! id = Some p ∧ pin_of att a p) ∧
  (w' = w ∨
   ∃ p, runtime_pin_releases (w_db w) !! id = None ∧
     w_db w' = set_pin_releases (<[id := p]>) (w_db w) ∧ pr_run_id p = run_id ∧
     pr_state p = act_pending ∧ pr_claim p = Claim None None 0 ∧
     holders (pr_attempt_id p) (pr_runtime_release_id p) (pr_state_generation_id p) (w_db w) = []).
Proof.
  intros Hi. unfold insert_pin_release in Hi.
  apply bind_ok in Hi as (rel & ? & (rel0 & Hrel & _ & _ & -> & ->)%required_opt_ok & Hi).
  apply bind_ok in Hi as (gen & ? & (gen0 & Hgen & _ & _ & -> & ->)%required_opt_ok & Hi).
  apply bind_ok in Hi as (? & ? & (Hv%Z.eqb_eq & _ & ->)%ensure_ok & Hi).
  apply bind_ok in Hi as (slot & ? & (slot0 & Hslot & _ & _ & -> & ->)%required_opt_ok & Hi).
  apply bind_ok in Hi as (dig & ? & (dig0 & Hdig & _ & _ & -> & ->)%required_opt_ok & Hi).
  apply bind_ok in Hi as (proto & ? & (proto0 & Hproto & _ & _ & -> & ->)%required_opt_ok & Hi).
  apply bind_ok in Hi as (rows & ? & [-> ->]%query_ok & Hi).
  fold (holders att (strip rel0) (strip gen0) (w_db w)) in Hi.
  destruct (holders att (strip rel0) (strip gen0) (w_db w)) as [|[i p] l] eqn:Eh.
  - mgo. rename select (bool_decide _ && _ = true) into Hf. apply andb_true_iff in Hf as [Hf _].
    apply bool_decide_eq_true in Hf. cbn [w_db w_ticks w_ids on_db] in *. split.
    + simpl. rewrite lookup_insert_eq. eexists. split; [done|]. unfold pin_of. eauto 25.
    + right. eexists. split_and!; try done.
  - assert ((i, p) ∈ holders att (strip rel0) (strip gen0) (w_db w)) as Hin
      by (rewrite Eh; left).
    apply elem_of_holders in Hin as [Hp (Ha & Hr & Hg)%same_pin_true].
    apply bind_ok in Hi as ([r v] & ? & (Hr' & _ & ->)%pin_release_ok & Hi).
    rewrite Hp in Hr'. injection Hr' as <-.
    apply bind_ok in Hi as (? & ? & (Hsame & _ & ->)%ensure_ok & [<- <-]%ret_ok).
    rewrite !andb_true_iff, !bool_decide_eq_true, Z.eqb_eq in Hsame.
    destruct Hsame as [[[? ?] ?] ?]. split; [|by left].
    exists p. split; [done|]. unfold pin_of. eauto 25.
Qed.

(** One checked text column, in the run that is known and in the goal. *)
Ltac pin_text Hi w' :=
  let s := fresh in let Hne := fresh in let Hle := fresh in
  apply bind_ok in Hi as (? & ? & (s & [= <-] & Hne & Hle & -> & ->)%required_opt_ok & Hi);
  rewrite (bind_run _ _ _ _ w') by (apply required_opt_ok; eexists;
    split_and!; [reflexivity|exact Hne|exact Hle|reflexivity..]).

Lemma pins_unique_insert d d' i q :
  pins_unique d → runtime_pin_releases d' = <[i := q]> (runtime_pin_releases d) →
  holders (pr_attempt_id q) (pr_runtime_release_id q) (pr_state_generation_id q) d = [] →
  pins_unique d'.
Proof.
  intros Hu E Hh. unfold pins_unique. rewrite E.
  assert (∀ i p, runtime_pin_releases d !! i = Some p →
    same_pin (pr_attempt_id q) (pr_runtime_release_id q) (pr_state_generation_id q) p = true →
    False) as Hno.
  { intros i' p' Hp' Hs. assert ((i', p') ∈ (holders (pr_attempt_id q) (pr_runtime_release_id q)
      (pr_state_generation_id q) d)) as Hin by by apply elem_of_holders.
    rewrite Hh in Hin. by apply not_elem_of_nil in Hin. }
  intros i1 j p1 p2 [[<- <-] | [_ H1]]%lookup_insert_Some [[<- <-] | [_ H2]]%lookup_insert_Some Hs;
    [done|exfalso..|by eapply Hu].
  - apply same_pin_true in Hs as (E1 & E2 & E3). apply (Hno j p2 H2), same_pin_true. done.
  - by apply (Hno i1 p1 H1).
Qed.
Lemma insert_pin_unique run_id att a t w id w' :
  pins_unique (w_db w) → insert_pin_release run_id att a t w = Ok id w' → pins_unique (w_db w').
Proof.
  intros Hu [_ [-> | (q & Hn & E & _ & _ & _ & Hh)]]%insert_pin_ok; [done|].
  eapply pins_unique_insert; [done| |done]. by rewrite E.
Qed.

(** While the row is there, inserting again answers it and changes nothing. *)
Lemma insert_pin_again run_id run_id' att a t t' w id w1 w' p :
  insert_pin_release run_id att a t w = Ok id w1 →
  pins_unique (w_db w') → runtime_pin_releases (w_db w') !! id = Some p → pin_of att a p →
  insert_pin_release run_id' att a t' w' = Ok id w'.
Proof.
  intros Hi Hu' Hp Hof.
  destruct Hof as (rel & gen & slot & dig & proto & Hrel & Hgen & Hslot & Hdig &
    Hproto & Hv & Hatt & Hprel & Hpgen & Hpslot & Hpdig & Hpproto & Hpv).
  unfold insert_pin_release in Hi. rewrite Hrel, Hgen, Hslot, Hdig, Hproto in Hi.
  unfold insert_pin_release. rewrite Hrel, Hgen, Hslot, Hdig, Hproto.
  do 2 pin_text Hi w'. apply bind_ok in Hi as (_ & ? & (_ & _ & ->)%ensure_ok & Hi).
  rewrite (bind_run _ _ _ tt w') by (apply ensure_ok; by rewrite Hv).
  do 3 pin_text Hi w'. clear Hi.
  rewrite (bind_run (query _) _ _ (holders att (strip rel) (strip gen) (w_db w')) w')
    by (by apply query_ok).
  assert ((id, p) ∈ holders att (strip rel) (strip gen) (w_db w')) as Hin
    by (apply elem_of_holders; split; [done|by apply same_pin_true]).
  destruct (holders att (strip rel) (strip gen) (w_db w')) as [|[i q] l] eqn:Eh;
    [by apply not_elem_of_nil in Hin|].
  assert ((i, q) ∈ holders att (strip rel) (strip gen) (w_db w')) as [Hq Hsq]%elem_of_holders
    by (rewrite Eh; left).
  assert (i = id) as -> by (apply (Hu' i id q p); by rewrite ?Hatt, ?Hprel, ?Hpgen).
  rewrite Hp in Hq. injection Hq as <-.
  rewrite (bind_run _ _ _ (p, pin_json id p) w') by (by apply pin_release_ok).
  rewrite (bind_run _ _ _ tt w'); [done|]. apply ensure_ok.
  rewrite Hpv, Hpslot, Hpdig, Hpproto, !bool_decide_eq_true_2 by done. done.
Qed.
Lemma pin_of_identity att a p p' : pin_of att a p → same_identity p p' → pin_of att a p'.
Proof.
  intros (rel & gen & slot & dig & proto & Hof) (_ & E1 & E2 & E3 & _ & E4 & E5 & E6 & E7).
  exists rel, gen, slot, dig, proto. by rewrite E1, E2, E3, E4, E5, E6, E7.
Qed.
End PinCommands.
