(* ===== verification/RunClosing.v ===== *)
(** * Closing the open work of a run

    What [fail_runtime_action] of [control/store.py] does besides settling its
    action: the run's pending source intents and their decisions, its waits on
    source imports and its unfinished artifact materializations are closed, the
    run, its attempt and its thread are marked failed, and the runtime pin of the
    attempt is queued for release.

    The guards of the tables hold at these UPDATEs whatever the data: a
    materialization is failed while its version is still pending, and a version
    only after a materialization of it has been failed, as
    [artifact_materialization_state_guard] and [artifact_versions_state_guard]
    demand. *)

From S2P Require Import Prelude PyText Clock Json Schema Store Runs RuntimeActions PinReleases.
Open Scope Z_scope.

(** [ORDER BY created_at, id] over any table. *)
Definition created_le {A} (created : A → string) (a b : string * A) : bool :=
  pair_le (created a.2, a.1) (created b.2, b.1).
Definition oldest_first {A} (created : A → string) (p : string * A → bool) (m : gmap string A) :
    list (string * A) := isort (created_le created) (List.filter p (map_to_list m)).

(** An UPDATE of every row that matches. *)
Definition update_where {A} (p : string → A → bool) (f : A → A) (m : gmap string A) : gmap string A :=
  map_imap (λ i r, Some (if p i r then f r else r)) m.

(** [list(dict.fromkeys(l))]. *)
Fixpoint from_keys (l : list string) : list string :=
  match l with
  | [] => []
  | x :: l' => x :: List.filter (λ y, negb (String.eqb x y)) (from_keys l')
  end.

(** Changed columns. *)
Definition si_cancel (t : string) (r : intent_row) : intent_row :=
  IntentRow (si_run_id r) intent_canceled (si_decision_id r) (si_revision r + 1)
    (si_created_at r) t.
Definition de_expire (t : string) (r : decision_row) : decision_row :=
  DecisionRow (de_run_id r) (de_attempt_id r) (de_kind r) (de_prompt r) (de_options_json r)
    decision_expired (de_resolution_json r) (de_revision r + 1) (de_created_at r) (Some t)
    (de_runtime_decision_ref r) (de_runtime_decision_revision r).
Definition wa_cancel (t : string) (r : waiter_row) : waiter_row :=
  WaiterRow (wa_action_id r) (wa_run_id r) (wa_resolution_id r) waiter_canceled
    (wa_created_at r) (Some t).
Definition fence_claim (c : claim) : claim := Claim None None (cl_epoch c + 1).
Definition im_cancel (t : string) (r : import_row) : import_row :=
  ImportRow (im_run_id r) (im_resolution_id r) import_canceled (fence_claim (im_claim r)) (Some t).
Definition im_hand_over (wt : waiter_row) (r : import_row) : import_row :=
  ImportRow (wa_run_id wt) (wa_resolution_id wt) (im_state r) (fence_claim (im_claim r))
    (im_completed_at r).
Definition ma_fail (category t : string) (r : materialization_row) : materialization_row :=
  MaterializationRow (ma_artifact_version_id r) mat_failed (fence_claim (ma_claim r))
    (Some category) (ma_created_at r) (Some t).
Definition av_fail (r : version_row) : version_row :=
  VersionRow (av_run_id r) (av_attempt_id r) version_failed.
Definition at_fail (t : string) (r : attempt_row) : attempt_row :=
  AttemptRow (at_run_id r) (at_number r) "failed" (at_runtime_binding_id r)
    (at_runtime_release_id r) (at_checkpoint_uri r) (at_source_attempt_id r)
    (at_source_checkpoint_uri r) (at_started_at r) (Some t)
    (at_state_generation_id r) (at_dispatch_owner r) (at_dispatch_expires_at r)
    (at_runtime_identity_version r) (at_runtime_slot_id r) (at_runtime_artifact_digest r)
    (at_runtime_worker_protocol r).
Definition th_fail (t : string) (r : thread_row) : thread_row :=
  ThreadRow (th_workspace_id r) (th_title r) "failed" None (th_revision r + 1)
    (th_created_at r) t (th_archived_at r).

(** The rows of the WHERE clauses. *)
Definition open_intent (run_id : string) (r : intent_row) : bool :=
  String.eqb (si_run_id r) run_id && bool_decide (si_state r = intent_pending).
Definition open_waiter (run_id : string) (r : waiter_row) : bool :=
  String.eqb (wa_run_id r) run_id && bool_decide (wa_state r = waiter_waiting).
Definition unfinished (s : materialization_state) : bool :=
  match s with mat_pending | mat_claimed => true | _ => false end.
Definition of_run (run_id : string) (v : version_row) : bool := String.eqb (av_run_id v) run_id.
Definition of_attempt (run_id attempt_id : string) (v : version_row) : bool :=
  of_run run_id v && String.eqb (av_attempt_id v) attempt_id.
Definition pending_version (mine : version_row → bool) (d : db) (r : materialization_row) : bool :=
  match artifact_versions d !! ma_artifact_version_id r with
  | Some v => mine v && bool_decide (av_state v = version_pending)
  | None => false
  end.

(** The run states in which a waiter is dead. *)
Definition ENDING_RUN_STATES : list string := ["cancel_requested"; "canceled"; "completed"; "failed"].

(** [_first_live_source_import_waiter] with its excluded run. *)
Definition live_waiter (action_id excluded_run_id : string) (d : db) (wt : waiter_row) : bool :=
  String.eqb (wa_action_id wt) action_id && bool_decide (wa_state wt = waiter_waiting)
  && negb (String.eqb (wa_run_id wt) excluded_run_id)
  && match runs d !! wa_run_id wt with
     | Some r =>
         negb (in_texts (ru_state r) ENDING_RUN_STATES)
         && match threads d !! ru_thread_id r with
            | Some th => bool_decide (th_active_run_id th = Some (wa_run_id wt))
            | None => false
            end
     | None => false
     end.
Definition first_live_source_import_waiter (action_id excluded_run_id : string) (d : db) :
    option waiter_row :=
  snd <$> head (oldest_first wa_created_at (λ x, live_waiter action_id excluded_run_id d x.2)
                 (source_import_waiters d)).

Definition texts_json (l : list string) : json := JArr (map JStr l).

(** [result if any(result.values()) else {}]. *)
Definition closed_json (intents decisions imports artifacts : list string) : json :=
  match intents ++ decisions ++ imports ++ artifacts with
  | [] => JObj []
  | _ => JObj
      [("source_intent_ids", texts_json intents); ("source_decision_ids", texts_json decisions);
       ("source_import_ids", texts_json imports);
       ("artifact_materialization_ids", texts_json artifacts)]
  end.

Section RunClosing.
Context `{Env}.

(** [_fence_source_imports_for_run]. *)
Definition fence_source_import (run_id t action_id : string) : Store unit :=
  replacement ← query (first_live_source_import_waiter action_id run_id);
  execute (set_import_actions (alter (λ r,
    if bool_decide (im_state r = import_pending) then
      match replacement with None => im_cancel t r | Some wt => im_hand_over wt r end
    else r) action_id)).
Definition fence_source_imports_for_run (run_id t : string) : Store (list string) :=
  rows ← query (λ d, oldest_first wa_created_at (λ x, open_waiter run_id x.2)
    (source_import_waiters d));
  match from_keys (map (λ x : string * waiter_row, wa_action_id x.2) rows) with
  | [] => mret []
  | action_ids =>
      execute (set_import_waiters (update_where (λ _ r, open_waiter run_id r) (wa_cancel t)));;
      map_m (fence_source_import run_id t) action_ids;;
      mret action_ids
  end.

(** [_fence_artifact_materializations_for_run] and [..._for_attempt]. *)
Definition fence_artifact_materializations (mine : version_row → bool) (category t : string) :
    Store (list string) :=
  rows ← query (λ d, oldest_first ma_created_at
    (λ x, pending_version mine d x.2 && unfinished (ma_state x.2))
    (artifact_materialization_actions d));
  match rows with
  | [] => mret []
  | _ =>
      let action_ids := map fst rows in
      let version_ids := map (λ x : string * materialization_row, ma_artifact_version_id x.2) rows in
      execute (set_materializations (update_where
        (λ i r, in_texts i action_ids && unfinished (ma_state r)) (ma_fail category t)));;
      execute (set_artifact_versions (update_where
        (λ i r, in_texts i version_ids && bool_decide (av_state r = version_pending)) av_fail));;
      mret action_ids
  end.
Definition fence_artifact_materializations_for_run (run_id t : string) : Store (list string) :=
  fence_artifact_materializations (of_run run_id) "run_terminated" t.
Definition fence_artifact_materializations_for_attempt (run_id attempt_id t : string) :
    Store (list string) :=
  fence_artifact_materializations (of_attempt run_id attempt_id) "attempt_superseded" t.

(** [_close_source_work_for_run]. *)
Definition close_source_work_for_run (run_id t : string) : Store json :=
  rows ← query (λ d, oldest_first si_created_at (λ x, open_intent run_id x.2) (source_intents d));
  let intent_ids := map fst rows in
  let decision_ids := omap (λ x : string * intent_row, si_decision_id x.2) rows in
  (match intent_ids with
   | [] => mret tt
   | _ => execute (set_source_intents (update_where (λ _ r, open_intent run_id r) (si_cancel t)))
   end);;
  (match decision_ids with
   | [] => mret tt
   | _ => execute (set_decisions (update_where
       (λ i r, in_texts i decision_ids && bool_decide (de_state r = decision_pending))
       (de_expire t)))
   end);;
  import_ids ← fence_source_imports_for_run run_id t;
  artifact_ids ← fence_artifact_materializations_for_run run_id t;
  mret (closed_json intent_ids decision_ids import_ids artifact_ids).

(** [UPDATE threads ... WHERE id = ? AND active_run_id = ?]. *)
Definition fail_thread (thread_id run_id t : string) : Store unit :=
  execute (set_threads (alter (λ th,
    if bool_decide (th_active_run_id th = Some run_id) then th_fail t th else th) thread_id)).

(** The pin of an attempt that had a release and a generation. *)
Definition release_attempt_pin (run_id attempt_id t : string) : Store unit :=
  a ← attempt attempt_id;
  if bool_decide (is_Some (at_runtime_release_id a))
     && bool_decide (is_Some (at_state_generation_id a))
  then insert_pin_release run_id attempt_id a t;; mret tt
  else mret tt.

(** [fail_runtime_action]. *)
Definition fail_body (id owner : string) (epoch expected_revision : Z) (category : string) :
    Store (json * Z) :=
  '(a, _) ← runtime_action id;
  held ← reject_fence owner epoch a;
  ensure held (fence_mismatch "failed");;
  r ← run_at (ra_run_id a) expected_revision;
  t ← now;
  n ← update_action id (fenced owner epoch deliverable) (ra_settle act_failed t (Some category));
  ensure (n =? 1) (fence_mismatch "failed");;
  closed ← close_source_work_for_run (ra_run_id a) t;
  update_run (ra_run_id a) expected_revision "failed" t;;
  execute (set_attempts (alter (at_fail t) (ra_attempt_id a)));;
  fail_thread (ru_thread_id r) (ra_run_id a) t;;
  release_attempt_pin (ra_run_id a) (ra_attempt_id a) t;;
  insert_event (ra_run_id a) (Some (ra_attempt_id a)) "runtime.action.failed"
    (JObj [("runtime_action_id", JStr id); ("kind", JStr (ra_kind a));
           ("category", JStr category); ("closed_source_work", closed)]) None;;
  '(_, v) ← runtime_action id; mret (v, 200).
Definition fail_runtime_action (id claim_owner : string) (claim_epoch expected_revision : Z)
    (category actor_id key : string) : Store command_result :=
  category ← required_text category "category" 100;
  owner ← required_text claim_owner "claim_owner" 200;
  check_epoch claim_epoch;;
  command actor_id (action_path id "fail") key
    (settle_request owner claim_epoch expected_revision (Some category))
    (fail_body id owner claim_epoch expected_revision category).
End RunClosing.
