(* ===== verification/ClosingFacts.v ===== *)
(** * What closing a run does to each table

    The tables after [fail_runtime_action], row by row. *)

From S2P Require Import Prelude PyText Clock Json Schema Store Runs RuntimeActions PinReleases RuntimeFacts PinFacts RunClosing.
Open Scope Z_scope.

(** ** Updates of all matching rows *)

Section Updates.
Context {A : Type}.
Implicit Types (m : gmap string A) (p : string → A → bool) (f : A → A).

Lemma lookup_update_where p f m i :
  update_where p f m !! i = (λ r, if p i r then f r else r) <$> m !! i.
Proof. unfold update_where. rewrite map_lookup_imap. by destruct (m !! i). Qed.
Lemma update_where_none p f m :
  (∀ i r, m !! i = Some r → p i r = false) → update_where p f m = m.
Proof.
  intros Hp. apply map_eq. intros i. rewrite lookup_update_where.
  destruct (m !! i) as [r|] eqn:E; simpl; [|done]. by rewrite (Hp i r E).
Qed.
Lemma elem_of_oldest (created : A → string) (p : string * A → bool) m i r :
  (i, r) ∈ oldest_first created p m ↔ m !! i = Some r ∧ p (i, r) = true.
Proof.
  unfold oldest_first. rewrite elem_of_isort, list_elem_of_In, List.filter_In, <- list_elem_of_In,
    elem_of_map_to_list. done.
Qed.
Lemma oldest_head (created : A → string) (p : string * A → bool) m x :
  head (oldest_first created p m) = Some x → m !! x.1 = Some x.2 ∧ p x = true.
Proof.
  intros Hh. destruct x as [i r]. cbn [fst snd]. rewrite <- (elem_of_oldest created).
  apply head_Some in Hh as [l ->]. left.
Qed.
Lemma oldest_nil (created : A → string) (p : string * A → bool) m :
  oldest_first created p m = [] → ∀ i r, m !! i = Some r → p (i, r) = false.
Proof.
  intros E i r Hr. destruct (p (i, r)) eqn:Hp; [|done]. exfalso.
  assert ((i, r) ∈ oldest_first created p m) as Hin by by apply elem_of_oldest.
  rewrite E in Hin. by apply not_elem_of_nil in Hin.
Qed.
End Updates.

Lemma in_texts_spec x l : in_texts x l = true ↔ x ∈ l.
Proof.
  unfold in_texts. rewrite existsb_exists. setoid_rewrite <- list_elem_of_In.
  setoid_rewrite String.eqb_eq. naive_solver.
Qed.
Lemma elem_of_from_keys x l : x ∈ from_keys l ↔ x ∈ l.
Proof.
  induction l as [|y l IH]; simpl; [done|].
  rewrite !elem_of_cons, list_elem_of_In, List.filter_In, <- list_elem_of_In, IH.
  destruct (String.eqb_spec y x) as [->|]; naive_solver.
Qed.
Lemma NoDup_from_keys l : NoDup (from_keys l).
Proof.
  induction l as [|x l IH]; simpl; [constructor|]. constructor.
  - rewrite list_elem_of_In, List.filter_In, String.eqb_refl. by intros [_ ?].
  - apply NoDup_ListNoDup, List.NoDup_filter, NoDup_ListNoDup, IH.
Qed.

(** ** The fenced imports *)

(** An import its run gives up: handed to the oldest live waiter of another run,
    or canceled; its claim is void either way. *)
Definition fenced_import (run_id t : string) (d : db) (i : string) (r : import_row) : import_row :=
  if bool_decide (im_state r = import_pending) then
    match first_live_source_import_waiter i run_id d with
    | None => im_cancel t r | Some wt => im_hand_over wt r
    end
  else r.

(** The tables the closing writes, and the rest. *)
Definition rest_view (d : db) :=
  (runs d, attempts d, threads d, (runtime_actions d, runtime_pin_releases d, run_events d)).
Definition waits_view (d : db) := (source_import_waiters d, runs d, threads d).

Section Closing.
Context `{Env}.

Lemma first_live_waits i run_id d d' :
  waits_view d' = waits_view d →
  first_live_source_import_waiter i run_id d' = first_live_source_import_waiter i run_id d.
Proof.
  unfold waits_view, first_live_source_import_waiter. intros [= -> E2 E3].
  unfold live_waiter. by rewrite E2, E3.
Qed.

Lemma fence_source_import_ok run_id t i w u w' :
  fence_source_import run_id t i w = Ok u w' →
  w' = on_db (set_import_actions (alter (fenced_import run_id t (w_db w) i) i)) w.
Proof. unfold fence_source_import. intros Hm. mgo. reflexivity. Qed.

Lemma fence_loop run_id t ids : ∀ w us w', NoDup ids →
  map_m (fence_source_import run_id t) ids w = Ok us w' →
  ∃ g, w' = on_db (set_import_actions g) w ∧
    ∀ i, g (source_import_actions (w_db w)) !! i =
      if bool_decide (i ∈ ids) then fenced_import run_id t (w_db w) i <$> source_import_actions (w_db w) !! i
      else source_import_actions (w_db w) !! i.
Proof.
  induction ids as [|j ids IH]; intros w us w' Hnd Hm; simpl in Hm.
  { apply ret_ok in Hm as [_ <-]. exists id. split; [by destruct w as [[] ? ?]|]. done. }
  apply bind_ok in Hm as (u & w1 & H1%fence_source_import_ok & Hm).
  apply bind_ok in Hm as (us' & w2 & H2 & [_ <-]%ret_ok).
  apply NoDup_cons in Hnd as [Hj Hnd].
  destruct (IH w1 us' w2 Hnd H2) as (g & -> & Hg). subst w1.
  exists (λ m, g (alter (fenced_import run_id t (w_db w) j) j m)). split; [done|].
  intros i. cbn [on_db w_db source_import_actions set_import_actions] in Hg. rewrite Hg.
  destruct (decide (i = j)) as [-> | Hne].
  - rewrite bool_decide_eq_false_2, bool_decide_eq_true_2 by (done || left).
    by rewrite lookup_alter_eq.
  - rewrite lookup_alter_ne by done. destruct (decide (i ∈ ids)).
    + rewrite !bool_decide_eq_true_2 by (done || by right).
      destruct (source_import_actions (w_db w) !! i); simpl; [|done].
      reflexivity.
    + rewrite !bool_decide_eq_false_2; [done| |done]. by intros [? | ?]%elem_of_cons.
Qed.

(** The six tables after the closing of a run, in terms of the tables before. *)
Definition gave_up (run_id : string) (d : db) (i : string) : Prop :=
  ∃ j wt, source_import_waiters d !! j = Some wt ∧ open_waiter run_id wt = true ∧
    wa_action_id wt = i.
Definition asked_by (run_id : string) (d : db) (i : string) : Prop :=
  ∃ j s, source_intents d !! j = Some s ∧ open_intent run_id s = true ∧ si_decision_id s = Some i.
Definition unfinished_version (mine : version_row → bool) (d : db) (i : string) : Prop :=
  ∃ j r, artifact_materialization_actions d !! j = Some r ∧ ma_artifact_version_id r = i ∧
    pending_version mine d r = true ∧ unfinished (ma_state r) = true.
Definition expired (t : string) (r : decision_row) : decision_row :=
  if bool_decide (de_state r = decision_pending) then de_expire t r else r.
Record closed (run_id t : string) (d d' : db) : Prop := {
  cl_intents : source_intents d' =
    update_where (λ _ r, open_intent run_id r) (si_cancel t) (source_intents d);
  cl_decisions : ∀ i, (asked_by run_id d i → decisions d' !! i = expired t <$> decisions d !! i) ∧
    (¬ asked_by run_id d i → decisions d' !! i = decisions d !! i);
  cl_waiters : source_import_waiters d' =
    update_where (λ _ r, open_waiter run_id r) (wa_cancel t) (source_import_waiters d);
  cl_imports : ∀ i,
    (gave_up run_id d i → ∃ d1, waits_view d1 = (source_import_waiters d', runs d, threads d) ∧
       source_import_actions d' !! i = fenced_import run_id t d1 i <$> source_import_actions d !! i) ∧
    (¬ gave_up run_id d i → source_import_actions d' !! i = source_import_actions d !! i);
  cl_materials : artifact_materialization_actions d' =
    update_where (λ _ r, pending_version (of_run run_id) d r && unfinished (ma_state r)) (ma_fail "run_terminated" t)
      (artifact_materialization_actions d);
  cl_versions : ∀ i,
    (unfinished_version (of_run run_id) d i → artifact_versions d' !! i = av_fail <$> artifact_versions d !! i) ∧
    (¬ unfinished_version (of_run run_id) d i → artifact_versions d' !! i = artifact_versions d !! i) }.

Lemma fence_imports_ok run_id t w ids w' :
  fence_source_imports_for_run run_id t w = Ok ids w' →
  ∃ g, w' = on_db (set_import_actions g)
         (on_db (set_import_waiters (update_where (λ _ r, open_waiter run_id r) (wa_cancel t))) w) ∧
    ∀ i, (gave_up run_id (w_db w) i → g (source_import_actions (w_db w)) !! i =
         fenced_import run_id t (set_import_waiters
           (update_where (λ _ r, open_waiter run_id r) (wa_cancel t)) (w_db w)) i
         <$> source_import_actions (w_db w) !! i) ∧
      (¬ gave_up run_id (w_db w) i →
         g (source_import_actions (w_db w)) !! i = source_import_actions (w_db w) !! i).
Proof.
  unfold fence_source_imports_for_run. intros Hm.
  apply bind_ok in Hm as (rows & ? & [-> ->]%query_ok & Hm).
  set (rows := oldest_first _ _ _) in Hm. set (ids0 := from_keys _) in Hm.
  assert (∀ i, i ∈ ids0 ↔ gave_up run_id (w_db w) i) as Hids.
  { intros i. unfold ids0. rewrite elem_of_from_keys, list_elem_of_fmap. unfold gave_up. split.
    - intros ([j wt] & -> & [Hj Ho]%elem_of_oldest). by exists j, wt.
    - intros (j & wt & Hj & Ho & <-). exists (j, wt). split; [done|]. by apply elem_of_oldest. }
  destruct ids0 as [|i0 ids0'] eqn:Ei; subst ids0.
  - apply ret_ok in Hm as [_ <-]. exists id. split.
    + assert (update_where (λ _ r, open_waiter run_id r) (wa_cancel t)
        (source_import_waiters (w_db w)) = source_import_waiters (w_db w)) as E.
      { apply update_where_none. intros j wt Hj.
        destruct (open_waiter run_id wt) eqn:Ho; [|done]. exfalso.
        apply (not_elem_of_nil (wa_action_id wt)), Hids. by exists j, wt. }
      destruct w as [[] ? ?]. unfold on_db, set_import_waiters, set_import_actions. simpl in *.
      by rewrite E.
    + intros i. split; [|done]. intros Hg%Hids. by apply not_elem_of_nil in Hg.
  - rewrite <- Ei in *. clear Ei i0 ids0'.
    apply bind_ok in Hm as (? & w1 & [_ ->]%execute_ok & Hm).
    apply bind_ok in Hm as (us & w2 & Hl & [_ <-]%ret_ok).
    apply fence_loop in Hl as (g & -> & Hg); [|apply NoDup_from_keys].
    exists g. split; [done|]. intros i. specialize (Hg i).
    cbn [on_db w_db set_import_waiters source_import_actions] in Hg. split; intros H1.
    + rewrite Hg, bool_decide_eq_true_2; [done|by apply Hids].
    + rewrite Hg, bool_decide_eq_false_2; [done|]. by rewrite Hids.
Qed.

Lemma fence_materials_ok mine category t w ids w' :
  fence_artifact_materializations mine category t w = Ok ids w' →
  ∃ g g', w' = on_db (set_artifact_versions g) (on_db (set_materializations g') w) ∧
    g' (artifact_materialization_actions (w_db w)) =
      update_where (λ _ r, pending_version mine (w_db w) r && unfinished (ma_state r)) (ma_fail category t)
        (artifact_materialization_actions (w_db w)) ∧
    ∀ i, (unfinished_version mine (w_db w) i →
         g (artifact_versions (w_db w)) !! i = av_fail <$> artifact_versions (w_db w) !! i) ∧
      (¬ unfinished_version mine (w_db w) i →
         g (artifact_versions (w_db w)) !! i = artifact_versions (w_db w) !! i).
Proof.
  unfold fence_artifact_materializations. intros Hm.
  apply bind_ok in Hm as (rows & ? & [-> ->]%query_ok & Hm).
  set (rows := oldest_first _ _ _) in Hm.
  assert (∀ j r, (j, r) ∈ rows ↔ artifact_materialization_actions (w_db w) !! j = Some r ∧
    pending_version mine (w_db w) r && unfinished (ma_state r) = true) as Hrows
    by (intros j r; apply elem_of_oldest).
  clearbody rows. destruct rows as [|x rows'].
  - apply ret_ok in Hm as [_ <-]. exists id, id. split; [by destruct w as [[] ? ?]|]. split.
    + symmetry. apply update_where_none. intros j r Hj.
      destruct (_ && _) eqn:E; [|done]. exfalso. by apply (not_elem_of_nil (j, r)), Hrows.
    + intros i. split; [|done]. intros (j & r & Hj & _ & Hp & Hu). exfalso.
      apply (not_elem_of_nil (j, r)), Hrows. by rewrite Hp, Hu.
  - set (rows := x :: rows') in *. clearbody rows.
    apply bind_ok in Hm as (? & w1 & [_ ->]%execute_ok & Hm).
    apply bind_ok in Hm as (? & w2 & [_ ->]%execute_ok & [_ <-]%ret_ok).
    eexists _, _. split; [reflexivity|]. split.
    + apply map_eq. intros i. rewrite !lookup_update_where.
      destruct (artifact_materialization_actions (w_db w) !! i) as [r|] eqn:Hr; simpl; [|done].
      f_equal. destruct (unfinished (ma_state r)) eqn:Hu; rewrite ?andb_false_r; [|done].
      rewrite !andb_true_r. destruct (pending_version mine (w_db w) r) eqn:Hp.
      * rewrite (proj2 (in_texts_spec _ _)); [done|]. apply list_elem_of_fmap.
        exists (i, r). split; [done|]. apply Hrows. by rewrite Hp, Hu.
      * destruct (in_texts i _) eqn:Hin; [|done]. exfalso.
        apply in_texts_spec, list_elem_of_fmap in Hin as ([j r'] & -> & [Hj Hb]%Hrows).
        simpl in Hr. rewrite Hr in Hj. injection Hj as <-. by rewrite Hp in Hb.
    + intros i. cbn [on_db w_db set_materializations artifact_versions].
      rewrite lookup_update_where. split; intros H1.
      * destruct H1 as (j & r & Hj & <- & Hp & Hu).
        rewrite (proj2 (in_texts_spec _ _)).
        { unfold pending_version in Hp.
          destruct (artifact_versions (w_db w) !! ma_artifact_version_id r); [|done].
          simpl. by apply andb_true_iff in Hp as [_ ->]. }
        apply list_elem_of_fmap. exists (j, r). split; [done|]. apply Hrows. by rewrite Hp, Hu.
      * destruct (in_texts i _) eqn:Hin; [exfalso; apply H1|].
        -- apply in_texts_spec, list_elem_of_fmap in Hin as ([j r'] & -> & [Hj Hb]%Hrows).
           apply andb_true_iff in Hb as [Hp Hu]. by exists j, r'.
        -- by destruct (artifact_versions (w_db w) !! i).
Qed.

Lemma close_source_work_ok run_id t w c w' :
  close_source_work_for_run run_id t w = Ok c w' → closed run_id t (w_db w) (w_db w').
Proof.
  unfold close_source_work_for_run. intros Hm.
  apply bind_ok in Hm as (rows & ? & [-> ->]%query_ok & Hm).
  set (rows := oldest_first _ _ _) in Hm.
  assert (∀ j r, (j, r) ∈ rows ↔ source_intents (w_db w) !! j = Some r ∧
    open_intent run_id r = true) as Hrows by (intros j r; apply elem_of_oldest).
  clearbody rows.
  apply bind_ok in Hm as (? & w1 & H1 & Hm).
  assert (w1 = on_db (set_source_intents (update_where (λ _ r, open_intent run_id r) (si_cancel t))) w)
    as ->.
  { destruct (map fst rows) as [|y l] eqn:Em.
    - apply map_eq_nil in Em as ->. apply ret_ok in H1 as [_ <-].
      assert (update_where (λ _ r, open_intent run_id r) (si_cancel t) (source_intents (w_db w))
        = source_intents (w_db w)) as E.
      { apply update_where_none. intros j r Hj. destruct (open_intent run_id r) eqn:Ho; [|done].
        exfalso. by apply (not_elem_of_nil (j, r)), Hrows. }
      destruct w as [[] ? ?]. unfold on_db, set_source_intents. simpl in *. by rewrite E.
    - by apply execute_ok in H1 as [_ ->]. }
  apply bind_ok in Hm as (? & w2 & H2 & Hm). set (dids := omap _ rows) in *.
  assert (∃ g, w2 = on_db (set_decisions g) (on_db (set_source_intents
      (update_where (λ _ r, open_intent run_id r) (si_cancel t))) w) ∧
    ∀ i, (asked_by run_id (w_db w) i →
        g (decisions (w_db w)) !! i = expired t <$> decisions (w_db w) !! i) ∧
      (¬ asked_by run_id (w_db w) i → g (decisions (w_db w)) !! i = decisions (w_db w) !! i)) as (gd & -> & Hd).
  { assert (∀ i, i ∈ dids ↔ asked_by run_id (w_db w) i) as Hdids.
    { intros i. unfold dids. rewrite list_elem_of_omap. split.
      - intros ([j s] & [Hj Ho]%Hrows & Hs). by exists j, s.
      - intros (j & s & Hj & Ho & Hs). exists (j, s). split; [by apply Hrows|done]. }
    destruct dids as [|y l] eqn:Ed.
    - apply ret_ok in H2 as [_ <-]. exists id. split; [by destruct w as [[] ? ?]|].
      intros i. split; [|done]. intros Hi%Hdids. by apply not_elem_of_nil in Hi.
    - apply execute_ok in H2 as [_ ->]. eexists. split; [reflexivity|]. intros i.
      cbn [on_db w_db set_source_intents decisions]. rewrite lookup_update_where. split.
      + intros Hi%Hdids. by rewrite (proj2 (in_texts_spec _ _) Hi).
      + intros Hi. destruct (in_texts i (y :: l)) eqn:Hin;
          [exfalso; by apply Hi, Hdids, in_texts_spec|]. by destruct (decisions (w_db w) !! i). }
  apply bind_ok in Hm as (iids & w3 & (gi & -> & Hi)%fence_imports_ok & Hm).
  apply bind_ok in Hm as (aids & w4 & (gv & ga & -> & Ha & Hv)%fence_materials_ok & [_ <-]%ret_ok).
  split; try done.
  intros i. destruct (Hi i) as [Hyes Hno]. split; [|done].
  intros Hg. eexists. split; [|by apply Hyes]. done.
Qed.

Lemma keeps_fence_import {V} (view : db → V) run_id t i :
  (∀ f d, view (set_import_actions f d) = view d) →
  keeps (λ w, view (w_db w)) (fence_source_import run_id t i).
Proof.
  intros Hv. unfold fence_source_import. apply keeps_bind; [eauto with keeps|intros].
  by apply keeps_execute_view.
Qed.
(** A view of the other tables survives the closing. *)
Lemma keeps_closing {V} (view : db → V) run_id t :
  (∀ f d, view (set_source_intents f d) = view d) →
  (∀ f d, view (set_decisions f d) = view d) →
  (∀ f d, view (set_import_waiters f d) = view d) →
  (∀ f d, view (set_import_actions f d) = view d) →
  (∀ f d, view (set_materializations f d) = view d) →
  (∀ f d, view (set_artifact_versions f d) = view d) →
  keeps (λ w, view (w_db w)) (close_source_work_for_run run_id t).
Proof.
  intros H1 H2 H3 H4 H5 H6. unfold close_source_work_for_run, fence_source_imports_for_run,
    fence_artifact_materializations_for_run, fence_artifact_materializations.
  repeat first
    [ apply keeps_bind; [|intros]
    | apply keeps_map_m; intros; by apply keeps_fence_import
    | apply keeps_execute_view; done
    | solve [eauto with keeps] | case_match ].
Qed.
Lemma keeps_insert_pin {V} (view : db → V) run_id att a t :
  (∀ f d, view (set_pin_releases f d) = view d) →
  keeps (λ w, view (w_db w)) (insert_pin_release run_id att a t).
Proof.
  intros Hv. unfold insert_pin_release.
  repeat first
    [ apply keeps_bind; [|intros] | apply keeps_execute_view; done
    | solve [eauto with keeps] | case_match ].
Qed.
Lemma keeps_release_pin {V} (view : db → V) run_id att t :
  (∀ f d, view (set_pin_releases f d) = view d) →
  keeps (λ w, view (w_db w)) (release_attempt_pin run_id att t).
Proof.
  intros Hv. unfold release_attempt_pin. apply keeps_bind; [eauto with keeps|intros a].
  case_match; [apply keeps_bind; [by apply keeps_insert_pin|]|]; eauto with keeps.
Qed.

(** The pin that a failed attempt leaves to be released. *)
Lemma release_pin_ok run_id att t w u w' :
  release_attempt_pin run_id att t w = Ok u w' →
  ∃ a, attempts (w_db w) !! att = Some a ∧
    (is_Some (at_runtime_release_id a) → is_Some (at_state_generation_id a) →
     ∃ id p, runtime_pin_releases (w_db w') !! id = Some p ∧ pin_of att a p) ∧
    (w' = w ∨ ∃ id w1, insert_pin_release run_id att a t w = Ok id w1 ∧ w' = w1).
Proof.
  unfold release_attempt_pin. intros Hm. apply bind_ok in Hm as (a & ? & (Ha & ->)%attempt_ok & Hm).
  exists a. split; [done|]. destruct (_ && _) eqn:E.
  - apply bind_ok in Hm as (id & w1 & Hi & [_ <-]%ret_ok).
    split; [|right; by exists id, w1]. intros _ _. exists id.
    by destruct (proj1 (insert_pin_ok _ _ _ _ _ _ _ Hi)) as (p & Hp & Hof); exists p.
  - apply ret_ok in Hm as [_ <-]. split; [|by left]. intros H1 H2.
    by rewrite !bool_decide_eq_true_2 in E.
Qed.

(** All [fail_runtime_action] does. *)
Definition closing_view (d : db) :=
  (source_intents d, decisions d, source_import_waiters d, (source_import_actions d,
   artifact_versions d, artifact_materialization_actions d)).
Lemma closed_view run_id t d d1 d2 :
  closing_view d2 = closing_view d1 → closed run_id t d d1 → closed run_id t d d2.
Proof.
  unfold closing_view. intros [= E1 E2 E3 E4 E5 E6] [H1 H2 H3 H4 H5 H6].
  split; rewrite ?E1, ?E2, ?E3, ?E4, ?E5, ?E6; done.
Qed.

Lemma closed_action run_id t f d d' :
  closed run_id t (set_runtime_actions f d) d' → closed run_id t d d'.
Proof. intros [H1 H2 H3 H4 H5 H6]. split; assumption. Qed.

Record failed_run (owner : string) (epoch expected : Z) (id : string) (category t : string)
    (a : action_row) (r : run_row) (w : world) (d' : db) : Prop := {
  fr_held : held_by owner epoch w a;
  fr_deliverable : deliverable (ra_outcome_state a) = true;
  fr_run : runs (w_db w) !! ra_run_id a = Some r;
  fr_revision : ru_revision r = expected;
  fr_action : runtime_actions d' =
    <[id := ra_settle act_failed t (Some category) a]> (runtime_actions (w_db w));
  fr_closed : closed (ra_run_id a) t (w_db w) d';
  fr_failed : ∃ r', runs d' !! ra_run_id a = Some r' ∧ ru_state r' = "failed" ∧
    ru_revision r' = expected + 1 ∧ ru_latest_sequence r' = ru_latest_sequence r + 1 ∧
    ru_thread_id r' = ru_thread_id r;
  fr_threads : threads d' = alter (λ th,
    if bool_decide (th_active_run_id th = Some (ra_run_id a)) then th_fail t th else th)
    (ru_thread_id r) (threads (w_db w));
  fr_attempts : attempts d' = alter (at_fail t) (ra_attempt_id a) (attempts (w_db w));
  fr_pin : ∀ at_, attempts d' !! ra_attempt_id a = Some at_ →
    is_Some (at_runtime_release_id at_) → is_Some (at_state_generation_id at_) →
    ∃ i p, runtime_pin_releases d' !! i = Some p ∧ pin_of (ra_attempt_id a) at_ p;
  fr_pins : runtime_pin_releases d' = runtime_pin_releases (w_db w) ∨
    ∃ at_ i w1 w2, insert_pin_release (ra_run_id a) (ra_attempt_id a) at_ t w1 = Ok i w2 ∧
      runtime_pin_releases (w_db w1) = runtime_pin_releases (w_db w) ∧
      runtime_pin_releases (w_db w2) = runtime_pin_releases d' }.

(** The tables that settling and closing leave to the rest of the command. *)
Definition other_view (d : db) := (runs d, attempts d, threads d, runtime_pin_releases d).

Lemma fail_body_ok id owner epoch expected category w v code w' :
  fail_body id owner epoch expected category w = Ok (v, code) w' →
  ∃ t a r, runtime_actions (w_db w) !! id = Some a ∧
    failed_run owner epoch expected id category t a r w (w_db w').
Proof.
  intros Hb. unfold fail_body in Hb.
  apply bind_ok in Hb as ([a v0] & w1 & Ha & Hb). rewrite runtime_action_ok in Ha.
  destruct Ha as (Ha & -> & _).
  apply bind_ok in Hb as (held & w2 & Hheld & Hb).
  pose proof (keeps_ok w_db _ _ _ _ (keeps_reject_fence (λ d, d) _ _ _) Hheld) as E2.
  apply bind_ok in Hb as (? & ? & (-> & _ & ->)%ensure_ok & Hb).
  apply reject_fence_held in Hheld as [Hheld Hd].
  apply bind_ok in Hb as (r & ? & Hr & Hb). rewrite run_at_ok, E2 in Hr.
  destruct Hr as (Hr & _ & Hrev & ->).
  apply bind_ok in Hb as (t & w3 & [_ ->]%now_ok & Hb).
  apply bind_ok in Hb as (n & w4 & Hu & Hb). rewrite update_action_ok in Hu.
  cbn [w_db w_ticks w_ids] in Hu. rewrite E2, Ha in Hu.
  apply bind_ok in Hb as (? & ? & (Hn & _ & ->)%ensure_ok & Hb).
  destruct (fenced owner epoch deliverable a); [|by destruct Hu as [-> _]]. destruct Hu as [_ ->].
  apply bind_ok in Hb as (c & w5 & Hc & Hb).
  pose proof (close_source_work_ok _ _ _ _ _ Hc) as Hclosed.
  apply (keeps_ok _ _ _ _ _ (keeps_closing (λ d, (other_view d, runtime_actions d)) _ _
    ltac:(done) ltac:(done) ltac:(done) ltac:(done) ltac:(done) ltac:(done))) in Hc as E5.
  apply bind_ok in Hb as (? & w6 & H6 & Hb). unfold update_run in H6. apply execute_ok in H6 as [_ ->].
  apply bind_ok in Hb as (? & w6 & [_ ->]%execute_ok & Hb).
  apply bind_ok in Hb as (? & w6 & H6 & Hb). unfold fail_thread in H6. apply execute_ok in H6 as [_ ->].
  apply bind_ok in Hb as (? & w7 & H7 & Hb).
  apply bind_ok in Hb as (ev & w8 & H8 & Hb).
  apply bind_ok in Hb as ([a' v'] & w9 & Hv & [_ <-]%ret_ok). rewrite runtime_action_ok in Hv.
  destruct Hv as (_ & -> & _).
  pose proof (keeps_ok _ _ _ _ _ (keeps_release_pin (λ d, (closing_view d, runs d, attempts d,
    threads d, runtime_actions d)) _ _ _ ltac:(done)) H7) as E7.
  apply insert_event_ok in H8 as (r8 & e & Hr8 & _ & _ & ->).
  unfold other_view in E5. cbn [on_db w_db set_runtime_actions set_runs set_attempts set_threads
    runs attempts threads runtime_actions runtime_pin_releases set_run_events closing_view] in *.
  injection E5 as E51 E52 E53 E54 E55. injection E7 as E71 E72 E73 E74 E75 E76 E7r E7a E7t E7x.
  exists t, a, r. split; [done|].
  apply release_pin_ok in H7 as (ax & Hax & Hpin & Hpins).
  cbn [on_db w_db set_runs set_attempts set_threads attempts] in Hax. rewrite E52 in Hax.
  split; try done; cbn [set_runs set_run_events runtime_actions threads attempts
    runtime_pin_releases runs].
  - by rewrite E7x, E55.
  - apply (closed_view _ _ _ (w_db w5)); [|exact (closed_action _ _ _ _ _ Hclosed)].
    unfold closing_view. cbn. by rewrite E71, E72, E73, E74, E75, E76.
  - rewrite lookup_alter_eq, Hr8. rewrite E7r, E51, lookup_alter_eq, Hr in Hr8.
    simpl in Hr8. rewrite (proj2 (Z.eqb_eq _ _) Hrev) in Hr8. injection Hr8 as <-.
    eexists. split; [reflexivity|]. simpl. split; [done|].
    split; [by rewrite Hrev|done].
  - by rewrite E7t, E53.
  - by rewrite E7a, E52.
  - intros at_ Hat. rewrite E7a, E52, Hax in Hat. injection Hat as <-. apply Hpin.
  - destruct Hpins as [-> | (i & w1 & Hi & ->)].
    + left. by simpl.
    + right. eexists ax, i, _, w1. split; [exact Hi|]. by simpl.
Qed.

Lemma fail_command_ok id owner epoch expected category actor key w r w' :
  fail_runtime_action id owner epoch expected category actor key w = Ok r w' →
  (cr_replayed r = true ∧ w' = w) ∨
  (cr_replayed r = false ∧ ∃ t a rn, runtime_actions (w_db w) !! id = Some a ∧
    failed_run (strip owner) epoch expected id (strip category) t a rn w (w_db w')).
Proof.
  unfold fail_runtime_action, check_epoch. intros Hm. mgo.
  match goal with H : command _ _ _ _ _ _ = _ |- _ => apply command_ok in H as [_ Hc] end.
  destruct (idempotency_receipts _ !! _).
  - left. destruct Hc as (-> & _ & v & _ & ->). done.
  - right. destruct Hc as (v & code & w1 & Hb & (_ & -> & ->)%save_receipt_ok).
    apply fail_body_ok in Hb as (t & a & rn & Ha & Hf). split; [done|]. exists t, a, rn.
    split; [done|]. destruct Hf as [? ? ? ? ? Hc ? ? ? ? ?]. split; try done.
    apply (closed_view _ _ _ (w_db w1)); [reflexivity|exact Hc].
Qed.
End Closing.
#[export] Hint Extern 1 (keeps _ (close_source_work_for_run _ _)) =>
  (apply keeps_closing; intros; reflexivity) : keeps.
#[export] Hint Extern 1 (keeps _ (release_attempt_pin _ _ _)) =>
  (apply keeps_release_pin; intros; reflexivity) : keeps.
