(* ===== verification/RuntimeSessions.v ===== *)
(** * The delivery queues over time

    The event log of the runs, and sequences of delivery and pin commands in
    any order, with any arguments and any number of refusals. *)

From S2P Require Import Prelude PyText Clock Json Schema Store Runs RuntimeActions PinReleases RuntimeFacts PinFacts RunClosing ClosingFacts.
Open Scope Z_scope.

(** ** The event log *)

(** The events of every run are numbered 1, 2, ... up to its [latest_sequence],
    in the order they were appended, and the global cursor grows. *)
Definition sequences (run_id : string) (l : list event_row) : list Z :=
  map ev_sequence (List.filter (λ e, String.eqb (ev_run_id e) run_id) l).
Definition log_view (d : db) := (ru_latest_sequence <$> runs d, run_events d).
Definition log_good (v : gmap string Z * list event_row) : Prop :=
  (∀ id n, v.1 !! id = Some n → 0 <= n ∧ sequences id v.2 = seqZ 1 n) ∧
  StronglySorted Z.lt (map ev_global_cursor v.2) ∧
  (∀ e, e ∈ v.2 → 0 < ev_global_cursor e).
Definition log_ok (d : db) : Prop := log_good (log_view d).

Definition log_step (w w' : world) : Prop :=
  (log_ok (w_db w) → log_ok (w_db w')) ∧ run_events (w_db w) `prefix_of` run_events (w_db w') ∧
  dom (runs (w_db w')) = dom (runs (w_db w)).
#[export] Instance log_step_preorder : PreOrder log_step.
Proof.
  split; unfold log_step; [by intros w|].
  intros w1 w2 w3 (A & B & C) (A' & B' & C'). split; [auto|]. split; [by etrans|congruence].
Qed.
Lemma log_same w w' : log_view (w_db w') = log_view (w_db w) → log_step w w'.
Proof.
  unfold log_step, log_ok. intros E. rewrite E. unfold log_view in E. injection E as Er Ee.
  rewrite Ee. split; [done|]. split; [done|]. rewrite <- !(dom_fmap_L ru_latest_sequence). by rewrite Er.
Qed.

Lemma StronglySorted_snoc l x :
  StronglySorted Z.lt l → Forall (λ y, y < x) l → StronglySorted Z.lt (l ++ [x]).
Proof.
  induction 1 as [|y l Hl IH Hy]; intros Hf; simpl; [by repeat constructor|].
  inversion Hf; subst. constructor; [by apply IH|]. apply Forall_app. split; [done|by constructor].
Qed.
Lemma max_above x l : x ∈ l → x <= foldr Z.max 0 l.
Proof. induction 1; simpl; lia. Qed.
Lemma max_nonneg l : 0 <= foldr Z.max 0 l.
Proof. induction l; simpl; lia. Qed.

Section Log.
Context `{Env}.

Lemma log_good_append m l run_id n e :
  log_good (m, l) → m !! run_id = Some n → ev_run_id e = run_id → ev_sequence e = n + 1 →
  ev_global_cursor e = foldr Z.max 0 (map ev_global_cursor l) + 1 →
  log_good (<[run_id := n + 1]> m, l ++ [e]).
Proof.
  intros (Hs & Hc & Hp) Hm Hr He Hg. cbn [fst snd] in *.
  assert (∀ y, y ∈ map ev_global_cursor l → y < ev_global_cursor e) as Hlt.
  { intros y Hy%max_above. lia. }
  split; [|split]; cbn [fst snd].
  - intros id k Hk. unfold sequences. rewrite List.filter_app, map_app. simpl. rewrite Hr.
    destruct (Hs run_id n Hm) as [Hn _]. apply lookup_insert_Some in Hk as [[<- <-] | [Hne Hk]].
    + rewrite String.eqb_refl. simpl. rewrite He. split; [lia|].
      rewrite seqZ_app by lia. fold (sequences run_id l). rewrite (proj2 (Hs _ _ Hm)). f_equal.
      unfold seqZ. simpl. f_equal. lia.
    + rewrite (proj2 (String.eqb_neq _ _) Hne), app_nil_r. apply (Hs _ _ Hk).
  - rewrite map_app. apply StronglySorted_snoc; [done|]. by apply Forall_forall.
  - intros x [Hx | ->%list_elem_of_singleton]%elem_of_app; [by apply Hp|].
    pose proof (max_nonneg (map ev_global_cursor l)). lia.
Qed.

Lemma log_insert_event run_id att ty payload cause :
  evolves log_step (insert_event run_id att ty payload cause).
Proof.
  intros w. destruct (insert_event run_id att ty payload cause w) as [v w'|e w'] eqn:Hm; simpl.
  - apply insert_event_ok in Hm as (r & e & Hr & He & _ & ->). unfold log_step. simpl.
    split; [|split; [by apply prefix_app_r|by rewrite dom_alter_L]].
    intros Hl. unfold log_ok, log_view. simpl. rewrite (alter_known _ _ _ r) by done.
    rewrite fmap_insert. simpl.
    apply log_good_append; [done| |by rewrite He..]. by rewrite lookup_fmap, Hr.
  - apply log_same. revert Hm. unfold insert_event, run, now, utc_now, new_id, query, gets,
      from_option, ensure, execute, modify, on_db, mbind, M_bind, mret, M_ret, raise.
    destruct (runs (w_db w) !! run_id); [|by intros [= _ <-]]. simpl.
    destruct (_ && _); [done|]. by intros [= _ <-].
Qed.
End Log.

(** ** Commands and sessions *)

Inductive runtime_command :=
| ListPendingActions
| ListUnknownActions (limit : Z)
| ClaimAction (id worker : string) (lease : Z) (actor key : string)
| AcknowledgeAction (id run_id attempt_id binding release : string) (revision : Z)
    (generation owner : option string) (epoch : option Z) (actor key : string)
| FailAction (id owner : string) (epoch revision : Z) (category actor key : string)
| RejectAction (id owner : string) (epoch revision : Z) (category actor key : string)
| MarkUnknown (id owner : string) (epoch revision : Z) (category actor key : string)
| ClaimReconciliation (id worker : string) (lease : Z) (actor key : string)
| DeferReconciliation (id owner : string) (epoch revision : Z) (category actor key : string)
| RetryDelivery (id owner : string) (epoch revision : Z) (actor key : string)
| ListPendingPins (limit : Z)
| ClaimPin (id worker : string) (lease : Z) (actor key : string)
| AcknowledgePin (id owner : string) (epoch revision : Z) (actor key : string)
| FailPin (id owner : string) (epoch revision : Z) (category actor key : string)
| RetryPin (id : string) (revision : Z) (actor key : string).

(** The commands that answer a [command_result], and the others. *)
Definition quiet `{Env} {A} (m : Store A) : Store (option command_result) := m;; mret None.
Definition loud `{Env} (m : Store command_result) : Store (option command_result) :=
  r ← m; mret (Some r).
Definition run_runtime `{Env} (c : runtime_command) : Store (option command_result) :=
  match c with
  | ListPendingActions => quiet list_pending_runtime_actions
  | ListUnknownActions l => quiet (list_runtime_actions_requiring_reconciliation l)
  | ClaimAction i wk l a k => loud (claim_runtime_action i wk l a k)
  | AcknowledgeAction i r t b rel n g o e a k =>
      loud (acknowledge_runtime_action i r t b rel n g o e a k)
  | FailAction i o e n c a k => loud (fail_runtime_action i o e n c a k)
  | RejectAction i o e n c a k => loud (reject_runtime_action i o e n c a k)
  | MarkUnknown i o e n c a k => loud (mark_runtime_action_outcome_unknown i o e n c a k)
  | ClaimReconciliation i wk l a k => loud (claim_runtime_action_reconciliation i wk l a k)
  | DeferReconciliation i o e n c a k => loud (defer_runtime_action_reconciliation i o e n c a k)
  | RetryDelivery i o e n a k => loud (retry_runtime_action_delivery i o e n a k)
  | ListPendingPins l => quiet (list_pending_pin_releases l)
  | ClaimPin i wk l a k => loud (claim_pin_release i wk l a k)
  | AcknowledgePin i o e n a k => loud (acknowledge_pin_release i o e n a k)
  | FailPin i o e n c a k => loud (fail_pin_release i o e n c a k)
  | RetryPin i n a k => loud (retry_pin_release i n a k)
  end.

(** A command that raises is followed by the next one all the same. *)
Definition runtime_session `{Env} (cmds : list runtime_command) (w : world) : world :=
  fold_left (λ w c, end_world (run_runtime c w)) cmds w.

Section Sessions.
Context `{Env}.

Lemma keeps_log_update_run id e st t : keeps (λ w, log_view (w_db w)) (update_run id e st t).
Proof.
  intros w. unfold log_view. simpl. f_equal. apply map_eq. intros j. rewrite !lookup_fmap.
  destruct (decide (id = j)) as [<- | Hne].
  - rewrite lookup_alter_eq. destruct (runs (w_db w) !! id) as [r|]; [|done]. simpl.
    by destruct (ru_revision r =? e).
  - by rewrite lookup_alter_ne.
Qed.
Lemma keeps_log_save a o k request v code :
  keeps (λ w, log_view (w_db w)) (save_receipt a o k request v code).
Proof. by apply keeps_save_receipt. Qed.
Lemma keeps_log_update_action id p f : keeps (λ w, log_view (w_db w)) (update_action id p f).
Proof.
  unfold update_action. apply keeps_bind; [eauto with keeps|intros [r|]]; [|eauto with keeps].
  destruct (p r); [apply keeps_bind|]; eauto with keeps.
Qed.
Lemma keeps_log_update_pin id p f : keeps (λ w, log_view (w_db w)) (update_pin id p f).
Proof.
  unfold update_pin. apply keeps_bind; [eauto with keeps|intros [r|]]; [|eauto with keeps].
  destruct (p r); [apply keeps_bind|]; eauto with keeps.
Qed.
End Sessions.
#[export] Hint Resolve keeps_log_update_run keeps_log_save keeps_log_update_action
  keeps_log_update_pin : keeps.
#[export] Hint Extern 1 (keeps _ (receipt _ _ _ _)) => apply keeps_receipt : keeps.

(** [logged] proves that a command's code keeps the event log in order. *)
Ltac logged_step := lazymatch goal with
  | |- evolves _ (insert_event _ _ _ _ _) => apply log_insert_event
  | |- evolves _ (transaction _) => apply (view_transaction log_view log_step log_same)
  | |- evolves _ (_ ≫= _) => apply evolves_bind; [apply _| |intros]
  | |- evolves _ (map_m _ _) => apply evolves_map_m; [apply _|intros]
  | |- evolves _ (if _ then _ else _) => case_match
  | |- evolves _ (match _ with _ => _ end) => case_match
  | _ => apply (view_keeps log_view log_step log_same); solve [eauto with keeps]
  end.
Ltac logged := repeat logged_step.

Section Evolution.
Context `{Env}.

Lemma log_settle_body id o e n fence target allowed change finish ty cat :
  (∀ a, evolves log_step (fence a)) → (∀ a r t, evolves log_step (finish a r t)) →
  evolves log_step (settle_body id o e n fence target allowed change finish ty cat).
Proof. intros Hf Hfin. unfold settle_body. logged; auto. Qed.
Lemma log_reject_finish n a r t : evolves log_step (reject_finish n a r t).
Proof. unfold reject_finish, update_attempt_state. logged. Qed.
Lemma log_bump_run n a r t : evolves log_step (bump_run n a r t).
Proof. unfold bump_run. logged. Qed.
Lemma log_outcome_fence s o e a : evolves log_step (outcome_fence s o e a).
Proof. unfold outcome_fence. logged. Qed.
Lemma log_reject_fence o e a : evolves log_step (reject_fence o e a).
Proof. unfold reject_fence. logged. Qed.
Lemma log_claim_command a o k request current target body :
  (∀ r, evolves log_step (current r)) → evolves log_step body →
  evolves log_step (claim_command a o k request current target body).
Proof. intros Hc Hb. unfold claim_command. logged; auto. Qed.
Lemma log_command a o k request body :
  evolves log_step body → evolves log_step (command a o k request body).
Proof. intros Hb. by apply (view_command log_view log_step log_same). Qed.
End Evolution.
Ltac logged_command := repeat lazymatch goal with
  | |- evolves _ (claim_command _ _ _ _ _ _ _) =>
      apply log_claim_command; [intros; unfold claim_replay_is_current|]
  | |- evolves _ (command _ _ _ _ _) => apply log_command
  | |- evolves _ (settle_body _ _ _ _ _ _ _ _ _ _ _) => apply log_settle_body; intros;
      [apply log_outcome_fence || apply log_reject_fence | apply log_reject_finish || apply log_bump_run]
  | _ => logged_step
  end.

Section Runs_of_commands.
Context `{Env}.

Lemma run_runtime_log c : evolves log_step (run_runtime c).
Proof.
  destruct c; simpl; unfold quiet, loud; (apply evolves_bind; [apply _| |intros; logged]);
    unfold list_pending_runtime_actions, list_runtime_actions_requiring_reconciliation,
      action_dicts, claim_runtime_action, check_lease, claim_action_body,
      acknowledge_runtime_action, check_epoch, acknowledge_body, update_attempt_state,
      fail_runtime_action, fail_body, fail_thread,
      reject_runtime_action, mark_runtime_action_outcome_unknown,
      claim_runtime_action_reconciliation, claim_reconciliation_body,
      defer_runtime_action_reconciliation, retry_runtime_action_delivery,
      list_pending_pin_releases, claim_pin_release, claim_pin_body, acknowledge_pin_release,
      fail_pin_release, settle_pin_release, settle_pin_body, retry_pin_release, retry_pin_body;
    logged_command.
Qed.
Lemma runtime_session_log cmds w : log_step w (runtime_session cmds w).
Proof.
  revert w. induction cmds as [|c cmds IH]; intros w; simpl; [reflexivity|].
  etrans; [apply run_runtime_log|apply IH].
Qed.

(** Every command is all or nothing. *)
Lemma keeps_check_lease {V} (view : world → V) n : keeps view (check_lease n).
Proof. apply keeps_ensure. Qed.
Lemma keeps_check_epoch {V} (view : world → V) n : keeps view (check_epoch n).
Proof. apply keeps_ensure. Qed.
Lemma keeps_required_opt' {V} (view : world → V) o name n : keeps view (required_opt o name n).
Proof. unfold required_opt. destruct o; eauto with keeps. Qed.
Lemma atomic_claim_command a o k request current target body :
  atomic (claim_command a o k request current target body).
Proof. apply atomic_transaction. Qed.
Lemma keeps_action_dicts l : keeps w_db (action_dicts l).
Proof.
  apply keeps_map_m. intros x. apply keeps_bind; [apply (keeps_runtime_action (λ d, d))|].
  intros [r v]. eauto with keeps.
Qed.
Lemma keeps_now_db : keeps w_db now.
Proof. by intros w. Qed.
Hint Resolve keeps_check_lease keeps_check_epoch keeps_required_opt' atomic_claim_command
  atomic_command keeps_action_dicts keeps_now_db : keeps.
Ltac all_or_nothing := repeat first
  [ solve [eauto with keeps] | apply atomic_bind; [solve [eauto with keeps]|intros] ].

Lemma atomic_then {A B} (m : Store A) (b : B) : atomic m → atomic (m;; mret b).
Proof.
  intros Hm w e w' [He | (? & ? & _ & He)]%bind_err; [by eapply Hm|]. by rewrite ret_err in He.
Qed.
Lemma atomic_loud (m : Store command_result) : atomic m → atomic (loud m).
Proof.
  intros Hm w e w' [He | (? & ? & _ & He)]%bind_err; [by eapply Hm|]. by rewrite ret_err in He.
Qed.
Lemma keeps_listing {A} (m : Store A) : keeps w_db m → atomic (quiet m).
Proof. intros Hm. apply atomic_then. by apply atomic_keeps. Qed.
Lemma keeps_pending_listing : keeps w_db list_pending_runtime_actions.
Proof. unfold list_pending_runtime_actions. repeat (apply keeps_bind; [eauto with keeps|intros]); eauto with keeps. Qed.
Lemma keeps_unknown_listing l : keeps w_db (list_runtime_actions_requiring_reconciliation l).
Proof.
  unfold list_runtime_actions_requiring_reconciliation.
  repeat (apply keeps_bind; [eauto with keeps|intros]); eauto with keeps.
Qed.
Lemma keeps_pin_listing l : keeps w_db (list_pending_pin_releases l).
Proof.
  unfold list_pending_pin_releases. repeat (apply keeps_bind; [eauto with keeps|intros]).
  apply keeps_map_m. intros x. apply keeps_bind; [apply (keeps_pin_release (λ d, d))|].
  intros [r v]. eauto with keeps.
Qed.

Lemma run_runtime_atomic c : atomic (run_runtime c).
Proof.
  destruct c; simpl; try (apply atomic_loud);
    auto using keeps_listing, keeps_pending_listing, keeps_unknown_listing, keeps_pin_listing;
    unfold claim_runtime_action, acknowledge_runtime_action, fail_runtime_action,
      reject_runtime_action,
      mark_runtime_action_outcome_unknown, claim_runtime_action_reconciliation,
      defer_runtime_action_reconciliation, retry_runtime_action_delivery, claim_pin_release,
      acknowledge_pin_release, fail_pin_release, settle_pin_release, retry_pin_release;
    all_or_nothing.
Qed.

(** ** Rows over time *)

Lemma keeps_transaction {V A} (view : db → V) (body : Store A) :
  keeps (λ w, view (w_db w)) body → keeps (λ w, view (w_db w)) (transaction body).
Proof. intros Hb w. specialize (Hb w). unfold transaction. by destruct (body w). Qed.
Lemma keeps_command {V} (view : db → V) a o k request body :
  (∀ f d, view (set_receipts f d) = view d) →
  keeps (λ w, view (w_db w)) body → keeps (λ w, view (w_db w)) (command a o k request body).
Proof.
  intros Hv Hb. apply keeps_transaction, keeps_bind; [apply keeps_receipt|intros [r|]]; [done|].
  apply keeps_bind; [done|intros [v code]]. by apply keeps_save_receipt.
Qed.
Lemma keeps_claim_command {V} (view : db → V) a o k request current target body :
  (∀ f d, view (set_receipts f d) = view d) →
  (∀ r, keeps (λ w, view (w_db w)) (current r)) → keeps (λ w, view (w_db w)) body →
  keeps (λ w, view (w_db w)) (claim_command a o k request current target body).
Proof.
  intros Hv Hc Hb. apply keeps_transaction, keeps_bind; [apply keeps_receipt|intros [r|]].
  - apply keeps_bind; [apply Hc|eauto with keeps].
  - apply keeps_bind; [done|intros v]. by apply keeps_save_receipt.
Qed.
Lemma keeps_actions_update_pin id p f :
  keeps (λ w, runtime_actions (w_db w)) (update_pin id p f).
Proof.
  unfold update_pin. apply keeps_bind; [eauto with keeps|intros [r|]]; [|eauto with keeps].
  destruct (p r); [apply keeps_bind|]; eauto with keeps.
Qed.
Lemma keeps_pins_update_action id p f :
  keeps (λ w, runtime_pin_releases (w_db w)) (update_action id p f).
Proof.
  unfold update_action. apply keeps_bind; [eauto with keeps|intros [r|]]; [|eauto with keeps].
  destruct (p r); [apply keeps_bind|]; eauto with keeps.
Qed.
End Runs_of_commands.

(** [kept] follows a command's code when its UPDATEs leave the view alone. *)
Ltac kept_step := lazymatch goal with
  | |- keeps _ (transaction _) => apply keeps_transaction
  | |- keeps _ (command _ _ _ _ _) => apply keeps_command; [done|]
  | |- keeps _ (claim_command _ _ _ _ _ _ _) =>
      apply keeps_claim_command; [done|intros; unfold claim_replay_is_current|]
  | |- keeps _ (_ ≫= _) => apply keeps_bind; [|intros]
  | |- keeps _ (map_m _ _) => apply keeps_map_m; intros
  | |- keeps _ (if _ then _ else _) => case_match
  | |- keeps _ (match _ with _ => _ end) => case_match
  | |- keeps _ (update_run _ _ _ _) => apply keeps_update_run; done
  | |- keeps _ (update_pin _ _ _) => apply keeps_actions_update_pin
  | |- keeps _ (update_action _ _ _) => apply keeps_pins_update_action
  | _ => solve [eauto using keeps_check_lease, keeps_check_epoch, keeps_required_opt' with keeps]
  end.
Ltac kept := repeat kept_step.

Definition touches_actions (c : runtime_command) : bool :=
  match c with
  | ClaimAction _ _ _ _ _ | AcknowledgeAction _ _ _ _ _ _ _ _ _ _ _ | FailAction _ _ _ _ _ _ _
  | RejectAction _ _ _ _ _ _ _ | MarkUnknown _ _ _ _ _ _ _ | ClaimReconciliation _ _ _ _ _
  | DeferReconciliation _ _ _ _ _ _ _ | RetryDelivery _ _ _ _ _ _ => true
  | _ => false
  end.
Definition touches_pins (c : runtime_command) : bool :=
  match c with
  | FailAction _ _ _ _ _ _ _ | ClaimPin _ _ _ _ _ | AcknowledgePin _ _ _ _ _ _
  | FailPin _ _ _ _ _ _ _ | RetryPin _ _ _ _ => true
  | _ => false
  end.

Section Rows.
Context `{Env}.

Lemma keeps_actions c : touches_actions c = false →
  keeps (λ w, runtime_actions (w_db w)) (run_runtime c).
Proof.
  destruct c; intros [=]; simpl; unfold quiet, loud, list_pending_runtime_actions,
    list_runtime_actions_requiring_reconciliation, action_dicts, list_pending_pin_releases,
    claim_pin_release, claim_pin_body, acknowledge_pin_release, fail_pin_release,
    settle_pin_release, settle_pin_body, retry_pin_release, retry_pin_body; kept.
Qed.
Lemma keeps_pins c : touches_pins c = false →
  keeps (λ w, runtime_pin_releases (w_db w)) (run_runtime c).
Proof.
  destruct c; intros [=]; simpl; unfold quiet, loud, list_pending_runtime_actions,
    list_runtime_actions_requiring_reconciliation, action_dicts, list_pending_pin_releases,
    claim_runtime_action, claim_action_body, acknowledge_runtime_action, acknowledge_body,
    reject_runtime_action, mark_runtime_action_outcome_unknown,
    claim_runtime_action_reconciliation, claim_reconciliation_body,
    defer_runtime_action_reconciliation, retry_runtime_action_delivery, settle_body,
    reject_finish, bump_run, update_attempt_state; kept.
Qed.

(** The row a command names, and the claim a settling command presents. *)
Definition action_named (c : runtime_command) : option string :=
  match c with
  | ClaimAction i _ _ _ _ | AcknowledgeAction i _ _ _ _ _ _ _ _ _ _ | FailAction i _ _ _ _ _ _
  | RejectAction i _ _ _ _ _ _ | MarkUnknown i _ _ _ _ _ _ | ClaimReconciliation i _ _ _ _
  | DeferReconciliation i _ _ _ _ _ _ | RetryDelivery i _ _ _ _ _ => Some i
  | _ => None
  end.
Definition presents (c : runtime_command) : option (string * Z) :=
  match c with
  | AcknowledgeAction _ _ _ _ _ _ _ (Some o) (Some e) _ _ => Some (strip o, e)
  | FailAction _ o e _ _ _ _ | RejectAction _ o e _ _ _ _ | MarkUnknown _ o e _ _ _ _
  | DeferReconciliation _ o e _ _ _ _ | RetryDelivery _ o e _ _ _ => Some (strip o, e)
  | _ => None
  end.
(** A verdict on an inspected action: it was applied, refused or not applied. *)
Definition verdict (c : runtime_command) : bool :=
  match c with
  | AcknowledgeAction _ _ _ _ _ _ _ _ _ _ _ | FailAction _ _ _ _ _ _ _
  | RejectAction _ _ _ _ _ _ _ | RetryDelivery _ _ _ _ _ _ => true
  | _ => false
  end.

(** What a command that answers does to the actions: nothing, or one move of the
    row it names; the settling commands hold the claim they present. *)
Definition action_change (c : runtime_command) (w w' : world) : Prop :=
  runtime_actions (w_db w') = runtime_actions (w_db w) ∨
  ∃ id a a', action_named c = Some id ∧ runtime_actions (w_db w) !! id = Some a ∧
    action_moves a a' ∧ runtime_actions (w_db w') = <[id := a']> (runtime_actions (w_db w)) ∧
    (∀ o e, presents c = Some (o, e) → held_by o e w a) ∧
    (ra_outcome_state a ≠ ready → ra_outcome_state a' = ready →
     ra_outcome_state a = reconcile ∧ verdict c = true ∧ is_Some (presents c)).

Lemma run_runtime_action c w : action_change c w (end_world (run_runtime c w)).
Proof.
  destruct (run_runtime c w) as [x w'|e w'] eqn:Hr; cbn [end_world];
    [|left; by rewrite (run_runtime_atomic c w e w' Hr)].
  destruct (touches_actions c) eqn:Ht;
    [|left; exact (keeps_ok (λ w, runtime_actions (w_db w)) _ _ _ _ (keeps_actions c Ht) Hr)].
  destruct c; try discriminate Ht; clear Ht; cbn [run_runtime] in Hr; unfold loud in Hr;
    apply bind_ok in Hr as (r & w1 & Hm & [_ <-]%ret_ok).
  - apply claim_action_effect in Hm as [(_ & E & _) | (_ & a & e & Ha & Hst & Ho & Hf & E)];
      [left; by rewrite E|right].
    exists id, a, (ra_lease (strip worker) e ready a). split_and!; try done.
    split; [done|]; eapply step_deliver; eauto; done.
  - apply acknowledge_acts in Hm as [[_ ->] | (_ & a & a' & Ha & (o & ep & -> & -> & Hack) & E)];
      [by left|right]. destruct Hack as (Hh & Hd & _ & _ & _ & _ & _ & t & ->).
    exists id, a, (ra_settle act_acked t (ra_failure_category a) a). split_and!; try done.
    + destruct Hh as (? & ? & _). split; [done|]; eapply step_settle; eauto; done.
    + by intros ? ? [= <- <-].
    + intros Hne _. split; [by destruct (ra_outcome_state a)|done].
  - apply fail_command_ok in Hm as [[_ ->] | (_ & t & a & rn & Ha & Hf)]; [by left|right].
    destruct Hf as [Hh Hd _ _ E _ _ _ _ _ _].
    exists id, a, (ra_settle act_failed t (Some (strip category)) a). split_and!; try done.
    + destruct Hh as (? & ? & _). split; [done|]; eapply step_settle; eauto; done.
    + by intros ? ? [= <- <-].
    + intros Hne _. split; [by destruct (ra_outcome_state a)|done].
  - apply reject_acts in Hm as [[_ ->] | (_ & a & a' & Ha & (Hh & Hd & t & ->) & E)];
      [by left|right].
    exists id, a, (ra_settle act_failed t (Some (strip category)) a). split_and!; try done.
    + destruct Hh as (? & ? & _). split; [done|]; eapply step_settle; eauto; done.
    + by intros ? ? [= <- <-].
    + intros Hne _. split; [by destruct (ra_outcome_state a)|done].
  - apply mark_acts in Hm as [[_ ->] | (_ & a & a' & Ha & (Hh & Ho & ->) & E)]; [by left|right].
    exists id, a, (ra_release (Some (strip category)) outcome_unknown a). split_and!; try done.
    + destruct Hh as (? & ? & _). split; [done|]; eapply step_lose; eauto; done.
    + by intros ? ? [= <- <-].
  - apply claim_reconciliation_effect in Hm as [(_ & E) | (_ & a & e & Ha & Hst & Hi & E)];
      [left; by rewrite E|right].
    exists id, a, (ra_lease (strip worker) e reconcile a). split_and!; try done.
    split; [done|]; eapply step_inspect; eauto; done.
  - apply defer_acts in Hm as [[_ ->] | (_ & a & a' & Ha & (Hh & Ho & ->) & E)]; [by left|right].
    exists id, a, (ra_release (Some (strip category)) outcome_unknown a). split_and!; try done.
    + destruct Hh as (? & ? & _). split; [done|]; eapply step_defer; eauto; done.
    + by intros ? ? [= <- <-].
  - apply retry_acts in Hm as [[_ ->] | (_ & a & a' & Ha & (Hh & Ho & ->) & E)]; [by left|right].
    exists id, a, (ra_release None ready a). split_and!; try done.
    + destruct Hh as (? & ? & _). split; [done|]; eapply step_requeue; eauto; done.
    + by intros ? ? [= <- <-].
Qed.

(** The row of an action after a command, and along a session. *)
Lemma action_row_step c w id a :
  runtime_actions (w_db w) !! id = Some a →
  ∃ a', runtime_actions (w_db (end_world (run_runtime c w))) !! id = Some a' ∧
    (a' = a ∨ action_moves a a' ∧ action_named c = Some id ∧
      (∀ o e, presents c = Some (o, e) → held_by o e w a) ∧
      (ra_outcome_state a ≠ ready → ra_outcome_state a' = ready →
       ra_outcome_state a = reconcile ∧ verdict c = true ∧ is_Some (presents c))).
Proof.
  intros Ha. destruct (run_runtime_action c w) as [E | (i & b & b' & Hn & Hb & Hm & E & Hp & Hv)].
  - exists a. rewrite E. by split; [|left].
  - rewrite E. destruct (decide (i = id)) as [-> | Hne].
    + rewrite Ha in Hb. injection Hb as <-. exists b'. rewrite lookup_insert_eq.
      split; [done|]. by right.
    + exists a. rewrite lookup_insert_ne by done. by split; [|left].
Qed.
Lemma action_row_session cmds w id a :
  runtime_actions (w_db w) !! id = Some a →
  ∃ a', runtime_actions (w_db (runtime_session cmds w)) !! id = Some a' ∧ rtc action_moves a a'.
Proof.
  revert w a. induction cmds as [|c cmds IH]; intros w a Ha; simpl; [exists a; by split|].
  destruct (action_row_step c w id a Ha) as (b & Hb & Hstep).
  destruct (IH _ _ Hb) as (a' & Ha' & Hs). exists a'. split; [done|].
  destruct Hstep as [-> | [Hm _]]; [done|]. by eapply rtc_l.
Qed.
Lemma no_new_actions cmds w id :
  runtime_actions (w_db w) !! id = None →
  runtime_actions (w_db (runtime_session cmds w)) !! id = None.
Proof.
  revert w. induction cmds as [|c cmds IH]; intros w Hn; simpl; [done|]. apply IH.
  destruct (run_runtime_action c w) as [E | (i & b & b' & _ & Hb & _ & E & _)]; rewrite E; [done|].
  rewrite lookup_insert_ne; [done|]. intros ->. by rewrite Hn in Hb.
Qed.

(** ... and what it does to the pin releases. *)
Definition pin_change (w w' : world) : Prop :=
  runtime_pin_releases (w_db w') = runtime_pin_releases (w_db w) ∨
  (∃ id p p', runtime_pin_releases (w_db w) !! id = Some p ∧ pin_step (w_db w) p p' ∧
    runtime_pin_releases (w_db w') = <[id := p']> (runtime_pin_releases (w_db w))) ∨
  (∃ id p, runtime_pin_releases (w_db w) !! id = None ∧
    pr_state p = act_pending ∧ pr_claim p = Claim None None 0 ∧
    holders (pr_attempt_id p) (pr_runtime_release_id p) (pr_state_generation_id p) (w_db w) = [] ∧
    runtime_pin_releases (w_db w') = <[id := p]> (runtime_pin_releases (w_db w))).

Lemma settle_pin_change id o e n target category a k w r w' :
  target ≠ act_pending → settle_pin_release id o e n target category a k w = Ok r w' →
  pin_change w w'.
Proof.
  unfold settle_pin_release, check_epoch. intros Ht Hm. mgo.
  match goal with H : command _ _ _ _ _ _ = _ |- _ => apply command_ok in H as [_ Hc] end.
  destruct (idempotency_receipts _ !! _); [destruct Hc as [-> _]; by left|right; left].
  destruct Hc as (v & code & w1 & Hb & (_ & _ & ->)%save_receipt_ok).
  apply settle_pin_body_ok in Hb as (p & t & Hp & Hst & Ho & _ & _ & E).
  eexists id, p, _. split; [done|]. split; [|exact E]. by eapply pin_settle.
Qed.

Lemma run_runtime_pins c w : pin_change w (end_world (run_runtime c w)).
Proof.
  destruct (run_runtime c w) as [x w'|e w'] eqn:Hr; cbn [end_world];
    [|left; by rewrite (run_runtime_atomic c w e w' Hr)].
  destruct (touches_pins c) eqn:Ht;
    [|left; exact (keeps_ok (λ w, runtime_pin_releases (w_db w)) _ _ _ _ (keeps_pins c Ht) Hr)].
  destruct c; try discriminate Ht; clear Ht; cbn [run_runtime] in Hr; unfold loud in Hr;
    apply bind_ok in Hr as (r & w1 & Hm & [_ <-]%ret_ok).
  - apply fail_command_ok in Hm as [[_ ->] | (_ & t & a & rn & _ & Hf)]; [by left|].
    apply fr_pins in Hf as [E | (at_ & i & w2 & w3 & Hi & E2 & E3)]; [by left|].
    apply insert_pin_ok in Hi as [_ [-> | (p & Hn & Ew & _ & Hst & Hcl & Hh)]];
      [left; congruence|right; right].
    exists i, p. unfold holders in *. rewrite <- E3, <- E2, Ew. done.
  - apply claim_pin_effect in Hm as [[_ E] | (_ & p & p' & Hp & Hs & E)]; [left; by rewrite E|].
    right; left. by exists id, p, p'.
  - by eapply settle_pin_change in Hm.
  - unfold fail_pin_release in Hm. mgo. by eapply settle_pin_change in Hm.
  - apply command_ok in Hm as [_ Hc]. destruct (idempotency_receipts _ !! _);
      [destruct Hc as [-> _]; by left|right; left].
    destruct Hc as (v & code & w2 & Hb & (_ & _ & ->)%save_receipt_ok).
    apply retry_pin_body_ok in Hb as (p & Hp & Hst & E).
    eexists id, p, _. split; [done|]. split; [|exact E]. by apply pin_again.
Qed.

Lemma pin_row_session cmds w id p :
  runtime_pin_releases (w_db w) !! id = Some p →
  ∃ p', runtime_pin_releases (w_db (runtime_session cmds w)) !! id = Some p' ∧ pin_later p p'.
Proof.
  revert w p. induction cmds as [|c cmds IH]; intros w p Hp; simpl; [by exists p|].
  assert (∃ q, runtime_pin_releases (w_db (end_world (run_runtime c w))) !! id = Some q ∧
    pin_later p q) as (q & Hq & Hl).
  { destruct (run_runtime_pins c w) as [E | [(i & q & q' & Hq & Hs & E) | (i & q & Hq & _ & _ & _ & E)]];
      rewrite E; [by exists p| |].
    2:{ exists p. rewrite lookup_insert_ne; [done|]. intros ->. by rewrite Hp in Hq. }
    destruct (decide (i = id)) as [-> | Hne]; [|exists p; by rewrite lookup_insert_ne].
    rewrite Hp in Hq. injection Hq as <-. exists q'. rewrite lookup_insert_eq.
    split; [done|]. by eapply pin_step_later. }
  destruct (IH _ _ Hq) as (p' & Hp' & Hl'). exists p'. split; [done|]. by etrans.
Qed.
Lemma pins_unique_session cmds w :
  pins_unique (w_db w) → pins_unique (w_db (runtime_session cmds w)).
Proof.
  revert w. induction cmds as [|c cmds IH]; intros w Hu; simpl; [done|]. apply IH.
  destruct (run_runtime_pins c w)
    as [E | [(i & p & p' & Hp & Hs & E) | (i & p & Hn & _ & _ & Hh & E)]].
  - unfold pins_unique. by rewrite E.
  - apply (pins_unique_update _ _ _ _ _ Hp (proj1 (pin_step_later _ _ _ Hs)) E Hu).
  - by apply (pins_unique_insert (w_db w) _ i p).
Qed.
End Rows.

(** ** Presented claims, listings and claims that succeed *)

Section Claims.
Context `{Env}.

Lemma presented_ok c w x w' o e :
  presents c = Some (o, e) → run_runtime c w = Ok x w' →
  ∃ r, x = Some r ∧
    ((cr_replayed r = true ∧ w' = w) ∨
     ∃ id a, action_named c = Some id ∧ runtime_actions (w_db w) !! id = Some a ∧ held_by o e w a).
Proof.
  intros Hp Hr. destruct c; try discriminate Hp; cbn [run_runtime presents] in *; unfold loud in Hr;
    apply bind_ok in Hr as (r & w1 & Hm & [<- <-]%ret_ok); exists r; (split; [done|]).
  - destruct owner as [ow|], epoch as [ep|]; try discriminate Hp. injection Hp as <- <-.
    apply acknowledge_acts in Hm as [? | (_ & a & a' & Ha & (? & ? & [= <-] & [= <-] & Hh & _) & _)];
      [by left|right; eauto].
  - injection Hp as <- <-. apply fail_command_ok in Hm as [? | (_ & t & a & rn & Ha & Hf)];
      [by left|right; pose proof (fr_held _ _ _ _ _ _ _ _ _ _ Hf); eauto].
  - injection Hp as <- <-. apply reject_acts in Hm as [? | (_ & a & a' & Ha & (Hh & _) & _)];
      [by left|right; eauto].
  - injection Hp as <- <-. apply mark_acts in Hm as [? | (_ & a & a' & Ha & (Hh & _) & _)];
      [by left|right; eauto].
  - injection Hp as <- <-. apply defer_acts in Hm as [? | (_ & a & a' & Ha & (Hh & _) & _)];
      [by left|right; eauto].
  - injection Hp as <- <-. apply retry_acts in Hm as [? | (_ & a & a' & Ha & (Hh & _) & _)];
      [by left|right; eauto].
Qed.

(** The dictionaries of listed rows. *)
Definition dict_of (d : db) (x : string * action_row) (v : json) : Prop :=
  ∃ r payload, runtime_actions d !! x.1 = Some r ∧ loads (ra_payload_json r) = Some payload ∧
    v = action_json x.1 r payload.
Lemma action_dicts_ok rows w l w' :
  action_dicts rows w = Ok l w' → w' = w ∧ Forall2 (dict_of (w_db w)) rows l.
Proof.
  revert l. induction rows as [|x rows IH]; intros l Hl; unfold action_dicts in Hl; simpl in Hl.
  { apply ret_ok in Hl as [<- <-]. by split. }
  apply bind_ok in Hl as (v & w1 & Hv & Hl).
  apply bind_ok in Hv as ([r v0] & w2 & Hv & Hret). rewrite runtime_action_ok in Hv.
  destruct Hv as (Hr & -> & payload & Hp & ->). apply ret_ok in Hret as [<- <-].
  apply bind_ok in Hl as (vs & w3 & Hvs & [<- <-]%ret_ok).
  destruct (IH _ Hvs) as [-> Hf]. split; [done|]. constructor; [|done]. by exists r, payload.
Qed.
Lemma elem_of_actions_where p d id a :
  (id, a) ∈ actions_where p d ↔ runtime_actions d !! id = Some a ∧ p a = true.
Proof.
  unfold actions_where. rewrite elem_of_isort, list_elem_of_In, List.filter_In, <- list_elem_of_In,
    elem_of_map_to_list. done.
Qed.

(** When a claim goes through. *)
Record claimable (w : world) (id : string) (a : action_row) : Prop := {
  cb_row : runtime_actions (w_db w) !! id = Some a;
  cb_payload : is_Some (loads (ra_payload_json a));
  cb_pending : ra_state a = act_pending;
  cb_ready : ra_outcome_state a = ready;
  cb_run : ∃ r, runs (w_db w) !! ra_run_id a = Some r ∧
    ru_active_attempt_id r = Some (ra_attempt_id a) ∧
    delivery_blocked (ra_kind a) (ru_state r) = false;
  cb_free : claim_free (format_time (clock (w_ticks w))) (ra_claim a) = true }.
(** A request no receipt answers, with arguments that pass. *)
Record fresh_claim (w : world) (id worker : string) (lease : Z) (actor key : string) : Prop := {
  fc_worker : strip worker ≠ "" ∧ slen worker <= 200;
  fc_lease : 1 <= lease <= 300;
  fc_end : is_Some (dt_add_seconds (clock (w_ticks w)) lease);
  fc_key : key_ok key = true;
  fc_receipt : idempotency_receipts (w_db w) !! (actor, action_path id "claim", key) = None }.

Lemma claim_body_runs w id a worker lease expires :
  claimable w id a → dt_add_seconds (clock (w_ticks w)) lease = Some expires →
  ∃ v, claim_action_body id worker lease w = Ok v (World (set_runtime_actions
    (<[id := ra_lease worker (format_time expires) ready a]>) (w_db w)) (S (w_ticks w)) (w_ids w)).
Proof.
  intros [Hrow [payload Hp] Hst Hrd (r & Hr & Hact & Hd) Hf] He. unfold claim_action_body.
  rewrite (bind_run _ _ _ (a, action_json id a payload) w)
    by (rewrite runtime_action_ok; eauto 10).
  rewrite (bind_run _ _ _ tt w) by (apply ensure_ok; unfold is_pending; by rewrite Hst, Hrd).
  rewrite (bind_run _ _ _ (r, run_json (ra_run_id a) r) w) by (by apply run_ok).
  rewrite (bind_run _ _ _ tt w)
    by (apply ensure_ok; by rewrite Hact, Hd, bool_decide_eq_true_2).
  rewrite (bind_run _ _ _ (clock (w_ticks w)) (World (w_db w) (S (w_ticks w)) (w_ids w)))
    by (by apply utc_now_ok).
  rewrite (bind_run _ _ _ (format_time expires) (World (w_db w) (S (w_ticks w)) (w_ids w)))
    by (apply format_after_ok; eauto).
  set (a' := ra_lease worker (format_time expires) ready a).
  set (w' := World (set_runtime_actions (<[id := a']>) (w_db w)) (S (w_ticks w)) (w_ids w)).
  rewrite (bind_run _ _ _ 1 w').
  2:{ rewrite update_action_ok. cbn [w_db]. rewrite Hrow, Hf. unfold is_pending.
      rewrite Hst, Hrd, !bool_decide_eq_true_2 by done. by split. }
  rewrite (bind_run _ _ _ tt w') by (by apply ensure_ok).
  exists (action_json id a' payload).
  rewrite (bind_run _ _ _ (a', action_json id a' payload) w'); [done|].
  rewrite runtime_action_ok. unfold w'. simpl. rewrite lookup_insert_eq. eauto 10.
Qed.

Lemma claim_runs w id a worker lease actor key :
  claimable w id a → fresh_claim w id worker lease actor key →
  ∃ expires r w', dt_add_seconds (clock (w_ticks w)) lease = Some expires ∧
    claim_runtime_action id worker lease actor key w = Ok r w' ∧ cr_replayed r = false ∧
    runtime_actions (w_db w') = <[id := ra_lease (strip worker) (format_time expires) ready a]>
      (runtime_actions (w_db w)).
Proof.
  intros Hc [[Hw1 Hw2] Hl [expires He] Hk Hn].
  destruct (claim_body_runs w id a (strip worker) lease expires Hc He) as [v Hv].
  exists expires. eexists (CommandResult v 200 false), _. split; [done|].
  unfold claim_runtime_action.
  rewrite (bind_run _ _ _ (strip worker) w) by (by apply required_text_ok).
  rewrite (bind_run _ _ _ tt w)
    by (apply ensure_ok; split; [apply andb_true_iff; lia|done]).
  unfold claim_command. rewrite transaction_ok.
  rewrite (bind_run _ _ _ None w) by (apply receipt_ok; by rewrite Hn).
  rewrite (bind_run _ _ _ _ _ Hv).
  split; [by apply save_receipt_ok|]. split; [done|]. reflexivity.
Qed.
End Claims.
