(* ===== verification/RuntimeTheorems.v ===== *)
(** * The delivery queues: their theorems

    What a dispatcher, an inspector and the janitor of runtime pins may rely on,
    each with an instance. *)

From S2P Require Import Prelude PyText Clock Json Schema Store Demo Runs RuntimeActions PinReleases RuntimeFacts PinFacts RuntimeSessions.
Open Scope Z_scope.

(** ** A queue to instantiate the theorems with *)

Definition act_key (n : Z) : string := "delivery-key-000" +:+ dec n.
Definition demo_run : run_row :=
  RunRow "thread-1" "resuming" (Some "attempt-1") None 0 3 "2026-01-01" "2026-01-01".
Definition demo_attempt : attempt_row :=
  AttemptRow "run-1" 1 "resuming" (Some "binding-1") (Some "release-1") None None None None None
    (Some "generation-1") None None 1 (Some "slot-a") (Some "sha256:00") (Some "v1").
Definition demo_old_attempt : attempt_row := at_state_to "paused" demo_attempt.
Definition demo_action : action_row :=
  ActionRow "run-1" "attempt-1" "binding-1" "release-1" "decision.resolve" "{}" "2026-01-01"
    act_pending None (Claim None None 0) None ready.
Definition demo_queue : world := World
  (set_runs (<["run-1" := demo_run]>)
    (set_attempts (λ m, <["attempt-0" := demo_old_attempt]> (<["attempt-1" := demo_attempt]> m))
      (set_runtime_actions (<["act-1" := demo_action]>) empty_db))) 0 0.

Definition claim_1 := ClaimAction "act-1" "worker-a" 60 "dispatcher" (act_key 1).
Definition lost_1 := MarkUnknown "act-1" "worker-a" 1 3 "timeout" "dispatcher" (act_key 2).
Definition inspect_1 := ClaimReconciliation "act-1" "worker-b" 60 "inspector" (act_key 3).
Definition requeue_1 := RetryDelivery "act-1" "worker-b" 2 4 "inspector" (act_key 4).
Definition claim_2 := ClaimAction "act-1" "worker-c" 60 "dispatcher" (act_key 5).
Definition ack_2 := AcknowledgeAction "act-1" "run-1" "attempt-1" "binding-1" "release-1" 5
  (Some "generation-1") (Some "worker-c") (Some 3) "dispatcher" (act_key 6).
Abbreviation delivered cmds := (runtime_session cmds demo_queue).
Definition act_1 (w : world) : action_row := default demo_action (runtime_actions (w_db w) !! "act-1").

Example demo_delivery :
  map (λ cmds, let a := act_1 (delivered cmds) in
         (ra_state a, ra_outcome_state a, cl_owner (ra_claim a), cl_epoch (ra_claim a)))
    [[]; [claim_1]; [claim_1; lost_1]; [claim_1; lost_1; inspect_1];
     [claim_1; lost_1; inspect_1; requeue_1]; [claim_1; lost_1; inspect_1; requeue_1; claim_2];
     [claim_1; lost_1; inspect_1; requeue_1; claim_2; ack_2]]
  = [(act_pending, ready, None, 0); (act_pending, ready, Some "worker-a", 1);
     (act_pending, outcome_unknown, None, 1); (act_pending, reconcile, Some "worker-b", 2);
     (act_pending, ready, None, 2); (act_pending, ready, Some "worker-c", 3);
     (act_acked, ready, None, 3)].
Proof. vm_compute. reflexivity. Qed.

(** ** Refinement *)

(** C5: whatever delivery and pin commands arrive, answered or refused, each
    action takes the steps of the abstract queue and no other, no action appears
    or disappears, and rows that are well formed (an owner exactly with a lease,
    an unknown outcome unowned and with a category, an inspected action owned, a
    settled one unowned and dated) stay so. *)
Theorem action_queue_refines `{Env} cmds w :
  map_Forall (λ _, action_wf) (runtime_actions (w_db w)) →
  (∀ id, option_Forall2 (rtc action_moves) (runtime_actions (w_db w) !! id)
           (runtime_actions (w_db (runtime_session cmds w)) !! id)) ∧
  map_Forall (λ _, action_wf) (runtime_actions (w_db (runtime_session cmds w))).
Proof.
  intros Hwf. assert (∀ id, option_Forall2 (rtc action_moves) (runtime_actions (w_db w) !! id)
    (runtime_actions (w_db (runtime_session cmds w)) !! id)) as Hr.
  { intros id. destruct (runtime_actions (w_db w) !! id) as [a|] eqn:Ha.
    - destruct (action_row_session cmds w id a Ha) as (a' & -> & Hs). by constructor.
    - rewrite (no_new_actions cmds w id Ha). constructor. }
  split; [done|]. intros id a' Ha'. specialize (Hr id). rewrite Ha' in Hr.
  inversion Hr as [a b Hs Ha E|]; subst. symmetry in Ha. apply Hwf in Ha. clear -Hs Ha.
  induction Hs as [|a b c Hm _ IH]; [done|]. by apply IH, (action_moves_wf a).
Qed.

Lemma both_some {A} (R : A → A → Prop) x y : option_Forall2 R (Some x) (Some y) → R x y.
Proof. intros HR. by inversion HR. Qed.

Lemma action_queue_refines_witness :
  rtc action_moves demo_action (act_1 (delivered [claim_1; lost_1; inspect_1])) ∧
  action_wf (act_1 (delivered [claim_1; lost_1; inspect_1])).
Proof.
  destruct (action_queue_refines [claim_1; lost_1; inspect_1] demo_queue) as [Hr Hwf].
  - intros id a. simpl. intros [[<- <-] | [_ Ha]]%lookup_insert_Some.
    + unfold action_wf, claim_wf. simpl. by split_and!.
    + by rewrite lookup_empty in Ha.
  - assert (runtime_actions (w_db (delivered [claim_1; lost_1; inspect_1])) !! "act-1"
      = Some (act_1 (delivered [claim_1; lost_1; inspect_1]))) as E by (vm_compute; reflexivity).
    split; [|exact (Hwf _ _ E)]. specialize (Hr "act-1"). rewrite E in Hr.
    change (runtime_actions (w_db demo_queue) !! "act-1") with (Some demo_action) in Hr.
    exact (both_some _ _ _ Hr).
Defined.

(** ** Fencing *)

(** A claim that has been superseded is dead.  Once the action's epoch has
    passed the epoch a worker was given, whatever happens next, every settling
    command that presents that epoch is answered from its own receipt or
    refused, and nothing changes. *)
Theorem superseded_claim_refused `{Env} cmds w id a c o e :
  runtime_actions (w_db w) !! id = Some a → action_named c = Some id →
  presents c = Some (o, e) → e < cl_epoch (ra_claim a) →
  match run_runtime c (runtime_session cmds w) with
  | Ok x w' => (∃ r, x = Some r ∧ cr_replayed r = true) ∧ w' = runtime_session cmds w
  | Err _ w' => w_db w' = w_db (runtime_session cmds w)
  end.
Proof.
  intros Ha Hn Hp He.
  destruct (run_runtime c (runtime_session cmds w)) as [x w'|? w'] eqn:Hr;
    [|by eapply run_runtime_atomic].
  destruct (presented_ok c _ x w' o e Hp Hr) as (r & -> & [[Hrep ->] | (i & b & Hn' & Hb & Hh)]);
    [by eauto|exfalso].
  rewrite Hn in Hn'. injection Hn' as <-.
  destruct (action_row_session cmds w id a Ha) as (b' & Hb' & Hs). rewrite Hb in Hb'.
  injection Hb' as <-. destruct Hh as (_ & _ & <- & _).
  apply action_steps_later in Hs as (_ & Hle & _). lia.
Qed.

Lemma superseded_claim_refused_witness :
  match run_runtime lost_1 (runtime_session [claim_2] (delivered [claim_1; lost_1; inspect_1; requeue_1])) with
  | Ok x w' => (∃ r, x = Some r ∧ cr_replayed r = true) ∧
      w' = runtime_session [claim_2] (delivered [claim_1; lost_1; inspect_1; requeue_1])
  | Err _ w' => w_db w' = w_db (runtime_session [claim_2] (delivered [claim_1; lost_1; inspect_1; requeue_1]))
  end.
Proof.
  apply (superseded_claim_refused [claim_2] (delivered [claim_1; lost_1; inspect_1; requeue_1])
    "act-1" (act_1 (delivered [claim_1; lost_1; inspect_1; requeue_1])) lost_1 "worker-a" 1);
    vm_compute; reflexivity.
Defined.

(** ** The listing and the claim agree *)

Lemma pending_at_spec t d a r :
  is_Some (delivery_state (ra_kind a)) → runs d !! ra_run_id a = Some r →
  pending_at t d a = true ↔
  ra_state a = act_pending ∧ ra_outcome_state a = ready ∧
  ru_active_attempt_id r = Some (ra_attempt_id a) ∧
  delivery_blocked (ra_kind a) (ru_state r) = false ∧ claim_free t (ra_claim a) = true.
Proof.
  intros [s Hs] Hr. unfold pending_at, is_pending, delivery_due, delivery_blocked.
  rewrite Hr, Hs, !andb_true_iff, !bool_decide_eq_true, negb_false_iff. tauto.
Qed.

(** C15: the pending list is exactly what can be claimed.  For an action of a
    known kind, a fresh claim by any worker at this moment goes through if and
    only if the action is on the list the dispatcher is shown. *)
Theorem listed_iff_claimable `{Env} w l w' id a worker lease actor key :
  list_pending_runtime_actions w = Ok l w' →
  runtime_actions (w_db w) !! id = Some a → is_Some (delivery_state (ra_kind a)) →
  is_Some (loads (ra_payload_json a)) → fresh_claim w id worker lease actor key →
  (∃ v, v ∈ l ∧ jget "id" v = Some (JStr id)) ↔
  is_ok (claim_runtime_action id worker lease actor key w) = true.
Proof.
  intros Hl Ha Hk Hp Hf. unfold list_pending_runtime_actions in Hl.
  apply bind_ok in Hl as (t & w1 & [-> ->]%now_ok & Hl).
  apply bind_ok in Hl as (rows & w2 & [-> ->]%query_ok & Hl).
  apply action_dicts_ok in Hl as [_ Hl]. cbn [w_db] in Hl. split.
  - intros (v & Hv & Hid).
    destruct (Forall2_in_r _ _ _ _ Hl Hv) as ([i b] & Hin & (b' & p & Hb' & _ & ->)).
    cbn in Hid, Hb'. injection Hid as ->. rewrite Ha in Hb'. injection Hb' as <-.
    apply elem_of_actions_where in Hin as [Hb Hpend]. rewrite Ha in Hb. injection Hb as <-.
    destruct (runs (w_db w) !! ra_run_id a) as [r|] eqn:Hr.
      destruct (proj1 (pending_at_spec _ _ _ _ Hk Hr) Hpend) as (Hst & Ho & Hact & Hd & Hfree).
      assert (claimable w id a) as Hc by (split; [done..|by exists r|done]).
      destruct (claim_runs w id a worker lease actor key Hc Hf) as (e & r2 & w2 & _ & E & _).
      by rewrite E.
    + unfold pending_at in Hpend. rewrite Hr, andb_false_r in Hpend. done.
  - intros Hok. destruct (claim_runtime_action id worker lease actor key w) as [r w2|] eqn:Hc;
      [clear Hok|done].
    unfold claim_runtime_action, check_lease in Hc. destruct Hf as [_ _ _ _ Hn]. mgo.
    match goal with H : claim_command _ _ _ _ _ _ _ _ = _ |- _ => rename H into Hc end.
    apply claim_command_ok in Hc as [([? Hs] & _) | (_ & _ & v & w4 & Hb & _)];
      [by rewrite Hn in Hs|].
    apply claim_action_body_ok in Hb as (b & rn & e & Hb & Hst & Ho & Hrun & Hact & Hd & Hfr & _).
    rewrite Ha in Hb. injection Hb as <-.
    assert ((id, a) ∈ actions_where (pending_at (format_time (clock (w_ticks w))) (w_db w)) (w_db w))
      as Hin by (apply elem_of_actions_where; split; [done|by apply (pending_at_spec _ _ _ rn)]).
    destruct (Forall2_in_l _ _ _ _ Hl Hin) as (v' & Hv' & (b & p & _ & _ & ->)).
    eexists. split; [exact Hv'|]. reflexivity.
Qed.

Lemma listed_iff_claimable_witness :
  is_ok (claim_runtime_action "act-1" "worker-z" 30 "dispatcher" (act_key 9) demo_queue) = true.
Proof.
  apply (listed_iff_claimable demo_queue
    (answer [] (list_pending_runtime_actions demo_queue))
    (end_world (list_pending_runtime_actions demo_queue)) "act-1" demo_action).
  - apply answered. vm_compute. reflexivity.
  - reflexivity.
  - by eexists.
  - vm_compute. by eexists.
  - split; [by split|lia|vm_compute; by eexists|reflexivity|reflexivity].
  - eexists. split; [vm_compute; left|reflexivity].
Defined.

(** ** The event log *)

(** C23: the events of every run stay numbered 1, 2, ... up to the run's
    [latest_sequence] in the order they were appended, under a global cursor
    that only grows: no delivery or pin command skips, repeats or rewrites an
    event, and none invents a run. *)
Theorem run_log_ordered `{Env} cmds w :
  log_ok (w_db w) →
  let w' := runtime_session cmds w in
  (∀ id r, runs (w_db w') !! id = Some r →
     sequences id (run_events (w_db w')) = seqZ 1 (ru_latest_sequence r)) ∧
  StronglySorted Z.lt (map ev_global_cursor (run_events (w_db w'))) ∧
  run_events (w_db w) `prefix_of` run_events (w_db w') ∧
  dom (runs (w_db w')) = dom (runs (w_db w)).
Proof.
  intros Hok w'. destruct (runtime_session_log cmds w) as (Hlog & Hpre & Hdom).
  destruct (Hlog Hok) as (Hs & Hc & _). split; [|done]. intros id r Hr.
  subst w'. apply (Hs id). cbn [fst log_view]. by rewrite lookup_fmap, Hr.
Qed.

Lemma log_ok_fresh d :
  run_events d = [] → (∀ id r, runs d !! id = Some r → ru_latest_sequence r = 0) → log_ok d.
Proof.
  intros He Hr. unfold log_ok, log_good, log_view. cbn [fst snd]. rewrite He. split; [|split].
  - intros id n. rewrite lookup_fmap. destruct (runs d !! id) as [r|] eqn:E; [|done].
    intros [= <-]. by rewrite (Hr id r E).
  - constructor.
  - by intros e He'%not_elem_of_nil.
Qed.

Lemma run_log_ordered_witness :
  sequences "run-1" (run_events (w_db (delivered [claim_1; lost_1; inspect_1; requeue_1; claim_2; ack_2])))
  = seqZ 1 3.
Proof.
  pose (w' := delivered [claim_1; lost_1; inspect_1; requeue_1; claim_2; ack_2]).
  assert (∃ r, runs (w_db w') !! "run-1" = Some r ∧ ru_latest_sequence r = 3) as (r & Hr & E).
  { exists (default demo_run (runs (w_db w') !! "run-1")). split; vm_compute; reflexivity. }
  rewrite <- E.
  refine (proj1 (run_log_ordered [claim_1; lost_1; inspect_1; requeue_1; claim_2; ack_2]
    demo_queue _) "run-1" r Hr).
  apply log_ok_fresh; [reflexivity|]. intros id x Hx.
  change (runs (w_db demo_queue)) with (<["run-1" := demo_run]> (∅ : gmap string run_row)) in Hx.
  apply lookup_insert_Some in Hx as [[_ <-] | [_ Hx]]; [reflexivity|].
  rewrite lookup_empty in Hx. discriminate Hx.
Defined.

(** ** Pin releases *)

(** C24: the pin of an attempt is released at most once.  After it has been
    queued, and whatever the janitor does, queueing it again (by a cancelled or a
    failed run, say) answers the same release and changes nothing; every command
    changes at most one release by one step of its life, a claim only when no
    active attempt owns the pin; and an acknowledged release never changes. *)
Theorem pin_released_once `{Env} cmds w id run_id run_id' attempt_id a t t' w1 :
  pins_unique (w_db w) → insert_pin_release run_id attempt_id a t w = Ok id w1 →
  let w2 := runtime_session cmds w1 in
  insert_pin_release run_id' attempt_id a t' w2 = Ok id w2 ∧ pins_unique (w_db w2) ∧
  (∀ pre c post, cmds = pre ++ c :: post →
     pin_change (runtime_session pre w1) (end_world (run_runtime c (runtime_session pre w1)))) ∧
  (∀ i p, runtime_pin_releases (w_db w1) !! i = Some p → pr_state p = act_acked →
     runtime_pin_releases (w_db w2) !! i = Some p).
Proof.
  intros Hu Hi w2. pose proof (insert_pin_unique _ _ _ _ _ _ _ Hu Hi) as Hu1.
  pose proof (pins_unique_session cmds w1 Hu1) as Hu2.
  destruct (proj1 (insert_pin_ok _ _ _ _ _ _ _ Hi)) as (p & Hp & Hof).
  destruct (pin_row_session cmds w1 id p Hp) as (p' & Hp' & Hsame & _).
  split; [|split; [done|split]].
  - apply (insert_pin_again _ _ _ _ _ _ _ _ _ _ _ Hi Hu2 Hp'). by eapply pin_of_identity.
  - intros pre c post _. apply run_runtime_pins.
  - intros i q Hq Hacked. destruct (pin_row_session cmds w1 i q Hq) as (q' & Hq' & _ & _ & E).
    by rewrite <- (E Hacked).
Qed.

Abbreviation demo_pinned := (insert_pin_release "run-1" "attempt-0" demo_old_attempt "2026-01-02" demo_queue).
Definition demo_janitor : list runtime_command :=
  [ClaimPin "pin_release-0" "janitor" 60 "janitor" (act_key 1);
   AcknowledgePin "pin_release-0" "janitor" 1 3 "janitor" (act_key 2);
   RetryPin "pin_release-0" 4 "janitor" (act_key 3)].
Example demo_janitor_works :
  (λ cmds, pr_state <$> (runtime_pin_releases (w_db (runtime_session cmds (end_world demo_pinned)))
     !! "pin_release-0")) <$> [[]; demo_janitor]
  = [Some act_pending; Some act_acked].
Proof. vm_compute. reflexivity. Qed.

Lemma pin_released_once_witness :
  let w2 := runtime_session demo_janitor (end_world demo_pinned) in
  insert_pin_release "run-1" "attempt-0" demo_old_attempt "2026-01-03" w2 = Ok "pin_release-0" w2.
Proof.
  refine (proj1 (pin_released_once demo_janitor demo_queue "pin_release-0" "run-1" "run-1"
    "attempt-0" demo_old_attempt "2026-01-02" "2026-01-03" (end_world demo_pinned) _ _)).
  - intros i j p q Hp. exfalso. simpl in Hp. by rewrite lookup_empty in Hp.
  - apply (answered "pin_release-0"). vm_compute. reflexivity.
Defined.

(** ** Recovery *)

(** C25: a delivery whose worker has gone is recovered.  A second after its lease
    has run out, if the run still waits for the action and the row is as the
    claim left it, a fresh claim by any worker goes through and takes the next
    epoch. *)
Theorem abandoned_delivery_recovers `{Env} w w1 w2 id worker lease actor key r a run
    worker' lease' actor' key' :
  claim_runtime_action id worker lease actor key w = Ok r w1 → cr_replayed r = false →
  runtime_actions (w_db w1) !! id = Some a →
  runtime_actions (w_db w2) !! id = Some a → is_Some (loads (ra_payload_json a)) →
  runs (w_db w2) !! ra_run_id a = Some run → ru_active_attempt_id run = Some (ra_attempt_id a) →
  delivery_blocked (ra_kind a) (ru_state run) = false →
  clock (w_ticks w) + (lease + 1) * us_per_second <= clock (w_ticks w2) →
  fresh_claim w2 id worker' lease' actor' key' →
  ∃ r' w3 expires, claim_runtime_action id worker' lease' actor' key' w2 = Ok r' w3 ∧
    runtime_actions (w_db w3) !! id = Some (ra_lease (strip worker') expires ready a) ∧
    cl_epoch (ra_claim (ra_lease (strip worker') expires ready a)) = cl_epoch (ra_claim a) + 1.
Proof.
  intros Hc Hfr Ha1 Ha2 Hp Hrun Hact Hd Hclock Hfresh.
  unfold claim_runtime_action, check_lease in Hc. mgo.
  match goal with H : claim_command _ _ _ _ _ _ _ _ = _ |- _ => rename H into Hc end.
  apply claim_command_ok in Hc as [(_ & ? & _) | (_ & _ & v & w4 & Hb & (_ & _ & ->)%save_receipt_ok)];
    [congruence|].
  apply claim_action_body_ok in Hb as (b & rn & e & Hb & Hst & Ho & _ & _ & _ & _ & He & E).
  simpl in Ha1. rewrite E, lookup_insert_eq in Ha1. injection Ha1 as <-.
  assert (claimable w2 id (ra_lease (strip worker) (format_time e) ready b)) as Hcl.
  { split; [done..|by exists run|]. unfold claim_free. simpl.
    unfold dt_add_seconds in He. case_match eqn:Hv; [|done]. injection He as <-.
    pose proof (clock_valid (w_ticks w2)) as Hv2.
    rewrite str_le_compare, format_time_seconds;
      [|done|done|unfold us_per_second in *; dlia].
    by destruct (Z.compare_spec (clock (w_ticks w) + lease * us_per_second) (clock (w_ticks w2)));
      [..|unfold us_per_second in *; lia]. }
  destruct (claim_runs w2 id _ worker' lease' actor' key' Hcl Hfresh)
    as (ex & r2 & w3 & _ & Hr2 & _ & E2).
  exists r2, w3, (format_time ex). split; [done|]. by rewrite E2, lookup_insert_eq.
Qed.

Abbreviation demo_claimed :=
  (claim_runtime_action "act-1" "worker-a" 60 "dispatcher" (act_key 1) demo_queue).
Definition demo_later : world := World (w_db (end_world demo_claimed)) 100 9.
Definition demo_held : action_row := act_1 (end_world demo_claimed).
Lemma abandoned_delivery_recovers_witness :
  ∃ r' w3 expires,
    claim_runtime_action "act-1" "worker-b" 30 "dispatcher" (act_key 7) demo_later = Ok r' w3 ∧
    runtime_actions (w_db w3) !! "act-1" = Some (ra_lease "worker-b" expires ready demo_held) ∧
    cl_epoch (ra_claim (ra_lease "worker-b" expires ready demo_held)) = 2.
Proof.
  apply (abandoned_delivery_recovers demo_queue (end_world demo_claimed) demo_later "act-1"
    "worker-a" 60 "dispatcher" (act_key 1) (answer no_result demo_claimed) demo_held demo_run
    "worker-b" 30 "dispatcher" (act_key 7)).
  - apply answered. vm_compute. reflexivity.
  - vm_compute. reflexivity.
  - vm_compute. reflexivity.
  - vm_compute. reflexivity.
  - vm_compute. by eexists.
  - vm_compute. reflexivity.
  - vm_compute. reflexivity.
  - vm_compute. reflexivity.
  - vm_compute. discriminate.
  - split; [by split|lia|vm_compute; by eexists|reflexivity|vm_compute; reflexivity].
Defined.
