(* ===== verification/ClosingTheorems.v ===== *)
(** * A run that fails: its theorem

    What is left of a run after [fail_runtime_action], with an instance. *)

From S2P Require Import Prelude PyText Clock Json Schema Store Demo Runs RuntimeActions PinReleases RuntimeFacts PinFacts RunClosing ClosingFacts RuntimeTheorems.
Open Scope Z_scope.

(** No open work of a run is left between two states of the store, and the work of
    other runs is as it was. *)
Record run_closed (run_id : string) (d d' : db) : Prop := {
  rc_intents : ∀ i s, source_intents d' !! i = Some s → open_intent run_id s = false;
  rc_questions : ∀ i q, asked_by run_id d i → decisions d' !! i = Some q →
    de_state q ≠ decision_pending;
  rc_waiters : ∀ i wt, source_import_waiters d' !! i = Some wt → open_waiter run_id wt = false;
  rc_artifacts : ∀ i m, artifact_materialization_actions d' !! i = Some m →
    pending_version (of_run run_id) d' m && unfinished (ma_state m) = false;
  rc_imports : ∀ i im, source_import_actions d !! i = Some im → gave_up run_id d i →
    im_state im = import_pending →
    ∃ im', source_import_actions d' !! i = Some im' ∧
      im_claim im' = Claim None None (cl_epoch (im_claim im) + 1) ∧
      ((im_state im' = import_canceled ∧
        ∀ j wt, source_import_waiters d' !! j = Some wt → live_waiter i run_id d wt = false) ∨
       (im_state im' = import_pending ∧ ∃ j wt, source_import_waiters d' !! j = Some wt ∧
        live_waiter i run_id d wt = true ∧ im_run_id im' = wa_run_id wt ∧
        im_resolution_id im' = wa_resolution_id wt ∧
        ∀ k wt', source_import_waiters d' !! k = Some wt' → live_waiter i run_id d wt' = true →
          pair_le (wa_created_at wt, j) (wa_created_at wt', k) = true));
  rc_others :
    (∀ i s, source_intents d !! i = Some s → si_run_id s ≠ run_id →
       source_intents d' !! i = Some s) ∧
    (∀ i q, decisions d !! i = Some q → ¬ asked_by run_id d i → decisions d' !! i = Some q) ∧
    (∀ i wt, source_import_waiters d !! i = Some wt → wa_run_id wt ≠ run_id →
       source_import_waiters d' !! i = Some wt) ∧
    (∀ i im, source_import_actions d !! i = Some im → ¬ gave_up run_id d i →
       source_import_actions d' !! i = Some im) ∧
    (∀ i m, artifact_materialization_actions d !! i = Some m → pending_version (of_run run_id) d m = false →
       artifact_materialization_actions d' !! i = Some m) }.

Section Closed.
Context `{Env}.

(** A bulk UPDATE whose change leaves the WHERE clause leaves nothing that matches. *)
Lemma update_where_clears {A} (p : A → bool) f m i (x : A) :
  (∀ y, p y = true → p (f y) = false) →
  update_where (λ _, p) f m !! i = Some x → p x = false.
Proof.
  intros Hf. rewrite lookup_update_where. destruct (m !! i) as [y|]; simpl; [|done].
  intros [= <-]. destruct (p y) eqn:E; [by apply Hf|done].
Qed.
Lemma update_where_other {A} (p : A → bool) f m i (x : A) :
  m !! i = Some x → p x = false → update_where (λ _, p) f m !! i = Some x.
Proof. intros Hm Hp. by rewrite lookup_update_where, Hm; simpl; rewrite Hp. Qed.

(** The head of a listing by age comes before every other row of it. *)
Lemma oldest_is_first {A} (created : A → string) (p : string * A → bool) m x :
  head (oldest_first created p m) = Some x → ∀ i r, m !! i = Some r → p (i, r) = true →
  created_le created x (i, r) = true.
Proof.
  intros Hh i r Hr Hp. assert ((i, r) ∈ oldest_first created p m) as Hin by by apply elem_of_oldest.
  assert (StronglySorted (λ a b, created_le created a b = true) (oldest_first created p m)) as Hs.
  { apply isort_sorted; intros *; [apply pair_le_total|apply pair_le_trans]. }
  apply head_Some in Hh as [l Hl]. rewrite Hl in Hin, Hs.
  inversion Hs as [|? ? _ Hf]; subst. apply elem_of_cons in Hin as [->|Hin].
  - apply pair_le_refl.
  - rewrite Forall_forall in Hf. by apply Hf.
Qed.

(** An import that is given up. *)
Lemma fenced_import_spec run_id t d d1 d' i im :
  waits_view d1 = (source_import_waiters d', runs d, threads d) → im_state im = import_pending →
  let im' := fenced_import run_id t d1 i im in
  im_claim im' = Claim None None (cl_epoch (im_claim im) + 1) ∧
  ((im_state im' = import_canceled ∧
    ∀ j wt, source_import_waiters d' !! j = Some wt → live_waiter i run_id d wt = false) ∨
   (im_state im' = import_pending ∧ ∃ j wt, source_import_waiters d' !! j = Some wt ∧
    live_waiter i run_id d wt = true ∧ im_run_id im' = wa_run_id wt ∧
    im_resolution_id im' = wa_resolution_id wt ∧
    ∀ k wt', source_import_waiters d' !! k = Some wt' → live_waiter i run_id d wt' = true →
      pair_le (wa_created_at wt, j) (wa_created_at wt', k) = true)).
Proof.
  unfold waits_view. intros [= Ew Er Et] Hst. unfold fenced_import.
  assert (∀ wt, live_waiter i run_id d1 wt = live_waiter i run_id d wt) as Hlive
    by (intros wt; unfold live_waiter; by rewrite Er, Et).
  rewrite bool_decide_eq_true_2 by done. unfold first_live_source_import_waiter. rewrite Ew.
  destruct (oldest_first _ _ (source_import_waiters d')) as [|x l] eqn:Eo; simpl; split; try done.
  - left. split; [done|]. intros j wt Hj. rewrite <- Hlive. by apply (oldest_nil _ _ _ Eo j).
  - right. split; [done|].
    destruct (oldest_head _ _ _ x (f_equal head Eo)) as [Hx Hp].
    exists x.1, x.2. rewrite <- Hlive. split_and!; [done..|]. intros k wt' Hk Hl.
    rewrite <- Hlive in Hl. exact (oldest_is_first _ _ _ x (f_equal head Eo) k wt' Hk Hl).
Qed.

Lemma closed_run run_id t d d' : closed run_id t d d' → run_closed run_id d d'.
Proof.
  intros [Hi Hd Hw Him Hm Hv]. split.
  - intros i s. rewrite Hi. apply update_where_clears. intros y _.
    unfold open_intent. simpl. by rewrite andb_false_r.
  - intros i q Hask Hq.
    rewrite (proj1 (Hd i) Hask) in Hq. destruct (decisions d !! i) as [q0|]; [|done].
    simpl in Hq. injection Hq as <-. unfold expired. by case_bool_decide.
  - intros i wt. rewrite Hw. apply update_where_clears. intros y _.
    unfold open_waiter. simpl. by rewrite andb_false_r.
  - intros i m Hi'. rewrite Hm, lookup_update_where in Hi'.
    destruct (artifact_materialization_actions d !! i) as [m0|] eqn:Hm0; [|done].
    simpl in Hi'. injection Hi' as <-.
    destruct (pending_version (of_run run_id) d m0 && unfinished (ma_state m0)) eqn:E;
      [by rewrite andb_false_r|].
    destruct (unfinished (ma_state m0)) eqn:Eu; rewrite ?andb_false_r in *; [|done].
    rewrite andb_true_r in *. destruct (pending_version (of_run run_id) d' m0) eqn:E'; [exfalso|done].
    destruct (Hv (ma_artifact_version_id m0)) as [Hfail Hsame].
    assert (¬ unfinished_version (of_run run_id) d (ma_artifact_version_id m0)) as Hno.
    { intros Hu. unfold pending_version in E'. rewrite (Hfail Hu) in E'.
      destruct (artifact_versions d !! _); [|done]. simpl in E'. by rewrite andb_false_r in E'. }
    unfold pending_version in *. rewrite (Hsame Hno), E in E'. done.
  - intros i im Him0 Hg Hst. destruct (proj1 (Him i) Hg) as (d1 & Hd1 & ->). rewrite Him0.
    eexists. split; [done|]. by apply (fenced_import_spec run_id t d d1 d').
  - split_and!.
    + intros i s Hs Hne. rewrite Hi. apply (update_where_other (open_intent run_id)); [done|].
      unfold open_intent. by rewrite (proj2 (String.eqb_neq _ _) Hne).
    + intros i q Hq Hno. by rewrite (proj2 (Hd i) Hno).
    + intros i wt Hwt Hne. rewrite Hw. apply (update_where_other (open_waiter run_id)); [done|].
      unfold open_waiter. by rewrite (proj2 (String.eqb_neq _ _) Hne).
    + intros i im Him0 Hno. by rewrite (proj2 (Him i) Hno).
    + intros i m Hm0 Hp. rewrite Hm, lookup_update_where, Hm0. simpl. by rewrite Hp.
Qed.
End Closed.

(** C19: a delivery that fails for good takes its run down cleanly.  The run and
    its attempt are failed, the thread is free for another run, and no work is left
    open for a run that will never continue: its source intents and the questions
    they asked are closed, its waits and its unfinished artifacts are ended, an
    import it shared is handed to the oldest live waiter of another run (canceled
    when there is none) under a fresh epoch, the runtime pin of the attempt is
    queued for release; and the work of other runs is untouched. *)
Theorem run_failure_closes_work `{Env} id owner epoch expected category actor key w r w' a :
  fail_runtime_action id owner epoch expected category actor key w = Ok r w' →
  cr_replayed r = false → runtime_actions (w_db w) !! id = Some a →
  let d' := w_db w' in
  run_closed (ra_run_id a) (w_db w) d' ∧
  (∃ run, runs d' !! ra_run_id a = Some run ∧ ru_state run = "failed" ∧
     ru_revision run = expected + 1 ∧
     ∀ th, threads d' !! ru_thread_id run = Some th → th_active_run_id th ≠ Some (ra_run_id a)) ∧
  (∃ b, runtime_actions d' !! id = Some b ∧ ra_state b = act_failed ∧
     ra_failure_category b = Some (strip category) ∧ cl_owner (ra_claim b) = None) ∧
  (∀ at_, attempts d' !! ra_attempt_id a = Some at_ → at_state at_ = "failed" ∧
     (is_Some (at_runtime_release_id at_) → is_Some (at_state_generation_id at_) →
      ∃ i p, runtime_pin_releases d' !! i = Some p ∧ pin_of (ra_attempt_id a) at_ p)).
Proof.
  intros Hm Hr Ha d'. apply fail_command_ok in Hm as [[? _] | (_ & t & b & rn & Hb & Hf)];
    [congruence|]. rewrite Ha in Hb. injection Hb as <-.
  destruct Hf as [_ _ _ _ Eact Hclosed (run & Hrun & Hst & Hrev & _ & Eth) Ethreads Eatt Hpin _].
  split; [by apply closed_run in Hclosed|]. split; [|split].
  - exists run. split_and!; try done. intros th. unfold d'. rewrite Ethreads, Eth, lookup_alter_eq.
    destruct (threads (w_db w) !! ru_thread_id rn) as [th0|]; simpl; [|done].
    intros [= <-]. by case_bool_decide.
  - eexists. unfold d'. by rewrite Eact, lookup_insert_eq.
  - intros at_ Hat. split; [|by apply Hpin]. unfold d' in Hat.
    rewrite Eatt, lookup_alter_eq in Hat.
    destruct (attempts (w_db w) !! ra_attempt_id a); [|done]. simpl in Hat. by injection Hat as <-.
Qed.

(** Two runs wait for one import; the first one fails. *)
Definition demo_run_2 : run_row :=
  RunRow "thread-2" "waiting_source" None None 0 1 "2026-01-01" "2026-01-01".
Definition demo_thread (run_id : string) : thread_row :=
  ThreadRow "workspace-1" "t" "active" (Some run_id) 0 "2026-01-01" "2026-01-01" None.
Definition demo_busy : world := World
  (set_runs (<["run-2" := demo_run_2]>)
  (set_threads (λ _, {["thread-1" := demo_thread "run-1"; "thread-2" := demo_thread "run-2"]})
  (set_source_intents (λ _, {["intent-1" := IntentRow "run-1" intent_pending (Some "decision-1") 0
     "2026-01-01" "2026-01-01"]})
  (set_decisions (λ _, {["decision-1" := DecisionRow "run-1" "attempt-1" "source" "Which?" "[]"
     decision_pending None 0 "2026-01-01" None None None]})
  (set_import_waiters (λ _,
     {["waiter-1" := WaiterRow "import-1" "run-1" "resolution-1" waiter_waiting "2026-01-01" None;
       "waiter-2" := WaiterRow "import-1" "run-2" "resolution-2" waiter_waiting "2026-01-02" None]})
  (set_import_actions (λ _, {["import-1" := ImportRow "run-1" "resolution-1" import_pending
     (Claim (Some "importer") (Some "2026-01-03") 4) None]})
  (w_db (delivered [claim_1])))))))) 1 1.
Abbreviation demo_failure := (fail_runtime_action "act-1" "worker-a" 1 3 "lost" "dispatcher"
  (act_key 2) demo_busy).

Example demo_failure_result :
  (λ d, (ru_state <$> runs d !! "run-1", de_state <$> decisions d !! "decision-1",
         (λ im, (im_run_id im, im_resolution_id im, im_claim im)) <$> source_import_actions d !! "import-1",
         th_active_run_id <$> threads d !! "thread-1"))
    (w_db (end_world demo_failure))
  = (Some "failed", Some decision_expired,
     Some ("run-2", "resolution-2", Claim None None 5), Some None).
Proof. vm_compute. reflexivity. Qed.

Lemma run_failure_closes_work_witness :
  run_closed "run-1" (w_db demo_busy) (w_db (end_world demo_failure)).
Proof.
  refine (proj1 (run_failure_closes_work "act-1" "worker-a" 1 3 "lost" "dispatcher" (act_key 2)
    demo_busy (answer no_result demo_failure) (end_world demo_failure)
    (act_1 demo_busy) _ _ _)).
  - apply answered. vm_compute. reflexivity.
  - vm_compute. reflexivity.
  - vm_compute. reflexivity.
Defined.
