(* ===== verification/Resources.v ===== *)
(** * Cortex resource URIs

    [parse_resource_uri] of [resources.py]: the strict reader of [cortex://]
    identifiers, and that it accepts the canonical spelling of a list of path
    segments and nothing else. *)

From Stdlib Require Import Ascii.
From S2P Require Import Prelude PyText Json CaptureKey.
Open Scope Z_scope.

(** The Unicode tables of the standard library, asked only of byte strings that
    are not ASCII: whether they are strict UTF-8, in NFC, and with a control
    character of category Cc. *)
Class UnicodeChecks := {
  utf8_ok : string → bool; nfc_ok : string → bool; has_control : string → bool }.

(** [CortexResourceURI]; a segment is its UTF-8 bytes. *)
Record resource_uri := ResourceURI {
  cu_value : string; cu_root : string; cu_segments : list string }.

Definition scheme_text : string := "cortex://".
Fixpoint read_prefix (p s : string) : option string :=
  match p with
  | EmptyString => Some s
  | String c p' => s' ← read_char c s; read_prefix p' s'
  end.

(** [_ROOT_RE], [_BAD_ESCAPE_RE] and [_ENCODED_SEPARATOR_RE]. *)
Definition root_char (c : ascii) : bool := is_az c || is_digit c || Ascii.eqb c "-".
Definition root_ok (s : string) : bool := fullmatch is_az root_char 0 62 s.
Definition is_hex_any (c : ascii) : bool := bool_decide (is_Some (hex_value c)).
Fixpoint bad_escape (s : string) : bool :=
  match s with
  | EmptyString => false
  | String c s' =>
      (Ascii.eqb c "%" &&
       match s' with String a (String b _) => negb (is_hex_any a && is_hex_any b) | _ => true end)
      || bad_escape s'
  end.
Definition separator_escape (a b : ascii) : bool :=
  let x := (hex_value a, hex_value b) in
  bool_decide (x = (Some 2, Some 15)) || bool_decide (x = (Some 5, Some 12)).
Fixpoint encoded_separator (s : string) : bool :=
  match s with
  | EmptyString => false
  | String c s' =>
      (Ascii.eqb c "%" &&
       match s' with String a (String b _) => separator_escape a b | _ => false end)
      || encoded_separator s'
  end.

(** [s.split("/")]. *)
Fixpoint split_slash (s : string) : list string :=
  match s with
  | EmptyString => [EmptyString]
  | String c s' =>
      if Ascii.eqb c "/" then EmptyString :: split_slash s'
      else match split_slash s' with
           | x :: l => String c x :: l
           | [] => [String c EmptyString]
           end
  end.
(** ["/".join(l)]. *)
Fixpoint join_slash (l : list string) : string :=
  match l with
  | [] => ""
  | [x] => x
  | x :: l' => x +:+ "/" +:+ join_slash l'
  end.

(** [str.encode("utf-8")] of a character, and [unquote_to_bytes]; the escapes
    have been checked. *)
Definition utf8_char (c : ascii) : string :=
  if ord c <? 128 then String c EmptyString
  else String (chr (192 + ord c / 64)) (String (chr (128 + ord c mod 64)) EmptyString).
Fixpoint unquote_bytes (s : string) : string :=
  match s with
  | EmptyString => EmptyString
  | String c s' =>
      match s' with
      | String a (String b s'') =>
          match hex_value a, hex_value b with
          | Some x, Some y =>
              if Ascii.eqb c "%" then String (chr (16 * x + y)) (unquote_bytes s'')
              else utf8_char c +:+ unquote_bytes s'
          | _, _ => utf8_char c +:+ unquote_bytes s'
          end
      | _ => utf8_char c +:+ unquote_bytes s'
      end
  end.

(** [quote(segment, safe="-._~")]. *)
Definition unreserved (c : ascii) : bool := is_alnum c || one_of "-._~" c.
Definition hex_upper (n : Z) : ascii := if n <? 10 then chr (48 + n) else chr (55 + n).
Definition quote_char (c : ascii) : string :=
  if unreserved c then String c EmptyString
  else String "%" (String (hex_upper (ord c / 16)) (String (hex_upper (ord c mod 16)) EmptyString)).
Fixpoint quote (s : string) : string :=
  match s with
  | EmptyString => EmptyString
  | String c s' => quote_char c +:+ quote s'
  end.
Definition uri_text (root : string) (segments : list string) : string :=
  scheme_text +:+ root +:+ "/" +:+ join_slash (map quote segments).

Definition is_ascii (s : string) : bool := str_all (λ c, ord c <? 128) s.
Definition control_char (c : ascii) : bool := (ord c <? 32) || (ord c =? 127).

Section Resources.
Context `{UnicodeChecks}.

(** The checks on a decoded segment; [Some] is the error. *)
Definition segment_error (b : string) : option string :=
  if negb (is_ascii b || utf8_ok b) then Some "resource URI path is not valid UTF-8"
  else if negb (is_ascii b || nfc_ok b) then Some "resource URI path must use NFC Unicode"
  else if String.eqb b "." || String.eqb b ".." || str_has "/" b || str_has backslash b
          || negb (str_all (λ c, negb (control_char c)) b) || (negb (is_ascii b) && has_control b)
  then Some "resource URI path segment is unsafe"
  else None.
Fixpoint decode_segments (raw : list string) : string + list string :=
  match raw with
  | [] => inr []
  | s :: raw' =>
      if bad_escape s then inl "resource URI contains an invalid percent escape"
      else match segment_error (unquote_bytes s) with
           | Some e => inl e
           | None => match decode_segments raw' with
                     | inl e => inl e
                     | inr l => inr (unquote_bytes s :: l)
                     end
           end
  end.

(** [parse_resource_uri]; [inl] is the message of the [ValueError]. *)
Definition parse_resource_uri (value : string) : string + resource_uri :=
  match read_prefix scheme_text value with
  | None => inl "resource URI must use the lowercase cortex scheme"
  | Some tail =>
      if encoded_separator value then inl "resource URI contains an encoded path separator"
      else
        let '(root, separator, after) := partition "/" tail in
        if negb (separator && root_ok root) then inl "resource URI root is invalid"
        else
          let '(before, _, fragment) := partition "#" (remove_chars unsafe_byte after) in
          let '(path, _, query) := partition "?" before in
          if negb (String.eqb query "") || negb (String.eqb fragment "")
          then inl "resource URI contains unsupported authority or suffix data"
          else
            let raw := split_slash path in
            if existsb (String.eqb "") raw
            then inl "resource URI path must contain non-empty segments"
            else match decode_segments raw with
                 | inl e => inl e
                 | inr segments =>
                     if String.eqb value (uri_text root segments)
                     then inr (ResourceURI value root segments)
                     else inl "resource URI is not in canonical percent-encoded form"
                 end
  end.
End Resources.

Example parse_resource_uri_example :
  let _ : UnicodeChecks := {| utf8_ok := λ _, false; nfc_ok := λ _, false; has_control := λ _, true |} in
  map (λ v, match parse_resource_uri v with inr u => Some (cu_root u, cu_segments u) | inl _ => None end)
    ["cortex://artifacts/run-1/a%20b"; "cortex://artifacts/run-1/a b"; "cortex://artifacts/%2E";
     "cortex://artifacts/a%2Fb"; "cortex://artifacts//b"; "cortex://artifacts/b?"]
  = [Some ("artifacts", ["run-1"; "a b"]); None; None; None; None; None].
Proof. vm_compute. reflexivity. Qed.
