(* ===== verification/ResourceTheorems.v ===== *)
(** * Resource URIs: their theorem

    [parse_resource_uri] reads exactly the canonical spellings. *)

From Stdlib Require Import Ascii.
From S2P Require Import Prelude PyText Json CaptureKey Resources.
Open Scope Z_scope.

(** A fact of every byte, by evaluation. *)
Definition all_chars : list ascii := map (λ n, chr (Z.of_nat n)) (seq 0 256).
Lemma by_char (p : ascii → bool) : forallb p all_chars = true → ∀ c, p c = true.
Proof.
  rewrite forallb_forall. intros Hp c. apply Hp. unfold all_chars. apply List.in_map_iff.
  exists (Z.to_nat (ord c)). pose proof (ord_range c) as Hr.
  rewrite Z2Nat.id by lia. split; [apply chr_ord|]. apply List.in_seq. lia.
Qed.

Definition not_char (d c : ascii) : bool := negb (Ascii.eqb c d).
Definition path_char (c : ascii) : bool := unreserved c || Ascii.eqb c "%".
Lemma partition_none d s : str_all (not_char d) s = true → partition d s = (s, false, "").
Proof.
  induction s as [|c s IH]; simpl; [done|]. rewrite andb_true_iff. unfold not_char at 1.
  intros [Hc Hs]. destruct (Ascii.eqb c d); [done|]. by rewrite IH.
Qed.
Lemma partition_at d s t : str_all (not_char d) s = true → partition d (s +:+ String d t) = (s, true, t).
Proof.
  induction s as [|c s IH]; simpl; [by rewrite Ascii.eqb_refl|]. rewrite andb_true_iff.
  unfold not_char at 1. intros [Hc Hs]. destruct (Ascii.eqb c d); [done|]. by rewrite IH.
Qed.
Lemma split_slash_one s : str_all (not_char "/") s = true → split_slash s = [s].
Proof.
  induction s as [|c s IH]; simpl; [done|]. rewrite andb_true_iff. unfold not_char at 1.
  intros [Hc Hs]. destruct (Ascii.eqb c "/"); [done|]. by rewrite IH.
Qed.
Lemma split_slash_more s t :
  str_all (not_char "/") s = true → split_slash (s +:+ String "/" t) = s :: split_slash t.
Proof.
  induction s as [|c s IH]; simpl; [done|]. rewrite andb_true_iff. unfold not_char at 1.
  intros [Hc Hs]. destruct (Ascii.eqb c "/"); [done|]. by rewrite IH.
Qed.
Lemma split_join l :
  l ≠ [] → Forall (λ s, str_all (not_char "/") s = true) l → split_slash (join_slash l) = l.
Proof.
  intros Hne Hl. induction Hl as [|x l Hx Hl IH]; [done|]. destruct l as [|y l'].
  - by apply split_slash_one.
  - change (join_slash (x :: y :: l')) with (x +:+ String "/" (join_slash (y :: l'))).
    rewrite split_slash_more by done. by rewrite IH.
Qed.

(** ** Quoting *)

Lemma quote_char_path c : str_all path_char (quote_char c) = true.
Proof. revert c. apply by_char. vm_compute. reflexivity. Qed.
Lemma quote_path s : str_all path_char (quote s) = true.
Proof. induction s as [|c s IH]; simpl; [done|]. by rewrite str_all_app, quote_char_path, IH. Qed.
Lemma path_char_not d : forallb (λ c, implb (path_char c) (not_char d c)) all_chars = true →
  ∀ s, str_all path_char s = true → str_all (not_char d) s = true.
Proof.
  intros Hd s. apply str_all_impl. intros c Hc. pose proof (by_char _ Hd c) as Hi. cbn beta in Hi.
  by rewrite Hc in Hi.
Qed.

(** The escape of a byte. *)
Lemma quote_char_cases c :
  (quote_char c = String c EmptyString ∧ Ascii.eqb c "%" = false ∧ utf8_char c = String c EmptyString) ∨
  ∃ a b x y, quote_char c = String "%" (String a (String b EmptyString)) ∧
    hex_value a = Some x ∧ hex_value b = Some y ∧ chr (16 * x + y) = c ∧
    Ascii.eqb a "%" = false ∧ Ascii.eqb b "%" = false ∧
    (separator_escape a b = true → c = "/"%char ∨ c = "\"%char).
Proof.
  unfold quote_char. destruct (unreserved c) eqn:E; [left|right].
  - split; [done|]. revert E.
    assert (implb (unreserved c) (negb (Ascii.eqb c "%") && String.eqb (utf8_char c) (String c EmptyString))
      = true) as Hc by (revert c; apply by_char; vm_compute; reflexivity).
    intros E. rewrite E in Hc. simpl in Hc. apply andb_true_iff in Hc as [Hc1 Hc2].
    apply negb_true_iff in Hc1. by apply String.eqb_eq in Hc2.
  - set (a := hex_upper (ord c / 16)). set (b := hex_upper (ord c mod 16)).
    assert ((bool_decide (hex_value a = Some (ord c / 16)) && bool_decide (hex_value b = Some (ord c mod 16)))
      && negb (Ascii.eqb a "%") && negb (Ascii.eqb b "%")
      && implb (separator_escape a b) (Ascii.eqb c "/" || Ascii.eqb c "\") = true) as Hc
      by (subst a b; revert c E; intros c _; revert c; apply by_char; vm_compute; reflexivity).
    rewrite !andb_true_iff, !bool_decide_eq_true, !negb_true_iff in Hc.
    destruct Hc as ((((H1 & H2) & H3) & H4) & H5).
    exists a, b, (ord c / 16), (ord c mod 16). split_and!; try done.
    + rewrite <- Z.div_mod by done. apply chr_ord.
    + intros Hs. rewrite Hs in H5. simpl in H5. apply orb_true_iff in H5 as [H5|H5];
        apply Ascii.eqb_eq in H5; auto.
Qed.

Lemma unquote_quote s : unquote_bytes (quote s) = s.
Proof.
  induction s as [|c s IH]; [done|]. cbn [quote].
  destruct (quote_char_cases c) as [(-> & Hc & Hu) | (a & b & x & y & -> & Ha & Hb & Hv & _)].
  - cbn [String.append unquote_bytes]. rewrite Hc, Hu, IH.
    destruct (quote s) as [|a [|b t]]; try done. by destruct (hex_value a), (hex_value b).
  - cbn [String.append unquote_bytes]. rewrite Ha, Hb. simpl. by rewrite Hv, IH.
Qed.
Lemma bad_escape_quote s : bad_escape (quote s) = false.
Proof.
  induction s as [|c s IH]; [done|]. cbn [quote].
  destruct (quote_char_cases c) as [(-> & Hc & _) | (a & b & x & y & -> & Ha & Hb & _ & Hna & Hnb & _)];
    cbn [String.append bad_escape].
  - by rewrite Hc.
  - unfold is_hex_any. rewrite Ha, Hb, Hna, Hnb, IH. done.
Qed.
Lemma separator_quote s : str_has "/" s = false → str_has "\" s = false →
  ∀ t, encoded_separator (quote s +:+ t) = encoded_separator t.
Proof.
  unfold str_has. rewrite !negb_false_iff. intros H1 H2 t. revert H1 H2.
  induction s as [|c s IH]; [done|]. cbn [str_all]. rewrite !andb_true_iff, !negb_true_iff.
  intros [Hc1 H1] [Hc2 H2]. cbn [quote]. rewrite str_app_assoc.
  destruct (quote_char_cases c) as [(-> & Hc & _) | (a & b & x & y & -> & _ & _ & _ & Hna & Hnb & Hs)];
    cbn [String.append encoded_separator].
  - by rewrite Hc, IH.
  - rewrite Hna, Hnb, IH by done. destruct (separator_escape a b); [|done].
    by destruct (Hs eq_refl) as [-> | ->].
Qed.
Lemma separator_plain p : str_all (not_char "%") p = true →
  ∀ t, encoded_separator (p +:+ t) = encoded_separator t.
Proof.
  intros Hp t. induction p as [|c p IH]; [done|]. cbn [str_all] in Hp.
  apply andb_true_iff in Hp as [Hc Hp]. unfold not_char in Hc. apply negb_true_iff in Hc.
  cbn [String.append encoded_separator]. by rewrite Hc, IH.
Qed.

Section Uris.
Context `{UnicodeChecks}.

(** A segment that may be named: not empty, strict UTF-8 in NFC, and neither a dot
    segment nor with a separator or a control character. *)
Definition segment_ok (s : string) : Prop := s ≠ "" ∧ segment_error s = None.

Lemma segment_ok_separators s : segment_ok s → str_has "/" s = false ∧ str_has "\" s = false.
Proof.
  intros [_ Hs]. unfold segment_error in Hs. repeat (case_match; [done|]).
  match goal with H : _ || _ = false |- _ => rewrite !orb_false_iff in H end. naive_solver.
Qed.
Lemma separator_join l : Forall segment_ok l → encoded_separator (join_slash (map quote l)) = false.
Proof.
  induction 1 as [|x l Hx Hl IH]; [done|]. destruct (segment_ok_separators x Hx) as [H1 H2].
  destruct l as [|y l'].
  - pose proof (separator_quote x H1 H2 "") as Hq. by rewrite str_app_nil_r in Hq.
  - change (join_slash (map quote (x :: y :: l')))
      with (quote x +:+ String "/" (join_slash (map quote (y :: l')))).
    rewrite separator_quote by done. exact IH.
Qed.
Lemma join_path l : str_all (λ c, path_char c || Ascii.eqb c "/") (join_slash (map quote l)) = true.
Proof.
  assert (∀ s, str_all (λ c, path_char c || Ascii.eqb c "/") (quote s) = true) as Hq.
  { intros s. apply (str_all_impl path_char); [|apply quote_path]. intros c ->. done. }
  induction l as [|x l IH]; [done|]. destruct l as [|y l']; [apply Hq|].
  change (join_slash (map quote (x :: y :: l')))
    with (quote x +:+ String "/" (join_slash (map quote (y :: l')))).
  rewrite str_all_app, Hq. exact IH.
Qed.
Lemma path_not (q : ascii → bool) s :
  forallb (λ c, implb (path_char c || Ascii.eqb c "/") (q c)) all_chars = true →
  str_all (λ c, path_char c || Ascii.eqb c "/") s = true → str_all q s = true.
Proof.
  intros Hd. apply str_all_impl. intros c Hc. pose proof (by_char _ Hd c) as Hi. cbn beta in Hi.
  by rewrite Hc in Hi.
Qed.
Lemma root_chars root : root_ok root = true →
  str_all (not_char "/") root = true ∧ str_all (not_char "%") root = true.
Proof.
  unfold root_ok, fullmatch. destruct root as [|c s]; [done|]. rewrite !andb_true_iff.
  intros [[[Hc Hs] _] _].
  assert (∀ d, forallb (λ c, implb (root_char c) (not_char d c)) all_chars = true →
    str_all (not_char d) (String c s) = true) as Hd.
  { intros d Hd. cbn [str_all]. pose proof (by_char _ Hd) as Hx. cbn beta in Hx.
    rewrite andb_true_iff. split.
    - pose proof (Hx c) as Hi. unfold root_char in Hi. by rewrite Hc in Hi.
    - revert Hs. apply str_all_impl. intros e He. specialize (Hx e). by rewrite He in Hx. }
  split; apply Hd; vm_compute; reflexivity.
Qed.
Lemma decode_quoted l : Forall segment_ok l → decode_segments (map quote l) = inr l.
Proof.
  induction 1 as [|x l [_ Hx] Hl IH]; [done|]. simpl.
  by rewrite bad_escape_quote, unquote_quote, Hx, IH.
Qed.
Lemma quote_nonempty s : s ≠ "" → String.eqb "" (quote s) = false.
Proof. destruct s as [|c s]; [done|]. intros _. cbn [quote]. unfold quote_char. by destruct (unreserved c). Qed.
End Uris.

Lemma unquote_nonempty s : s ≠ "" → unquote_bytes s ≠ "".
Proof.
  destruct s as [|c s]; [done|]. intros _. simpl.
  assert (∀ x t, utf8_char x +:+ t ≠ "") as Hu by (intros x t; unfold utf8_char; by case_match).
  destruct s as [|a [|b t]]; try apply Hu. repeat case_match; try apply Hu; done.
Qed.
Lemma split_slash_nonempty s : split_slash s ≠ [].
Proof. destruct s as [|c s]; simpl; [done|]. case_match; [done|]. by case_match. Qed.
Lemma read_prefix_app p s : read_prefix p (p +:+ s) = Some s.
Proof.
  induction p as [|c p IH]; [done|]. simpl. unfold read_char. by rewrite Ascii.eqb_refl.
Qed.

Section Canonical.
Context `{UnicodeChecks}.

Lemma decode_segments_ok raw segments :
  existsb (String.eqb "") raw = false → decode_segments raw = inr segments →
  Forall segment_ok segments ∧ length segments = length raw.
Proof.
  revert segments. induction raw as [|s raw IH]; simpl; intros segments He Hd; [by injection Hd as <-|].
  apply orb_false_iff in He as [Hs He]. destruct (bad_escape s); [done|].
  destruct (segment_error (unquote_bytes s)) eqn:Ee; [done|].
  destruct (decode_segments raw) as [|l]; [done|]. injection Hd as <-.
  destruct (IH l He eq_refl) as [Hf Hlen]. split; [|simpl; by rewrite Hlen].
  constructor; [|done]. split; [|done]. apply unquote_nonempty. intros ->. done.
Qed.

(** C31: C31: [parse_resource_uri] is the inverse of writing a resource URI.  It accepts a
    text exactly when it is the canonical spelling of a root and a non-empty list of
    safe path segments, and then answers just those: every list of segments that may
    be named reads back from its spelling, and no second spelling of a resource (other
    escapes, case, separators, empty segments, a query or a fragment) is accepted. *)
Theorem resource_uri_canonical value u :
  parse_resource_uri value = inr u ↔
  value = uri_text (cu_root u) (cu_segments u) ∧ cu_value u = value ∧
  root_ok (cu_root u) = true ∧ cu_segments u ≠ [] ∧ Forall segment_ok (cu_segments u).
Proof.
  unfold parse_resource_uri. split.
  - destruct (read_prefix scheme_text value) as [tail|]; [|done].
    destruct (encoded_separator value); [done|].
    destruct (partition "/" tail) as [[root sep] after].
    destruct (negb (sep && root_ok root)) eqn:Er; [done|].
    apply negb_false_iff, andb_true_iff in Er as [_ Er].
    destruct (partition "#" (remove_chars unsafe_byte after)) as [[before x] fragment].
    destruct (partition "?" before) as [[path y] query]. destruct (_ || _); [done|].
    destruct (existsb (String.eqb "") (split_slash path)) eqn:Ex; [done|].
    destruct (decode_segments (split_slash path)) as [|segments] eqn:Ed; [done|].
    destruct (String.eqb_spec value (uri_text root segments)) as [Ev|]; [|done].
    intros [= <-]. cbn. destruct (decode_segments_ok _ _ Ex Ed) as [Hf Hlen].
    split_and!; try done. intros ->. by destruct (split_slash path) eqn:Es; [eapply split_slash_nonempty|].
  - destruct u as [v root segments]. cbn [cu_value cu_root cu_segments].
    intros (Hv & -> & Hr & Hne & Hf).
    assert (value = scheme_text +:+ (root +:+ String "/" (join_slash (map quote segments)))) as E
      by (rewrite Hv; reflexivity).
    destruct (root_chars root Hr) as [Hr1 Hr2]. pose proof (join_path segments) as Hj.
    set (path := join_slash (map quote segments)) in *.
    assert (encoded_separator value = false) as ->.
    { rewrite E, separator_plain, separator_plain by done. exact (separator_join segments Hf). }
    rewrite E at 1. rewrite read_prefix_app. rewrite (partition_at "/" root path) by done. rewrite Hr.
    cbn [andb negb].
    rewrite (remove_chars_none _ (λ c, path_char c || Ascii.eqb c "/")); [|intros c|done].
    2: { assert (implb (path_char c || Ascii.eqb c "/") (negb (unsafe_byte c)) = true) as Hc
           by (revert c; apply by_char; vm_compute; reflexivity).
         intros Hp. rewrite Hp in Hc. by apply negb_true_iff. }
    rewrite (partition_none "#") by (revert Hj; apply path_not; vm_compute; reflexivity).
    rewrite (partition_none "?") by (revert Hj; apply path_not; vm_compute; reflexivity).
    change (negb (String.eqb "" "") || negb (String.eqb "" "")) with false. cbv iota beta. unfold path at 1 2. rewrite split_join.
    + assert (existsb (String.eqb "") (map quote segments) = false) as ->.
      { clear -Hf. induction Hf as [|x l [Hx _] Hl IH]; [done|]. cbn [map existsb].
        by rewrite quote_nonempty, IH. }
      rewrite decode_quoted by done. by rewrite (proj2 (String.eqb_eq _ _) Hv).
    + by destruct segments.
    + apply Forall_forall. intros x Hx. apply list_elem_of_fmap in Hx as (s & -> & _).
      apply (path_char_not "/"); [vm_compute; reflexivity|apply quote_path].
Qed.
End Canonical.
