(* ===== verification/Dispatch.v ===== *)
(** * Dispatching a run

    The commands of [control/store.py] that open a run on a thread and give an
    attempt to a runtime: [create_run] (without a workflow to install),
    [create_runtime_binding], [reserve_attempt_dispatch], [pin_attempt_runtime]
    and the retired [claim_attempt_dispatch]. *)

From S2P Require Import Prelude PyText Clock Json Schema Store Threads Runs PinReleases.
Open Scope Z_scope.

Definition attempt_json (id : string) (r : attempt_row) : json := JObj
  [("id", JStr id); ("run_id", JStr (at_run_id r)); ("number", JInt (at_number r));
   ("state", JStr (at_state r)); ("runtime_binding_id", opt_json (at_runtime_binding_id r));
   ("runtime_release_id", opt_json (at_runtime_release_id r));
   ("checkpoint_uri", opt_json (at_checkpoint_uri r));
   ("source_attempt_id", opt_json (at_source_attempt_id r));
   ("source_checkpoint_uri", opt_json (at_source_checkpoint_uri r));
   ("started_at", opt_json (at_started_at r)); ("finished_at", opt_json (at_finished_at r));
   ("state_generation_id", opt_json (at_state_generation_id r));
   ("dispatch_owner", opt_json (at_dispatch_owner r));
   ("dispatch_expires_at", opt_json (at_dispatch_expires_at r));
   ("runtime_identity_version", JInt (at_runtime_identity_version r));
   ("runtime_slot_id", opt_json (at_runtime_slot_id r));
   ("runtime_artifact_digest", opt_json (at_runtime_artifact_digest r));
   ("runtime_worker_protocol", opt_json (at_runtime_worker_protocol r))].
Definition binding_json (id : string) (r : binding_row) : json := JObj
  [("id", JStr id); ("thread_id", JStr (rb_thread_id r)); ("adapter_id", JStr (rb_adapter_id r));
   ("runtime_session_ref", JStr (rb_runtime_session_ref r));
   ("generation", JInt (rb_generation r)); ("adapter_version", JStr (rb_adapter_version r));
   ("parent_ref", opt_json (rb_parent_ref r)); ("created_at", JStr (rb_created_at r));
   ("updated_at", JStr (rb_updated_at r))].

(** [value[key] = item]. *)
Definition jset (key : string) (item value : json) : json :=
  match value with JObj kvs => JObj (assoc_set key item kvs) | _ => value end.

(** The identity a dispatcher reserves an attempt with. *)
Record runtime_identity := RuntimeIdentity {
  ri_release : string; ri_generation : string; ri_slot : string; ri_digest : string;
  ri_protocol : string }.
Definition identity_fields (i : runtime_identity) : list (string * json) :=
  [("runtime_release_id", JStr (ri_release i)); ("state_generation_id", JStr (ri_generation i));
   ("runtime_slot_id", JStr (ri_slot i)); ("runtime_artifact_digest", JStr (ri_digest i));
   ("runtime_worker_protocol", JStr (ri_protocol i))].

(** Changed columns. *)
Definition th_start (run_id t : string) (r : thread_row) : thread_row :=
  ThreadRow (th_workspace_id r) (th_title r) "running" (Some run_id) (th_revision r + 1)
    (th_created_at r) t (th_archived_at r).
Definition at_reserve (owner expires : string) (i : runtime_identity) (r : attempt_row) :
    attempt_row :=
  AttemptRow (at_run_id r) (at_number r) (at_state r) (at_runtime_binding_id r)
    (Some (ri_release i)) (at_checkpoint_uri r) (at_source_attempt_id r)
    (at_source_checkpoint_uri r) (at_started_at r) (at_finished_at r) (Some (ri_generation i))
    (Some owner) (Some expires) 1 (Some (ri_slot i)) (Some (ri_digest i)) (Some (ri_protocol i)).
Definition at_bind (binding_id : string) (r : attempt_row) : attempt_row :=
  AttemptRow (at_run_id r) (at_number r) (at_state r) (Some binding_id)
    (at_runtime_release_id r) (at_checkpoint_uri r) (at_source_attempt_id r)
    (at_source_checkpoint_uri r) (at_started_at r) (at_finished_at r) (at_state_generation_id r)
    None None (at_runtime_identity_version r) (at_runtime_slot_id r)
    (at_runtime_artifact_digest r) (at_runtime_worker_protocol r).
Definition new_attempt (run_id state : string) (number : Z)
    (source_attempt_id source_checkpoint_uri : option string) : attempt_row :=
  AttemptRow run_id number state None None None source_attempt_id source_checkpoint_uri
    None None None None None 0 None None None.

(** The partial unique index [runs_one_active_per_thread_idx], for a row that is
    inserted or leaves a terminal state. *)
Definition run_open (state : string) : bool := negb (in_texts state TERMINAL_RUN_STATES).
Definition thread_taken (thread_id run_id : string) (d : db) : bool :=
  existsb (λ x : string * run_row, negb (String.eqb x.1 run_id)
    && String.eqb (ru_thread_id x.2) thread_id && run_open (ru_state x.2)) (map_to_list (runs d)).

(** [column IS NULL OR column = ?]. *)
Definition unset_or (o : option string) (s : string) : bool :=
  match o with None => true | Some s' => String.eqb s' s end.
(** [column > ?] and [column <= ?]: not true when the column is NULL. *)
Definition text_after (o : option string) (t : string) : bool :=
  match o with Some e => str_lt t e | None => false end.
Definition text_until (o : option string) (t : string) : bool :=
  match o with Some e => str_le e t | None => false end.

(** An attempt a dispatcher may reserve at a time. *)
Definition reservable (owner t : string) (i : runtime_identity) (a : attempt_row) : bool :=
  bool_decide (at_runtime_binding_id a = None)
  && (unset_or (at_dispatch_owner a) owner || text_until (at_dispatch_expires_at a) t)
  && unset_or (at_runtime_release_id a) (ri_release i)
  && unset_or (at_state_generation_id a) (ri_generation i)
  && unset_or (at_runtime_slot_id a) (ri_slot i)
  && unset_or (at_runtime_artifact_digest a) (ri_digest i)
  && unset_or (at_runtime_worker_protocol a) (ri_protocol i).
(** An attempt reserved by a dispatcher for an identity. *)
Definition reserved_by (owner : string) (i : runtime_identity) (a : attempt_row) : bool :=
  bool_decide (at_runtime_binding_id a = None) && (at_runtime_identity_version a =? 1)
  && bool_decide (at_dispatch_owner a = Some owner)
  && bool_decide (at_runtime_release_id a = Some (ri_release i))
  && bool_decide (at_state_generation_id a = Some (ri_generation i))
  && bool_decide (at_runtime_slot_id a = Some (ri_slot i))
  && bool_decide (at_runtime_artifact_digest a = Some (ri_digest i))
  && bool_decide (at_runtime_worker_protocol a = Some (ri_protocol i)).
(** The reservation [pin_attempt_runtime] turns into a binding. *)
Definition pinnable (owner release generation : string) (a : attempt_row) : bool :=
  bool_decide (at_dispatch_owner a = Some owner) && (at_runtime_identity_version a =? 1)
  && bool_decide (at_runtime_release_id a = Some release)
  && bool_decide (at_state_generation_id a = Some generation)
  && has_text (at_runtime_slot_id a) && has_text (at_runtime_artifact_digest a)
  && has_text (at_runtime_worker_protocol a).

Section Dispatch.
Context `{Env}.

(** [_runtime_binding]. *)
Definition runtime_binding (id : string) : Store (binding_row * json) :=
  row ← query (λ d, runtime_bindings d !! id);
  r ← from_option row (NotFound "runtime binding" id); mret (r, binding_json id r).

(** The INSERTs, with the keys and foreign keys they check. *)
Definition insert_run (id : string) (r : run_row) : Store unit :=
  fits ← query (λ d, bool_decide (runs d !! id = None)
    && bool_decide (is_Some (threads d !! ru_thread_id r))
    && negb (run_open (ru_state r) && thread_taken (ru_thread_id r) id d));
  ensure fits IntegrityError;;
  execute (set_runs (<[id := r]>)).
Definition attempt_number_taken (run_id : string) (number : Z) (d : db) : bool :=
  existsb (λ x : string * attempt_row, String.eqb (at_run_id x.2) run_id
    && (at_number x.2 =? number)) (map_to_list (attempts d)).
Definition insert_attempt (id : string) (a : attempt_row) : Store unit :=
  fits ← query (λ d, bool_decide (attempts d !! id = None)
    && bool_decide (is_Some (runs d !! at_run_id a))
    && match at_source_attempt_id a with
       | Some s => bool_decide (is_Some (attempts d !! s)) | None => true
       end
    && (1 <=? at_number a) && negb (attempt_number_taken (at_run_id a) (at_number a) d));
  ensure fits IntegrityError;;
  execute (set_attempts (<[id := a]>)).

(** [value = self._run(...); value["attempt"] = self._attempt(...)]. *)
Definition run_and_attempt (run_id attempt_id : string) : Store json :=
  '(_, v) ← run run_id;
  a ← attempt attempt_id;
  mret (jset "attempt" (attempt_json attempt_id a) v).

(** [create_run] with [workflow=None]. *)
Definition create_run_body (thread_id : string) (expected_revision : Z) : Store (json * Z) :=
  '(th, v) ← thread thread_id;
  expect_revision v (th_revision th) expected_revision;;
  ensure (bool_decide (th_archived_at th = None)) (ThreadArchived v);;
  (match th_active_run_id th with
   | Some active =>
       '(r, _) ← run active;
       ensure (in_texts (ru_state r) TERMINAL_RUN_STATES) (InvalidTransition (ru_state r) "queued")
   | None => mret tt
   end);;
  t ← now; run_id ← new_id "run"; attempt_id ← new_id "attempt";
  insert_run run_id (RunRow thread_id "queued" (Some attempt_id) None 0 0 t t);;
  insert_attempt attempt_id (new_attempt run_id "queued" 1 None None);;
  execute (set_threads (alter (λ x,
    if th_revision x =? expected_revision then th_start run_id t x else x) thread_id));;
  insert_event run_id (Some attempt_id) "run.queued" (JObj [("state", JStr "queued")]) None;;
  value ← run_and_attempt run_id attempt_id; mret (value, 201).
Definition create_run_path (thread_id : string) : string :=
  "POST:/api/v1/threads/" +:+ thread_id +:+ "/runs".
Definition create_run (thread_id : string) (expected_revision : Z) (actor_id key : string) :
    Store command_result :=
  command actor_id (create_run_path thread_id) key
    (JObj [("expected_revision", JInt expected_revision)])
    (create_run_body thread_id expected_revision).

(** [create_runtime_binding]. *)
Definition same_session (adapter_id session_ref : string) (generation : Z) (r : binding_row) : bool :=
  String.eqb (rb_adapter_id r) adapter_id && String.eqb (rb_runtime_session_ref r) session_ref
  && (rb_generation r =? generation).
Definition create_binding_body (thread_id adapter_id session_ref : string) (generation : Z)
    (adapter_version : string) (parent_ref : option string) : Store (json * Z) :=
  thread thread_id;;
  t ← now; id ← new_id "runtime_binding";
  fits ← query (λ d, bool_decide (runtime_bindings d !! id = None)
    && negb (existsb (λ x : string * binding_row, same_session adapter_id session_ref generation x.2)
         (map_to_list (runtime_bindings d))));
  ensure fits IntegrityError;;
  execute (set_bindings (<[id := BindingRow thread_id adapter_id session_ref generation
    adapter_version parent_ref t t]>));;
  '(_, v) ← runtime_binding id; mret (v, 201).
Definition create_runtime_binding (thread_id adapter_id runtime_session_ref : string)
    (generation : Z) (adapter_version : string) (parent_ref : option string)
    (actor_id key : string) : Store command_result :=
  adapter ← required_text adapter_id "adapter_id" 100;
  session_ref ← required_text runtime_session_ref "runtime_session_ref" 1000;
  version ← required_text adapter_version "adapter_version" 100;
  ensure (0 <=? generation) (ValueError "generation must be a non-negative integer");;
  command actor_id ("POST:/internal/v1/threads/" +:+ thread_id +:+ "/runtime-bindings") key
    (JObj [("thread_id", JStr thread_id); ("adapter_id", JStr adapter);
           ("runtime_session_ref", JStr session_ref); ("generation", JInt generation);
           ("adapter_version", JStr version); ("parent_ref", opt_json parent_ref)])
    (create_binding_body thread_id adapter session_ref generation version parent_ref).

(** [_paused_source_attempt]: the loop up the chain of source attempts. *)
Fixpoint paused_source (fuel : nat) (visited : list string) (next : option string) :
    Store (option (string * attempt_row)) :=
  match next with
  | None => mret None
  | Some id =>
      ensure (negb (in_texts id visited))
        (InvalidTransition "attempt_lineage_cycle" "source_attempt");;
      a ← attempt id;
      if String.eqb (at_state a) "paused" && has_text (at_checkpoint_uri a)
      then mret (Some (id, a))
      else match fuel with
           | O => raise (RuntimeError "out of fuel")
           | S fuel' => paused_source fuel' (id :: visited) (at_source_attempt_id a)
           end
  end.
Definition paused_source_attempt (a : attempt_row) : Store (option (string * attempt_row)) :=
  n ← query (λ d, size (attempts d));
  paused_source n [] (at_source_attempt_id a).
(** [_insert_paused_source_releases]. *)
Definition insert_paused_source_releases (run_id : string) (a : attempt_row) (t : string) :
    Store (list string) :=
  source ← paused_source_attempt a;
  match source with
  | None => mret []
  | Some (id, s) => release ← insert_pin_release run_id id s t; mret [release]
  end.

(** An UPDATE of one attempt; the result is [cursor.rowcount]. *)
Definition update_attempt (id : string) (where_ : attempt_row → bool)
    (f : attempt_row → attempt_row) : Store Z :=
  row ← query (λ d, attempts d !! id);
  match row with
  | Some a => if where_ a then execute (set_attempts (<[id := f a]>));; mret 1 else mret 0
  | None => mret 0
  end.

(** [reserve_attempt_dispatch]. *)
Definition reserve_body (run_id attempt_id owner : string) (i : runtime_identity)
    (expected_revision lease_seconds : Z) : Store (json * Z) :=
  r ← run_at run_id expected_revision;
  ensure (bool_decide (ru_active_attempt_id r = Some attempt_id))
    (InvalidTransition "attempt_mismatch" "dispatch_reserved");;
  ensure (in_texts (ru_state r) ["queued"; "retrying"; "resuming"])
    (InvalidTransition (ru_state r) "dispatch_reserved");;
  a ← attempt attempt_id;
  ensure (bool_decide (at_runtime_binding_id a = None))
    (InvalidTransition "already_bound" "dispatch_reserved");;
  current ← utc_now;
  expires ← format_after current lease_seconds;
  n ← update_attempt attempt_id (reservable owner (format_time current) i)
    (at_reserve owner expires i);
  ensure (n =? 1) (InvalidTransition "already_reserved" "dispatch_reserved");;
  update_run run_id expected_revision (ru_state r) (format_time current);;
  insert_event run_id (Some attempt_id) "runtime.dispatch.reserved" (JObj (identity_fields i)) None;;
  v ← run_and_attempt run_id attempt_id; mret (v, 200).
(** Whether the attempt is still reserved as a repeated request asks. *)
Definition reservation_held (owner : string) (i : runtime_identity) (a : attempt_row) :
    Store bool :=
  if reserved_by owner i a && bool_decide (is_Some (at_dispatch_expires_at a))
  then t ← now; mret (text_after (at_dispatch_expires_at a) t) else mret false.
Definition reserve_attempt_dispatch (run_id attempt_id dispatch_owner : string)
    (i : runtime_identity) (expected_revision lease_seconds : Z) (actor_id key : string) :
    Store command_result :=
  owner ← required_text dispatch_owner "dispatch_owner" 200;
  release ← required_text (ri_release i) "runtime_release_id" 200;
  generation ← required_text (ri_generation i) "state_generation_id" 200;
  slot ← required_text (ri_slot i) "runtime_slot_id" 200;
  digest ← required_text (ri_digest i) "runtime_artifact_digest" 200;
  protocol ← required_text (ri_protocol i) "runtime_worker_protocol" 100;
  check_lease lease_seconds;;
  let i := RuntimeIdentity release generation slot digest protocol in
  let request := JObj ([("attempt_id", JStr attempt_id); ("dispatch_owner", JStr owner)]
    ++ identity_fields i
    ++ [("expected_revision", JInt expected_revision); ("lease_seconds", JInt lease_seconds)]) in
  let operation := "POST:/internal/v1/runs/" +:+ run_id +:+ "/reserve-dispatch" in
  transaction (
    replay ← receipt actor_id operation key request;
    match replay with
    | Some saved =>
        a ← attempt attempt_id;
        held ← reservation_held owner i a;
        ensure held (InvalidTransition "stale_dispatch_receipt" "dispatch_reserved");;
        mret saved
    | None =>
        '(v, code) ← reserve_body run_id attempt_id owner i expected_revision lease_seconds;
        save_receipt actor_id operation key request v code
    end).

(** [claim_attempt_dispatch] is retired. *)
Definition claim_attempt_dispatch (run_id attempt_id dispatch_owner : string)
    (lease_seconds : Z) : Store json :=
  raise (InvalidTransition "dispatch_reservation_required" "dispatch_claimed").

(** [pin_attempt_runtime]. *)
Definition pin_body (run_id attempt_id binding_id release generation owner : string)
    (expected_revision : Z) : Store (json * Z) :=
  r ← run_at run_id expected_revision;
  ensure (bool_decide (ru_active_attempt_id r = Some attempt_id))
    (InvalidTransition "attempt_mismatch" "runtime_bound");;
  a ← attempt attempt_id;
  '(b, _) ← runtime_binding binding_id;
  ensure (String.eqb (rb_thread_id b) (ru_thread_id r))
    (InvalidTransition "binding_mismatch" "runtime_bound");;
  ensure (bool_decide (at_runtime_binding_id a = None))
    (InvalidTransition "already_bound" "runtime_bound");;
  live ← (if pinnable owner release generation a && bool_decide (is_Some (at_dispatch_expires_at a))
          then t ← now; mret (text_after (at_dispatch_expires_at a) t) else mret false);
  ensure live (InvalidTransition "dispatch_reservation_mismatch" "runtime_bound");;
  t ← now;
  n ← update_attempt attempt_id
    (λ x, bool_decide (at_runtime_binding_id x = None)
          && bool_decide (at_dispatch_owner x = Some owner)
          && bool_decide (at_runtime_release_id x = Some release)
          && bool_decide (at_state_generation_id x = Some generation)
          && text_after (at_dispatch_expires_at x) t)
    (at_bind binding_id);
  ensure (n =? 1) (InvalidTransition "dispatch_reservation_mismatch" "runtime_bound");;
  releases ← insert_paused_source_releases run_id a t;
  update_run run_id expected_revision (ru_state r) t;;
  insert_event run_id (Some attempt_id) "runtime.bound"
    (JObj [("runtime_binding_id", JStr binding_id); ("runtime_release_id", JStr release);
           ("state_generation_id", JStr generation);
           ("source_pin_release_action_ids", JArr (map JStr releases))]) None;;
  v ← run_and_attempt run_id attempt_id; mret (v, 200).
Definition pin_attempt_runtime (run_id attempt_id runtime_binding_id runtime_release_id : string)
    (expected_revision : Z) (state_generation_id dispatch_owner : option string)
    (actor_id key : string) : Store command_result :=
  release ← required_text runtime_release_id "runtime_release_id" 200;
  generation ← required_opt state_generation_id "state_generation_id" 200;
  owner ← required_opt dispatch_owner "dispatch_owner" 200;
  command actor_id ("POST:/internal/v1/runs/" +:+ run_id +:+ "/pin-runtime") key
    (JObj [("attempt_id", JStr attempt_id); ("runtime_binding_id", JStr runtime_binding_id);
           ("runtime_release_id", JStr release); ("state_generation_id", JStr generation);
           ("expected_revision", JInt expected_revision); ("dispatch_owner", JStr owner)])
    (pin_body run_id attempt_id runtime_binding_id release generation owner expected_revision).
End Dispatch.
