(* ===== verification/RuntimeEvents.v ===== *)
(** * The life of a run

    The commands of [control/store.py] by which a runtime or an operator moves a
    run: [transition_run] over [_RUN_TRANSITIONS], the assistant's messages, the
    checkpoints, and the inbox that applies each event of a runtime once and in
    order. *)

From S2P Require Import Prelude PyText Clock Json Schema Store Threads Runs RuntimeActions PinReleases RunClosing Resources Dispatch.
Open Scope Z_scope.

(** [_RUN_TRANSITIONS]. *)
Definition RUN_TRANSITIONS (source : string) : list string :=
  if String.eqb source "queued" then ["starting"; "cancel_requested"; "failed"]
  else if String.eqb source "starting" then ["running"; "cancel_requested"; "failed"]
  else if String.eqb source "running" then
    ["waiting_for_decision"; "pause_requested"; "cancel_requested"; "completed"; "failed"]
  else if String.eqb source "waiting_for_decision" then
    ["resuming"; "cancel_requested"; "failed"]
  else if String.eqb source "pause_requested" then
    ["paused"; "canceled"; "cancel_requested"; "failed"]
  else if String.eqb source "paused" then ["cancel_requested"]
  else if String.eqb source "resuming" then
    ["starting"; "running"; "cancel_requested"; "failed"]
  else if String.eqb source "cancel_requested" then ["canceled"; "failed"]
  else if String.eqb source "retrying" then ["starting"; "cancel_requested"; "failed"]
  else [].

Definition CAPTURE_CONSUMER_ACTOR : string := "machine:p4-capture-consumer".
Definition CAPTURE_WORKFLOW_DEFINITION_ID : string := "research.capture".

(** The targets an operator asks for; the others come from a runtime. *)
Definition is_request (target : string) : bool :=
  in_texts target ["pause_requested"; "cancel_requested"].
Definition is_terminal (state : string) : bool := in_texts state TERMINAL_RUN_STATES.

(** [_receipt_subject_id]: what the stored answer of a receipt names. *)
Definition receipt_subject (r : receipt_row) : option json :=
  v ← loads (rc_response_json r); jget "id" v.
(** [_ENGINE_OWNED_RUN_PREDICATE]: the run carries the capture workflow, or its
    first creating receipt is the capture consumer's. *)
Definition receipt_le (a b : receipt_key * receipt_row) : bool :=
  pair_le (rc_created_at a.2, a.1.1.1) (rc_created_at b.2, b.1.1.1).
Definition creating_receipts (run_id : string) (r : run_row) (d : db) :
    list (receipt_key * receipt_row) :=
  isort receipt_le (List.filter (λ x : receipt_key * receipt_row,
    String.eqb x.1.1.2 (create_run_path (ru_thread_id r))
    && match receipt_subject x.2 with Some (JStr s) => String.eqb s run_id | _ => false end)
    (map_to_list (idempotency_receipts d))).
Definition engine_owned_run (run_id : string) (r : run_row) (d : db) : bool :=
  existsb (λ x : string * workflow_row, String.eqb (wf_run_id x.2) run_id
    && String.eqb (wf_definition_id x.2) CAPTURE_WORKFLOW_DEFINITION_ID)
    (map_to_list (workflow_instances d))
  || match creating_receipts run_id r d with
     | x :: _ => String.eqb x.1.1.1 CAPTURE_CONSUMER_ACTOR
     | [] => false
     end.

(** What a runtime sends along with a command: its event and what caused it. *)
Record cause := Cause {
  ca_event_id : option string; ca_sequence : option Z; ca_operation_id : option string;
  ca_delivery_epoch : option Z }.
Definition no_cause : cause := Cause None None None None.
Definition opt_int (o : option Z) : json := match o with Some n => JInt n | None => JNull end.
Definition cause_fields (c : cause) : list (string * json) :=
  [("adapter_event_sequence", opt_int (ca_sequence c));
   ("caused_by_adapter_operation_id", opt_json (ca_operation_id c));
   ("caused_by_delivery_epoch", opt_int (ca_delivery_epoch c))].
(** The runtime that sends it. *)
Record sender := Sender {
  se_attempt : string; se_binding : string; se_release : string;
  se_generation : option string }.
Definition sender_fields (s : sender) : list (string * json) :=
  [("attempt_id", JStr (se_attempt s)); ("runtime_binding_id", JStr (se_binding s));
   ("runtime_release_id", JStr (se_release s)); ("state_generation_id", opt_json (se_generation s))].

(** [_ADAPTER_EVENT_RE]. *)
Definition event_id_char (c : Ascii.ascii) : bool := is_alnum c || one_of "_.:-" c.
Definition event_id_ok (id : string) : bool :=
  str_all event_id_char id && (1 <=? slen id) && (slen id <=? 500).

(** The request without [expected_revision]. *)
Definition logical_request (fields : list (string * json)) : json :=
  JObj (List.filter (λ kv, negb (String.eqb kv.1 "expected_revision")) fields).
(** The sequences an attempt's inbox holds. *)
Definition inbox_sequences (attempt_id : string) (d : db) : list Z :=
  omap (λ x : (string * string) * inbox_row,
    if String.eqb x.1.1 attempt_id then ib_adapter_event_sequence x.2 else None)
    (map_to_list (runtime_event_inbox d)).
Definition next_event_sequence (attempt_id : string) (d : db) : Z :=
  foldr Z.max (-1) (inbox_sequences attempt_id d) + 1.

(** Changed columns. *)
Definition ru_move (state : string) (stage : option string) (t : string) (r : run_row) : run_row :=
  RunRow (ru_thread_id r) state (ru_active_attempt_id r)
    (match stage with Some s => Some s | None => ru_stage r end)
    (ru_latest_sequence r) (ru_revision r + 1) (ru_created_at r) t.
Definition ru_confirm (t : string) (r : run_row) : run_row :=
  RunRow (ru_thread_id r) "running" (ru_active_attempt_id r) (ru_stage r)
    (ru_latest_sequence r) (ru_revision r) (ru_created_at r) t.
Definition at_move (target t : string) (finished : option string) (r : attempt_row) : attempt_row :=
  AttemptRow (at_run_id r) (at_number r) target (at_runtime_binding_id r)
    (at_runtime_release_id r) (at_checkpoint_uri r) (at_source_attempt_id r)
    (at_source_checkpoint_uri r)
    (if String.eqb target "running"
     then match at_started_at r with Some s => Some s | None => Some t end
     else at_started_at r)
    (match finished with Some f => Some f | None => at_finished_at r end)
    (at_state_generation_id r) (at_dispatch_owner r) (at_dispatch_expires_at r)
    (at_runtime_identity_version r) (at_runtime_slot_id r) (at_runtime_artifact_digest r)
    (at_runtime_worker_protocol r).
Definition at_checkpoint (uri : string) (r : attempt_row) : attempt_row :=
  AttemptRow (at_run_id r) (at_number r) (at_state r) (at_runtime_binding_id r)
    (at_runtime_release_id r) (Some uri) (at_source_attempt_id r) (at_source_checkpoint_uri r)
    (at_started_at r) (at_finished_at r) (at_state_generation_id r) (at_dispatch_owner r)
    (at_dispatch_expires_at r) (at_runtime_identity_version r) (at_runtime_slot_id r)
    (at_runtime_artifact_digest r) (at_runtime_worker_protocol r).
Definition th_end (status t : string) (r : thread_row) : thread_row :=
  ThreadRow (th_workspace_id r) (th_title r) status None (th_revision r + 1)
    (th_created_at r) t (th_archived_at r).
Definition ra_terminate (t : string) (r : action_row) : action_row :=
  ra_set act_failed (Some t) (drop_claim (ra_claim r)) (Some "attempt_terminated")
    (ra_outcome_state r) r.

Definition pending_of (run_id attempt_id : string) (r : action_row) : bool :=
  String.eqb (ra_run_id r) run_id && String.eqb (ra_attempt_id r) attempt_id
  && is_pending (ra_state r).
Definition open_decision (run_id : string) (r : decision_row) : bool :=
  String.eqb (de_run_id r) run_id && bool_decide (de_state r = decision_pending).

Section RuntimeEvents.
Context `{Env}.

(** [_runtime_event_replay]. *)
Definition runtime_event_replay (attempt_id : option string) (c : cause)
    (fields : list (string * json)) : Store (option command_result) :=
  match ca_event_id c with
  | None => mret None
  | Some event_id =>
      ensure (has_text attempt_id) (ValueError "attempt_id is required for a runtime event");;
      let attempt_id := default "" attempt_id in
      ensure (event_id_ok event_id) (ValueError "adapter_event_id is invalid");;
      sequence ← from_option (ca_sequence c)
        (ValueError "adapter_event_sequence is required for a runtime event");
      ensure (0 <=? sequence) (ValueError "adapter_event_sequence must be non-negative");;
      row ← query (λ d, runtime_event_inbox d !! (attempt_id, event_id));
      match row with
      | Some b =>
          ensure (bool_decide (ib_adapter_event_sequence b = Some sequence)
                  && String.eqb (ib_payload_hash b) (request_hash (logical_request fields)))
            IdempotencyConflict;;
          v ← json_loads (ib_response_json b);
          mret (Some (CommandResult v (ib_status_code b) true))
      | None =>
          used ← query (λ d, existsb (Z.eqb sequence) (inbox_sequences attempt_id d));
          ensure (negb used) IdempotencyConflict;;
          expected ← query (next_event_sequence attempt_id);
          ensure (sequence =? expected) (InvalidTransition
            (if expected <? sequence then "runtime_event_sequence_gap"
             else "stale_runtime_event_sequence") "runtime_event_ingest");;
          mret None
      end
  end.

(** [_save_runtime_event]. *)
Definition save_runtime_event (attempt_id : option string) (c : cause)
    (fields : list (string * json)) (result : command_result) : Store unit :=
  match ca_event_id c with
  | None => mret tt
  | Some event_id =>
      ensure (has_text attempt_id) (ValueError "attempt_id is required for a runtime event");;
      let attempt_id := default "" attempt_id in
      ensure (event_id_ok event_id) (ValueError "adapter_event_id is invalid");;
      t ← now;
      fits ← query (λ d, bool_decide (runtime_event_inbox d !! (attempt_id, event_id) = None)
        && bool_decide (is_Some (attempts d !! attempt_id))
        && match ca_sequence c with
           | Some n => (0 <=? n) && negb (existsb (Z.eqb n) (inbox_sequences attempt_id d))
           | None => true
           end);
      ensure fits IntegrityError;;
      execute (set_inbox (<[(attempt_id, event_id) := InboxRow
        (request_hash (logical_request fields)) (cr_status_code result)
        (json_text (cr_value result)) t (ca_sequence c)]>))
  end.

(** The commands a runtime sends: the receipt, then the inbox, then the body; the
    body also names the attempt the event is filed under. *)
Definition event_command (actor_id operation key : string) (fields : list (string * json))
    (attempt_id : option string) (c : cause) (body : Store (json * Z * option string)) :
    Store command_result :=
  transaction (
    replay ← receipt actor_id operation key (JObj fields);
    match replay with
    | Some saved => mret saved
    | None =>
        let request := ("operation", JStr operation) :: fields in
        seen ← runtime_event_replay attempt_id c request;
        match seen with
        | Some saved => mret saved
        | None =>
            '(v, code, filed) ← body;
            result ← save_receipt actor_id operation key (JObj fields) v code;
            save_runtime_event filed c request result;;
            mret result
        end
    end).

(** [_confirm_runtime_resume_from_event]: an event of the runtime is the proof that
    it took the decision it was sent.  Answers the state the run is in then. *)
Definition confirm_runtime_resume (run_id : string) (r : run_row) (attempt_id : string) (c : cause) :
    Store string :=
  match ca_event_id c with
  | Some event_id =>
      if String.eqb (ru_state r) "resuming" then
        rows ← query (actions_where (λ a, pending_of run_id attempt_id a
          && String.eqb (ra_kind a) "decision.resolve"));
        match rows with
        | [(id, a)] =>
            let epoch := cl_epoch (ra_claim a) in
            ensure ((1 <=? epoch)
                    && bool_decide (ca_operation_id c = Some ("runtime-action:" +:+ id))
                    && bool_decide (ca_delivery_epoch c = Some epoch))
              (InvalidTransition "runtime_resume_causation_unverified" "runtime_event_ingest");;
            t ← now;
            n ← update_action id (λ x, is_pending (ra_state x)) (ra_settle act_acked t None);
            ensure (n =? 1) (InvalidTransition "runtime_resume_action_race" "runtime_event_ingest");;
            execute (set_runs (alter (ru_confirm t) run_id));;
            update_attempt_state attempt_id "running";;
            insert_event run_id (Some attempt_id) "runtime.action.acked"
              (JObj [("runtime_action_id", JStr id); ("kind", JStr "decision.resolve");
                     ("confirmation", JStr "durable_runtime_event")]) (Some event_id);;
            mret "running"
        | _ => raise (InvalidTransition "runtime_resume_action_missing" "runtime_event_ingest")
        end
      else mret (ru_state r)
  | None => mret (ru_state r)
  end.

(** [_fail_pending_runtime_actions]. *)
Definition fail_pending_runtime_actions (run_id attempt_id t : string) : Store (list string) :=
  rows ← query (actions_where (pending_of run_id attempt_id));
  match map fst rows with
  | [] => mret []
  | ids =>
      execute (set_runtime_actions (update_where (λ _ a, pending_of run_id attempt_id a)
        (ra_terminate t)));;
      mret ids
  end.

(** [INSERT INTO runtime_actions]. *)
Definition insert_runtime_action (run_id attempt_id binding_id release_id kind : string)
    (payload : json) (t : string) : Store string :=
  id ← new_id "runtime_action";
  fits ← query (λ d, bool_decide (runtime_actions d !! id = None)
    && bool_decide (is_Some (runs d !! run_id)) && bool_decide (is_Some (attempts d !! attempt_id))
    && bool_decide (is_Some (runtime_bindings d !! binding_id)));
  ensure fits IntegrityError;;
  execute (set_runtime_actions (<[id := ActionRow run_id attempt_id binding_id release_id kind
    (json_text payload) t act_pending None (Claim None None 0) None ready]>));;
  mret id.
(** [_insert_control_runtime_action]. *)
Definition insert_control_runtime_action (run_id : string) (attempt_id : option string)
    (kind t : string) : Store (option string) :=
  match attempt_id with
  | None => mret None
  | Some attempt_id =>
      a ← attempt attempt_id;
      match at_runtime_binding_id a, at_runtime_release_id a with
      | Some b, Some release =>
          id ← insert_runtime_action run_id attempt_id b release kind (JObj []) t;
          mret (Some id)
      | _, _ => mret None
      end
  end.

(** [_prepare_run_cancellation]. *)
Definition prepare_run_cancellation (run_id : string) (attempt_id : option string) (t : string) :
    Store (list string * option string * json) :=
  lost ← (match attempt_id with
            | Some a => fail_pending_runtime_actions run_id a t | None => mret []
            end);
  action ← insert_control_runtime_action run_id attempt_id "control.cancel" t;
  closed ← close_source_work_for_run run_id t;
  mret (lost, action, closed).

(** The decisions that end with a run. *)
Definition expire_decisions (run_id t : string) : Store (list string) :=
  rows ← query (λ d, oldest_first de_created_at (λ x, open_decision run_id x.2) (decisions d));
  match map fst rows with
  | [] => mret []
  | ids =>
      execute (set_decisions (update_where (λ _ r, open_decision run_id r) (de_expire t)));;
      mret ids
  end.
(** [UPDATE threads SET status = ?, active_run_id = NULL ... AND active_run_id = ?]. *)
Definition end_thread (thread_id run_id status t : string) : Store unit :=
  execute (set_threads (alter (λ th,
    if bool_decide (th_active_run_id th = Some run_id) then th_end status t th else th) thread_id)).
(** The pin an ended attempt held. *)
Definition release_pin_of (run_id attempt_id t : string) : Store (option string) :=
  a ← attempt attempt_id;
  if bool_decide (is_Some (at_runtime_release_id a))
     && bool_decide (is_Some (at_state_generation_id a))
  then id ← insert_pin_release run_id attempt_id a t; mret (Some id)
  else mret None.

(** What a transition leaves in its event. *)
Definition texts_field (key : string) (l : list string) : list (string * json) :=
  match l with [] => [] | _ => [(key, texts_json l)] end.
Definition opt_field (key : string) (o : option string) : list (string * json) :=
  match o with Some s => [(key, JStr s)] | None => [] end.
Definition work_field (v : json) : list (string * json) :=
  match v with JObj [] => [] | _ => [("closed_source_work", v)] end.
Definition update_fields (base more : list (string * json)) : list (string * json) :=
  fold_left (λ l kv, assoc_set kv.1 kv.2 l) more base.

(** [transition_run]. *)
Definition transition_settle (run_id target : string) (active : option string) (t : string) :
    Store (list string * option string * json) :=
  if String.eqb target "cancel_requested" then prepare_run_cancellation run_id active t
  else
    action ← (if String.eqb target "pause_requested"
              then insert_control_runtime_action run_id active "control.pause" t else mret None);
    lost ← (if (is_terminal target || String.eqb target "paused") && has_text active
              then fail_pending_runtime_actions run_id (default "" active) t else mret []);
    (if String.eqb target "paused" && has_text active
     then fence_artifact_materializations_for_attempt run_id (default "" active) t
     else mret []);;
    closed ← (if is_terminal target then close_source_work_for_run run_id t else mret (JObj []));
    mret (lost, action, closed).
Definition transition_rows (run_id thread_id target : string) (expected_revision : Z)
    (stage active : option string) (t : string) : Store (list string * option string) :=
  execute (set_runs (alter (λ r,
    if ru_revision r =? expected_revision then ru_move target stage t r else r) run_id));;
  (if has_text active
   then execute (set_attempts (alter (at_move target t
          (if is_terminal target || String.eqb target "paused" then Some t else None))
          (default "" active)))
   else mret tt);;
  (if is_terminal target then
     end_thread thread_id run_id target t;;
     expired ← expire_decisions run_id t;
     pin ← (if has_text active then release_pin_of run_id (default "" active) t else mret None);
     mret (expired, pin)
   else mret ([], None)).
Definition transition_body (run_id target : string) (expected_revision : Z) (actor_id : string)
    (stage : option string) (payload : list (string * json))
    (attempt_id binding_id release_id generation : option string) (c : cause) :
    Store (json * Z * option string) :=
  '(r, v) ← run run_id;
  engine ← (if is_request target && negb (String.eqb actor_id CAPTURE_CONSUMER_ACTOR)
            then query (engine_owned_run run_id r) else mret false);
  ensure (negb engine) (MachineRunRefused run_id target);;
  expect_revision v (ru_revision r) expected_revision;;
  '(source, checkpoint) ← (if is_request target then mret (ru_state r, None) else
    ensure (has_text attempt_id && has_text binding_id && has_text release_id)
      (ValueError "runtime identity is required for this transition");;
    a ← validate_runtime_identity run_id r (default "" attempt_id) (default "" binding_id)
      (default "" release_id) generation;
    source ← confirm_runtime_resume run_id r (default "" attempt_id) c;
    mret (source, at_checkpoint_uri a));
  ensure (negb (String.eqb target "paused") || has_text checkpoint)
    (InvalidTransition "checkpoint_missing" "paused");;
  ensure (in_texts target (RUN_TRANSITIONS source)) (InvalidTransition source target);;
  t ← now;
  let active := ru_active_attempt_id r in
  '(lost, action, closed) ← transition_settle run_id target active t;
  '(expired, pin) ← transition_rows run_id (ru_thread_id r) target expected_revision stage active t;
  insert_event run_id (if has_text active then active else None) ("run." +:+ target)
    (JObj (update_fields [("from", JStr source); ("state", JStr target)]
      (payload ++ texts_field "failed_runtime_action_ids" lost
       ++ texts_field "expired_decision_ids" expired ++ work_field closed
       ++ opt_field "runtime_action_id" action ++ opt_field "pin_release_action_id" pin)))
    (ca_event_id c);;
  '(_, v) ← run run_id; mret (v, 200, active).

Definition transition_operation (run_id target : string) : string :=
  "POST:/api/v1/runs/" +:+ run_id +:+ "/transition/" +:+ target.
Definition transition_request (target : string) (expected_revision : Z) (stage : option string)
    (payload : list (string * json)) (attempt_id binding_id release_id generation : option string)
    (c : cause) : list (string * json) :=
  [("target_state", JStr target); ("expected_revision", JInt expected_revision);
   ("stage", opt_json stage); ("payload", JObj payload); ("attempt_id", opt_json attempt_id);
   ("runtime_binding_id", opt_json binding_id); ("runtime_release_id", opt_json release_id);
   ("state_generation_id", opt_json generation)] ++ cause_fields c.
Definition transition_run (run_id target : string) (expected_revision : Z) (actor_id key : string)
    (stage : option string) (payload : list (string * json))
    (attempt_id binding_id release_id generation : option string) (c : cause) :
    Store command_result :=
  event_command actor_id (transition_operation run_id target) key
    (transition_request target expected_revision stage payload attempt_id binding_id release_id
      generation c) attempt_id c
    (transition_body run_id target expected_revision actor_id stage payload attempt_id binding_id
      release_id generation c).
(** [apply_runtime_transition]. *)
Definition apply_runtime_transition (run_id target : string) (s : sender) (expected_revision : Z)
    (actor_id key : string) (stage : option string) (payload : list (string * json)) (c : cause) :
    Store command_result :=
  transition_run run_id target expected_revision actor_id key stage payload
    (Some (se_attempt s)) (Some (se_binding s)) (Some (se_release s)) (se_generation s) c.

(** The opening of the commands a runtime sends about a run: its revision, its
    identity, and the resume it proves.  Answers the row and the state. *)
Definition sent_by (run_id : string) (s : sender) (expected_revision : Z) (c : cause) :
    Store (run_row * attempt_row * string) :=
  r ← run_at run_id expected_revision;
  a ← validate_runtime_identity run_id r (se_attempt s) (se_binding s) (se_release s)
    (se_generation s);
  state ← confirm_runtime_resume run_id r (se_attempt s) c;
  mret (r, a, state).
(** [UPDATE runs SET revision = revision + 1, updated_at = ? ...] and the event. *)
Definition touch_run (run_id : string) (expected_revision : Z) (t : string) : Store unit :=
  execute (set_runs (alter (λ r,
    if ru_revision r =? expected_revision then ru_touch (ru_state r) t r else r) run_id)).

(** [append_runtime_message]. *)
Definition runtime_message_body (run_id : string) (s : sender) (content : string)
    (expected_revision : Z) (c : cause) : Store (json * Z * option string) :=
  '(r, _, state) ← sent_by run_id s expected_revision c;
  ensure (String.eqb state "running") (InvalidTransition state "message_completed");;
  thread (ru_thread_id r);;
  position ← query (next_position (ru_thread_id r));
  id ← new_id "msg"; t ← now;
  insert_message id (MessageRow (ru_thread_id r) assistant content position t);;
  execute (set_threads (alter (th_touch t) (ru_thread_id r)));;
  touch_run run_id expected_revision t;;
  insert_event run_id (Some (se_attempt s)) "runtime.message.completed"
    (JObj [("message_id", JStr id); ("role", JStr "assistant")]) (ca_event_id c);;
  '(_, v) ← run run_id;
  m ← message id;
  mret (jset "message" m v, 200, Some (se_attempt s)).
Definition append_runtime_message (run_id : string) (s : sender) (content : string)
    (expected_revision : Z) (actor_id key : string) (c : cause) : Store command_result :=
  content ← required_text content "content" 1000000;
  event_command actor_id ("POST:/internal/v1/runs/" +:+ run_id +:+ "/assistant-message") key
    (sender_fields s ++ [("content", JStr content); ("expected_revision", JInt expected_revision)]
     ++ cause_fields c) (Some (se_attempt s)) c
    (runtime_message_body run_id s content expected_revision c).

(** [commit_checkpoint]. *)
Definition checkpoint_body (run_id : string) (s : sender) (uri : string) (expected_revision : Z)
    (c : cause) : Store (json * Z * option string) :=
  '(r, a, state) ← sent_by run_id s expected_revision c;
  ensure (in_texts state ["running"; "pause_requested"]) (InvalidTransition state "checkpointed");;
  t ← now;
  execute (set_attempts (alter (at_checkpoint uri) (se_attempt s)));;
  touch_run run_id expected_revision t;;
  insert_event run_id (Some (se_attempt s)) "checkpoint.committed"
    (JObj [("checkpoint_uri", JStr uri)]) (ca_event_id c);;
  '(_, v) ← run run_id;
  mret (jset "attempt" (attempt_json (se_attempt s) (at_checkpoint uri a)) v, 200,
        Some (se_attempt s)).
Definition commit_checkpoint `{UnicodeChecks} (run_id : string) (s : sender)
    (checkpoint_uri : string) (expected_revision : Z) (actor_id key : string) (c : cause) :
    Store command_result :=
  uri ← required_text checkpoint_uri "checkpoint_uri" 4000;
  parsed ← (match parse_resource_uri uri with inl e => raise (ValueError e) | inr u => mret u end);
  ensure (String.eqb (cu_root parsed) "artifacts")
    (ValueError "checkpoint_uri must use the artifacts resource root");;
  event_command actor_id ("POST:/internal/v1/runs/" +:+ run_id +:+ "/checkpoint") key
    (sender_fields s ++ [("checkpoint_uri", JStr uri); ("expected_revision", JInt expected_revision)]
     ++ cause_fields c) (Some (se_attempt s)) c
    (checkpoint_body run_id s uri expected_revision c).
End RuntimeEvents.
