(* ===== verification/Decisions.v ===== *)
(** * Decisions

    The commands of [control/store.py] by which a run asks its operator and is
    answered: [create_decision] and [resolve_decision], the branch of a workflow's
    decision included. *)

From Stdlib Require Import Ascii.
From S2P Require Import Prelude PyText Clock Json Schema Store Runs RuntimeActions RunClosing Dispatch RuntimeEvents.
Open Scope Z_scope.

Definition decision_state_text (s : decision_state) : string :=
  match s with
  | decision_pending => "pending" | decision_resolved => "resolved" | decision_expired => "expired"
  end.
Definition decision_json (id : string) (r : decision_row) (options resolution : json) : json := JObj
  [("id", JStr id); ("run_id", JStr (de_run_id r)); ("attempt_id", JStr (de_attempt_id r));
   ("kind", JStr (de_kind r)); ("prompt", JStr (de_prompt r));
   ("state", JStr (decision_state_text (de_state r))); ("revision", JInt (de_revision r));
   ("created_at", JStr (de_created_at r)); ("resolved_at", opt_json (de_resolved_at r));
   ("options", options); ("resolution", resolution)].

(** Changed columns. *)
Definition de_resolve (resolution t : string) (r : decision_row) : decision_row :=
  DecisionRow (de_run_id r) (de_attempt_id r) (de_kind r) (de_prompt r) (de_options_json r)
    decision_resolved (Some resolution) (de_revision r + 1) (de_created_at r) (Some t)
    (de_runtime_decision_ref r) (de_runtime_decision_revision r).
Definition dr_resolve (revision : Z) (choice t : string) (r : decision_ref_row) : decision_ref_row :=
  DecisionRefRow (dr_workflow_id r) (dr_stage_id r) (dr_decision_id r) (Some (revision, choice, t)).
Definition st_activate (r : stage_row) : stage_row :=
  StageRow (st_workflow_id r) (st_stage_key r) stage_active (st_revision r + 1).
Definition wf_run_on (t : string) (r : workflow_row) : workflow_row :=
  WorkflowRow (wf_run_id r) (wf_definition_id r) workflow_running (wf_revision r + 1) t.

Definition DECISION_OPTION_FIELDS : list string := ["id"; "label"; "description"].
Definition SENSITIVE_DTO_FIELDS : list string :=
  ["secret"; "token"; "path"; "raw"; "raw_payload"; "reasoning"; "hidden_reasoning";
   "chain_of_thought"; "runtime_session_ref"; "provider_request_id"].

(** The choices a stored decision offers. *)
Definition option_ids (options : json) : list string :=
  match options with
  | JArr l => omap (λ o, match jget "id" o with Some (JStr s) => Some s | _ => None end) l
  | _ => []
  end.

Section Decisions.
Context `{Env}.

(** [_decision]. *)
Definition decision (id : string) : Store (decision_row * json) :=
  row ← query (λ d, decisions d !! id);
  r ← from_option row (NotFound "decision" id);
  options ← json_loads (de_options_json r);
  resolution ← (if has_text (de_resolution_json r)
                then json_loads (default "" (de_resolution_json r)) else mret JNull);
  mret (r, decision_json id r options resolution).

(** [_public_decision_text] of a value of an option. *)
Definition public_char (c : ascii) : bool := (32 <=? ord c) || (ord c =? 10) || (ord c =? 9).
Definition public_text (value name : string) (maximum : Z) : Store string :=
  text ← required_text value name maximum;
  ensure (str_all public_char text) (ValueError (name +:+ " contains invalid control characters"));;
  mret text.
Definition public_field (value : option json) (name : string) (maximum : Z) : Store string :=
  match value with
  | Some (JStr s) => public_text s name maximum
  | _ => raise (ValueError (name +:+ " is invalid"))
  end.

(** [_validate_decision_options]: an option is the list of its items. *)
Definition private_option (o : list (string * json)) : bool :=
  existsb (λ kv, in_texts (lower kv.1) SENSITIVE_DTO_FIELDS
                 || negb (in_texts kv.1 DECISION_OPTION_FIELDS)) o.
Fixpoint validate_options (seen : list string) (options : list (list (string * json))) :
    Store (list json) :=
  match options with
  | [] => mret []
  | o :: options' =>
      ensure (negb (private_option o)) (ValueError "decision option contains private fields");;
      id ← public_field (assoc "id" o) "option.id" 200;
      ensure (negb (in_texts id seen)) (ValueError "decision option ids must be unique");;
      label ← (match assoc "label" o with
               | Some v => s ← public_field (Some v) "option.label" 500; mret [("label", JStr s)]
               | None => mret []
               end);
      description ← (match assoc "description" o with
                     | Some v => s ← public_field (Some v) "option.description" 2000;
                                 mret [("description", JStr s)]
                     | None => mret []
                     end);
      rest ← validate_options (id :: seen) options';
      mret (JObj (("id", JStr id) :: label ++ description) :: rest)
  end.
Definition validate_decision_options (options : list (list (string * json))) : Store (list json) :=
  ensure ((1 <=? Z.of_nat (length options)) && (Z.of_nat (length options) <=? 20))
    (ValueError "options must contain between 1 and 20 entries");;
  validate_options [] options.

(** [create_decision]. *)
Definition insert_decision (id : string) (r : decision_row) : Store unit :=
  fits ← query (λ d, bool_decide (decisions d !! id = None)
    && bool_decide (is_Some (runs d !! de_run_id r))
    && bool_decide (is_Some (attempts d !! de_attempt_id r)));
  ensure fits IntegrityError;;
  execute (set_decisions (<[id := r]>)).
Definition create_decision_body (run_id : string) (s : sender) (kind prompt : string)
    (options : list json) (decision_ref : option string) (decision_revision : option Z)
    (expected_revision : Z) (c : cause) : Store (json * Z * option string) :=
  '(r, _, state) ← sent_by run_id s expected_revision c;
  ensure (String.eqb state "running") (InvalidTransition state "waiting_for_decision");;
  t ← now; id ← new_id "decision";
  insert_decision id (DecisionRow run_id (se_attempt s) kind prompt (json_text (JArr options))
    decision_pending None 0 t None decision_ref decision_revision);;
  update_run run_id expected_revision "waiting_for_decision" t;;
  update_attempt_state (se_attempt s) "waiting_for_decision";;
  insert_event run_id (Some (se_attempt s)) "decision.required"
    (JObj [("decision_id", JStr id); ("kind", JStr kind); ("prompt", JStr prompt);
           ("options", JArr options)]) (ca_event_id c);;
  '(_, v) ← decision id; mret (v, 201, Some (se_attempt s)).
Definition create_decision (run_id : string) (s : sender) (kind prompt : string)
    (options : list (list (string * json))) (decision_ref : option string)
    (decision_revision : option Z) (expected_revision : Z) (actor_id key : string) (c : cause) :
    Store command_result :=
  kind ← required_text kind "kind" 100;
  prompt ← public_text prompt "prompt" 20000;
  options ← validate_decision_options options;
  decision_ref ← (match decision_ref with
                  | Some x => x ← required_text x "runtime_decision_ref" 500; mret (Some x)
                  | None => mret None
                  end);
  ensure (match decision_revision with Some n => 0 <=? n | None => true end)
    (ValueError "runtime_decision_revision is invalid");;
  event_command actor_id ("POST:/internal/v1/runs/" +:+ run_id +:+ "/decisions") key
    ([("expected_revision", JInt expected_revision)] ++ sender_fields s
     ++ [("runtime_decision_ref", opt_json decision_ref);
         ("runtime_decision_revision", opt_int decision_revision); ("kind", JStr kind);
         ("prompt", JStr prompt); ("options", JArr options)] ++ cause_fields c)
    (Some (se_attempt s)) c
    (create_decision_body run_id s kind prompt options decision_ref decision_revision
      expected_revision c).

(** [resolve_decision]. *)
Definition resolution_json (choice actor_id : string) : json :=
  JObj [("choice", JStr choice); ("actor_id", JStr actor_id)].
(** [UPDATE decisions SET state = 'resolved' ... AND revision = ? AND state = 'pending']. *)
Definition resolve_row (id resolution : string) (expected_revision : Z) (t : string) : Store Z :=
  row ← query (λ d, decisions d !! id);
  match row with
  | Some r =>
      if (de_revision r =? expected_revision) && bool_decide (de_state r = decision_pending)
      then execute (set_decisions (<[id := de_resolve resolution t r]>));; mret 1 else mret 0
  | None => mret 0
  end.
(** [UPDATE runs SET state = 'resuming' ...]; the workflow branch does not compare
    the revision. *)
Definition resume_rows (run_id attempt_id t : string) (guard : run_row → bool) : Store unit :=
  execute (set_runs (alter (λ r, if guard r then ru_touch "resuming" t r else r) run_id));;
  update_attempt_state attempt_id "resuming".
Definition decision_refs_of (id : string) (d : db) : list (string * decision_ref_row) :=
  List.filter (λ x : string * decision_ref_row, String.eqb (dr_decision_id x.2) id)
    (map_to_list (workflow_decision_refs d)).
Definition stage_of (workflow_id stage_key : string) (d : db) : list (string * stage_row) :=
  List.filter (λ x : string * stage_row, String.eqb (st_workflow_id x.2) workflow_id
    && String.eqb (st_stage_key x.2) stage_key) (map_to_list (workflow_stage_instances d)).
Definition resolve_workflow_decision (id : string) (r : decision_row) (v : json) (choice actor_id : string)
    (expected_revision : Z) (ref_id : string) (ref : decision_ref_row) : Store (json * Z) :=
  ensure (bool_decide (dr_resolved ref = None)) (RevisionConflict v);;
  (match de_state r with
   | decision_resolved =>
       ensure (match jget "choice" (field "resolution" v) with
               | Some (JStr s) => String.eqb s choice | _ => false end) (RevisionConflict v)
   | decision_pending => mret tt
   | decision_expired => raise (RevisionConflict v)
   end);;
  wf ← query (λ d, workflow_instances d !! dr_workflow_id ref);
  from_option wf (NotFound "workflow" (dr_workflow_id ref));;
  keyed ← query (λ d, workflow_stage_instances d !! dr_stage_id ref);
  k ← from_option keyed (RuntimeError "'NoneType' object is not subscriptable");
  stages ← query (stage_of (dr_workflow_id ref) (st_stage_key k));
  '(stage_id, stage) ← from_option (head stages) (NotFound "workflow stage" (st_stage_key k));
  '(run_, _) ← run (de_run_id r);
  ensure (String.eqb (ru_state run_) "waiting_for_decision")
    (InvalidTransition (ru_state run_) "resuming");;
  ensure (bool_decide (st_state stage = stage_waiting))
    (InvalidTransition (stage_state_text (st_state stage)) "active");;
  t ← now;
  revision ← (if bool_decide (de_state r = decision_pending) then
      n ← resolve_row id (json_text (resolution_json choice actor_id)) expected_revision t;
      (if n =? 1 then mret (expected_revision + 1)
       else '(_, current) ← decision id; raise (RevisionConflict current))
    else mret expected_revision);
  execute (set_decision_refs (alter (λ x,
    if bool_decide (dr_resolved x = None) then dr_resolve revision choice t x else x) ref_id));;
  execute (set_stages (alter (λ x,
    if bool_decide (st_state x = stage_waiting) then st_activate x else x) stage_id));;
  execute (set_workflows (alter (wf_run_on t) (dr_workflow_id ref)));;
  resume_rows (de_run_id r) (de_attempt_id r) t (λ _, true);;
  insert_event (de_run_id r) (Some (de_attempt_id r)) "decision.resolved"
    (JObj [("decision_id", JStr id); ("choice", JStr choice)]) None;;
  '(_, v) ← decision id; mret (v, 200).
Definition resolve_runtime_decision (id : string) (r : decision_row) (choice actor_id : string)
    (expected_revision : Z) : Store (json * Z) :=
  '(run_, _) ← run (de_run_id r);
  ensure (String.eqb (ru_state run_) "waiting_for_decision")
    (InvalidTransition (ru_state run_) "resuming");;
  t ← now;
  a ← attempt (de_attempt_id r);
  ensure (has_text (at_runtime_binding_id a) && has_text (at_runtime_release_id a))
    (InvalidTransition "runtime_not_bound" "decision_resolved");;
  resolve_row id (json_text (resolution_json choice actor_id)) expected_revision t;;
  resume_rows (de_run_id r) (de_attempt_id r) t (λ x, ru_revision x =? ru_revision run_);;
  action ← insert_runtime_action (de_run_id r) (de_attempt_id r)
    (default "" (at_runtime_binding_id a)) (default "" (at_runtime_release_id a))
    "decision.resolve"
    (JObj [("decision_id", JStr id); ("runtime_decision_ref", opt_json (de_runtime_decision_ref r));
           ("runtime_decision_revision", opt_int (de_runtime_decision_revision r));
           ("choice", JStr choice)]) t;
  insert_event (de_run_id r) (Some (de_attempt_id r)) "decision.resolved"
    (JObj [("decision_id", JStr id); ("choice", JStr choice); ("runtime_action_id", JStr action)])
    None;;
  '(_, v) ← decision id; mret (jset "runtime_action_id" (JStr action) v, 200).
Definition resolve_decision_body (id choice actor_id : string) (expected_revision : Z) :
    Store (json * Z) :=
  '(r, v) ← decision id;
  expect_revision v (de_revision r) expected_revision;;
  refs ← query (decision_refs_of id);
  ensure (negb (bool_decide (head refs = None)) || bool_decide (de_state r = decision_pending))
    (RevisionConflict v);;
  asked ← query (λ d, existsb (λ x : string * intent_row,
    bool_decide (si_decision_id x.2 = Some id)) (map_to_list (source_intents d)));
  ensure (negb asked) (InvalidTransition "source_decision_requires_source_resolver" "resolved");;
  ensure (in_texts choice (option_ids (field "options" v)))
    (ValueError "choice is not one of the decision options");;
  match head refs with
  | Some (ref_id, ref) => resolve_workflow_decision id r v choice actor_id expected_revision ref_id ref
  | None =>
      ensure (bool_decide (de_state r = decision_pending)) (RevisionConflict v);;
      resolve_runtime_decision id r choice actor_id expected_revision
  end.
Definition resolve_decision (id choice : string) (expected_revision : Z) (actor_id key : string) :
    Store command_result :=
  choice ← required_text choice "choice" 500;
  command actor_id ("POST:/api/v1/decisions/" +:+ id +:+ "/resolve") key
    (JObj [("choice", JStr choice); ("expected_revision", JInt expected_revision)])
    (resolve_decision_body id choice actor_id expected_revision).
End Decisions.
