(* ===== verification/Recoveries.v ===== *)
(** * Runtime recoveries

    The commands of [control/store.py] over [runtime_recovery_commands]: after a
    restart, what is to be done about a run whose runtime may be gone is recorded
    before anything is inspected, claimed by one worker under a lease, and closed
    with an outcome. *)

From S2P Require Import Prelude PyText Clock Json Schema Store Runs RuntimeActions RuntimeEvents Decisions.
Open Scope Z_scope.

Definition recovery_json (id : string) (r : recovery_row) (result : json) : json := JObj
  [("id", JStr id); ("run_id", JStr (rr_run_id r)); ("attempt_id", JStr (rr_attempt_id r));
   ("runtime_binding_id", opt_json (rr_runtime_binding_id r));
   ("runtime_release_id", opt_json (rr_runtime_release_id r));
   ("state_generation_id", opt_json (rr_state_generation_id r)); ("kind", JStr (rr_kind r));
   ("state", JStr (recovery_state_text (rr_state r)));
   ("claim_owner", opt_json (cl_owner (rr_claim r))); ("claim_epoch", JInt (cl_epoch (rr_claim r)));
   ("claim_expires_at", opt_json (cl_expires_at (rr_claim r)));
   ("created_at", JStr (rr_created_at r)); ("completed_at", opt_json (rr_completed_at r));
   ("runtime_slot_id", opt_json (rr_runtime_slot_id r));
   ("runtime_artifact_digest", opt_json (rr_runtime_artifact_digest r));
   ("runtime_worker_protocol", opt_json (rr_runtime_worker_protocol r));
   ("runtime_identity_version", JInt (rr_runtime_identity_version r)); ("result", result)].

(** [_RECOVERY_OUTCOMES], and the state an outcome leaves the command in. *)
Definition RECOVERY_OUTCOMES : list string :=
  ["recovered"; "dispatchable"; "inactive"; "retryable_failed"; "manual_required"].
Definition recovery_target (outcome : string) : recovery_state :=
  if String.eqb outcome "manual_required" then recovery_manual_required
  else if String.eqb outcome "retryable_failed" then recovery_failed else recovery_completed.

(** Changed columns. *)
Definition rr_lease (worker expires : string) (r : recovery_row) : recovery_row :=
  RecoveryRow (rr_run_id r) (rr_attempt_id r) (rr_runtime_binding_id r)
    (rr_runtime_release_id r) (rr_state_generation_id r) (rr_kind r) (rr_created_at r)
    (rr_runtime_slot_id r) (rr_runtime_artifact_digest r) (rr_runtime_worker_protocol r)
    (rr_runtime_identity_version r) (rr_state r) (take_claim worker expires (rr_claim r))
    (rr_result_json r) (rr_completed_at r).
Definition rr_close (state : recovery_state) (result t : string) (r : recovery_row) : recovery_row :=
  RecoveryRow (rr_run_id r) (rr_attempt_id r) (rr_runtime_binding_id r)
    (rr_runtime_release_id r) (rr_state_generation_id r) (rr_kind r) (rr_created_at r)
    (rr_runtime_slot_id r) (rr_runtime_artifact_digest r) (rr_runtime_worker_protocol r)
    (rr_runtime_identity_version r) state (drop_claim (rr_claim r)) (Some result) (Some t).

(** What is known of the runtime of an attempt. *)
Definition identity_columns (a : attempt_row) : list (option string) :=
  [at_runtime_release_id a; at_state_generation_id a; at_runtime_slot_id a;
   at_runtime_artifact_digest a; at_runtime_worker_protocol a].
Definition identity_complete (a : attempt_row) : bool :=
  (at_runtime_identity_version a =? 1) && forallb has_text (identity_columns a).
Definition has_partial_identity (a : attempt_row) : bool :=
  existsb (λ o : option string, bool_decide (is_Some o)) (identity_columns a).
Definition recovery_plan (a : attempt_row) : string * recovery_state :=
  if bool_decide (is_Some (at_runtime_binding_id a)) && negb (identity_complete a)
  then ("manual_recovery", recovery_manual_required)
  else if bool_decide (is_Some (at_runtime_binding_id a)) then ("inspect_runtime", recovery_pending)
  else if identity_complete a then ("resume_dispatch", recovery_pending)
  else if has_partial_identity a then ("manual_recovery", recovery_manual_required)
  else ("dispatch", recovery_pending).

(** [ORDER BY created_at, id]. *)
Definition recovery_le (a b : string * recovery_row) : bool :=
  pair_le (rr_created_at a.2, a.1) (rr_created_at b.2, b.1).
Definition recoveries_where (p : recovery_row → bool) (d : db) : list (string * recovery_row) :=
  isort recovery_le (List.filter (λ x : string * recovery_row, p x.2)
    (map_to_list (runtime_recovery_commands d))).
Definition is_open_recovery (s : recovery_state) : bool := bool_decide (s = recovery_pending).
(** The commands that stand for an attempt, the newest last. *)
Definition standing_for (attempt_id : string) (r : recovery_row) : bool :=
  String.eqb (rr_attempt_id r) attempt_id
  && (is_open_recovery (rr_state r) || bool_decide (rr_state r = recovery_manual_required)).
(** The partial unique index [runtime_recovery_one_open_attempt_idx]. *)
Definition recovery_open_for (attempt_id : string) (d : db) : bool :=
  existsb (λ x : string * recovery_row, String.eqb (rr_attempt_id x.2) attempt_id
    && is_open_recovery (rr_state x.2)) (map_to_list (runtime_recovery_commands d)).
Definition recovery_path (id action : string) : string :=
  "POST:/internal/v1/recoveries/" +:+ id +:+ "/" +:+ action.

Section Recoveries.
Context `{Env}.

(** [_recovery_command]. *)
Definition recovery_command (id : string) : Store (recovery_row * json) :=
  row ← query (λ d, runtime_recovery_commands d !! id);
  r ← from_option row (NotFound "runtime recovery command" id);
  result ← (if has_text (rr_result_json r) then json_loads (default "" (rr_result_json r))
            else mret JNull);
  mret (r, recovery_json id r result).

(** [schedule_runtime_recovery]. *)
Definition insert_recovery (id : string) (r : recovery_row) : Store unit :=
  fits ← query (λ d, bool_decide (runtime_recovery_commands d !! id = None)
    && bool_decide (is_Some (runs d !! rr_run_id r))
    && bool_decide (is_Some (attempts d !! rr_attempt_id r))
    && match rr_runtime_binding_id r with
       | Some b => bool_decide (is_Some (runtime_bindings d !! b)) | None => true
       end
    && negb (is_open_recovery (rr_state r) && recovery_open_for (rr_attempt_id r) d));
  ensure fits IntegrityError;;
  execute (set_recoveries (<[id := r]>)).
Definition schedule_body (run_id attempt_id : string) (expected_revision : Z) : Store (json * Z) :=
  r ← run_at run_id expected_revision;
  ensure (negb (is_terminal (ru_state r)) && negb (String.eqb (ru_state r) "paused"))
    (InvalidTransition (ru_state r) "recovery_queued");;
  ensure (bool_decide (ru_active_attempt_id r = Some attempt_id))
    (InvalidTransition "attempt_mismatch" "recovery_queued");;
  a ← attempt attempt_id;
  existing ← query (λ d, last (recoveries_where (standing_for attempt_id) d));
  match existing with
  | Some (id, _) => '(_, v) ← recovery_command id; mret (v, 200)
  | None =>
      let '(kind, state) := recovery_plan a in
      let manual := bool_decide (state = recovery_manual_required) in
      t ← now; id ← new_id "recovery";
      insert_recovery id (RecoveryRow run_id attempt_id (at_runtime_binding_id a)
        (at_runtime_release_id a) (at_state_generation_id a) kind t (at_runtime_slot_id a)
        (at_runtime_artifact_digest a) (at_runtime_worker_protocol a)
        (if identity_complete a then 1 else 0) state (Claim None None 0) None
        (if manual then Some t else None));;
      update_run run_id expected_revision (ru_state r) t;;
      insert_event run_id (Some attempt_id)
        (if manual then "runtime.recovery.manual_required" else "runtime.recovery.queued")
        (JObj [("recovery_command_id", JStr id); ("kind", JStr kind);
               ("state", JStr (recovery_state_text state))]) None;;
      '(_, v) ← recovery_command id; mret (v, 201)
  end.
Definition schedule_runtime_recovery (run_id attempt_id : string) (expected_revision : Z)
    (actor_id key : string) : Store command_result :=
  command actor_id ("POST:/internal/v1/runs/" +:+ run_id +:+ "/schedule-recovery") key
    (JObj [("attempt_id", JStr attempt_id); ("expected_revision", JInt expected_revision)])
    (schedule_body run_id attempt_id expected_revision).

(** [list_pending_runtime_recoveries]. *)
Definition recovery_due (t : string) (r : recovery_row) : bool :=
  is_open_recovery (rr_state r) && claim_free t (rr_claim r).
Definition list_pending_runtime_recoveries (limit : Z) : Store (list json) :=
  ensure ((1 <=? limit) && (limit <=? 1000)) (ValueError "limit must be between 1 and 1000");;
  t ← now;
  rows ← query (recoveries_where (recovery_due t));
  map_m (λ x : string * recovery_row, '(_, v) ← recovery_command x.1; mret v)
    (take (Z.to_nat limit) rows).

(** An UPDATE of one row; the result is [cursor.rowcount]. *)
Definition update_recovery (id : string) (where_ : recovery_row → bool)
    (f : recovery_row → recovery_row) : Store Z :=
  row ← query (λ d, runtime_recovery_commands d !! id);
  match row with
  | Some r => if where_ r then execute (set_recoveries (<[id := f r]>));; mret 1 else mret 0
  | None => mret 0
  end.

(** [claim_runtime_recovery]. *)
Definition claim_recovery_body (id worker : string) (lease_seconds : Z) : Store json :=
  '(r, _) ← recovery_command id;
  ensure (is_open_recovery (rr_state r))
    (InvalidTransition (recovery_state_text (rr_state r)) "claimed");;
  current ← utc_now;
  expires ← format_after current lease_seconds;
  n ← update_recovery id (recovery_due (format_time current)) (rr_lease worker expires);
  ensure (n =? 1) (InvalidTransition "already_claimed" "claimed");;
  '(_, v) ← recovery_command id; mret v.
Definition claim_runtime_recovery (id worker_id : string) (lease_seconds : Z)
    (actor_id key : string) : Store command_result :=
  worker ← required_text worker_id "worker_id" 200;
  check_lease lease_seconds;;
  claim_command actor_id (recovery_path id "claim") key (lease_request worker lease_seconds)
    (λ replay, '(current, _) ← recovery_command id;
       if is_open_recovery (rr_state current)
       then claim_fence_is_current (rr_claim current) worker (json_epoch (cr_value replay))
       else mret false)
    "claimed" (claim_recovery_body id worker lease_seconds).

(** [_validate_recovery_details]: [details] is the list of its items. *)
Definition RECOVERY_DETAIL_FIELDS : list string := ["category"; "status"; "retryable"; "message"].
Definition private_detail (details : list (string * json)) : bool :=
  existsb (λ kv, in_texts (lower kv.1) SENSITIVE_DTO_FIELDS
                 || negb (in_texts kv.1 RECOVERY_DETAIL_FIELDS)) details.
Definition detail_text (details : list (string * json)) (name : string) (maximum : Z) :
    Store (list (string * json)) :=
  match assoc name details with
  | Some v => s ← public_field (Some v) name maximum; mret [(name, JStr s)]
  | None => mret []
  end.
Definition validate_recovery_details (details : list (string * json)) : Store (list (string * json)) :=
  ensure (negb (private_detail details)) (ValueError "recovery details contain private fields");;
  category ← detail_text details "category" 200;
  status ← detail_text details "status" 200;
  message ← detail_text details "message" 2000;
  retryable ← (match assoc "retryable" details with
               | Some (JBool b) => mret [("retryable", JBool b)]
               | Some _ => raise (ValueError "retryable must be a boolean")
               | None => mret []
               end);
  mret (category ++ status ++ message ++ retryable).

(** [record_runtime_recovery_outcome]. *)
Definition recovery_outcome_body (id owner : string) (epoch : Z) (outcome : string)
    (expected_revision : Z) (result : list (string * json)) : Store (json * Z) :=
  '(r, _) ← recovery_command id;
  held ← (if is_open_recovery (rr_state r)
          then claim_fence_is_current (rr_claim r) owner (Some epoch) else mret false);
  ensure held (fence_mismatch outcome);;
  rn ← run_at (rr_run_id r) expected_revision;
  t ← now;
  n ← update_recovery id (λ x, is_open_recovery (rr_state x) && claim_is owner epoch (rr_claim x))
    (rr_close (recovery_target outcome) (json_text (JObj result)) t);
  ensure (n =? 1) (fence_mismatch outcome);;
  update_run (rr_run_id r) expected_revision (ru_state rn) t;;
  insert_event (rr_run_id r) (Some (rr_attempt_id r)) ("runtime.recovery." +:+ outcome)
    (JObj ([("recovery_command_id", JStr id); ("outcome", JStr outcome)] ++ result)) None;;
  '(_, v) ← recovery_command id; mret (v, 200).
Definition record_runtime_recovery_outcome (id claim_owner : string) (claim_epoch : Z)
    (outcome : string) (expected_revision : Z) (details : list (string * json))
    (actor_id key : string) : Store command_result :=
  owner ← required_text claim_owner "claim_owner" 200;
  check_epoch claim_epoch;;
  ensure (in_texts outcome RECOVERY_OUTCOMES) (ValueError "recovery outcome is invalid");;
  result ← validate_recovery_details details;
  command actor_id (recovery_path id "outcome") key
    (JObj [("claim_owner", JStr owner); ("claim_epoch", JInt claim_epoch);
           ("outcome", JStr outcome); ("expected_revision", JInt expected_revision);
           ("details", JObj result)])
    (recovery_outcome_body id owner claim_epoch outcome expected_revision result).
End Recoveries.
