(* ===== verification/RunRestart.v ===== *)
(** * Ending and restarting attempts

    [fail_unbound_run], [resume_run] and [retry_run] of [control/store.py]: an
    attempt that no runtime took is given up, a paused or failed run gets its next
    attempt. *)

From S2P Require Import Prelude PyText Clock Json Schema Store Threads Runs RuntimeActions PinReleases RunClosing Dispatch RuntimeEvents.
Open Scope Z_scope.

(** Changed columns. *)
Definition ru_switch (state attempt_id t : string) (r : run_row) : run_row :=
  RunRow (ru_thread_id r) state (Some attempt_id) (ru_stage r) (ru_latest_sequence r)
    (ru_revision r + 1) (ru_created_at r) t.
Definition at_give_up (t : string) (r : attempt_row) : attempt_row :=
  AttemptRow (at_run_id r) (at_number r) "failed" (at_runtime_binding_id r)
    (at_runtime_release_id r) (at_checkpoint_uri r) (at_source_attempt_id r)
    (at_source_checkpoint_uri r) (at_started_at r) (Some t) (at_state_generation_id r) None None
    (at_runtime_identity_version r) (at_runtime_slot_id r) (at_runtime_artifact_digest r)
    (at_runtime_worker_protocol r).
Definition th_pause (t : string) (r : thread_row) : thread_row :=
  ThreadRow (th_workspace_id r) (th_title r) "paused" (th_active_run_id r) (th_revision r + 1)
    (th_created_at r) t (th_archived_at r).

Section RunRestart.
Context `{Env}.

(** [UPDATE runs SET state = ?, active_attempt_id = ?, ... WHERE id = ? AND
    revision = ?], under [runs_one_active_per_thread_idx]. *)
Definition switch_run (run_id : string) (expected_revision : Z) (state attempt_id t : string) :
    Store unit :=
  clash ← query (λ d, match runs d !! run_id with
    | Some r => run_open state && thread_taken (ru_thread_id r) run_id d | None => false end);
  ensure (negb clash) IntegrityError;;
  execute (set_runs (alter (λ r,
    if ru_revision r =? expected_revision then ru_switch state attempt_id t r else r) run_id)).

(** [fail_unbound_run]. *)
Definition fail_unbound_body (run_id attempt_id : string) (expected_revision : Z)
    (category : string) (dispatch_owner : option string) (retryable : bool) : Store (json * Z) :=
  r ← run_at run_id expected_revision;
  ensure (bool_decide (ru_active_attempt_id r = Some attempt_id))
    (InvalidTransition "attempt_mismatch" "failed");;
  a ← attempt attempt_id;
  ensure (bool_decide (at_runtime_binding_id a = None))
    (InvalidTransition "runtime_already_bound" "failed");;
  (match dispatch_owner with
   | Some o =>
       owner ← required_text o "dispatch_owner" 200;
       ensure (bool_decide (at_dispatch_owner a = Some owner))
         (InvalidTransition "dispatch_owner_mismatch" "failed")
   | None => mret tt
   end);;
  ensure (in_texts (ru_state r) ["queued"; "retrying"; "resuming"; "cancel_requested"])
    (InvalidTransition (ru_state r) "failed");;
  t ← now;
  source ← paused_source_attempt a;
  let target :=
    if String.eqb (ru_state r) "cancel_requested" then "canceled"
    else match source with Some _ => "paused" | None => "failed" end in
  let ends := is_terminal target in
  let kept := match source with
              | Some (id, _) => if String.eqb target "paused" then id else attempt_id
              | None => attempt_id
              end in
  lost ← (if ends then fail_pending_runtime_actions run_id attempt_id t else mret []);
  closed ← (if ends then close_source_work_for_run run_id t else mret (JObj []));
  (if String.eqb target "paused"
   then fence_artifact_materializations_for_attempt run_id attempt_id t else mret []);;
  switch_run run_id expected_revision target kept t;;
  execute (set_attempts (alter (at_give_up t) attempt_id));;
  (if ends then end_thread (ru_thread_id r) run_id target t
   else execute (set_threads (alter (λ th,
     if bool_decide (th_active_run_id th = Some run_id) then th_pause t th else th)
     (ru_thread_id r))));;
  pin ← (if bool_decide (is_Some (at_runtime_release_id a))
            && bool_decide (is_Some (at_state_generation_id a))
         then id ← insert_pin_release run_id attempt_id a t; mret (Some id) else mret None);
  sources ← (if String.eqb target "canceled" then insert_paused_source_releases run_id a t
             else mret []);
  insert_event run_id (Some attempt_id) ("run." +:+ target)
    (JObj ([("from", JStr (ru_state r)); ("state", JStr target); ("category", JStr category);
            ("retryable", JBool (retryable && negb (String.eqb target "canceled")));
            ("pin_release_action_id", opt_json pin)]
           ++ texts_field "source_pin_release_action_ids" sources
           ++ texts_field "failed_runtime_action_ids" lost ++ work_field closed)) None;;
  '(_, v) ← run run_id; mret (v, 200).
Definition fail_unbound_run (run_id attempt_id : string) (expected_revision : Z)
    (category : string) (dispatch_owner : option string) (retryable : bool) (actor_id key : string) :
    Store command_result :=
  category ← required_text category "category" 100;
  command actor_id ("POST:/internal/v1/runs/" +:+ run_id +:+ "/fail-unbound") key
    (JObj ([("attempt_id", JStr attempt_id); ("expected_revision", JInt expected_revision);
            ("category", JStr category); ("dispatch_owner", opt_json dispatch_owner)]
           ++ (if retryable then [] else [("retryable", JBool false)])))
    (fail_unbound_body run_id attempt_id expected_revision category dispatch_owner retryable).

(** [_restart_attempt]. *)
Definition attempt_numbers (run_id : string) (d : db) : list Z :=
  map (λ x : string * attempt_row, at_number x.2)
    (List.filter (λ x : string * attempt_row, String.eqb (at_run_id x.2) run_id)
      (map_to_list (attempts d))).
Definition next_attempt_number (run_id : string) (d : db) : Z :=
  foldr Z.max 0 (attempt_numbers run_id d) + 1.
Definition restart_body (run_id : string) (expected_revision : Z) (source_state target : string)
    (reason : option string) : Store (json * Z) :=
  r ← run_at run_id expected_revision;
  ensure (String.eqb (ru_state r) source_state) (InvalidTransition (ru_state r) target);;
  '(th, _) ← thread (ru_thread_id r);
  ensure (match th_active_run_id th with Some a => String.eqb a run_id | None => true end)
    (InvalidTransition "another_run_active" target);;
  previous_id ← mret (default "None" (ru_active_attempt_id r));
  previous ← attempt previous_id;
  ensure (negb (String.eqb source_state "paused") || has_text (at_checkpoint_uri previous))
    (InvalidTransition "checkpoint_missing" target);;
  let checkpoint := if has_text (at_checkpoint_uri previous) then at_checkpoint_uri previous
                    else at_source_checkpoint_uri previous in
  number ← query (next_attempt_number run_id);
  attempt_id ← new_id "attempt"; t ← now;
  lost ← fail_pending_runtime_actions run_id previous_id t;
  fence_artifact_materializations_for_attempt run_id previous_id t;;
  insert_attempt attempt_id (new_attempt run_id target number (Some previous_id) checkpoint);;
  switch_run run_id expected_revision target attempt_id t;;
  execute (set_threads (alter (th_start run_id t) (ru_thread_id r)));;
  insert_event run_id (Some attempt_id) ("run." +:+ target)
    (JObj [("from", JStr source_state); ("state", JStr target);
           ("source_attempt_id", JStr previous_id);
           ("source_checkpoint_uri", opt_json checkpoint); ("reason", opt_json reason);
           ("failed_runtime_action_ids", texts_json lost)]) None;;
  v ← run_and_attempt run_id attempt_id; mret (v, 200).
Definition restart_attempt (run_id : string) (expected_revision : Z) (source_state target : string)
    (operation : string) (reason : option string) (actor_id key : string) : Store command_result :=
  command actor_id operation key
    (JObj [("expected_revision", JInt expected_revision); ("reason", opt_json reason)])
    (restart_body run_id expected_revision source_state target reason).
Definition resume_run (run_id : string) (expected_revision : Z) (actor_id key : string) :
    Store command_result :=
  restart_attempt run_id expected_revision "paused" "resuming"
    ("POST:/api/v1/runs/" +:+ run_id +:+ "/resume") None actor_id key.
Definition retry_run (run_id : string) (expected_revision : Z) (reason actor_id key : string) :
    Store command_result :=
  reason ← required_text reason "reason" 2000;
  restart_attempt run_id expected_revision "failed" "retrying"
    ("POST:/api/v1/runs/" +:+ run_id +:+ "/retry") (Some reason) actor_id key.
End RunRestart.
