(* ===== verification/RunLife.v ===== *)
(** * The abstract life of runs

    What the run commands may do to the runs of a store, seen as four maps: the
    run each thread points at, the thread, state and active attempt of each run,
    whether a runtime took each attempt, and the deliveries.  [life_step] is the
    machine, [life_inv] its invariant. *)

From S2P Require Import Prelude Schema Store Runs RuntimeActions RunClosing RuntimeEvents ClosingFacts.

Record run_life := RunLife { rl_thread : string; rl_state : string; rl_active : option string }.
Record life := Life {
  lf_threads : gmap string (option string);
  lf_runs : gmap string run_life;
  lf_bound : gmap string bool;
  lf_actions : gmap string action_row }.
Definition on_threads (f : gmap string (option string) → gmap string (option string)) (l : life) : life :=
  Life (f (lf_threads l)) (lf_runs l) (lf_bound l) (lf_actions l).
Definition on_runs (f : gmap string run_life → gmap string run_life) (l : life) : life :=
  Life (lf_threads l) (f (lf_runs l)) (lf_bound l) (lf_actions l).
Definition on_bound (f : gmap string bool → gmap string bool) (l : life) : life :=
  Life (lf_threads l) (lf_runs l) (f (lf_bound l)) (lf_actions l).
Definition on_actions (f : gmap string action_row → gmap string action_row) (l : life) : life :=
  Life (lf_threads l) (lf_runs l) (lf_bound l) (f (lf_actions l)).

(** Completed and canceled runs are over; a failed one may be retried. *)
Definition is_final (state : string) : bool := in_texts state ["completed"; "canceled"].
(** The moves that keep the attempt: an edge of the table, a pause that the
    runtime refused, or a delivery that failed. *)
Definition run_moves (s s' : string) : Prop :=
  s' ∈ RUN_TRANSITIONS s ∨ (s = "pause_requested" ∧ s' = "running")
  ∨ (s' = "failed" ∧ is_final s = false).
(** The restarts. *)
Definition restarts (s s' : string) : Prop :=
  (s = "paused" ∧ s' = "resuming") ∨ (s = "failed" ∧ s' = "retrying").

(** A delivery somebody took or that must be looked into. *)
Definition taken (a : action_row) : Prop :=
  is_Some (cl_owner (ra_claim a)) ∨ ra_outcome_state a ≠ ready.
(** The run waits on the attempt of a delivery, and is not over. *)
Definition current (l : life) (a : action_row) : Prop :=
  ∃ r, lf_runs l !! ra_run_id a = Some r ∧ rl_active r = Some (ra_attempt_id a) ∧
    is_final (rl_state r) = false.
Definition known_kind (kind : string) : Prop := is_Some (delivery_state kind).
(** No delivery of a run's attempt is open. *)
Definition nothing_pending (run_id : string) (att : option string) (l : life) : Prop :=
  ∀ i a, lf_actions l !! i = Some a → ra_run_id a = run_id → Some (ra_attempt_id a) = att →
    ra_state a ≠ act_pending.
(** A delivery keeps what it is about; it is taken only while its run waits. *)
Definition action_moved (l : life) (a a' : action_row) : Prop :=
  ra_run_id a' = ra_run_id a ∧ ra_attempt_id a' = ra_attempt_id a ∧ ra_kind a' = ra_kind a ∧
  (ra_state a' = act_pending → ra_state a = act_pending ∧ (taken a' → taken a ∨ current l a)).

Inductive life_step (l : life) : life → Prop :=
| ls_thread id :
    lf_threads l !! id = None → life_step l (on_threads <[id := None]> l)
| ls_open thread_id run_id att p :
    lf_threads l !! thread_id = Some p →
    (∀ i r, p = Some i → lf_runs l !! i = Some r → is_terminal (rl_state r) = true) →
    lf_runs l !! run_id = None → lf_bound l !! att = None → att ≠ "" →
    life_step l (on_threads <[thread_id := Some run_id]> (on_bound <[att := false]>
      (on_runs <[run_id := RunLife thread_id "queued" (Some att)]> l)))
| ls_attempt att :
    lf_bound l !! att = None → att ≠ "" → life_step l (on_bound <[att := false]> l)
| ls_bind att :
    lf_bound l !! att = Some false → life_step l (on_bound <[att := true]> l)
| ls_move run_id r state :
    lf_runs l !! run_id = Some r → run_moves (rl_state r) state →
    (is_final state = true → nothing_pending run_id (rl_active r) l) →
    life_step l (on_runs <[run_id := RunLife (rl_thread r) state (rl_active r)]> l)
| ls_free thread_id run_id r :
    lf_threads l !! thread_id = Some (Some run_id) → lf_runs l !! run_id = Some r →
    is_terminal (rl_state r) = true → life_step l (on_threads <[thread_id := None]> l)
| ls_drop run_id att t :
    life_step l (on_actions (update_where (λ _ a, pending_of run_id att a) (ra_terminate t)) l)
| ls_insert id a :
    lf_actions l !! id = None → ra_state a = act_pending → ¬ taken a →
    lf_bound l !! ra_attempt_id a = Some true → known_kind (ra_kind a) →
    life_step l (on_actions <[id := a]> l)
| ls_action id a a' :
    lf_actions l !! id = Some a → action_moved l a a' →
    life_step l (on_actions <[id := a']> l)
| ls_give_up run_id r att source :
    lf_runs l !! run_id = Some r → rl_active r = Some att → lf_bound l !! att = Some false →
    rl_state r ∈ ["queued"; "retrying"; "resuming"] →
    life_step l (on_runs <[run_id := RunLife (rl_thread r) "paused" (Some source)]> l)
| ls_restart run_id r p state att :
    lf_runs l !! run_id = Some r → restarts (rl_state r) state →
    lf_threads l !! rl_thread r = Some p → (p = None ∨ p = Some run_id) →
    nothing_pending run_id (rl_active r) l → lf_bound l !! att = Some false →
    life_step l (on_threads <[rl_thread r := Some run_id]>
      (on_runs <[run_id := RunLife (rl_thread r) state (Some att)]> l)).

(** A run that is not over is the one its thread points at; an open delivery is
    of an attempt that a runtime took, and a taken one is of the attempt its run
    waits on; identifiers are not empty. *)
Record life_inv (l : life) : Prop := {
  li_active : ∀ i r, lf_runs l !! i = Some r → is_terminal (rl_state r) = false →
    lf_threads l !! rl_thread r = Some (Some i);
  li_bound : ∀ i a, lf_actions l !! i = Some a → ra_state a = act_pending →
    lf_bound l !! ra_attempt_id a = Some true ∧ known_kind (ra_kind a);
  li_current : ∀ i a, lf_actions l !! i = Some a → ra_state a = act_pending → taken a →
    current l a;
  li_named : lf_bound l !! "" = None }.

Lemma terminal_states s : is_terminal s = true ↔ s = "completed" ∨ s = "failed" ∨ s = "canceled".
Proof.
  unfold is_terminal. rewrite in_texts_spec. unfold TERMINAL_RUN_STATES.
  rewrite !elem_of_cons, elem_of_nil. naive_solver.
Qed.
Lemma final_states s : is_final s = true ↔ s = "completed" ∨ s = "canceled".
Proof.
  unfold is_final. rewrite in_texts_spec, !elem_of_cons, elem_of_nil. naive_solver.
Qed.
Lemma final_terminal s : is_final s = true → is_terminal s = true.
Proof. rewrite final_states, terminal_states. tauto. Qed.
Lemma terminal_edges s : is_terminal s = true → RUN_TRANSITIONS s = [].
Proof. rewrite terminal_states. by intros [-> | [-> | ->]]. Qed.
Lemma edge_open s s' : s' ∈ RUN_TRANSITIONS s → is_terminal s = false.
Proof.
  intros He. destruct (is_terminal s) eqn:E; [|done]. rewrite terminal_edges in He by done.
  by apply not_elem_of_nil in He.
Qed.
(** No move leaves a state that is over. *)
Lemma run_moves_open s s' : run_moves s s' → is_final s = false.
Proof.
  intros [He%edge_open | [[-> ->] | [_ ?]]]; [|done..].
  destruct (is_final s) eqn:E; [|done]. apply final_terminal in E. congruence.
Qed.
Lemma moves_live s s' : run_moves s s' → is_terminal s' = false → is_terminal s = false.
Proof. intros [He%edge_open | [[-> ->] | [-> _]]]; done. Qed.

(** ** The invariant *)

Definition runs_ok (l : life) : Prop :=
  ∀ i r, lf_runs l !! i = Some r → is_terminal (rl_state r) = false →
    lf_threads l !! rl_thread r = Some (Some i).
(** One run of a thread, at most, is not over. *)
Lemma one_active l i j r s :
  life_inv l → lf_runs l !! i = Some r → lf_runs l !! j = Some s →
  is_terminal (rl_state r) = false → is_terminal (rl_state s) = false →
  rl_thread r = rl_thread s → i = j.
Proof.
  intros Hinv Hr Hs Tr Ts E. pose proof (li_active l Hinv i r Hr Tr) as H1.
  pose proof (li_active l Hinv j s Hs Ts) as H2. rewrite E in H1. congruence.
Qed.

Lemma runs_insert l i r r0 :
  runs_ok l → lf_runs l !! i = Some r0 → rl_thread r = rl_thread r0 →
  (is_terminal (rl_state r) = false → is_terminal (rl_state r0) = false) →
  runs_ok (on_runs <[i := r]> l).
Proof.
  intros Hok Hi Ht Hl j s Hs Hopen. cbn [on_runs lf_runs lf_threads] in *.
  apply lookup_insert_Some in Hs as [[<- <-] | [Hne Hs]]; [|by apply Hok].
  rewrite Ht. apply Hok; auto.
Qed.

Lemma inv_runs l i r r0 :
  life_inv l → lf_runs l !! i = Some r0 → rl_thread r = rl_thread r0 →
  (is_terminal (rl_state r) = false → is_terminal (rl_state r0) = false) →
  (∀ j a, lf_actions l !! j = Some a → ra_state a = act_pending → taken a → ra_run_id a = i →
     rl_active r0 = Some (ra_attempt_id a) →
     rl_active r = rl_active r0 ∧ is_final (rl_state r) = false) →
  life_inv (on_runs <[i := r]> l).
Proof.
  intros [Hok Hb Hc He] Hi Ht Hl Ha. split; [by eapply runs_insert|exact Hb| |exact He].
  intros j a Hj Hp Htk. destruct (Hc j a Hj Hp Htk) as (x & Hx & Hact & Hfin).
  unfold current. cbn [on_runs lf_runs].
  destruct (decide (ra_run_id a = i)) as [E | Hne].
  - rewrite E in Hx. rewrite Hi in Hx. injection Hx as <-. exists r.
    rewrite E, lookup_insert_eq. destruct (Ha j a Hj Hp Htk E Hact) as [-> ?]. done.
  - rewrite lookup_insert_ne by done. by exists x.
Qed.

Lemma inv_actions l i a :
  life_inv l →
  (ra_state a = act_pending → lf_bound l !! ra_attempt_id a = Some true ∧ known_kind (ra_kind a)
     ∧ (taken a → current l a)) →
  life_inv (on_actions <[i := a]> l).
Proof.
  intros [Hok Hb Hc He] Ha. split; [exact Hok| | |exact He]; intros j b Hj Hp.
  - cbn in Hj. apply lookup_insert_Some in Hj as [[<- <-] | [_ Hj]]; [|by apply (Hb j)].
    destruct (Ha Hp) as (? & ? & _). done.
  - cbn in Hj. apply lookup_insert_Some in Hj as [[<- <-] | [_ Hj]]; [|by apply (Hc j)].
    intros. by apply Ha.
Qed.

Lemma inv_moved l i a a' :
  life_inv l → lf_actions l !! i = Some a → action_moved l a a' →
  life_inv (on_actions <[i := a']> l).
Proof.
  intros Hinv Hi (E1 & E2 & E3 & Hp). apply inv_actions; [done|]. intros Hp'.
  destruct (Hp Hp') as [Hpa Ht]. rewrite E2, E3. destruct (li_bound l Hinv i a Hi Hpa) as [? ?].
  split_and!; [done..|]. intros Htk. unfold current. rewrite E1, E2. fold (current l a).
  destruct (Ht Htk) as [Ht' | ?]; [|done]. by apply (li_current l Hinv i).
Qed.

Lemma inv_drop l run_id att t :
  life_inv l →
  life_inv (on_actions (update_where (λ _ a, pending_of run_id att a) (ra_terminate t)) l).
Proof.
  intros [Hok Hb Hc He].
  assert (∀ i a, lf_actions (on_actions (update_where (λ _ a, pending_of run_id att a)
    (ra_terminate t)) l) !! i = Some a → ra_state a = act_pending → lf_actions l !! i = Some a) as Hx.
  { intros i a. cbn [on_actions lf_actions]. rewrite lookup_update_where.
    destruct (lf_actions l !! i) as [b|]; simpl; [|done]. case_match; [|done].
    by intros [= <-]. }
  split; [exact Hok| | |exact He]; intros i a Hi Hp; specialize (Hx i a Hi Hp); [by apply (Hb i)|].
  by apply (Hc i).
Qed.

Lemma inv_open l thread_id run_id att p :
  life_inv l → lf_threads l !! thread_id = Some p →
  (∀ i r, p = Some i → lf_runs l !! i = Some r → is_terminal (rl_state r) = true) →
  lf_runs l !! run_id = None → lf_bound l !! att = None → att ≠ "" →
  life_inv (on_threads <[thread_id := Some run_id]> (on_bound <[att := false]>
      (on_runs <[run_id := RunLife thread_id "queued" (Some att)]> l))).
Proof.
  intros [Hok Hb Hc He] Hth Hterm Hrun Hatt Hne. split; [| | |by cbn; rewrite lookup_insert_ne].
  - intros i r Hi Ho. cbn in *.
    apply lookup_insert_Some in Hi as [[<- <-] | [Hni Hi]]; [by rewrite lookup_insert_eq|].
    specialize (Hok i r Hi Ho). rewrite lookup_insert_ne; [done|]. intros ->.
    rewrite Hth in Hok. injection Hok as ->. by rewrite (Hterm i r) in Ho.
  - intros i a Hi Hp. cbn in *. destruct (Hb i a Hi Hp) as [Hbd ?]. split; [|done].
    rewrite lookup_insert_ne; [done|]. intros ->. congruence.
  - intros i a Hi Hp Ht. destruct (Hc i a Hi Hp Ht) as (r & Hr & ? & ?). exists r. cbn in *.
    rewrite lookup_insert_ne; [done|]. intros ->. congruence.
Qed.

Lemma inv_free l thread_id run_id r :
  life_inv l → lf_threads l !! thread_id = Some (Some run_id) → lf_runs l !! run_id = Some r →
  is_terminal (rl_state r) = true → life_inv (on_threads <[thread_id := None]> l).
Proof.
  intros [Hok Hb Hc He] Hth Hr Ht. split; [|exact Hb|exact Hc|exact He].
  intros i s Hs Ho. cbn in *. specialize (Hok i s Hs Ho).
  rewrite lookup_insert_ne; [done|]. intros E. rewrite <- E, Hth in Hok. simplify_eq.
  congruence.
Qed.

Lemma inv_restart l run_id r p state att :
  life_inv l → lf_runs l !! run_id = Some r → lf_threads l !! rl_thread r = Some p →
  (p = None ∨ p = Some run_id) → nothing_pending run_id (rl_active r) l →
  life_inv (on_threads <[rl_thread r := Some run_id]>
      (on_runs <[run_id := RunLife (rl_thread r) state (Some att)]> l)).
Proof.
  intros [Hok Hb Hc He] Hr Hp Hor Hn. split; [|exact Hb| |exact He].
  - intros i s Hs Ho. cbn in *. apply lookup_insert_Some in Hs as [[<- <-] | [Hne Hs]];
      [by rewrite lookup_insert_eq|].
    specialize (Hok i s Hs Ho). rewrite lookup_insert_ne; [done|]. intros E.
    rewrite <- E, Hp in Hok. naive_solver.
  - intros i a Hi Hpa Ht. destruct (Hc i a Hi Hpa Ht) as (x & Hx & Hact & Hf). exists x. cbn in *.
    rewrite lookup_insert_ne; [done|]. intros E. rewrite <- E, Hr in Hx. simplify_eq.
    by apply (Hn i a Hi).
Qed.

Lemma inv_bound l att b :
  life_inv l → lf_bound l !! att ≠ Some true → att ≠ "" → life_inv (on_bound <[att := b]> l).
Proof.
  intros [Hok Hb Hc He] Hn Hne. split; [exact Hok| |exact Hc|by cbn; rewrite lookup_insert_ne]. intros i a Hi Hp. cbn in *.
  destruct (Hb i a Hi Hp) as [Hbd ?]. split; [|done]. rewrite lookup_insert_ne; [done|].
  intros ->. done.
Qed.

Lemma life_step_inv l l' : life_inv l → life_step l l' → life_inv l'.
Proof.
  intros Hinv Hs. destruct Hs as
    [id Hid|th run_id att p Hth Hterm Hrun Hatt Hne|att Hatt Hne|att Hatt|run_id r state Hr Hm Hf
    |th run_id r Hth Hr Ht|run_id att t|id a Hid Hp Htk Hbd Hk|id a a' Hid Hm
    |run_id r att src Hr Hact Hbd Hst|run_id r p state att Hr Hre Hp Hor Hn Hatt].
  - destruct Hinv as [Hok Hb Hc He]. split; [|exact Hb|exact Hc|exact He]. intros i r Hi Ho. cbn in *.
    specialize (Hok i r Hi Ho). rewrite lookup_insert_ne; [done|]. intros E. congruence.
  - by eapply inv_open.
  - apply inv_bound; [done|congruence|done].
  - apply inv_bound; [done|congruence|]. intros ->. pose proof (li_named l Hinv). congruence.
  - apply (inv_runs _ _ _ r); [done..|by apply moves_live|]. intros j a Hj Hp Ht E Hact. split; [done|].
    cbn. destruct (is_final state) eqn:Ef; [|done]. exfalso.
    by apply (Hf eq_refl j a Hj E (eq_sym Hact)).
  - by eapply inv_free.
  - by apply inv_drop.
  - apply inv_actions; [done|]. intros _. split_and!; done.
  - by eapply inv_moved.
  - apply (inv_runs _ _ _ r); [done..| |].
    + intros _. apply list_elem_of_In in Hst. by destruct Hst as [<- | [<- | [<- | []]]].
    + intros j a Hj Hp Ht E Hact'. exfalso. destruct (li_bound l Hinv j a Hj Hp) as [Hb' _].
      rewrite Hact in Hact'. congruence.
  - by eapply inv_restart.
Qed.
Lemma life_steps_inv l l' : life_inv l → rtc life_step l l' → life_inv l'.
Proof. intros Hinv. induction 1; eauto using life_step_inv. Qed.

(** Completed and canceled runs stay as they are, and a run its thread. *)
Definition ended (i : string) (r : run_life) (l : life) : Prop :=
  lf_runs l !! i = Some r ∧ is_final (rl_state r) = true.
Lemma life_step_ended l l' i r : ended i r l → life_step l l' → ended i r l'.
Proof.
  unfold ended. intros [Hi Hf] Hs. split; [|done].
  destruct Hs as [| | | |run_id s state Hr Hm _| | | | |run_id s att src Hr _ _ Hst
    |run_id s p state att Hr Hre _ _ _ _]; cbn; try done.
  - rewrite lookup_insert_ne; [done|]. congruence.
  - rewrite lookup_insert_ne; [done|]. intros ->. simplify_eq. apply run_moves_open in Hm. congruence.
  - rewrite lookup_insert_ne; [done|]. intros ->. simplify_eq.
    rewrite !elem_of_cons, elem_of_nil in Hst. apply final_states in Hf. naive_solver congruence.
  - rewrite lookup_insert_ne; [done|]. intros ->. simplify_eq.
    apply final_states in Hf. unfold restarts in Hre. naive_solver congruence.
Qed.
Lemma life_steps_ended l l' i r : ended i r l → rtc life_step l l' → ended i r l'.
Proof. intros He. induction 1; eauto using life_step_ended. Qed.
