(* ===== verification/RunCalls.v ===== *)
(** * Following the run commands

    The four tables a run's life is read from, and the rules that follow a
    command statement by statement through them: [leads c m Q] says that from the
    tables [c], an answer [a] of [m] leaves tables [c'] with [Q a c']. *)

From S2P Require Import Prelude PyText Clock Json Schema Store Threads ThreadFacts Runs RuntimeActions PinReleases RuntimeFacts PinFacts RunClosing ClosingFacts Resources Dispatch RuntimeEvents Decisions RunRestart RunLife.
Open Scope Z_scope.

Record core := Core {
  c_threads : gmap string thread_row; c_runs : gmap string run_row;
  c_attempts : gmap string attempt_row; c_actions : gmap string action_row }.
Definition core_of (d : db) : core := Core (threads d) (runs d) (attempts d) (runtime_actions d).
Definition in_threads f (c : core) : core :=
  Core (f (c_threads c)) (c_runs c) (c_attempts c) (c_actions c).
Definition in_runs f (c : core) : core :=
  Core (c_threads c) (f (c_runs c)) (c_attempts c) (c_actions c).
Definition in_attempts f (c : core) : core :=
  Core (c_threads c) (c_runs c) (f (c_attempts c)) (c_actions c).
Definition in_actions f (c : core) : core :=
  Core (c_threads c) (c_runs c) (c_attempts c) (f (c_actions c)).

Definition run_life_of (r : run_row) : run_life :=
  RunLife (ru_thread_id r) (ru_state r) (ru_active_attempt_id r).
Definition bound (a : attempt_row) : bool := bool_decide (is_Some (at_runtime_binding_id a)).
Definition life_of_core (c : core) : life :=
  Life (th_active_run_id <$> c_threads c) (run_life_of <$> c_runs c) (bound <$> c_attempts c)
    (c_actions c).
Definition life_of (d : db) : life := life_of_core (core_of d).

Section Calls.
Context `{Env}.

Definition leads {A} (c : core) (m : Store A) (Q : A → core → Prop) : Prop :=
  ∀ w a w', core_of (w_db w) = c → m w = Ok a w' → Q a (core_of (w_db w')).

Implicit Types c : core.

Lemma leads_bind {A B} c (m : Store A) (f : A → Store B) Q :
  leads c m (λ a c', leads c' (f a) Q) → leads c (m ≫= f) Q.
Proof. intros Hm w b w' Hc (a & w1 & H1 & H2)%bind_ok. by apply (Hm w a w1 Hc H1 w1). Qed.
Lemma leads_ret {A} c (a : A) (Q : A → core → Prop) : Q a c → leads c (mret a) Q.
Proof. intros Hq w b w' <- [<- <-]%ret_ok. done. Qed.
Lemma leads_raise {A} c e (Q : A → core → Prop) : leads c (raise e) Q.
Proof. intros w b w' _ Hr. by apply raise_ok in Hr. Qed.
Lemma leads_ensure c b e (Q : unit → core → Prop) :
  (b = true → Q tt c) → leads c (ensure b e) Q.
Proof. intros Hq w u w' <- (Hb & -> & ->)%ensure_ok. auto. Qed.
Lemma leads_option {A} c (o : option A) e (Q : A → core → Prop) :
  (∀ a, o = Some a → Q a c) → leads c (from_option o e) Q.
Proof. intros Hq w a w' <- (Ha & ->)%from_option_ok. auto. Qed.
Lemma leads_weaken {A} c (m : Store A) (Q Q' : A → core → Prop) :
  leads c m Q → (∀ a c', Q a c' → Q' a c') → leads c m Q'.
Proof. intros Hm Hq w a w' Hc Hw. eauto. Qed.
Lemma leads_keeps {A} c (m : Store A) (Q : A → core → Prop) :
  keeps (λ w, core_of (w_db w)) m → (∀ a, Q a c) → leads c m Q.
Proof. intros Hk Hq w a w' <- Hw. rewrite (keeps_ok _ _ _ _ _ Hk Hw). auto. Qed.
Lemma leads_execute c f (g : core → core) (Q : unit → core → Prop) :
  (∀ d, core_of (f d) = g (core_of d)) → Q tt (g c) → leads c (execute f) Q.
Proof. intros Hf Hq w u w' <- [-> ->]%execute_ok. simpl. by rewrite Hf. Qed.
Lemma leads_transaction {A} c (body : Store A) Q : leads c body Q → leads c (transaction body) Q.
Proof. intros Hb w a w' Hc Hw. rewrite transaction_ok in Hw. exact (Hb w a w' Hc Hw). Qed.
Lemma leads_command c a o k request body Q :
  (∀ r, Q r c) → leads c body (λ _ c', ∀ r, Q r c') → leads c (command a o k request body) Q.
Proof.
  intros Hc Hb w r w' Hw [_ Hx]%command_ok. destruct (idempotency_receipts _ !! _).
  - destruct Hx as (-> & _). rewrite Hw. apply Hc.
  - destruct Hx as (v & code & w1 & H1 & (_ & _ & ->)%save_receipt_ok). by apply (Hb w (v, code) w1 Hw).
Qed.

Lemma leads_new_id c kind (Q : string → core → Prop) :
  (∀ i, i ≠ "" → Q i c) → leads c (new_id kind) Q.
Proof. intros Hq w i w' <- [-> ->]%new_id_ok. apply Hq, id_named. Qed.

(** Reading a row. *)
Lemma leads_query_keeps {A} c (f : db → A) (Q : A → core → Prop) :
  (∀ d, core_of d = c → Q (f d) c) → leads c (query f) Q.
Proof. intros Hq w a w' Hc [-> ->]%query_ok. rewrite Hc. auto. Qed.
Lemma leads_run c id (Q : run_row * json → core → Prop) :
  (∀ r, c_runs c !! id = Some r → Q (r, run_json id r) c) → leads c (run id) Q.
Proof. intros Hq w [r v] w' <- (Hr & -> & ->)%run_ok. auto. Qed.
Lemma leads_run_at c id n (Q : run_row → core → Prop) :
  (∀ r, c_runs c !! id = Some r → ru_revision r = n → Q r c) → leads c (run_at id n) Q.
Proof. intros Hq w r w' <- (Hr & _ & Hn & ->)%run_at_ok. auto. Qed.
Lemma leads_attempt c id (Q : attempt_row → core → Prop) :
  (∀ a, c_attempts c !! id = Some a → Q a c) → leads c (attempt id) Q.
Proof. intros Hq w a w' <- (Ha & ->)%attempt_ok. auto. Qed.
Lemma leads_action c id (Q : action_row * json → core → Prop) :
  (∀ a v, c_actions c !! id = Some a → Q (a, v) c) → leads c (runtime_action id) Q.
Proof. intros Hq w [a v] w' <- Ha. rewrite runtime_action_ok in Ha. destruct Ha as (Ha & -> & _). auto. Qed.
Lemma leads_thread c id (Q : thread_row * json → core → Prop) :
  (∀ r v, c_threads c !! id = Some r → Q (r, v) c) → leads c (thread id) Q.
Proof.
  intros Hq w [r v] w' <- Ha. apply thread_ok in Ha as (-> & Hr & ->). by apply Hq.
Qed.
Lemma leads_revision c v r e (Q : unit → core → Prop) :
  (r = e → Q tt c) → leads c (expect_revision v r e) Q.
Proof. intros Hq w u w' <- Ha. rewrite expect_revision_ok in Ha. destruct Ha as (_ & He & _ & ->). destruct u. auto. Qed.
Lemma leads_identity c run_id r att b rel g (Q : attempt_row → core → Prop) :
  (∀ a, ru_active_attempt_id r = Some att → c_attempts c !! att = Some a → bound a = true → Q a c) →
  leads c (validate_runtime_identity run_id r att b rel g) Q.
Proof.
  intros Hq w a w' <- Ha. pose proof (validate_identity_active _ _ _ _ _ _ _ _ _ Ha) as (H1 & _ & H3 & ->).
  apply Hq; [done..|]. unfold validate_runtime_identity, required_opt in Ha. destruct g; mgo.
  unfold bound. apply bool_decide_eq_true.
  repeat match goal with H : _ && _ = true |- _ => apply andb_true_iff in H as [? ?] end.
  match goal with H : bool_decide (at_runtime_binding_id _ = Some _) = true |- _ =>
    apply bool_decide_eq_true in H; rewrite H end. done.
Qed.

(** Writing one. *)
Lemma alter_at {A} (f : A → A) (p : A → bool) (m : gmap string A) i x :
  m !! i = Some x → p x = true → alter (λ r, if p r then f r else r) i m = <[i := f x]> m.
Proof. intros Hi Hp. rewrite (alter_known _ _ _ x) by done. by rewrite Hp. Qed.
Lemma leads_update_run c id n st t r (Q : unit → core → Prop) :
  c_runs c !! id = Some r → ru_revision r = n →
  Q tt (in_runs <[id := ru_touch st t r]> c) → leads c (update_run id n st t) Q.
Proof.
  intros Hr Hn Hq. apply (leads_execute _ _ (in_runs (alter (λ r,
    if ru_revision r =? n then ru_touch st t r else r) id))); [done|].
  unfold in_runs. rewrite (alter_at _ _ _ _ r) by (done || by apply Z.eqb_eq). done.
Qed.
Lemma leads_alter_run c id f r (Q : unit → core → Prop) :
  c_runs c !! id = Some r → Q tt (in_runs <[id := f r]> c) →
  leads c (execute (set_runs (alter f id))) Q.
Proof.
  intros Hr Hq. apply (leads_execute _ _ (in_runs (alter f id))); [done|].
  unfold in_runs. by rewrite (alter_known _ _ _ r).
Qed.
Lemma leads_alter_attempt c id f (Q : unit → core → Prop) :
  Q tt (in_attempts (alter f id) c) → leads c (execute (set_attempts (alter f id))) Q.
Proof. intros Hq. by apply (leads_execute _ _ (in_attempts (alter f id))). Qed.
Lemma leads_event c run_id att ty payload cause (Q : json → core → Prop) :
  (∀ r n v, c_runs c !! run_id = Some r → Q v (in_runs <[run_id := ru_sequence n r]> c)) →
  leads c (insert_event run_id att ty payload cause) Q.
Proof.
  intros Hq w v w' <- (r & e & Hr & _ & _ & ->)%insert_event_ok. simpl.
  unfold core_of at 1. simpl. rewrite (alter_known _ _ _ r) by done. by apply (Hq r).
Qed.
Lemma leads_update_action c id p f (Q : Z → core → Prop) :
  (∀ a, c_actions c !! id = Some a → p a = true → Q 1 (in_actions <[id := f a]> c)) →
  Q 0 c → leads c (update_action id p f) Q.
Proof.
  intros Hq H0 w n w' <- Hu. rewrite update_action_ok in Hu. simpl in Hq, H0.
  destruct (runtime_actions (w_db w) !! id) as [a|]; [|by destruct Hu as [-> ->]].
  destruct (p a) eqn:E; destruct Hu as [-> ->]; [by apply (Hq a)|done].
Qed.
End Calls.

(** ** The life behind the tables *)

Definition lives (c c' : core) : Prop := rtc life_step (life_of_core c) (life_of_core c').
#[export] Instance lives_preorder : PreOrder lives.
Proof. split; unfold lives; [intros c; reflexivity|intros x y z ? ?; by etrans]. Qed.
Lemma lives_once c c' : life_step (life_of_core c) (life_of_core c') → lives c c'.
Proof. apply rtc_once. Qed.
Lemma lives_same c c' : life_of_core c' = life_of_core c → lives c c'.
Proof. unfold lives. by intros ->. Qed.
Lemma lives_inv c c' : life_inv (life_of_core c) → lives c c' → life_inv (life_of_core c').
Proof. apply life_steps_inv. Qed.

Lemma fmap_insert_same {A B} (g : A → B) (m : gmap string A) i x y :
  m !! i = Some y → g x = g y → g <$> <[i := x]> m = g <$> m.
Proof. intros Hi E. rewrite fmap_insert, E. apply insert_id. by rewrite lookup_fmap, Hi. Qed.
Lemma life_runs c i r :
  life_of_core (in_runs <[i := r]> c) = on_runs <[i := run_life_of r]> (life_of_core c).
Proof. unfold life_of_core. cbn. by rewrite fmap_insert. Qed.
Lemma life_threads c i r :
  life_of_core (in_threads <[i := r]> c) = on_threads <[i := th_active_run_id r]> (life_of_core c).
Proof. unfold life_of_core. cbn. by rewrite fmap_insert. Qed.
Lemma life_attempts c i a :
  life_of_core (in_attempts <[i := a]> c) = on_bound <[i := bound a]> (life_of_core c).
Proof. unfold life_of_core. cbn. by rewrite fmap_insert. Qed.
Lemma life_actions c f : life_of_core (in_actions f c) = on_actions f (life_of_core c).
Proof. done. Qed.
Lemma life_runs_same c i r r0 :
  c_runs c !! i = Some r0 → run_life_of r = run_life_of r0 →
  life_of_core (in_runs <[i := r]> c) = life_of_core c.
Proof. intros Hi E. unfold life_of_core. cbn. by rewrite (fmap_insert_same _ _ _ _ r0). Qed.
Lemma life_threads_same c i r r0 :
  c_threads c !! i = Some r0 → th_active_run_id r = th_active_run_id r0 →
  life_of_core (in_threads <[i := r]> c) = life_of_core c.
Proof. intros Hi E. unfold life_of_core. cbn. by rewrite (fmap_insert_same _ _ _ _ r0). Qed.
Lemma life_attempts_same c i r r0 :
  c_attempts c !! i = Some r0 → bound r = bound r0 →
  life_of_core (in_attempts <[i := r]> c) = life_of_core c.
Proof. intros Hi E. unfold life_of_core. cbn. by rewrite (fmap_insert_same _ _ _ _ r0). Qed.
Lemma life_attempts_alter c i f :
  (∀ a, bound (f a) = bound a) → life_of_core (in_attempts (alter f i) c) = life_of_core c.
Proof.
  intros Hf. unfold life_of_core. cbn. f_equal. apply map_eq. intros j. rewrite !lookup_fmap.
  destruct (decide (i = j)) as [<- | Hne]; [|by rewrite lookup_alter_ne].
  rewrite lookup_alter_eq. destruct (c_attempts c !! i); simpl; [|done]. by rewrite Hf.
Qed.
Lemma life_run c i r :
  c_runs c !! i = Some r → lf_runs (life_of_core c) !! i = Some (run_life_of r).
Proof. intros Hr. cbn. by rewrite lookup_fmap, Hr. Qed.
Lemma life_thread c i r :
  c_threads c !! i = Some r → lf_threads (life_of_core c) !! i = Some (th_active_run_id r).
Proof. intros Hr. cbn. by rewrite lookup_fmap, Hr. Qed.
Lemma life_bound c i a :
  c_attempts c !! i = Some a → lf_bound (life_of_core c) !! i = Some (bound a).
Proof. intros Hr. cbn. by rewrite lookup_fmap, Hr. Qed.

(** A run moved, in the tables. *)
Lemma lives_move c i r r' :
  c_runs c !! i = Some r → ru_thread_id r' = ru_thread_id r →
  ru_active_attempt_id r' = ru_active_attempt_id r →
  ru_state r' = ru_state r ∨ run_moves (ru_state r) (ru_state r') →
  (is_final (ru_state r') = true → nothing_pending i (ru_active_attempt_id r) (life_of_core c)) →
  lives c (in_runs <[i := r']> c).
Proof.
  intros Hr Et Ea Hm Hf. destruct Hm as [E | Hm].
  - apply lives_same, (life_runs_same _ _ _ r); [done|]. unfold run_life_of. by rewrite Et, Ea, E.
  - apply lives_once. rewrite life_runs. unfold run_life_of. rewrite Et, Ea.
    by apply (ls_move _ i (run_life_of r)); [apply life_run|..].
Qed.
Lemma lives_event c i r n :
  c_runs c !! i = Some r → lives c (in_runs <[i := ru_sequence n r]> c).
Proof. intros Hr. by apply lives_same, (life_runs_same _ _ _ r). Qed.

(** ** The statements the run commands share *)

Section Statements.
Context `{Env}.
Implicit Types c : core.

(** Adding the rows. *)
Lemma leads_insert_run c id r (Q : unit → core → Prop) :
  (c_runs c !! id = None → is_Some (c_threads c !! ru_thread_id r) → Q tt (in_runs <[id := r]> c)) →
  leads c (insert_run id r) Q.
Proof.
  intros Hq w u w' <- Hm. unfold insert_run in Hm.
  apply bind_ok in Hm as (fits & ? & [-> ->]%query_ok & Hm).
  apply bind_ok in Hm as (? & ? & (Hf & _ & ->)%ensure_ok & [-> ->]%execute_ok).
  rewrite !andb_true_iff, !bool_decide_eq_true in Hf. destruct Hf as [[Hn Ht] _]. by apply Hq.
Qed.
Lemma leads_insert_attempt c id a (Q : unit → core → Prop) :
  (c_attempts c !! id = None → Q tt (in_attempts <[id := a]> c)) →
  leads c (insert_attempt id a) Q.
Proof.
  intros Hq w u w' <- Hm. unfold insert_attempt in Hm.
  apply bind_ok in Hm as (fits & ? & [-> ->]%query_ok & Hm).
  apply bind_ok in Hm as (? & ? & (Hf & _ & ->)%ensure_ok & [-> ->]%execute_ok).
  rewrite !andb_true_iff, !bool_decide_eq_true in Hf. destruct Hf as [[[[Hn _] _] _] _]. by apply Hq.
Qed.
Lemma leads_update_attempt c id p f (Q : Z → core → Prop) :
  (∀ a, c_attempts c !! id = Some a → p a = true → Q 1 (in_attempts <[id := f a]> c)) →
  Q 0 c → leads c (update_attempt id p f) Q.
Proof.
  intros Hq H0 w n w' <- Hm. unfold update_attempt in Hm.
  apply bind_ok in Hm as (o & ? & [-> ->]%query_ok & Hm). simpl in Hq.
  destruct (attempts (w_db w) !! id) as [a|]; [|apply ret_ok in Hm as [<- <-]; done].
  destruct (p a) eqn:E; [|apply ret_ok in Hm as [<- <-]; done].
  apply bind_ok in Hm as (? & ? & [_ ->]%execute_ok & [<- <-]%ret_ok). by apply (Hq a).
Qed.
Lemma leads_insert_action c run_id att b rel kind payload t (Q : string → core → Prop) :
  (∀ id a, c_actions c !! id = None → ra_state a = act_pending → ¬ taken a → ra_run_id a = run_id →
     ra_attempt_id a = att → ra_kind a = kind → Q id (in_actions <[id := a]> c)) →
  leads c (insert_runtime_action run_id att b rel kind payload t) Q.
Proof.
  intros Hq w i w' <- Hm. unfold insert_runtime_action in Hm.
  apply bind_ok in Hm as (id & w1 & [-> ->]%new_id_ok & Hm).
  apply bind_ok in Hm as (fits & ? & [-> ->]%query_ok & Hm).
  apply bind_ok in Hm as (? & ? & (Hf & _ & ->)%ensure_ok & Hm).
  apply bind_ok in Hm as (? & ? & [_ ->]%execute_ok & [<- <-]%ret_ok).
  rewrite !andb_true_iff, !bool_decide_eq_true in Hf. destruct Hf as [[[Hn _] _] _].
  apply Hq; try done. intros [[o Ho] | Ho]; [discriminate|]. by apply Ho.
Qed.

(** The deliveries of an attempt that is given up. *)
Definition dropped (run_id att t : string) : core → core :=
  in_actions (update_where (λ _ a, pending_of run_id att a) (ra_terminate t)).
Lemma lives_dropped c run_id att t : lives c (dropped run_id att t c).
Proof. apply lives_once. apply ls_drop. Qed.
Lemma dropped_nothing c run_id att t :
  nothing_pending run_id (Some att) (life_of_core (dropped run_id att t c)).
Proof.
  intros i a Hi Hr Ha. unfold dropped in Hi. cbn in Hi. rewrite lookup_update_where in Hi.
  destruct (c_actions c !! i) as [b|]; simpl in Hi; [|done]. injection Hi as <-.
  destruct (pending_of run_id att b) eqn:E; [done|]. intros Hp.
  unfold pending_of, is_pending in E. injection Ha as Ha.
  by rewrite Hr, Ha, Hp, !String.eqb_refl, bool_decide_eq_true_2 in E.
Qed.
Lemma leads_fail_pending c run_id att t (Q : list string → core → Prop) :
  (∀ ids, Q ids (dropped run_id att t c)) → leads c (fail_pending_runtime_actions run_id att t) Q.
Proof.
  intros Hq w ids w' <- Hm. unfold fail_pending_runtime_actions in Hm.
  apply bind_ok in Hm as (rows & ? & [-> ->]%query_ok & Hm).
  destruct (map fst _) as [|y l] eqn:E.
  - apply ret_ok in Hm as [<- <-].
    assert (dropped run_id att t (core_of (w_db w)) = core_of (w_db w)) as <-; [|apply Hq].
    unfold dropped, in_actions, core_of. cbn. f_equal. apply update_where_none. intros i r Hi.
    destruct (pending_of run_id att r) eqn:Hp; [|done]. exfalso.
    apply map_eq_nil in E. unfold actions_where in E.
    assert ((i, r) ∈ @nil (string * action_row)) as Hin; [|by apply not_elem_of_nil in Hin].
    rewrite <- E, elem_of_isort, list_elem_of_In, List.filter_In, <- list_elem_of_In,
      elem_of_map_to_list. done.
  - apply bind_ok in Hm as (? & ? & [_ ->]%execute_ok & [<- <-]%ret_ok). apply Hq.
Qed.

(** A pause or a cancel for the runtime of an attempt, when there is one. *)
Lemma leads_insert_control c run_id att kind t (Q : option string → core → Prop) :
  known_kind kind → (∀ o c', lives c c' → c_runs c' = c_runs c → c_threads c' = c_threads c →
    Q o c') →
  leads c (insert_control_runtime_action run_id att kind t) Q.
Proof.
  intros Hk Hq. unfold insert_control_runtime_action. destruct att as [att|];
    [|by apply leads_ret, Hq].
  apply leads_bind, leads_attempt. intros a Ha.
  destruct (at_runtime_binding_id a) as [b|] eqn:Eb; [|by apply leads_ret, Hq].
  destruct (at_runtime_release_id a) as [rel|]; [|by apply leads_ret, Hq].
  apply leads_bind, leads_insert_action. intros id x Hn Hp Ht _ Hatt Hkind.
  apply leads_ret, Hq; [|done..]. apply lives_once. rewrite life_actions.
  apply ls_insert; [done..| |by rewrite Hkind]. rewrite Hatt, (life_bound _ _ a) by done.
  unfold bound. by rewrite Eb.
Qed.

(** The thread of a run that is over lets it go; a paused one keeps it. *)
Lemma leads_thread_of c thread_id run_id f r (Q : unit → core → Prop) :
  c_runs c !! run_id = Some r →
  (∀ th, th_active_run_id (f th) = th_active_run_id th ∨
     th_active_run_id (f th) = None ∧ is_terminal (ru_state r) = true) →
  (∀ c', lives c c' → c_runs c' = c_runs c → Q tt c') →
  leads c (execute (set_threads (alter (λ th,
    if bool_decide (th_active_run_id th = Some run_id) then f th else th) thread_id))) Q.
Proof.
  intros Hr Hf Hq. apply (leads_execute _ _ (in_threads (alter (λ th,
    if bool_decide (th_active_run_id th = Some run_id) then f th else th) thread_id))); [done|].
  apply Hq; [|done]. unfold in_threads.
  destruct (c_threads c !! thread_id) as [th|] eqn:Eth.
  - rewrite (alter_known _ _ _ th) by done. case_bool_decide as Ha.
    + pose proof (life_threads c thread_id (f th)) as E. unfold in_threads in E.
      destruct (Hf th) as [Ef | [Ef Ht]].
      * apply lives_same. by apply (life_threads_same _ _ _ th).
      * apply lives_once. rewrite E, Ef. apply (ls_free _ _ run_id (run_life_of r)).
        -- by rewrite (life_thread _ _ th), Ha.
        -- by apply life_run.
        -- done.
    + apply lives_same. by apply (life_threads_same _ _ _ th).
  - apply lives_same. unfold life_of_core. cbn. rewrite alter_id; [done|]. congruence.
Qed.
End Statements.
