(* ===== verification/RunSteps.v ===== *)
(** * The steps of the run commands

    Each command that moves a run, its attempts or its deliveries is a sequence
    of steps of the abstract machine of [RunLife]. *)

From S2P Require Import Prelude PyText Clock Json Schema Store Threads ThreadFacts Runs RuntimeActions PinReleases RuntimeFacts PinFacts RunClosing ClosingFacts Resources Dispatch RuntimeEvents Decisions RunRestart RunLife RunCalls.
Open Scope Z_scope.

(** [follow] steps over what a command reads and checks. *)
Ltac follow_step := cbn beta iota zeta; lazymatch goal with
  | |- leads _ (_ ≫= _) _ => apply leads_bind
  | |- leads _ (mret _) _ => apply leads_ret
  | |- leads _ (raise _) _ => apply leads_raise
  | |- leads _ (ensure _ _) _ => apply leads_ensure; intros ?
  | |- leads _ (from_option _ _) _ => apply leads_option; intros ? ?
  | |- leads _ (new_id _) _ => apply leads_new_id; intros ? ?
  | |- leads _ (run _) _ => apply leads_run; intros ? ?
  | |- leads _ (run_at _ _) _ => apply leads_run_at; intros ? ? ?
  | |- leads _ (attempt _) _ => apply leads_attempt; intros ? ?
  | |- leads _ (thread _) _ => apply leads_thread; intros ? ? ?
  | |- leads _ (runtime_action _) _ => apply leads_action; intros ? ? ?
  | |- leads _ (expect_revision _ _ _) _ => apply leads_revision; intros ?
  | |- leads _ (validate_runtime_identity _ _ _ _ _ _) _ => apply leads_identity; intros ? ? ? ?
  | |- leads _ (insert_event _ _ _ _ _) _ => apply leads_event; intros ? ? ? ?
  | |- leads _ (fail_pending_runtime_actions _ _ _) _ => apply leads_fail_pending; intros ?
  | |- leads _ (update_run _ _ _ _) _ => eapply leads_update_run; [eassumption|eassumption|]
  | |- leads _ (execute (set_runs (alter _ _))) _ => eapply leads_alter_run; [eassumption|]
  | |- leads _ (execute (set_attempts (alter _ _))) _ => apply leads_alter_attempt
  | |- leads _ (update_attempt_state _ _) _ => unfold update_attempt_state; apply leads_alter_attempt
  | |- leads _ (transaction _) _ => apply leads_transaction
  | |- leads _ (command _ _ _ _ _) _ => apply leads_command; [intros; reflexivity|]
  | |- leads _ (match ?x with _ => _ end) _ => destruct x eqn:?
  | |- leads _ _ _ => apply leads_keeps; [solve [eauto with keeps]|intros ?]
  end.
Ltac follow := repeat follow_step.
(** [bools] reads the boolean checks in the context. *)
Ltac bools := repeat match goal with
  | H : _ && _ = true |- _ => apply andb_true_iff in H as [? ?]
  | H : is_pending _ = true |- _ => apply bool_decide_eq_true in H
  | H : negb _ = true |- _ => apply negb_true_iff in H
  | H : bool_decide _ = true |- _ => apply bool_decide_eq_true in H
  | H : bool_decide _ = false |- _ => apply bool_decide_eq_false in H
  | H : String.eqb _ _ = true |- _ => apply String.eqb_eq in H
  | H : (_ =? _)%Z = true |- _ => apply Z.eqb_eq in H
  end.

Section Steps.
Context `{Env}.
Implicit Types c : core.

Notation steps c m := (leads c m (λ _ c', lives c c')).

Lemma keeps_run_and_attempt {V} (view : db → V) i j : keeps (λ w, view (w_db w)) (run_and_attempt i j).
Proof.
  unfold run_and_attempt. apply keeps_bind; [eauto with keeps|intros [r v]].
  apply keeps_bind; eauto with keeps.
Qed.
Lemma keeps_thread {V} (view : db → V) i : keeps (λ w, view (w_db w)) (thread i).
Proof. unfold thread. apply keeps_bind; [eauto with keeps|intros o]. apply keeps_bind; eauto with keeps. Qed.
Hint Resolve keeps_run_and_attempt keeps_thread : keeps.

Lemma create_run_steps c thread_id n actor key :
  steps c (create_run thread_id n actor key).
Proof.
  unfold create_run, create_run_body. do 5 follow_step. rename r into th, H0 into Hth, H1 into Hrev.
  do 2 follow_step. apply leads_bind.
  apply (leads_weaken _ _ (λ _ c', c' = c ∧ ∀ i r, th_active_run_id th = Some i →
    c_runs c !! i = Some r → is_terminal (ru_state r) = true)).
  { follow; (split; [done|]); intros; simplify_eq. done. }
  intros _ ? [-> Hact]. do 6 follow_step. rename a into t, i into run_id, i0 into att.
  apply leads_bind, leads_insert_run. intros Hrun _.
  apply leads_bind, leads_insert_attempt. cbn [in_runs c_attempts]. intros Hatt.
  apply leads_bind, (leads_execute _ _ (in_threads (alter (λ x,
    if th_revision x =? n then th_start run_id t x else x) thread_id))); [done|].
  follow. intros _. etrans; [|by apply lives_event].
  unfold in_threads. cbn [in_runs in_attempts c_threads c_runs c_attempts c_actions].
  rewrite (alter_at _ _ _ _ th) by (done || by apply Z.eqb_eq).
  apply lives_once. eapply eq_rect; [apply (ls_open _ thread_id run_id att (th_active_run_id th))|].
  - by apply life_thread.
  - intros j x Hj Hx. cbn in Hx. rewrite lookup_fmap in Hx.
    destruct (c_runs c !! j) eqn:E; simplify_eq/=. by apply (Hact j).
  - cbn. by rewrite lookup_fmap, Hrun.
  - cbn. by rewrite lookup_fmap, Hatt.
  - done.
  - unfold life_of_core. cbn. by rewrite !fmap_insert.
Qed.

(** The end of most commands: the run's new revision, and the event. *)
Lemma lives_touch c i r st t :
  c_runs c !! i = Some r → (ru_state r = st ∨ run_moves (ru_state r) st) →
  (is_final st = true → nothing_pending i (ru_active_attempt_id r) (life_of_core c)) →
  lives c (in_runs <[i := ru_touch st t r]> c).
Proof. intros Hr Hm Hf. apply (lives_move _ _ r); try done. destruct Hm; [left|right]; done. Qed.
Lemma lives_bump c i r t : c_runs c !! i = Some r → lives c (in_runs <[i := ru_touch (ru_state r) t r]> c).
Proof. intros Hr. by apply lives_same, (life_runs_same _ _ _ r). Qed.

Lemma keeps_runtime_binding {V} (view : db → V) i : keeps (λ w, view (w_db w)) (runtime_binding i).
Proof. unfold runtime_binding. apply keeps_bind; [eauto with keeps|intros o]. apply keeps_bind; eauto with keeps. Qed.
Hint Resolve keeps_runtime_binding : keeps.

Lemma unbound a : at_runtime_binding_id a = None → bound a = false.
Proof. intros E. unfold bound. rewrite E. by apply bool_decide_eq_false_2; intros []. Qed.

Lemma create_runtime_binding_steps c thread_id a s g ver parent actor key :
  steps c (create_runtime_binding thread_id a s g ver parent actor key).
Proof.
  unfold create_runtime_binding, create_binding_body. follow; intros; reflexivity.
Qed.

Lemma keeps_paused_source {V} (view : db → V) fuel : ∀ visited next,
  keeps (λ w, view (w_db w)) (paused_source fuel visited next).
Proof.
  induction fuel as [|fuel IH]; intros visited [i|]; simpl; try (eauto with keeps);
    (apply keeps_bind; [eauto with keeps|intros _]); (apply keeps_bind; [eauto with keeps|intros a]);
    case_match; eauto with keeps.
Qed.
Lemma keeps_paused_source_attempt {V} (view : db → V) a :
  keeps (λ w, view (w_db w)) (paused_source_attempt a).
Proof. unfold paused_source_attempt. apply keeps_bind; eauto using keeps_paused_source with keeps. Qed.
Lemma keeps_insert_sources {V} (view : db → V) run_id a t :
  (∀ f d, view (set_pin_releases f d) = view d) →
  keeps (λ w, view (w_db w)) (insert_paused_source_releases run_id a t).
Proof.
  intros Hv. unfold insert_paused_source_releases.
  apply keeps_bind; [apply keeps_paused_source_attempt|intros [[i s]|]]; [|eauto with keeps].
  apply keeps_bind; [by apply keeps_insert_pin|eauto with keeps].
Qed.
Hint Resolve keeps_paused_source_attempt : keeps.
Hint Extern 1 (keeps _ (insert_paused_source_releases _ _ _)) =>
  (apply keeps_insert_sources; intros; reflexivity) : keeps.

Lemma pin_attempt_runtime_steps c run_id att b rel n g o actor key :
  steps c (pin_attempt_runtime run_id att b rel n g o actor key).
Proof.
  unfold pin_attempt_runtime, pin_body. follow; try discriminate.
  apply leads_update_attempt; [|by follow]. intros a' Ha' Hp. follow. intros _.
  etrans; [|by apply lives_event]. etrans; [|by apply lives_bump].
  apply lives_once. rewrite life_attempts. apply (ls_bind _ att).
  rewrite (life_bound _ _ a') by done. bools. by rewrite unbound.
Qed.

Lemma keeps_reservation_held {V} (view : db → V) o i a :
  keeps (λ w, view (w_db w)) (reservation_held o i a).
Proof. unfold reservation_held. case_match; [apply keeps_bind|]; eauto with keeps. Qed.
Hint Resolve keeps_reservation_held : keeps.
Hint Extern 1 (keeps _ (receipt _ _ _ _)) => apply keeps_receipt : keeps.
Hint Extern 1 (keeps _ (save_receipt _ _ _ _ _ _)) => (by apply keeps_save_receipt) : keeps.

Lemma reserve_attempt_dispatch_steps c run_id att o i n l actor key :
  steps c (reserve_attempt_dispatch run_id att o i n l actor key).
Proof.
  unfold reserve_attempt_dispatch, reserve_body. follow; [reflexivity|].
  apply leads_update_attempt; [|by follow]. intros a' Ha' Hp. follow.
  etrans; [|by apply lives_event]. etrans; [|by apply lives_bump].
  by apply lives_same, (life_attempts_same _ _ _ a').
Qed.

Lemma claim_attempt_dispatch_steps c run_id att o l : steps c (claim_attempt_dispatch run_id att o l).
Proof. apply leads_raise. Qed.

(** ** What a runtime sends *)

Lemma keeps_event_replay {V} (view : db → V) att k fields :
  keeps (λ w, view (w_db w)) (runtime_event_replay att k fields).
Proof.
  unfold runtime_event_replay. destruct (ca_event_id k); [|eauto with keeps].
  repeat (apply keeps_bind; [eauto with keeps|intros]). case_match; [|];
    repeat (apply keeps_bind; [eauto with keeps|intros]); eauto with keeps.
Qed.
Lemma keeps_save_event {V} (view : db → V) att k fields r :
  (∀ f d, view (set_inbox f d) = view d) →
  keeps (λ w, view (w_db w)) (save_runtime_event att k fields r).
Proof.
  intros Hv. unfold save_runtime_event. destruct (ca_event_id k); [|eauto with keeps].
  repeat (apply keeps_bind; [eauto with keeps|intros]). by apply keeps_execute_view.
Qed.
Hint Resolve keeps_event_replay : keeps.
Hint Extern 1 (keeps _ (save_runtime_event _ _ _ _)) =>
  (apply keeps_save_event; intros; reflexivity) : keeps.

Lemma leads_event_command c a o k fields att cs body (Q : command_result → core → Prop) :
  (∀ r, Q r c) → leads c body (λ _ c', ∀ r, Q r c') →
  leads c (event_command a o k fields att cs body) Q.
Proof.
  intros Hc Hb. unfold event_command. follow; try apply Hc.
  eapply leads_weaken; [exact Hb|]. intros [[v code] filed] c' Hq. follow. apply Hq.
Qed.

(** The run a runtime speaks of, after the resume its event proves. *)
Record confirmed (c : core) (run_id att : string) (r r' : run_row) (s : string) (c' : core) : Prop := {
  co_lives : lives c c';
  co_run : c_runs c' !! run_id = Some r';
  co_state : ru_state r' = s;
  co_thread : ru_thread_id r' = ru_thread_id r;
  co_active : ru_active_attempt_id r' = Some att;
  co_revision : ru_revision r' = ru_revision r;
  co_threads : c_threads c' = c_threads c }.

Lemma lives_settled c i a st t cat :
  c_actions c !! i = Some a → st ≠ act_pending →
  lives c (in_actions <[i := ra_settle st t cat a]> c).
Proof.
  intros Ha Hst. apply lives_once. rewrite life_actions. by apply (ls_action _ i a).
Qed.
Lemma leads_confirm c run_id r att cs (Q : string → core → Prop) :
  c_runs c !! run_id = Some r → ru_active_attempt_id r = Some att →
  (∀ s r' c', confirmed c run_id att r r' s c' → Q s c') →
  leads c (confirm_runtime_resume run_id r att cs) Q.
Proof.
  intros Hr Ha Hq.
  assert (Q (ru_state r) c) as Hsame by by apply (Hq _ r).
  unfold confirm_runtime_resume. destruct (ca_event_id cs); [|by apply leads_ret].
  destruct (String.eqb_spec (ru_state r) "resuming") as [Hst|_]; [|by apply leads_ret].
  follow. apply leads_update_action; [|by follow]. intros x Hx Hp. follow.
  rename r0 into r', H2 into Hr'. cbn in Hr'. rewrite lookup_insert_eq in Hr'. injection Hr' as <-.
  apply (Hq _ (ru_sequence n (ru_confirm a1 r))). split; try done; [|cbn; by rewrite lookup_insert_eq].
  etrans; [by apply (lives_settled _ s0 x act_acked a1 None)|].
  etrans; [apply (lives_move _ run_id r (ru_confirm a1 r)); try done|].
  - right. left. rewrite Hst. cbn. set_solver.
  - etrans; [|apply lives_event; cbn; by rewrite lookup_insert_eq].
    by apply lives_same, life_attempts_alter.
Qed.

Definition sent (c : core) (run_id : string) (sd : sender) (n : Z) (x : run_row * attempt_row * string)
    (c' : core) : Prop :=
  ∃ r', c_runs c !! run_id = Some x.1.1 ∧ ru_revision x.1.1 = n ∧
    confirmed c run_id (se_attempt sd) x.1.1 r' x.2 c'.
Lemma leads_sent_by c run_id sd n cs (Q : run_row * attempt_row * string → core → Prop) :
  (∀ x c', sent c run_id sd n x c' → Q x c') → leads c (sent_by run_id sd n cs) Q.
Proof.
  intros Hq. unfold sent_by. follow. eapply leads_confirm; [done..|]. intros s r' c' Hc. follow.
  apply Hq. by exists r'.
Qed.


(** ** Transitions *)

Lemma keeps_fence_materials {V} (view : db → V) mine cat t :
  (∀ f d, view (set_materializations f d) = view d) →
  (∀ f d, view (set_artifact_versions f d) = view d) →
  keeps (λ w, view (w_db w)) (fence_artifact_materializations mine cat t).
Proof.
  intros H1 H2. unfold fence_artifact_materializations. apply keeps_bind; [eauto with keeps|intros rows].
  case_match; [eauto with keeps|].
  repeat (apply keeps_bind; [by apply keeps_execute_view|intros]). eauto with keeps.
Qed.
Hint Extern 1 (keeps _ (fence_artifact_materializations_for_attempt _ _ _)) =>
  (apply keeps_fence_materials; intros; reflexivity) : keeps.
Lemma keeps_expire {V} (view : db → V) run_id t :
  (∀ f d, view (set_decisions f d) = view d) → keeps (λ w, view (w_db w)) (expire_decisions run_id t).
Proof.
  intros Hv. unfold expire_decisions. apply keeps_bind; [eauto with keeps|intros rows].
  case_match; [eauto with keeps|]. apply keeps_bind; [by apply keeps_execute_view|eauto with keeps].
Qed.
Hint Extern 1 (keeps _ (expire_decisions _ _)) => (apply keeps_expire; intros; reflexivity) : keeps.
Hint Extern 1 (keeps _ (insert_pin_release _ _ _ _)) =>
  (apply keeps_insert_pin; intros; reflexivity) : keeps.
Lemma keeps_release_pin_of {V} (view : db → V) run_id att t :
  (∀ f d, view (set_pin_releases f d) = view d) →
  keeps (λ w, view (w_db w)) (release_pin_of run_id att t).
Proof.
  intros Hv. unfold release_pin_of. apply keeps_bind; [eauto with keeps|intros a].
  case_match; [apply keeps_bind; [by apply keeps_insert_pin|]|]; eauto with keeps.
Qed.
Hint Extern 1 (keeps _ (release_pin_of _ _ _)) =>
  (apply keeps_release_pin_of; intros; reflexivity) : keeps.

Lemma nothing_pending_same run_id att c c' :
  c_actions c' = c_actions c → nothing_pending run_id att (life_of_core c) →
  nothing_pending run_id att (life_of_core c').
Proof. unfold nothing_pending. cbn. by intros ->. Qed.

(** The deliveries a transition drops, and the one it orders. *)
Definition drops (target : string) : bool := is_terminal target || String.eqb target "paused".
Lemma leads_transition_settle c run_id target active t (Q : _ → core → Prop) :
  (∀ x c', lives c c' → c_runs c' = c_runs c → c_threads c' = c_threads c →
     (drops target = true → has_text active = true →
       nothing_pending run_id active (life_of_core c')) → Q x c') →
  leads c (transition_settle run_id target active t) Q.
Proof.
  intros Hq. unfold transition_settle.
  destruct (String.eqb_spec target "cancel_requested") as [-> | Hnc].
  - unfold prepare_run_cancellation. apply leads_bind.
    apply (leads_weaken _ _ (λ _ c', lives c c' ∧ c_runs c' = c_runs c ∧ c_threads c' = c_threads c)).
    { destruct active as [a|]; follow; (split_and!; [|done..]); [apply lives_dropped|reflexivity]. }
    intros lost c1 (L1 & R1 & T1). follow_step. apply leads_insert_control; [by eexists|].
    intros o c2 L2 R2 T2. follow. apply Hq; [by etrans|congruence..|done].
  - follow_step. apply (leads_weaken _ _ (λ _ c', lives c c' ∧ c_runs c' = c_runs c ∧
      c_threads c' = c_threads c)).
    { destruct (String.eqb_spec target "pause_requested"); [|by apply leads_ret].
      apply leads_insert_control; [by eexists|done]. }
    intros o c1 (L1 & R1 & T1). follow_step. fold (drops target).
    apply (leads_weaken _ _ (λ _ c', lives c c' ∧ c_runs c' = c_runs c ∧ c_threads c' = c_threads c ∧
      (drops target = true → has_text active = true → nothing_pending run_id active (life_of_core c')))).
    { destruct (drops target && has_text active) eqn:E.
      - apply andb_true_iff in E as [_ E]. destruct active as [a|]; [|done]. follow.
        split_and!; [etrans; [exact L1|apply lives_dropped]|done..|]. intros _ _. apply dropped_nothing.
      - apply leads_ret. split_and!; [done..|]. intros E1 E2. by rewrite E1, E2 in E. }
    intros ids c2 (L2 & R2 & T2 & N2). follow; apply Hq; done.
Qed.

(** An attempt with no name has no deliveries. *)
Lemma nothing_unnamed c run_id att :
  life_inv (life_of_core c) → has_text att = false → nothing_pending run_id att (life_of_core c).
Proof.
  intros Hinv Ht i a Hi _ Ha Hp. subst att. destruct (ra_attempt_id a) eqn:E; [|done].
  destruct (li_bound _ Hinv i a Hi Hp) as [Hb _]. rewrite E, (li_named _ Hinv) in Hb. done.
Qed.

Lemma leads_transition_rows c run_id r thread_id target n stage t :
  life_inv (life_of_core c) → c_runs c !! run_id = Some r → ru_revision r = n →
  run_moves (ru_state r) target →
  (drops target = true → has_text (ru_active_attempt_id r) = true →
     nothing_pending run_id (ru_active_attempt_id r) (life_of_core c)) →
  leads c (transition_rows run_id thread_id target n stage (ru_active_attempt_id r) t)
    (λ _ c', lives c c').
Proof.
  intros Hinv Hr Hn Hm Hd. unfold transition_rows. follow_step.
  eapply leads_alter_run; [exact Hr|]. cbn beta. rewrite (proj2 (Z.eqb_eq _ _) Hn).
  assert (lives c (in_runs <[run_id := ru_move target stage t r]> c)) as L1.
  { apply (lives_move _ _ r); try done; [by right|]. cbn. intros Hf.
    destruct (has_text (ru_active_attempt_id r)) eqn:Et; [|by apply nothing_unnamed].
    apply Hd; [|done]. unfold drops. by rewrite final_terminal. }
  set (c1 := in_runs _ c) in *.
  assert (c_runs c1 !! run_id = Some (ru_move target stage t r)) as R1
    by (unfold c1; cbn; by rewrite lookup_insert_eq).
  clearbody c1. follow_step.
  apply (leads_weaken _ _ (λ _ c', lives c c' ∧ c_runs c' = c_runs c1)).
  { follow; (split; [|done]); [|done]. etrans; [exact L1|]. by apply lives_same, life_attempts_alter. }
  intros _ c2 [L2 R2]. destruct (is_terminal target) eqn:Et; [|by follow].
  follow_step. unfold end_thread. eapply (leads_thread_of _ _ _ _ (ru_move target stage t r)).
  - by rewrite R2.
  - intros th. by right.
  - intros c3 L3 R3. follow; by etrans.
Qed.
Lemma transition_run_steps c run_id target n actor key stage payload att b rel g cs :
  life_inv (life_of_core c) →
  steps c (transition_run run_id target n actor key stage payload att b rel g cs).
Proof.
  intros Hinv. unfold transition_run. apply leads_event_command; [reflexivity|].
  unfold transition_body. do 2 follow_step. rename r into r0, H0 into Hr0.
  follow_step. apply (leads_weaken _ _ (λ _ c', c' = c)).
  { by follow. }
  intros engine ? ->. do 4 follow_step. rename H1 into Hrev. follow_step.
  apply (leads_weaken _ _ (λ x c', ∃ r, lives c c' ∧ c_runs c' !! run_id = Some r ∧
    ru_state r = x.1 ∧ ru_active_attempt_id r = ru_active_attempt_id r0 ∧ ru_revision r = n)).
  { destruct (is_request target); [apply leads_ret; by exists r0|]. follow.
    eapply leads_confirm; [done..|]. intros s r' c' [L R S T A V _]. follow.
    exists r'. rewrite V. split_and!; cbn; done || congruence. }
  intros [source checkpoint] c1 (r & L1 & R1 & S1 & A1 & V1). cbn in S1. do 6 follow_step.
  rewrite <- A1. follow_step. apply leads_transition_settle.
  intros [[lost action] closed] c2 L2 R2 T2 N2. follow_step.
  eapply leads_weaken; [eapply (leads_transition_rows _ _ r)|].
  - apply (lives_inv c); [done|by etrans].
  - by rewrite R2.
  - done.
  - left. rewrite S1. by apply in_texts_spec.
  - done.
  - intros [expired pin] c3 L3. follow. intros _. etrans; [|by apply lives_event].
    etrans; [exact L1|]. by etrans.
Qed.

Lemma apply_runtime_transition_steps c run_id target sd n actor key stage payload cs :
  life_inv (life_of_core c) →
  steps c (apply_runtime_transition run_id target sd n actor key stage payload cs).
Proof. intros Hinv. unfold apply_runtime_transition. apply transition_run_steps. exact Hinv. Qed.

(** ** Messages, checkpoints and decisions *)

Lemma keeps_insert_message {V} (view : db → V) i m :
  (∀ f d, view (set_messages f d) = view d) → keeps (λ w, view (w_db w)) (insert_message i m).
Proof.
  intros Hv. unfold insert_message. repeat (apply keeps_bind; [eauto with keeps|intros]).
  by apply keeps_execute_view.
Qed.
Lemma keeps_message {V} (view : db → V) i : keeps (λ w, view (w_db w)) (message i).
Proof. unfold message. repeat (apply keeps_bind; [eauto with keeps|intros]). eauto with keeps. Qed.
Lemma keeps_decision {V} (view : db → V) i : keeps (λ w, view (w_db w)) (decision i).
Proof.
  unfold decision. do 3 (apply keeps_bind; [eauto with keeps|intros]).
  apply keeps_bind; [case_match|intros]; eauto with keeps.
Qed.
Lemma keeps_insert_decision {V} (view : db → V) i r :
  (∀ f d, view (set_decisions f d) = view d) → keeps (λ w, view (w_db w)) (insert_decision i r).
Proof.
  intros Hv. unfold insert_decision. repeat (apply keeps_bind; [eauto with keeps|intros]).
  by apply keeps_execute_view.
Qed.
Hint Resolve keeps_message keeps_decision : keeps.
Hint Extern 1 (keeps _ (insert_message _ _)) => (apply keeps_insert_message; intros; reflexivity) : keeps.
Hint Extern 1 (keeps _ (insert_decision _ _)) => (apply keeps_insert_decision; intros; reflexivity) : keeps.

Lemma leads_touch_run c run_id n t r (Q : unit → core → Prop) :
  c_runs c !! run_id = Some r → ru_revision r = n →
  Q tt (in_runs <[run_id := ru_touch (ru_state r) t r]> c) → leads c (touch_run run_id n t) Q.
Proof.
  intros Hr Hn Hq. unfold touch_run. eapply leads_alter_run; [exact Hr|]. cbn beta.
  by rewrite (proj2 (Z.eqb_eq _ _) Hn).
Qed.
Lemma leads_alter_thread c id f (Q : unit → core → Prop) :
  (∀ r, th_active_run_id (f r) = th_active_run_id r) →
  (∀ c', life_of_core c' = life_of_core c → c_runs c' = c_runs c → Q tt c') →
  leads c (execute (set_threads (alter f id))) Q.
Proof.
  intros Hf Hq. apply (leads_execute _ _ (in_threads (alter f id))); [done|]. apply Hq; [|done].
  unfold life_of_core. cbn. f_equal. apply map_eq. intros j. rewrite !lookup_fmap.
  destruct (decide (id = j)) as [<- | Hne]; [|by rewrite lookup_alter_ne].
  rewrite lookup_alter_eq. destruct (c_threads c !! id); simpl; [|done]. by rewrite Hf.
Qed.

Lemma append_runtime_message_steps c run_id sd content n actor key cs :
  steps c (append_runtime_message run_id sd content n actor key cs).
Proof.
  unfold append_runtime_message. do 2 follow_step. apply leads_event_command; [reflexivity|].
  unfold runtime_message_body. follow_step. apply leads_sent_by.
  intros [[r att] s] c1 (r' & Hr & Hn & [L R S T A V _]). follow.
  apply leads_alter_thread; [done|]. intros c2 E2 R2. follow_step.
  eapply leads_touch_run; [by rewrite R2|by rewrite V|]. follow. intros _.
  etrans; [|by apply lives_event]. etrans; [|apply lives_bump; by rewrite R2].
  etrans; [exact L|]. by apply lives_same.
Qed.

Lemma commit_checkpoint_steps `{UnicodeChecks} c run_id sd uri n actor key cs :
  steps c (commit_checkpoint run_id sd uri n actor key cs).
Proof.
  unfold commit_checkpoint. do 3 follow_step.
  apply (leads_weaken _ _ (λ _ c', c' = c)); [by follow|]. intros u ? ->. do 2 follow_step.
  apply leads_event_command; [reflexivity|].
  unfold checkpoint_body. follow_step. apply leads_sent_by.
  intros [[r att] s] c1 (r' & Hr & Hn & [L R S T A V _]). do 7 follow_step.
  eapply leads_touch_run; [exact R|by rewrite V|]. follow. intros _.
  etrans; [|by apply lives_event]. etrans; [|by apply lives_bump].
  etrans; [exact L|]. by apply lives_same, life_attempts_alter.
Qed.

Lemma keeps_validate_options {V} (view : db → V) l : ∀ seen,
  keeps (λ w, view (w_db w)) (validate_options seen l).
Proof.
  assert (∀ v name n, keeps (λ w, view (w_db w)) (public_text v name n)) as Ht.
  { intros. unfold public_text. repeat (apply keeps_bind; [eauto with keeps|intros]). eauto with keeps. }
  assert (∀ v name n, keeps (λ w, view (w_db w)) (public_field v name n)) as Hf.
  { intros [[]|] ? ?; simpl; eauto with keeps. }
  induction l as [|o l IH]; intros seen; simpl; [eauto with keeps|].
  repeat (apply keeps_bind; [repeat (case_match || (apply keeps_bind; [by auto|intros]));
    eauto with keeps|intros]); eauto with keeps.
Qed.
Lemma keeps_decision_options {V} (view : db → V) l :
  keeps (λ w, view (w_db w)) (validate_decision_options l).
Proof. unfold validate_decision_options. apply keeps_bind; eauto using keeps_validate_options with keeps. Qed.
Lemma keeps_public_text {V} (view : db → V) v name n : keeps (λ w, view (w_db w)) (public_text v name n).
Proof. unfold public_text. repeat (apply keeps_bind; [eauto with keeps|intros]). eauto with keeps. Qed.
Hint Resolve keeps_decision_options keeps_public_text : keeps.

Lemma create_decision_steps c run_id sd kind prompt options ref rev n actor key cs :
  steps c (create_decision run_id sd kind prompt options ref rev n actor key cs).
Proof.
  unfold create_decision. do 7 follow_step.
  apply (leads_weaken _ _ (λ _ c', c' = c)); [by follow|]. intros dref ? ->. do 2 follow_step.
  apply leads_event_command; [reflexivity|].
  unfold create_decision_body. follow_step. apply leads_sent_by.
  intros [[r att] s] c1 (r' & Hr & Hn & [L R S T A V _]). cbn in S.
  do 8 follow_step. follow_step. eapply leads_update_run; [exact R|by rewrite V|]. follow. intros _.
  etrans; [|by apply lives_event]. etrans; [|apply lives_same, life_attempts_alter; done].
  etrans; [exact L|]. bools. apply lives_touch; [done|right; left|done].
  replace (ru_state r') with "running" by congruence. by apply in_texts_spec.
Qed.

(** ** The answer of a decision *)

Lemma keeps_resolve_row {V} (view : db → V) i res n t :
  (∀ f d, view (set_decisions f d) = view d) → keeps (λ w, view (w_db w)) (resolve_row i res n t).
Proof.
  intros Hv. unfold resolve_row. apply keeps_bind; [eauto with keeps|intros [r|]]; [|eauto with keeps].
  case_match; [apply keeps_bind; [by apply keeps_execute_view|]|]; eauto with keeps.
Qed.
Hint Extern 1 (keeps _ (resolve_row _ _ _ _)) => (apply keeps_resolve_row; intros; reflexivity) : keeps.

Lemma leads_resume_rows c run_id att t guard r (Q : unit → core → Prop) :
  c_runs c !! run_id = Some r → ru_state r = "waiting_for_decision" →
  (∀ c', lives c c' → lf_bound (life_of_core c') = lf_bound (life_of_core c) → Q tt c') →
  leads c (resume_rows run_id att t guard) Q.
Proof.
  intros Hr Hs Hq. unfold resume_rows. follow_step.
  eapply leads_alter_run; [exact Hr|]. cbn beta. follow.
  assert (life_of_core (in_attempts (alter (at_state_to "resuming") att)
    (in_runs <[run_id := if guard r then ru_touch "resuming" t r else r]> c))
    = life_of_core (in_runs <[run_id := if guard r then ru_touch "resuming" t r else r]> c)) as E
    by by apply life_attempts_alter.
  apply Hq; [|by rewrite E, life_runs]. etrans; [|by apply lives_same].
  destruct (guard r).
  - apply lives_touch; [done| |done]. right. left. rewrite Hs. by apply in_texts_spec.
  - by apply lives_same, (life_runs_same _ _ _ r).
Qed.

Lemma bound_text a : has_text (at_runtime_binding_id a) = true → bound a = true.
Proof. unfold bound. by destruct (at_runtime_binding_id a). Qed.

Lemma resolve_workflow_steps c id r v choice actor n ref_id ref :
  steps c (resolve_workflow_decision id r v choice actor n ref_id ref).
Proof.
  unfold resolve_workflow_decision. follow; bools;
    (eapply leads_resume_rows; [eassumption|assumption|]); intros c' L _; follow;
    (etrans; [exact L|by apply lives_event]).
Qed.

Lemma resolve_runtime_steps c id r choice actor n :
  steps c (resolve_runtime_decision id r choice actor n).
Proof.
  unfold resolve_runtime_decision. follow. bools.
  eapply leads_resume_rows; [eassumption|assumption|]. intros c' L E. follow_step.
  apply leads_insert_action. intros i x Hn Hp Ht _ Hatt Hk. follow.
  etrans; [|by apply lives_event]. etrans; [exact L|]. apply lives_once. rewrite life_actions.
  apply ls_insert; [done..| |by rewrite Hk; eexists].
  rewrite Hatt, E. erewrite life_bound by eassumption. by rewrite bound_text.
Qed.

Lemma resolve_decision_steps c id choice n actor key :
  steps c (resolve_decision id choice n actor key).
Proof.
  unfold resolve_decision. do 3 follow_step. unfold resolve_decision_body. follow.
  - eapply leads_weaken; [apply resolve_workflow_steps|]. done.
  - eapply leads_weaken; [apply resolve_runtime_steps|]. done.
Qed.

(** ** Giving an attempt up, and the next one *)

Lemma leads_switch_run c run_id n st att t r (Q : unit → core → Prop) :
  c_runs c !! run_id = Some r → ru_revision r = n →
  Q tt (in_runs <[run_id := ru_switch st att t r]> c) → leads c (switch_run run_id n st att t) Q.
Proof.
  intros Hr Hn Hq. unfold switch_run. do 4 follow_step.
  eapply leads_alter_run; [exact Hr|]. cbn beta. by rewrite (proj2 (Z.eqb_eq _ _) Hn).
Qed.
(** The run after an unbound attempt: over, or paused on an older attempt. *)
Lemma lives_switch c run_id r st kept att t :
  c_runs c !! run_id = Some r → ru_active_attempt_id r = Some att →
  lf_bound (life_of_core c) !! att = Some false →
  ru_state r ∈ ["queued"; "retrying"; "resuming"; "cancel_requested"] →
  (st = "canceled" ∧ ru_state r = "cancel_requested" ∧ kept = att ∧
     nothing_pending run_id (Some att) (life_of_core c)) ∨
  (st = "failed" ∧ kept = att) ∨ (st = "paused" ∧ ru_state r ≠ "cancel_requested") →
  lives c (in_runs <[run_id := ru_switch st kept t r]> c).
Proof.
  intros Hr Ha Hb Hs [(-> & E & -> & Hn) | [[-> ->] | [-> Hne]]].
  - apply (lives_move _ _ r); try done; [right; left; rewrite E; by apply in_texts_spec|].
    intros _. by rewrite Ha.
  - apply (lives_move _ _ r); try done. right. right. right. split; [done|].
    apply list_elem_of_In in Hs. simpl in Hs. by destruct Hs as [<- | [<- | [<- | [<- | []]]]].
  - apply lives_once. rewrite life_runs.
    apply (ls_give_up _ _ (run_life_of r) att); [by apply life_run|done..|].
    apply list_elem_of_In in Hs. cbn. apply list_elem_of_In. simpl in *. naive_solver.
Qed.

(** The rows of an attempt given up, after the closing. *)
Ltac give_up_tail Hsw := eapply leads_switch_run; [eassumption|eassumption|]; do 3 follow_step;
  unfold end_thread; eapply leads_thread_of;
  [ cbn; apply lookup_insert_eq | intros ?; cbn; tauto
  | intros c3 L3 R3; follow; intros _; (etrans; [|by apply lives_event]);
    (etrans; [|exact L3]); (apply Hsw; [done|done| |]) ].
Lemma fail_unbound_steps c run_id att n cat owner retryable actor key :
  steps c (fail_unbound_run run_id att n cat owner retryable actor key).
Proof.
  unfold fail_unbound_run. do 3 follow_step. unfold fail_unbound_body. do 8 follow_step. follow_step.
  apply (leads_weaken _ _ (λ _ c', c' = c)); [by follow|]. intros _ ? ->. do 6 follow_step.
  bools. match goal with H : c_attempts c !! att = Some ?x |- _ => rename x into at0, H into Hat end.
  assert (lf_bound (life_of_core c) !! att = Some false) as Hb.
  { rewrite (life_bound _ _ at0) by done. by rewrite unbound. }
  match goal with H : in_texts _ _ = true |- _ => apply in_texts_spec in H; rename H into Hst end.
  assert (∀ c0 st kept t, c_runs c0 = c_runs c → lf_bound (life_of_core c0) = lf_bound (life_of_core c) →
    lives c c0 →
    (st = "canceled" ∧ ru_state r = "cancel_requested" ∧ kept = att ∧
       nothing_pending run_id (Some att) (life_of_core c0)) ∨
    (st = "failed" ∧ kept = att) ∨ (st = "paused" ∧ ru_state r ≠ "cancel_requested") →
    lives c (in_attempts (alter (at_give_up t) att) (in_runs <[run_id := ru_switch st kept t r]> c0)))
    as Hsw.
  { intros c0 st kept t E1 E2 L0 Hor. etrans; [|by apply lives_same, life_attempts_alter].
    etrans; [exact L0|]. apply (lives_switch _ _ _ _ _ att); [by rewrite E1|done|by rewrite E2|done..]. }
  destruct (String.eqb_spec (ru_state r) "cancel_requested") as [Ec|Ec], a2 as [[src sa]|];
    follow; try discriminate; give_up_tail Hsw;
    first [ apply lives_dropped | reflexivity
          | left; (split_and!; [done..|apply dropped_nothing]) | by right; right | by right; left ].
Qed.

Lemma restart_steps c run_id n source target op reason actor key :
  restarts source target →
  steps c (restart_attempt run_id n source target op reason actor key).
Proof.
  intros Hre. unfold restart_attempt. follow_step. unfold restart_body. do 8 follow_step.
  rename r0 into th, H3 into Hth, H4 into Hown. bools. follow. apply leads_insert_attempt. intros Hnew.
  follow_step. eapply leads_switch_run; [eassumption|eassumption|].
  follow_step. eapply (leads_execute _ _ (in_threads (alter (th_start run_id _) (ru_thread_id r))));
    [done|]. follow. intros _. etrans; [|by apply lives_event].
  match goal with |- lives c (in_threads _ (in_runs _ (in_attempts _ ?d))) => set (c1 := d) in * end.
  transitivity c1; [apply lives_dropped|].
  match goal with |- lives c1 (in_threads _ (in_runs _ ?d)) => set (c2 := d) end.
  assert (lives c1 c2) as L2.
  { apply lives_once. unfold c2. rewrite life_attempts. apply ls_attempt; [|done].
    unfold life_of_core, lf_bound. by rewrite lookup_fmap, Hnew. }
  etrans; [exact L2|]. unfold in_threads. rewrite (alter_known _ _ _ th) by done.
  apply lives_once. eapply eq_rect;
    [apply (ls_restart _ run_id (run_life_of r) (th_active_run_id th) target i)|].
  - by apply life_run.
  - cbn. by subst source.
  - by apply life_thread.
  - destruct (th_active_run_id th); [right|by left]. by bools; subst.
  - apply (nothing_pending_same _ _ c1); [done|].
    change (rl_active (run_life_of r)) with (ru_active_attempt_id r).
    destruct (ru_active_attempt_id r) as [p|]; [apply dropped_nothing|]. by intros ? ? _ _ [=].
  - cbn. by rewrite fmap_insert, lookup_insert_eq.
  - unfold life_of_core. cbn. by rewrite !fmap_insert.
Qed.
Lemma resume_run_steps c run_id n actor key : steps c (resume_run run_id n actor key).
Proof. apply restart_steps. by left. Qed.
Lemma retry_run_steps c run_id n reason actor key : steps c (retry_run run_id n reason actor key).
Proof. unfold retry_run. do 2 follow_step. apply restart_steps. by right. Qed.
End Steps.
#[export] Hint Resolve keeps_run_and_attempt keeps_thread keeps_runtime_binding
  keeps_paused_source_attempt keeps_reservation_held keeps_event_replay keeps_message keeps_decision
  keeps_decision_options keeps_public_text : keeps.
#[export] Hint Extern 1 (keeps _ (fence_artifact_materializations_for_attempt _ _ _)) =>
  (apply keeps_fence_materials; intros; reflexivity) : keeps.
#[export] Hint Extern 1 (keeps _ (expire_decisions _ _)) =>
  (apply keeps_expire; intros; reflexivity) : keeps.
#[export] Hint Extern 1 (keeps _ (insert_pin_release _ _ _ _)) =>
  (apply keeps_insert_pin; intros; reflexivity) : keeps.
#[export] Hint Extern 1 (keeps _ (release_pin_of _ _ _)) =>
  (apply keeps_release_pin_of; intros; reflexivity) : keeps.
#[export] Hint Extern 1 (keeps _ (save_runtime_event _ _ _ _)) =>
  (apply keeps_save_event; intros; reflexivity) : keeps.
#[export] Hint Extern 1 (keeps _ (insert_paused_source_releases _ _ _)) =>
  (apply keeps_insert_sources; intros; reflexivity) : keeps.
