(* ===== verification/QueueSteps.v ===== *)
(** * The steps of the queue and container commands

    The commands of the delivery queues and of the containers, as steps of the
    abstract machine of [RunLife]. *)

From S2P Require Import Prelude PyText Clock Json Schema Store Threads ThreadFacts Runs RuntimeActions PinReleases RuntimeFacts PinFacts RunClosing ClosingFacts RuntimeSessions Resources Dispatch RuntimeEvents RunLife RunCalls RunSteps.
Open Scope Z_scope.

Section QueueSteps.
Context `{Env}.
Implicit Types c : core.

Notation steps c m := (leads c m (λ _ c', lives c c')).

(** ** Deliveries *)

Lemma keeps_replay_current {V} (view : db → V) st cl worker epoch :
  keeps (λ w, view (w_db w)) (claim_replay_is_current st cl worker epoch).
Proof. unfold claim_replay_is_current. case_match; eauto with keeps. Qed.
Lemma keeps_dicts {V} (view : db → V) l : keeps (λ w, view (w_db w)) (action_dicts l).
Proof.
  apply keeps_map_m. intros x. apply keeps_bind; [apply keeps_runtime_action|].
  intros [r v]. eauto with keeps.
Qed.
Lemma keeps_check_lease' {V} (view : db → V) n : keeps (λ w, view (w_db w)) (check_lease n).
Proof. apply keeps_ensure. Qed.
Lemma keeps_check_epoch' {V} (view : db → V) n : keeps (λ w, view (w_db w)) (check_epoch n).
Proof. apply keeps_ensure. Qed.
Hint Resolve keeps_replay_current keeps_dicts keeps_check_lease' keeps_check_epoch' : keeps.
Hint Extern 1 (keeps _ (save_receipt _ _ _ _ _ _)) => (by apply keeps_save_receipt) : keeps.

Lemma lives_taken c i a worker expires o :
  c_actions c !! i = Some a → ra_state a = act_pending →
  (taken a ∨ current (life_of_core c) a) →
  lives c (in_actions <[i := ra_lease worker expires o a]> c).
Proof.
  intros Ha Hp Ht. apply lives_once. rewrite life_actions. apply (ls_action _ i a); [done|].
  split_and!; [done..|]. cbn. tauto.
Qed.
Lemma leads_claim_command c a o k request cur target body (Q : command_result → core → Prop) :
  (∀ r, keeps (λ w, core_of (w_db w)) (cur r)) → (∀ r, Q r c) →
  leads c body (λ _ c', ∀ r, Q r c') → leads c (claim_command a o k request cur target body) Q.
Proof.
  intros Hk Hc Hb. unfold claim_command. follow; [apply Hc|].
  eapply leads_weaken; [exact Hb|]. intros v c' Hq. apply leads_keeps; [eauto with keeps|auto].
Qed.

Lemma delivery_not_final kind state :
  known_kind kind → delivery_blocked kind state = false → is_final state = false.
Proof.
  intros [s Hs]. unfold delivery_blocked. rewrite Hs. intros E%negb_false_iff%String.eqb_eq. subst.
  unfold delivery_state in Hs. repeat case_match; simplify_eq; done.
Qed.
Lemma claim_action_steps c id worker lease actor key :
  life_inv (life_of_core c) → steps c (claim_runtime_action id worker lease actor key).
Proof.
  intros Hinv. unfold claim_runtime_action. do 4 follow_step. apply leads_claim_command; [|reflexivity|].
  { intros r. apply keeps_bind; [eauto with keeps|intros []; eauto with keeps]. }
  unfold claim_action_body. follow. apply leads_update_action; [|by follow].
  intros a' Ha' Hp. follow. intros _. bools.
  simplify_eq. apply lives_taken; [done|done|]. right.
  exists (run_life_of r). split; [by apply life_run|]. split; [done|].
  eapply delivery_not_final; [|done]. by eapply (li_bound _ Hinv).
Qed.
Lemma claim_reconciliation_steps c id worker lease actor key :
  steps c (claim_runtime_action_reconciliation id worker lease actor key).
Proof.
  unfold claim_runtime_action_reconciliation. do 4 follow_step.
  apply leads_claim_command; [|reflexivity|].
  { intros r. apply keeps_bind; [eauto with keeps|intros []; case_match; eauto with keeps]. }
  unfold claim_reconciliation_body. follow. apply leads_update_action; [|by follow].
  intros a' Ha' Hp. follow. intros _. bools. apply lives_taken; [done|done|]. left. right.
  match goal with H : inspectable _ a' = true |- _ => revert H end.
  unfold inspectable. rewrite orb_true_iff, andb_true_iff, !bool_decide_eq_true.
  intros [-> | [-> _]]; discriminate.
Qed.

(** The four settlements by category. *)
Lemma settle_body_steps c id o e n fence target allowed change finish ty cat :
  (∀ a, keeps (λ w, core_of (w_db w)) (fence a)) →
  (∀ t a, fenced o e allowed a = true → action_moved (life_of_core c) a (change t a)) →
  (∀ a r t c', c_runs c' !! ra_run_id a = Some r → ru_revision r = n → steps c' (finish a r t)) →
  steps c (settle_body id o e n fence target allowed change finish ty cat).
Proof.
  intros Hf Hch Hfin. unfold settle_body. do 2 follow_step. apply leads_bind, leads_keeps; [apply Hf|].
  intros held. follow. apply leads_update_action; [|by follow]. intros a' Ha' Hp.
  do 3 follow_step. eapply leads_weaken; [apply Hfin; eassumption|]. intros u c1 L1.
  follow. etrans; [|by apply lives_event]. etrans; [|exact L1].
  apply lives_once. rewrite life_actions. apply (ls_action _ id a'); [done|]. by apply Hch.
Qed.
Lemma bump_run_steps c n a r t :
  c_runs c !! ra_run_id a = Some r → ru_revision r = n → steps c (bump_run n a r t).
Proof.
  intros Hr Hn. unfold bump_run. eapply leads_update_run; [exact Hr|done|]. by apply lives_bump.
Qed.
Lemma reject_finish_steps c n a r t :
  c_runs c !! ra_run_id a = Some r → ru_revision r = n → steps c (reject_finish n a r t).
Proof.
  intros Hr Hn. unfold reject_finish. destruct (_ && _) eqn:E.
  - bools. do 2 follow_step. eapply leads_update_run; [exact Hr|done|].
    etrans; [by apply lives_same, (life_attempts_alter _ (ra_attempt_id a) (at_state_to "running"))|].
    apply lives_touch; [done|right; right; by left|done].
  - eapply leads_update_run; [exact Hr|done|]. by apply lives_bump.
Qed.
Lemma keeps_reject_core o e a : keeps (λ w, core_of (w_db w)) (reject_fence o e a).
Proof. apply keeps_reject_fence. Qed.
Lemma moved_settled l a st t cat : st ≠ act_pending → action_moved l a (ra_settle st t cat a).
Proof. done. Qed.
Lemma moved_released l o e allowed a cat out :
  fenced o e allowed a = true → action_moved l a (ra_release cat out a).
Proof.
  unfold fenced. intros Hf. bools. split_and!; [done..|]. intros _. split; [done|]. intros _. left. left.
  match goal with H : claim_is _ _ _ = true |- _ => unfold claim_is in H end. bools.
  match goal with H : cl_owner _ = _ |- _ => rewrite H end. done.
Qed.

Lemma reject_steps c id o e n cat actor key :
  steps c (reject_runtime_action id o e n cat actor key).
Proof.
  unfold reject_runtime_action. follow.
  eapply leads_weaken; [apply settle_body_steps|done]; [apply keeps_reject_core|done|intros; by apply reject_finish_steps].
Qed.
Lemma mark_steps c id o e n cat actor key :
  steps c (mark_runtime_action_outcome_unknown id o e n cat actor key).
Proof.
  unfold mark_runtime_action_outcome_unknown. follow.
  eapply leads_weaken; [apply settle_body_steps|done];
    [eauto with keeps|intros; by eapply moved_released|intros; by apply bump_run_steps].
Qed.
Lemma defer_steps c id o e n cat actor key :
  steps c (defer_runtime_action_reconciliation id o e n cat actor key).
Proof.
  unfold defer_runtime_action_reconciliation. follow.
  eapply leads_weaken; [apply settle_body_steps|done];
    [eauto with keeps|intros; by eapply moved_released|intros; by apply bump_run_steps].
Qed.
Lemma retry_delivery_steps c id o e n actor key :
  steps c (retry_runtime_action_delivery id o e n actor key).
Proof.
  unfold retry_runtime_action_delivery. follow.
  eapply leads_weaken; [apply settle_body_steps|done];
    [eauto with keeps|intros; by eapply moved_released|intros; by apply bump_run_steps].
Qed.

Lemma acknowledge_steps c id run_id att b rel n g o e actor key :
  steps c (acknowledge_runtime_action id run_id att b rel n g o e actor key).
Proof.
  unfold acknowledge_runtime_action. do 7 follow_step. unfold acknowledge_body. follow.
  apply leads_update_action; [|by follow]. intros a' Ha' Hp. follow; intros _;
    (etrans; [|by apply lives_event]); (etrans; [eapply (lives_settled _ id a' act_acked); [exact Ha'|done]|]); bools.
  - etrans; [|apply lives_same, life_attempts_alter; done]. apply lives_touch; [done| |done].
    right. left. match goal with H : ru_state r = _ |- _ => rewrite H end. by apply in_texts_spec.
  - by apply lives_bump.
Qed.

(** A delivery that fails takes its run with it: the run was waiting for it. *)
Lemma fail_steps c id o e n cat actor key :
  life_inv (life_of_core c) → steps c (fail_runtime_action id o e n cat actor key).
Proof.
  intros Hinv. unfold fail_runtime_action. follow. unfold fail_body. follow.
  apply leads_update_action; [|by follow]. intros a' Ha' Hp.
  match goal with H : c_actions c !! id = Some ?x |- _ => assert (a' = x) as -> by congruence end.
  match goal with H : c_runs c !! _ = Some _ |- _ => rename H into Hr end.
  rename a2 into a'.
  assert (run_moves (ru_state r) "failed") as Hmv.
  { right. right. split; [done|]. unfold fenced in Hp. bools.
    destruct (li_current _ Hinv id a') as (x & Hx & _ & Hf); [done|done| |].
    - left. match goal with H : claim_is _ _ _ = true |- _ => unfold claim_is in H end. bools.
      match goal with H : cl_owner _ = _ |- _ => rewrite H end. done.
    - rewrite (life_run _ _ r) in Hx by done. by injection Hx as <-. }
  follow. unfold fail_thread. eapply leads_thread_of; [cbn; apply lookup_insert_eq| |].
  { intros th. by right. }
  intros c3 L3 R3. follow. intros _. etrans; [|by apply lives_event]. etrans; [|exact L3].
  etrans; [eapply (lives_settled _ id a' act_failed); [exact Ha'|done]|].
  etrans; [|apply lives_same, life_attempts_alter; done].
  apply lives_touch; [done|by right|done].
Qed.

(** ** Pin releases, and listings *)

Lemma keeps_update_pin {V} (view : db → V) id p f :
  (∀ g d, view (set_pin_releases g d) = view d) → keeps (λ w, view (w_db w)) (update_pin id p f).
Proof.
  intros Hv. unfold update_pin. apply keeps_bind; [eauto with keeps|intros [r|]]; [|eauto with keeps].
  case_match; [apply keeps_bind; [by apply keeps_execute_view|]|]; eauto with keeps.
Qed.
Hint Extern 1 (keeps _ (update_pin _ _ _)) => (apply keeps_update_pin; intros; reflexivity) : keeps.
Ltac bumped := follow; try intros _; (etrans; [|by apply lives_event]); by apply lives_bump.
Lemma claim_pin_steps c id worker lease actor key : steps c (claim_pin_release id worker lease actor key).
Proof.
  unfold claim_pin_release. do 4 follow_step. apply leads_claim_command; [|reflexivity|].
  { intros r. apply keeps_bind; [eauto with keeps|intros []; eauto with keeps]. }
  unfold claim_pin_body. follow. by intros _.
Qed.
Lemma settle_pin_steps c id o e n target cat actor key :
  steps c (settle_pin_release id o e n target cat actor key).
Proof. unfold settle_pin_release, settle_pin_body. bumped. Qed.
Lemma retry_pin_steps c id n actor key : steps c (retry_pin_release id n actor key).
Proof. unfold retry_pin_release, retry_pin_body. bumped. Qed.

Lemma keeps_listing_of {V} (view : db → V) l :
  keeps (λ w, view (w_db w)) (map_m (λ x : string * pin_row, '(_, v) ← pin_release x.1; mret v) l).
Proof.
  apply keeps_map_m. intros x. apply keeps_bind; [eauto with keeps|]. intros [r v]. eauto with keeps.
Qed.
Hint Resolve keeps_listing_of : keeps.
Lemma leads_loud c (m : Store command_result) : steps c m → steps c (loud m).
Proof. intros Hm. apply leads_bind. eapply leads_weaken; [exact Hm|]. intros. by apply leads_ret. Qed.
Lemma runtime_steps c (m : runtime_command) :
  life_inv (life_of_core c) → steps c (run_runtime m).
Proof.
  intros Hinv. destruct m; simpl.
  - unfold quiet, list_pending_runtime_actions. by follow.
  - unfold quiet, list_runtime_actions_requiring_reconciliation. by follow.
  - apply leads_loud, claim_action_steps, Hinv.
  - apply leads_loud, acknowledge_steps.
  - apply leads_loud, fail_steps, Hinv.
  - apply leads_loud, reject_steps.
  - apply leads_loud, mark_steps.
  - apply leads_loud, claim_reconciliation_steps.
  - apply leads_loud, defer_steps.
  - apply leads_loud, retry_delivery_steps.
  - unfold quiet, list_pending_pin_releases. by follow.
  - apply leads_loud, claim_pin_steps.
  - apply leads_loud, settle_pin_steps.
  - apply leads_loud. unfold fail_pin_release. do 2 follow_step. apply settle_pin_steps.
  - apply leads_loud, retry_pin_steps.
Qed.

(** ** Containers *)

Lemma leads_update_thread c id n t (Q : unit → core → Prop) :
  (∀ c', life_of_core c' = life_of_core c → Q tt c') → leads c (update_revision_thread id n t) Q.
Proof.
  intros Hq w u w' <- Hm. apply update_revision_thread_ok in Hm as (r & Hr & _ & ->).
  destruct u. apply Hq. by apply (life_threads_same (core_of (w_db w)) _ _ r).
Qed.
Lemma keeps_update_workspace {V} (view : db → V) id n t :
  (∀ f d, view (set_workspaces f d) = view d) →
  keeps (λ w, view (w_db w)) (update_revision_workspace id n t).
Proof.
  intros Hv. unfold update_revision_workspace. apply keeps_bind; [eauto with keeps|intros [r|]].
  - case_match; [by apply keeps_execute_view|]. unfold workspace.
    repeat (apply keeps_bind; [eauto with keeps|intros]). case_match. eauto with keeps.
  - unfold workspace. repeat (apply keeps_bind; [eauto with keeps|intros]). case_match. eauto with keeps.
Qed.
Lemma keeps_workspace {V} (view : db → V) id : keeps (λ w, view (w_db w)) (workspace id).
Proof. unfold workspace. repeat (apply keeps_bind; [eauto with keeps|intros]). eauto with keeps. Qed.
Hint Resolve keeps_workspace : keeps.
Hint Extern 1 (keeps _ (update_revision_workspace _ _ _)) =>
  (apply keeps_update_workspace; intros; reflexivity) : keeps.
Hint Extern 1 (keeps _ (audit _ _ _ _)) => (by apply keeps_audit) : keeps.

Lemma leads_thread_row c i (Q : option thread_row → core → Prop) :
  Q (c_threads c !! i) c → leads c (query (λ d, threads d !! i)) Q.
Proof. intros Hq. apply leads_query_keeps. by intros d <-. Qed.

Ltac follow_threads := repeat first
  [ follow_step
  | lazymatch goal with
    | |- leads _ (update_revision_thread _ _ _) _ => apply leads_update_thread; intros ? ?
    | |- leads _ (execute (set_threads (alter _ _))) _ => apply leads_alter_thread; [done|intros ? ? ?]
    end ].
Ltac same := match goal with
  | H : life_of_core ?c = _ |- lives _ ?c => apply lives_same; congruence
  | |- lives ?c ?c => reflexivity end.

Lemma create_thread_life c workspace_id title n actor key :
  steps c (create_thread workspace_id title n actor key).
Proof.
  unfold create_thread, create_thread_body.
  repeat first [apply leads_bind, leads_thread_row | follow_step]. bools. apply (leads_execute _ _ (in_threads <[i := ThreadRow workspace_id a "idle" None 0 a1 a1 None]>)); [done|].
  follow. intros _. apply lives_once. rewrite life_threads. apply ls_thread.
  match goal with H : c_threads c !! _ = None |- _ => cbn; by rewrite lookup_fmap, H end.
Qed.
Lemma set_archived_life c thread_id archived n actor key :
  steps c (set_thread_archived thread_id archived n actor key).
Proof. unfold set_thread_archived, set_archived_body. follow_threads; intros _; same. Qed.
Lemma container_life c (m : container_cmd) : steps c (run_container m).
Proof.
  destruct m; simpl.
  - unfold create_workspace, create_workspace_body. by follow.
  - apply create_thread_life.
  - unfold rename_workspace, rename_workspace_body. by follow.
  - unfold rename_thread, rename_thread_body. follow_threads; intros _; same.
  - apply set_archived_life.
  - apply set_archived_life.
  - unfold append_message, append_message_body. follow_threads; intros _; same.
Qed.
End QueueSteps.
