(* ===== verification/LifeSessions.v ===== *)
(** * Runs over time

    Sequences of every command modelled that touches a run, its attempts, its
    thread or its deliveries, in any order and with any number of refusals. *)

From S2P Require Import Prelude PyText Clock Json Schema Store Threads ThreadFacts Runs RuntimeActions PinReleases RuntimeFacts PinFacts RunClosing ClosingFacts RuntimeSessions Resources Dispatch RuntimeEvents Decisions RunRestart RunLife RunCalls RunSteps QueueSteps.
Open Scope Z_scope.

Inductive run_command :=
| ContainerCommand (m : container_cmd)
| QueueCommand (m : runtime_command)
| CreateRun (thread_id : string) (revision : Z) (actor key : string)
| CreateBinding (thread_id adapter session : string) (generation : Z) (version : string)
    (parent : option string) (actor key : string)
| ReserveDispatch (run_id attempt_id owner : string) (i : runtime_identity) (revision lease : Z)
    (actor key : string)
| PinRuntime (run_id attempt_id binding release : string) (revision : Z)
    (generation owner : option string) (actor key : string)
| TransitionRun (run_id target : string) (revision : Z) (actor key : string) (stage : option string)
    (payload : list (string * json)) (attempt_id binding release generation : option string) (c : cause)
| RuntimeTransition (run_id target : string) (s : sender) (revision : Z) (actor key : string)
    (stage : option string) (payload : list (string * json)) (c : cause)
| RuntimeMessage (run_id : string) (s : sender) (content : string) (revision : Z)
    (actor key : string) (c : cause)
| Checkpoint (run_id : string) (s : sender) (uri : string) (revision : Z) (actor key : string)
    (c : cause)
| AskDecision (run_id : string) (s : sender) (kind prompt : string)
    (options : list (list (string * json))) (ref : option string) (ref_revision : option Z)
    (revision : Z) (actor key : string) (c : cause)
| ResolveDecision (id choice : string) (revision : Z) (actor key : string)
| FailUnbound (run_id attempt_id : string) (revision : Z) (category : string)
    (owner : option string) (retryable : bool) (actor key : string)
| ResumeRun (run_id : string) (revision : Z) (actor key : string)
| RetryRun (run_id : string) (revision : Z) (reason actor key : string).

Section LifeSessions.
Context `{Env} `{UnicodeChecks}.

Definition run_command_of (m : run_command) : Store (option command_result) :=
  match m with
  | ContainerCommand m => loud (run_container m)
  | QueueCommand m => run_runtime m
  | CreateRun t n a k => loud (create_run t n a k)
  | CreateBinding t ad s g v p a k => loud (create_runtime_binding t ad s g v p a k)
  | ReserveDispatch r t o i n l a k => loud (reserve_attempt_dispatch r t o i n l a k)
  | PinRuntime r t b rel n g o a k => loud (pin_attempt_runtime r t b rel n g o a k)
  | TransitionRun r t n a k st p at_ b rel g c => loud (transition_run r t n a k st p at_ b rel g c)
  | RuntimeTransition r t s n a k st p c => loud (apply_runtime_transition r t s n a k st p c)
  | RuntimeMessage r s x n a k c => loud (append_runtime_message r s x n a k c)
  | Checkpoint r s u n a k c => loud (commit_checkpoint r s u n a k c)
  | AskDecision r s ki p o ref rr n a k c => loud (create_decision r s ki p o ref rr n a k c)
  | ResolveDecision i x n a k => loud (resolve_decision i x n a k)
  | FailUnbound r t n cat o re a k => loud (fail_unbound_run r t n cat o re a k)
  | ResumeRun r n a k => loud (resume_run r n a k)
  | RetryRun r n re a k => loud (retry_run r n re a k)
  end.
(** A command that raises is followed by the next one all the same. *)
Definition run_session (cmds : list run_command) (w : world) : world :=
  fold_left (λ w m, end_world (run_command_of m w)) cmds w.

Lemma run_command_steps c m :
  life_inv (life_of_core c) → leads c (run_command_of m) (λ _ c', lives c c').
Proof.
  intros Hinv. destruct m; simpl;
    [| by apply runtime_steps |..]; apply leads_loud.
  - apply container_life.
  - apply create_run_steps.
  - apply create_runtime_binding_steps.
  - apply reserve_attempt_dispatch_steps.
  - apply pin_attempt_runtime_steps.
  - by apply transition_run_steps.
  - by apply apply_runtime_transition_steps.
  - apply append_runtime_message_steps.
  - apply commit_checkpoint_steps.
  - apply create_decision_steps.
  - apply resolve_decision_steps.
  - apply fail_unbound_steps.
  - apply resume_run_steps.
  - apply retry_run_steps.
Qed.

(** Every command is all or nothing. *)
Lemma atomic_event_command a o k fields att cs body :
  atomic (event_command a o k fields att cs body).
Proof. apply atomic_transaction. Qed.
Lemma keeps_required_opt_db o name n : keeps w_db (required_opt o name n).
Proof. unfold required_opt. destruct o; eauto with keeps. Qed.
Lemma keeps_options_db l : keeps w_db (validate_decision_options l).
Proof. exact (keeps_decision_options (λ d, d) l). Qed.
Lemma keeps_public_db v name n : keeps w_db (public_text v name n).
Proof. exact (keeps_public_text (λ d, d) v name n). Qed.
Lemma keeps_lease_db n : keeps w_db (check_lease n).
Proof. apply keeps_ensure. Qed.
Lemma keeps_uri_db (r : string + resource_uri) :
  keeps w_db (match r with inl e => raise (ValueError e) | inr u => mret u end : Store resource_uri).
Proof. destruct r; eauto with keeps. Qed.
Lemma keeps_ref_db (r : option string) name n :
  keeps w_db (match r with Some x => x ← required_text x name n; mret (Some x) | None => mret None end
    : Store (option string)).
Proof. destruct r; eauto with keeps. Qed.
Hint Resolve keeps_required_opt_db keeps_options_db keeps_public_db keeps_lease_db keeps_uri_db
  keeps_ref_db atomic_event_command : keeps.
Ltac all_or_nothing := repeat first
  [ solve [eauto with keeps] | apply atomic_bind; [solve [eauto with keeps]|intros] ].

Lemma run_container_atomic m : atomic (run_container m).
Proof.
  destruct m; simpl; unfold create_workspace, create_thread, rename_workspace, rename_thread,
    archive_thread, unarchive_thread, set_thread_archived, append_message; all_or_nothing.
Qed.
Lemma run_command_atomic m : atomic (run_command_of m).
Proof.
  destruct m; simpl; [|apply run_runtime_atomic|..]; apply atomic_loud;
    [apply run_container_atomic|..];
    unfold create_run, create_runtime_binding, reserve_attempt_dispatch, pin_attempt_runtime,
      apply_runtime_transition, transition_run, append_runtime_message, commit_checkpoint,
      create_decision, resolve_decision, fail_unbound_run, resume_run, retry_run, restart_attempt;
    all_or_nothing.
Qed.

Lemma run_session_steps cmds : ∀ w, life_inv (life_of (w_db w)) →
  rtc life_step (life_of (w_db w)) (life_of (w_db (run_session cmds w))).
Proof.
  induction cmds as [|m cmds IH]; intros w Hinv; [reflexivity|].
  unfold run_session. simpl. fold (run_session cmds (end_world (run_command_of m w))).
  assert (rtc life_step (life_of (w_db w)) (life_of (w_db (end_world (run_command_of m w))))) as Hm.
  { destruct (run_command_of m w) as [r w'|e w'] eqn:E; simpl.
    - exact (run_command_steps _ m Hinv w r w' eq_refl E).
    - by rewrite (run_command_atomic m w e w' E). }
  etrans; [exact Hm|]. apply IH. by eapply life_steps_inv.
Qed.
Lemma empty_life t n : life_inv (life_of (w_db (World empty_db t n))).
Proof.
  split; cbn; [intros i r|intros i a|intros i a|]; rewrite ?fmap_empty; by rewrite ?lookup_empty.
Qed.
Lemma run_session_inv cmds t n : life_inv (life_of (w_db (run_session cmds (World empty_db t n)))).
Proof. eapply life_steps_inv; [apply (empty_life t n)|]. apply run_session_steps, empty_life. Qed.

(** The life of a row of the tables. *)
Lemma run_row_life d i r : runs d !! i = Some r → lf_runs (life_of d) !! i = Some (run_life_of r).
Proof. apply (life_run (core_of d)). Qed.
End LifeSessions.
