(* ===== verification/RunTables.v ===== *)
(** * The tables of a run over time

    What the commands of [LifeSessions] may do to two tables, each row of them
    written by several components: the messages of a thread, stored by an
    operator and by a runtime, and the deliveries, moved by the queue and closed
    by the commands that move their run. *)

From S2P Require Import Prelude PyText Clock Json Schema Store Threads ThreadFacts Runs RuntimeActions PinReleases RuntimeFacts PinFacts RunClosing ClosingFacts RuntimeSessions Resources Dispatch RuntimeEvents Decisions RunRestart RunLife RunCalls RunSteps QueueSteps LifeSessions.
Open Scope Z_scope.

(** A runtime command evolves a view of the tables as its body does. *)
Section View.
Context `{Env} {V : Type} (view : db → V) (R : world → world → Prop) `{!PreOrder R}
  (same : ∀ w w', view (w_db w') = view (w_db w) → R w w')
  (no_receipts : ∀ f d, view (set_receipts f d) = view d).

Lemma view_event_command a o k fields att c body :
  (∀ f d, view (set_inbox f d) = view d) →
  evolves R body → evolves R (event_command a o k fields att c body).
Proof.
  intros Hi Hb. apply (view_transaction view R same).
  apply evolves_bind; [done|by apply (view_keeps view R same), keeps_receipt|intros [r|]];
    [by apply evolves_ret|].
  apply evolves_bind; [done|apply (view_keeps view R same), keeps_event_replay|intros [r|]];
    [by apply evolves_ret|].
  apply evolves_bind; [done|done|intros [[v code] filed]].
  apply (view_keeps view R same). apply keeps_bind; [by apply keeps_save_receipt|intros r].
  apply keeps_bind; [by apply keeps_save_event|intros; apply keeps_ret].
Qed.
Lemma view_claim_command a o k request current target body :
  (∀ r, evolves R (current r)) → evolves R body →
  evolves R (claim_command a o k request current target body).
Proof.
  intros Hc Hb. apply (view_transaction view R same).
  apply evolves_bind; [done|by apply (view_keeps view R same), keeps_receipt|intros [r|]].
  - apply evolves_bind; [done|apply Hc|intros b]. apply (view_keeps view R same). eauto with keeps.
  - apply evolves_bind; [done|done|intros v]. apply (view_keeps view R same).
    by apply keeps_save_receipt.
Qed.
End View.

Lemma keeps_reference_view `{Env} {V} (view : db → V) (r : option string) name n :
  keeps (λ w, view (w_db w))
    (match r with Some x => x ← required_text x name n; mret (Some x) | None => mret None end
      : Store (option string)).
Proof. destruct r; eauto with keeps. Qed.
#[export] Hint Extern 1 (keeps _ (insert_message _ _)) =>
  (apply keeps_insert_message; intros; reflexivity) : keeps.
#[export] Hint Extern 1 (keeps _ (insert_decision _ _)) =>
  (apply keeps_insert_decision; intros; reflexivity) : keeps.
#[export] Hint Extern 1 (keeps _ (resolve_row _ _ _ _)) =>
  (apply keeps_resolve_row; intros; reflexivity) : keeps.
#[export] Hint Extern 1 (keeps _ (save_receipt _ _ _ _ _ _)) => (by apply keeps_save_receipt) : keeps.
#[export] Hint Extern 1 (keeps _ (audit _ _ _ _)) => (by apply keeps_audit) : keeps.
#[export] Hint Extern 1 (keeps _ (update_pin _ _ _)) =>
  (apply keeps_update_pin; intros; reflexivity) : keeps.
#[export] Hint Extern 1 (keeps _ (update_run _ _ _ _)) =>
  (apply keeps_update_run; intros; reflexivity) : keeps.
#[export] Hint Resolve keeps_replay_current keeps_dicts keeps_check_lease' keeps_check_epoch'
  keeps_listing_of keeps_workspace keeps_reference_view keeps_reject_fence keeps_outcome_fence
  keeps_required_opt' : keeps.

(** [tables] follows a command's code: what a hypothesis [Hc] says of its parts,
    what leaves the view alone, and the composition. *)
Ltac tables view R same := repeat first
  [ match goal with Hc : context [evolves R _] |- _ => simple apply Hc end
  | lazymatch goal with
    | |- evolves _ (transaction _) => apply (view_transaction view R same)
    | |- evolves _ (command _ _ _ _ _) => apply (view_command view R same); [done|]
    | |- evolves _ (event_command _ _ _ _ _ _ _) =>
        apply (view_event_command view R same); [done..|]
    | |- evolves _ (claim_command _ _ _ _ _ _ _) =>
        apply (view_claim_command view R same); [done|intros|]
    | |- evolves _ (map_m _ _) => apply evolves_map_m; [apply _|intros]
    | |- evolves _ (_ ≫= _) => apply evolves_bind; [apply _| |intros]
    | |- evolves _ (match _ with _ => _ end) => case_match
    | |- evolves _ (if _ then _ else _) => case_match
    | |- evolves _ _ => apply (view_keeps view R same); solve [eauto 3 with keeps]
    end ].

(** The code of the queue's commands, and of those that move a run. *)
Ltac queue_code := unfold quiet, loud, list_pending_runtime_actions,
  list_runtime_actions_requiring_reconciliation, action_dicts, list_pending_pin_releases,
  claim_runtime_action, claim_action_body, acknowledge_runtime_action, acknowledge_body,
  fail_runtime_action, fail_body, fail_thread, reject_runtime_action,
  mark_runtime_action_outcome_unknown, claim_runtime_action_reconciliation,
  claim_reconciliation_body, defer_runtime_action_reconciliation, retry_runtime_action_delivery,
  settle_body, reject_finish, bump_run, update_attempt_state, claim_pin_release, claim_pin_body,
  acknowledge_pin_release, fail_pin_release, settle_pin_release, settle_pin_body,
  retry_pin_release, retry_pin_body.
Ltac run_code := unfold loud, create_run, create_run_body, insert_run, create_runtime_binding,
  create_binding_body, reserve_attempt_dispatch, reserve_body, pin_attempt_runtime, pin_body,
  apply_runtime_transition, transition_run, transition_body, transition_settle, transition_rows,
  prepare_run_cancellation, append_runtime_message, commit_checkpoint, checkpoint_body,
  touch_run, create_decision, create_decision_body, resolve_decision, resolve_decision_body,
  resolve_workflow_decision, resolve_runtime_decision, resume_rows, fail_unbound_run,
  fail_unbound_body, resume_run, retry_run, restart_attempt, restart_body, switch_run,
  end_thread, insert_attempt, update_attempt, update_attempt_state.

Ltac container_code := unfold create_workspace, create_workspace_body, create_thread,
  create_thread_body, rename_workspace, rename_workspace_body, rename_thread, rename_thread_body,
  archive_thread, unarchive_thread, set_thread_archived, set_archived_body, append_message,
  append_message_body, update_revision_thread, update_revision_workspace.

(** ** Messages *)

Section Transcripts.
Context `{Env} `{UnicodeChecks}.

(** Messages stay as they were stored, and contiguous positions stay so. *)
Definition transcripts (w w' : world) : Prop :=
  messages (w_db w) ⊆ messages (w_db w') ∧ ∀ k, contiguous k (w_db w) → contiguous k (w_db w').
#[export] Instance transcripts_preorder : PreOrder transcripts.
Proof.
  split; [by split|]. intros w1 w2 w3 [H1 H2] [H3 H4]. split; [by etrans|auto].
Qed.
Lemma transcripts_same w w' : messages (w_db w') = messages (w_db w) → transcripts w w'.
Proof. intros E. unfold transcripts, contiguous, thread_positions. by rewrite E. Qed.

Lemma insert_message_ok i r w u w' : insert_message i r w = Ok u w' →
  messages (w_db w) !! i = None ∧ messages (w_db w') = <[i := r]> (messages (w_db w)).
Proof. unfold insert_message. intros Hi. mgo. by bools. Qed.
Lemma transcripts_container m : evolves transcripts (run_container m).
Proof.
  intros w. pose proof (container_session_steps [m] w) as [_ _ H1 H2 _]. by split.
Qed.
Ltac transcribe := tables messages transcripts transcripts_same.

(** The next position of a thread is read and taken within one call. *)
Lemma transcripts_insert {A} th role content (rest : string → string → Store A) :
  (∀ id t, evolves transcripts (rest id t)) →
  evolves transcripts (position ← query (next_position th); id ← new_id "msg"; t ← now;
    insert_message id (MessageRow th role content position t);; rest id t).
Proof.
  intros Hr w. unfold query, gets, new_id, now, utc_now, mbind, M_bind, mret, M_ret. simpl.
  set (w1 := World _ _ _). set (r := MessageRow _ _ _ _ _).
  assert (messages (w_db w1) = messages (w_db w)) as E by done.
  etrans; [by apply (transcripts_same w w1)|].
  destruct (insert_message (id_factory "msg" (w_ids w)) r w1) as [u w2|e w2] eqn:Hi.
  - etrans; [|apply Hr]. apply insert_message_ok in Hi as [Hn Hm]. split.
    + rewrite Hm. by apply insert_subseteq.
    + intros k. by apply (contiguous_append k (id_factory "msg" (w_ids w)) r).
  - apply transcripts_same. revert Hi. unfold insert_message, mbind, M_bind, query, gets, ensure,
      execute, modify, mret, M_ret, raise. cbn. by destruct (_ && _); intros [= _ <-].
Qed.
Lemma transcripts_confirm run_id r att c : evolves transcripts (confirm_runtime_resume run_id r att c).
Proof. unfold confirm_runtime_resume, update_action, update_attempt_state. transcribe. Qed.
Lemma transcripts_sent_by run_id s n c : evolves transcripts (sent_by run_id s n c).
Proof. pose proof transcripts_confirm. unfold sent_by. transcribe. Qed.
Lemma transcripts_message run_id s content n c :
  evolves transcripts (runtime_message_body run_id s content n c).
Proof.
  unfold runtime_message_body. apply evolves_bind; [apply _|apply transcripts_sent_by|intros [[r a] st]].
  apply evolves_bind; [apply _|apply evolves_ensure, _|intros _].
  apply evolves_bind; [apply _|transcribe|intros _].
  simple apply transcripts_insert. intros id t. unfold touch_run. transcribe.
Qed.
Lemma transcripts_fail_pending run_id att t :
  evolves transcripts (fail_pending_runtime_actions run_id att t).
Proof. unfold fail_pending_runtime_actions. transcribe. Qed.
Lemma transcripts_insert_action run_id att b rel kind p t :
  evolves transcripts (insert_runtime_action run_id att b rel kind p t).
Proof. unfold insert_runtime_action. transcribe. Qed.
Lemma transcripts_control run_id att kind t :
  evolves transcripts (insert_control_runtime_action run_id att kind t).
Proof. pose proof transcripts_insert_action. unfold insert_control_runtime_action. transcribe. Qed.
Lemma transcripts_update_action id p f : evolves transcripts (update_action id p f).
Proof. unfold update_action. transcribe. Qed.
Lemma transcripts_queue m : evolves transcripts (run_runtime m).
Proof. pose proof transcripts_update_action. destruct m; simpl; queue_code; transcribe. Qed.
Lemma run_command_transcripts m : evolves transcripts (run_command_of m).
Proof.
  pose proof transcripts_container. pose proof transcripts_queue. pose proof transcripts_confirm.
  pose proof transcripts_sent_by. pose proof transcripts_message.
  pose proof transcripts_fail_pending. pose proof transcripts_insert_action.
  pose proof transcripts_control. destruct m; simpl; run_code; transcribe.
Qed.
Lemma run_session_transcripts cmds w : transcripts w (run_session cmds w).
Proof.
  revert w. induction cmds as [|m cmds IH]; intros w; [reflexivity|].
  etrans; [apply run_command_transcripts|apply IH].
Qed.
End Transcripts.

(** ** Deliveries *)

(** The run a command moves, with what its runtime says of it. *)
Definition moved_run (m : run_command) : option (string * cause) :=
  match m with
  | TransitionRun r _ _ _ _ _ _ _ _ _ _ c | RuntimeTransition r _ _ _ _ _ _ _ c
  | RuntimeMessage r _ _ _ _ _ c | Checkpoint r _ _ _ _ _ c
  | AskDecision r _ _ _ _ _ _ _ _ _ c => Some (r, c)
  | FailUnbound r _ _ _ _ _ _ _ | ResumeRun r _ _ _ | RetryRun r _ _ _ _ => Some (r, no_cause)
  | _ => None
  end.
(** A delivery is closed with the attempt it is for, or acknowledged by an event
    of its runtime that names it and the epoch it was delivered at. *)
Definition closed_by (moved : option (string * cause)) (id : string) (a a' : action_row) : Prop :=
  ∃ c, moved = Some (ra_run_id a, c) ∧
  ((ra_state a' = act_failed ∧ ra_failure_category a' = Some "attempt_terminated") ∨
   (ra_state a' = act_acked ∧ is_Some (ca_event_id c) ∧
    ca_operation_id c = Some ("runtime-action:" +:+ id) ∧
    ca_delivery_epoch c = Some (cl_epoch (ra_claim a)) ∧ 1 <= cl_epoch (ra_claim a))).
Definition closing (moved : option (string * cause)) (w w' : world) : Prop :=
  ∀ id a, runtime_actions (w_db w) !! id = Some a →
  ∃ a', runtime_actions (w_db w') !! id = Some a' ∧
    (a' = a ∨ ra_state a = act_pending ∧ closed_by moved id a a').
Lemma closed_settled moved id a a' : closed_by moved id a a' → ra_state a' ≠ act_pending.
Proof. by intros (c & _ & [[-> _] | [-> _]]). Qed.
#[export] Instance closing_preorder moved : PreOrder (closing moved).
Proof.
  split; [intros w id a Ha; exists a; by split; [|left]|].
  intros w1 w2 w3 H12 H23 id a Ha. destruct (H12 id a Ha) as (b & Hb & Hab).
  destruct (H23 id b Hb) as (a' & Ha' & Hba). exists a'. split; [done|].
  destruct Hab as [-> | [Hp Hc]]; [done|]. right. split; [done|].
  destruct Hba as [-> | [Hp' _]]; [done|]. by apply closed_settled in Hc.
Qed.
Lemma closing_same moved w w' :
  runtime_actions (w_db w') = runtime_actions (w_db w) → closing moved w w'.
Proof. intros E id a Ha. exists a. rewrite E. by split; [|left]. Qed.

Section Closing.
Context `{Env} `{UnicodeChecks}.
Implicit Types moved : option (string * cause).

Lemma closing_fail_pending run_id c att t :
  evolves (closing (Some (run_id, c))) (fail_pending_runtime_actions run_id att t).
Proof.
  unfold fail_pending_runtime_actions. apply evolves_bind; [apply _|by apply evolves_gets, _|].
  intros rows. case_match; [apply evolves_ret, _|].
  apply evolves_bind; [apply _| |intros; apply evolves_ret, _]. apply evolves_modify.
  intros w id a Ha. simpl. rewrite lookup_update_where, Ha. simpl. eexists. split; [done|].
  destruct (pending_of run_id att a) eqn:Hp; [right|by left]. unfold pending_of in Hp. bools.
  split; [done|]. exists c. split; [by subst|]. by left.
Qed.
Lemma closing_insert_action moved run_id att b rel kind p t :
  evolves (closing moved) (insert_runtime_action run_id att b rel kind p t).
Proof.
  intros w. unfold insert_runtime_action, mbind, M_bind, new_id, query, gets, ensure, execute,
    modify, mret, M_ret, raise. cbn -[lookup insert].
  destruct (_ && _) eqn:Hfit; cbn -[lookup insert]; [|by apply closing_same].
  bools. intros id a Ha. exists a. split; [|by left]. cbn -[lookup insert].
  rewrite lookup_insert_ne; [done|]. intros E. cbn -[lookup insert] in *. rewrite E in *. congruence.
Qed.
Lemma closing_control moved run_id att kind t :
  evolves (closing moved) (insert_control_runtime_action run_id att kind t).
Proof.
  pose proof (closing_insert_action moved). unfold insert_control_runtime_action.
  tables runtime_actions (closing moved) (closing_same moved).
Qed.
(** An evolution step by step, from one world. *)
Lemma evolves_from {A B} (R : world → world → Prop) `{!PreOrder R} (m : Store A) (f : A → Store B) w :
  R w (end_world (m w)) → (∀ a w1, m w = Ok a w1 → R w1 (end_world (f a w1))) →
  R w (end_world ((m ≫= f) w)).
Proof.
  intros Hm Hf. unfold mbind, M_bind. destruct (m w) as [a w1|e w1]; [|done].
  etrans; [exact Hm|by apply Hf].
Qed.
Lemma closing_settle run_id c att id a t w :
  (id, a) ∈ actions_where (λ a, pending_of run_id att a
    && String.eqb (ra_kind a) "decision.resolve") (w_db w) →
  is_Some (ca_event_id c) → 1 <= cl_epoch (ra_claim a) →
  ca_operation_id c = Some ("runtime-action:" +:+ id) →
  ca_delivery_epoch c = Some (cl_epoch (ra_claim a)) →
  closing (Some (run_id, c)) w (end_world
    (update_action id (λ x, is_pending (ra_state x)) (ra_settle act_acked t None) w)).
Proof.
  intros [Ha Hp]%elem_of_actions_where He H1 Ho Hd. unfold pending_of in Hp. bools.
  assert (ra_state a = act_pending) as Hpend by done.
  unfold update_action, mbind, M_bind, query, gets, execute, modify, mret, M_ret.
  rewrite Ha. cbn -[lookup insert is_pending]. rewrite (bool_decide_eq_true_2 _ Hpend : is_pending _ = true).
  cbn -[lookup insert].
  intros i b Hb. cbn -[lookup insert]. destruct (decide (i = id)) as [-> | Hne].
  - rewrite lookup_insert_eq. eexists. split; [done|]. right. rewrite Ha in Hb. injection Hb as <-.
    split; [done|]. exists c. split; [by subst|]. right. by split_and!.
  - exists b. rewrite lookup_insert_ne by done. by split; [|left].
Qed.
Lemma closing_confirm run_id r att c :
  evolves (closing (Some (run_id, c))) (confirm_runtime_resume run_id r att c).
Proof.
  unfold confirm_runtime_resume. destruct (ca_event_id c) eqn:He; [|apply evolves_ret, _].
  case_match; [|apply evolves_ret, _]. intros w. apply evolves_from; [apply _|reflexivity|].
  intros rows ? [E ->]%query_ok. destruct rows as [|[id a] [|]]; [apply evolves_raise, _| |apply evolves_raise, _].
  assert ((id, a) ∈ actions_where (λ a, pending_of run_id att a
    && String.eqb (ra_kind a) "decision.resolve") (w_db w)) as Hin by (rewrite <- E; left).
  apply evolves_from; [apply _|apply evolves_ensure, _|]. intros [] ? (Hchk & _ & ->)%ensure_ok. bools.
  apply evolves_from; [apply _|by apply closing_same|]. intros t w1 [-> ->]%now_ok.
  apply evolves_from; [apply _|apply (closing_settle run_id c att id a); try done; lia|].
  intros n w2 _. revert w2. apply (view_keeps runtime_actions _ (closing_same _)).
  unfold update_attempt_state. eauto 10 with keeps.
Qed.
Lemma closing_sent_by run_id s n c : evolves (closing (Some (run_id, c))) (sent_by run_id s n c).
Proof.
  pose proof (λ r att, closing_confirm run_id r att c). unfold sent_by.
  tables runtime_actions (closing (Some (run_id, c))) (closing_same (Some (run_id, c))).
Qed.
Definition is_queue (m : run_command) : bool := match m with QueueCommand _ => true | _ => false end.
Lemma run_command_closing m : is_queue m = false → evolves (closing (moved_run m)) (run_command_of m).
Proof.
  pose proof (closing_insert_action (moved_run m)). pose proof (closing_control (moved_run m)).
  assert (∀ run_id c, moved_run m = Some (run_id, c) → ∀ att t,
    evolves (closing (moved_run m)) (fail_pending_runtime_actions run_id att t)) as Hfail.
  { intros run_id c -> att t. apply closing_fail_pending. }
  assert (∀ run_id c, moved_run m = Some (run_id, c) → ∀ r att,
    evolves (closing (moved_run m)) (confirm_runtime_resume run_id r att c)) as Hconfirm.
  { intros run_id c -> r att. apply closing_confirm. }
  assert (∀ run_id c, moved_run m = Some (run_id, c) → ∀ s n,
    evolves (closing (moved_run m)) (sent_by run_id s n c)) as Hsent.
  { intros run_id c -> s n. apply closing_sent_by. }
  destruct m; intros Hq; try discriminate Hq; cbn [moved_run] in *;
    try specialize (Hfail _ _ eq_refl); try specialize (Hconfirm _ _ eq_refl);
    try specialize (Hsent _ _ eq_refl); simpl; run_code; unfold runtime_message_body, touch_run;
    try (lazymatch goal with m : container_cmd |- _ => destruct m end; simpl; container_code);
    lazymatch goal with |- evolves (closing ?moved) _ =>
      tables runtime_actions (closing moved) (closing_same moved) end.
Qed.

(** What one command does to an open delivery: nothing, one move of the queue, or
    its run's command closes it; a settled one is left alone. *)
Lemma delivery_step m w id a :
  runtime_actions (w_db w) !! id = Some a →
  ∃ a', runtime_actions (w_db (end_world (run_command_of m w))) !! id = Some a' ∧
    (a' = a ∨ ra_state a = act_pending ∧
      ((∃ c, m = QueueCommand c ∧ action_moves a a' ∧ action_named c = Some id ∧
        (∀ o e, presents c = Some (o, e) → held_by o e w a) ∧
        (ra_outcome_state a ≠ ready → ra_outcome_state a' = ready →
         ra_outcome_state a = reconcile ∧ verdict c = true ∧ is_Some (presents c))) ∨
       closed_by (moved_run m) id a a')).
Proof.
  intros Ha. destruct (is_queue m) eqn:Hq.
  - destruct m as [|c| | | | | | | | | | | | |]; try discriminate Hq. simpl.
    destruct (action_row_step c w id a Ha) as (a' & Ha' & Hs). exists a'. split; [done|].
    destruct Hs as [-> | (Hm & Hrest)]; [by left|]. right. split; [apply Hm|]. left. by exists c.
  - destruct (run_command_closing m Hq w id a Ha) as (a' & Ha' & Hs). exists a'. split; [done|].
    destruct Hs as [-> | [Hp Hc]]; [by left|]. right. split; [done|]. by right.
Qed.
Lemma settled_stays cmds : ∀ w id a,
  runtime_actions (w_db w) !! id = Some a → ra_state a ≠ act_pending →
  runtime_actions (w_db (run_session cmds w)) !! id = Some a.
Proof.
  induction cmds as [|m cmds IH]; intros w id a Ha Hp; [done|]. simpl. apply IH; [|done].
  destruct (delivery_step m w id a Ha) as (a' & Ha' & [-> | [? _]]); done.
Qed.

Lemma action_row_stays cmds : ∀ w id a,
  runtime_actions (w_db w) !! id = Some a →
  is_Some (runtime_actions (w_db (run_session cmds w)) !! id).
Proof.
  induction cmds as [|m cmds IH]; intros w id a Ha; [by eexists|]. simpl.
  destruct (delivery_step m w id a Ha) as (a' & Ha' & _). by eapply IH.
Qed.
(** A verdict given under a claim for inspection. *)
Definition inspected (cmds : list run_command) (w : world) (id : string) (a : action_row) : Prop :=
  ∃ pre c post b o e, cmds = pre ++ QueueCommand c :: post ∧
    runtime_actions (w_db (run_session pre w)) !! id = Some b ∧
    ra_outcome_state b = reconcile ∧ verdict c = true ∧ action_named c = Some id ∧
    presents c = Some (o, e) ∧ held_by o e (run_session pre w) b ∧
    cl_epoch (ra_claim a) < e.
(** Closed by a command on its run, whatever its outcome was. *)
Definition closed_unsettled (cmds : list run_command) (w : world) (id : string) : Prop :=
  ∃ pre m post b b', cmds = pre ++ m :: post ∧
    runtime_actions (w_db (run_session pre w)) !! id = Some b ∧
    ra_state b = act_pending ∧ ra_outcome_state b ≠ ready ∧
    closed_by (moved_run m) id b b' ∧
    runtime_actions (w_db (run_session cmds w)) !! id = Some b'.

Lemma inspected_cons m cmds w id a :
  inspected cmds (end_world (run_command_of m w)) id a → inspected (m :: cmds) w id a.
Proof.
  intros (pre & c & post & b & o & e & -> & Hrest). by exists (m :: pre), c, post, b, o, e.
Qed.
Lemma closed_cons m cmds w id :
  closed_unsettled cmds (end_world (run_command_of m w)) id → closed_unsettled (m :: cmds) w id.
Proof.
  intros (pre & m' & post & b & b' & -> & Hrest). by exists (m :: pre), m', post, b, b'.
Qed.
(** A claim for inspection raises the epoch. *)
Lemma inspection_epoch a b :
  rtc action_moves a b → ra_outcome_state a ≠ reconcile → ra_outcome_state b = reconcile →
  cl_epoch (ra_claim a) < cl_epoch (ra_claim b).
Proof.
  induction 1 as [|a x b Hm Hs IH]; intros Ha Hb; [done|].
  pose proof (action_moves_later _ _ Hm) as (_ & Hle & _).
  destruct (decide (ra_outcome_state x = reconcile)) as [Hx | Hx]; [|specialize (IH Hx Hb); lia].
  pose proof (action_steps_later _ _ Hs) as (_ & Hle' & _).
  destruct Hm as [_ [w e t Ho _ -> | w c Ho _ -> | w e t Ho -> | w c Ho _ -> | w Ho _ ->
    | w s t c Ho _ _ ->]]; try done. simpl in *. lia.
Qed.
(** The first command that takes an uncertain delivery [a], reached from [a0], out
    of its state. *)
Lemma leaves_uncertain cmds id a0 : ra_outcome_state a0 ≠ reconcile → ∀ w a,
  runtime_actions (w_db w) !! id = Some a → ra_state a = act_pending → ra_outcome_state a ≠ ready →
  rtc action_moves a0 a →
  ∃ a', runtime_actions (w_db (run_session cmds w)) !! id = Some a' ∧
  (ra_state a' = act_pending ∧ ra_outcome_state a' ≠ ready ∨
   inspected cmds w id a0 ∨ closed_unsettled cmds w id).
Proof.
  intros H0'. induction cmds as [|m cmds IH]; intros w a Ha Hp Hr Hs.
  { exists a. split; [done|]. by left. }
  destruct (delivery_step m w id a Ha) as (x & Hx & Hstep).
  assert (∀ y, rtc action_moves a0 y → y = x → ra_state y = act_pending → ra_outcome_state y ≠ ready →
    ∃ a', runtime_actions (w_db (run_session (m :: cmds) w)) !! id = Some a' ∧
    (ra_state a' = act_pending ∧ ra_outcome_state a' ≠ ready ∨
     inspected (m :: cmds) w id a0 ∨ closed_unsettled (m :: cmds) w id)) as Hgo.
  { intros y Hy -> Hyp Hyr. destruct (IH _ x Hx Hyp Hyr Hy) as (a' & Ha' & Hcase).
    exists a'. split; [done|]. destruct Hcase as [? | [?%inspected_cons | ?%closed_cons]]; auto. }
  destruct Hstep as [-> | [_ [(c & -> & Hm & Hn & Hh & Hv) | Hc]]]; [by apply (Hgo a)| |].
  - assert (rtc action_moves a0 x) as Hsx by by eapply rtc_r.
    destruct (decide (ra_outcome_state x = ready)) as [Hxr | Hxr].
    + destruct (Hv Hr Hxr) as (Ho & Hver & [[o e] Hpr]).
      destruct (action_row_stays cmds _ _ _ Hx) as [a' Ha']. exists a'. split; [done|]. right. left.
      exists [], c, cmds, a, o, e. specialize (Hh o e Hpr). split_and!; try done.
      destruct Hh as (_ & _ & <- & _). by apply inspection_epoch.
    + apply (Hgo x); try done. destruct (decide (ra_state x = act_pending)); [done|].
      exfalso. destruct Hm as [_ [w' e t Ho _ -> | w' c' Ho _ -> | w' e t Ho -> | w' c' Ho _ -> | w' Ho _ ->
        | w' s t c' Ho _ _ ->]]; done.
  - exists x. pose proof (closed_settled _ _ _ _ Hc) as Hxs.
    pose proof (settled_stays cmds _ _ _ Hx Hxs) as Hend. split; [done|]. right. right.
    by exists [], m, cmds, a, x.
Qed.
End Closing.
