(* ===== verification/LifeTheorems.v ===== *)
(** * The life of runs: its theorems

    What holds of the runs of every reachable store, and two ways in which the
    commands let a run go wrong. *)

From S2P Require Import Prelude PyText Clock Json Schema Store Demo Threads ThreadFacts Runs RuntimeActions PinReleases RuntimeFacts RunClosing ClosingFacts RuntimeSessions Resources Dispatch RuntimeEvents Decisions RunRestart RunLife RunCalls RunSteps QueueSteps LifeSessions RunTables.
Open Scope Z_scope.

(** ** A session to evaluate *)

#[export] Instance demo_unicode : UnicodeChecks :=
  {| utf8_ok := λ _, false; nfc_ok := λ _, false; has_control := λ _, true |}.
Definition demo_key (n : Z) : string := "key-0000000000000000000" +:+ dec n.
Definition demo_identity : runtime_identity := RuntimeIdentity "rel" "gen" "slot" "digest" "proto".
Definition demo_sender (att binding : string) : sender := Sender att binding "rel" (Some "gen").
(** An attempt is reserved, bound, started and running. *)
Definition demo_dispatch (att binding : string) (revision key : Z) (session : string) :
    list run_command :=
  [ReserveDispatch "run-4" att "disp" demo_identity revision 60 "d" (demo_key key);
   CreateBinding "thread-2" "ad" session 0 "v" None "d" (demo_key (key + 1));
   PinRuntime "run-4" att binding "rel" (revision + 1) (Some "gen") (Some "disp") "d"
     (demo_key (key + 2));
   RuntimeTransition "run-4" "starting" (demo_sender att binding) (revision + 2) "rt"
     (demo_key (key + 3)) None [] no_cause;
   RuntimeTransition "run-4" "running" (demo_sender att binding) (revision + 3) "rt"
     (demo_key (key + 4)) None [] no_cause].
Definition demo_cancel (revision key : Z) : run_command :=
  TransitionRun "run-4" "cancel_requested" revision "op" (demo_key key) None [] None None None None
    no_cause.
Definition demo_ask (att binding : string) (revision key : Z) : run_command :=
  AskDecision "run-4" (demo_sender att binding) "k" "go on?" [[("id", JStr "yes")]] None None
    revision "rt" (demo_key key) no_cause.
(** A run asks; before the answer the operator cancels, and the cancel cannot be
    delivered, so the run fails. *)
Definition demo_failed_run : list run_command :=
  [ContainerCommand (CreateWorkspace "w" "op" (demo_key 1));
   ContainerCommand (CreateThread "ws-0" "t" 0 "op" (demo_key 2));
   CreateRun "thread-2" 0 "op" (demo_key 3)]
  ++ demo_dispatch "attempt-5" "runtime_binding-8" 0 4 "s1"
  ++ [demo_ask "attempt-5" "runtime_binding-8" 4 9; demo_cancel 5 10;
      QueueCommand (ClaimAction "runtime_action-14" "wk" 60 "wk" (demo_key 11));
      QueueCommand (FailAction "runtime_action-14" "wk" 1 6 "boom" "wk" (demo_key 12))].
(** It is retried, and asks again. *)
Definition demo_retried_run : list run_command :=
  demo_failed_run
  ++ [RetryRun "run-4" 7 "again" "op" (demo_key 13)]
  ++ demo_dispatch "attempt-18" "runtime_binding-21" 8 14 "s2"
  ++ [demo_ask "attempt-18" "runtime_binding-21" 12 19].
Notation demo_store := (World empty_db 0 0).
Notation demo_retried := (run_session demo_retried_run demo_store).

(** ** Every session *)

Section Life.
Context `{Env} `{UnicodeChecks}.

(** C1: the run commands implement the abstract machine of runs.  From any store
    whose runs are in order, every sequence of commands on workspaces, threads,
    messages, runs, attempts, decisions and deliveries, answered or refused, changes
    the runs, the runs their threads point at, the bindings of attempts and the
    deliveries only along the steps of [life_step]: the edges of the transition
    table, refused pauses, failed deliveries, restarts of paused and failed runs and
    attempts given up before a runtime took them. *)
Theorem run_commands_refine_life cmds w :
  life_inv (life_of (w_db w)) →
  rtc life_step (life_of (w_db w)) (life_of (w_db (run_session cmds w))).
Proof. apply run_session_steps. Qed.

(** C2: a thread has one live run.  After any commands on an empty store, a run that
    is not over is the one its thread points at; so no two runs of a thread are live
    together, and the unique index that would refuse a second one is never what
    stops a command. *)
Theorem one_live_run_per_thread cmds t n i r :
  let d := w_db (run_session cmds (World empty_db t n)) in
  runs d !! i = Some r → run_open (ru_state r) = true →
  (∃ th, threads d !! ru_thread_id r = Some th ∧ th_active_run_id th = Some i) ∧
  (∀ j s, runs d !! j = Some s → run_open (ru_state s) = true →
     ru_thread_id s = ru_thread_id r → j = i) ∧
  thread_taken (ru_thread_id r) i d = false.
Proof.
  intros d Hr Ho. pose proof (run_session_inv cmds t n) as Hinv. fold d in Hinv.
  apply negb_true_iff in Ho.
  assert (∀ j s, runs d !! j = Some s → run_open (ru_state s) = true →
    ru_thread_id s = ru_thread_id r → j = i) as Huniq.
  { intros j s Hs Hso E. apply negb_true_iff in Hso.
    by apply (one_active (life_of d) j i (run_life_of s) (run_life_of r) Hinv);
      [apply run_row_life|apply run_row_life|..]. }
  split; [|split; [exact Huniq|]].
  - pose proof (li_active _ Hinv i (run_life_of r) (run_row_life _ _ _ Hr) Ho) as Hth. cbn in Hth.
    rewrite lookup_fmap in Hth. destruct (threads d !! ru_thread_id r) as [th|]; simpl in Hth; [|done].
    injection Hth as Hth. by exists th.
  - unfold thread_taken. apply not_true_iff_false. rewrite existsb_exists.
    intros ([j s] & Hin & Hx). apply list_elem_of_In, elem_of_map_to_list in Hin. bools. cbn in *.
    apply (proj1 (String.eqb_neq j i)); [done|]. by apply (Huniq j s).
Qed.

(** A run that completed or was canceled stays so: no sequence of commands,
    retries and failing deliveries included, changes its state, its attempt or its
    thread. *)
Theorem ended_run_stays cmds w i r :
  life_inv (life_of (w_db w)) → runs (w_db w) !! i = Some r → is_final (ru_state r) = true →
  ∃ r', runs (w_db (run_session cmds w)) !! i = Some r' ∧ ru_state r' = ru_state r ∧
    ru_active_attempt_id r' = ru_active_attempt_id r ∧ ru_thread_id r' = ru_thread_id r.
Proof.
  intros Hinv Hr Hf.
  destruct (life_steps_ended _ _ i (run_life_of r)
    (conj (run_row_life _ _ _ Hr) Hf) (run_session_steps cmds w Hinv)) as [Hi _].
  cbn in Hi. rewrite lookup_fmap in Hi.
  destruct (runs (w_db (run_session cmds w)) !! i) as [r'|]; simpl in Hi; [|done].
  injection Hi as E1 E2 E3. exists r'. done.
Qed.

(** C12: a worker only ever holds deliveries of the work at hand.  After any commands
    on an empty store, a pending delivery that is claimed, whose outcome is unknown or
    that is under inspection is of the attempt its run waits on, a runtime took that
    attempt, and the run is not over. *)
Theorem held_delivery_is_current cmds t n i a :
  let d := w_db (run_session cmds (World empty_db t n)) in
  runtime_actions d !! i = Some a → ra_state a = act_pending → taken a →
  ∃ r att, runs d !! ra_run_id a = Some r ∧ attempts d !! ra_attempt_id a = Some att ∧
    ru_active_attempt_id r = Some (ra_attempt_id a) ∧ is_final (ru_state r) = false ∧
    is_Some (at_runtime_binding_id att).
Proof.
  intros d Ha Hp Ht. pose proof (run_session_inv cmds t n) as Hinv. fold d in Hinv.
  destruct (li_current _ Hinv i a Ha Hp Ht) as (x & Hx & Hact & Hf).
  destruct (li_bound _ Hinv i a Ha Hp) as [Hb _]. 
  change (lf_runs (life_of d)) with (run_life_of <$> runs d) in Hx.
  change (lf_bound (life_of d)) with (bound <$> attempts d) in Hb. rewrite lookup_fmap in Hx. rewrite lookup_fmap in Hb.
  destruct (runs d !! ra_run_id a) as [r|]; simpl in Hx; [|done]. injection Hx as <-.
  destruct (attempts d !! ra_attempt_id a) as [att|]; simpl in Hb; [|done].
  injection Hb as Hb.
  exists r, att. split_and!; try done. by apply bool_decide_eq_true in Hb.
Qed.
End Life.

Lemma run_commands_refine_life_witness :
  rtc life_step (life_of (w_db demo_store)) (life_of (w_db demo_retried)).
Proof. apply (run_commands_refine_life demo_retried_run demo_store). apply empty_life. Defined.

Definition demo_claimed_run : list run_command := Eval vm_compute in take 11 demo_failed_run.
Notation demo_delivery := (run_session demo_claimed_run demo_store).

Lemma one_live_run_per_thread_witness :
  match runs (w_db demo_retried) !! "run-4" with
  | Some r => ru_state r = "waiting_for_decision" ∧
      thread_taken (ru_thread_id r) "run-4" (w_db demo_retried) = false
  | None => False
  end.
Proof.
  assert (ru_state <$> runs (w_db demo_retried) !! "run-4" = Some "waiting_for_decision") as E
    by (vm_compute; reflexivity).
  destruct (runs (w_db demo_retried) !! "run-4") as [r|] eqn:Er; [|discriminate].
  injection E as E. split; [exact E|].
  apply (one_live_run_per_thread demo_retried_run 0 0 "run-4" r Er). rewrite E. reflexivity.
Defined.

(** A run that is canceled before any runtime took it, and a retry that is refused. *)
Definition demo_canceled_run : list run_command := take 3 demo_failed_run ++ [demo_cancel 0 9;
  FailUnbound "run-4" "attempt-5" 1 "gone" None true "d" (demo_key 10)].
Notation demo_canceled := (run_session demo_canceled_run demo_store).
Lemma ended_run_stays_witness :
  match runs (w_db demo_canceled) !! "run-4" with
  | Some r => ∃ r', runs (w_db (run_session [RetryRun "run-4" 2 "x" "op" (demo_key 11)] demo_canceled))
      !! "run-4" = Some r' ∧ ru_state r' = "canceled"
  | None => False
  end.
Proof.
  assert (ru_state <$> runs (w_db demo_canceled) !! "run-4" = Some "canceled") as E
    by (vm_compute; reflexivity).
  destruct (runs (w_db demo_canceled) !! "run-4") as [r|] eqn:Er; [|discriminate]. injection E as E.
  destruct (ended_run_stays [RetryRun "run-4" 2 "x" "op" (demo_key 11)] demo_canceled "run-4" r)
    as (r' & Hr' & Es & _); [apply run_session_inv|exact Er|rewrite E; reflexivity|].
  exists r'. split; [exact Hr'|]. rewrite Es. exact E.
Defined.

Lemma held_delivery_is_current_witness :
  match runtime_actions (w_db demo_delivery) !! "runtime_action-14" with
  | Some a => cl_owner (ra_claim a) = Some "wk" ∧
      ∃ r att, runs (w_db demo_delivery) !! ra_run_id a = Some r ∧
        attempts (w_db demo_delivery) !! ra_attempt_id a = Some att ∧
        ru_active_attempt_id r = Some (ra_attempt_id a) ∧ is_final (ru_state r) = false ∧
        is_Some (at_runtime_binding_id att)
  | None => False
  end.
Proof.
  assert ((λ a, (ra_state a, cl_owner (ra_claim a))) <$>
    runtime_actions (w_db demo_delivery) !! "runtime_action-14" = Some (act_pending, Some "wk")) as E
    by (vm_compute; reflexivity).
  destruct (runtime_actions (w_db demo_delivery) !! "runtime_action-14") as [a|] eqn:Ea; [|discriminate].
  injection E as E1 E2. split; [exact E2|].
  apply (held_delivery_is_current demo_claimed_run 0 0 "runtime_action-14" a Ea E1).
  left. rewrite E2. by eexists.
Defined.

(** ** Two ways for a run to go wrong *)

(** A command that is no replay ran its body. *)
Lemma command_fresh `{Env} a o k request body w r w' :
  command a o k request body w = Ok r w' → cr_replayed r = false →
  ∃ v code w1, body w = Ok (v, code) w1 ∧ core_of (w_db w') = core_of (w_db w1).
Proof.
  intros [_ Hc]%command_ok Hf. destruct (idempotency_receipts _ !! _).
  - by destruct Hc as (_ & _ & v & _ & ->).
  - destruct Hc as (v & code & w1 & Hb & (_ & _ & ->)%save_receipt_ok). by exists v, code, w1.
Qed.

Section Stranded.
Context `{Env}.
Implicit Types c : core.

(** A delivery of another attempt than the active one goes nowhere. *)
Lemma superseded_unclaimable w id a r worker lease actor key res w' :
  runtime_actions (w_db w) !! id = Some a → runs (w_db w) !! ra_run_id a = Some r →
  ru_active_attempt_id r ≠ Some (ra_attempt_id a) → cl_owner (ra_claim a) = None →
  claim_runtime_action id worker lease actor key w ≠ Ok res w'.
Proof.
  intros Ha Hr Hne Ho Hc.
  destruct (claim_action_effect _ _ _ _ _ _ _ _ Hc) as [(_ & _ & b & Hb & e & _ & Hh) | (Hf & _)].
  - rewrite Ha in Hb. injection Hb as <-. destruct Hh as (_ & Ho' & _). congruence.
  - unfold claim_runtime_action, check_lease in Hc. mgo.
    match goal with H : claim_command _ _ _ _ _ _ _ _ = _ |- _ =>
      apply claim_command_ok in H as [(_ & ? & _) | (_ & _ & v & w4 & Hb & _)]; [congruence|] end.
    apply claim_action_body_ok in Hb as (b & rn & e & Hb & _ & _ & Hrun & Hact & _).
    cbn in Hb, Hrun. congruence.
Qed.

(** A retry makes a new attempt the active one and keeps the questions. *)
Lemma restart_active c run_id n source target reason :
  leads c (restart_body run_id n source target reason)
    (λ _ c', ∃ r att, c_runs c' !! run_id = Some r ∧ ru_active_attempt_id r = Some att ∧
      c_attempts c !! att = None).
Proof.
  unfold restart_body. follow. apply leads_insert_attempt. intros Hnew. follow_step.
  eapply leads_switch_run; [eassumption|eassumption|]. follow_step.
  eapply (leads_execute _ _ (in_threads (alter (th_start run_id _) (ru_thread_id r)))); [done|].
  follow. cbn -[lookup insert] in *. rewrite lookup_insert_eq in *. simplify_eq.
  eexists _, _. split; [reflexivity|]. by split.
Qed.
Definition decisions_kept (w w' : world) : Prop := decisions (w_db w') = decisions (w_db w).
#[export] Instance decisions_kept_preorder : PreOrder decisions_kept.
Proof. split; [by intros w|]. intros w1 w2 w3 H1 H2. unfold decisions_kept in *. congruence. Qed.
Lemma decisions_kept_same w w' :
  decisions (w_db w') = decisions (w_db w) → decisions_kept w w'.
Proof. done. Qed.
Lemma retry_keeps_decisions run_id n reason actor key :
  evolves decisions_kept (retry_run run_id n reason actor key).
Proof. run_code; unfold fail_pending_runtime_actions; tables decisions decisions_kept decisions_kept_same. Qed.

Lemma retried run_id n reason actor key w r w' :
  retry_run run_id n reason actor key w = Ok r w' → cr_replayed r = false →
  decisions (w_db w') = decisions (w_db w) ∧
  ∃ rn att, runs (w_db w') !! run_id = Some rn ∧ ru_active_attempt_id rn = Some att ∧
    attempts (w_db w) !! att = None.
Proof.
  intros Hc Hf. split; [exact (evolves_ok _ _ _ _ _ (retry_keeps_decisions _ _ _ _ _) Hc)|].
  unfold retry_run, restart_attempt in Hc. apply bind_ok in Hc as (x & w0 & (_ & _ & _ & ->)%required_text_ok & Hc).
  destruct (command_fresh _ _ _ _ _ _ _ _ Hc Hf) as (v & code & w1 & Hb & E).
  injection E as _ E _ _. rewrite E.
  exact (restart_active (core_of (w_db w)) _ _ _ _ _ _ _ _ eq_refl Hb).
Qed.

(** What an answer to a runtime's question does to the run and its deliveries. *)
Definition answered_to (att : string) (run_id : string) (c c' : core) : Prop :=
  ∃ r r' id a, c_runs c !! run_id = Some r ∧ ru_state r = "waiting_for_decision" ∧
    c_runs c' !! run_id = Some r' ∧ ru_state r' = "resuming" ∧
    ru_active_attempt_id r' = ru_active_attempt_id r ∧
    c_actions c !! id = None ∧ c_actions c' !! id = Some a ∧ ra_state a = act_pending ∧
    ¬ taken a ∧ ra_run_id a = run_id ∧ ra_attempt_id a = att.
Lemma resolve_runtime_answers c id q choice actor n :
  leads c (resolve_runtime_decision id q choice actor n)
    (λ _ c', answered_to (de_attempt_id q) (de_run_id q) c c').
Proof.
  unfold resolve_runtime_decision, resume_rows. follow. bools.
  apply leads_insert_action. intros i x Hn Hp Ht Hrun Hatt Hk. follow.
  cbn -[lookup insert] in *. rewrite Z.eqb_refl, lookup_insert_eq in *. simplify_eq.
  eexists _, _, i, x. cbn -[lookup insert]. rewrite !lookup_insert_eq. by split_and!.
Qed.
Lemma resolve_workflow_waits c id q v choice actor n ref_id ref :
  leads c (resolve_workflow_decision id q v choice actor n ref_id ref)
    (λ _ _, ∃ r, c_runs c !! de_run_id q = Some r ∧ ru_state r = "waiting_for_decision").
Proof.
  unfold resolve_workflow_decision. follow; bools;
    (eapply leads_resume_rows; [eassumption|assumption|]); intros c' L _; follow; eauto.
Qed.
Lemma decision_row_ok i w q v w' :
  decision i w = Ok (q, v) w' → decisions (w_db w) !! i = Some q ∧ w' = w.
Proof. unfold decision. intros Hd. mgo. simplify_eq. destruct (has_text _); by mgo. Qed.
Lemma resolve_fresh i choice n actor key w r w' :
  resolve_decision i choice n actor key w = Ok r w' → cr_replayed r = false →
  ∃ q, decisions (w_db w) !! i = Some q ∧
    (∃ rn, runs (w_db w) !! de_run_id q = Some rn ∧ ru_state rn = "waiting_for_decision") ∧
    (decision_refs_of i (w_db w) = [] →
     answered_to (de_attempt_id q) (de_run_id q) (core_of (w_db w)) (core_of (w_db w'))).
Proof.
  unfold resolve_decision. intros Hc Hf.
  apply bind_ok in Hc as (x & w0 & (_ & _ & _ & ->)%required_text_ok & Hc).
  destruct (command_fresh _ _ _ _ _ _ _ _ Hc Hf) as (v & code & w1 & Hb & E). clear Hc.
  unfold resolve_decision_body in Hb. apply bind_ok in Hb as ([q qv] & w2 & Hd & Hb).
  apply decision_row_ok in Hd as [Hq ->].
  exists q. split; [exact Hq|].
  apply bind_ok in Hb as (? & w2 & (_ & _ & _ & ->)%expect_revision_ok & Hb).
  apply bind_ok in Hb as (refs & w2 & [-> ->]%query_ok & Hb).
  apply bind_ok in Hb as (? & ? & (_ & _ & ->)%ensure_ok & Hb).
  apply bind_ok in Hb as (asked & ? & [_ ->]%query_ok & Hb).
  apply bind_ok in Hb as (? & ? & (_ & _ & ->)%ensure_ok & Hb).
  apply bind_ok in Hb as (? & ? & (_ & _ & ->)%ensure_ok & Hb).
  destruct (decision_refs_of i (w_db w)) as [|[ref_id ref] refs] eqn:Er; simpl in Hb.
  - apply bind_ok in Hb as (? & ? & (_ & _ & ->)%ensure_ok & Hb).
    pose proof (resolve_runtime_answers (core_of (w_db w)) _ _ _ _ _ _ _ _ eq_refl Hb) as Ha.
    split; [|intros _; by rewrite E]. destruct Ha as (rn & _ & _ & _ & Hr & Hs & _). by exists rn.
  - split; [|done].
    exact (resolve_workflow_waits (core_of (w_db w)) _ _ _ _ _ _ _ _ _ _ _ eq_refl Hb).
Qed.

(** The run of [rn] is out of its wait, with a delivery for [att] that is never
    listed and that nobody can claim, and no question of the run can be answered. *)
Definition strands (run_id att : string) (rn : run_row) (w : world) : Prop :=
  ru_state rn = "waiting_for_decision" ∧
  ∃ rn' id a, runs (w_db w) !! run_id = Some rn' ∧ ru_state rn' = "resuming" ∧
    ru_active_attempt_id rn' = ru_active_attempt_id rn ∧
    runtime_actions (w_db w) !! id = Some a ∧ ra_state a = act_pending ∧
    ra_run_id a = run_id ∧ ra_attempt_id a = att ∧
    (∀ t, pending_at t (w_db w) a = false) ∧
    (∀ worker lease actor key r w', claim_runtime_action id worker lease actor key w ≠ Ok r w') ∧
    (∀ i q choice n actor key r w', decisions (w_db w) !! i = Some q → de_run_id q = run_id →
       resolve_decision i choice n actor key w = Ok r w' → cr_replayed r = true).
Lemma answer_strands i q rn choice n actor key w r w' :
  decisions (w_db w) !! i = Some q → decision_refs_of i (w_db w) = [] →
  runs (w_db w) !! de_run_id q = Some rn → ru_active_attempt_id rn ≠ Some (de_attempt_id q) →
  resolve_decision i choice n actor key w = Ok r w' → cr_replayed r = false →
  strands (de_run_id q) (de_attempt_id q) rn w'.
Proof.
  intros Hq Hrefs Hrn Hne Hc Hf. destruct (resolve_fresh _ _ _ _ _ _ _ _ Hc Hf) as (q' & Hq' & _ & Ha).
  rewrite Hq in Hq'. injection Hq' as <-.
  destruct (Ha Hrefs) as (x & rn' & id & a & Hx & Hs & Hr' & Hs' & Eact & _ & Hact & Hp & Ht & E1 & E2).
  cbn in Hx, Hr', Hact. rewrite Hrn in Hx. injection Hx as <-.
  split; [done|]. exists rn', id, a. split_and!; try done.
  - intros t. unfold pending_at. rewrite E1, Hr', E2, Eact, (bool_decide_eq_false_2 _ Hne).
    by rewrite andb_false_r.
  - intros worker lease actor' key' r'' w''.
    apply (superseded_unclaimable _ _ a rn'); [done|by rewrite E1|by rewrite Eact, E2|].
    destruct (cl_owner (ra_claim a)) eqn:Eo; [|done]. destruct Ht. left. by rewrite Eo.
  - intros i' q' choice' n' actor' key' r'' w'' Hq' E Hc'.
    destruct (cr_replayed r'') eqn:Hf'; [done|exfalso].
    destruct (resolve_fresh _ _ _ _ _ _ _ _ Hc' Hf') as (q2 & Hq2 & (rn2 & Hr2 & Hs2) & _).
    rewrite Hq' in Hq2. injection Hq2 as <-. rewrite E, Hr' in Hr2. injection Hr2 as <-. congruence.
Qed.

(** C35: the answer to a forgotten question strands a run.  A delivery that fails
    leaves the questions its run had asked as they are ([transition_run] expires
    them), a retry keeps them too and gives the run another attempt.  From then on,
    in any state in which the run waits on another attempt than the one that asked,
    an answer to the old question that is accepted takes the run out of its wait and
    goes to a delivery for the attempt that is gone, which is never listed and which
    no worker can claim, and no question of the run can be answered any more. *)
Theorem stale_decision_strands_run i q w id owner epoch n category actor key r1 w1
    n' reason actor' key' r2 w2 :
  decisions (w_db w) !! i = Some q →
  (∀ j s, source_intents (w_db w) !! j = Some s → si_decision_id s ≠ Some i) →
  is_Some (attempts (w_db w) !! de_attempt_id q) →
  fail_runtime_action id owner epoch n category actor key w = Ok r1 w1 →
  retry_run (de_run_id q) n' reason actor' key' w1 = Ok r2 w2 → cr_replayed r2 = false →
  decisions (w_db w2) !! i = Some q ∧
  (∃ rn att, runs (w_db w2) !! de_run_id q = Some rn ∧ ru_active_attempt_id rn = Some att ∧
     att ≠ de_attempt_id q) ∧
  ∀ w3 rn choice m actor3 key3 r3 w4,
    decisions (w_db w3) !! i = Some q → decision_refs_of i (w_db w3) = [] →
    runs (w_db w3) !! de_run_id q = Some rn →
    ru_active_attempt_id rn ≠ Some (de_attempt_id q) →
    resolve_decision i choice m actor3 key3 w3 = Ok r3 w4 → cr_replayed r3 = false →
    strands (de_run_id q) (de_attempt_id q) rn w4.
Proof.
  intros Hq Hint Hatt Hfail Hretry Hfresh.
  assert (decisions (w_db w1) !! i = Some q ∧ is_Some (attempts (w_db w1) !! de_attempt_id q)) as [Hq1 Hatt1].
  { apply fail_command_ok in Hfail as [[_ ->] | (_ & t & a & rn & _ & Hf)]; [done|].
    rewrite (fr_attempts _ _ _ _ _ _ _ _ _ _ Hf), lookup_alter_is_Some.
    destruct (fr_closed _ _ _ _ _ _ _ _ _ _ Hf) as [_ Hd _ _ _ _].
    rewrite (proj2 (Hd i)); [done|]. intros (j & s & Hs & _ & E). by apply (Hint j s). }
  destruct (retried _ _ _ _ _ _ _ _ Hretry Hfresh) as (E & rn & att & Hrn & Hact & Hnone).
  split; [by rewrite E|]. split.
  - exists rn, att. split_and!; try done. intros ->. rewrite Hnone in Hatt1. by destruct Hatt1.
  - intros. by eapply answer_strands.
Qed.
End Stranded.

(** The run of the session above, step by step: the delivery of the cancel fails, the
    run is retried and asks again, and the first question is answered. *)
Notation demo_fail :=
  (fail_runtime_action "runtime_action-14" "wk" 1 6 "boom" "wk" (demo_key 12) demo_delivery).
Notation demo_retry := (retry_run "run-4" 7 "again" "op" (demo_key 13) (end_world demo_fail)).
Notation demo_stale := (resolve_decision "decision-12" "yes" 0 "op" (demo_key 20) demo_retried).
Notation demo_stranded := (end_world demo_stale).
Definition demo_question : decision_row := Eval vm_compute in
  default (DecisionRow "" "" "" "" "" decision_expired None 0 "" None None None)
    (decisions (w_db demo_retried) !! "decision-12").
Definition demo_waiting : run_row := Eval vm_compute in
  default (RunRow "" "" None None 0 0 "" "") (runs (w_db demo_retried) !! "run-4").

Lemma demo_stranded_facts :
  decisions (w_db demo_delivery) !! "decision-12" = Some demo_question ∧
  source_intents (w_db demo_delivery) = ∅ ∧
  (at_number <$> attempts (w_db demo_delivery) !! "attempt-5") = Some 1 ∧
  is_ok demo_fail = true ∧ is_ok demo_retry = true ∧
  cr_replayed (answer no_result demo_retry) = false ∧
  decisions (w_db demo_retried) !! "decision-12" = Some demo_question ∧
  decision_refs_of "decision-12" (w_db demo_retried) = [] ∧
  runs (w_db demo_retried) !! "run-4" = Some demo_waiting ∧
  is_ok demo_stale = true ∧ cr_replayed (answer no_result demo_stale) = false.
Proof. split_and!; vm_compute; reflexivity. Qed.
Lemma stale_decision_strands_run_witness : strands "run-4" "attempt-5" demo_waiting demo_stranded.
Proof.
  destruct demo_stranded_facts as (Hq & Hs & Ha & Hf & Hr & Hrf & Hq3 & Href & Hrun & Hst & Hstf).
  destruct (stale_decision_strands_run "decision-12" demo_question demo_delivery "runtime_action-14"
    "wk" 1 6 "boom" "wk" (demo_key 12) (answer no_result demo_fail) (end_world demo_fail)
    7 "again" "op" (demo_key 13) (answer no_result demo_retry) (end_world demo_retry))
    as (_ & _ & Hstrand); [exact Hq| | |exact (answered _ _ Hf)|exact (answered _ _ Hr)|exact Hrf|].
  - intros j s E. rewrite Hs in E. rewrite lookup_empty in E. discriminate E.
  - apply fmap_Some in Ha as (x & Hx & _). exists x. exact Hx.
  - apply (Hstrand demo_retried demo_waiting "yes" 0 "op" (demo_key 20) (answer no_result demo_stale)
      demo_stranded Hq3 Href Hrun); [discriminate|exact (answered _ _ Hst)|exact Hstf].
Defined.

Section Archived.
Context `{Env}.

Lemma restart_body_thread w run_id n source target reason v w' r th :
  runs (w_db w) !! run_id = Some r → threads (w_db w) !! ru_thread_id r = Some th →
  restart_body run_id n source target reason w = Ok v w' →
  ∃ t, threads (w_db w') !! ru_thread_id r = Some (th_start run_id t th).
Proof.
  intros Hr Hth Hb. revert w v w' Hr Hth Hb.
  assert (∀ c, c_runs c !! run_id = Some r → c_threads c !! ru_thread_id r = Some th →
    leads c (restart_body run_id n source target reason)
      (λ _ c', ∃ t, c_threads c' !! ru_thread_id r = Some (th_start run_id t th))) as Hl.
  { intros c Hr Hth. unfold restart_body. follow. simplify_eq. apply leads_insert_attempt. intros _. follow_step.
    eapply leads_switch_run; [exact Hr|done|]. follow_step.
    apply (leads_execute _ _ (in_threads (alter (th_start run_id a1) (ru_thread_id r)))); [done|].
    follow. exists a1. cbn. by rewrite lookup_alter_eq, Hth. }
  intros w v w' Hr Hth Hb. exact (Hl (core_of (w_db w)) Hr Hth w v w' eq_refl Hb).
Qed.

(** C36: retrying sets an archived thread moving again.  [_set_thread_archived] says
    that the archived set never contains something still moving, since [append_message]
    and [create_run] refuse an archived thread; but [retry_run] does not look at
    the archive.  A thread whose run has failed can be archived, and a retry of the run
    then makes that run the active one of the thread, which stays archived. *)
Theorem retry_moves_archived_thread run_id n reason actor key w res w' r th archived :
  retry_run run_id n reason actor key w = Ok res w' → cr_replayed res = false →
  runs (w_db w) !! run_id = Some r → threads (w_db w) !! ru_thread_id r = Some th →
  th_archived_at th = Some archived →
  ∃ th', threads (w_db w') !! ru_thread_id r = Some th' ∧ th_archived_at th' = Some archived ∧
    th_active_run_id th' = Some run_id ∧ th_status th' = "running".
Proof.
  intros Hc Hf Hr Hth Ha. unfold retry_run, restart_attempt in Hc. mgo.
  match goal with H : command _ _ _ _ _ _ = _ |- _ => apply command_ok in H as [_ Hc] end.
  destruct (idempotency_receipts _ !! _); [by destruct Hc as (_ & _ & v & _ & ->)|].
  destruct Hc as (v & code & w1 & Hb & (_ & _ & ->)%save_receipt_ok).
  destruct (restart_body_thread _ _ _ _ _ _ _ _ _ _ Hr Hth Hb) as (t & Ht).
  exists (th_start run_id t th). done.
Qed.
End Archived.

Definition demo_archived_run : list run_command :=
  demo_failed_run ++ [ContainerCommand (ArchiveThread "thread-2" 2 "op" (demo_key 13))].
Notation demo_archived := (run_session demo_archived_run demo_store).
Notation demo_revived := (retry_run "run-4" 7 "again" "op" (demo_key 14) demo_archived).

Lemma demo_revived_answered :
  demo_revived = Ok (answer no_result demo_revived) (end_world demo_revived).
Proof. apply answered. vm_compute. reflexivity. Qed.
Lemma demo_archived_facts :
  cr_replayed (answer no_result demo_revived) = false ∧
  ru_thread_id <$> runs (w_db demo_archived) !! "run-4" = Some "thread-2" ∧
  th_archived_at <$> threads (w_db demo_archived) !! "thread-2" = Some (Some "2026-01-02T00:00:54Z").
Proof. split_and!; vm_compute; reflexivity. Qed.
Lemma retry_moves_archived_thread_witness :
  ∃ th', threads (w_db (end_world demo_revived)) !! "thread-2" = Some th' ∧
    th_archived_at th' = Some "2026-01-02T00:00:54Z" ∧ th_active_run_id th' = Some "run-4" ∧
    th_status th' = "running".
Proof.
  destruct demo_archived_facts as (H1 & H2 & H3).
  apply fmap_Some in H2 as (r & Er & E2). apply fmap_Some in H3 as (th & Eth & E3).
  revert Eth. rewrite E2. intros Eth.
  exact (retry_moves_archived_thread "run-4" 7 "again" "op" (demo_key 14) demo_archived
    (answer no_result demo_revived) (end_world demo_revived) r th "2026-01-02T00:00:54Z"
    demo_revived_answered H1 Er Eth (eq_sym E3)).
Defined.
