(* ===== verification/RunTableTheorems.v ===== *)
(** * The tables of a run: their theorems

    What holds of the messages of a thread and of a delivery with an unknown
    outcome whatever commands of [LifeSessions] come, an operator's, a runtime's
    or the queue's. *)

From S2P Require Import Prelude PyText Clock Json Schema Store Demo Threads ThreadFacts Runs RuntimeActions PinReleases RuntimeFacts PinFacts RunClosing ClosingFacts RuntimeSessions RuntimeTheorems Resources Dispatch RuntimeEvents Decisions RunRestart RunLife RunCalls RunSteps QueueSteps LifeSessions LifeTheorems RunTables.
Open Scope Z_scope.

(** C22: a transcript has no gap, no repeated position and no rewriting.  Starting
    from an empty store, whatever commands are issued on workspaces, threads and
    runs, be a message appended by an operator or by the runtime of a run, the
    positions of a thread's messages are exactly 1 to n, and every message stays
    for good as it was stored, whatever follows. *)
Theorem transcript_contiguous `{Env} `{UnicodeChecks} cmds cmds' ticks ids k :
  let w := run_session cmds (World empty_db ticks ids) in
  (∃ n, 0 <= n ∧ thread_positions k (w_db w) ≡ₚ seqZ 1 n) ∧
  messages (w_db w) ⊆ messages (w_db (run_session cmds' w)).
Proof.
  intros w. split; [|apply run_session_transcripts].
  destruct (run_session_transcripts cmds (World empty_db ticks ids)) as [_ Hc].
  refine (Hc k _). exists 0. split; [done|]. reflexivity.
Qed.


Abbreviation uncertain := (delivered [claim_1; lost_1]).

