(* ===== verification/DispatchTheorems.v ===== *)
(** * Dispatching: its theorems

    The search for the paused ancestor of an attempt, and the reservation of an
    attempt by one dispatcher at a time. *)

From S2P Require Import Prelude PyText Clock Json Schema Store Demo Threads ThreadFacts Runs RuntimeActions PinReleases RuntimeFacts RunClosing ClosingFacts Resources Dispatch RuntimeEvents RunLife RunCalls RunSteps LifeSessions LifeTheorems.
Open Scope Z_scope.

(** ** The paused ancestor of an attempt *)

Definition resumable (a : attempt_row) : bool :=
  String.eqb (at_state a) "paused" && has_text (at_checkpoint_uri a).

(** The first attempt of a chain of sources that is paused with a checkpoint, in so
    many steps; nothing when the chain ends without one. *)
Inductive nearest_paused (m : gmap string attempt_row) :
    nat → option string → option (string * attempt_row) → Prop :=
| np_none : nearest_paused m 0 None None
| np_here id a :
    m !! id = Some a → resumable a = true → nearest_paused m 0 (Some id) (Some (id, a))
| np_up n id a r :
    m !! id = Some a → resumable a = false → nearest_paused m n (at_source_attempt_id a) r →
    nearest_paused m (S n) (Some id) r.

Lemma nearest_unique m n o r :
  nearest_paused m n o r → ∀ n' r', nearest_paused m n' o r' → n' = n ∧ r' = r.
Proof.
  induction 1 as [|id a Ha Hres|n id a r Ha Hres _ IH]; intros n' r' Hn.
  - by inversion Hn.
  - inversion Hn; simplify_eq; [done|congruence].
  - inversion Hn as [| |k i b s Hb Hb' Hs]; simplify_eq; [congruence|]. by destruct (IH k r') as [-> ->].
Qed.

(** Distinct keys of a map are no more than the map has. *)
Lemma keys_bound {A} (m : gmap string A) l : NoDup l → (∀ i, i ∈ l → is_Some (m !! i)) → (length l ≤ size m)%nat.
Proof.
  intros Hnd Hl. rewrite <- size_dom, <- (size_list_to_set (C := gset string) l) by done.
  apply subseteq_size. intros i Hi%elem_of_list_to_set. apply elem_of_dom. auto.
Qed.

Section Ancestors.
Context `{Env}.
Implicit Types visited : list string.

Lemma paused_source_unfold fuel visited id w :
  paused_source fuel visited (Some id) w =
  if in_texts id visited then Err (InvalidTransition "attempt_lineage_cycle" "source_attempt") w
  else match attempts (w_db w) !! id with
       | None => Err (NotFound "attempt" id) w
       | Some a =>
           if resumable a then Ok (Some (id, a)) w
           else match fuel with
                | O => Err (RuntimeError "out of fuel") w
                | S fuel' => paused_source fuel' (id :: visited) (at_source_attempt_id a) w
                end
       end.
Proof.
  unfold resumable. destruct fuel; simpl; destruct (in_texts id visited); simpl; try done;
    unfold attempt, query, gets, from_option, mbind, M_bind; simpl;
    destruct (attempts (w_db w) !! id); simpl; try done; by destruct (_ && _).
Qed.

Definition visit_ok (m : gmap string attempt_row) fuel visited : Prop :=
  NoDup visited ∧ (∀ i, i ∈ visited → is_Some (m !! i)) ∧ (size m ≤ fuel + length visited)%nat.
Lemma visit_more m fuel visited id a :
  visit_ok m fuel visited → in_texts id visited = false → m !! id = Some a →
  ∃ fuel', fuel = S fuel' ∧ visit_ok m fuel' (id :: visited).
Proof.
  intros (Hnd & Hin & Hs) Hid Ha.
  assert (NoDup (id :: visited)) as Hnd'.
  { constructor; [|done]. intros Hi%in_texts_spec. congruence. }
  assert (∀ i, i ∈ id :: visited → is_Some (m !! i)) as Hin'.
  { intros i [-> | Hi]%elem_of_cons; [by eexists|auto]. }
  pose proof (keys_bound m _ Hnd' Hin') as Hb. simpl in Hb.
  destruct fuel as [|fuel']; [lia|]. exists fuel'. split; [done|]. split_and!; [done..|]. simpl. lia.
Qed.

Lemma paused_source_finds w fuel : ∀ visited n o r,
  visit_ok (attempts (w_db w)) fuel visited → nearest_paused (attempts (w_db w)) n o r →
  (∀ v, v ∈ visited → ∃ k, (n < k)%nat ∧ nearest_paused (attempts (w_db w)) k (Some v) r) →
  paused_source fuel visited o w = Ok r w.
Proof.
  induction fuel as [|fuel IH]; intros visited n o r Hv Hn Hk;
    inversion Hn as [|id a Ha Hres|k id a r0 Ha Hres Hup]; subst; try done;
    rewrite paused_source_unfold;
    (destruct (in_texts id visited) eqn:Ei;
      [apply in_texts_spec in Ei; destruct (Hk id Ei) as (j & Hlt & Hj);
       destruct (nearest_unique _ _ _ _ Hn _ _ Hj); lia|]);
    rewrite Ha, Hres; try done;
    destruct (visit_more _ _ _ _ _ Hv Ei Ha) as (fuel' & [=] & Hv'). subst fuel'.
  apply (IH _ k); [done..|]. intros v [-> | Hv0]%elem_of_cons; [exists (S k); split; [lia|done]|].
  destruct (Hk v Hv0) as (j & ? & ?). exists j. split; [lia|done].
Qed.
Lemma paused_source_sound w fuel : ∀ visited o r w',
  paused_source fuel visited o w = Ok r w' → w' = w ∧ ∃ n, nearest_paused (attempts (w_db w)) n o r.
Proof.
  induction fuel as [|fuel IH]; intros visited [id|] r w'; try (intros [= <- <-]; split; [done|]; exists 0%nat; constructor);
    rewrite paused_source_unfold; repeat case_match; try done.
  - intros [= <- <-]. split; [done|]. exists 0%nat. by constructor.
  - intros [= <- <-]. split; [done|]. exists 0%nat. by constructor.
  - intros Hp. destruct (IH _ _ _ _ Hp) as (-> & n & Hn). split; [done|]. exists (S n). by econstructor.
Qed.
Lemma paused_source_errs w fuel : ∀ visited o e w',
  visit_ok (attempts (w_db w)) fuel visited → paused_source fuel visited o w = Err e w' →
  w' = w ∧ ((∃ id, e = NotFound "attempt" id ∧ attempts (w_db w) !! id = None)
            ∨ e = InvalidTransition "attempt_lineage_cycle" "source_attempt").
Proof.
  induction fuel as [|fuel IH]; intros visited [id|] e w' Hv; try done;
    rewrite paused_source_unfold; (destruct (in_texts id visited) eqn:Ei; [intros [= <- <-]; auto|]);
    (destruct (attempts (w_db w) !! id) as [a|] eqn:Ha; [|intros [= <- <-]; eauto]);
    (destruct (resumable a); [done|]);
    destruct (visit_more _ _ _ _ _ Hv Ei Ha) as (fuel' & [=] & Hv'); subst fuel'.
  by apply IH.
Qed.

(** C32: looking for the paused attempt a run can go back to always ends, and finds
    the nearest one.  Whatever the chain of source attempts, cycles included, the loop
    of [_paused_source_attempt] stops within as many steps as there are attempts; it
    answers exactly when the chain has a first paused attempt with a checkpoint, or
    ends without one, and else reports the missing attempt or the cycle. *)
Theorem paused_source_total a w :
  (∀ r w', paused_source_attempt a w = Ok r w' ↔
     w' = w ∧ ∃ n, nearest_paused (attempts (w_db w)) n (at_source_attempt_id a) r) ∧
  (∀ e w', paused_source_attempt a w = Err e w' →
     w' = w ∧ ((∃ id, e = NotFound "attempt" id ∧ attempts (w_db w) !! id = None)
               ∨ e = InvalidTransition "attempt_lineage_cycle" "source_attempt")).
Proof.
  assert (paused_source_attempt a w
    = paused_source (size (attempts (w_db w))) [] (at_source_attempt_id a) w) as E by done.
  assert (visit_ok (attempts (w_db w)) (size (attempts (w_db w))) []) as Hv.
  { split_and!; [constructor|by intros i Hi%not_elem_of_nil|simpl; lia]. }
  rewrite E. split.
  - intros r w'. split; [apply paused_source_sound|]. intros (-> & n & Hn).
    apply (paused_source_finds _ _ _ n); [done..|]. by intros v Hi%not_elem_of_nil.
  - intros e w'. by apply paused_source_errs.
Qed.
End Ancestors.

(** ** Reservations *)

Section Reservations.
Context `{Env}.

Lemma update_attempt_ok id p f w n w' :
  update_attempt id p f w = Ok n w' ↔
  match attempts (w_db w) !! id with
  | Some a => if p a then n = 1 ∧ w' = on_db (set_attempts (<[id := f a]>)) w else n = 0 ∧ w' = w
  | None => n = 0 ∧ w' = w
  end.
Proof.
  unfold update_attempt, query, gets, execute, modify, mbind, M_bind, mret, M_ret.
  destruct (attempts (w_db w) !! id) as [a|]; [|naive_solver]. destruct (p a); naive_solver.
Qed.

Lemma reserve_body_ok run_id att owner i n lease w v code w' :
  reserve_body run_id att owner i n lease w = Ok (v, code) w' →
  ∃ a expires, attempts (w_db w) !! att = Some a ∧
    reservable owner (format_time (clock (w_ticks w))) i a = true ∧
    dt_add_seconds (clock (w_ticks w)) lease = Some expires ∧
    attempts (w_db w') = <[att := at_reserve owner (format_time expires) i a]> (attempts (w_db w)).
Proof.
  intros Hb. unfold reserve_body in Hb.
  apply bind_ok in Hb as (r & ? & Hr & Hb). apply run_at_ok in Hr as (_ & _ & _ & ->).
  apply bind_ok in Hb as (? & ? & (_ & _ & ->)%ensure_ok & Hb).
  apply bind_ok in Hb as (? & ? & (_ & _ & ->)%ensure_ok & Hb).
  apply bind_ok in Hb as (a & ? & (Ha & ->)%attempt_ok & Hb).
  apply bind_ok in Hb as (? & ? & (_ & _ & ->)%ensure_ok & Hb).
  apply bind_ok in Hb as (t & w1 & [-> ->]%utc_now_ok & Hb).
  apply bind_ok in Hb as (expires & w2 & Hex & Hb). apply format_after_ok in Hex as (e & He & -> & ->).
  apply bind_ok in Hb as (k & w3 & Hu & Hb). apply update_attempt_ok in Hu. cbn in Hu. rewrite Ha in Hu.
  apply bind_ok in Hb as (? & ? & (Hk & _ & ->)%ensure_ok & Hb).
  destruct (reservable _ _ _ a) eqn:Er; [|by destruct Hu as [-> _]]. destruct Hu as [_ ->].
  exists a, e. split_and!; try done. simpl in Hb.
  assert (attempts (w_db w') = attempts (w_db (on_db (set_attempts
    <[att := at_reserve owner (format_time e) i a]>) (World (w_db w) (S (w_ticks w)) (w_ids w))))) as ->;
    [|done].
  revert Hb. apply (keeps_ok (λ w, attempts (w_db w))).
  apply keeps_bind; [apply (keeps_update_run attempts); done|intros _].
  apply keeps_bind; [eauto with keeps|intros _]. apply keeps_bind; eauto with keeps.
Qed.

Lemma pin_body_ok run_id att binding release generation owner n w v code w' :
  pin_body run_id att binding release generation owner n w = Ok (v, code) w' →
  ∃ a, attempts (w_db w) !! att = Some a ∧ at_runtime_binding_id a = None ∧
    pinnable owner release generation a = true ∧
    text_after (at_dispatch_expires_at a) (format_time (clock (w_ticks w))) = true ∧
    attempts (w_db w') = <[att := at_bind binding a]> (attempts (w_db w)).
Proof.
  intros Hb. unfold pin_body in Hb.
  apply bind_ok in Hb as (r & ? & Hr & Hb). apply run_at_ok in Hr as (_ & _ & _ & ->).
  apply bind_ok in Hb as (? & ? & (_ & _ & ->)%ensure_ok & Hb).
  apply bind_ok in Hb as (a & ? & (Ha & ->)%attempt_ok & Hb).
  apply bind_ok in Hb as ([b vb] & w1 & Hbd & Hb).
  pose proof (keeps_ok w_db _ _ _ _ (keeps_runtime_binding (λ d, d) _) Hbd) as E1.
  assert (w_ticks w1 = w_ticks w) as T1.
  { unfold runtime_binding in Hbd. mgo. done. }
  apply bind_ok in Hb as (? & ? & (_ & _ & ->)%ensure_ok & Hb).
  apply bind_ok in Hb as (? & ? & (Hub & _ & ->)%ensure_ok & Hb). apply bool_decide_eq_true in Hub.
  apply bind_ok in Hb as (lv & w2 & Hl & Hb).
  apply bind_ok in Hb as (? & ? & (-> & _ & ->)%ensure_ok & Hb).
  destruct (pinnable owner release generation a && _) eqn:Ep;
    [|by apply ret_ok in Hl as [? _]]. apply andb_true_iff in Ep as [Ep _].
  apply bind_ok in Hl as (t & w3 & [-> ->]%now_ok & [Ht <-]%ret_ok). rewrite T1 in Ht.
  apply bind_ok in Hb as (t2 & w4 & [-> ->]%now_ok & Hb).
  apply bind_ok in Hb as (k & w5 & Hu & Hb). apply update_attempt_ok in Hu. cbn in Hu.
  rewrite E1, Ha in Hu. apply bind_ok in Hb as (? & ? & (Hk & _ & ->)%ensure_ok & Hb).
  destruct (_ && _ && _ && _ && _); [|by destruct Hu as [-> _]]. destruct Hu as [_ ->].
  exists a. split_and!; try done.
  match type of Hb with ?m ?w0 = _ => change (<[att := at_bind binding a]> (attempts (w_db w)))
    with (attempts (w_db w0)) end.
  revert Hb. apply (keeps_ok (λ w, attempts (w_db w))).
  apply keeps_bind; [eauto with keeps|intros].
  apply keeps_bind; [apply (keeps_update_run attempts); done|intros _].
  apply keeps_bind; [eauto with keeps|intros _]. apply keeps_bind; eauto with keeps.
Qed.

(** What a reservation leaves of the attempt it finds. *)
Definition same_identity (i : runtime_identity) (a : attempt_row) : Prop :=
  (∀ x, at_runtime_release_id a = Some x → x = ri_release i) ∧
  (∀ x, at_state_generation_id a = Some x → x = ri_generation i) ∧
  (∀ x, at_runtime_slot_id a = Some x → x = ri_slot i) ∧
  (∀ x, at_runtime_artifact_digest a = Some x → x = ri_digest i) ∧
  (∀ x, at_runtime_worker_protocol a = Some x → x = ri_protocol i).
Lemma unset_or_eq o s : unset_or o s = true → ∀ x, o = Some x → x = s.
Proof. destruct o; simpl; [|done]. intros ->%String.eqb_eq. by intros ? [= ->]. Qed.
Definition stripped (i : runtime_identity) : runtime_identity :=
  RuntimeIdentity (strip (ri_release i)) (strip (ri_generation i)) (strip (ri_slot i))
    (strip (ri_digest i)) (strip (ri_protocol i)).

(** C14: an attempt is dispatched by one owner at a time, once.  A fresh reservation
    finds the attempt unbound and its own, free, or lapsed at that reading of the
    clock, keeps every part of the runtime identity that was chosen before, and runs
    for its lease; and only the owner whose reservation is live at that reading can
    bind the attempt to a runtime, which ends the reservation. *)
Theorem dispatch_exclusive run_id att owner i n lease actor key w res w' a :
  attempts (w_db w) !! att = Some a →
  (reserve_attempt_dispatch run_id att owner i n lease actor key w = Ok res w' →
   cr_replayed res = false →
   at_runtime_binding_id a = None ∧
   (at_dispatch_owner a = None ∨ at_dispatch_owner a = Some (strip owner) ∨
    ∃ e, at_dispatch_expires_at a = Some e ∧ str_le e (format_time (clock (w_ticks w))) = true) ∧
   same_identity (stripped i) a ∧
   ∃ expires, dt_add_seconds (clock (w_ticks w)) lease = Some expires ∧
     attempts (w_db w') !! att = Some (at_reserve (strip owner) (format_time expires) (stripped i) a)) ∧
  (∀ binding release g o,
   pin_attempt_runtime run_id att binding release n g o actor key w = Ok res w' →
   cr_replayed res = false →
   at_runtime_binding_id a = None ∧
   (∃ o', o = Some o' ∧ at_dispatch_owner a = Some (strip o')) ∧
   (∃ e, at_dispatch_expires_at a = Some e ∧ str_lt (format_time (clock (w_ticks w))) e = true) ∧
   attempts (w_db w') !! att = Some (at_bind binding a)).
Proof.
  intros Ha. split.
  - intros Hm Hf. unfold reserve_attempt_dispatch, check_lease in Hm. mgo.
    match type of Hm with match ?x with _ => _ end _ = _ => destruct x as [saved|] end.
    + exfalso. match goal with H : match ?o with Some _ => _ | None => _ end |- _ =>
        destruct o; [destruct H as (_ & v & _ & Es)|discriminate] end.
      injection Es as ->. mgo. subst. discriminate.
    + apply bind_ok in Hm as ([v code] & w2 & Hb & Hs).
      apply reserve_body_ok in Hb as (a' & e & Ha' & Hres & He & E). cbn in *. simplify_eq.
      apply save_receipt_ok in Hs as (_ & _ & ->). unfold reservable in Hres.
      rewrite !andb_true_iff, orb_true_iff in Hres.
      destruct Hres as ((((((Hb0 & Hown) & ?) & ?) & ?) & ?) & ?).
      apply bool_decide_eq_true in Hb0. split; [done|]. split; [|split].
      * destruct Hown as [Hown | Hown].
        -- destruct (at_dispatch_owner a) as [x|]; [|by left]. right. left.
           by rewrite (unset_or_eq _ _ Hown x eq_refl).
        -- right. right. unfold text_until in Hown.
           destruct (at_dispatch_expires_at a) as [x|]; [|done]. by exists x.
      * split_and!; by apply unset_or_eq.
      * exists e. split; [done|]. cbn. by rewrite E, lookup_insert_eq.
  - intros binding release g o Hm Hf. unfold pin_attempt_runtime, required_opt in Hm.
    destruct g as [g|], o as [o|]; mgo.
    match goal with H : command _ _ _ _ _ _ = _ |- _ => apply command_ok in H as [_ Hc] end.
    destruct (idempotency_receipts _ !! _); [by destruct Hc as (_ & _ & v & _ & ->)|].
    destruct Hc as (v & code & w1 & Hb & (_ & _ & ->)%save_receipt_ok).
    apply pin_body_ok in Hb as (a' & Ha' & Hu & Hp & Hl & E). simplify_eq. split; [done|].
    unfold pinnable in Hp. bools. split; [eauto|]. split.
    + unfold text_after in Hl. destruct (at_dispatch_expires_at a) as [e|]; [|done]. by exists e.
    + cbn. by rewrite E, lookup_insert_eq.
Qed.
End Reservations.

Definition demo_created_run : list run_command := Eval vm_compute in take 3 demo_failed_run.
Definition demo_reserved_run : list run_command := Eval vm_compute in take 5 demo_failed_run.
Notation demo_created := (run_session demo_created_run demo_store).
Notation demo_reserved := (run_session demo_reserved_run demo_store).
Notation demo_reserve := (reserve_attempt_dispatch "run-4" "attempt-5" "disp" demo_identity 0 60 "d"
  (demo_key 4) demo_created).
Notation demo_pin := (pin_attempt_runtime "run-4" "attempt-5" "runtime_binding-8" "rel" 1 (Some "gen")
  (Some "disp") "d" (demo_key 6) demo_reserved).
Lemma demo_reserve_answered :
  demo_reserve = Ok (answer no_result demo_reserve) (end_world demo_reserve) ∧
  cr_replayed (answer no_result demo_reserve) = false ∧
  is_Some (attempts (w_db demo_created) !! "attempt-5").
Proof. split_and!; [apply answered| |eexists]; vm_compute; reflexivity. Qed.
Lemma demo_pin_answered :
  demo_pin = Ok (answer no_result demo_pin) (end_world demo_pin) ∧
  cr_replayed (answer no_result demo_pin) = false ∧
  is_Some (attempts (w_db demo_reserved) !! "attempt-5").
Proof. split_and!; [apply answered| |eexists]; vm_compute; reflexivity. Qed.
Lemma dispatch_exclusive_witness :
  (∃ a e, at_runtime_binding_id a = None ∧ attempts (w_db (end_world demo_reserve)) !! "attempt-5"
     = Some (at_reserve (strip "disp") e (stripped demo_identity) a)) ∧
  (∃ a, at_runtime_binding_id a = None ∧ attempts (w_db (end_world demo_pin)) !! "attempt-5"
     = Some (at_bind "runtime_binding-8" a)).
Proof.
  split.
  - destruct demo_reserve_answered as (H1 & H2 & a & Ha).
    destruct (proj1 (dispatch_exclusive "run-4" "attempt-5" "disp" demo_identity 0 60 "d" (demo_key 4)
      demo_created (answer no_result demo_reserve) (end_world demo_reserve) a Ha) H1 H2)
      as (Hu & _ & _ & e & _ & He).
    exists a, (format_time e). exact (conj Hu He).
  - destruct demo_pin_answered as (H1 & H2 & a & Ha).
    destruct (proj2 (dispatch_exclusive "run-4" "attempt-5" "disp" demo_identity 1 60 "d" (demo_key 6)
      demo_reserved (answer no_result demo_pin) (end_world demo_pin) a Ha)
      "runtime_binding-8" "rel" (Some "gen") (Some "disp") H1 H2) as (Hu & _ & _ & Hb).
    exists a. exact (conj Hu Hb).
Defined.
