(* ===== verification/EventTheorems.v ===== *)
(** * Runtime events: their theorems

    The inbox applies each event of a runtime once and in order; a run that ends
    leaves nothing open. *)

From S2P Require Import Prelude PyText Clock Json Schema Store Demo Threads ThreadFacts Runs RuntimeActions PinReleases RuntimeFacts PinFacts RunClosing ClosingFacts ClosingTheorems RuntimeSessions Resources Dispatch RuntimeEvents Decisions RunRestart RunLife RunCalls RunSteps QueueSteps LifeSessions LifeTheorems.
Open Scope Z_scope.

Section Inbox.
Context `{Env}.

(** What looking an event up answers. *)
Lemma event_replay_ok att e n c fields w res w' :
  ca_event_id c = Some e → ca_sequence c = Some n →
  runtime_event_replay att c fields w = Ok res w' ↔
  w' = w ∧ has_text att = true ∧ event_id_ok e = true ∧ 0 <= n ∧
  match runtime_event_inbox (w_db w) !! (default "" att, e) with
  | Some b =>
      ib_adapter_event_sequence b = Some n ∧ ib_payload_hash b = request_hash (logical_request fields) ∧
      ∃ v, loads (ib_response_json b) = Some v ∧ res = Some (CommandResult v (ib_status_code b) true)
  | None =>
      existsb (Z.eqb n) (inbox_sequences (default "" att) (w_db w)) = false ∧
      n = next_event_sequence (default "" att) (w_db w) ∧ res = None
  end.
Proof.
  intros He Hn. unfold runtime_event_replay. rewrite He, Hn.
  unfold ensure, query, gets, json_loads, from_option, mbind, M_bind, mret, M_ret, raise. simpl.
  destruct (has_text att); [|naive_solver]. destruct (event_id_ok e); [|naive_solver].
  destruct (Z.leb_spec 0 n); [|split; [done|naive_solver lia]].
  destruct (runtime_event_inbox (w_db w) !! (default "" att, e)) as [b|].
  - destruct (bool_decide (ib_adapter_event_sequence b = Some n)) eqn:E1; simpl;
      [apply bool_decide_eq_true in E1|apply bool_decide_eq_false in E1; naive_solver].
    destruct (String.eqb_spec (ib_payload_hash b) (request_hash (logical_request fields))); [|naive_solver].
    destruct (loads (ib_response_json b)); naive_solver.
  - destruct (existsb _ _); simpl; [naive_solver|].
    destruct (Z.eqb_spec n (next_event_sequence (default "" att) (w_db w))); naive_solver.
Qed.
Lemma event_replay_conflict att e n c fields w b :
  ca_event_id c = Some e → ca_sequence c = Some n → has_text att = true → event_id_ok e = true →
  0 <= n → runtime_event_inbox (w_db w) !! (default "" att, e) = Some b →
  ib_adapter_event_sequence b ≠ Some n ∨ ib_payload_hash b ≠ request_hash (logical_request fields) →
  runtime_event_replay att c fields w = Err IdempotencyConflict w.
Proof.
  intros He Hn Ha Hid Hle Hb Hne. unfold runtime_event_replay. rewrite He, Hn, Ha, Hid.
  unfold ensure, query, gets, from_option, mbind, M_bind, mret, M_ret, raise. simpl.
  rewrite (proj2 (Z.leb_le 0 n)) by done. rewrite Hb.
  destruct Hne as [Hne | Hne%String.eqb_neq].
  - by rewrite bool_decide_eq_false_2.
  - by rewrite Hne, andb_false_r.
Qed.

Lemma save_event_ok att e n c fields r w u w' :
  ca_event_id c = Some e → ca_sequence c = Some n →
  save_runtime_event (Some att) c fields r w = Ok u w' →
  runtime_event_inbox (w_db w) !! (att, e) = None ∧
  existsb (Z.eqb n) (inbox_sequences att (w_db w)) = false ∧
  ∃ t, runtime_event_inbox (w_db w') = <[(att, e) := InboxRow
    (request_hash (logical_request fields)) (cr_status_code r) (json_text (cr_value r)) t (Some n)]>
    (runtime_event_inbox (w_db w)).
Proof.
  intros He Hn. unfold save_runtime_event. rewrite He, Hn. intros Hm. mgo.
  rewrite !andb_true_iff, bool_decide_eq_true, negb_true_iff in *. simpl in *. naive_solver.
Qed.

(** A body that files its event under an attempt. *)
Class FilesUnder (att : string) (body : Store (json * Z * option string)) : Prop :=
  files_under : ∀ w v code filed w', body w = Ok (v, code, filed) w' → filed = Some att.

Lemma event_command_fresh att e n a o k fields c body w r w' `{!FilesUnder att body} :
  ca_event_id c = Some e → ca_sequence c = Some n →
  event_command a o k fields (Some att) c body w = Ok r w' → cr_replayed r = false →
  has_text (Some att) = true ∧ event_id_ok e = true ∧ 0 <= n ∧
  n = next_event_sequence att (w_db w) ∧ runtime_event_inbox (w_db w) !! (att, e) = None ∧
  ∃ v code w1 r1 w2, body w = Ok (v, code, Some att) w1 ∧
    save_receipt a o k (JObj fields) v code w1 = Ok r w2 ∧
    save_runtime_event (Some att) c (("operation", JStr o) :: fields) r w2 = Ok r1 w'.
Proof.
  intros He Hn Hm Hf. unfold event_command in Hm. rewrite transaction_ok in Hm.
  apply bind_ok in Hm as (replay & ? & Hr & Hm). rewrite receipt_ok in Hr. destruct Hr as (-> & _ & Hr).
  destruct replay as [saved|].
  { exfalso. destruct (idempotency_receipts _ !! _); [|done]. destruct Hr as (_ & v & _ & [= ->]).
    by apply ret_ok in Hm as [<- _]. }
  apply bind_ok in Hm as (seen & w1 & Hs & Hm). rewrite (event_replay_ok _ e n) in Hs by done.
  destruct Hs as (-> & Ha & Hid & Hle & Hs). simpl in Hs.
  destruct (runtime_event_inbox (w_db w) !! (att, e)) as [b|].
  { exfalso. destruct Hs as (_ & _ & v & _ & ->). by apply ret_ok in Hm as [<- _]. }
  destruct Hs as (_ & Hnx & ->). cbn beta iota zeta in Hm.
  apply bind_ok in Hm as ([[v code] filed] & w2 & Hb & Hm).
  pose proof (files_under _ _ _ _ _ Hb) as ->.
  apply bind_ok in Hm as (r0 & w3 & Hsr & Hm). apply bind_ok in Hm as (u & w4 & Hse & [<- <-]%ret_ok).
  split_and!; try done. by exists v, code, w2, u, w3.
Qed.

#[export] Instance transition_files run_id target n actor stage payload att b rel g c :
  is_request target = false →
  FilesUnder att (transition_body run_id target n actor stage payload (Some att) b rel g c).
Proof.
  intros Ht w v code filed w' Hm. unfold transition_body in Hm. rewrite Ht in Hm.
  apply bind_ok in Hm as ([r v0] & w1 & _ & Hm). do 3 apply bind_ok in Hm as (? & ? & _ & Hm).
  apply bind_ok in Hm as ([source ck] & w2 & Hs & Hm). do 3 apply bind_ok in Hm as (? & ? & _ & Hm).
  apply bind_ok in Hm as ([[lost action] closed] & w3 & _ & Hm).
  apply bind_ok in Hm as ([expired pin] & w4 & _ & Hm). apply bind_ok in Hm as (? & ? & _ & Hm).
  apply bind_ok in Hm as ([? ?] & ? & _ & Hm). apply ret_ok in Hm as [Hf _]. injection Hf as _ _ <-.
  apply bind_ok in Hs as (? & ? & _ & Hs). apply bind_ok in Hs as (a & ? & Hid & _).
  apply validate_identity_active in Hid as [-> _]. done.
Qed.
Ltac files := intros w v code filed w' Hm;
  repeat first [apply bind_ok in Hm as (? & ? & _ & Hm) |
    match type of Hm with (let '(_, _) := ?x in _) _ = _ => destruct x end];
  apply ret_ok in Hm as [Hm _]; by injection Hm.
#[export] Instance message_files run_id s content n c :
  FilesUnder (se_attempt s) (runtime_message_body run_id s content n c).
Proof. unfold runtime_message_body. files. Qed.
#[export] Instance checkpoint_files run_id s uri n c :
  FilesUnder (se_attempt s) (checkpoint_body run_id s uri n c).
Proof. unfold checkpoint_body. files. Qed.
#[export] Instance decision_files run_id s kind prompt options dref drev n c :
  FilesUnder (se_attempt s) (create_decision_body run_id s kind prompt options dref drev n c).
Proof. unfold create_decision_body. files. Qed.

(** C13: an event of a runtime is applied once and in order.  It is taken only with the
    next sequence number of its attempt.  Once it was answered, the same event sent
    again, under any other idempotency key, caller or expected revision and at any
    later time, answers what it answered and writes nothing; and an event that reuses
    the name with another content or sequence number is refused as a conflict. *)
Theorem event_applied_once att e n a o k fields c body w r w' `{!FilesUnder att body} :
  ca_event_id c = Some e → ca_sequence c = Some n →
  event_command a o k fields (Some att) c body w = Ok r w' → cr_replayed r = false →
  n = next_event_sequence att (w_db w) ∧
  ∀ a2 o2 k2 fields2 c2 n2 body2 w2,
    ca_event_id c2 = Some e → ca_sequence c2 = Some n2 → 0 <= n2 →
    key_ok k2 = true → idempotency_receipts (w_db w2) !! (a2, o2, k2) = None →
    runtime_event_inbox (w_db w2) !! (att, e) = runtime_event_inbox (w_db w') !! (att, e) →
    let same := n2 = n ∧ request_hash (logical_request (("operation", JStr o2) :: fields2))
                         = request_hash (logical_request (("operation", JStr o) :: fields)) in
    (same → ∀ v, loads (json_text (cr_value r)) = Some v →
       event_command a2 o2 k2 fields2 (Some att) c2 body2 w2
       = Ok (CommandResult v (cr_status_code r) true) w2) ∧
    (¬ same → ∃ w3, event_command a2 o2 k2 fields2 (Some att) c2 body2 w2 = Err IdempotencyConflict w3
       ∧ w_db w3 = w_db w2).
Proof.
  intros He Hn Hm Hf.
  destruct (event_command_fresh att e n a o k fields c body w r w' He Hn Hm Hf)
    as (Hat & Hid & Hle & Hnx & _ & v & code & w1 & u & w2' & Hb & Hsr & Hse).
  split; [done|]. intros a2 o2 k2 fields2 c2 n2 body2 w2 He2 Hn2 Hle2 Hk Hrc Hin.
  apply (save_event_ok _ e n) in Hse as (_ & _ & t & E); [|done..]. rewrite E, lookup_insert_eq in Hin.
  assert (receipt a2 o2 k2 (JObj fields2) w2 = Ok None w2) as Hr2.
  { apply receipt_ok. by rewrite Hrc. }
  split.
  - intros [-> Hh] v' Hv.
    assert (runtime_event_replay (Some att) c2 (("operation", JStr o2) :: fields2) w2
      = Ok (Some (CommandResult v' (cr_status_code r) true)) w2) as Hsame.
    { apply (event_replay_ok _ e n); [done..|]. cbn [default]. unfold id. rewrite Hin.
      split_and!; try done. exists v'. done. }
    unfold event_command. rewrite transaction_ok, (bind_run _ _ _ _ _ Hr2).
    cbn beta iota zeta. by rewrite (bind_run _ _ _ _ _ Hsame).
  - intros Hne. unfold event_command.
    assert (runtime_event_replay (Some att) c2 (("operation", JStr o2) :: fields2) w2
      = Err IdempotencyConflict w2) as Hcf.
    { eapply event_replay_conflict; [done..|exact Hin|]. cbn.
      destruct (decide (n2 = n)) as [-> | ?]; [right|left; congruence]. intros Eh. apply Hne. done. }
    eexists. unfold transaction. rewrite (bind_run _ _ _ _ _ Hr2). cbn beta iota zeta.
    rewrite (bind_run_err _ _ _ _ _ Hcf). done.
Qed.
End Inbox.

Section Ending.
Context `{Env}.

(** Ending a run, table by table. *)
Lemma fail_pending_ok run_id att t w l w' :
  fail_pending_runtime_actions run_id att t w = Ok l w' →
  ∀ i a, runtime_actions (w_db w') !! i = Some a → pending_of run_id att a = false.
Proof.
  unfold fail_pending_runtime_actions. intros Hm i a.
  apply bind_ok in Hm as (rows & ? & [-> ->]%query_ok & Hm).
  destruct (map fst _) as [|y l'] eqn:E.
  - apply ret_ok in Hm as [_ <-]. intros Hi. apply map_eq_nil in E.
    destruct (pending_of run_id att a) eqn:Hp; [|done]. exfalso.
    apply (not_elem_of_nil (i, a)). rewrite <- E. unfold actions_where.
    rewrite elem_of_isort, list_elem_of_In, List.filter_In, <- list_elem_of_In, elem_of_map_to_list. done.
  - apply bind_ok in Hm as (? & ? & [_ ->]%execute_ok & [_ <-]%ret_ok).
    apply update_where_clears. intros b _. unfold pending_of. cbn. by rewrite andb_false_r.
Qed.
Lemma expire_decisions_ok run_id t w l w' :
  expire_decisions run_id t w = Ok l w' →
  ∀ i q, decisions (w_db w') !! i = Some q → open_decision run_id q = false.
Proof.
  unfold expire_decisions. intros Hm i q.
  apply bind_ok in Hm as (rows & ? & [-> ->]%query_ok & Hm).
  destruct (map fst _) as [|y l'] eqn:E.
  - apply ret_ok in Hm as [_ <-]. intros Hi. apply map_eq_nil in E.
    by apply (oldest_nil _ _ _ E i).
  - apply bind_ok in Hm as (? & ? & [_ ->]%execute_ok & [_ <-]%ret_ok).
    apply (update_where_clears (open_decision run_id)). intros r _.
    unfold open_decision. cbn. by rewrite andb_false_r.
Qed.
Lemma release_pin_of_ok run_id att t w o w' :
  release_pin_of run_id att t w = Ok o w' →
  ∃ a, attempts (w_db w) !! att = Some a ∧
    (is_Some (at_runtime_release_id a) → is_Some (at_state_generation_id a) →
     ∃ id p, runtime_pin_releases (w_db w') !! id = Some p ∧ pin_of att a p).
Proof.
  unfold release_pin_of. intros Hm. apply bind_ok in Hm as (a & ? & (Ha & ->)%attempt_ok & Hm).
  exists a. split; [done|]. intros H1 H2. rewrite !bool_decide_eq_true_2 in Hm by done. cbn [andb] in Hm.
  apply bind_ok in Hm as (id & w1 & Hi & [_ <-]%ret_ok). exists id.
  by destruct (proj1 (insert_pin_ok _ _ _ _ _ _ _ Hi)) as (p & Hp & Hof); exists p.
Qed.

(** What a run that ended leaves behind. *)
Record run_over (run_id target : string) (d : db) : Prop := {
  ro_run : ∃ r, runs d !! run_id = Some r ∧ ru_state r = target ∧
    (∀ th, threads d !! ru_thread_id r = Some th → th_active_run_id th ≠ Some run_id) ∧
    ∀ att, ru_active_attempt_id r = Some att → att ≠ "" →
      (∀ i a, runtime_actions d !! i = Some a → pending_of run_id att a = false) ∧
      ∃ at_, attempts d !! att = Some at_ ∧ at_state at_ = target ∧ is_Some (at_finished_at at_) ∧
        (is_Some (at_runtime_release_id at_) → is_Some (at_state_generation_id at_) →
         ∃ i p, runtime_pin_releases d !! i = Some p ∧ pin_of att at_ p);
  ro_decisions : ∀ i q, decisions d !! i = Some q → open_decision run_id q = false;
  ro_intents : ∀ i s, source_intents d !! i = Some s → open_intent run_id s = false;
  ro_waiters : ∀ i x, source_import_waiters d !! i = Some x → open_waiter run_id x = false;
  ro_artifacts : ∀ i m, artifact_materialization_actions d !! i = Some m →
    pending_version (of_run run_id) d m && unfinished (ma_state m) = false }.

Lemma keeps_fail_pending {V} (view : db → V) run_id att t :
  (∀ f d, view (set_runtime_actions f d) = view d) →
  keeps (λ w, view (w_db w)) (fail_pending_runtime_actions run_id att t).
Proof.
  intros Hv. unfold fail_pending_runtime_actions. apply keeps_bind; [eauto with keeps|intros rows].
  case_match; [eauto with keeps|]. apply keeps_bind; [by apply keeps_execute_view|eauto with keeps].
Qed.
(** The rows a transition to an end writes, after the closing. *)
Lemma terminal_rows_over run_id r target n stage t w w1 lost action closed x w' :
  is_terminal target = true → runs (w_db w) !! run_id = Some r → ru_revision r = n →
  transition_settle run_id target (ru_active_attempt_id r) t w = Ok (lost, action, closed) w1 →
  transition_rows run_id (ru_thread_id r) target n stage (ru_active_attempt_id r) t w1 = Ok x w' →
  run_over run_id target (w_db w').
Proof.
  intros Ht Hr Hn Hs Hw. assert (String.eqb target "cancel_requested" = false ∧
    String.eqb target "pause_requested" = false ∧ String.eqb target "paused" = false) as (E1 & E2 & E3).
  { clear -Ht. apply in_texts_spec in Ht. unfold TERMINAL_RUN_STATES in Ht.
    split_and!; apply String.eqb_neq; intros ->; set_solver. }
  unfold transition_settle in Hs. rewrite E1, E2, E3, Ht in Hs. cbn [orb andb] in Hs.
  unfold transition_rows in Hw. rewrite Ht, E3 in Hw. cbn [orb] in Hw.
  apply bind_ok in Hs as (? & ? & [_ <-]%ret_ok & Hs).
  apply bind_ok in Hs as (lost' & w2 & Hf & Hs). apply bind_ok in Hs as (? & ? & [_ <-]%ret_ok & Hs).
  apply bind_ok in Hs as (cl & w3 & Hc & [_ <-]%ret_ok).
  assert ((runs (w_db w2), threads (w_db w2)) = (runs (w_db w), threads (w_db w))) as [= Er2 Et2].
  { destruct (has_text _); [|by apply ret_ok in Hf as [_ <-]].
    by apply (keeps_ok _ _ _ _ _ (keeps_fail_pending (λ d, (runs d, threads d)) _ _ _ ltac:(done)) Hf). }
  pose proof (closed_run _ _ _ _ (close_source_work_ok _ _ _ _ _ Hc)) as [Ri _ Rw Ra _ _].
  apply (keeps_ok _ _ _ _ _ (keeps_closing (λ d, (other_view d, runtime_actions d)) _ _
    ltac:(done) ltac:(done) ltac:(done) ltac:(done) ltac:(done) ltac:(done))) in Hc as E5.
  unfold other_view in E5. injection E5 as E51 E52 E53 E54 E55.
  apply bind_ok in Hw as (? & ? & [_ ->]%execute_ok & Hw).
  apply bind_ok in Hw as (? & w4 & Hat & Hw). apply bind_ok in Hw as (? & w5 & Hth & Hw).
  unfold end_thread in Hth. apply execute_ok in Hth as [_ ->].
  apply bind_ok in Hw as (ids & w6 & Hd & Hw). apply bind_ok in Hw as (pin & w7 & Hp & [_ <-]%ret_ok).
  set (view := λ d, (runs d, threads d, runtime_actions d, attempts d, (source_intents d,
    source_import_waiters d, artifact_materialization_actions d, artifact_versions d))).
  pose proof (keeps_ok _ _ _ _ _ (keeps_expire view _ _ ltac:(done)) Hd) as E6.
  assert ((view (w_db w7), decisions (w_db w7)) = (view (w_db w6), decisions (w_db w6))) as E7.
  { destruct (has_text _); [|by apply ret_ok in Hp as [_ <-]].
    by apply (keeps_ok _ _ _ _ _ (keeps_release_pin_of (λ d, (view d, decisions d)) _ _ _ ltac:(done)) Hp). }
  injection E7 as F1 F2 F3 F4 F5 F6 F7 F8 F9. injection E6 as G1 G2 G3 G4 G5 G6 G7 G8.
  assert ((λ d, (runs d, threads d, runtime_actions d, (source_intents d, source_import_waiters d,
      artifact_materialization_actions d, artifact_versions d))) (w_db w4)
    = (λ d, (alter (λ x, if ru_revision x =? n then ru_move target stage t x else x) run_id (runs d),
      threads d, runtime_actions d, (source_intents d, source_import_waiters d,
      artifact_materialization_actions d, artifact_versions d))) (w_db w3)) as E4.
  { destruct (has_text _); [apply execute_ok in Hat as [_ ->]|apply ret_ok in Hat as [_ <-]]; done. }
  injection E4 as D1 D2 D3 D4 D5 D6 D7.
  cbn [on_db w_db set_threads runs threads runtime_actions attempts source_intents source_import_waiters
    artifact_materialization_actions artifact_versions] in *.
  split.
  - exists (ru_move target stage t r).
    assert (runs (w_db w7) !! run_id = Some (ru_move target stage t r)) as Hr7.
    { rewrite F1, G1, D1, E51, Er2, lookup_alter_eq, Hr. simpl. by rewrite (proj2 (Z.eqb_eq _ _) Hn). }
    split; [done|]. split; [done|]. split.
    + intros th. cbn. rewrite F2, G2, lookup_alter_eq.
      destruct (threads (w_db w4) !! ru_thread_id r) as [th0|]; simpl; [|done].
      intros [= <-]. by case_bool_decide.
    + cbn. intros att Ea Hne. rewrite Ea in *. cbn [default] in *. unfold id in *.
      assert (has_text (Some att) = true) as Eh by (by destruct att). rewrite Eh in *.
      split.
      * intros i a. rewrite F3, G3, D3, E55. by apply (fail_pending_ok _ _ _ _ _ _ Hf).
      * apply release_pin_of_ok in Hp as (at_ & Hat_ & Hpin). exists at_.
        split; [by rewrite F4|]. split_and!; [..|exact Hpin].
        all: rewrite G4 in Hat_; apply execute_ok in Hat as [_ ->]; revert Hat_; cbn.
        all: rewrite lookup_alter_eq; destruct (attempts (w_db w3) !! att); simpl; [|done].
        all: intros [= <-]; cbn; first [reflexivity|by eexists].
  - rewrite F9. by apply (expire_decisions_ok _ _ _ _ _ Hd).
  - rewrite F5, G5, D4. done.
  - rewrite F6, G6, D5. done.
  - intros i m. rewrite F7, G7, D6. unfold pending_version. rewrite F8, G8, D7. apply Ra.
Qed.

Lemma replay_fresh att c fields w res w' :
  runtime_event_replay att c fields w = Ok res w' →
  w' = w ∧ ∀ saved, res = Some saved → cr_replayed saved = true.
Proof.
  unfold runtime_event_replay. destruct (ca_event_id c) as [e|]; [|by intros [<- <-]%ret_ok].
  intros Hm. mgo. destruct (runtime_event_inbox _ !! _); mgo; (split; [done|]); intros; by simplify_eq.
Qed.

(** A command that is not a replay ran its body. *)
Lemma event_command_runs a o k fields att c body w r w' :
  event_command a o k fields att c body w = Ok r w' → cr_replayed r = false →
  ∃ x w1 r1 w2, body w = Ok x w1 ∧ save_receipt a o k (JObj fields) x.1.1 x.1.2 w1 = Ok r1 w2 ∧
    save_runtime_event x.2 c (("operation", JStr o) :: fields) r1 w2 = Ok tt w'.
Proof.
  intros Hm Hf. unfold event_command in Hm. rewrite transaction_ok in Hm.
  apply bind_ok in Hm as (replay & ? & Hr & Hm). rewrite receipt_ok in Hr. destruct Hr as (-> & _ & Hr).
  destruct replay as [saved|].
  { exfalso. destruct (idempotency_receipts _ !! _); [|done]. destruct Hr as (_ & v & _ & [= ->]).
    by apply ret_ok in Hm as [<- _]. }
  apply bind_ok in Hm as (seen & w1 & Hs & Hm).
  pose proof (replay_fresh _ _ _ _ _ _ Hs) as [-> Hseen].
  destruct seen as [saved|]; [exfalso; apply ret_ok in Hm as [<- _]; by rewrite (Hseen saved) in Hf|].
  apply bind_ok in Hm as ([[v code] filed] & w2 & Hb & Hm).
  apply bind_ok in Hm as (r0 & w3 & Hsr & Hm). apply bind_ok in Hm as ([] & w4 & Hse & [<- <-]%ret_ok).
  by exists (v, code, filed), w2, r0, w3.
Qed.

(** What the end of a run is read from, its row apart. *)
Definition over_view (d : db) :=
  (threads d, runtime_actions d, attempts d, runtime_pin_releases d, decisions d,
   (source_intents d, source_import_waiters d, artifact_materialization_actions d, artifact_versions d)).
Lemma run_over_view run_id target d d' :
  over_view d' = over_view d →
  (∀ r, runs d !! run_id = Some r → ∃ r', runs d' !! run_id = Some r' ∧ ru_state r' = ru_state r ∧
     ru_thread_id r' = ru_thread_id r ∧ ru_active_attempt_id r' = ru_active_attempt_id r) →
  run_over run_id target d → run_over run_id target d'.
Proof.
  unfold over_view. intros [= E1 E2 E3 E4 E5 E6 E7 E8 E9] Hr [(r & Hrun & Hst & Hth & Hatt) Hd Hi Hw Ha].
  destruct (Hr r Hrun) as (r' & Hrun' & Es & Et & Eat).
  split; unfold pending_version in *; rewrite ?E5, ?E6, ?E7, ?E8, ?E9; try done.
  exists r'. rewrite Es, Et, Eat, E1, E2, E3, E4. done.
Qed.

(** C3: a run that ends leaves nothing open.  Whatever the command that moves a run to
    an end finds (completed, failed or canceled), afterwards the run and its attempt
    are in that state and the attempt is finished, no delivery of the attempt is
    pending, none of the run's questions, source intents, waits and artifact
    materializations is open, the thread is free for another run, and the runtime pin of
    the attempt is queued for release. *)
Theorem ended_run_leaves_nothing run_id target n actor key stage payload att b rel g c w res w' :
  transition_run run_id target n actor key stage payload att b rel g c w = Ok res w' →
  cr_replayed res = false → is_terminal target = true → run_over run_id target (w_db w').
Proof.
  intros Hm Hf Ht. assert (is_request target = false) as Hq.
  { apply not_true_iff_false. intros Hq. apply in_texts_spec in Hq, Ht.
    unfold TERMINAL_RUN_STATES in Ht. set_solver. }
  destruct (event_command_runs _ _ _ _ _ _ _ _ _ _ Hm Hf) as (x & w1 & r0 & w2 & Hb & Hsr & Hse).
  apply (keeps_ok _ _ _ _ _ (keeps_save_event (λ d, (over_view d, runs d)) _ _ _ _ ltac:(done))) in Hse as E2.
  apply save_receipt_ok in Hsr as (_ & _ & ->). revert E2. cbn [w_db]. intros E2.
  assert (run_over run_id target (w_db w1)) as Ho.
  2: { injection E2 as F1 F2 F3 F4 F5 F6 F7 F8 F9 F10. apply (run_over_view _ _ (w_db w1)); [|intros; rewrite F10; by eexists|done].
       unfold over_view. congruence. }
  clear E2. unfold transition_body in Hb. rewrite Hq in Hb.
  apply bind_ok in Hb as ([r v0] & w3 & Hr & Hb). apply bind_ok in Hb as (? & ? & [_ <-]%ret_ok & Hb).
  apply bind_ok in Hb as (? & ? & (_ & _ & ->)%ensure_ok & Hb).
  apply bind_ok in Hb as (? & ? & Hrev & Hb). rewrite expect_revision_ok in Hrev.
  destruct Hrev as (_ & Hrev & _ & ->). apply bind_ok in Hb as ([source ck] & w4 & Hs & Hb).
  assert (∃ r1, runs (w_db w4) !! run_id = Some r1 ∧ ru_revision r1 = n ∧
    ru_thread_id r1 = ru_thread_id r ∧ ru_active_attempt_id r1 = ru_active_attempt_id r) as (r1 & Hr1 & En & Et & Ea).
  { apply run_ok in Hr as (Hr & _ & ->). apply bind_ok in Hs as (? & ? & (_ & _ & ->)%ensure_ok & Hs).
    apply bind_ok in Hs as (a & ? & (Hact & _ & _ & ->)%validate_identity_active & Hs).
    apply bind_ok in Hs as (s & w5 & Hs & [_ <-]%ret_ok).
    apply (leads_confirm (core_of (w_db w)) run_id r (default "" att) c
      (λ _ c', ∃ r1, c_runs c' !! run_id = Some r1 ∧ ru_revision r1 = n ∧ ru_thread_id r1 = ru_thread_id r ∧
         ru_active_attempt_id r1 = ru_active_attempt_id r)) in Hs; [done..| |done].
    intros s' r' c' [L R S T A V _]. exists r'. split_and!; congruence. }
  apply bind_ok in Hb as (? & ? & (_ & _ & ->)%ensure_ok & Hb).
  apply bind_ok in Hb as (? & ? & (_ & _ & ->)%ensure_ok & Hb).
  apply bind_ok in Hb as (t & w5 & [_ ->]%now_ok & Hb).
  apply bind_ok in Hb as ([[lost action] closed] & w6 & Hset & Hb).
  apply bind_ok in Hb as ([expired pin] & w7 & Hrows & Hb).
  apply bind_ok in Hb as (ev & w8 & Hev & Hb). apply bind_ok in Hb as ([? ?] & ? & Hr8 & Hb).
  apply run_ok in Hr8 as (_ & _ & ->). apply ret_ok in Hb as [_ <-].
  rewrite <- Et, <- Ea in *.
  pose proof (terminal_rows_over run_id r1 target n stage t (World (w_db w4) (S (w_ticks w4)) (w_ids w4))
    w6 _ _ _ _ w7 Ht Hr1 En Hset Hrows) as Ho.
  apply insert_event_ok in Hev as (r7 & e & Hr7 & _ & _ & ->).
  apply (run_over_view _ _ (w_db w7)); [done| |done].
  intros r8. rewrite Hr7. intros [= <-]. cbn. rewrite lookup_alter_eq, Hr7. by eexists.
Qed.
End Ending.

(** A runtime that sends a message twice, then another under the same name. *)
Definition demo_running_run : list run_command := Eval vm_compute in take 8 demo_failed_run.
Notation demo_running := (run_session demo_running_run demo_store).
Notation demo_by := (demo_sender "attempt-5" "runtime_binding-8").
Definition demo_cause : cause := Cause (Some "event-1") (Some 0) None None.
Definition demo_said (content : string) : list (string * json) :=
  [("attempt_id", JStr "attempt-5"); ("content", JStr content)].
Notation demo_send content key w :=
  (event_command "rt" "POST:/m" (demo_key key) (demo_said content) (Some "attempt-5") demo_cause
     (runtime_message_body "run-4" demo_by content 4 demo_cause) w).
Notation demo_sent := (demo_send "hello" 20 demo_running).
Notation demo_answer := (answer no_result demo_sent).

Lemma demo_sent_answered : demo_sent = Ok demo_answer (end_world demo_sent).
Proof. apply answered. vm_compute. reflexivity. Qed.
Lemma demo_sent_fresh : cr_replayed demo_answer = false.
Proof. vm_compute. reflexivity. Qed.
Lemma demo_sent_keys :
  idempotency_receipts (w_db (end_world demo_sent)) !! ("rt", "POST:/m", demo_key 21) = None.
Proof. vm_compute. reflexivity. Qed.
Lemma demo_sent_reads : ∃ v, loads (json_text (cr_value demo_answer)) = Some v.
Proof.
  assert (bool_decide (is_Some (loads (json_text (cr_value demo_answer)))) = true) as H%bool_decide_eq_true
    by (vm_compute; reflexivity). exact H.
Qed.
Lemma demo_said_other : request_hash (logical_request (("operation", JStr "POST:/m") :: demo_said "bye"))
  ≠ request_hash (logical_request (("operation", JStr "POST:/m") :: demo_said "hello")).
Proof. vm_compute. discriminate. Qed.
Lemma event_applied_once_witness :
  (∃ v, demo_send "hello" 21 (end_world demo_sent)
        = Ok (CommandResult v (cr_status_code demo_answer) true) (end_world demo_sent)) ∧
  ∃ w, demo_send "bye" 21 (end_world demo_sent) = Err IdempotencyConflict w ∧
    w_db w = w_db (end_world demo_sent).
Proof.
  destruct demo_sent_reads as [v Hv].
  pose proof (event_applied_once "attempt-5" "event-1" 0 "rt" "POST:/m" (demo_key 20) (demo_said "hello")
    demo_cause (runtime_message_body "run-4" demo_by "hello" 4 demo_cause) demo_running demo_answer
    (end_world demo_sent) (FilesUnder0 := message_files "run-4" demo_by "hello" 4 demo_cause)
    eq_refl eq_refl demo_sent_answered demo_sent_fresh) as [_ H].
  split.
  - exists v. exact (proj1 (H "rt" "POST:/m" (demo_key 21) (demo_said "hello") demo_cause 0 _ _
      eq_refl eq_refl (Z.le_refl 0) eq_refl demo_sent_keys eq_refl) (conj eq_refl eq_refl) v Hv).
  - exact (proj2 (H "rt" "POST:/m" (demo_key 21) (demo_said "bye") demo_cause 0 _ _
      eq_refl eq_refl (Z.le_refl 0) eq_refl demo_sent_keys eq_refl)
      (λ x, demo_said_other (proj2 x))).
Defined.

(** The run is completed by its runtime. *)
Notation demo_completion := (transition_run "run-4" "completed" 4 "rt" (demo_key 22) None []
  (Some "attempt-5") (Some "runtime_binding-8") (Some "rel") (Some "gen") no_cause demo_running).
Lemma ended_run_leaves_nothing_witness :
  cr_status_code (answer no_result demo_completion) = 200 ∧
  run_over "run-4" "completed" (w_db (end_world demo_completion)).
Proof.
  split; [vm_compute; reflexivity|].
  refine (ended_run_leaves_nothing "run-4" "completed" 4 "rt" (demo_key 22) None []
    (Some "attempt-5") (Some "runtime_binding-8") (Some "rel") (Some "gen") no_cause demo_running
    (answer no_result demo_completion) (end_world demo_completion) _ _ _).
  - apply answered. vm_compute. reflexivity.
  - vm_compute. reflexivity.
  - reflexivity.
Defined.
