(* ===== verification/Transport.v ===== *)
(** * Frozen transport deliveries

    [control/transport.py]: the typed projection of a delivery into chunks, the
    capabilities (buttons and deep links) its chunks carry, and the check that a
    projection is canonical and bound to its hashes.  A raised [ValueError] is
    [inl] of its message; an [expires_at] is an instant, as every datetime is. *)

From Stdlib Require Import Ascii.
From S2P Require Import Prelude PyText Clock Json Schema Store Runs RuntimeEvents Decisions Resources.
Open Scope Z_scope.

(** Checks that may raise, without a state. *)
Abbreviation Res := (sum string).
#[export] Instance sum_ret {E} : MRet (sum E) := λ A a, inr a.
#[export] Instance sum_bind {E} : MBind (sum E) := λ A B f m,
  match m with inl e => inl e | inr a => f a end.
Definition check (b : bool) (message : string) : Res unit := if b then inr tt else inl message.
Fixpoint map_res {A B} (f : A → Res B) (l : list A) : Res (list B) :=
  match l with
  | [] => mret []
  | a :: l' => b ← f a; bs ← map_res f l'; mret (b :: bs)
  end.

(** ** The data *)
Record capability := Capability {
  ca_namespace : string; ca_token_digest : string; ca_expires_at : Z;
  ca_start_offset : option Z; ca_end_offset : option Z }.
Record opaque_target := OpaqueTarget {
  ot_namespace : string; ot_purpose : string; ot_resource_kind : string;
  ot_resource_id : string; ot_expected_revision : option Z; ot_choice : option string;
  ot_scope_digest : option string; ot_expires_at : Z }.
Record registration := Registration {
  og_token_digest : string; og_expires_at : Z; og_target : opaque_target }.
Record chunk_projection := ChunkProjection {
  cj_chunk_index : Z; cj_operation_id : string; cj_text : string; cj_parse_mode : string;
  cj_buttons : list button_row; cj_capabilities : list capability; cj_chunk_hash : string }.
Record frozen_projection := FrozenProjection {
  fp_delivery_key : delivery_key; fp_operation_id : string;
  fp_destination_binding_digest : string; fp_routing : string;
  fp_capability_binding_digest : string; fp_rpc_timeout_seconds : Z;
  fp_projection_hash : string; fp_chunks : list chunk_projection }.

(** ** The patterns *)
Definition operation_id_ok (s : string) : bool :=
  fullmatch is_alnum (λ c, is_alnum c || one_of "._:-" c) 0 199 s.
Definition wire_operation_id_ok (s : string) : bool :=
  fullmatch is_alnum (λ c, is_alnum c || one_of "._-" c) 0 127 s.
Definition transport_ok (s : string) : bool :=
  fullmatch is_az (λ c, is_az c || is_digit c || one_of "_-" c) 0 49 s.
Definition binding_digest_ok (s : string) : bool :=
  match read_prefix "hmac-sha256:" s with Some hex => is_sha256 hex | None => false end.
Definition target_kind_ok (s : string) : bool :=
  fullmatch is_az (λ c, is_az c || is_digit c || one_of "_.-" c) 0 99 s.
Definition target_id_ok (s : string) : bool :=
  fullmatch is_alnum (λ c, is_alnum c || one_of "_.:-" c) 0 499 s.

(** [_CHUNK_OPERATION_ID_RE]: the base and the index of a chunk's name. *)
Definition chunk_name (s : string) : option (string * string) :=
  let '(base, colon, tail) := partition ":" s in
  if colon && fullmatch is_alnum (λ c, is_alnum c || one_of "._-" c) 0 (slen base) base then
    match read_prefix "chunk:" tail with
    | Some index => if str_all is_digit index && (1 <=? slen index) && (slen index <=? 2)
                    then Some (base, index) else None
    | None => None
    end
  else None.
(** [needle in s]. *)
Fixpoint str_contains (needle s : string) : bool :=
  bool_decide (is_Some (read_prefix needle s))
  || match s with String _ s' => str_contains needle s' | EmptyString => false end.
(** [s.replace(":", ".")]. *)
Definition dotted (s : string) : string := str_map (λ c, if Ascii.eqb c ":" then "."%char else c) s.

(** [transport_delivery_chunk_operation_id]. *)
Definition transport_delivery_chunk_operation_id (operation_id : string) (chunk_index : Z) :
    Res string :=
  check (operation_id_ok operation_id) "operation_id is invalid";;
  check ((0 <=? chunk_index) && (chunk_index <? 100)) "chunk_index must be between 0 and 99";;
  let derived := operation_id +:+ ":chunk:" +:+ int_text chunk_index in
  check (operation_id_ok derived) "derived operation_id exceeds the safe bound";;
  mret derived.
(** [transport_delivery_chunk_wire_operation_id]. *)
Definition transport_delivery_chunk_wire_operation_id (chunk_operation_id : string) : Res string :=
  check (operation_id_ok chunk_operation_id) "operation_id is invalid";;
  check (match chunk_name chunk_operation_id with
         | Some (base, _) => negb (str_contains ".chunk." base) | None => false
         end) "chunk operation_id is not a delivery chunk name";;
  check (wire_operation_id_ok (dotted chunk_operation_id)) "wire operation_id is invalid";;
  mret (dotted chunk_operation_id).

(** [str.encode("utf-8")]. *)
Fixpoint encode (s : string) : string :=
  match s with
  | EmptyString => EmptyString
  | String c s' => utf8_char c +:+ encode s'
  end.
(** [bytes.decode("utf-8")] accepts a slice of such an encoding. *)
Fixpoint slice_ok (inside : bool) (s : string) : bool :=
  match s with
  | EmptyString => negb inside
  | String c s' =>
      if ord c <? 128 then negb inside && slice_ok false s'
      else if ord c <? 192 then inside && slice_ok false s'
      else negb inside && slice_ok true s'
  end.

(** ** Deep links

    A token is [dl1.<run>.<run>] with runs of 1 to 128 token characters; runs hold
    no dot, so a run is as long as it can be. *)
Definition token_char (c : ascii) : bool := is_alnum c || one_of "_-" c.
Definition short_run (s : string) : bool := (1 <=? slen s) && (slen s <=? 128).
Definition deep_link_at (s : string) : option nat :=
  s1 ← read_prefix "dl1." s;
  let '(first, s2) := span token_char s1 in
  if short_run first then
    s3 ← read_char "." s2;
    let '(second, _) := span token_char s3 in
    if short_run second then Some (5 + String.length first + String.length second)%nat else None
  else None.
(** [_DEEP_LINK_TOKEN_RE.fullmatch]. *)
Definition deep_link_ok (s : string) : bool :=
  match deep_link_at s with Some n => Nat.eqb n (String.length s) | None => false end.
(** [bytes[start:end]]. *)
Definition slice (s : string) (start stop : Z) : string :=
  str_take (Z.to_nat (stop - start)) (str_drop (Z.to_nat start) s).

(** [_canonical_time], [_bounded_text]. *)
Definition bounded_text (value name : string) (maximum : Z) : Res string :=
  check ((1 <=? slen value) && (slen value <=? maximum) && negb (str_has "000" value))
    (name +:+ " is invalid");;
  mret value.
Definition digest (value name : string) : Res string :=
  check (is_sha256 value) (name +:+ " must be a lowercase SHA-256 digest");; mret value.
Definition binding_digest (value name : string) : Res string :=
  check (binding_digest_ok value) (name +:+ " must be a Control binding digest");; mret value.
Definition optional {A B} (f : A → Res B) (o : option A) : Res (option B) :=
  match o with Some a => b ← f a; mret (Some b) | None => mret None end.

(** [_validated_delivery_key]. *)
Definition validated_delivery_key (k : delivery_key) : Res json :=
  check (transport_ok (dk_transport k)) "delivery_key transport is invalid";;
  destination ← binding_digest (dk_destination_digest k) "delivery_key destination_digest";
  event_id ← bounded_text (dk_event_id k) "delivery_key event_id" 500;
  check (1 <=? dk_projection_version k) "delivery_key projection_version is invalid";;
  mret (JObj [("transport", JStr (dk_transport k)); ("destination_digest", JStr destination);
    ("event_id", JStr event_id); ("projection_version", JInt (dk_projection_version k))]).

Section Transport.
Context `{Env} `{UnicodeChecks}.

(** [_EMBEDDED_DEEP_LINK_TOKEN_RE.finditer]: the spans of the tokens of a text; [after]
    says that the character before is a token character. *)
Fixpoint embedded_links (fuel : nat) (position : Z) (after : bool) (s : string) :
    list (Z * Z * string) :=
  match fuel, s with
  | S fuel', String c s' =>
      match (if after then None else deep_link_at s) with
      | Some n =>
          (position, position + Z.of_nat n, sha256 (str_take n s))
          :: embedded_links fuel' (position + Z.of_nat n) true (str_drop n s)
      | None => embedded_links fuel' (position + 1) (token_char c) s'
      end
  | _, _ => []
  end.
Definition embedded_deep_link_spans (text_bytes : string) : list (Z * Z * string) :=
  embedded_links (String.length text_bytes) 0 false text_bytes.
Definition same_spans (a b : list (Z * Z * string)) : bool :=
  bool_decide (list_to_set a =@{gset (Z * Z * string)} list_to_set b).

(** The buttons of [_validated_chunk]. *)
Definition validated_button (b : button_row) : Res json :=
  check ((1 <=? slen (bu_label b)) && (slen (bu_label b) <=? 64) && negb (str_has "000" (bu_label b))
         && (1 <=? slen (encode (bu_callback_data b))) && (slen (encode (bu_callback_data b)) <=? 64)
         && negb (str_has "000" (bu_callback_data b))) "button is invalid";;
  token ← digest (bu_token_digest b) "button token_digest";
  check (String.eqb (sha256 (bu_callback_data b)) token)
    "button token_digest does not match callback_data";;
  mret (JObj [("label", JStr (bu_label b)); ("callback_data", JStr (bu_callback_data b));
              ("token_digest", JStr token)]).
(** The capabilities, in a text of bytes. *)
Definition validated_capability (text_bytes : string) (c : capability) : Res json :=
  check (in_texts (ca_namespace c) ["action"; "deep_link"]) "capability namespace is invalid";;
  token ← digest (ca_token_digest c) "capability token_digest";
  (if String.eqb (ca_namespace c) "action" then
     check (bool_decide (ca_start_offset c = None) && bool_decide (ca_end_offset c = None))
       "action capability offsets must be null"
   else
     match ca_start_offset c, ca_end_offset c with
     | Some start, Some stop =>
         check ((0 <=? start) && (start <? stop) && (stop <=? slen text_bytes))
           "deep_link capability span is invalid";;
         let token_bytes := slice text_bytes start stop in
         check (slice_ok false token_bytes) "deep_link capability span crosses a UTF-8 boundary";;
         check (slen token_bytes <=? 128) "deep_link token must not exceed 128 bytes";;
         check (deep_link_ok token_bytes) "deep_link capability span is not a token";;
         check (String.eqb (sha256 token_bytes) token)
           "deep_link capability span does not match token_digest"
     | _, _ => inl "deep_link capability span is invalid"
     end);;
  mret (JObj [("namespace", JStr (ca_namespace c)); ("token_digest", JStr token);
              ("expires_at", JStr (format_registry_time (ca_expires_at c)));
              ("start_offset", opt_int (ca_start_offset c));
              ("end_offset", opt_int (ca_end_offset c))]).
Definition declared_action_digests (l : list capability) : list string :=
  map ca_token_digest (List.filter (λ c, String.eqb (ca_namespace c) "action") l).
Definition declared_deep_link_spans (l : list capability) : list (Z * Z * string) :=
  omap (λ c, match ca_start_offset c, ca_end_offset c with
    | Some a, Some b => if String.eqb (ca_namespace c) "action" then None
                        else Some (a, b, ca_token_digest c)
    | _, _ => None
    end) l.

(** [_validated_chunk]. *)
Definition chunk_text_ok (text : string) : bool :=
  negb (String.eqb text "") && (slen (encode text) <=? 4096)
  && (is_ascii text || nfc_ok (encode text)) && str_all public_char text.
Definition validated_chunk (c : chunk_projection) (expected_index : Z) : Res json :=
  check (cj_chunk_index c =? expected_index) "chunk_index must be contiguous from zero";;
  check (operation_id_ok (cj_operation_id c)) "operation_id is invalid";;
  check (chunk_text_ok (cj_text c)) "chunk text is invalid";;
  check (String.eqb (cj_parse_mode c) "MarkdownV2") "parse_mode must be MarkdownV2";;
  check (Z.of_nat (length (cj_buttons c)) <=? 6) "buttons are invalid";;
  check (Z.of_nat (length (cj_capabilities c)) <=? 32) "capabilities are invalid";;
  buttons ← map_res validated_button (cj_buttons c);
  let text_bytes := encode (cj_text c) in
  capabilities ← map_res (validated_capability text_bytes) (cj_capabilities c);
  check (bool_decide (declared_action_digests (cj_capabilities c)
                      = map bu_token_digest (cj_buttons c)))
    "action capabilities must match buttons in order";;
  check (same_spans (embedded_deep_link_spans text_bytes)
           (declared_deep_link_spans (cj_capabilities c)))
    "chunk contains an undeclared deep_link token";;
  mret (JObj [("chunk_index", JInt (cj_chunk_index c)); ("operation_id", JStr (cj_operation_id c));
              ("text", JStr (cj_text c)); ("parse_mode", JStr (cj_parse_mode c));
              ("buttons", JArr buttons); ("capabilities", JArr capabilities)]).
(** [transport_delivery_chunk_hash]. *)
Definition canonical_hash (v : json) : string := sha256 (json_text v).
Definition transport_delivery_chunk_hash (c : chunk_projection) : Res string :=
  v ← validated_chunk c (cj_chunk_index c); mret (canonical_hash v).

(** [_validated_target_registrations]: [capabilities] by token digest, and the digests
    seen so far. *)
Definition validated_registration (destination : string) (capabilities : list capability)
    (seen : list string) (r : registration) : Res json :=
  token ← digest (og_token_digest r) "opaque target token_digest";
  match List.find (λ c, String.eqb (ca_token_digest c) token) capabilities with
  | None => inl "opaque target registrations must match capabilities"
  | Some c =>
      check (negb (in_texts token seen)) "opaque target registrations must match capabilities";;
      let expires_at := format_registry_time (og_expires_at r) in
      check (String.eqb expires_at (format_registry_time (ca_expires_at c)))
        "opaque target expiry must match capability expiry";;
      let t := og_target r in
      check (String.eqb (ot_namespace t) (ca_namespace c))
        "opaque target namespace must match capability namespace";;
      check (String.eqb expires_at (format_registry_time (ot_expires_at t)))
        "opaque target expiry must match target expiry";;
      purpose ← bounded_text (ot_purpose t) "target purpose" 100;
      resource_kind ← bounded_text (ot_resource_kind t) "target resource_kind" 100;
      resource_id ← bounded_text (ot_resource_id t) "target resource_id" 500;
      check (target_kind_ok resource_kind) "target resource_kind is invalid";;
      check (target_id_ok resource_id) "target resource_id is invalid";;
      check (match ot_expected_revision t with Some n => 0 <=? n | None => true end)
        "target expected_revision is invalid";;
      choice ← optional (λ x, bounded_text x "target choice" 200) (ot_choice t);
      scope ← optional (λ x, binding_digest x "target scope_digest") (ot_scope_digest t);
      check (negb (String.eqb (ca_namespace c) "action") || bool_decide (scope = Some destination))
        "action target scope_digest must match destination binding";;
      mret (JObj [("token_digest", JStr token); ("expires_at", JStr expires_at);
        ("target", JObj [("namespace", JStr (ot_namespace t)); ("purpose", JStr purpose);
           ("resource_kind", JStr resource_kind); ("resource_id", JStr resource_id);
           ("expected_revision", opt_int (ot_expected_revision t)); ("choice", opt_json choice);
           ("scope_digest", opt_json scope)])])
  end.
Fixpoint validated_registrations (destination : string) (capabilities : list capability)
    (seen : list string) (l : list registration) : Res (list json) :=
  match l with
  | [] => mret []
  | r :: l' =>
      v ← validated_registration destination capabilities seen r;
      vs ← validated_registrations destination capabilities (og_token_digest r :: seen) l';
      mret (v :: vs)
  end.

(** [_validated_projection] with [require_hashes], a chunk at a time: the capabilities
    declared so far are kept in order. *)
Fixpoint validated_chunks (operation_id : string) (index : Z) (declared : list capability)
    (l : list chunk_projection) : Res (list json * list capability) :=
  match l with
  | [] => mret ([], declared)
  | c :: l' =>
      expected ← transport_delivery_chunk_operation_id operation_id index;
      check (String.eqb (cj_operation_id c) expected) "chunk operation_id is not deterministic";;
      v ← validated_chunk c index;
      check (match l' with [] => true | _ => bool_decide (cj_buttons c = []) end)
        "buttons are allowed only on the final chunk";;
      digest (cj_chunk_hash c) "chunk_hash";;
      check (String.eqb (cj_chunk_hash c) (canonical_hash v))
        "chunk_hash does not match the frozen chunk";;
      declared' ← fold_left (λ acc x, known ← acc;
          check (negb (in_texts (ca_token_digest x) (map ca_token_digest known)))
            "capability token_digest must be unique";;
          mret (known ++ [x])) (cj_capabilities c) (mret declared);
      '(vs, all) ← validated_chunks operation_id (index + 1) declared' l';
      mret (v :: vs, all)
  end.
Definition validated_projection (p : frozen_projection) (targets : list registration) :
    Res (json * list json) :=
  key ← validated_delivery_key (fp_delivery_key p);
  check (operation_id_ok (fp_operation_id p)) "operation_id is invalid";;
  destination ← binding_digest (fp_destination_binding_digest p) "destination_binding_digest";
  check (String.eqb destination (dk_destination_digest (fp_delivery_key p)))
    "destination_binding_digest must match the delivery key";;
  check (in_texts (fp_routing p) ["root"; "topic"]) "routing is invalid";;
  binding ← digest (fp_capability_binding_digest p) "capability_binding_digest";
  check ((1 <=? fp_rpc_timeout_seconds p) && (fp_rpc_timeout_seconds p <=? 120))
    "rpc_timeout_seconds must be between 1 and 120";;
  check ((1 <=? Z.of_nat (length (fp_chunks p))) && (Z.of_nat (length (fp_chunks p)) <=? 100))
    "chunks must contain between 1 and 100 items";;
  '(chunks, capabilities) ← validated_chunks (fp_operation_id p) 0 [] (fp_chunks p);
  check (Nat.eqb (length targets) (length capabilities))
    "opaque target registrations must match capabilities";;
  registrations ← validated_registrations destination capabilities [] targets;
  mret (JObj [("delivery_key", key); ("operation_id", JStr (fp_operation_id p));
    ("destination_binding_digest", JStr destination); ("routing", JStr (fp_routing p));
    ("capability_binding_digest", JStr binding);
    ("rpc_timeout_seconds", JInt (fp_rpc_timeout_seconds p)); ("chunks", JArr chunks)],
    registrations).

(** [transport_delivery_projection_hash], [validate_transport_delivery_projection]. *)
Definition transport_delivery_projection_hash (p : frozen_projection) (targets : list registration) :
    Res string :=
  '(projected, values) ← validated_projection p targets;
  mret (canonical_hash (JObj [("projection", projected); ("opaque_targets", JArr values)])).
Definition validate_transport_delivery_projection (p : frozen_projection)
    (targets : list registration) : Res frozen_projection :=
  digest (fp_projection_hash p) "projection_hash";;
  expected ← transport_delivery_projection_hash p targets;
  check (String.eqb (fp_projection_hash p) expected)
    "projection_hash does not match the frozen projection";;
  mret p.
End Transport.
