(* ===== verification/TransportLedger.v ===== *)
(** * The transport delivery ledger

    [control/transport_store.py]: a delivery is frozen once, chunk by chunk, with the
    capabilities it gives away; its chunks are claimed in order under a lease, a send
    permit is issued before the provider is called, and what became of the call is
    recorded.  Also the older ledger of whole deliveries, which freezing looks at, and
    the opaque targets behind the tokens of a delivery. *)

From Stdlib Require Import Ascii.
From S2P Require Import Prelude PyText Clock Json Schema Store Runs Captures Activation RuntimeEvents Decisions Resources Transport.
Open Scope Z_scope.

(** ** What the commands answer *)
Record delivery_claim := DeliveryClaim {
  dc_key : delivery_key; dc_status : string; dc_claim_owner : option string;
  dc_claim_epoch : Z; dc_claim_expires_at : option Z }.
Record chunk_claim := ChunkClaim {
  cc_projection : frozen_projection; cc_chunk : chunk_projection; cc_status : string;
  cc_revision : Z; cc_claim_owner : option string; cc_claim_epoch : Z;
  cc_retry_not_before : option Z }.
Record send_permit := SendPermit {
  sp_projection : frozen_projection; sp_chunk : chunk_projection; sp_revision : Z;
  sp_claim_epoch : Z; sp_transport_window_id : option string }.
Inductive send_decision :=
| SendPermitted (permit : send_permit) | CapabilityExpired | CapabilityMismatch.
Inductive freeze_result :=
| Frozen (projection : frozen_projection) | Replayed (projection : frozen_projection)
| AlreadyDelivered | LegacyDeliveryUncertain.

(** ** Changed columns *)
Definition ck_set (state : chunk_state) (c : claim) (retry receipt category resolution
    completed window : option string) (r : chunk_row) : chunk_row :=
  ChunkRow (ck_operation_id r) (ck_text r) (ck_parse_mode r) (ck_chunk_hash r) state
    (ck_revision r + 1) c retry receipt category resolution completed window.
Definition ck_lease (worker expires : string) (r : chunk_row) : chunk_row :=
  ck_set chunk_claimed (take_claim worker expires (ck_claim r)) None
    (ck_provider_receipt_digest r) (ck_failure_category r) (ck_manual_resolution_id r)
    (ck_completed_at r) (ck_transport_window_id r) r.
Definition ck_send (r : chunk_row) : chunk_row :=
  ck_set chunk_sending_unknown (Claim (cl_owner (ck_claim r)) None (cl_epoch (ck_claim r)))
    (ck_retry_not_before r) (ck_provider_receipt_digest r) (ck_failure_category r)
    (ck_manual_resolution_id r) (ck_completed_at r) (ck_transport_window_id r) r.
Definition ck_deliver (receipt t : string) (window : option string) (r : chunk_row) : chunk_row :=
  ck_set chunk_delivered (Claim None (cl_expires_at (ck_claim r)) (cl_epoch (ck_claim r)))
    (ck_retry_not_before r) (Some receipt) (ck_failure_category r) (ck_manual_resolution_id r)
    (Some t) (match window with Some x => Some x | None => ck_transport_window_id r end) r.
Definition ck_release (retry : option string) (r : chunk_row) : chunk_row :=
  ck_set chunk_pending (drop_claim (ck_claim r)) retry (ck_provider_receipt_digest r)
    (ck_failure_category r) (ck_manual_resolution_id r) (ck_completed_at r)
    (ck_transport_window_id r) r.
Definition ck_fail (category t : string) (r : chunk_row) : chunk_row :=
  ck_set chunk_failed (drop_claim (ck_claim r)) None (ck_provider_receipt_digest r)
    (Some category) (ck_manual_resolution_id r) (Some t) (ck_transport_window_id r) r.
Definition ck_assume (resolution_id t : string) (r : chunk_row) : chunk_row :=
  ck_set chunk_delivered (Claim None (cl_expires_at (ck_claim r)) (cl_epoch (ck_claim r)))
    (ck_retry_not_before r) (ck_provider_receipt_digest r) (ck_failure_category r)
    (Some resolution_id) (Some t) (ck_transport_window_id r) r.
Definition tp_refresh (state : projection_state) (completed_at : option string)
    (r : projection_row) : projection_row :=
  ProjectionRow (tp_operation_id r) (tp_request_hash r) (tp_projection_hash r)
    (tp_destination_binding_digest r) (tp_routing r) (tp_capability_binding_digest r)
    (tp_rpc_timeout_seconds r) (tp_chunk_count r) (tp_created_at r) state (tp_revision r + 1)
    completed_at.

(** ** Reading the tables

    The rows of a delivery [ORDER BY chunk_index], which a CHECK keeps between 0 and 99. *)
Definition chunks_of (k : delivery_key) (d : db) : list (Z * chunk_row) :=
  omap (λ i, (λ r, (i, r)) <$> transport_delivery_chunks d !! (k, i)) (seqZ 0 100).
Definition chunk_states (k : delivery_key) (d : db) : list chunk_state :=
  map (λ x : Z * chunk_row, ck_state x.2) (chunks_of k d).
Definition buttons_of (k : delivery_key) (i : Z) (d : db) : list button_row :=
  default [] (transport_delivery_chunk_buttons d !! (k, i)).
Definition capabilities_of (k : delivery_key) (i : Z) (d : db) : list capability_row :=
  default [] (transport_delivery_chunk_capabilities d !! (k, i)).
Definition all_capabilities_of (k : delivery_key) (d : db) : list capability_row :=
  mjoin (map (λ i, capabilities_of k i d) (seqZ 0 100)).
Definition target_position_le (a b : capability_row) : bool :=
  cp_target_position a <=? cp_target_position b.

(** The state of a delivery from the states of its chunks. *)
Definition parent_state (states : list chunk_state) : projection_state :=
  if forallb (λ s, bool_decide (s = chunk_delivered)) states then projection_delivered
  else if existsb (λ s, bool_decide (s = chunk_sending_unknown)) states
  then projection_manual_required
  else if existsb (λ s, bool_decide (s = chunk_failed)) states then projection_failed
  else projection_pending.
Definition is_completed (s : projection_state) : bool :=
  match s with projection_delivered | projection_failed => true | _ => false end.

(** [target_positions[token]]: a later registration of a token overrides an earlier one. *)
Fixpoint target_position (token : string) (i : Z) (l : list registration) : option Z :=
  match l with
  | [] => None
  | r :: l' =>
      match target_position token (i + 1) l' with
      | Some p => Some p
      | None => if String.eqb (og_token_digest r) token then Some i else None
      end
  end.

(** The clauses on inserted rows that a validated projection does not settle by itself
    are here as well: the texts SQLite bounds, its digests and the positions. *)
Definition between (lo hi n : Z) : bool := (lo <=? n) && (n <=? hi).
Definition projection_insert_check (k : delivery_key) (r : projection_row) : bool :=
  binding_digest_ok (dk_destination_digest k) && between 1 500 (slen (dk_event_id k))
  && (1 <=? dk_projection_version k) && between 1 200 (slen (tp_operation_id r))
  && is_sha256 (tp_request_hash r) && is_sha256 (tp_projection_hash r)
  && String.eqb (tp_destination_binding_digest r) (dk_destination_digest k)
  && in_texts (tp_routing r) ["root"; "topic"] && is_sha256 (tp_capability_binding_digest r)
  && between 1 120 (tp_rpc_timeout_seconds r) && between 1 100 (tp_chunk_count r)
  && projection_check r.
Definition chunk_insert_check (i : Z) (r : chunk_row) : bool :=
  between 0 99 i && between 1 200 (slen (ck_operation_id r))
  && between 1 4096 (slen (encode (ck_text r))) && String.eqb (ck_parse_mode r) "MarkdownV2"
  && is_sha256 (ck_chunk_hash r) && chunk_check r.
Definition button_check (position : Z) (b : button_row) : bool :=
  between 0 5 position && between 1 64 (slen (bu_label b))
  && between 1 64 (slen (encode (bu_callback_data b))) && is_sha256 (bu_token_digest b).
Definition capability_check (position : Z) (c : capability_row) : bool :=
  between 0 31 position && between 0 3199 (cp_target_position c) && is_sha256 (cp_token_digest c)
  && match cp_start_offset c, cp_end_offset c with
     | None, None => String.eqb (cp_namespace c) "action"
     | Some a, Some b => String.eqb (cp_namespace c) "deep_link" && (0 <=? a) && (a <? b)
     | _, _ => false
     end.
Definition target_check (token : string) (r : target_row) : bool :=
  is_sha256 token && in_texts (tt_namespace r) ["action"; "deep_link"]
  && match tt_expected_revision r with Some n => 0 <=? n | None => true end
  && match tt_scope_digest r with Some s => binding_digest_ok s | None => true end.
Definition resolution_check (id : string) (r : resolution_row) : bool :=
  between 1 200 (slen id) && between 1 200 (slen (re_actor_id r))
  && between 16 128 (slen (re_idempotency_key r)) && (0 <=? re_expected_revision r)
  && in_texts (re_resolution r) ["assume_delivered"; "retry"] && (0 <=? re_prior_revision r)
  && (1 <=? re_prior_claim_epoch r) && (1 <=? re_result_revision r).

(** [for x in l: f(i, x)] with [enumerate]. *)
Fixpoint for_each {W E A} (f : Z → A → M W E unit) (i : Z) (l : list A) : M W E unit :=
  match l with
  | [] => mret tt
  | a :: l' => f i a;; for_each f (i + 1) l'
  end.
Definition add_row {A} (x : delivery_key * Z) (a : A) (m : gmap (delivery_key * Z) (list A)) :=
  <[x := default [] (m !! x) ++ [a]]> m.
(** [now + timedelta(milliseconds=n)]. *)
Definition dt_add_milliseconds (t n : Z) : option Z :=
  let r := t + n * 1000 in if dt_valid r then Some r else None.

Section TransportLedger.
Context `{Env} `{UnicodeChecks}.

(** Raised checks, [except sqlite3.IntegrityError] and [except (NotFound, RuntimeError,
    TypeError, ValueError)]. *)
Definition checked {A} (r : Res A) : Store A :=
  match r with inl message => raise (ValueError message) | inr a => mret a end.
Definition on_integrity_error {A} (e : exc) (m : Store A) : Store A := λ w,
  match m w with Err IntegrityError w' => Err e w' | o => o end.
Definition projection_integrity : exc := InvalidTransition "projection_integrity" "verified".
Definition verifying {A} (m : Store A) : Store A := λ w,
  match m w with
  | Err (NotFound _ _ | RuntimeError _ | ValueError _) w' => Err projection_integrity w'
  | o => o
  end.

(** ** Arguments: [_transport_name], [_binding_digest], [_transport_delivery_key],
    [_transport_worker_id] and the checks of integers. *)
Definition transport_name (value : string) : Store string :=
  ensure (transport_ok value) (ValueError "transport is invalid");; mret value.
Definition transport_digest (value name : string) : Store string := checked (digest value name).
Definition control_digest (value name : string) : Store string := checked (binding_digest value name).
Definition transport_delivery_key (k : delivery_key) : Store delivery_key :=
  transport ← transport_name (dk_transport k);
  destination ← control_digest (dk_destination_digest k) "destination_digest";
  event_id ← required_text (dk_event_id k) "event_id" 500;
  ensure (1 <=? dk_projection_version k)
    (ValueError "projection_version must be a positive integer");;
  mret (DeliveryKey transport destination event_id (dk_projection_version k)).
Definition worker_ok (s : string) : bool :=
  str_all (λ c, is_alnum c || one_of "_.:-" c) s && between 1 200 (slen s).
Definition transport_worker_id (value : string) : Store string :=
  ensure (worker_ok value) (ValueError "worker_id is invalid");; mret value.
Definition transport_chunk_index (value : Z) : Store unit :=
  ensure ((0 <=? value) && (value <? 100)) (ValueError "chunk_index must be between 0 and 99").
Definition transport_revision (value : Z) : Store unit :=
  ensure (0 <=? value) (ValueError "expected_revision must be a non-negative integer").
Definition transport_lease (lease_seconds : Z) : Store unit :=
  ensure (between 1 3600 lease_seconds) (ValueError "lease_seconds must be between 1 and 3600").
(** [_transport_opaque_target]. *)
Definition optional_text (o : option string) (name : string) (maximum : Z) : Store (option string) :=
  match o with Some s => t ← required_text s name maximum; mret (Some t) | None => mret None end.
Definition transport_opaque_target (t : opaque_target) : Store opaque_target :=
  ensure (in_texts (ot_namespace t) ["action"; "deep_link"]) (ValueError "namespace is invalid");;
  purpose ← required_text (ot_purpose t) "purpose" 100;
  resource_kind ← required_text (ot_resource_kind t) "resource_kind" 100;
  resource_id ← required_text (ot_resource_id t) "resource_id" 500;
  ensure (match ot_expected_revision t with Some n => 0 <=? n | None => true end)
    (ValueError "expected_revision must be a non-negative integer");;
  choice ← optional_text (ot_choice t) "choice" 200;
  scope ← (match ot_scope_digest t with
           | Some s => x ← control_digest s "scope_digest"; mret (Some x) | None => mret None end);
  mret (OpaqueTarget (ot_namespace t) purpose resource_kind resource_id
          (ot_expected_revision t) choice scope (ot_expires_at t)).
Definition registry_now : Store string := t ← utc_now; mret (format_registry_time t).
Definition registry_after (o : option Z) : Store string :=
  t ← from_option o OverflowError; mret (format_registry_time t).

(** ** Reading a frozen delivery back: [_transport_opaque_target_row],
    [_frozen_transport_delivery_projection],
    [_transport_delivery_opaque_target_registrations] and
    [_verified_frozen_transport_delivery_projection]. *)
Definition transport_opaque_target_row (r : target_row) : Store opaque_target :=
  t ← control_time (tt_expires_at r);
  mret (OpaqueTarget (tt_namespace r) (tt_purpose r) (tt_resource_kind r) (tt_resource_id r)
          (tt_expected_revision r) (tt_choice r) (tt_scope_digest r) t).
Definition read_capability (c : capability_row) : Store capability :=
  t ← control_time (cp_expires_at c);
  mret (Capability (cp_namespace c) (cp_token_digest c) t (cp_start_offset c) (cp_end_offset c)).
Definition read_chunk (k : delivery_key) (x : Z * chunk_row) : Store chunk_projection :=
  let '(i, r) := x in
  buttons ← query (buttons_of k i);
  rows ← query (capabilities_of k i);
  capabilities ← map_m read_capability rows;
  mret (ChunkProjection i (ck_operation_id r) (ck_text r) (ck_parse_mode r) buttons capabilities
          (ck_chunk_hash r)).
Definition frozen_transport_delivery_projection (k : delivery_key) : Store frozen_projection :=
  row ← query (λ d, transport_delivery_projections d !! k);
  r ← from_option row (NotFound "transport_delivery_projection" (dk_event_id k));
  rows ← query (chunks_of k);
  chunks ← map_m (read_chunk k) rows;
  ensure (Z.of_nat (length chunks) =? tp_chunk_count r)
    (RuntimeError "transport delivery projection is incomplete");;
  mret (FrozenProjection k (tp_operation_id r) (tp_destination_binding_digest r) (tp_routing r)
    (tp_capability_binding_digest r) (tp_rpc_timeout_seconds r) (tp_projection_hash r) chunks).
Definition read_registration (c : capability_row) : Store registration :=
  row ← query (λ d, transport_opaque_targets d !! cp_token_digest c);
  r ← from_option row (RuntimeError "transport delivery projection is incomplete");
  t ← control_time (cp_expires_at c);
  target ← transport_opaque_target_row r;
  mret (Registration (cp_token_digest c) t target).
Definition transport_delivery_opaque_target_registrations (k : delivery_key) :
    Store (list registration) :=
  rows ← query (λ d, isort target_position_le (all_capabilities_of k d));
  map_m read_registration rows.
Definition verified_frozen_transport_delivery_projection (k : delivery_key) :
    Store frozen_projection :=
  verifying (
    projection ← frozen_transport_delivery_projection k;
    registrations ← transport_delivery_opaque_target_registrations k;
    checked (validate_transport_delivery_projection projection registrations)).

(** [_transport_delivery_chunk_row], [_transport_delivery_chunk_claim]. *)
Definition transport_delivery_chunk_row (k : delivery_key) (i : Z) : Store chunk_row :=
  row ← query (λ d, transport_delivery_chunks d !! (k, i));
  from_option row (NotFound "transport_delivery_chunk" (int_text i)).
Definition nth_chunk (p : frozen_projection) (i : Z) : Store chunk_projection :=
  from_option (fp_chunks p !! Z.to_nat i) LookupError.
Definition parsed_time (o : option string) : Store (option Z) :=
  match o with Some s => t ← control_time s; mret (Some t) | None => mret None end.
Definition transport_delivery_chunk_claim (k : delivery_key) (i : Z) (status : option string) :
    Store chunk_claim :=
  r ← transport_delivery_chunk_row k i;
  p ← frozen_transport_delivery_projection k;
  c ← nth_chunk p i;
  retry ← parsed_time (ck_retry_not_before r);
  mret (ChunkClaim p c (default (chunk_state_text (ck_state r)) status) (ck_revision r)
          (cl_owner (ck_claim r)) (cl_epoch (ck_claim r)) retry).
(** [_transport_delivery_resolution_claim]. *)
Definition transport_delivery_resolution_claim (k : delivery_key) (r : resolution_row) :
    Store chunk_claim :=
  p ← frozen_transport_delivery_projection k;
  c ← nth_chunk p (re_chunk_index r);
  mret (ChunkClaim p c (chunk_state_text (re_result_state r)) (re_result_revision r) None
          (re_prior_claim_epoch r) None).

(** ** Writing *)

(** An UPDATE of a chunk that is known to be there. *)
Definition update_chunk (k : delivery_key) (i : Z) (f : chunk_row → chunk_row) : Store unit :=
  row ← query (λ d, transport_delivery_chunks d !! (k, i));
  match row with
  | Some r =>
      ensure (chunk_check (f r)) IntegrityError;;
      execute (set_chunks (<[(k, i) := f r]>))
  | None => mret tt
  end.
(** [_refresh_transport_delivery_parent]. *)
Definition refresh_transport_delivery_parent (k : delivery_key) (t : string) : Store unit :=
  states ← query (chunk_states k);
  ensure (match states with [] => false | _ => true end)
    (RuntimeError "transport delivery projection is incomplete");;
  let state := parent_state states in
  execute (set_projections (alter (tp_refresh state (if is_completed state then Some t else None)) k)).
(** [_fail_transport_delivery_chunk_row]. *)
Definition fail_transport_delivery_chunk_row (k : delivery_key) (i : Z) (category t : string) :
    Store unit :=
  update_chunk k i (ck_fail category t);;
  refresh_transport_delivery_parent k t.

(** [_require_transport_chunk_fence]; [live] is [Some now] with [require_live_lease]. *)
Definition transport_chunk_fence (r : chunk_row) (source : chunk_state) (worker : string)
    (epoch revision : Z) (live : option string) : bool :=
  bool_decide (ck_state r = source) && claim_is worker epoch (ck_claim r)
  && (ck_revision r =? revision)
  && match live with
     | Some t => match cl_expires_at (ck_claim r) with Some e => str_lt t e | None => false end
     | None => true
     end.
Definition require_transport_chunk_fence (r : chunk_row) (source : chunk_state) (target worker : string)
    (epoch revision : Z) (live : option string) : Store unit :=
  ensure (transport_chunk_fence r source worker epoch revision live)
    (InvalidTransition "stale_claim" target).
(** [_validated_transport_chunk_mutation]. *)
Definition validated_transport_chunk_mutation (key : delivery_key) (i : Z) (worker_id : string)
    (epoch revision : Z) : Store (delivery_key * string) :=
  k ← transport_delivery_key key;
  transport_chunk_index i;;
  worker ← transport_worker_id worker_id;
  check_epoch epoch;;
  transport_revision revision;;
  mret (k, worker).

(** ** The ledger of whole deliveries *)

(** [_transport_delivery_claim]. *)
Definition transport_delivery_claim (k : delivery_key) (status : string) : Store delivery_claim :=
  row ← query (λ d, transport_deliveries d !! k);
  r ← from_option row (RuntimeError "transport delivery was not persisted");
  expires ← (if has_text (cl_expires_at (td_claim r))
             then parsed_time (cl_expires_at (td_claim r)) else mret None);
  mret (DeliveryClaim k status
          (if has_text (cl_owner (td_claim r)) then cl_owner (td_claim r) else None)
          (cl_epoch (td_claim r)) expires).
Definition put_delivery (k : delivery_key) (r : delivery_row) : Store unit :=
  ensure (delivery_check r && binding_digest_ok (dk_destination_digest k)
          && (1 <=? dk_projection_version k)) IntegrityError;;
  execute (set_deliveries (<[k := r]>)).
(** [claim_transport_delivery]. *)
Definition claim_transport_delivery (key : delivery_key) (worker_id : string) (lease_seconds : Z) :
    Store delivery_claim :=
  k ← transport_delivery_key key;
  worker ← transport_worker_id worker_id;
  transport_lease lease_seconds;;
  now_value ← utc_now;
  let t := format_time now_value in
  expires ← format_after now_value lease_seconds;
  transaction (
    projection ← query (λ d, transport_delivery_projections d !! k);
    match projection with
    | Some p => mret (DeliveryClaim k
        (if bool_decide (tp_state p = projection_delivered) then "delivered" else "in_flight")
        None 0 None)
    | None =>
        row ← query (λ d, transport_deliveries d !! k);
        match row with
        | None =>
            put_delivery k (DeliveryRow delivery_claimed (Claim (Some worker) (Some expires) 1) t None);;
            transport_delivery_claim k "claimed"
        | Some r =>
            if bool_decide (td_state r = delivery_delivered) then transport_delivery_claim k "delivered"
            else if bool_decide (td_state r = delivery_claimed)
                    && match cl_expires_at (td_claim r) with Some e => str_lt t e | None => false end
            then transport_delivery_claim k "in_flight"
            else
              put_delivery k (DeliveryRow delivery_claimed (take_claim worker expires (td_claim r))
                (td_created_at r) (td_delivered_at r));;
              transport_delivery_claim k "claimed"
        end
    end).
(** An UPDATE under [state = 'claimed' AND claim_owner = ? AND claim_epoch = ? AND ...]. *)
Definition settle_delivery (k : delivery_key) (where_ : delivery_row → bool)
    (f : delivery_row → delivery_row) (target : string) : Store unit :=
  row ← query (λ d, transport_deliveries d !! k);
  match row with
  | Some r =>
      if where_ r then put_delivery k (f r) else raise (InvalidTransition "stale_claim" target)
  | None => raise (InvalidTransition "stale_claim" target)
  end.
Definition delivery_held (worker : string) (epoch : Z) (r : delivery_row) : bool :=
  bool_decide (td_state r = delivery_claimed) && claim_is worker epoch (td_claim r).
(** [complete_transport_delivery], [release_transport_delivery]. *)
Definition complete_transport_delivery (key : delivery_key) (worker_id : string) (epoch : Z) :
    Store delivery_claim :=
  k ← transport_delivery_key key;
  worker ← transport_worker_id worker_id;
  check_epoch epoch;;
  t ← now;
  transaction (
    settle_delivery k
      (λ r, delivery_held worker epoch r
            && match cl_expires_at (td_claim r) with Some e => str_lt t e | None => false end)
      (λ r, DeliveryRow delivery_delivered (drop_claim (td_claim r)) (td_created_at r) (Some t))
      "delivered";;
    transport_delivery_claim k "delivered").
Definition release_transport_delivery (key : delivery_key) (worker_id : string) (epoch : Z) :
    Store unit :=
  k ← transport_delivery_key key;
  worker ← transport_worker_id worker_id;
  check_epoch epoch;;
  transaction (
    settle_delivery k (delivery_held worker epoch)
      (λ r, DeliveryRow delivery_pending (drop_claim (td_claim r)) (td_created_at r) (td_delivered_at r))
      "pending").

(** ** Opaque targets *)
Definition target_row_of (t : opaque_target) (expires_at created_at : string) : target_row :=
  TargetRow (ot_namespace t) (ot_purpose t) (ot_resource_kind t) (ot_resource_id t)
    (ot_expected_revision t) (ot_choice t) (ot_scope_digest t) expires_at created_at None.
Definition insert_target (token : string) (r : target_row) : Store unit :=
  taken ← query (λ d, transport_opaque_targets d !! token);
  ensure (bool_decide (taken = None) && target_check token r) IntegrityError;;
  execute (set_targets (<[token := r]>)).
(** [put_transport_opaque_target]. *)
Definition put_transport_opaque_target (token_digest : string) (target : opaque_target) : Store unit :=
  token ← transport_digest token_digest "token_digest";
  t ← transport_opaque_target target;
  transaction (
    created ← now;
    on_integrity_error (InvalidTransition "token_collision" "stored")
      (insert_target token (target_row_of t (format_time (ot_expires_at t)) created))).
(** [claim_transport_opaque_target]. *)
Definition consume_target (owner t : string) (r : target_row) : target_row :=
  TargetRow (tt_namespace r) (tt_purpose r) (tt_resource_kind r) (tt_resource_id r)
    (tt_expected_revision r) (tt_choice r) (tt_scope_digest r) (tt_expires_at r)
    (tt_created_at r) (Some (owner, t)).
Definition claim_transport_opaque_target (token_digest : string) (consumer : option string)
    (consume : bool) : Store (option opaque_target) :=
  token ← transport_digest token_digest "token_digest";
  (match consumer with Some c => validate_key c | None => mret tt end);;
  transaction (
    row ← query (λ d, transport_opaque_targets d !! token);
    match row with
    | None => mret None
    | Some r =>
        target ← transport_opaque_target_row r;
        if negb consume then mret (Some target)
        else
          let owner := default "single-use" consumer in
          if bool_decide (is_Some consumer) && bool_decide (fst <$> tt_consumed r = Some owner)
          then mret (Some target)
          else if bool_decide (is_Some (tt_consumed r)) then mret None
          else
            t ← now;
            execute (set_targets (<[token := consume_target owner t r]>));;
            mret (Some target)
    end).

(** ** Freezing *)
Definition insert_projection (k : delivery_key) (r : projection_row) : Store unit :=
  fits ← query (λ d, bool_decide (transport_delivery_projections d !! k = None)
    && forallb (λ x : delivery_key * projection_row,
         negb (String.eqb (tp_operation_id x.2) (tp_operation_id r)))
         (map_to_list (transport_delivery_projections d)));
  ensure (fits && projection_insert_check k r) IntegrityError;;
  execute (set_projections (<[k := r]>)).
Definition insert_chunk (k : delivery_key) (i : Z) (r : chunk_row) : Store unit :=
  fits ← query (λ d, bool_decide (is_Some (transport_delivery_projections d !! k))
    && bool_decide (transport_delivery_chunks d !! (k, i) = None)
    && forallb (λ x : delivery_key * Z * chunk_row,
         negb (String.eqb (ck_operation_id x.2) (ck_operation_id r)))
         (map_to_list (transport_delivery_chunks d)));
  ensure (fits && chunk_insert_check i r) IntegrityError;;
  execute (set_chunks (<[(k, i) := r]>)).
Definition insert_button (k : delivery_key) (i position : Z) (b : button_row) : Store unit :=
  rows ← query (buttons_of k i);
  ensure ((Z.of_nat (length rows) =? position) && button_check position b) IntegrityError;;
  execute (set_buttons (add_row (k, i) b)).
Definition insert_capability (k : delivery_key) (i position : Z) (c : capability_row) : Store unit :=
  rows ← query (capabilities_of k i);
  others ← query (all_capabilities_of k);
  ensure ((Z.of_nat (length rows) =? position) && capability_check position c
          && forallb (λ x, negb (String.eqb (cp_token_digest x) (cp_token_digest c))
                           && negb (cp_target_position x =? cp_target_position c)) others)
    IntegrityError;;
  execute (set_capabilities (add_row (k, i) c)).
Definition freeze_capability (k : delivery_key) (targets : list registration) (i position : Z)
    (c : capability) : Store unit :=
  at_ ← from_option (target_position (ca_token_digest c) 0 targets) LookupError;
  insert_capability k i position
    (CapabilityRow at_ (ca_namespace c) (ca_token_digest c) (format_registry_time (ca_expires_at c))
       (ca_start_offset c) (ca_end_offset c)).
Definition new_chunk_row (c : chunk_projection) : chunk_row :=
  ChunkRow (cj_operation_id c) (cj_text c) (cj_parse_mode c) (cj_chunk_hash c) chunk_pending 0
    (Claim None None 0) None None None None None None.
Definition freeze_chunk (k : delivery_key) (targets : list registration) (c : chunk_projection) :
    Store unit :=
  insert_chunk k (cj_chunk_index c) (new_chunk_row c);;
  for_each (insert_button k (cj_chunk_index c)) 0 (cj_buttons c);;
  for_each (freeze_capability k targets (cj_chunk_index c)) 0 (cj_capabilities c).
Definition freeze_target (t : string) (r : registration) : Store unit :=
  taken ← query (λ d, transport_opaque_targets d !! og_token_digest r);
  ensure (bool_decide (taken = None)) (InvalidTransition "token_collision" "frozen");;
  target ← transport_opaque_target (og_target r);
  insert_target (og_token_digest r)
    (target_row_of target (format_registry_time (ot_expires_at target)) t).
Definition new_projection_row (p : frozen_projection) (request_hash t : string) : projection_row :=
  ProjectionRow (fp_operation_id p) request_hash (fp_projection_hash p)
    (fp_destination_binding_digest p) (fp_routing p) (fp_capability_binding_digest p)
    (fp_rpc_timeout_seconds p) (Z.of_nat (length (fp_chunks p))) t projection_pending 0 None.
Definition freeze_rows (k : delivery_key) (p : frozen_projection) (targets : list registration)
    (request_hash t : string) : Store unit :=
  on_integrity_error (InvalidTransition "projection_conflict" "frozen") (
    insert_projection k (new_projection_row p request_hash t);;
    for_each (λ _ c, freeze_chunk k targets c) 0 (fp_chunks p);;
    for_each (λ _ r, freeze_target t r) 0 targets).
(** [freeze_transport_delivery_projection]. *)
Definition freeze_transport_delivery_projection (p : frozen_projection) (targets : list registration)
    (request_hash : string) : Store freeze_result :=
  checked (validate_transport_delivery_projection p targets);;
  request_hash ← transport_digest request_hash "request_hash";
  k ← transport_delivery_key (fp_delivery_key p);
  transaction (
    legacy ← query (λ d, transport_deliveries d !! k);
    match legacy with
    | Some r => mret (if bool_decide (td_state r = delivery_delivered) then AlreadyDelivered
                      else LegacyDeliveryUncertain)
    | None =>
        existing ← query (λ d, transport_delivery_projections d !! k);
        match existing with
        | Some r =>
            ensure (String.eqb (tp_request_hash r) request_hash) IdempotencyConflict;;
            q ← verified_frozen_transport_delivery_projection k;
            ensure (String.eqb (tp_projection_hash r) (fp_projection_hash p))
              (InvalidTransition "projection_drift" "replayed");;
            mret (Replayed q)
        | None =>
            t ← registry_now;
            freeze_rows k p targets request_hash t;;
            q ← frozen_transport_delivery_projection k;
            mret (Frozen q)
        end
    end).

(** ** Chunks *)

(** [claim_transport_delivery_chunk]. *)
Definition is_settled (s : chunk_state) : bool :=
  match s with chunk_sending_unknown | chunk_delivered | chunk_failed => true | _ => false end.
Definition earlier_undelivered (k : delivery_key) (i : Z) (d : db) : bool :=
  existsb (λ x : Z * chunk_row, (x.1 <? i) && negb (bool_decide (ck_state x.2 = chunk_delivered)))
    (chunks_of k d).
Definition later (t : string) (o : option string) : bool :=
  match o with Some e => str_lt t e | None => false end.
Definition claim_transport_delivery_chunk (key : delivery_key) (i : Z) (worker_id : string)
    (lease_seconds : Z) : Store chunk_claim :=
  k ← transport_delivery_key key;
  transport_chunk_index i;;
  worker ← transport_worker_id worker_id;
  transport_lease lease_seconds;;
  now_value ← utc_now;
  let t := format_registry_time now_value in
  expires ← registry_after (dt_add_seconds now_value lease_seconds);
  transaction (
    r ← transport_delivery_chunk_row k i;
    if is_settled (ck_state r) then transport_delivery_chunk_claim k i None
    else
      blocked ← query (earlier_undelivered k i);
      ensure (negb blocked) (InvalidTransition "chunk_order" "claimed");;
      if bool_decide (ck_state r = chunk_claimed) && later t (cl_expires_at (ck_claim r))
      then transport_delivery_chunk_claim k i None
      else if bool_decide (ck_state r = chunk_pending) && later t (ck_retry_not_before r)
      then transport_delivery_chunk_claim k i (Some "deferred")
      else
        update_chunk k i (ck_lease worker expires);;
        refresh_transport_delivery_parent k t;;
        transport_delivery_chunk_claim k i None).

(** [begin_transport_delivery_chunk_send]. *)
Definition authorizing_window (o : option activation_record) : option string :=
  match o with
  | Some a => if bool_decide (av_mode a = Some "window") then Some (av_id a) else None
  | None => None
  end.
Definition begin_transport_delivery_chunk_send (key : delivery_key) (i : Z) (worker_id : string)
    (claim_epoch expected_revision : Z) (observed_capability_binding_digest : string) :
    Store send_decision :=
  '(k, worker) ← validated_transport_chunk_mutation key i worker_id claim_epoch expected_revision;
  observed ← transport_digest observed_capability_binding_digest
               "observed_capability_binding_digest";
  now_value ← utc_now;
  let t := format_registry_time now_value in
  transaction (
    r ← transport_delivery_chunk_row k i;
    require_transport_chunk_fence r chunk_claimed "sending_unknown" worker claim_epoch
      expected_revision (Some t);;
    p ← verified_frozen_transport_delivery_projection k;
    if negb (String.eqb (fp_capability_binding_digest p) observed) then
      fail_transport_delivery_chunk_row k i "capability_mismatch" t;;
      mret CapabilityMismatch
    else
      deadline ← registry_after (dt_add_seconds now_value (fp_rpc_timeout_seconds p));
      expired ← query (λ d, existsb (λ c, str_le (cp_expires_at c) deadline) (capabilities_of k i d));
      if expired : bool then
        fail_transport_delivery_chunk_row k i "capability_expired" t;;
        mret CapabilityExpired
      else
        update_chunk k i ck_send;;
        refresh_transport_delivery_parent k t;;
        c ← transport_delivery_chunk_claim k i None;
        authorizing ← activation_in_force (transport_gate (dk_transport k));
        mret (SendPermitted (SendPermit (cc_projection c) (cc_chunk c) (cc_revision c)
                (cc_claim_epoch c) (authorizing_window authorizing)))).

(** [complete_transport_delivery_chunk].  The window is a foreign key, and a trigger
    keeps one that is there. *)
Definition window_fits (window : option string) (r : chunk_row) (d : db) : bool :=
  match window with
  | None => true
  | Some x => bool_decide (is_Some (find_decision x d))
      && match ck_transport_window_id r with Some y => String.eqb x y | None => true end
  end.
Definition complete_transport_delivery_chunk (key : delivery_key) (i : Z) (worker_id : string)
    (claim_epoch expected_revision : Z) (provider_receipt_digest : string)
    (transport_window_id : option string) : Store chunk_claim :=
  '(k, worker) ← validated_transport_chunk_mutation key i worker_id claim_epoch expected_revision;
  receipt ← control_digest provider_receipt_digest "provider_receipt_digest";
  window ← optional_text transport_window_id "transport_window_id" 200;
  t ← registry_now;
  transaction (
    r ← transport_delivery_chunk_row k i;
    require_transport_chunk_fence r chunk_sending_unknown "delivered" worker claim_epoch
      expected_revision None;;
    fits ← query (window_fits window r);
    ensure fits IntegrityError;;
    update_chunk k i (ck_deliver receipt t window);;
    refresh_transport_delivery_parent k t;;
    transport_delivery_chunk_claim k i None).

(** [release_transport_delivery_chunk]. *)
Definition proof_source (proof : string) : option chunk_state :=
  if String.eqb proof "rpc_not_started" then Some chunk_claimed
  else if String.eqb proof "provider_proved_before_send" then Some chunk_sending_unknown else None.
Definition release_transport_delivery_chunk (key : delivery_key) (i : Z) (worker_id : string)
    (claim_epoch expected_revision : Z) (proof : string) (retry_after_ms : option Z) :
    Store chunk_claim :=
  '(k, worker) ← validated_transport_chunk_mutation key i worker_id claim_epoch expected_revision;
  source ← from_option (proof_source proof) (ValueError "proof is invalid");
  ensure (match retry_after_ms with Some n => between 1 3600000 n | None => true end)
    (ValueError "retry_after_ms must be between 1 and 3600000");;
  now_value ← utc_now;
  let t := format_registry_time now_value in
  retry ← (match retry_after_ms with
           | Some n => s ← registry_after (dt_add_milliseconds now_value n); mret (Some s)
           | None => mret None
           end);
  transaction (
    r ← transport_delivery_chunk_row k i;
    require_transport_chunk_fence r source "pending" worker claim_epoch expected_revision
      (if bool_decide (source = chunk_claimed) then Some t else None);;
    update_chunk k i (ck_release retry);;
    refresh_transport_delivery_parent k t;;
    transport_delivery_chunk_claim k i None).

(** [fail_transport_delivery_chunk]. *)
Definition fail_transport_delivery_chunk (key : delivery_key) (i : Z) (worker_id : string)
    (claim_epoch expected_revision : Z) (category : string) : Store chunk_claim :=
  '(k, worker) ← validated_transport_chunk_mutation key i worker_id claim_epoch expected_revision;
  category ← required_text category "category" 100;
  ensure (target_kind_ok category) (ValueError "category is invalid");;
  t ← registry_now;
  transaction (
    r ← transport_delivery_chunk_row k i;
    require_transport_chunk_fence r chunk_sending_unknown "failed" worker claim_epoch
      expected_revision None;;
    fail_transport_delivery_chunk_row k i category t;;
    transport_delivery_chunk_claim k i None).

(** [resolve_transport_delivery_chunk_sending_unknown]. *)
Definition key_json (k : delivery_key) : json := JObj
  [("transport", JStr (dk_transport k)); ("destination_digest", JStr (dk_destination_digest k));
   ("event_id", JStr (dk_event_id k)); ("projection_version", JInt (dk_projection_version k))].
Definition resolution_of (actor_id key : string) (d : db) : option (string * resolution_row) :=
  List.find (λ x : string * resolution_row,
      String.eqb (re_actor_id x.2) actor_id && String.eqb (re_idempotency_key x.2) key)
    (map_to_list (transport_delivery_chunk_resolutions d)).
Definition insert_resolution (id : string) (r : resolution_row) : Store unit :=
  fits ← query (λ d, bool_decide (transport_delivery_chunk_resolutions d !! id = None)
    && bool_decide (resolution_of (re_actor_id r) (re_idempotency_key r) d = None)
    && bool_decide (is_Some (transport_delivery_chunks d !! (re_key r, re_chunk_index r))));
  ensure (fits && resolution_check id r) IntegrityError;;
  execute (set_resolutions (<[id := r]>)).
Definition resolve_transport_delivery_chunk_sending_unknown (delivery : delivery_key) (i : Z)
    (resolution : string) (expected_revision : Z) (actor_id idempotency_key : string) :
    Store chunk_claim :=
  k ← transport_delivery_key delivery;
  transport_chunk_index i;;
  ensure (in_texts resolution ["assume_delivered"; "retry"]) (ValueError "resolution is invalid");;
  transport_revision expected_revision;;
  actor ← required_text actor_id "actor_id" 200;
  validate_key idempotency_key;;
  let hash := request_hash (JObj [("delivery_key", key_json k); ("chunk_index", JInt i);
    ("resolution", JStr resolution); ("expected_revision", JInt expected_revision)]) in
  transaction (
    replay ← query (resolution_of actor idempotency_key);
    match replay with
    | Some (_, x) =>
        ensure (String.eqb (re_request_hash x) hash) IdempotencyConflict;;
        transport_delivery_resolution_claim k x
    | None =>
        r ← transport_delivery_chunk_row k i;
        ensure (bool_decide (ck_state r = chunk_sending_unknown))
          (InvalidTransition (chunk_state_text (ck_state r)) resolution);;
        ensure (ck_revision r =? expected_revision) (InvalidTransition "stale_revision" resolution);;
        t ← registry_now;
        id ← new_id "resolution";
        let assumed := String.eqb resolution "assume_delivered" in
        on_integrity_error (InvalidTransition "resolution_conflict" "recorded")
          (insert_resolution id (ResolutionRow k i actor idempotency_key hash expected_revision
             resolution expected_revision (cl_epoch (ck_claim r))
             (if assumed then chunk_delivered else chunk_pending) (expected_revision + 1) t));;
        update_chunk k i (if assumed then ck_assume id t else ck_release (ck_retry_not_before r));;
        refresh_transport_delivery_parent k t;;
        transport_delivery_chunk_claim k i None
    end).

(** ** Listings *)
Definition listing_row (k : delivery_key) (r : projection_row) : json := JObj
  [("transport", JStr (dk_transport k)); ("destination_digest", JStr (dk_destination_digest k));
   ("event_id", JStr (dk_event_id k)); ("projection_version", JInt (dk_projection_version k));
   ("state", JStr (projection_state_text (tp_state r))); ("created_at", JStr (tp_created_at r))].
(** [ORDER BY created_at, operation_id]. *)
Definition listing_le (a b : delivery_key * projection_row) : bool :=
  pair_le (tp_created_at a.2, tp_operation_id a.2) (tp_created_at b.2, tp_operation_id b.2).
Definition projections_where (p : delivery_key → projection_row → bool) (d : db) :
    list (delivery_key * projection_row) :=
  isort listing_le (List.filter (λ x : delivery_key * projection_row, p x.1 x.2)
    (map_to_list (transport_delivery_projections d))).
Definition pending_transport_deliveries (transport : string) (limit : Z) : Store (list json) :=
  transport ← transport_name transport;
  ensure (between 1 1000 limit) (ValueError "limit must be between 1 and 1000");;
  rows ← query (projections_where (λ k r, String.eqb (dk_transport k) transport
                                          && bool_decide (tp_state r = projection_pending)));
  mret (map (λ x : delivery_key * projection_row, listing_row x.1 x.2) (take (Z.to_nat limit) rows)).
Definition transport_deliveries_for_event (transport event_id : string) : Store (list json) :=
  transport ← transport_name transport;
  event_id ← required_text event_id "event_id" 500;
  rows ← query (projections_where (λ k _, String.eqb (dk_transport k) transport
                                          && String.eqb (dk_event_id k) event_id));
  mret (map (λ x : delivery_key * projection_row, listing_row x.1 x.2) rows).
End TransportLedger.
