(* ===== verification/TransportInbox.v ===== *)
(** * Transport bindings and command receipts

    The transport commands of [control/store.py]: which thread an external scope
    speaks to, and the receipts of the commands a transport has had executed. *)

From Stdlib Require Import Ascii.
From S2P Require Import Prelude PyText Clock Json Schema Store Captures Activation Threads Resources Decisions Transport TransportLedger.
Open Scope Z_scope.

(** HMAC-SHA256 in hex under the binding key of an initialised store. *)
Class BindingKey := { scope_hmac : string → string }.

(** [TransportCommandResponse], [TransportCommandReceipt]. *)
Record transport_response := TransportResponse {
  tr_ok : bool; tr_category : string; tr_action : string; tr_response_text : string;
  tr_mutated : bool; tr_replayed : bool; tr_retryable : bool;
  tr_retry_after_ms : option Z; tr_state : option string; tr_revision : option Z }.
Record transport_receipt := TransportReceipt {
  tc_transport : string; tc_command_key : string; tc_hash : string;
  tc_response : transport_response; tc_at : Z }.

Definition binding_json (id : string) (r : transport_binding_row) : json := JObj
  [("id", JStr id); ("transport", JStr (tb_transport r));
   ("external_scope", JStr (tb_external_scope r)); ("thread_id", JStr (tb_thread_id r));
   ("revision", JInt (tb_revision r)); ("created_at", JStr (tb_created_at r));
   ("updated_at", JStr (tb_updated_at r))].
Definition bound_to (transport scope : string) (x : string * transport_binding_row) : bool :=
  String.eqb (tb_transport x.2) transport && String.eqb (tb_external_scope x.2) scope.
Definition scope_binding (transport scope : string) (d : db) : option (string * transport_binding_row) :=
  List.find (bound_to transport scope) (map_to_list (transport_bindings d)).

(** [asdict] of a response, and its fields in order with their defaults. *)
Definition response_json (r : transport_response) : json := JObj
  [("ok", JBool (tr_ok r)); ("category", JStr (tr_category r)); ("action", JStr (tr_action r));
   ("response_text", JStr (tr_response_text r)); ("mutated", JBool (tr_mutated r));
   ("replayed", JBool (tr_replayed r)); ("retryable", JBool (tr_retryable r));
   ("retry_after_ms", opt_int (tr_retry_after_ms r)); ("state", opt_json (tr_state r));
   ("revision", opt_int (tr_revision r))].
Definition required_fields : list string := ["ok"; "category"; "action"; "response_text"].
Definition optional_fields : list (string * json) :=
  [("mutated", JBool false); ("replayed", JBool false); ("retryable", JBool false);
   ("retry_after_ms", JNull); ("state", JNull); ("revision", JNull)].

Section TransportInbox.
Context `{Env} `{BindingKey}.

(** [_scope_digest], [_binding]. *)
Definition scope_digest (external_scope : string) : string :=
  "hmac-sha256:" +:+ scope_hmac external_scope.
Definition binding (id : string) : Store json :=
  row ← query (λ d, transport_bindings d !! id);
  r ← from_option row (NotFound "transport binding" id);
  mret (binding_json id r).

(** [bind_transport]. *)
Definition insert_binding (id : string) (r : transport_binding_row) : Store unit :=
  fits ← query (λ d, bool_decide (transport_bindings d !! id = None)
    && bool_decide (scope_binding (tb_transport r) (tb_external_scope r) d = None)
    && bool_decide (is_Some (threads d !! tb_thread_id r)));
  ensure fits IntegrityError;;
  execute (set_transport_bindings (<[id := r]>)).
Definition bind_body (transport scope thread_id : string) : Store (json * Z) :=
  thread thread_id;;
  existing ← query (scope_binding transport scope);
  match existing with
  | Some (id, r) =>
      v ← binding id;
      ensure (String.eqb (tb_thread_id r) thread_id) (TransportBindingConflict v);;
      mret (v, 200)
  | None =>
      t ← now; id ← new_id "binding";
      insert_binding id (TransportBindingRow transport scope thread_id 0 t t);;
      audit "thread" thread_id "transport.bound"
        (JObj [("binding_id", JStr id); ("transport", JStr transport)]);;
      v ← binding id; mret (v, 201)
  end.
Definition bind_transport (transport external_scope thread_id actor_id key : string) :
    Store command_result :=
  transport ← required_text transport "transport" 50;
  external_scope ← required_text external_scope "external_scope" 500;
  let scope := scope_digest external_scope in
  command actor_id ("POST:/internal/v1/transports/" +:+ transport +:+ "/bindings/" +:+ scope) key
    (JObj [("transport", JStr transport); ("thread_id", JStr thread_id)])
    (bind_body transport scope thread_id).

(** [thread_has_transport_binding], [resolve_transport]. *)
Definition thread_has_transport_binding (thread_id : string) : Store bool :=
  query (λ d, existsb (λ x : string * transport_binding_row, String.eqb (tb_thread_id x.2) thread_id)
    (map_to_list (transport_bindings d))).
Definition resolve_transport (transport external_scope : string) : Store (option json) :=
  row ← query (scope_binding transport (scope_digest external_scope));
  match row with
  | Some (id, _) => v ← binding id; mret (Some v)
  | None => mret None
  end.

(** [_transport_command_response], on the fields as they come out of a document. *)
Definition as_bool (v : json) : Store bool :=
  match v with
  | JBool b => mret b
  | _ => raise (ValueError "transport command response booleans are invalid")
  end.
Definition as_text (v : json) (name : string) (maximum : Z) : Store string :=
  match v with
  | JStr s => required_text s name maximum
  | _ => raise (ValueError (name +:+ " is invalid"))
  end.
Definition as_optional_int (least : Z) (message : string) (v : json) : Store (option Z) :=
  match v with
  | JNull => mret None
  | JInt n => ensure (least <=? n) (ValueError message);; mret (Some n)
  | _ => raise (ValueError message)
  end.
Definition transport_command_response (f : string → json) : Store transport_response :=
  ok ← as_bool (f "ok"); mutated ← as_bool (f "mutated");
  replayed ← as_bool (f "replayed"); retryable ← as_bool (f "retryable");
  category ← as_text (f "category") "category" 100;
  action ← as_text (f "action") "action" 100;
  response_text ← as_text (f "response_text") "response_text" 4000;
  ensure (str_all public_char response_text)
    (ValueError "response_text contains invalid control characters");;
  retry ← as_optional_int 1 "retry_after_ms must be a positive integer" (f "retry_after_ms");
  state ← (match f "state" with
           | JNull => mret None
           | v => s ← as_text v "state" 200; mret (Some s)
           end);
  revision ← as_optional_int 0 "revision must be a non-negative integer" (f "revision");
  mret (TransportResponse ok category action response_text mutated replayed retryable retry state
          revision).

(** [TransportCommandResponse( **response)]: an unknown or a missing field is refused. *)
Definition invalid_response : exc := RuntimeError "transport command response is invalid".
Definition response_fields (v : json) : Store (string → json) :=
  match v with
  | JObj kvs =>
      ensure (forallb (λ kv : string * json, existsb (String.eqb kv.1)
                (required_fields ++ optional_fields.*1)) kvs) invalid_response;;
      ensure (forallb (λ name, bool_decide (is_Some (assoc name kvs))) required_fields)
        invalid_response;;
      mret (λ name, default (default JNull (assoc name optional_fields)) (assoc name kvs))
  | _ => raise invalid_response
  end.
(** [_transport_command_row]. *)
Definition transport_command_row (transport command_key : string) : Store (option transport_receipt) :=
  row ← query (λ d, transport_command_receipts d !! (transport, command_key));
  match row with
  | None => mret None
  | Some r =>
      v ← json_loads (tc_response_json r);
      f ← response_fields v;
      response ← transport_command_response f;
      t ← control_time (tc_created_at r);
      mret (Some (TransportReceipt transport command_key (tc_request_hash r) response t))
  end.

(** [record_transport_command], [get_transport_command]. *)
Definition record_transport_command (transport command_key request_hash : string)
    (response : transport_response) : Store transport_receipt :=
  transport ← transport_name transport;
  validate_key command_key;;
  hash ← transport_digest request_hash "request_hash";
  response ← transport_command_response (λ name, field name (response_json response));
  let text := json_text (response_json response) in
  transaction (
    existing ← transport_command_row transport command_key;
    match existing with
    | Some x => ensure (String.eqb (tc_hash x) hash) IdempotencyConflict;; mret x
    | None =>
        t ← now;
        execute (set_transport_commands (<[(transport, command_key) := TransportCommandRow hash text t]>));;
        stored ← transport_command_row transport command_key;
        from_option stored (RuntimeError "transport command receipt was not persisted")
    end).
Definition get_transport_command (transport command_key request_hash : string) :
    Store (option transport_receipt) :=
  transport ← transport_name transport;
  validate_key command_key;;
  hash ← transport_digest request_hash "request_hash";
  x ← transport_command_row transport command_key;
  ensure (match x with Some x => String.eqb (tc_hash x) hash | None => true end) IdempotencyConflict;;
  mret x.
End TransportInbox.
