(* ===== verification/TransportSteps.v ===== *)
(** * The steps of the transport ledger

    The tables of frozen deliveries as one abstract ledger, the labelled steps it
    takes, and that every command of [TransportLedger] is refused, reads, or takes one
    step of the label it is allowed. *)

From S2P Require Import Prelude PyText Clock Json Schema Store Runs Captures Activation ActivationFacts RuntimeEvents Decisions Resources Transport TransportLedger.
Open Scope Z_scope.

Record ledger := Ledger {
  lg_projections : gmap delivery_key projection_row;
  lg_chunks : gmap (delivery_key * Z) chunk_row;
  lg_buttons : gmap (delivery_key * Z) (list button_row);
  lg_capabilities : gmap (delivery_key * Z) (list capability_row);
  lg_targets : gmap string target_row }.
Definition ledger_of (d : db) : ledger :=
  Ledger (transport_delivery_projections d) (transport_delivery_chunks d)
    (transport_delivery_chunk_buttons d) (transport_delivery_chunk_capabilities d)
    (transport_opaque_targets d).
Definition ledger_at (w : world) : ledger := ledger_of (w_db w).

(** What [chunks_of] and its kin read. *)
Definition lg_chunks_of (k : delivery_key) (L : ledger) : list (Z * chunk_row) :=
  omap (λ i, (λ r, (i, r)) <$> lg_chunks L !! (k, i)) (seqZ 0 100).
Definition lg_states (k : delivery_key) (L : ledger) : list chunk_state :=
  map (λ x : Z * chunk_row, ck_state x.2) (lg_chunks_of k L).
Definition lg_capabilities_of (k : delivery_key) (L : ledger) : list capability_row :=
  mjoin (map (λ i, default [] (lg_capabilities L !! (k, i))) (seqZ 0 100)).

(** ** Moves of a chunk *)
(** A chunk is [returned] before a permit and [recalled] after one. *)
Inductive move_kind := taken | permitted | delivered | returned | recalled | failed.
Inductive moves : move_kind → chunk_row → chunk_row → Prop :=
| moves_taken worker expires r :
    ck_state r = chunk_pending ∨ ck_state r = chunk_claimed →
    moves taken r (ck_lease worker expires r)
| moves_permitted r : ck_state r = chunk_claimed → moves permitted r (ck_send r)
| moves_delivered receipt t window r :
    ck_state r = chunk_sending_unknown → moves delivered r (ck_deliver receipt t window r)
| moves_assumed id t r :
    ck_state r = chunk_sending_unknown → moves delivered r (ck_assume id t r)
| moves_returned retry r : ck_state r = chunk_claimed → moves returned r (ck_release retry r)
| moves_recalled retry r :
    ck_state r = chunk_sending_unknown → moves recalled r (ck_release retry r)
| moves_failed category t r :
    ck_state r = chunk_claimed ∨ ck_state r = chunk_sending_unknown →
    moves failed r (ck_fail category t r).

Definition put_chunk_row (k : delivery_key) (i : Z) (r : chunk_row) (L : ledger) : ledger :=
  Ledger (lg_projections L) (<[(k, i) := r]> (lg_chunks L)) (lg_buttons L) (lg_capabilities L)
    (lg_targets L).
Definition refresh_parent (k : delivery_key) (t : string) (L : ledger) : ledger :=
  let s := parent_state (lg_states k L) in
  Ledger (alter (tp_refresh s (if is_completed s then Some t else None)) k (lg_projections L))
    (lg_chunks L) (lg_buttons L) (lg_capabilities L) (lg_targets L).
Definition move_chunk (k : delivery_key) (i : Z) (r : chunk_row) (t : string) (L : ledger) : ledger :=
  refresh_parent k t (put_chunk_row k i r L).
(** Nothing before chunk [i] is left to deliver. *)
Definition in_turn (k : delivery_key) (i : Z) (L : ledger) : Prop :=
  ∀ j r, 0 <= j < 100 → j < i → lg_chunks L !! (k, j) = Some r → ck_state r = chunk_delivered.

(** ** What freezing writes *)
Definition add_rows {A} (x : delivery_key * Z) (l : list A) (m : gmap (delivery_key * Z) (list A)) :=
  match l with [] => m | _ => <[x := default [] (m !! x) ++ l]> m end.
Definition capability_row_of (targets : list registration) (c : capability) : capability_row :=
  CapabilityRow (default 0 (target_position (ca_token_digest c) 0 targets)) (ca_namespace c)
    (ca_token_digest c) (format_registry_time (ca_expires_at c)) (ca_start_offset c)
    (ca_end_offset c).
Definition put_chunk (k : delivery_key) (targets : list registration) (L : ledger)
    (c : chunk_projection) : ledger :=
  Ledger (lg_projections L) (<[(k, cj_chunk_index c) := new_chunk_row c]> (lg_chunks L))
    (add_rows (k, cj_chunk_index c) (cj_buttons c) (lg_buttons L))
    (add_rows (k, cj_chunk_index c) (map (capability_row_of targets) (cj_capabilities c))
       (lg_capabilities L)) (lg_targets L).
Definition put_target (token : string) (r : target_row) (L : ledger) : ledger :=
  Ledger (lg_projections L) (lg_chunks L) (lg_buttons L) (lg_capabilities L)
    (<[token := r]> (lg_targets L)).
(** The texts of a key and of a target as they are stored. *)
Definition stored_key (k : delivery_key) : delivery_key :=
  DeliveryKey (dk_transport k) (dk_destination_digest k) (strip (dk_event_id k))
    (dk_projection_version k).
Definition stored_target (t : opaque_target) : opaque_target :=
  OpaqueTarget (ot_namespace t) (strip (ot_purpose t)) (strip (ot_resource_kind t))
    (strip (ot_resource_id t)) (ot_expected_revision t) (strip <$> ot_choice t)
    (ot_scope_digest t) (ot_expires_at t).
Definition frozen_target (t : string) (r : registration) : target_row :=
  let x := stored_target (og_target r) in
  target_row_of x (format_registry_time (ot_expires_at x)) t.
Definition put_projection (k : delivery_key) (r : projection_row) (L : ledger) : ledger :=
  Ledger (<[k := r]> (lg_projections L)) (lg_chunks L) (lg_buttons L) (lg_capabilities L)
    (lg_targets L).
Definition freeze_ledger (k : delivery_key) (p : frozen_projection) (targets : list registration)
    (request_hash t : string) (L : ledger) : ledger :=
  fold_left (λ L r, put_target (og_token_digest r) (frozen_target t r) L) targets
    (fold_left (put_chunk k targets) (fp_chunks p)
       (put_projection k (new_projection_row p request_hash t) L)).

Section Steps.
Context `{Env} `{UnicodeChecks}.

(** ** Steps *)
Inductive label :=
| Freezes (k : delivery_key) | Moves (k : delivery_key) (i : Z) (m : move_kind)
| Puts (token : string) | Consumes (token : string).
Inductive ledger_step : label → ledger → ledger → Prop :=
| step_freeze k p targets hash t L :
    validate_transport_delivery_projection p targets = inr p →
    k = stored_key (fp_delivery_key p) → lg_projections L !! k = None →
    (∀ r, r ∈ targets → lg_targets L !! og_token_digest r = None) →
    ledger_step (Freezes k) L (freeze_ledger k p targets hash t L)
| step_move k i m r r' t L :
    lg_chunks L !! (k, i) = Some r → moves m r r' → chunk_check r' = true →
    (m = taken → in_turn k i L) →
    ledger_step (Moves k i m) L (move_chunk k i r' t L)
| step_put token r L :
    lg_targets L !! token = None → tt_consumed r = None →
    ledger_step (Puts token) L (put_target token r L)
| step_consume token r owner t L :
    lg_targets L !! token = Some r → tt_consumed r = None →
    ledger_step (Consumes token) L (put_target token (consume_target owner t r) L).

(** A command from [w] to [w'] reads only, or takes a step with a label of [P]. *)
Definition stays_or (P : label → Prop) (w w' : world) : Prop :=
  ledger_at w' = ledger_at w ∨ ∃ l, P l ∧ ledger_step l (ledger_at w) (ledger_at w').

(** ** The readers keep every view of the world *)
Context {V : Type} (view : world → V).
Lemma keeps_checked {A} (r : Res A) : keeps view (checked r).
Proof. destruct r; eauto with keeps. Qed.
Lemma keeps_verifying {A} (m : Store A) : keeps view m → keeps view (verifying m).
Proof. intros Hm w. specialize (Hm w). unfold verifying. destruct (m w) as [|[]]; exact Hm. Qed.
Lemma keeps_control_time s : keeps view (control_time s).
Proof. apply keeps_from_option. Qed.
Lemma keeps_transport_opaque_target_row r : keeps view (transport_opaque_target_row r).
Proof. unfold transport_opaque_target_row. eauto using keeps_control_time with keeps. Qed.
Lemma keeps_read_chunk k x : keeps view (read_chunk k x).
Proof.
  destruct x as [i r]. unfold read_chunk, read_capability.
  eauto 10 using keeps_query, keeps_control_time with keeps.
Qed.
Lemma keeps_frozen k : keeps view (frozen_transport_delivery_projection k).
Proof.
  unfold frozen_transport_delivery_projection.
  eauto 12 using keeps_query, keeps_read_chunk with keeps.
Qed.
Lemma keeps_registrations k : keeps view (transport_delivery_opaque_target_registrations k).
Proof.
  unfold transport_delivery_opaque_target_registrations, read_registration.
  eauto 14 using keeps_query, keeps_control_time, keeps_transport_opaque_target_row with keeps.
Qed.
Lemma keeps_verified k : keeps view (verified_frozen_transport_delivery_projection k).
Proof.
  apply keeps_verifying. eauto using keeps_frozen, keeps_registrations, keeps_checked with keeps.
Qed.
Lemma keeps_chunk_row k i : keeps view (transport_delivery_chunk_row k i).
Proof. unfold transport_delivery_chunk_row. eauto using keeps_query with keeps. Qed.
Lemma keeps_parsed_time o : keeps view (parsed_time o).
Proof. destruct o; simpl; eauto using keeps_control_time with keeps. Qed.
Lemma keeps_chunk_claim k i s : keeps view (transport_delivery_chunk_claim k i s).
Proof.
  unfold transport_delivery_chunk_claim, nth_chunk.
  eauto 12 using keeps_chunk_row, keeps_frozen, keeps_parsed_time with keeps.
Qed.
Lemma keeps_resolution_claim k r : keeps view (transport_delivery_resolution_claim k r).
Proof. unfold transport_delivery_resolution_claim, nth_chunk. eauto using keeps_frozen with keeps. Qed.
Lemma keeps_optional_text o name n : keeps view (optional_text o name n).
Proof. destruct o; simpl; eauto using keeps_required_text with keeps. Qed.
Lemma keeps_delivery_key k : keeps view (transport_delivery_key k).
Proof.
  unfold transport_delivery_key, transport_name, control_digest.
  eauto 12 using keeps_required_text, keeps_checked with keeps.
Qed.
Lemma keeps_opaque_target t : keeps view (transport_opaque_target t).
Proof.
  unfold transport_opaque_target, control_digest.
  repeat (apply keeps_bind; [|intros]); repeat case_match;
    eauto using keeps_required_text, keeps_checked, keeps_optional_text with keeps.
Qed.
Lemma keeps_mutation k i wk e r : keeps view (validated_transport_chunk_mutation k i wk e r).
Proof.
  unfold validated_transport_chunk_mutation, transport_chunk_index, transport_worker_id,
    check_epoch, transport_revision.
  eauto 12 using keeps_delivery_key with keeps.
Qed.
End Steps.

(** ** What each part of a command answers *)
Section Answers.
Context `{Env}.
Lemma checked_ok {A} (r : Res A) w a w' : checked r w = Ok a w' ↔ r = inr a ∧ w' = w.
Proof. unfold checked, raise, mret, M_ret. destruct r; naive_solver. Qed.
Lemma digest_ok s name a : digest s name = inr a ↔ is_sha256 s = true ∧ a = s.
Proof. unfold digest, check, mbind, sum_bind, mret, sum_ret. destruct (is_sha256 s); naive_solver. Qed.
Lemma binding_digest_inr s name a : binding_digest s name = inr a ↔ binding_digest_ok s = true ∧ a = s.
Proof.
  unfold binding_digest, check, mbind, sum_bind, mret, sum_ret.
  destruct (binding_digest_ok s); naive_solver.
Qed.
Lemma transport_digest_ok s name w a w' :
  transport_digest s name w = Ok a w' ↔ is_sha256 s = true ∧ a = s ∧ w' = w.
Proof. unfold transport_digest. rewrite checked_ok, digest_ok. naive_solver. Qed.
Lemma control_digest_ok s name w a w' :
  control_digest s name w = Ok a w' ↔ binding_digest_ok s = true ∧ a = s ∧ w' = w.
Proof. unfold control_digest. rewrite checked_ok, binding_digest_inr. naive_solver. Qed.
End Answers.

#[export] Hint Rewrite @checked_ok @transport_digest_ok @control_digest_ok : monad.

Section Commands.
Context `{Env} `{UnicodeChecks}.

Lemma transport_delivery_key_ok key w k w' :
  transport_delivery_key key w = Ok k w' → k = stored_key key ∧ w' = w.
Proof. unfold transport_delivery_key, transport_name. intros Hk. mgo. done. Qed.
Lemma validate_same p targets q :
  validate_transport_delivery_projection p targets = inr q → q = p.
Proof.
  unfold validate_transport_delivery_projection, mbind, sum_bind, check, mret, sum_ret.
  repeat case_match; naive_solver.
Qed.
Lemma optional_text_ok o name n w a w' :
  optional_text o name n w = Ok a w' → a = strip <$> o ∧ w' = w.
Proof. destruct o; simpl; intros Ho; mgo; done. Qed.
Lemma transport_opaque_target_ok t w a w' :
  transport_opaque_target t w = Ok a w' → a = stored_target t ∧ w' = w.
Proof.
  unfold transport_opaque_target. intros Ht. mgo.
  match goal with H : optional_text _ _ _ _ = _ |- _ => apply optional_text_ok in H as [-> ->] end.
  destruct t as [? ? ? ? ? ? [] ?]; simpl in *; mgo; done.
Qed.
Lemma mutation_ok key i worker epoch revision w k wk w' :
  validated_transport_chunk_mutation key i worker epoch revision w = Ok (k, wk) w' →
  k = stored_key key ∧ wk = worker ∧ w' = w.
Proof.
  unfold validated_transport_chunk_mutation, transport_chunk_index, transport_worker_id,
    check_epoch, transport_revision. intros Hm. mgo.
  match goal with H : transport_delivery_key _ _ = _ |- _ =>
    apply transport_delivery_key_ok in H as [-> ->] end. naive_solver.
Qed.
Lemma chunk_row_ok k i w r w' :
  transport_delivery_chunk_row k i w = Ok r w' ↔
  lg_chunks (ledger_at w) !! (k, i) = Some r ∧ w' = w.
Proof.
  unfold transport_delivery_chunk_row. rewrite bind_ok. setoid_rewrite query_ok.
  setoid_rewrite from_option_ok. naive_solver.
Qed.
Lemma registry_now_ok w t w' :
  registry_now w = Ok t w' ↔
  t = format_registry_time (clock (w_ticks w)) ∧ w' = World (w_db w) (S (w_ticks w)) (w_ids w).
Proof.
  unfold registry_now. rewrite bind_ok. setoid_rewrite utc_now_ok. setoid_rewrite ret_ok.
  naive_solver.
Qed.
Lemma registry_after_ok o w t w' :
  registry_after o w = Ok t w' ↔ ∃ u, o = Some u ∧ t = format_registry_time u ∧ w' = w.
Proof.
  unfold registry_after. rewrite bind_ok. setoid_rewrite from_option_ok. setoid_rewrite ret_ok.
  naive_solver.
Qed.

(** A move of a chunk with the parent refreshed. *)
Lemma move_chunk_ok k i f t w r w1 w2 :
  lg_chunks (ledger_at w) !! (k, i) = Some r →
  update_chunk k i f w = Ok tt w1 → refresh_transport_delivery_parent k t w1 = Ok tt w2 →
  chunk_check (f r) = true ∧ ledger_at w2 = move_chunk k i (f r) t (ledger_at w).
Proof.
  unfold update_chunk, refresh_transport_delivery_parent. intros Hr Hu Hp. mgo.
  rewrite (Hr : transport_delivery_chunks (w_db w) !! (k, i) = Some r) in Hu. mgo. done.
Qed.

(** ** Freezing *)
Lemma on_integrity_error_ok {A} (e : exc) (m : Store A) w a w' :
  on_integrity_error e m w = Ok a w' ↔ m w = Ok a w'.
Proof. unfold on_integrity_error. destruct (m w) as [|[]]; naive_solver. Qed.
Lemma add_row_rows {A} x (a : A) l m : add_rows x l (add_row x a m) = add_rows x (a :: l) m.
Proof.
  unfold add_row. destruct l as [|b l]; [done|]. simpl.
  rewrite lookup_insert_eq, insert_insert_eq. simpl. by rewrite <- app_assoc.
Qed.
Lemma insert_buttons_ok k i l n w w' :
  for_each (insert_button k i) n l w = Ok tt w' →
  ledger_at w' = Ledger (lg_projections (ledger_at w)) (lg_chunks (ledger_at w))
    (add_rows (k, i) l (lg_buttons (ledger_at w))) (lg_capabilities (ledger_at w))
    (lg_targets (ledger_at w)).
Proof.
  revert n w. induction l as [|b l IH]; simpl; intros n w Hl; mgo; [done|].
  unfold insert_button in H1. mgo. apply IH in Hl. rewrite Hl. clear. unfold ledger_at, ledger_of. simpl.
  f_equal. apply add_row_rows.
Qed.
Lemma capability_row_some targets c x :
  target_position (ca_token_digest c) 0 targets = Some x →
  CapabilityRow x (ca_namespace c) (ca_token_digest c) (format_registry_time (ca_expires_at c))
    (ca_start_offset c) (ca_end_offset c) = capability_row_of targets c.
Proof. unfold capability_row_of. by intros ->. Qed.
Lemma insert_capabilities_ok k targets i l n w w' :
  for_each (freeze_capability k targets i) n l w = Ok tt w' →
  ledger_at w' = Ledger (lg_projections (ledger_at w)) (lg_chunks (ledger_at w))
    (lg_buttons (ledger_at w))
    (add_rows (k, i) (map (capability_row_of targets) l) (lg_capabilities (ledger_at w)))
    (lg_targets (ledger_at w)).
Proof.
  revert n w. induction l as [|c l IH]; simpl; intros n w Hl; mgo; [done|].
  unfold freeze_capability, insert_capability in H1. mgo. apply IH in Hl. rewrite Hl. clear Hl.
  erewrite capability_row_some by eassumption. unfold ledger_at, ledger_of. simpl.
  f_equal. apply (add_row_rows _ _ (map (capability_row_of targets) l)).
Qed.
Lemma freeze_chunk_ok k targets c w w' :
  freeze_chunk k targets c w = Ok tt w' → ledger_at w' = put_chunk k targets (ledger_at w) c.
Proof.
  unfold freeze_chunk, insert_chunk. intros Hc. mgo.
  apply insert_capabilities_ok in Hc as ->.
  match goal with H : for_each _ _ _ _ = _ |- _ => by apply insert_buttons_ok in H as -> end.
Qed.
Lemma freeze_chunks_ok k targets l n w w' :
  for_each (λ _ c, freeze_chunk k targets c) n l w = Ok tt w' →
  ledger_at w' = fold_left (put_chunk k targets) l (ledger_at w).
Proof.
  revert n w. induction l as [|c l IH]; simpl; intros n w Hl; mgo; [done|].
  apply IH in Hl as ->. by apply freeze_chunk_ok in H1 as ->.
Qed.
Lemma freeze_targets_ok t l n w w' :
  for_each (λ _ r, freeze_target t r) n l w = Ok tt w' →
  ledger_at w' = fold_left (λ L r, put_target (og_token_digest r) (frozen_target t r) L) l (ledger_at w)
  ∧ ∀ r, r ∈ l → lg_targets (ledger_at w) !! og_token_digest r = None.
Proof.
  revert n w. induction l as [|r l IH]; simpl; intros n w Hl; mgo.
  - split; [done|]. intros r Hr. by apply not_elem_of_nil in Hr.
  - unfold freeze_target, insert_target in H1. mgo.
    match goal with H : transport_opaque_target _ _ = _ |- _ =>
      apply transport_opaque_target_ok in H as [-> ->] end. mgo.
    apply IH in Hl as [-> Hf]. split; [done|]. intros s Hs.
    case_bool_decide; [|done]. apply elem_of_cons in Hs as [-> | Hs]; [done|].
    specialize (Hf s Hs). unfold ledger_at in Hf. simpl in Hf.
    by apply lookup_insert_None in Hf as [? _].
Qed.
(** Only the tables of the two loops change in them. *)
Lemma put_chunks_rest k targets l L :
  lg_projections (fold_left (put_chunk k targets) l L) = lg_projections L
  ∧ lg_targets (fold_left (put_chunk k targets) l L) = lg_targets L.
Proof. revert L. induction l as [|c l IH]; intros L; simpl; [done|].
  exact (IH (put_chunk k targets L c)).
Qed.
Lemma freeze_rows_ok k p targets hash t w w' :
  freeze_rows k p targets hash t w = Ok tt w' →
  ledger_at w' = freeze_ledger k p targets hash t (ledger_at w)
  ∧ ∀ r, r ∈ targets → lg_targets (ledger_at w) !! og_token_digest r = None.
Proof.
  unfold freeze_rows, insert_projection. rewrite on_integrity_error_ok. intros Hf. mgo.
  match goal with H : for_each (λ _ c, freeze_chunk _ _ c) _ _ _ = _ |- _ =>
    apply freeze_chunks_ok in H as Hc end.
  apply freeze_targets_ok in Hf as [-> Hf]. rewrite Hc in *.
  split; [done|]. intros r Hr. specialize (Hf r Hr).
  by rewrite (proj2 (put_chunks_rest _ _ _ _)) in Hf.
Qed.
End Commands.

(** ** Commands *)
Inductive ledger_command :=
| FreezeProjection (p : frozen_projection) (targets : list registration) (hash : string)
| ClaimChunk (key : delivery_key) (i : Z) (worker : string) (lease : Z)
| BeginSend (key : delivery_key) (i : Z) (worker : string) (epoch revision : Z) (observed : string)
| CompleteChunk (key : delivery_key) (i : Z) (worker : string) (epoch revision : Z)
    (receipt : string) (window : option string)
| ReleaseChunk (key : delivery_key) (i : Z) (worker : string) (epoch revision : Z)
    (proof : string) (retry_after_ms : option Z)
| FailChunk (key : delivery_key) (i : Z) (worker : string) (epoch revision : Z) (category : string)
| ResolveUnknown (key : delivery_key) (i : Z) (resolution : string) (revision : Z)
    (actor idempotency_key : string)
| ClaimDelivery (key : delivery_key) (worker : string) (lease : Z)
| CompleteDelivery (key : delivery_key) (worker : string) (epoch : Z)
| ReleaseDelivery (key : delivery_key) (worker : string) (epoch : Z)
| PutTarget (token : string) (target : opaque_target)
| ClaimTarget (token : string) (consumer : option string) (consume : bool)
| ListPending (transport : string) (limit : Z)
| ListForEvent (transport event_id : string).

(** The labels of the steps a command may take. *)
Definition may (c : ledger_command) (l : label) : Prop :=
  match c with
  | FreezeProjection p _ _ => l = Freezes (stored_key (fp_delivery_key p))
  | ClaimChunk key i _ _ => l = Moves (stored_key key) i taken
  | BeginSend key i _ _ _ _ =>
      l = Moves (stored_key key) i permitted ∨ l = Moves (stored_key key) i failed
  | CompleteChunk key i _ _ _ _ _ => l = Moves (stored_key key) i delivered
  | ReleaseChunk key i _ _ _ proof _ =>
      proof = "rpc_not_started" ∧ l = Moves (stored_key key) i returned
      ∨ proof = "provider_proved_before_send" ∧ l = Moves (stored_key key) i recalled
  | FailChunk key i _ _ _ _ => l = Moves (stored_key key) i failed
  | ResolveUnknown key i resolution _ _ _ =>
      resolution = "assume_delivered" ∧ l = Moves (stored_key key) i delivered
      ∨ resolution = "retry" ∧ l = Moves (stored_key key) i recalled
  | PutTarget token _ => l = Puts token
  | ClaimTarget token _ _ => l = Consumes token
  | _ => False
  end.

Section Runs.
Context `{Env} `{UnicodeChecks}.

Definition run_ledger (c : ledger_command) : Store unit :=
  match c with
  | FreezeProjection p targets hash => freeze_transport_delivery_projection p targets hash;; mret tt
  | ClaimChunk key i wk lease => claim_transport_delivery_chunk key i wk lease;; mret tt
  | BeginSend key i wk e r o => begin_transport_delivery_chunk_send key i wk e r o;; mret tt
  | CompleteChunk key i wk e r rc wd =>
      complete_transport_delivery_chunk key i wk e r rc wd;; mret tt
  | ReleaseChunk key i wk e r pf ms => release_transport_delivery_chunk key i wk e r pf ms;; mret tt
  | FailChunk key i wk e r cat => fail_transport_delivery_chunk key i wk e r cat;; mret tt
  | ResolveUnknown key i rs r a k =>
      resolve_transport_delivery_chunk_sending_unknown key i rs r a k;; mret tt
  | ClaimDelivery key wk lease => claim_transport_delivery key wk lease;; mret tt
  | CompleteDelivery key wk e => complete_transport_delivery key wk e;; mret tt
  | ReleaseDelivery key wk e => release_transport_delivery key wk e
  | PutTarget token t => put_transport_opaque_target token t
  | ClaimTarget token c b => claim_transport_opaque_target token c b;; mret tt
  | ListPending t n => pending_transport_deliveries t n;; mret tt
  | ListForEvent t e => transport_deliveries_for_event t e;; mret tt
  end.
(** A command that raises is followed by the next one all the same. *)
Definition ledger_session (cmds : list ledger_command) (w : world) : world :=
  fold_left (λ w c, end_world (run_ledger c w)) cmds w.

Lemma keeps_utc_now : keeps w_db utc_now.
Proof. done. Qed.
Lemma keeps_now : keeps w_db now.
Proof. done. Qed.
Lemma keeps_registry_now : keeps w_db registry_now.
Proof. done. Qed.
Lemma keeps_registry_after {V} (view : world → V) o : keeps view (registry_after o).
Proof. unfold registry_after. eauto with keeps. Qed.

(** Every command is all or nothing. *)
Lemma run_ledger_atomic c : atomic (run_ledger c).
Proof.
  assert (Hthen : ∀ A (m : Store A), atomic m → atomic (m;; mret tt : Store unit)).
  { intros A m Hm w e w' [He | (? & ? & _ & He)]%bind_err; [by eapply Hm|].
    by rewrite ret_err in He. }
  destruct c; simpl; try apply Hthen;
    unfold freeze_transport_delivery_projection, claim_transport_delivery_chunk,
      begin_transport_delivery_chunk_send, complete_transport_delivery_chunk,
      release_transport_delivery_chunk, fail_transport_delivery_chunk,
      resolve_transport_delivery_chunk_sending_unknown, claim_transport_delivery,
      complete_transport_delivery, release_transport_delivery, put_transport_opaque_target,
      claim_transport_opaque_target, pending_transport_deliveries, transport_deliveries_for_event,
      transport_digest, control_digest, transport_worker_id, transport_chunk_index,
      transport_lease, transport_revision, check_epoch, transport_name, validate_key, format_after;
    repeat first [apply atomic_transaction | apply atomic_bind; [|intros []]
      | apply atomic_bind; [|intros ?]];
    repeat case_match;
    eauto using atomic_keeps, keeps_checked, keeps_delivery_key, keeps_mutation, keeps_utc_now,
      keeps_now, keeps_registry_now, keeps_registry_after, keeps_required_text, keeps_optional_text,
      keeps_opaque_target, keeps_query with keeps.
Qed.

(** ** The steps of each command *)
Lemma elem_of_lg_chunks k L j r :
  (j, r) ∈ lg_chunks_of k L ↔ 0 <= j < 100 ∧ lg_chunks L !! (k, j) = Some r.
Proof.
  unfold lg_chunks_of. rewrite list_elem_of_omap. split.
  - intros (i & Hi%elem_of_seqZ & (r' & Hr & [= -> ->])%fmap_Some). split; [lia|done].
  - intros [Hj Hr]. exists j. rewrite elem_of_seqZ, Hr. split; [lia|done].
Qed.
Lemma earlier_undelivered_turn k i w :
  negb (earlier_undelivered k i (w_db w)) = true → in_turn k i (ledger_at w).
Proof.
  unfold earlier_undelivered. rewrite negb_true_iff. intros He j r Hj Hlt Hr.
  destruct (decide (ck_state r = chunk_delivered)) as [|Hne]; [done|]. exfalso.
  rewrite <- not_true_iff_false in He. apply He, existsb_exists. exists (j, r). split.
  - apply list_elem_of_In. by apply (elem_of_lg_chunks k (ledger_at w)).
  - simpl. rewrite bool_decide_false by done. apply andb_true_iff. split; [lia|done].
Qed.
Lemma stays P w w' : ledger_at w' = ledger_at w → stays_or P w w'.
Proof. by left. Qed.

End Runs.

(** The readers leave the world alone; [settle] uses them. *)
Ltac known :=
  match goal with
  | H : transport_delivery_key _ _ = Ok _ _ |- _ => apply transport_delivery_key_ok in H as [-> ->]
  | H : validated_transport_chunk_mutation _ _ _ _ _ _ = Ok (_, _) _ |- _ =>
      apply mutation_ok in H as (-> & -> & ->)
  | H : transport_delivery_chunk_row _ _ _ = Ok _ _ |- _ => apply chunk_row_ok in H as [? ->]
  | H : registry_now _ = Ok _ _ |- _ => apply registry_now_ok in H as [-> ->]
  | H : registry_after _ _ = Ok _ _ |- _ => apply registry_after_ok in H as (? & ? & -> & ->)
  | H : transport_delivery_chunk_claim _ _ _ _ = Ok _ _ |- _ =>
      apply (keeps_ok id _ _ _ _ (keeps_chunk_claim id _ _ _)) in H; simpl in H; subst
  | H : transport_delivery_resolution_claim _ _ _ = Ok _ _ |- _ =>
      apply (keeps_ok id _ _ _ _ (keeps_resolution_claim id _ _)) in H; simpl in H; subst
  | H : frozen_transport_delivery_projection _ _ = Ok _ _ |- _ =>
      apply (keeps_ok id _ _ _ _ (keeps_frozen id _)) in H; simpl in H; subst
  | H : verified_frozen_transport_delivery_projection _ _ = Ok _ _ |- _ =>
      apply (keeps_ok id _ _ _ _ (keeps_verified id _)) in H; simpl in H; subst
  | H : transport_opaque_target_row _ _ = Ok _ _ |- _ =>
      apply (keeps_ok id _ _ _ _ (keeps_transport_opaque_target_row id _)) in H; simpl in H; subst
  | H : optional_text _ _ _ _ = Ok _ _ |- _ => apply optional_text_ok in H as [-> ->]
  | x : unit |- _ => destruct x
  end.
Ltac settle := repeat first [mgo_step | known | progress simplify_eq/=].

Section Moves.
Context `{Env} `{UnicodeChecks}.

Lemma moved P k i m r f t w0 w w1 w2 :
  update_chunk k i f w = Ok tt w1 → refresh_transport_delivery_parent k t w1 = Ok tt w2 →
  ledger_at w = ledger_at w0 → lg_chunks (ledger_at w0) !! (k, i) = Some r →
  moves m r (f r) → (m = taken → in_turn k i (ledger_at w0)) → P (Moves k i m) → stays_or P w0 w2.
Proof.
  intros Hu Hp Hw Hr Hm Ht HP. rewrite <- Hw in Hr.
  destruct (move_chunk_ok _ _ _ _ _ _ _ _ Hr Hu Hp) as [Hk Hl]. right. eexists. split; [exact HP|].
  rewrite Hl, Hw in *. by econstructor.
Qed.
Lemma fence_state r source worker epoch revision live :
  transport_chunk_fence r source worker epoch revision live = true → ck_state r = source.
Proof. unfold transport_chunk_fence. rewrite !andb_true_iff, bool_decide_eq_true. naive_solver. Qed.
(** The step of a chunk that the run in the context makes. *)
Ltac moves_chunk m :=
  match goal with
  | Hu : update_chunk _ _ _ _ = _, Hp : refresh_transport_delivery_parent _ _ _ = _ |- _ =>
      eapply (moved _ _ _ m _ _ _ _ _ _ _ Hu Hp)
  end.

Lemma claim_chunk_steps key i wk lease w a w' :
  claim_transport_delivery_chunk key i wk lease w = Ok a w' →
  stays_or (may (ClaimChunk key i wk lease)) w w'.
Proof.
  unfold claim_transport_delivery_chunk, transport_chunk_index, transport_worker_id, transport_lease.
  intros Hc. settle. case_match eqn:Hs; settle; [by left|].
  case_match; settle; [by left|]. case_match; settle; [by left|].
  moves_chunk taken; [done|done| |intros _|done].
  - apply moves_taken. destruct (ck_state _); naive_solver.
  - by apply (earlier_undelivered_turn _ _ w).
Qed.
Lemma begin_send_ok key i wk e rv o w a w' :
  begin_transport_delivery_chunk_send key i wk e rv o w = Ok a w' →
  stays_or (may (BeginSend key i wk e rv o)) w w' ∧
  ∃ r t, lg_chunks (ledger_at w) !! (stored_key key, i) = Some r ∧ ck_state r = chunk_claimed ∧
  match a with
  | SendPermitted _ =>
      ledger_at w' = move_chunk (stored_key key) i (ck_send r) t (ledger_at w)
  | _ => True
  end.
Proof.
  unfold begin_transport_delivery_chunk_send, require_transport_chunk_fence,
    fail_transport_delivery_chunk_row. intros Hc. mgo. destruct x as [k wk'].
  settle. match goal with H : transport_chunk_fence _ _ _ _ _ _ = _ |- _ =>
    apply fence_state in H as Hs end.
  case_match; settle; [|case_match; settle].
  - split; [|by eexists _, (format_registry_time 0)].
    moves_chunk failed; [done|done| |done|by right]. apply moves_failed. by left.
  - split; [|by eexists _, (format_registry_time 0)].
    moves_chunk failed; [done|done| |done|by right]. apply moves_failed. by left.
  - match goal with H : activation_in_force _ _ = Ok _ _ |- _ =>
      apply (keeps_ok _ _ _ _ _ (keeps_in_force w_db _ (λ _, eq_refl))) in H as Hdb end.
    match goal with Hr : transport_delivery_chunks _ !! _ = Some ?r, Hu : update_chunk _ _ _ ?w0 = _,
        Hp : refresh_transport_delivery_parent _ _ _ = _ |- _ =>
      pose proof (move_chunk_ok _ _ _ _ w0 r _ _ Hr Hu Hp) as [Hk Hl]; rename Hr into Hrow end.
    assert (Hw : ledger_at w' = move_chunk (stored_key key) i (ck_send x4)
      (format_registry_time (clock (w_ticks w))) (ledger_at w)).
    { unfold ledger_at at 1. rewrite Hdb. exact Hl. }
    split; [|by eexists _, _]. right. exists (Moves (stored_key key) i permitted). split; [by left|].
    rewrite Hw. by econstructor; [|by apply moves_permitted|..].
Qed.
Lemma complete_chunk_steps key i wk e rv rc wd w a w' :
  complete_transport_delivery_chunk key i wk e rv rc wd w = Ok a w' →
  stays_or (may (CompleteChunk key i wk e rv rc wd)) w w'.
Proof.
  unfold complete_transport_delivery_chunk, require_transport_chunk_fence. intros Hc. mgo.
  destruct x as [k wk']. settle.
  match goal with H : transport_chunk_fence _ _ _ _ _ _ = _ |- _ => apply fence_state in H as Hs end.
  moves_chunk delivered; [done|done| |done|done]. by apply moves_delivered.
Qed.
Lemma release_chunk_steps key i wk e rv pf ms w a w' :
  release_transport_delivery_chunk key i wk e rv pf ms w = Ok a w' →
  stays_or (may (ReleaseChunk key i wk e rv pf ms)) w w'.
Proof.
  unfold release_transport_delivery_chunk, require_transport_chunk_fence. intros Hc. mgo.
  destruct x as [k wk']. settle.
  match goal with H : transport_chunk_fence _ _ _ _ _ _ = _ |- _ => apply fence_state in H as Hs end.
  match goal with H : (match ms with _ => _ end) _ = Ok _ ?w1 |- _ =>
    assert (w1 = World (w_db w) (S (w_ticks w)) (w_ids w)) as -> by (destruct ms; settle; done) end.
  match goal with H : proof_source _ = _ |- _ => rename H into Hp' end.
  revert Hp'. unfold proof_source. destruct (String.eqb_spec pf "rpc_not_started") as [->|].
  - intros [= <-]. moves_chunk returned; [done|done| |done|by left; split].
    by apply moves_returned.
  - destruct (String.eqb_spec pf "provider_proved_before_send") as [->|]; [|intros [=]].
    intros [= <-]. moves_chunk recalled; [done|done| |done|by right; split]. by apply moves_recalled.
Qed.
Lemma fail_chunk_steps key i wk e rv cat w a w' :
  fail_transport_delivery_chunk key i wk e rv cat w = Ok a w' →
  stays_or (may (FailChunk key i wk e rv cat)) w w'.
Proof.
  unfold fail_transport_delivery_chunk, fail_transport_delivery_chunk_row,
    require_transport_chunk_fence. intros Hc. mgo.
  destruct x as [k wk']. settle.
  match goal with H : transport_chunk_fence _ _ _ _ _ _ = _ |- _ => apply fence_state in H as Hs end.
  moves_chunk failed; [done|done| |done|done]. apply moves_failed. by right.
Qed.
Lemma resolve_unknown_steps key i rs rv ac ik w a w' :
  resolve_transport_delivery_chunk_sending_unknown key i rs rv ac ik w = Ok a w' →
  stays_or (may (ResolveUnknown key i rs rv ac ik)) w w'.
Proof.
  unfold resolve_transport_delivery_chunk_sending_unknown, transport_chunk_index,
    transport_revision, validate_key. intros Hc. settle. case_match; settle.
  { destruct p. settle. by left. }
  match goal with H : on_integrity_error _ _ _ = _ |- _ =>
    rewrite on_integrity_error_ok in H; unfold insert_resolution in H end. settle.
  match goal with H : bool_decide (ck_state _ = _) = true |- _ => apply bool_decide_eq_true in H as Hs end.
  destruct (String.eqb_spec rs "assume_delivered") as [->|Hne].
  - moves_chunk delivered; [done|done| |done|by left; split]. by apply moves_assumed.
  - destruct (String.eqb_spec rs "retry") as [->|].
    + moves_chunk recalled; [done|done| |done|by right; split]. by apply moves_recalled.
    + done.
Qed.
Lemma freeze_steps p targets hash w a w' :
  freeze_transport_delivery_projection p targets hash w = Ok a w' →
  stays_or (may (FreezeProjection p targets hash)) w w'.
Proof.
  unfold freeze_transport_delivery_projection. intros Hc. settle. case_match; settle; [by left|].
  case_match; settle; [by left|].
  match goal with H : freeze_rows _ _ _ _ _ _ = _ |- _ => apply freeze_rows_ok in H as [Hl Hf] end.
  right. eexists. split; [done|]. rewrite Hl.
  match goal with H : validate_transport_delivery_projection _ _ = _ |- _ =>
    pose proof (validate_same _ _ _ H); subst end.
  by constructor.
Qed.
Lemma put_target_steps token t w a w' :
  put_transport_opaque_target token t w = Ok a w' → stays_or (may (PutTarget token t)) w w'.
Proof.
  unfold put_transport_opaque_target, insert_target. intros Hc. settle.
  match goal with H : transport_opaque_target _ _ = _ |- _ =>
    apply transport_opaque_target_ok in H as [-> ->] end.
  match goal with H : on_integrity_error _ _ _ = _ |- _ => rewrite on_integrity_error_ok in H end.
  settle. right. exists (Puts token). split; [done|].
  match goal with H : bool_decide _ && _ = true |- _ => apply andb_true_iff in H as [Hn _] end.
  apply bool_decide_eq_true in Hn. by apply (step_put token).
Qed.
Lemma claim_target_steps token c b w a w' :
  claim_transport_opaque_target token c b w = Ok a w' → stays_or (may (ClaimTarget token c b)) w w'.
Proof.
  unfold claim_transport_opaque_target. intros Hc. settle.
  match goal with H : (match c with _ => _ end) _ = Ok _ ?w1 |- _ =>
    assert (w1 = w) as -> by (destruct c; unfold validate_key in *; settle; done) end.
  destruct (transport_opaque_targets (w_db w) !! token) as [r|] eqn:Hr; settle; [|by left].
  destruct (negb b); settle; [by left|]. destruct (_ && _); settle; [by left|].
  destruct (bool_decide _) eqn:Hn; settle; [by left|].
  right. exists (Consumes token). split; [done|]. apply bool_decide_eq_false in Hn.
  eapply (step_consume token _ _ _ (ledger_at w)); [exact Hr|]. by apply eq_None_not_Some.
Qed.

(** The ledger of whole deliveries is another table. *)
Lemma keeps_transaction_ledger {A} (m : Store A) : keeps ledger_at m → keeps ledger_at (transaction m).
Proof. intros Hm w. specialize (Hm w). unfold transaction. by destruct (m w). Qed.
Lemma keeps_put_delivery k r : keeps ledger_at (put_delivery k r).
Proof. unfold put_delivery. apply keeps_bind; [apply keeps_ensure|by intros; intros w]. Qed.
Lemma keeps_transport_delivery_claim k s : keeps ledger_at (transport_delivery_claim k s).
Proof.
  unfold transport_delivery_claim.
  repeat (apply keeps_bind; [|intros]; repeat case_match);
    eauto using keeps_query, keeps_parsed_time with keeps.
Qed.
Lemma keeps_settle_delivery k p f s : keeps ledger_at (settle_delivery k p f s).
Proof.
  unfold settle_delivery. apply keeps_bind; [apply keeps_query|intros [r|]]; [|apply keeps_raise].
  case_match; [apply keeps_put_delivery|apply keeps_raise].
Qed.
Lemma keeps_ledger_clock : keeps ledger_at utc_now ∧ keeps ledger_at now.
Proof. done. Qed.
Lemma delivery_commands_keep c :
  match c with
  | ClaimDelivery _ _ _ | CompleteDelivery _ _ _ | ReleaseDelivery _ _ _ | ListPending _ _
  | ListForEvent _ _ => keeps ledger_at (run_ledger c)
  | _ => True
  end.
Proof.
  destruct keeps_ledger_clock as [Hu Hn].
  destruct c; try done; simpl;
    unfold claim_transport_delivery, complete_transport_delivery, release_transport_delivery,
      pending_transport_deliveries, transport_deliveries_for_event, transport_worker_id,
      transport_lease, check_epoch, format_after, transport_name;
    repeat (first
      [ solve [eauto 2 using keeps_delivery_key, keeps_query, keeps_put_delivery,
          keeps_transport_delivery_claim, keeps_settle_delivery, keeps_required_text with keeps]
      | lazymatch goal with
        | |- keeps _ (transaction _) => apply keeps_transaction_ledger
        | |- keeps _ (_ ≫= _) => apply keeps_bind; [|intros]
        end]; repeat case_match).
Qed.

(** Every command, answered or raised, reads only or takes one step it is allowed. *)
Lemma run_ledger_step c w : stays_or (may c) w (end_world (run_ledger c w)).
Proof.
  destruct (run_ledger c w) as [[] w'|e w'] eqn:E; simpl.
  2: { left. unfold ledger_at. by rewrite (run_ledger_atomic _ _ _ _ E). }
  pose proof (delivery_commands_keep c) as Hk. revert E Hk.
  destruct c; simpl; intros E Hk;
    first [ left; exact (keeps_ok _ _ _ _ _ Hk E)
          | clear Hk; try (apply bind_ok in E as (? & ? & E & [_ ->]%ret_ok))].
  - by eapply freeze_steps.
  - by eapply claim_chunk_steps.
  - by eapply begin_send_ok.
  - by eapply complete_chunk_steps.
  - by eapply release_chunk_steps.
  - by eapply fail_chunk_steps.
  - by eapply resolve_unknown_steps.
  - by eapply put_target_steps.
  - by eapply claim_target_steps.
Qed.
End Moves.
