(* ===== verification/TransportInvariant.v ===== *)
(** * The invariant of the transport ledger

    What a validated projection is made of, the tables after it was frozen, and the
    invariant of every ledger the commands of [TransportLedger] can reach. *)

From S2P Require Import Prelude PyText Clock Json Schema Store Runs Captures Activation ActivationFacts RuntimeEvents Decisions Resources Transport TransportLedger TransportSteps.
Open Scope Z_scope.

(** ** What validation shows of the chunks *)
Section Valid.
Context `{Env} `{UnicodeChecks}.

Lemma checks_bind {A B} (m : Res A) (f : A → Res B) b :
  m ≫= f = inr b ↔ ∃ a, m = inr a ∧ f a = inr b.
Proof. unfold mbind, sum_bind. destruct m; naive_solver. Qed.
Lemma checks_passed b message u : check b message = inr u ↔ b = true.
Proof. unfold check. destruct b, u; naive_solver. Qed.
Lemma checks_ret {A} (a b : A) : (mret a : Res A) = inr b ↔ a = b.
Proof. unfold mret, sum_ret. naive_solver. Qed.

End Valid.

(** [rgo] splits the checks that passed, as [mgo] does for commands. *)
Ltac rgo_step :=
  match goal with
  | H : _ ≫= _ = inr _ |- _ =>
      apply checks_bind in H; destruct H as (? & ? & H); cbn beta iota in H
  | H : check _ _ = inr _ |- _ => apply (proj1 (checks_passed _ _ _)) in H
  | H : mret _ = inr _ |- _ => apply (proj1 (checks_ret _ _)) in H
  | H : digest _ _ = inr _ |- _ => apply digest_ok in H as [? ->]
  | H : binding_digest _ _ = inr _ |- _ => apply binding_digest_inr in H as [? ->]
  | H : (let '(_, _) := ?x in _) = inr _ |- _ => destruct x; cbn beta iota in H
  | x : unit |- _ => destruct x
  end.
Ltac rgo := repeat rgo_step.

Section Validated.
Context `{Env} `{UnicodeChecks}.

(** The chunks are numbered from [start] on. *)
Definition numbered (start : Z) (l : list chunk_projection) : Prop :=
  ∀ n c, l !! n = Some c → cj_chunk_index c = start + Z.of_nat n.
Lemma validated_chunk_index c i v : validated_chunk c i = inr v → cj_chunk_index c = i.
Proof. unfold validated_chunk. intros Hv. rgo. lia. Qed.
Lemma numbered_cons start c l :
  cj_chunk_index c = start → numbered (start + 1) l → numbered start (c :: l).
Proof. intros Hc Hl [|n] x; simpl; [intros [= <-]; lia|]. intros Hx%Hl. lia. Qed.
Lemma validated_chunks_numbered op start decl l r :
  validated_chunks op start decl l = inr r → numbered start l.
Proof.
  revert start decl r. induction l as [|c l IH]; intros start decl r; [by intros _ n x|].
  simpl. intros Hr. rgo. apply numbered_cons; [by eapply validated_chunk_index|by eapply IH].
Qed.
Lemma validated_projection_chunks p targets r :
  validated_projection p targets = inr r →
  numbered 0 (fp_chunks p) ∧ 1 <= Z.of_nat (length (fp_chunks p)) <= 100.
Proof.
  unfold validated_projection. intros Hr. rgo. split; [by eapply validated_chunks_numbered|]. lia.
Qed.
Lemma validate_projection p targets q :
  validate_transport_delivery_projection p targets = inr q →
  ∃ r, validated_projection p targets = inr r.
Proof.
  unfold validate_transport_delivery_projection, transport_delivery_projection_hash. intros Hr.
  rgo. eauto.
Qed.
End Validated.

(** ** The tables after freezing *)
Section Frozen.
Context (k : delivery_key) (targets : list registration).

Lemma put_chunks_chunks l start L k' i :
  numbered start l →
  lg_chunks (fold_left (put_chunk k targets) l L) !! (k', i) =
    if decide (k' = k ∧ start <= i < start + Z.of_nat (length l))
    then new_chunk_row <$> l !! Z.to_nat (i - start) else lg_chunks L !! (k', i).
Proof.
  revert start L. induction l as [|c l IH]; intros start L Hn; simpl.
  { rewrite decide_False; [done|]. intros [_ ?]. lia. }
  assert (Hc : cj_chunk_index c = start) by (rewrite (Hn 0%nat c eq_refl); lia).
  rewrite (IH (start + 1)).
  2: { intros n x Hx. rewrite (Hn (S n) x Hx). lia. }
  simpl. rewrite Hc. destruct (decide (k' = k ∧ start + 1 <= i < start + 1 + Z.of_nat (length l))) as [[-> Hi]|Hi].
  - rewrite decide_True by (split; [done|lia]). by replace (Z.to_nat (i - start)) with (S (Z.to_nat (i - (start + 1)))) by lia.
  - destruct (decide (k' = k ∧ start <= i < start + Z.of_nat (S (length l)))) as [[-> Hj]|Hj].
    + assert (i = start) as -> by (destruct (decide (i = start)); [done|]; exfalso; apply Hi; split; [done|lia]).
      rewrite lookup_insert_eq. by replace (start - start) with 0 by lia.
    + rewrite lookup_insert_ne; [done|]. intros [= -> ->]. apply Hj. split; [done|lia].
Qed.

(** The rows of the buttons and of the capabilities, chunk by chunk. *)
Lemma add_rows_lookup {A} x (l : list A) m y :
  default [] (add_rows x l m !! y) = default [] (m !! y) ++ (if decide (y = x) then l else []).
Proof.
  unfold add_rows. destruct l as [|a l]; [by case_decide; rewrite app_nil_r|].
  case_decide as Hd; [rewrite Hd; by rewrite lookup_insert_eq|].
  by rewrite lookup_insert_ne, app_nil_r.
Qed.
Definition add_chunk_rows {A} (f : chunk_projection → list A) (l : list chunk_projection)
    (m : gmap (delivery_key * Z) (list A)) : gmap (delivery_key * Z) (list A) :=
  fold_left (λ m c, add_rows (k, cj_chunk_index c) (f c) m) l m.
Lemma add_chunk_rows_lookup {A} (f : chunk_projection → list A) l start m k' i :
  numbered start l →
  default [] (add_chunk_rows f l m !! (k', i)) = default [] (m !! (k', i)) ++
    (if decide (k' = k ∧ start <= i < start + Z.of_nat (length l))
     then default [] (f <$> l !! Z.to_nat (i - start)) else []).
Proof.
  unfold add_chunk_rows. revert start m. induction l as [|c l IH]; intros start m Hn; simpl.
  { rewrite decide_False by (intros [_ ?]; lia). by rewrite app_nil_r. }
  assert (Hc : cj_chunk_index c = start) by (rewrite (Hn 0%nat c eq_refl); lia).
  rewrite (IH (start + 1)) by (intros n x Hx; rewrite (Hn (S n) x Hx); lia).
  rewrite add_rows_lookup, <- app_assoc, Hc. f_equal.
  destruct (decide ((k', i) = (k, start))) as [[= -> ->]|Hne].
  - rewrite decide_False by (intros [_ ?]; lia). rewrite decide_True by (split; [done|lia]).
    rewrite app_nil_r. by replace (start - start) with 0 by lia.
  - simpl. destruct (decide (k' = k ∧ start + 1 <= i < start + 1 + Z.of_nat (length l))) as [[-> Hi]|Hi].
    + rewrite decide_True by (split; [done|lia]).
      by replace (Z.to_nat (i - start)) with (S (Z.to_nat (i - (start + 1)))) by lia.
    + rewrite decide_False; [done|]. intros [-> Hj]. apply Hi. split; [done|].
      destruct (decide (i = start)); [congruence|lia].
Qed.
Lemma put_chunks_rows l L :
  lg_buttons (fold_left (put_chunk k targets) l L) = add_chunk_rows cj_buttons l (lg_buttons L)
  ∧ lg_capabilities (fold_left (put_chunk k targets) l L)
    = add_chunk_rows (λ c, map (capability_row_of targets) (cj_capabilities c)) l (lg_capabilities L).
Proof. revert L. induction l as [|c l IH]; intros L; [done|]. apply (IH (put_chunk k targets L c)). Qed.
End Frozen.

(** The targets of a delivery are another table. *)
Lemma put_targets_rest t l L :
  let L' := fold_left (λ L r, put_target (og_token_digest r) (frozen_target t r) L) l L in
  lg_projections L' = lg_projections L ∧ lg_chunks L' = lg_chunks L
  ∧ lg_buttons L' = lg_buttons L ∧ lg_capabilities L' = lg_capabilities L.
Proof. revert L. induction l as [|r l IH]; intros L; [done|]. apply (IH (put_target _ _ L)). Qed.
Lemma put_targets_other t l L token :
  (∀ r, r ∈ l → og_token_digest r ≠ token) →
  lg_targets (fold_left (λ L r, put_target (og_token_digest r) (frozen_target t r) L) l L) !! token
  = lg_targets L !! token.
Proof.
  revert L. induction l as [|r l IH]; intros L Hl; [done|]. simpl.
  rewrite IH by (intros; apply Hl; by right). simpl.
  rewrite lookup_insert_ne; [done|]. apply Hl. left.
Qed.
Lemma freeze_ledger_projections k p targets hash t L :
  lg_projections (freeze_ledger k p targets hash t L)
  = <[k := new_projection_row p hash t]> (lg_projections L).
Proof.
  unfold freeze_ledger. rewrite (proj1 (put_targets_rest _ _ _)).
  by rewrite (proj1 (put_chunks_rest _ _ _ _)).
Qed.
Lemma freeze_ledger_rows k p targets hash t L :
  lg_buttons (freeze_ledger k p targets hash t L)
    = add_chunk_rows k cj_buttons (fp_chunks p) (lg_buttons L)
  ∧ lg_capabilities (freeze_ledger k p targets hash t L)
    = add_chunk_rows k (λ c, map (capability_row_of targets) (cj_capabilities c)) (fp_chunks p)
        (lg_capabilities L).
Proof.
  unfold freeze_ledger. destruct (put_targets_rest t targets
    (fold_left (put_chunk k targets) (fp_chunks p) (put_projection k (new_projection_row p hash t) L)))
    as (_ & _ & -> & ->).
  exact (put_chunks_rows k targets (fp_chunks p) (put_projection k (new_projection_row p hash t) L)).
Qed.
Lemma freeze_ledger_chunks k p targets hash t L k' i :
  numbered 0 (fp_chunks p) →
  lg_chunks (freeze_ledger k p targets hash t L) !! (k', i) =
    if decide (k' = k ∧ 0 <= i < Z.of_nat (length (fp_chunks p)))
    then new_chunk_row <$> fp_chunks p !! Z.to_nat i else lg_chunks L !! (k', i).
Proof.
  intros Hn. unfold freeze_ledger. destruct (put_targets_rest t targets
    (fold_left (put_chunk k targets) (fp_chunks p) (put_projection k (new_projection_row p hash t) L)))
    as (_ & -> & _). rewrite (put_chunks_chunks _ _ _ 0) by done. by rewrite Z.sub_0_r.
Qed.

(** ** The invariant *)

(** A chunk that was never claimed. *)
Definition untouched (r : chunk_row) : Prop :=
  ck_state r = chunk_pending ∧ cl_epoch (ck_claim r) = 0.
Record ledger_ok (L : ledger) : Prop := {
  lo_linked : ∀ k i r, lg_chunks L !! (k, i) = Some r → is_Some (lg_projections L !! k);
  lo_buttons : ∀ k i, lg_projections L !! k = None → default [] (lg_buttons L !! (k, i)) = [];
  lo_capabilities : ∀ k i, lg_projections L !! k = None →
    default [] (lg_capabilities L !! (k, i)) = [];
  lo_count : ∀ k p, lg_projections L !! k = Some p →
    1 <= tp_chunk_count p <= 100 ∧
    ∀ i, is_Some (lg_chunks L !! (k, i)) ↔ 0 <= i < tp_chunk_count p;
  lo_order : ∀ k i j r r', i < j → lg_chunks L !! (k, i) = Some r →
    lg_chunks L !! (k, j) = Some r' → ck_state r ≠ chunk_delivered → untouched r';
  lo_parent : ∀ k p, lg_projections L !! k = Some p → tp_state p = parent_state (lg_states k L) }.

Lemma empty_ledger_ok : ledger_ok (ledger_of empty_db).
Proof. split; intros; simpl in *; by rewrite ?lookup_empty in *. Qed.

Lemma parent_untouched l : l ≠ [] → Forall (λ s, s = chunk_pending) l → parent_state l = projection_pending.
Proof.
  intros Hne Hl. unfold parent_state. destruct Hl as [|s l -> Hl]; [done|]. simpl.
  assert (existsb (λ s, bool_decide (s = chunk_sending_unknown)) l = false) as ->.
  { clear Hne. induction Hl as [|s l -> Hl IH]; [done|]. exact IH. }
  assert (existsb (λ s, bool_decide (s = chunk_failed)) l = false) as ->; [|done].
  clear Hne. induction Hl as [|s l -> Hl IH]; [done|]. exact IH.
Qed.
Lemma moves_from m r r' : moves m r r' → ck_state r ≠ chunk_delivered ∧ ck_state r ≠ chunk_failed.
Proof.
  intros Hm. destruct Hm; split; intros Hs; repeat match goal with H : _ ∨ _ |- _ => destruct H end;
    congruence.
Qed.
Lemma moves_untouched m r r' : moves m r r' → untouched r → m = taken.
Proof.
  intros Hm [Hs _]. destruct Hm; repeat match goal with H : _ ∨ _ |- _ => destruct H end; congruence.
Qed.
Lemma lg_states_same k L L' :
  (∀ i, lg_chunks L' !! (k, i) = lg_chunks L !! (k, i)) → lg_states k L' = lg_states k L.
Proof.
  intros Hc. unfold lg_states, lg_chunks_of. f_equal.
  induction (seqZ 0 100) as [|i l IH]; [done|]. cbn.
  rewrite Hc. destruct (lg_chunks L !! (k, i)); [|exact IH]. cbn. f_equal. exact IH.
Qed.

Section Invariant.
Context `{Env} `{UnicodeChecks}.

Lemma freeze_keeps_ok k p targets hash t L :
  validate_transport_delivery_projection p targets = inr p → lg_projections L !! k = None →
  ledger_ok L → ledger_ok (freeze_ledger k p targets hash t L).
Proof.
  intros Hv Hk HL. apply validate_projection in Hv as [r Hv].
  apply validated_projection_chunks in Hv as [Hn Hlen].
  assert (Hnone : ∀ i, lg_chunks L !! (k, i) = None).
  { intros i. apply eq_None_not_Some. intros [x Hx]. apply (lo_linked L HL) in Hx as [? Hx]. congruence. }
  assert (Hnew : ∀ i x, lg_chunks (freeze_ledger k p targets hash t L) !! (k, i) = Some x →
    0 <= i < Z.of_nat (length (fp_chunks p)) ∧ untouched x).
  { intros i x. rewrite freeze_ledger_chunks by done. case_decide as Hd; [|by rewrite Hnone].
    intros (c & _ & ->)%fmap_Some. split; [tauto|done]. }
  assert (Hold : ∀ k' i, k' ≠ k → lg_chunks (freeze_ledger k p targets hash t L) !! (k', i)
    = lg_chunks L !! (k', i)).
  { intros k' i Hne. rewrite freeze_ledger_chunks by done. by rewrite decide_False by tauto. }
  split.
  - intros k' i x Hx. rewrite freeze_ledger_projections.
    destruct (decide (k' = k)) as [->|Hne]; [by rewrite lookup_insert_eq|].
    rewrite lookup_insert_ne by done. rewrite Hold in Hx by done. by eapply lo_linked.
  - intros k' i. rewrite freeze_ledger_projections, lookup_insert_None. intros [Hx Hne].
    rewrite (proj1 (freeze_ledger_rows _ _ _ _ _ _)), (add_chunk_rows_lookup _ _ _ 0) by done.
    rewrite (lo_buttons L HL) by done. by rewrite decide_False by (intros [<- _]; done).
  - intros k' i. rewrite freeze_ledger_projections, lookup_insert_None. intros [Hx Hne].
    rewrite (proj2 (freeze_ledger_rows _ _ _ _ _ _)), (add_chunk_rows_lookup _ _ _ 0) by done.
    rewrite (lo_capabilities L HL) by done. by rewrite decide_False by (intros [<- _]; done).
  - intros k' x. rewrite freeze_ledger_projections.
    destruct (decide (k' = k)) as [->|Hne].
    + rewrite lookup_insert_eq. intros [= <-]. simpl. split; [done|]. intros i.
      rewrite freeze_ledger_chunks by done. case_decide as Hd.
      * destruct Hd as [_ Hd]. rewrite fmap_is_Some, lookup_lt_is_Some. lia.
      * rewrite Hnone. split; [by intros []|]. intros Hi. by destruct Hd.
    + rewrite lookup_insert_ne by done. intros Hx. setoid_rewrite Hold; [|done]. by apply lo_count.
  - intros k' i j x y Hij Hx Hy Hs. destruct (decide (k' = k)) as [->|Hne]; [by eapply Hnew|].
    rewrite !Hold in * by done. by eapply lo_order.
  - intros k' x. rewrite freeze_ledger_projections.
    destruct (decide (k' = k)) as [->|Hne].
    + rewrite lookup_insert_eq. intros [= <-]. simpl. symmetry. apply parent_untouched.
      * destruct (fp_chunks p) as [|c l] eqn:Hc; [simpl in Hlen; lia|].
        assert (Hin : (0, new_chunk_row c) ∈ lg_chunks_of k (freeze_ledger k p targets hash t L)).
        { apply elem_of_lg_chunks. split; [lia|]. rewrite freeze_ledger_chunks by (by rewrite Hc).
          rewrite Hc, decide_True by (split; [done|simpl; lia]). done. }
        intros Hnil. unfold lg_states in Hnil. apply map_eq_nil in Hnil. rewrite Hnil in Hin.
        by apply not_elem_of_nil in Hin.
      * unfold lg_states. apply Forall_map, Forall_forall. intros [i y] Hy.
        apply elem_of_lg_chunks in Hy as [_ Hy]. by apply Hnew in Hy as [_ [Hy _]].
    + rewrite lookup_insert_ne by done. intros Hx. rewrite (lg_states_same _ L) by (intros; by apply Hold).
      by apply lo_parent.
Qed.

Lemma move_chunk_chunks k i r t L k' j :
  lg_chunks (move_chunk k i r t L) !! (k', j) =
    if decide ((k', j) = (k, i)) then Some r else lg_chunks L !! (k', j).
Proof.
  simpl. case_decide as Hd; [rewrite Hd; by rewrite lookup_insert_eq|by rewrite lookup_insert_ne].
Qed.
Lemma move_keeps_ok k i m r r' t L :
  lg_chunks L !! (k, i) = Some r → moves m r r' → (m = taken → in_turn k i L) →
  ledger_ok L → ledger_ok (move_chunk k i r' t L).
Proof.
  intros Hr Hm Ht HL.
  assert (Hdom : ∀ k' j, is_Some (lg_chunks (move_chunk k i r' t L) !! (k', j))
    ↔ is_Some (lg_chunks L !! (k', j))).
  { intros k' j. rewrite move_chunk_chunks. case_decide as Hd; [|done]. simplify_eq. rewrite Hr. done. }
  assert (Hpr : ∀ k', lg_projections (move_chunk k i r' t L) !! k' =
    (if decide (k' = k) then tp_refresh (parent_state (lg_states k (move_chunk k i r' t L)))
       (if is_completed (parent_state (lg_states k (move_chunk k i r' t L))) then Some t else None)
     else id) <$> lg_projections L !! k').
  { intros k'. simpl. case_decide as Hd; [rewrite Hd; by rewrite lookup_alter_eq|].
    rewrite lookup_alter_ne by done. by destruct (_ !! k'). }
  split.
  - intros k' j x Hx. assert (Hs : is_Some (lg_chunks L !! (k', j))) by (apply Hdom; eauto).
    destruct Hs as [y Hy]. rewrite Hpr, fmap_is_Some. by eapply lo_linked.
  - intros k' j. rewrite Hpr. intros Hx%fmap_None. exact (lo_buttons L HL k' j Hx).
  - intros k' j. rewrite Hpr. intros Hx%fmap_None. exact (lo_capabilities L HL k' j Hx).
  - intros k' x. rewrite Hpr. intros (y & Hy & ->)%fmap_Some. setoid_rewrite Hdom.
    pose proof (lo_count L HL k' y Hy) as Hc. by case_decide.
  - intros k' a b x y Hab. rewrite !move_chunk_chunks. intros Hx Hy Hs.
    repeat case_decide; simplify_eq; [lia|..].
    + assert (Hu : untouched r) by (by eapply (lo_order L HL); [exact Hab|..]).
      pose proof (moves_untouched _ _ _ Hm Hu) as ->. exfalso. apply Hs.
      apply (Ht eq_refl a); [|done|done].
      destruct (lo_linked L HL k a x Hx) as [p Hp]. destruct (lo_count L HL k p Hp) as [Hc Hd].
      assert (is_Some (lg_chunks L !! (k, a))) as Ha%Hd by eauto. lia.
    + eapply (lo_order L HL); [exact Hab|exact Hr|exact Hy|]. by eapply moves_from.
    + by eapply (lo_order L HL); [exact Hab|..].
  - intros k' x. rewrite Hpr. intros (y & Hy & ->)%fmap_Some. case_decide as Hd; [by rewrite Hd|].
    rewrite (lg_states_same k' L); [by apply lo_parent|]. intros j. rewrite move_chunk_chunks.
    case_decide; [congruence|done].
Qed.

(** Every step keeps the invariant, and so does every session. *)
Lemma ledger_step_ok l L L' : ledger_step l L L' → ledger_ok L → ledger_ok L'.
Proof.
  destruct 1 as [k p targets hash t L Hv _ Hk _|k i m r r' t L Hr Hm _ Ht|token r L|token r o t L].
  - by apply freeze_keeps_ok.
  - by eapply move_keeps_ok.
  - intros []. by split.
  - intros []. by split.
Qed.
Lemma stays_or_ok P w w' : stays_or P w w' → ledger_ok (ledger_at w) → ledger_ok (ledger_at w').
Proof. intros [-> | (l & _ & Hl)]; [done|]. by eapply ledger_step_ok. Qed.
(** What each step of a ledger that is [ledger_ok] preserves, a session preserves. *)
Lemma session_keeps (C : ledger_command → Prop) (I : ledger → Prop) cmds w :
  (∀ c l L L', C c → may c l → ledger_ok L → ledger_step l L L' → I L → I L') →
  Forall C cmds → ledger_ok (ledger_at w) → I (ledger_at w) →
  ledger_ok (ledger_at (ledger_session cmds w)) ∧ I (ledger_at (ledger_session cmds w)).
Proof.
  intros Hstep Hc. revert w. induction Hc as [|c cmds Hc _ IH]; intros w Hok HI; [done|].
  simpl. pose proof (run_ledger_step c w) as Hs. apply IH; [by eapply stays_or_ok|].
  destruct Hs as [-> | (l & Hl & Hs)]; [done|]. by eapply Hstep.
Qed.
Definition empty_ledger (w : world) : Prop := ledger_at w = ledger_of empty_db.
Lemma session_ok cmds w : empty_ledger w → ledger_ok (ledger_at (ledger_session cmds w)).
Proof.
  intros He. apply (session_keeps (λ _, True) (λ _, True)); [done|by apply Forall_true| |done].
  rewrite He. apply empty_ledger_ok.
Qed.
End Invariant.
