(* ===== verification/TransportReadback.v ===== *)
(** * A frozen delivery reads back

    What freezing put into the tables stays as it was put, under any later commands,
    and [_verified_frozen_transport_delivery_projection] assembles the projection
    again from the rows. *)

From S2P Require Import Prelude PyText Clock Json Schema Store Runs Captures Activation ActivationFacts ClosingFacts RuntimeEvents Decisions Resources Transport TransportLedger TransportSteps TransportInvariant.
Open Scope Z_scope.

(** ** The columns that never change *)
Definition projection_frame (r : projection_row) :=
  (tp_operation_id r, tp_projection_hash r, tp_destination_binding_digest r, tp_routing r,
   tp_capability_binding_digest r, tp_rpc_timeout_seconds r, tp_chunk_count r).
Definition chunk_frame (r : chunk_row) :=
  (ck_operation_id r, ck_text r, ck_parse_mode r, ck_chunk_hash r).
Definition target_frame (r : target_row) :=
  (tt_namespace r, tt_purpose r, tt_resource_kind r, tt_resource_id r, tt_expected_revision r,
   tt_choice r, tt_scope_digest r, tt_expires_at r).

(** A projection and a registration with the texts that are stored. *)
Definition stored_projection (p : frozen_projection) : frozen_projection :=
  FrozenProjection (stored_key (fp_delivery_key p)) (fp_operation_id p)
    (fp_destination_binding_digest p) (fp_routing p) (fp_capability_binding_digest p)
    (fp_rpc_timeout_seconds p) (fp_projection_hash p) (fp_chunks p).
Definition stored_registration (r : registration) : registration :=
  Registration (og_token_digest r) (og_expires_at r) (stored_target (og_target r)).
Definition chunk_at (p : frozen_projection) (i : Z) : option chunk_projection :=
  if decide (0 <= i) then fp_chunks p !! Z.to_nat i else None.
(** The rows that freezing [p] wrote are in the ledger. *)
Record frozen_as (p : frozen_projection) (targets : list registration) (L : ledger) : Prop := {
  fa_projection : projection_frame <$> lg_projections L !! stored_key (fp_delivery_key p)
    = Some (projection_frame (new_projection_row p "" ""));
  fa_chunks : ∀ i, chunk_frame <$> lg_chunks L !! (stored_key (fp_delivery_key p), i)
    = chunk_frame ∘ new_chunk_row <$> chunk_at p i;
  fa_buttons : ∀ i, default [] (lg_buttons L !! (stored_key (fp_delivery_key p), i))
    = default [] (cj_buttons <$> chunk_at p i);
  fa_capabilities : ∀ i, default [] (lg_capabilities L !! (stored_key (fp_delivery_key p), i))
    = default [] ((λ c, map (capability_row_of targets) (cj_capabilities c)) <$> chunk_at p i);
  fa_targets : ∀ r, r ∈ targets → target_frame <$> lg_targets L !! og_token_digest r
    = Some (target_frame (frozen_target "" r)) }.

Section Kept.
Context `{Env} `{UnicodeChecks}.

(** ** Distinct tokens *)
Lemma registrations_ok destination capabilities seen l vs :
  validated_registrations destination capabilities seen l = inr vs →
  NoDup (map og_token_digest l) ∧
  ∀ r, r ∈ l → og_token_digest r ∉ seen ∧
    format_registry_time (og_expires_at r) = format_registry_time (ot_expires_at (og_target r)) ∧
    ∃ c, c ∈ capabilities ∧ ca_token_digest c = og_token_digest r ∧
      format_registry_time (og_expires_at r) = format_registry_time (ca_expires_at c).
Proof.
  revert seen vs. induction l as [|r l IH]; simpl; intros seen vs Hl.
  { split; [constructor|]. intros r Hr. by apply not_elem_of_nil in Hr. }
  rgo. match goal with Hr : validated_registration _ _ _ _ = _,
    Hl : validated_registrations _ _ _ _ = _ |- _ => apply IH in Hl as [Hnd Hin]; rename Hr into Hv end.
  unfold validated_registration in Hv. rgo.
  destruct (List.find _ _) as [c|] eqn:Hf in Hv; [|done]. rgo.
  apply find_some in Hf as [Hc%list_elem_of_In Ht%String.eqb_eq].
  repeat match goal with Hx : String.eqb _ _ = true |- _ => apply String.eqb_eq in Hx end.
  match goal with Hx : negb (in_texts _ seen) = true |- _ =>
    rewrite negb_true_iff, <- not_true_iff_false, in_texts_spec in Hx end.
  split.
  - constructor; [|done]. intros (y & Hy & Hyl)%list_elem_of_fmap.
    destruct (Hin y Hyl) as [Hns _]. apply Hns. rewrite <- Hy. left.
  - intros y [-> | Hy]%elem_of_cons; [split_and!; eauto|].
    destruct (Hin y Hy) as [Hns Hrest]. split; [|done]. intros ?. apply Hns. by right.
Qed.
Lemma put_targets_in t l L r :
  NoDup (map og_token_digest l) → r ∈ l →
  lg_targets (fold_left (λ L r, put_target (og_token_digest r) (frozen_target t r) L) l L)
    !! og_token_digest r = Some (frozen_target t r).
Proof.
  revert L. induction l as [|x l IH]; simpl; intros L Hnd Hr; [by apply not_elem_of_nil in Hr|].
  apply NoDup_cons in Hnd as [Hx Hnd]. apply elem_of_cons in Hr as [-> | Hr]; [|by apply IH].
  rewrite put_targets_other; [apply lookup_insert_eq|].
  intros s Hs Heq. apply Hx. rewrite <- Heq. by apply list_elem_of_fmap_2.
Qed.
Lemma projection_registrations p targets r :
  validated_projection p targets = inr r →
  ∃ vs all ws, validated_chunks (fp_operation_id p) 0 [] (fp_chunks p) = inr (vs, all) ∧
    length targets = length all ∧
    validated_registrations (dk_destination_digest (fp_delivery_key p)) all [] targets = inr ws.
Proof.
  unfold validated_projection. intros Hr. rgo.
  repeat match goal with H : String.eqb _ _ = true |- _ => apply String.eqb_eq in H; subst end.
  match goal with H : Nat.eqb _ _ = true |- _ => apply Nat.eqb_eq in H end.
  match goal with H : fp_destination_binding_digest p = _ |- _ => rewrite <- H end. eauto 10.
Qed.

(** ** Freezing writes them, and every step keeps them *)
Lemma freeze_frozen_as p targets hash t L :
  validate_transport_delivery_projection p targets = inr p →
  lg_projections L !! stored_key (fp_delivery_key p) = None → ledger_ok L →
  frozen_as p targets (freeze_ledger (stored_key (fp_delivery_key p)) p targets hash t L).
Proof.
  intros Hv Hk HL. apply validate_projection in Hv as [v Hv].
  pose proof (validated_projection_chunks _ _ _ Hv) as [Hn Hlen].
  apply projection_registrations in Hv as (vs & all & ws & _ & _ & Hr).
  apply registrations_ok in Hr as [Hnd _].
  set (k := stored_key (fp_delivery_key p)) in *.
  assert (Hat : ∀ i, (0 <= i < Z.of_nat (length (fp_chunks p)) ∧ chunk_at p i = fp_chunks p !! Z.to_nat i)
    ∨ (¬ 0 <= i < Z.of_nat (length (fp_chunks p)) ∧ chunk_at p i = None)).
  { intros i. unfold chunk_at. case_decide; [|right; split; [lia|done]].
    destruct (decide (i < Z.of_nat (length (fp_chunks p)))); [left; split; [lia|done]|].
    right. split; [lia|]. apply lookup_ge_None_2. lia. }
  split; fold k.
  - by rewrite freeze_ledger_projections, lookup_insert_eq.
  - intros i. rewrite freeze_ledger_chunks by done. destruct (Hat i) as [[Hi ->]|[Hi ->]].
    + rewrite decide_True by (split; [done|lia]). by destruct (fp_chunks p !! Z.to_nat i).
    + rewrite decide_False by (intros [_ ?]; lia). destruct (lg_chunks L !! (k, i)) as [x|] eqn:Hx; [|done].
      destruct (lo_linked L HL k i x Hx). congruence.
  - intros i. rewrite (proj1 (freeze_ledger_rows _ _ _ _ _ _)), (add_chunk_rows_lookup _ _ _ 0) by done.
    rewrite (lo_buttons L HL), Z.sub_0_r by done. destruct (Hat i) as [[Hi ->]|[Hi ->]].
    + by rewrite decide_True by (split; [done|lia]).
    + by rewrite decide_False by (intros [_ ?]; lia).
  - intros i. rewrite (proj2 (freeze_ledger_rows _ _ _ _ _ _)), (add_chunk_rows_lookup _ _ _ 0) by done.
    rewrite (lo_capabilities L HL), Z.sub_0_r by done. destruct (Hat i) as [[Hi ->]|[Hi ->]].
    + by rewrite decide_True by (split; [done|lia]).
    + by rewrite decide_False by (intros [_ ?]; lia).
  - intros r Hr. unfold freeze_ledger. by rewrite put_targets_in.
Qed.
Lemma moves_frame m r r' : moves m r r' → chunk_frame r' = chunk_frame r.
Proof. by destruct 1. Qed.
Lemma put_target_frozen p targets token r L :
  (∀ x, lg_targets L !! token = Some x → target_frame r = target_frame x) →
  frozen_as p targets L → frozen_as p targets (put_target token r L).
Proof.
  intros Hr []. split; try done. intros x Hx. simpl.
  destruct (decide (og_token_digest x = token)) as [<-|Hne]; [|rewrite lookup_insert_ne; auto].
  rewrite lookup_insert_eq. rewrite <- fa_targets0 by done.
  specialize (fa_targets0 x Hx). apply fmap_Some in fa_targets0 as (y & Hy & _).
  rewrite Hy. simpl. f_equal. by apply Hr.
Qed.
Lemma step_keeps_frozen p targets l L L' :
  ledger_ok L → ledger_step l L L' → frozen_as p targets L → frozen_as p targets L'.
Proof.
  intros HL Hs Hf.
  destruct Hs as [k' q qs hash t L Hv _ Hk Hfresh|k' j m r r' t L Hr Hm _ _|token r L Hn|token r o t L Hr _].
  - destruct Hf as [Hp Hc Hb Hcap Ht]. apply validate_projection in Hv as [v Hv].
    apply validated_projection_chunks in Hv as [Hnum _].
    assert (Hne : stored_key (fp_delivery_key p) ≠ k') by (intros Heq; rewrite Heq, Hk in Hp; done).
    split.
    + rewrite freeze_ledger_projections. by rewrite lookup_insert_ne.
    + intros i. rewrite freeze_ledger_chunks by done. by rewrite decide_False by (intros [? _]; done).
    + intros i. rewrite (proj1 (freeze_ledger_rows _ _ _ _ _ _)), (add_chunk_rows_lookup _ _ _ 0) by done.
      rewrite decide_False by (intros [? _]; done). by rewrite app_nil_r.
    + intros i. rewrite (proj2 (freeze_ledger_rows _ _ _ _ _ _)), (add_chunk_rows_lookup _ _ _ 0) by done.
      rewrite decide_False by (intros [? _]; done). by rewrite app_nil_r.
    + intros x Hx. unfold freeze_ledger. rewrite put_targets_other.
      * rewrite (proj2 (put_chunks_rest _ _ _ _)). by apply Ht.
      * intros y Hy Heq. specialize (Hfresh y Hy). specialize (Ht x Hx).
        rewrite <- Heq, Hfresh in Ht. done.
  - destruct Hf as [Hp Hc Hb Hcap Ht]. split; [| |done..].
    + rewrite <- Hp. simpl. destruct (decide (k' = stored_key (fp_delivery_key p))) as [->|Hne];
        [|by rewrite lookup_alter_ne]. rewrite lookup_alter_eq. by destruct (lg_projections L !! stored_key (fp_delivery_key p)).
    + intros i. rewrite move_chunk_chunks, <- Hc. case_decide as Hd; [|done]. simplify_eq.
      rewrite Hr. simpl. f_equal. by eapply moves_frame.
  - apply put_target_frozen; [|done]. congruence.
  - apply put_target_frozen; [|done]. intros x Hx. by simplify_eq.
Qed.
End Kept.

(** ** Reading the rows *)
Section Reading.
Context `{Env} `{UnicodeChecks}.

(** Every [datetime] of a projection and of its targets is one Python can hold. *)
Definition valid_times (p : frozen_projection) (targets : list registration) : Prop :=
  Forall (λ c, Forall (λ a, dt_valid (ca_expires_at a) = true) (cj_capabilities c)) (fp_chunks p) ∧
  Forall (λ r, dt_valid (og_expires_at r) = true ∧ dt_valid (ot_expires_at (og_target r)) = true) targets.

Lemma formatted_time_reads t w :
  dt_valid t = true → control_time (format_registry_time t) w = Ok t w.
Proof. intros Ht. apply control_time_ok. by rewrite parse_format_registry_time. Qed.
Lemma map_m_reads {A B} (f : A → Store B) l bs w :
  Forall2 (λ a b, f a w = Ok b w) l bs → map_m f l w = Ok bs w.
Proof.
  induction 1 as [|a b l bs Hab _ IH]; [done|]. simpl.
  by rewrite (bind_run _ _ _ _ _ Hab), (bind_run _ _ _ _ _ IH).
Qed.
Lemma read_capabilities targets l w :
  Forall (λ a, dt_valid (ca_expires_at a) = true) l →
  map_m read_capability (map (capability_row_of targets) l) w = Ok l w.
Proof.
  intros Hl. apply map_m_reads. induction Hl as [|[] l Ha Hl IH]; constructor; [|done].
  unfold read_capability. simpl. by rewrite (bind_run _ _ _ _ _ (formatted_time_reads _ w Ha)).
Qed.

Lemma Forall2_at {A B} (P Q : A → B → Prop) l k :
  Forall2 P l k → (∀ (n : nat) a b, k !! n = Some b → P a b → Q a b) → Forall2 Q l k.
Proof.
  induction 1 as [|a b l k Hab Hlk IH]; intros HQ; constructor; [by apply (HQ 0%nat)|].
  apply IH. intros n. apply (HQ (S n)).
Qed.
Lemma chunks_rows (rows : Z → option chunk_row) l start n :
  numbered start l → Z.of_nat (length l) <= n →
  (∀ i, start <= i → chunk_frame <$> rows i
    = chunk_frame ∘ new_chunk_row <$> l !! Z.to_nat (i - start)) →
  Forall2 (λ x c, x.1 = cj_chunk_index c ∧ chunk_frame x.2 = chunk_frame (new_chunk_row c))
    (omap (λ i, (λ r, (i, r)) <$> rows i) (seqZ start n)) l.
Proof.
  revert start n. induction l as [|c l IH]; intros start n Hn Hlen Hrows.
  - assert (omap (λ i, (λ r, (i, r)) <$> rows i) (seqZ start n) = []) as ->; [|constructor].
    assert (Hnone : ∀ i, i ∈ seqZ start n → rows i = None).
    { intros i [Hi _]%elem_of_seqZ. specialize (Hrows i Hi). simpl in Hrows. by destruct (rows i). }
    induction (seqZ start n) as [|i js IHi]; [done|]. cbn. rewrite Hnone by left. cbn.
    apply IHi. intros j Hj. apply Hnone. by right.
  - simpl in Hlen. rewrite seqZ_cons by lia. cbn.
    pose proof (Hrows start ltac:(lia)) as Hr. rewrite Z.sub_diag in Hr. simpl in Hr.
    destruct (rows start) as [r|]; [|done]. injection Hr as Hr. cbn. constructor.
    + split; [|simpl; unfold chunk_frame in *; simpl in *; congruence].
      rewrite (Hn 0%nat c eq_refl). simpl. lia.
    + apply IH; [intros m x Hx; rewrite (Hn (S m) x Hx); lia|lia|].
      intros i Hi. rewrite Hrows by lia. f_equal.
      by replace (Z.to_nat (i - start)) with (S (Z.to_nat (i - Z.succ start))) by lia.
Qed.

Context (p : frozen_projection) (targets : list registration) (w : world).
Abbreviation key := (stored_key (fp_delivery_key p)).
Context (Hfrozen : frozen_as p targets (ledger_at w)) (Hnumbered : numbered 0 (fp_chunks p))
  (Hlength : Z.of_nat (length (fp_chunks p)) <= 100) (Htimes : valid_times p targets).

Lemma chunk_at_nat i : 0 <= i → chunk_at p i = fp_chunks p !! Z.to_nat i.
Proof. intros Hi. unfold chunk_at. by rewrite decide_True. Qed.
Lemma reads_chunks :
  Forall2 (λ x c, read_chunk key x w = Ok c w) (chunks_of key (w_db w)) (fp_chunks p).
Proof.
  pose proof (chunks_rows (λ i, transport_delivery_chunks (w_db w) !! (key, i)) (fp_chunks p) 0 100
    Hnumbered Hlength) as Hrows.
  assert (Hf : ∀ i, 0 <= i → chunk_frame <$> transport_delivery_chunks (w_db w) !! (key, i)
    = chunk_frame ∘ new_chunk_row <$> fp_chunks p !! Z.to_nat (i - 0)).
  { intros i Hi. rewrite Z.sub_0_r, <- chunk_at_nat by done. apply (fa_chunks _ _ _ Hfrozen). }
  eapply Forall2_at; [exact (Hrows Hf)|]. intros n [i r] c Hc [Hi Hr].
  simpl in Hi, Hr. pose proof (Hnumbered n c Hc) as Hn. subst i. injection Hr as Ho Ht Hm Hh.
  assert (Hat : chunk_at p (cj_chunk_index c) = Some c).
  { rewrite chunk_at_nat by lia. by rewrite Hn, Z.add_0_l, Nat2Z.id. }
  unfold read_chunk.
  rewrite (bind_run _ _ w (cj_buttons c) w).
  2: { apply query_ok. split; [|done]. pose proof (fa_buttons _ _ _ Hfrozen (cj_chunk_index c)) as Hb.
       by rewrite Hat in Hb. }
  rewrite (bind_run _ _ w (map (capability_row_of targets) (cj_capabilities c)) w).
  2: { apply query_ok. split; [|done]. pose proof (fa_capabilities _ _ _ Hfrozen (cj_chunk_index c)) as Hb.
       by rewrite Hat in Hb. }
  erewrite bind_run; [|apply read_capabilities].
  2: { exact (Forall_lookup_1 _ _ _ _ (proj1 Htimes) Hc). }
  rewrite Ho, Ht, Hm, Hh. by destruct c.
Qed.
Lemma reads_projection :
  frozen_transport_delivery_projection key w = Ok (stored_projection p) w.
Proof.
  unfold frozen_transport_delivery_projection.
  pose proof (fa_projection _ _ _ Hfrozen) as Hp.
  apply fmap_Some in Hp as (r & Hr & Hp).
  rewrite (bind_run _ _ w (Some r) w) by (apply query_ok; split; [by rewrite <- Hr|done]).
  rewrite (bind_run _ _ w r w) by done.
  rewrite (bind_run _ _ w (chunks_of key (w_db w)) w) by (by apply query_ok).
  rewrite (bind_run _ _ w (fp_chunks p) w) by apply map_m_reads, reads_chunks.
  injection Hp as Ho Hh Hd Hg Hb Ht Hc.
  rewrite (bind_run _ _ w tt w).
  2: { apply ensure_ok. split; [|done]. apply Z.eqb_eq. by rewrite <- Hc. }
  unfold stored_projection. by rewrite Ho, Hh, Hd, Hg, Hb, Ht.
Qed.
End Reading.

(** ** The registrations, by their positions *)
Section Positions.
Context `{Env} `{UnicodeChecks}.

Lemma target_position_none token i l :
  token ∉ map og_token_digest l → target_position token i l = None.
Proof.
  revert i. induction l as [|r l IH]; intros i Ht; [done|]. simpl in *.
  apply not_elem_of_cons in Ht as [Hr Hl]. rewrite IH by done.
  by rewrite (proj2 (String.eqb_neq _ _)).
Qed.
Lemma target_position_lookup i l (n : nat) r :
  NoDup (map og_token_digest l) → l !! n = Some r →
  target_position (og_token_digest r) i l = Some (i + Z.of_nat n).
Proof.
  revert i n. induction l as [|x l IH]; intros i n Hnd Hn; [done|].
  apply NoDup_cons in Hnd as [Hx Hnd]. destruct n as [|n]; simpl in *.
  - injection Hn as ->. rewrite target_position_none, String.eqb_refl by done. f_equal. lia.
  - rewrite (IH (i + 1) n) by done. f_equal. lia.
Qed.
Definition position_of (targets : list registration) (token : string) : Z :=
  default 0 (target_position token 0 targets).
Lemma positions_in_order targets :
  NoDup (map og_token_digest targets) →
  map (position_of targets) (map og_token_digest targets) = seqZ 0 (Z.of_nat (length targets)).
Proof.
  intros Hnd. apply list_eq. intros n. rewrite map_map.
  destruct (targets !! n) as [r|] eqn:Hr.
  - assert (Hn := lookup_lt_Some _ _ _ Hr). rewrite (list_lookup_fmap _ targets n), Hr. simpl.
    unfold position_of. rewrite (target_position_lookup 0 targets n r) by done. symmetry.
    apply lookup_seqZ. simpl. split; [done|lia].
  - rewrite (list_lookup_fmap _ targets n), Hr. symmetry. apply lookup_ge_None.
    rewrite length_seqZ. apply lookup_ge_None in Hr. lia.
Qed.
Lemma seqZ_sorted start n : StronglySorted Z.le (seqZ start n).
Proof.
  destruct (decide (0 <= n)) as [Hn|]; [|rewrite seqZ_nil by lia; constructor].
  revert start. pattern n. apply natlike_ind; [intros; constructor| |done].
  intros m Hm IH start. rewrite seqZ_cons, Z.pred_succ by lia. constructor; [apply IH|].
  apply Forall_forall. intros i Hi%elem_of_seqZ. lia.
Qed.
Lemma isort_positions l :
  map cp_target_position (isort target_position_le l) ≡ₚ map cp_target_position l
  ∧ StronglySorted Z.le (map cp_target_position (isort target_position_le l)).
Proof.
  split; [apply Permutation_map, isort_perm|].
  assert (Hs : StronglySorted (λ a b, target_position_le a b = true) (isort target_position_le l)).
  { apply isort_sorted; unfold target_position_le; intros *; lia. }
  induction Hs as [|a m Hm IH Ha]; simpl; constructor; [done|].
  apply Forall_map. eapply Forall_impl; [exact Ha|]. unfold target_position_le. intros b Hb. lia.
Qed.
(** Capabilities with the tokens of the targets, sorted by position, are in their order. *)
Lemma sorted_capabilities targets (l : list capability) :
  NoDup (map og_token_digest targets) → length targets = length l →
  (∀ r, r ∈ targets → ∃ c, c ∈ l ∧ ca_token_digest c = og_token_digest r) →
  Forall2 (λ x r, cp_token_digest x = og_token_digest r
      ∧ ∃ c, c ∈ l ∧ x = capability_row_of targets c)
    (isort target_position_le (map (capability_row_of targets) l)) targets.
Proof.
  intros Hnd Hlen Hin. set (S := isort _ _).
  assert (Htok : map og_token_digest targets ≡ₚ map ca_token_digest l).
  { apply submseteq_length_Permutation; [|by rewrite !length_map, Hlen].
    apply NoDup_submseteq; [done|]. intros t (r & -> & Hr)%list_elem_of_fmap.
    destruct (Hin r Hr) as (c & Hc & <-). by apply list_elem_of_fmap_2. }
  assert (Hpos : map cp_target_position S = seqZ 0 (Z.of_nat (length targets))).
  { destruct (isort_positions (map (capability_row_of targets) l)) as [Hperm Hsort].
    apply (StronglySorted_unique Z.le); [done|apply seqZ_sorted|].
    unfold S. rewrite Hperm, <- positions_in_order, Htok by done.
    by rewrite !map_map. }
  assert (HS : length S = length targets).
  { unfold S. by rewrite isort_perm, length_map. }
  apply Forall2_same_length_lookup_2; [done|]. intros n x r Hx Hr.
  assert (Hxin : x ∈ map (capability_row_of targets) l).
  { apply (elem_of_isort target_position_le). by eapply list_elem_of_lookup_2. }
  apply list_elem_of_fmap in Hxin as (c & -> & Hc). split; [|by exists c].
  assert (Hct : ca_token_digest c ∈ map og_token_digest targets).
  { rewrite Htok. by apply list_elem_of_fmap_2. }
  apply list_elem_of_fmap in Hct as (r' & Hct & [m Hm]%list_elem_of_lookup).
  assert (Hn : map cp_target_position S !! n = Some (position_of targets (ca_token_digest c))).
  { rewrite (list_lookup_fmap _ S n), Hx. done. }
  rewrite Hpos in Hn. apply lookup_seqZ in Hn as [Hn _]. revert Hn. unfold position_of.
  rewrite Hct, (target_position_lookup 0 targets m r') by done. simpl. intros Hn.
  assert (n = m) as <- by lia. rewrite Hr in Hm. injection Hm as ->. done.
Qed.
End Positions.

(** ** The registrations read back *)
Section Registrations.
Context `{Env} `{UnicodeChecks}.

Lemma declared_all l declared r :
  fold_left (λ acc x, known ← acc;
      check (negb (in_texts (ca_token_digest x) (map ca_token_digest known)))
        "capability token_digest must be unique";;
      mret (known ++ [x])) l (mret declared) = (inr r : Res (list capability)) →
  r = declared ++ l ∧ (NoDup (map ca_token_digest declared) → NoDup (map ca_token_digest r)).
Proof.
  revert declared. induction l as [|x l IH]; intros declared Hf; simpl in Hf.
  { injection Hf as <-. by rewrite app_nil_r. }
  destruct (in_texts _ _) eqn:Hx in Hf.
  { exfalso. cbn in Hf. clear -Hf. induction l as [|y l IH]; [done|]. by apply IH. }
  apply IH in Hf as [-> Hnd]. rewrite <- app_assoc in *. split; [done|]. intros Hd.
  apply Hnd. rewrite map_app. apply NoDup_app. split_and!; [done| |apply NoDup_singleton].
  intros t Ht ->%list_elem_of_singleton.
  rewrite <- not_true_iff_false, in_texts_spec in Hx. done.
Qed.
Lemma validated_chunks_declared op start declared l vs all :
  validated_chunks op start declared l = inr (vs, all) →
  all = declared ++ mjoin (map cj_capabilities l)
  ∧ (NoDup (map ca_token_digest declared) → NoDup (map ca_token_digest all)).
Proof.
  revert start declared vs. induction l as [|c l IH]; simpl; intros start declared vs Hv; rgo.
  { simplify_eq. by rewrite app_nil_r. }
  simplify_eq.
  match goal with H : fold_left _ _ _ = _ |- _ => apply declared_all in H as [-> Hd] end.
  match goal with H : validated_chunks _ _ _ _ = _ |- _ => apply IH in H as [-> Ha] end.
  rewrite <- app_assoc in *. auto.
Qed.
Lemma join_rows {A B} (F : Z → list B) (G : A → list B) l start n :
  Z.of_nat (length l) <= n →
  (∀ i, start <= i → F i = default [] (G <$> l !! Z.to_nat (i - start))) →
  mjoin (map F (seqZ start n)) = mjoin (map G l).
Proof.
  revert start n. induction l as [|a l IH]; intros start n Hlen HF.
  - assert (Hnil : ∀ i, i ∈ seqZ start n → F i = []).
    { intros i [Hi _]%elem_of_seqZ. by rewrite (HF i Hi). }
    induction (seqZ start n) as [|i js IHi]; [done|]. cbn. rewrite Hnil by left.
    apply IHi. intros j Hj. apply Hnil. by right.
  - simpl in Hlen. rewrite seqZ_cons by lia. cbn. rewrite (HF start), Z.sub_diag by lia. simpl. f_equal.
    apply IH; [lia|]. intros i Hi. rewrite HF by lia. do 2 f_equal.
    by replace (Z.to_nat (i - start)) with (S (Z.to_nat (i - Z.succ start))) by lia.
Qed.
Lemma join_map {A B C} (f : B → C) (g : A → list B) l :
  mjoin (map (λ a, map f (g a)) l) = map f (mjoin (map g l)).
Proof.
  induction l as [|a l IH]; [done|].
  exact (eq_trans (f_equal (app _) IH) (eq_sym (map_app f _ _))).
Qed.
Lemma unique_by {A B} (f : A → B) l x y :
  NoDup (map f l) → x ∈ l → y ∈ l → f x = f y → x = y.
Proof.
  intros Hnd [i Hi]%list_elem_of_lookup [j Hj]%list_elem_of_lookup Hxy.
  assert (i = j) as <-; [|congruence].
  eapply (NoDup_lookup (map f l)); [done|..].
  - transitivity (f <$> l !! i); [apply list_lookup_fmap|]. by rewrite Hi.
  - transitivity (f <$> l !! j); [apply list_lookup_fmap|]. rewrite Hj. simpl. by rewrite Hxy.
Qed.

Context (p : frozen_projection) (targets : list registration) (w : world).
Abbreviation key := (stored_key (fp_delivery_key p)).
Context (Hfrozen : frozen_as p targets (ledger_at w)) (Htimes : valid_times p targets)
  (Hvalid : validate_transport_delivery_projection p targets = inr p).

Lemma capabilities_rows :
  Z.of_nat (length (fp_chunks p)) <= 100 →
  all_capabilities_of key (w_db w)
  = map (capability_row_of targets) (mjoin (map cj_capabilities (fp_chunks p))).
Proof.
  intros Hlen. unfold all_capabilities_of, capabilities_of. rewrite <- join_map.
  apply join_rows; [done|]. intros i Hi. rewrite Z.sub_0_r, <- chunk_at_nat by done.
  apply (fa_capabilities _ _ _ Hfrozen).
Qed.
Lemma reads_registration r c :
  r ∈ targets → c ∈ mjoin (map cj_capabilities (fp_chunks p)) →
  ca_token_digest c = og_token_digest r →
  format_registry_time (og_expires_at r) = format_registry_time (ca_expires_at c) →
  read_registration (capability_row_of targets c) w = Ok (stored_registration r) w.
Proof.
  intros Hr Hc Ht Hexp. destruct Htimes as [Hct Hrt].
  destruct (proj1 (Forall_forall _ _) Hrt r Hr) as [Hov Htv].
  unfold read_registration. simpl. rewrite Ht, <- Hexp.
  pose proof (fa_targets _ _ _ Hfrozen r Hr) as Hf. apply fmap_Some in Hf as (x & Hx & Hf).
  rewrite (bind_run _ _ w (Some x) w) by (apply query_ok; split; [by rewrite <- Hx|done]).
  rewrite (bind_run _ _ w x w) by done.
  rewrite (bind_run _ _ _ _ _ (formatted_time_reads _ w Hov)).
  injection Hf as Hf1 Hf2 Hf3 Hf4 Hf5 Hf6 Hf7 Hf8.
  unfold transport_opaque_target_row.
  rewrite (bind_run _ _ w (stored_target (og_target r)) w); [done|].
  rewrite <- Hf8, (bind_run _ _ _ _ _ (formatted_time_reads _ w Htv)).
  rewrite <- Hf1, <- Hf2, <- Hf3, <- Hf4, <- Hf5, <- Hf6, <- Hf7. done.
Qed.
Lemma reads_registrations :
  transport_delivery_opaque_target_registrations key w = Ok (map stored_registration targets) w.
Proof.
  apply validate_projection in Hvalid as [v Hv].
  pose proof (validated_projection_chunks _ _ _ Hv) as [_ Hlen].
  apply projection_registrations in Hv as (vs & all & ws & Hc & Hl & Hr).
  apply validated_chunks_declared in Hc as [-> Hnd]. simpl in *.
  apply registrations_ok in Hr as [Htok Hin]. specialize (Hnd NoDup_nil_2).
  unfold transport_delivery_opaque_target_registrations.
  rewrite (bind_run _ _ w _ w (proj2 (query_ok _ _ _ _) (conj eq_refl eq_refl))).
  rewrite capabilities_rows by lia. apply map_m_reads, Forall2_fmap_r.
  eapply Forall2_at; [apply sorted_capabilities; [done|done|]|].
  { intros r Hr. destruct (Hin r Hr) as (_ & _ & c & ? & ? & _). eauto. }
  intros n x r Hrn (Htx & c & Hcin & ->). assert (Hrin := list_elem_of_lookup_2 _ _ _ Hrn).
  destruct (Hin r Hrin) as (_ & _ & c' & Hc' & Ht' & Hexp).
  assert (c = c') as <-; [|by apply reads_registration].
  simpl in Htx. eapply (unique_by ca_token_digest); eauto. congruence.
Qed.
End Registrations.

(** ** Verification after any session *)
Section Verified.
Context `{Env} `{UnicodeChecks}.

Lemma verified_reads p targets w :
  frozen_as p targets (ledger_at w) → valid_times p targets →
  validate_transport_delivery_projection p targets = inr p →
  verified_frozen_transport_delivery_projection (stored_key (fp_delivery_key p)) w =
  match validate_transport_delivery_projection (stored_projection p) (map stored_registration targets) with
  | inr q => Ok q w
  | inl _ => Err projection_integrity w
  end.
Proof.
  intros Hf Ht Hv. pose proof (validate_projection _ _ _ Hv) as [v Hp].
  apply validated_projection_chunks in Hp as [Hn Hlen].
  assert (Hlen' : Z.of_nat (length (fp_chunks p)) <= 100) by lia.
  unfold verified_frozen_transport_delivery_projection, verifying.
  rewrite (bind_run _ _ _ _ _ (reads_projection p targets w Hf Hn Hlen' Ht)).
  rewrite (bind_run _ _ _ _ _ (reads_registrations p targets w Hf Ht Hv)).
  destruct (validate_transport_delivery_projection (stored_projection p) _); reflexivity.
Qed.
Lemma freeze_answer p targets hash w q w1 :
  freeze_transport_delivery_projection p targets hash w = Ok (Frozen q) w1 →
  validate_transport_delivery_projection p targets = inr p ∧
  lg_projections (ledger_at w) !! stored_key (fp_delivery_key p) = None ∧
  (∃ t, ledger_at w1 = freeze_ledger (stored_key (fp_delivery_key p)) p targets hash t (ledger_at w)) ∧
  frozen_transport_delivery_projection (stored_key (fp_delivery_key p)) w1 = Ok q w1.
Proof.
  unfold freeze_transport_delivery_projection. intros Hf. mgo. known. mgo. case_match; mgo; [by case_match|].
  case_match; mgo; [done|]. known.
  match goal with H : freeze_rows _ _ _ _ _ _ = _ |- _ => apply freeze_rows_ok in H as [Hl _] end.
  match goal with H : Frozen _ = Frozen q |- _ => injection H as -> end.
  match goal with H : frozen_transport_delivery_projection _ _ = Ok _ _ |- _ =>
    pose proof (keeps_ok id _ _ _ _ (keeps_frozen id _) H) as Hw; simpl in Hw; subst w1; rename H into Hq end.
  match goal with H : validate_transport_delivery_projection _ _ = _ |- _ =>
    pose proof (validate_same _ _ _ H); subst; split_and!; [done|done|by eexists|done] end.
Qed.
(** After a delivery was frozen its rows stay what freezing wrote. *)
Lemma session_frozen cmds0 cmds w p targets hash q w1 :
  empty_ledger w →
  freeze_transport_delivery_projection p targets hash (ledger_session cmds0 w) = Ok (Frozen q) w1 →
  validate_transport_delivery_projection p targets = inr p ∧
  frozen_transport_delivery_projection (stored_key (fp_delivery_key p)) w1 = Ok q w1 ∧
  frozen_as p targets (ledger_at w1) ∧ frozen_as p targets (ledger_at (ledger_session cmds w1)).
Proof.
  intros He Hf. apply freeze_answer in Hf as Ha. destruct Ha as (Hv & Hk & (t & Hl) & Hq).
  pose proof (session_ok cmds0 w He) as Hok.
  assert (Hf1 : frozen_as p targets (ledger_at w1)) by (rewrite Hl; by apply freeze_frozen_as).
  split_and!; [done..|].
  apply (session_keeps (λ _, True) (frozen_as p targets)); [|by apply Forall_true| |done].
  - intros c l L L' _ _ HL Hs. by eapply step_keeps_frozen.
  - rewrite Hl. by apply freeze_keeps_ok.
Qed.
End Verified.
