(* ===== verification/TransportTheorems.v ===== *)
(** * Theorems about the transport ledger

    A delivery goes out in order, a chunk that was permitted is not sent again on its
    own, an opaque target is consumed once, and what was frozen verifies for ever,
    unless its texts were stored stripped. *)

From S2P Require Import Prelude PyText Clock Json Schema Store Runs Captures Activation RuntimeEvents Decisions Resources Transport TransportLedger TransportSteps TransportInvariant TransportReadback Demo.
Open Scope Z_scope.

(** ** A concrete delivery

    A digest of 64 hexadecimal digits, and a delivery of two chunks with a button. *)
Fixpoint checksum (n : Z) (s : string) : Z :=
  match s with
  | EmptyString => n
  | String c s' => checksum ((n * 257 + ord c + 1) mod 4294967291) s'
  end.
#[export] Instance transport_env : Env := {|
  clock := demo_clock;
  id_factory := λ kind n, kind +:+ "-" +:+ dec (Z.of_nat n);
  sha256 := λ s, pad 64 (checksum 7 s);
  clock_valid := demo_clock_valid;
  id_named := λ kind n, demo_id_named kind (dec (Z.of_nat n)) |}.
#[export] Instance transport_unicode : UnicodeChecks :=
  {| utf8_ok := λ _, false; nfc_ok := λ _, false; has_control := λ _, true |}.

Definition hashed_chunk (c : chunk_projection) : chunk_projection :=
  match transport_delivery_chunk_hash c with
  | inr h => ChunkProjection (cj_chunk_index c) (cj_operation_id c) (cj_text c) (cj_parse_mode c)
      (cj_buttons c) (cj_capabilities c) h
  | inl _ => c
  end.
Definition hashed_projection (p : frozen_projection) (targets : list registration) : frozen_projection :=
  match transport_delivery_projection_hash p targets with
  | inr h => FrozenProjection (fp_delivery_key p) (fp_operation_id p)
      (fp_destination_binding_digest p) (fp_routing p) (fp_capability_binding_digest p)
      (fp_rpc_timeout_seconds p) h (fp_chunks p)
  | inl _ => p
  end.
Definition some_digest : string := pad 64 4711.
Definition some_destination : string := "hmac-sha256:" +:+ some_digest.
Definition demo_expiry : Z := 63902908800000000 + 86400000000.
Definition demo_key (event_id : string) : delivery_key :=
  DeliveryKey "telegram" some_destination event_id 1.
Definition demo_targets : list registration :=
  [Registration (sha256 "resume") demo_expiry
     (OpaqueTarget "action" "resume" "run" "run-1" (Some 3) None (Some some_destination) demo_expiry)].
Definition demo_chunks : list chunk_projection :=
  [hashed_chunk (ChunkProjection 0 "telegram.delivery.1:chunk:0" "Run 1 is waiting." "MarkdownV2" [] [] "");
   hashed_chunk (ChunkProjection 1 "telegram.delivery.1:chunk:1" "Resume it?" "MarkdownV2"
     [ButtonRow "Resume" "resume" (sha256 "resume")]
     [Capability "action" (sha256 "resume") demo_expiry None None] "")].
Definition demo_projection (event_id : string) : frozen_projection :=
  hashed_projection (FrozenProjection (demo_key event_id) "telegram.delivery.1" some_destination "root"
    some_digest 20 "" demo_chunks) demo_targets.
Example demo_projection_valid :
  validate_transport_delivery_projection (demo_projection "event-1") demo_targets
  = inr (demo_projection "event-1").
Proof. vm_compute. reflexivity. Qed.

Definition demo_freeze : ledger_command :=
  FreezeProjection (demo_projection "event-1") demo_targets some_digest.
Definition demo_send (i : Z) : list ledger_command :=
  [ClaimChunk (demo_key "event-1") i "worker-1" 60;
   BeginSend (demo_key "event-1") i "worker-1" 1 1 some_digest].
Definition demo_done (i : Z) : ledger_command :=
  CompleteChunk (demo_key "event-1") i "worker-1" 1 2 some_destination None.
Definition demo_cmds : list ledger_command := demo_freeze :: demo_send 0 ++ demo_done 0 :: demo_send 1.
Definition demo_ledger : ledger := ledger_at (ledger_session demo_cmds demo_world).
Lemma demo_sending : lg_states (demo_key "event-1") demo_ledger = [chunk_delivered; chunk_sending_unknown].
Proof. vm_compute. reflexivity. Qed.

(** ** In order *)
Section Order.
Context `{Env} `{UnicodeChecks}.

(** The chunks up to the first that is not delivered. *)
Lemma delivered_prefix k L (n : nat) :
  ∃ m, 0 <= m <= Z.of_nat n ∧
    (∀ i r, lg_chunks L !! (k, i) = Some r → 0 <= i < m → ck_state r = chunk_delivered) ∧
    (m < Z.of_nat n → ∀ r, lg_chunks L !! (k, m) = Some r → ck_state r ≠ chunk_delivered).
Proof.
  induction n as [|n (m & Hm & Hd & Hu)]; [exists 0; split_and!; [lia..|intros; lia|lia]|].
  destruct (decide (m < Z.of_nat n)) as [Hlt|Hge].
  { exists m. split_and!; [lia..|done|]. intros _. by apply Hu. }
  assert (m = Z.of_nat n) as -> by lia.
  destruct (lg_chunks L !! (k, Z.of_nat n)) as [r|] eqn:Hr;
    [destruct (decide (ck_state r = chunk_delivered)) as [Hs|Hs]|].
  - exists (Z.of_nat n + 1). split_and!; [lia..| |lia]. intros i r' Hr' Hi.
    destruct (decide (i = Z.of_nat n)) as [->|]; [congruence|]. apply (Hd i); [done|lia].
  - exists (Z.of_nat n). split_and!; [lia..|done|]. intros _ r' Hr'. congruence.
  - exists (Z.of_nat n + 1). split_and!; [lia..| |lia]. intros i r' Hr' Hi.
    destruct (decide (i = Z.of_nat n)) as [->|]; [congruence|]. apply (Hd i); [done|lia].
Qed.

(** C8: after any commands on the transport ledger, refused ones included, the chunks
    of a frozen delivery are numbered without a gap and go out in order: those before
    some chunk are delivered and those after it were never claimed, so that at most one
    is at a worker or the provider; and the delivery's state is the summary of its
    chunks' states. *)
Theorem delivery_goes_out_in_order (cmds : list ledger_command) (w : world) (k : delivery_key)
    (p : projection_row) :
  empty_ledger w →
  let L := ledger_at (ledger_session cmds w) in
  lg_projections L !! k = Some p →
  tp_state p = parent_state (lg_states k L) ∧
  (∀ i, is_Some (lg_chunks L !! (k, i)) ↔ 0 <= i < tp_chunk_count p) ∧
  ∃ n, 0 <= n <= tp_chunk_count p ∧
    (∀ i r, lg_chunks L !! (k, i) = Some r → i < n → ck_state r = chunk_delivered) ∧
    (∀ i r, lg_chunks L !! (k, i) = Some r → n < i → untouched r).
Proof.
  intros He L Hp. pose proof (session_ok cmds w He) as HL. fold L in HL.
  destruct (lo_count L HL k p Hp) as [Hc Hd].
  split_and!; [by apply lo_parent|done|].
  destruct (delivered_prefix k L (Z.to_nat (tp_chunk_count p))) as (n & Hn & Hdel & Hund).
  rewrite Z2Nat.id in * by lia. exists n. split_and!; [lia..| |].
  - intros i r Hr Hi. apply (Hdel i); [done|]. assert (is_Some (lg_chunks L !! (k, i))) as Hs%Hd by eauto. lia.
  - intros i r Hr Hi. assert (is_Some (lg_chunks L !! (k, i))) as Hs%Hd by eauto.
    destruct (proj2 (Hd n) ltac:(lia)) as [x Hx].
    eapply (lo_order L HL); [exact Hi|exact Hx|exact Hr|]. apply Hund; [lia|done].
Qed.

(** ** No second send *)

(** The commands that put a chunk of unknown outcome back: a worker with the proof that
    the provider never saw it, or a person who decides so. *)
Definition recalls (k : delivery_key) (i : Z) (c : ledger_command) : Prop :=
  match c with
  | ReleaseChunk key j _ _ _ proof _ =>
      stored_key key = k ∧ j = i ∧ proof = "provider_proved_before_send"
  | ResolveUnknown key j resolution _ _ _ => stored_key key = k ∧ j = i ∧ resolution = "retry"
  | _ => False
  end.
Definition sent_out (k : delivery_key) (i : Z) (L : ledger) : Prop :=
  ∃ r, lg_chunks L !! (k, i) = Some r ∧ is_settled (ck_state r) = true.

Lemma may_recall c k i : may c (Moves k i recalled) → recalls k i c.
Proof. destruct c; simpl; naive_solver. Qed.
Lemma step_keeps_sent k i l L L' :
  ledger_ok L → ledger_step l L L' → l ≠ Moves k i recalled → sent_out k i L → sent_out k i L'.
Proof.
  intros HL Hs Hl (x & Hx & Hst).
  destruct Hs as [k' p targets hash t L Hv _ Hk _|k' j m r r' t L Hr Hm _ Ht|token r L|token r o t L];
    [| |by exists x..].
  - exists x. split; [|done]. apply validate_projection in Hv as [v Hv].
    apply validated_projection_chunks in Hv as [Hn _]. rewrite freeze_ledger_chunks by done.
    rewrite decide_False; [done|]. intros [<- _].
    destruct (lo_linked L HL k i x Hx) as [y Hy]. congruence.
  - unfold sent_out. setoid_rewrite move_chunk_chunks. case_decide as Hd; [|by exists x].
    simplify_eq. exists r'. split; [done|].
    destruct Hm; try done; repeat match goal with H : _ ∨ _ |- _ => destruct H end;
      match goal with H : ck_state _ = _ |- _ => rewrite H in Hst end; try done.
Qed.
Lemma permitted_sent_out key i wk e rv o w p w' :
  begin_transport_delivery_chunk_send key i wk e rv o w = Ok (SendPermitted p) w' →
  sent_out (stored_key key) i (ledger_at w').
Proof.
  intros (_ & r & t & _ & _ & Hl)%begin_send_ok. unfold sent_out. rewrite Hl.
  setoid_rewrite move_chunk_chunks. rewrite decide_True by done. eauto.
Qed.

(** C9: once a permit to send a chunk was given out, no later command makes the ledger
    give out another for it, whoever asks, with whatever claim, unless a worker proved
    that the provider never saw it or a person decided to retry it. *)
Theorem permitted_chunk_not_resent (cmds0 cmds : list ledger_command) (w : world)
    (key key' : delivery_key) (i : Z) (worker worker' : string) (epoch epoch' revision revision' : Z)
    (observed observed' : string) (permit : send_permit) (w1 : world) :
  empty_ledger w →
  begin_transport_delivery_chunk_send key i worker epoch revision observed
    (ledger_session cmds0 w) = Ok (SendPermitted permit) w1 →
  Forall (λ c, ¬ recalls (stored_key key) i c) cmds →
  stored_key key' = stored_key key →
  ∀ answer w2,
    begin_transport_delivery_chunk_send key' i worker' epoch' revision' observed'
      (ledger_session cmds w1) ≠ Ok answer w2.
Proof.
  intros He Hb Hc Hkey answer w2 Hb'.
  assert (Hok : ledger_ok (ledger_at w1)).
  { apply begin_send_ok in Hb as [Hs _]. eapply stays_or_ok; [exact Hs|]. by apply session_ok. }
  destruct (session_keeps (λ c, ¬ recalls (stored_key key) i c) (sent_out (stored_key key) i) cmds w1)
    as [_ (r & Hr & Hs)]; [|exact Hc|exact Hok|by eapply permitted_sent_out|].
  - intros c l L L' Hn Hm HL Hstep. eapply step_keeps_sent; [done|done|].
    intros ->. by apply Hn, may_recall.
  - apply begin_send_ok in Hb' as (_ & r' & t & Hr' & Hs' & _). rewrite Hkey in Hr'.
    rewrite Hr in Hr'. simplify_eq. by rewrite Hs' in Hs.
Qed.

(** ** Opaque targets *)
Definition consumed_by (token owner : string) (L : ledger) : Prop :=
  ∃ r, lg_targets L !! token = Some r ∧ fst <$> tt_consumed r = Some owner.
Lemma step_keeps_consumed token owner l L L' :
  ledger_step l L L' → consumed_by token owner L → consumed_by token owner L'.
Proof.
  intros Hs (x & Hx & Ho).
  destruct Hs as [k p targets hash t L _ _ _ Hf|k j m r r' t L|token' r L Hn|token' r o t L Hr Hn];
    [|by exists x|..].
  - exists x. split; [|done]. unfold freeze_ledger. rewrite put_targets_other.
    + by rewrite (proj2 (put_chunks_rest _ _ _ _)).
    + intros r Hr Heq. specialize (Hf r Hr). rewrite Heq in Hf. congruence.
  - exists x. simpl. split; [|done]. rewrite lookup_insert_ne; [done|]. intros ->. congruence.
  - exists x. simpl. split; [|done]. rewrite lookup_insert_ne; [done|]. intros ->.
    rewrite Hx in Hr. simplify_eq. by rewrite Hn in Ho.
Qed.
Lemma claim_target_ok token c b w t w' :
  claim_transport_opaque_target token c b w = Ok (Some t) w' → b = true →
  (∀ x, c = Some x → key_ok x = true) ∧
  consumed_by token (default "single-use" c) (ledger_at w') ∧
  (∀ o, consumed_by token o (ledger_at w) → c = Some o).
Proof.
  unfold claim_transport_opaque_target. intros Hc ->. settle.
  match goal with H : (match c with _ => _ end) _ = Ok _ ?w1 |- _ =>
    assert (w1 = w ∧ ∀ x, c = Some x → key_ok x = true) as [-> Hkey]
      by (destruct c; unfold validate_key in *; settle; naive_solver) end.
  destruct (transport_opaque_targets (w_db w) !! token) as [r|] eqn:Hr; settle.
  destruct (bool_decide (is_Some c) && bool_decide (fst <$> tt_consumed r = Some _)) eqn:Hb; settle.
  - apply andb_true_iff in Hb as [[x ->]%bool_decide_eq_true Ho%bool_decide_eq_true].
    simpl in *. split_and!; [done|by exists r|]. intros o (r' & Hr' & Ho').
    rewrite (Hr : lg_targets (ledger_at w') !! token = Some r) in Hr'. simplify_eq. congruence.
  - destruct (bool_decide (is_Some (tt_consumed r))) eqn:Hn; settle.
    apply bool_decide_eq_false, eq_None_not_Some in Hn.
    split_and!; [done| |].
    + eexists. split; [apply lookup_insert_eq|done].
    + intros o (r' & Hr' & Ho'). rewrite (Hr : lg_targets (ledger_at _) !! token = Some r) in Hr'.
      simplify_eq. by rewrite Hn in Ho'.
Qed.

(** C34: an opaque target that a claim consumed is given, after any commands, to a later
    consuming claim only when both name one and the same consumer: two unnamed claims
    do not both get it. *)
Theorem opaque_target_single_use (cmds0 cmds : list ledger_command) (w : world) (token : string)
    (consumer consumer' : option string) (t t' : opaque_target) (w1 w2 : world) :
  empty_ledger w →
  claim_transport_opaque_target token consumer true (ledger_session cmds0 w) = Ok (Some t) w1 →
  claim_transport_opaque_target token consumer' true (ledger_session cmds w1) = Ok (Some t') w2 →
  ∃ name, consumer = Some name ∧ consumer' = Some name.
Proof.
  intros He Hc Hc'. pose proof (session_ok cmds0 w He) as Hok.
  assert (Hok1 : ledger_ok (ledger_at w1)).
  { eapply stays_or_ok; [by eapply (claim_target_steps token consumer true)|done]. }
  destruct (claim_target_ok _ _ _ _ _ _ Hc eq_refl) as (_ & Hby & _).
  destruct (claim_target_ok _ _ _ _ _ _ Hc' eq_refl) as (Hkey & _ & Hsame).
  destruct (session_keeps (λ _, True) (consumed_by token (default "single-use" consumer)) cmds w1)
    as [_ Hby2]; [|by apply Forall_true|done|done|].
  { intros c l L L' _ _ _ Hs. by eapply step_keeps_consumed. }
  specialize (Hsame _ Hby2) as ->. specialize (Hkey _ eq_refl).
  destruct consumer as [name|]; [by exists name|]. vm_compute in Hkey. done.
Qed.

(** ** What was frozen verifies *)

(** C10: freezing a projection whose texts carry no blanks at their ends, with expiry times
    that exist, answers that projection; and after any later commands, claims, sends and
    failures of the delivery included, the rows still read back as that projection and as
    the targets it was frozen with, in their order, and pass every hash check. *)
Theorem frozen_delivery_verifies (cmds0 cmds : list ledger_command) (w : world)
    (p q : frozen_projection) (targets : list registration) (hash : string) (w1 : world) :
  empty_ledger w →
  freeze_transport_delivery_projection p targets hash (ledger_session cmds0 w) = Ok (Frozen q) w1 →
  stored_projection p = p → map stored_registration targets = targets → valid_times p targets →
  q = p ∧
  verified_frozen_transport_delivery_projection (fp_delivery_key p) (ledger_session cmds w1)
  = Ok p (ledger_session cmds w1) ∧
  transport_delivery_opaque_target_registrations (fp_delivery_key p) (ledger_session cmds w1)
  = Ok targets (ledger_session cmds w1).
Proof.
  intros He Hf Hp Ht Hvt. destruct (session_frozen _ cmds _ _ _ _ _ _ He Hf) as (Hv & Hq & Hf1 & Hf2).
  assert (Hk : stored_key (fp_delivery_key p) = fp_delivery_key p) by exact (f_equal fp_delivery_key Hp).
  pose proof (verified_reads p targets _ Hf2 Hvt Hv) as Hr. rewrite Hp, Ht, Hv, Hk in Hr.
  pose proof (reads_registrations p targets _ Hf2 Hvt Hv) as Hg. rewrite Ht, Hk in Hg.
  split; [|exact (conj Hr Hg)]. apply validate_projection in Hv as [v Hv].
  apply validated_projection_chunks in Hv as [Hn Hlen].
  pose proof (reads_projection p targets w1 Hf1 Hn ltac:(lia) Hvt) as Hq'.
  rewrite Hq in Hq'. injection Hq' as ->. exact Hp.
Qed.

(** C39: a delivery whose texts have blanks around them is frozen, with the hash over the
    texts as given, but stored stripped.  When the stored texts do not fit the hash, no
    permit to send any of its chunks is ever given, and none of them is failed: the
    delivery can be claimed for ever and is never sent. *)
Theorem padded_delivery_never_sent (cmds0 cmds : list ledger_command) (w : world)
    (p q : frozen_projection) (targets : list registration) (hash e : string) (w1 : world)
    (key : delivery_key) (i : Z) (worker : string) (epoch revision : Z) (observed : string) :
  empty_ledger w →
  freeze_transport_delivery_projection p targets hash (ledger_session cmds0 w) = Ok (Frozen q) w1 →
  valid_times p targets →
  validate_transport_delivery_projection (stored_projection p) (map stored_registration targets) = inl e →
  stored_key key = stored_key (fp_delivery_key p) →
  ∀ answer w2,
    begin_transport_delivery_chunk_send key i worker epoch revision observed
      (ledger_session cmds w1) ≠ Ok answer w2.
Proof.
  intros He Hf Hvt Hbad Hkey answer w2 Hb.
  destruct (session_frozen _ cmds _ _ _ _ _ _ He Hf) as (Hv & _ & _ & Hf2).
  assert (Hf3 : ∀ w3, w_db w3 = w_db (ledger_session cmds w1) →
    ∃ x, verified_frozen_transport_delivery_projection (stored_key key) w3 = Err x w3).
  { intros w3 Hw. rewrite Hkey, (verified_reads p targets), Hbad; [by eexists| |done|done].
    unfold ledger_at. by rewrite Hw. }
  unfold begin_transport_delivery_chunk_send in Hb. mgo. destruct x as [k wk]. mgo.
  apply mutation_ok in H1 as (-> & _ & ->).
  repeat match goal with
  | H : transport_delivery_chunk_row _ _ _ = Ok _ _ |- _ => apply chunk_row_ok in H as [_ ->]
  | H : require_transport_chunk_fence _ _ _ _ _ _ _ _ = Ok _ _ |- _ =>
      unfold require_transport_chunk_fence in H; mgo
  end.
  match goal with H : verified_frozen_transport_delivery_projection _ ?w3 = Ok _ _ |- _ =>
    destruct (Hf3 w3 eq_refl); congruence end.
Qed.
End Order.

(** ** Witnesses *)
Definition demo_until_permit : list ledger_command := [demo_freeze; ClaimChunk (demo_key "event-1") 0 "worker-1" 60].
Abbreviation demo_permit_run :=
  (begin_transport_delivery_chunk_send (demo_key "event-1") 0 "worker-1" 1 1 some_digest
    (ledger_session demo_until_permit demo_world)).
Definition permit_of (o : outcome world exc send_decision) : option send_permit :=
  match o with Ok (SendPermitted p) _ => Some p | _ => None end.
Lemma permit_run o p : permit_of o = Some p → o = Ok (SendPermitted p) (end_world o).
Proof. destruct o as [[q| |]|]; simpl; congruence. Qed.
Lemma demo_permitted : is_Some (permit_of demo_permit_run).
Proof. vm_compute. eauto. Qed.
Definition demo_after : list ledger_command :=
  [ClaimChunk (demo_key "event-1") 0 "worker-2" 60;
   ReleaseChunk (demo_key "event-1") 0 "worker-1" 1 2 "rpc_not_started" None;
   FailChunk (demo_key "event-1") 0 "worker-1" 1 2 "telegram.rejected";
   ResolveUnknown (demo_key "event-1") 0 "assume_delivered" 2 "owner" "idempotency-key-1"].

Lemma demo_frozen : is_Some (lg_projections demo_ledger !! demo_key "event-1").
Proof. vm_compute. eauto. Qed.
Lemma delivery_goes_out_in_order_witness :
  ∃ p, lg_projections demo_ledger !! demo_key "event-1" = Some p ∧
    tp_state p = parent_state [chunk_delivered; chunk_sending_unknown].
Proof.
  destruct demo_frozen as [p Hp]. exists p. split; [exact Hp|].
  rewrite <- demo_sending.
  exact (proj1 (delivery_goes_out_in_order demo_cmds demo_world (demo_key "event-1") p eq_refl Hp)).
Defined.

Lemma permitted_chunk_not_resent_witness :
  is_Some (permit_of demo_permit_run) ∧ ∀ answer w2,
    begin_transport_delivery_chunk_send (demo_key " event-1") 0 "worker-2" 2 4 some_digest
      (ledger_session demo_after (end_world demo_permit_run)) ≠ Ok answer w2.
Proof.
  split; [exact demo_permitted|]. destruct demo_permitted as [p Hp].
  eapply (permitted_chunk_not_resent demo_until_permit demo_after demo_world (demo_key "event-1")
    (demo_key " event-1") 0 "worker-1" "worker-2" 1 2 1 4 some_digest some_digest p);
    [reflexivity|exact (permit_run demo_permit_run p Hp)| |reflexivity].
  repeat apply List.Forall_cons; try apply List.Forall_nil; simpl; intros Hr; try exact Hr;
    destruct Hr as (_ & _ & Hr); discriminate Hr.
Defined.

Definition demo_put : ledger_command :=
  PutTarget (sha256 "open") (OpaqueTarget "deep_link" "open" "thread" "thread-1" None None None demo_expiry).
Abbreviation demo_first :=
  (claim_transport_opaque_target (sha256 "open") (Some "consumer-number-1") true
    (ledger_session [demo_put] demo_world)).
Abbreviation demo_second :=
  (claim_transport_opaque_target (sha256 "open") (Some "consumer-number-1") true
    (ledger_session demo_until_permit (end_world demo_first))).
Definition taken_target (o : outcome world exc (option opaque_target)) : option opaque_target :=
  match o with Ok t _ => t | Err _ _ => None end.
Lemma taken_run o t : taken_target o = Some t → o = Ok (Some t) (end_world o).
Proof. destruct o as [[u|]|]; simpl; congruence. Qed.
Lemma demo_taken : is_Some (taken_target demo_first) ∧ is_Some (taken_target demo_second).
Proof. split; vm_compute; eauto. Qed.

Lemma opaque_target_single_use_witness :
  ∃ name, Some "consumer-number-1" = Some name ∧ Some "consumer-number-1" = Some name.
Proof.
  destruct demo_taken as [[t Ht] [t' Ht']].
  exact (opaque_target_single_use [demo_put] demo_until_permit demo_world (sha256 "open")
    (Some "consumer-number-1") (Some "consumer-number-1") t t' (end_world demo_first)
    (end_world demo_second) eq_refl (taken_run demo_first t Ht) (taken_run demo_second t' Ht')).
Defined.

Abbreviation demo_freeze_run event :=
  (freeze_transport_delivery_projection (demo_projection event) demo_targets some_digest
    (ledger_session [] demo_world)).
Definition frozen_of (o : outcome world exc freeze_result) : option frozen_projection :=
  match o with Ok (Frozen q) _ => Some q | _ => None end.
Lemma frozen_run o q : frozen_of o = Some q → o = Ok (Frozen q) (end_world o).
Proof. destruct o as [[| | |]|]; simpl; congruence. Qed.
Lemma demo_freezes : is_Some (frozen_of (demo_freeze_run "event-1")) ∧ is_Some (frozen_of (demo_freeze_run " event-1")).
Proof. split; vm_compute; eauto. Qed.
Lemma valid_times_by p targets :
  forallb (λ c, forallb (λ a, dt_valid (ca_expires_at a)) (cj_capabilities c)) (fp_chunks p) = true →
  forallb (λ r, dt_valid (og_expires_at r) && dt_valid (ot_expires_at (og_target r))) targets = true →
  valid_times p targets.
Proof.
  rewrite !forallb_forall. intros Hp Ht.
  split; apply Forall_forall; intros x Hx%list_elem_of_In; [specialize (Hp x Hx)|specialize (Ht x Hx)].
  - rewrite forallb_forall in Hp. apply Forall_forall. intros a Ha%list_elem_of_In. by apply Hp.
  - by apply andb_true_iff in Ht.
Qed.
Lemma demo_times : valid_times (demo_projection "event-1") demo_targets
  ∧ valid_times (demo_projection " event-1") demo_targets.
Proof. split; apply valid_times_by; vm_compute; reflexivity. Qed.
Lemma demo_texts_stripped : stored_projection (demo_projection "event-1") = demo_projection "event-1"
  ∧ map stored_registration demo_targets = demo_targets.
Proof. split; vm_compute; reflexivity. Qed.

Lemma frozen_delivery_verifies_witness :
  let later := ledger_session (demo_send 0 ++ demo_done 0 :: demo_send 1)
    (end_world (demo_freeze_run "event-1")) in
  frozen_of (demo_freeze_run "event-1") = Some (demo_projection "event-1") ∧
  transport_delivery_opaque_target_registrations (fp_delivery_key (demo_projection "event-1")) later
  = Ok demo_targets later.
Proof.
  destruct demo_freezes as [[q Hq] _].
  destruct (frozen_delivery_verifies [] (demo_send 0 ++ demo_done 0 :: demo_send 1) demo_world
    (demo_projection "event-1") q demo_targets some_digest (end_world (demo_freeze_run "event-1"))
    eq_refl (frozen_run (demo_freeze_run "event-1") q Hq) (proj1 demo_texts_stripped)
    (proj2 demo_texts_stripped) (proj1 demo_times)) as (Eq & _ & Hg).
  cbv zeta. split; [|exact Hg]. rewrite Hq. exact (f_equal Some Eq).
Defined.

Definition stored_error : string :=
  match validate_transport_delivery_projection (stored_projection (demo_projection " event-1"))
    (map stored_registration demo_targets) with inl e => e | inr _ => "" end.
Lemma demo_padded_refused :
  validate_transport_delivery_projection (stored_projection (demo_projection " event-1"))
    (map stored_registration demo_targets) = inl stored_error.
Proof. vm_compute. reflexivity. Qed.
Lemma padded_delivery_never_sent_witness :
  is_Some (frozen_of (demo_freeze_run " event-1")) ∧
  ∀ answer w2,
    begin_transport_delivery_chunk_send (demo_key "event-1") 0 "worker-1" 1 1 some_digest
      (ledger_session [ClaimChunk (demo_key "event-1") 0 "worker-1" 60]
         (end_world (demo_freeze_run " event-1"))) ≠ Ok answer w2.
Proof.
  split; [exact (proj2 demo_freezes)|]. destruct demo_freezes as [_ [q Hq]].
  exact (padded_delivery_never_sent [] [ClaimChunk (demo_key "event-1") 0 "worker-1" 60] demo_world
    (demo_projection " event-1") q demo_targets some_digest stored_error
    (end_world (demo_freeze_run " event-1")) (demo_key "event-1") 0 "worker-1" 1 1 some_digest
    eq_refl (frozen_run (demo_freeze_run " event-1") q Hq) (proj2 demo_times) demo_padded_refused eq_refl).
Defined.
