(* ===== verification/ArtifactModels.v ===== *)
(** * Artifact documents

    [artifacts/models.py] and the request and result documents of
    [artifacts/materializer.py]: the closed version-one contracts of research
    artifacts.  A raised [ValidationError] is [inl] of its message.  A dataclass is a
    record, [__post_init__] a check of it; a document is a JSON value. *)

From Stdlib Require Import Ascii.
From S2P Require Import Prelude PyText Clock Json Schema Store Runs Resources Transport.
Open Scope Z_scope.

(** ** The patterns and the scalar checks *)
Definition artifact_identifier_char (c : ascii) : bool := is_az c || is_digit c || one_of "._:-" c.
Definition artifact_identifier_ok (s : string) : bool :=
  fullmatch (λ c, is_az c || is_digit c) artifact_identifier_char 0 127 s.
Definition producer_version_ok (s : string) : bool :=
  fullmatch is_alnum (λ c, is_alnum c || one_of "._+-" c) 0 127 s.
Definition media_char (c : ascii) : bool := is_az c || is_digit c || one_of "!#$&^_.+-" c.
Definition media_type_ok (s : string) : bool :=
  let '(kind, slash, subtype) := partition "/" s in
  slash && negb (String.eqb kind "") && str_all media_char kind
  && negb (String.eqb subtype "") && str_all media_char subtype.
(** [unicodedata.category(c).startswith("C")] of the code points up to 255. *)
Definition category_c (c : ascii) : bool :=
  (ord c <? 32) || ((127 <=? ord c) && (ord c <=? 159)) || (ord c =? 173).
Definition MAX_BYTE_LENGTH : Z := 2 ^ 63 - 1.
Definition MAX_PARENT_INPUTS : Z := 256.

(** [_identifier], [_sha256], ... on the value of a field, and on a checked field. *)
Definition text_that (ok : string → bool) (message : string) (v : json) : Res string :=
  match v with JStr s => check (ok s) message;; mret s | _ => inl message end.
Definition int_that (ok : Z → bool) (message : string) (v : json) : Res Z :=
  match v with JInt n => check (ok n) message;; mret n | _ => inl message end.
Definition identifier (name : string) : json → Res string :=
  text_that artifact_identifier_ok (name +:+ " must be a canonical lowercase identifier").
Definition producer_part (name : string) : json → Res string :=
  text_that producer_version_ok (name +:+ " must be a canonical producer identifier").
Definition sha256_field (name : string) : json → Res string :=
  text_that is_sha256 (name +:+ " must be a lowercase SHA-256").
Definition byte_length_field : json → Res Z :=
  int_that (λ n, (0 <=? n) && (n <=? MAX_BYTE_LENGTH))
    "byte_length must be a bounded non-negative integer".
Definition positive_int (name : string) : json → Res Z :=
  int_that (λ n, 1 <=? n) (name +:+ " must be a positive integer").
Definition media_type_field : json → Res string :=
  text_that media_type_ok "media_type must be lowercase type/subtype without parameters".
(** [_timestamp]: the text is the one [isoformat] gives back, whole seconds without a
    fraction; the source has three messages for what is not. *)
Definition timestamp_canonical (s : string) : bool :=
  match parse_control_time s with Some t => String.eqb (format_time t) s | None => false end.
Definition timestamp_field (name : string) : json → Res string :=
  text_that timestamp_canonical (name +:+ " must be a canonical RFC3339 UTC timestamp").

(** [_closed], [_schema_v1]. *)
Definition closed_document (v : json) (fields : list string) (name : string) : Res unit :=
  check (match v with JObj _ => same_keys v fields | _ => false end)
    (name +:+ " fields do not match schema").
Definition schema_v1 (v : json) (name : string) : Res unit :=
  check (match field "schema_version" v with JInt n => n =? 1 | _ => false end)
    ("unsupported " +:+ name +:+ " schema").

(** [_ordered_identifiers] and [_validate_identifier_tuple]: unique, in the order of
    [sorted]. *)
Definition ordered_texts (allow_empty : bool) (name : string) (l : list string) : Res unit :=
  check (allow_empty || negb (bool_decide (l = []))) (name +:+ " must not be empty");;
  check (bool_decide (NoDup l)) (name +:+ " entries must be unique");;
  check (bool_decide (isort str_le l = l)) (name +:+ " entries must use canonical order").
Definition validate_identifier_tuple (values : list string) (name : string) (allow_empty : bool) :
    Res unit :=
  map_res (λ s, identifier name (JStr s)) values;; ordered_texts allow_empty name values.
Definition ordered_identifiers (v : json) (name : string) (allow_empty : bool) : Res (list string) :=
  match v with
  | JArr vs =>
      l ← map_res (identifier name) vs;
      ordered_texts allow_empty name l;; mret l
  | _ => inl (name +:+ " must be a list")
  end.

(** ** Producers and parents *)
Record producer_identity := ProducerIdentity { pi_name : string; pi_version : string }.
#[export] Instance producer_identity_eq_dec : EqDecision producer_identity.
Proof. solve_decision. Defined.
Definition producer_checks (p : producer_identity) : Res unit :=
  identifier "producer name" (JStr (pi_name p));;
  producer_part "producer version" (JStr (pi_version p));; mret tt.
Definition producer_from_dict (v : json) : Res producer_identity :=
  closed_document v ["name"; "version"] "producer identity";;
  name ← identifier "producer name" (field "name" v);
  version ← producer_part "producer version" (field "version" v);
  producer_checks (ProducerIdentity name version);;
  mret (ProducerIdentity name version).
Definition producer_to_dict (p : producer_identity) : json :=
  JObj [("name", JStr (pi_name p)); ("version", JStr (pi_version p))].

Record parent_input := ParentInput { pv_artifact_version_id : string; pv_sha256 : string }.
#[export] Instance parent_input_eq_dec : EqDecision parent_input.
Proof. solve_decision. Defined.
Definition parent_checks (p : parent_input) : Res unit :=
  identifier "parent artifact_version_id" (JStr (pv_artifact_version_id p));;
  sha256_field "parent sha256" (JStr (pv_sha256 p));; mret tt.
Definition parent_from_dict (v : json) : Res parent_input :=
  closed_document v ["artifact_version_id"; "sha256"] "parent input";;
  id ← identifier "parent artifact_version_id" (field "artifact_version_id" v);
  hash ← sha256_field "parent sha256" (field "sha256" v);
  parent_checks (ParentInput id hash);;
  mret (ParentInput id hash).
Definition parent_to_dict (p : parent_input) : json :=
  JObj [("artifact_version_id", JStr (pv_artifact_version_id p)); ("sha256", JStr (pv_sha256 p))].
(** [_validate_parent_tuple] and [parse_parent_inputs]. *)
Definition validate_parent_tuple (l : list parent_input) : Res unit :=
  check (Z.of_nat (length l) <=? MAX_PARENT_INPUTS) "parent inputs exceed the v1 parent limit";;
  let identities := map pv_artifact_version_id l in
  check (bool_decide (NoDup identities)) "parent artifact versions must be unique";;
  check (bool_decide (isort str_le identities = identities)) "parent inputs must use canonical order".
Definition parse_parent_inputs (v : json) : Res (list parent_input) :=
  match v with
  | JArr vs =>
      check (Z.of_nat (length vs) <=? MAX_PARENT_INPUTS) "parent inputs exceed the v1 parent limit";;
      parents ← map_res parent_from_dict vs;
      validate_parent_tuple parents;; mret parents
  | _ => inl "parents must be a list"
  end.
Definition parents_json (l : list parent_input) : json := JArr (map parent_to_dict l).

(** ** Provenance: version 2 carries document evidence *)
Record provenance := Provenance {
  pr_schema_version : Z; pr_run_id : string; pr_attempt_id : string;
  pr_source_ids : list string; pr_research_engine_refs : list string;
  pr_generator : producer_identity; pr_tool : producer_identity;
  pr_parents : list parent_input; pr_media_type : string; pr_byte_length : Z;
  pr_sha256 : string; pr_committed_at : string;
  pr_document_version_ids : list string; pr_research_context_sha256 : option string }.
Definition PROVENANCE_FIELDS : list string :=
  ["schema_version"; "run_id"; "attempt_id"; "source_ids"; "research_engine_refs"; "generator";
   "tool"; "parents"; "media_type"; "byte_length"; "sha256"; "committed_at"].
Definition DOCUMENT_FIELDS : list string := ["document_version_ids"; "research_context_sha256"].
Definition provenance_checks (p : provenance) : Res unit :=
  let v1 := pr_schema_version p =? 1 in
  let v2 := pr_schema_version p =? 2 in
  check (v1 || v2) "unsupported provenance schema";;
  identifier "run_id" (JStr (pr_run_id p));;
  identifier "attempt_id" (JStr (pr_attempt_id p));;
  validate_identifier_tuple (pr_source_ids p) "source_ids" v2;;
  validate_identifier_tuple (pr_document_version_ids p) "document_version_ids" v1;;
  (if v1 then
     check (bool_decide (pr_document_version_ids p = [])
            && bool_decide (pr_research_context_sha256 p = None))
       "v1 provenance cannot carry document evidence"
   else sha256_field "sha256" (opt_json (pr_research_context_sha256 p));; mret tt);;
  validate_identifier_tuple (pr_research_engine_refs p) "research_engine_refs" true;;
  validate_parent_tuple (pr_parents p);;
  media_type_field (JStr (pr_media_type p));;
  byte_length_field (JInt (pr_byte_length p));;
  sha256_field "sha256" (JStr (pr_sha256 p));;
  timestamp_field "committed_at" (JStr (pr_committed_at p));; mret tt.
(** [version == 2]; a float equal to 2 is refused later there and by its fields here. *)
Definition is_version_2 (v : json) : bool :=
  match v with
  | JObj _ => match field "schema_version" v with JInt n => n =? 2 | _ => false end
  | _ => false
  end.
Definition schema_number (v : json) : Res Z :=
  match v with JInt n => mret n | _ => inl "unsupported provenance schema" end.
Definition optional_text_field (v : json) : Res (option string) :=
  match v with
  | JStr s => mret (Some s) | JNull => mret None
  | _ => inl "sha256 must be a lowercase SHA-256"
  end.
Definition provenance_from_dict (v : json) : Res provenance :=
  let v2 := is_version_2 v in
  closed_document v (PROVENANCE_FIELDS ++ if v2 then DOCUMENT_FIELDS else []) "provenance";;
  run_id ← identifier "run_id" (field "run_id" v);
  attempt_id ← identifier "attempt_id" (field "attempt_id" v);
  source_ids ← ordered_identifiers (field "source_ids" v) "source_ids" v2;
  refs ← ordered_identifiers (field "research_engine_refs" v) "research_engine_refs" true;
  generator ← producer_from_dict (field "generator" v);
  tool ← producer_from_dict (field "tool" v);
  parents ← parse_parent_inputs (field "parents" v);
  media_type ← media_type_field (field "media_type" v);
  byte_length ← byte_length_field (field "byte_length" v);
  sha256 ← sha256_field "sha256" (field "sha256" v);
  committed_at ← timestamp_field "committed_at" (field "committed_at" v);
  documents ← (if v2 then ordered_identifiers (field "document_version_ids" v)
                 "document_version_ids" false else mret []);
  schema ← schema_number (field "schema_version" v);
  context ← (if v2 then optional_text_field (field "research_context_sha256" v) else mret None);
  let p := Provenance schema run_id attempt_id source_ids refs generator tool parents media_type
             byte_length sha256 committed_at documents context in
  provenance_checks p;; mret p.
Definition provenance_to_dict (p : provenance) : json := JObj
  ([("schema_version", JInt (pr_schema_version p)); ("run_id", JStr (pr_run_id p));
    ("attempt_id", JStr (pr_attempt_id p)); ("source_ids", JArr (map JStr (pr_source_ids p)));
    ("research_engine_refs", JArr (map JStr (pr_research_engine_refs p)));
    ("generator", producer_to_dict (pr_generator p)); ("tool", producer_to_dict (pr_tool p));
    ("parents", parents_json (pr_parents p)); ("media_type", JStr (pr_media_type p));
    ("byte_length", JInt (pr_byte_length p)); ("sha256", JStr (pr_sha256 p));
    ("committed_at", JStr (pr_committed_at p))]
   ++ if pr_schema_version p =? 2 then
        [("document_version_ids", JArr (map JStr (pr_document_version_ids p)));
         ("research_context_sha256", opt_json (pr_research_context_sha256 p))]
      else []).

Section Unicode.
Context `{UnicodeChecks}.

(** ** Artifacts and their versions *)

(** [unicodedata.normalize("NFC", s) == s]. *)
Definition nfc (s : string) : bool := is_ascii s || nfc_ok (encode s).
Definition display_text_ok (s : string) : bool :=
  negb (String.eqb s "") && (slen s <=? 2000) && nfc s && str_all (λ c, negb (category_c c)) s.
Definition display_text (name : string) : json → Res string :=
  text_that display_text_ok (name +:+ " must be non-empty canonical Unicode text").
Record artifact := Artifact {
  ar_artifact_id : string; ar_workspace_id : string; ar_thread_id : string;
  ar_kind : string; ar_title : string }.
Definition ARTIFACT_FIELDS : list string :=
  ["schema_version"; "artifact_id"; "workspace_id"; "thread_id"; "kind"; "title"].
Definition artifact_checks (a : artifact) : Res unit :=
  identifier "artifact_id" (JStr (ar_artifact_id a));;
  identifier "workspace_id" (JStr (ar_workspace_id a));;
  identifier "thread_id" (JStr (ar_thread_id a));;
  identifier "kind" (JStr (ar_kind a));;
  display_text "title" (JStr (ar_title a));; mret tt.
Definition artifact_from_dict (v : json) : Res artifact :=
  closed_document v ARTIFACT_FIELDS "artifact";; schema_v1 v "artifact";;
  id ← identifier "artifact_id" (field "artifact_id" v);
  workspace ← identifier "workspace_id" (field "workspace_id" v);
  thread ← identifier "thread_id" (field "thread_id" v);
  kind ← identifier "kind" (field "kind" v);
  title ← display_text "title" (field "title" v);
  let a := Artifact id workspace thread kind title in artifact_checks a;; mret a.
Definition artifact_to_dict (a : artifact) : json := JObj
  [("schema_version", JInt 1); ("artifact_id", JStr (ar_artifact_id a));
   ("workspace_id", JStr (ar_workspace_id a)); ("thread_id", JStr (ar_thread_id a));
   ("kind", JStr (ar_kind a)); ("title", JStr (ar_title a))].

(** [_validate_artifact_uri]. *)
Definition artifact_uri_ok (value artifact_id version_id : string) : Res unit :=
  match parse_resource_uri value with
  | inl _ => inl "resource_uri must be a canonical Cortex URI"
  | inr u => check (String.eqb (cu_root u) "artifacts"
                    && bool_decide (cu_segments u = [artifact_id; version_id]))
      "resource_uri must identify this exact artifact version in artifacts"
  end.
Definition artifact_uri_field (artifact_id version_id : string) (v : json) : Res string :=
  match v with
  | JStr s => artifact_uri_ok s artifact_id version_id;; mret s
  | _ => inl "resource_uri must be a canonical Cortex URI"
  end.
Record artifact_version := ArtifactVersion {
  vn_artifact_version_id : string; vn_artifact_id : string; vn_logical_version : Z;
  vn_resource_uri : string; vn_sha256 : string; vn_byte_length : Z; vn_media_type : string;
  vn_parents : list parent_input; vn_provenance : provenance; vn_committed_at : string }.
Definition VERSION_FIELDS : list string :=
  ["schema_version"; "artifact_version_id"; "artifact_id"; "logical_version"; "resource_uri";
   "sha256"; "byte_length"; "media_type"; "parents"; "provenance"; "committed_at"].
Definition version_checks (a : artifact_version) : Res unit :=
  let p := vn_provenance a in
  identifier "artifact_version_id" (JStr (vn_artifact_version_id a));;
  identifier "artifact_id" (JStr (vn_artifact_id a));;
  positive_int "logical_version" (JInt (vn_logical_version a));;
  artifact_uri_ok (vn_resource_uri a) (vn_artifact_id a) (vn_artifact_version_id a);;
  sha256_field "sha256" (JStr (vn_sha256 a));;
  byte_length_field (JInt (vn_byte_length a));;
  media_type_field (JStr (vn_media_type a));;
  validate_parent_tuple (vn_parents a);;
  check (negb (existsb (λ x, String.eqb (pv_artifact_version_id x) (vn_artifact_version_id a))
           (vn_parents a))) "an artifact version cannot parent itself";;
  timestamp_field "committed_at" (JStr (vn_committed_at a));;
  check (bool_decide (pr_parents p = vn_parents a) && String.eqb (pr_sha256 p) (vn_sha256 a)
         && (pr_byte_length p =? vn_byte_length a) && String.eqb (pr_media_type p) (vn_media_type a)
         && String.eqb (pr_committed_at p) (vn_committed_at a))
    "artifact version and provenance inputs disagree".
Definition version_from_dict (v : json) : Res artifact_version :=
  closed_document v VERSION_FIELDS "artifact version";; schema_v1 v "artifact version";;
  artifact_id ← identifier "artifact_id" (field "artifact_id" v);
  version_id ← identifier "artifact_version_id" (field "artifact_version_id" v);
  logical ← positive_int "logical_version" (field "logical_version" v);
  uri ← artifact_uri_field artifact_id version_id (field "resource_uri" v);
  sha256 ← sha256_field "sha256" (field "sha256" v);
  byte_length ← byte_length_field (field "byte_length" v);
  media_type ← media_type_field (field "media_type" v);
  parents ← parse_parent_inputs (field "parents" v);
  p ← provenance_from_dict (field "provenance" v);
  committed_at ← timestamp_field "committed_at" (field "committed_at" v);
  let a := ArtifactVersion version_id artifact_id logical uri sha256 byte_length media_type parents
             p committed_at in
  version_checks a;; mret a.
Definition version_to_dict (a : artifact_version) : json := JObj
  [("schema_version", JInt 1); ("artifact_version_id", JStr (vn_artifact_version_id a));
   ("artifact_id", JStr (vn_artifact_id a)); ("logical_version", JInt (vn_logical_version a));
   ("resource_uri", JStr (vn_resource_uri a)); ("sha256", JStr (vn_sha256 a));
   ("byte_length", JInt (vn_byte_length a)); ("media_type", JStr (vn_media_type a));
   ("parents", parents_json (vn_parents a)); ("provenance", provenance_to_dict (vn_provenance a));
   ("committed_at", JStr (vn_committed_at a))].

(** ** Snapshots *)
Record snapshot_member := SnapshotMember {
  sm_artifact_id : string; sm_artifact_version_id : string; sm_logical_version : Z;
  sm_sha256 : string }.
Definition member_checks (m : snapshot_member) : Res unit :=
  identifier "snapshot artifact_id" (JStr (sm_artifact_id m));;
  identifier "snapshot artifact_version_id" (JStr (sm_artifact_version_id m));;
  positive_int "snapshot logical_version" (JInt (sm_logical_version m));;
  sha256_field "snapshot sha256" (JStr (sm_sha256 m));; mret tt.
Definition member_from_dict (v : json) : Res snapshot_member :=
  closed_document v ["artifact_id"; "artifact_version_id"; "logical_version"; "sha256"]
    "snapshot member";;
  id ← identifier "snapshot artifact_id" (field "artifact_id" v);
  version ← identifier "snapshot artifact_version_id" (field "artifact_version_id" v);
  logical ← positive_int "snapshot logical_version" (field "logical_version" v);
  sha256 ← sha256_field "snapshot sha256" (field "sha256" v);
  let m := SnapshotMember id version logical sha256 in member_checks m;; mret m.
Definition member_to_dict (m : snapshot_member) : json := JObj
  [("artifact_id", JStr (sm_artifact_id m)); ("artifact_version_id", JStr (sm_artifact_version_id m));
   ("logical_version", JInt (sm_logical_version m)); ("sha256", JStr (sm_sha256 m))].
Record snapshot := Snapshot {
  sn_snapshot_id : string; sn_workspace_id : string; sn_name : string;
  sn_members : list snapshot_member; sn_created_at : string }.
Definition SNAPSHOT_FIELDS : list string :=
  ["schema_version"; "snapshot_id"; "workspace_id"; "name"; "members"; "created_at"].
Definition member_le (a b : snapshot_member) : bool :=
  pair_le (sm_artifact_id a, sm_artifact_version_id a) (sm_artifact_id b, sm_artifact_version_id b).
Definition validate_snapshot_members (l : list snapshot_member) : Res unit :=
  check (negb (Nat.eqb (length l) 0)) "snapshot members must be a non-empty immutable tuple";;
  check (bool_decide (NoDup (map sm_artifact_id l)) && bool_decide (NoDup (map sm_artifact_version_id l)))
    "snapshot artifact and version identities must be unique";;
  let order := map (λ m, (sm_artifact_id m, sm_artifact_version_id m)) l in
  check (bool_decide (isort pair_le order = order)) "snapshot members must use canonical order".
Definition snapshot_checks (x : snapshot) : Res unit :=
  identifier "snapshot_id" (JStr (sn_snapshot_id x));;
  identifier "workspace_id" (JStr (sn_workspace_id x));;
  display_text "snapshot name" (JStr (sn_name x));;
  validate_snapshot_members (sn_members x);;
  timestamp_field "created_at" (JStr (sn_created_at x));; mret tt.
Definition snapshot_from_dict (v : json) : Res snapshot :=
  closed_document v SNAPSHOT_FIELDS "snapshot";; schema_v1 v "snapshot";;
  match field "members" v with
  | JArr vs =>
      id ← identifier "snapshot_id" (field "snapshot_id" v);
      workspace ← identifier "workspace_id" (field "workspace_id" v);
      name ← display_text "snapshot name" (field "name" v);
      members ← map_res member_from_dict vs;
      created_at ← timestamp_field "created_at" (field "created_at" v);
      let x := Snapshot id workspace name members created_at in snapshot_checks x;; mret x
  | _ => inl "snapshot members must be a list"
  end.
Definition snapshot_to_dict (x : snapshot) : json := JObj
  [("schema_version", JInt 1); ("snapshot_id", JStr (sn_snapshot_id x));
   ("workspace_id", JStr (sn_workspace_id x)); ("name", JStr (sn_name x));
   ("members", JArr (map member_to_dict (sn_members x))); ("created_at", JStr (sn_created_at x))].

(** ** Materialization requests and results *)

(** [_ROOT_ID_RE] is the pattern of a URI's root. *)
Definition ADMIN_DIRECTORY : string := ".cortex-artifacts-v1".
(** [str.casefold] of the code points up to 255; the fold of U+00B5 is outside them and
    equal to no other. *)
Definition casefold_char (c : ascii) : string :=
  let n := ord c in
  if (65 <=? n) && (n <=? 90) then String (chr (n + 32)) EmptyString
  else if (192 <=? n) && (n <=? 222) && negb (n =? 215) then String (chr (n + 32)) EmptyString
  else if n =? 223 then "ss" else String c EmptyString.
Fixpoint casefold (s : string) : string :=
  match s with EmptyString => EmptyString | String c s' => casefold_char c +:+ casefold s' end.
(** [_relative_segments]. *)
Definition segment_safe (s : string) : bool := nfc s && str_all (λ c, negb (category_c c)) s.
Definition starts_slash (s : string) : bool :=
  match s with String c _ => Ascii.eqb c "/" | EmptyString => false end.
Definition relative_segments (value : string) : Res (list string) :=
  check (negb (String.eqb value "") && (slen value <=? 2000) && negb (starts_slash value)
         && negb (str_has backslash value) && nfc value) "relative_path is not canonical";;
  let segments := split_slash value in
  check (forallb (λ s, negb (String.eqb s "" || in_texts s ["."; ".."])) segments)
    "relative_path contains an unsafe segment";;
  check (match segments with
         | first :: _ => negb (String.eqb (casefold first) (casefold ADMIN_DIRECTORY)) | [] => true
         end) "relative_path enters the private administration area";;
  check (forallb segment_safe segments) "relative_path contains an unsafe segment";;
  mret segments.

Record materialization_request := MaterializationRequest {
  mq_operation_id : string; mq_root_id : string; mq_relative_path : string; mq_sha256 : string;
  mq_byte_length : Z; mq_media_type : string; mq_parents : list parent_input }.
#[export] Instance materialization_request_eq_dec : EqDecision materialization_request.
Proof. solve_decision. Defined.
Definition REQUEST_FIELDS : list string :=
  ["schema_version"; "operation_id"; "root_id"; "relative_path"; "sha256"; "byte_length";
   "media_type"; "parents"].
(** [canonical_parent_dicts] checks the parents again; the checks of [ParentVersionInput]
    were made when it was built. *)
Definition request_checks (r : materialization_request) : Res unit :=
  identifier "operation_id" (JStr (mq_operation_id r));;
  check (root_ok (mq_root_id r)) "root_id is invalid";;
  relative_segments (mq_relative_path r);;
  sha256_field "sha256" (JStr (mq_sha256 r));;
  byte_length_field (JInt (mq_byte_length r));;
  media_type_field (JStr (mq_media_type r));;
  validate_parent_tuple (mq_parents r).
Definition relative_path_field (v : json) : Res string :=
  match v with
  | JStr s => relative_segments s;; mret s
  | _ => inl "relative_path must be text"
  end.
Definition request_from_dict (v : json) : Res materialization_request :=
  closed_document v REQUEST_FIELDS "materialization request";; schema_v1 v "materialization request";;
  root_id ← text_that root_ok "root_id is invalid" (field "root_id" v);
  path ← relative_path_field (field "relative_path" v);
  operation_id ← identifier "operation_id" (field "operation_id" v);
  sha256 ← sha256_field "sha256" (field "sha256" v);
  byte_length ← byte_length_field (field "byte_length" v);
  media_type ← media_type_field (field "media_type" v);
  parents ← parse_parent_inputs (field "parents" v);
  let r := MaterializationRequest operation_id root_id path sha256 byte_length media_type parents in
  request_checks r;; mret r.
Definition request_to_dict (r : materialization_request) : json := JObj
  [("schema_version", JInt 1); ("operation_id", JStr (mq_operation_id r));
   ("root_id", JStr (mq_root_id r)); ("relative_path", JStr (mq_relative_path r));
   ("sha256", JStr (mq_sha256 r)); ("byte_length", JInt (mq_byte_length r));
   ("media_type", JStr (mq_media_type r)); ("parents", parents_json (mq_parents r))].
(** [MaterializedAsset]. *)
Record materialized_asset := MaterializedAsset {
  as_request : materialization_request; as_replayed : bool; as_recovered_from : option string }.
Definition asset_to_dict (a : materialized_asset) : json :=
  match request_to_dict (as_request a) with
  | JObj kvs => JObj (kvs ++ [("replayed", JBool (as_replayed a));
                              ("recovered_from", opt_json (as_recovered_from a))])
  | v => v
  end.
End Unicode.

(** ** What is written reads back *)
Example casefold_example : casefold "A.Cortex" = "a.cortex". Proof. reflexivity. Qed.
