(* ===== verification/ArtifactDocuments.v ===== *)
(** * Artifact documents read back

    A document is accepted exactly when it spells, up to the order of its keys, the
    document of a valid object: [from_dict] after [to_dict] gives the object back, and
    what [from_dict] accepts has the canonical text of the object it answers. *)

From S2P Require Import Prelude PyText Clock Json Schema Store Runs Resources Transport TransportInvariant ArtifactModels.
Open Scope Z_scope.

(** ** Documents as sets of fields *)
Lemma sort_pairs_same l l' :
  NoDup (l.*1) → l ≡ₚ l' → sort_pairs l = sort_pairs l'.
Proof.
  intros Hnd Hp.
  assert (Hs : ∀ m, StronglySorted (λ p q : string * json, str_le p.1 q.1 = true) (sort_pairs m)).
  { intros m. apply isort_sorted; [|by intros ? ? ?; apply str_le_trans].
    intros a b. rewrite !str_le_compare, (String.compare_antisym a.1 b.1).
    by destruct (String.compare b.1 a.1). }
  apply (StronglySorted_unique_strong (λ p q, str_le p.1 q.1 = true)); [|apply Hs..|].
  - intros [k v] [k' v'] Hx Hy H1 H2. rewrite sort_pairs_perm in Hx. rewrite sort_pairs_perm, <- Hp in Hy.
    simpl in *. assert (k = k') as <-.
    { rewrite !str_le_compare, (String.compare_antisym k k') in *.
      destruct (String.compare k' k) eqn:E; try done. by apply str_compare_eq in E. }
    f_equal. apply (assoc_elem k v l Hnd) in Hx. apply (assoc_elem k v' l Hnd) in Hy. congruence.
  - by rewrite !sort_pairs_perm.
Qed.
Definition same_fields (l l' : list (string * json)) : Prop :=
  Forall2 (λ p q, p.1 = q.1 ∧ canon p.2 = canon q.2) l l'.
Lemma canon_fields l l' : same_fields l l' → canon (JObj l) = canon (JObj l').
Proof.
  intros Hl. simpl. do 2 f_equal.
  induction Hl as [|[k v] [k' v'] l l' [Hk Hv] Hl IH]; [done|]. simpl in *. by rewrite Hk, Hv, IH.
Qed.
Lemma closed_fields v fields name u :
  closed_document v fields name = inr u → unique_keys v = true → NoDup fields →
  canon v = canon (JObj (map (λ k, (k, field k v)) fields)).
Proof.
  unfold closed_document. intros Hc Hu Hnd. rgo. destruct v as [| | | | | |kvs]; try done.
  simpl in Hu. apply andb_true_iff in Hu as [Hk _]. apply keys_unique_NoDup in Hk.
  unfold same_keys in Hc. rewrite andb_true_iff, !forallb_forall in Hc. destruct Hc as [H1 H2].
  simpl. f_equal. apply sort_pairs_same; [by rewrite map_pair_fst|].
  apply (Permutation_map (λ p, (p.1, canon p.2))), NoDup_Permutation.
  - by eapply NoDup_fmap_1.
  - apply (NoDup_fmap_1 fst). clear -Hnd. induction Hnd; simpl; [constructor|]. constructor; [|done].
    intros (y & Hy & (z & -> & Hz)%list_elem_of_fmap)%list_elem_of_fmap. simpl in Hy. by subst.
  - intros [k w]. rewrite list_elem_of_fmap. split.
    + intros Hin. exists k. split.
      * f_equal. unfold field. simpl. by rewrite (proj2 (assoc_elem k w kvs Hk) Hin).
      * assert (Hx : In k (object_keys (JObj kvs))).
        { apply list_elem_of_In, list_elem_of_fmap. by exists (k, w). }
        apply H1, existsb_exists in Hx as (y & Hy & ->%String.eqb_eq). by apply list_elem_of_In.
    + intros (y & [= -> ->] & Hy). apply list_elem_of_In, H2, existsb_exists in Hy as (z & Hz & ->%String.eqb_eq).
      apply list_elem_of_In, list_elem_of_fmap in Hz as ([z' w] & -> & Hz). simpl.
      unfold field. simpl. by rewrite (proj2 (assoc_elem z' w kvs Hk) Hz).
Qed.

(** ** The fields *)
Lemma text_that_ok ok message v s : text_that ok message v = inr s ↔ v = JStr s ∧ ok s = true.
Proof.
  unfold text_that. destruct v; try naive_solver.
  rewrite checks_bind. setoid_rewrite checks_passed. setoid_rewrite checks_ret. naive_solver.
Qed.
Lemma int_that_ok ok message v n : int_that ok message v = inr n ↔ v = JInt n ∧ ok n = true.
Proof.
  unfold int_that. destruct v; try naive_solver.
  rewrite checks_bind. setoid_rewrite checks_passed. setoid_rewrite checks_ret. naive_solver.
Qed.
Lemma map_res_ok {A B} (f : A → Res B) l k :
  map_res f l = inr k ↔ Forall2 (λ a b, f a = inr b) l k.
Proof.
  revert k. induction l as [|a l IH]; intros k; simpl.
  - rewrite checks_ret. split; [intros <-; constructor|by inversion 1].
  - rewrite checks_bind. setoid_rewrite checks_bind. setoid_rewrite checks_ret. setoid_rewrite IH. split.
    + intros (b & Hb & bs & Hl & <-). by constructor.
    + inversion 1; subst. eauto 6.
Qed.
(** The names of the checks. *)
Ltac fields :=
  unfold identifier, producer_part, sha256_field, byte_length_field, positive_int, media_type_field,
    timestamp_field, schema_v1 in *.
Ltac rfields :=
  fields; rgo; repeat match goal with
  | H : text_that _ _ _ = inr _ |- _ => apply text_that_ok in H as [? ?]
  | H : int_that _ _ _ = inr _ |- _ => apply int_that_ok in H as [? ?]
  end.
(** [rdo] runs checks that are known to pass. *)
Ltac rdo1 :=
  match goal with
  | |- _ ≫= _ = inr _ => apply checks_bind; eexists; split; [|cbn beta iota]
  | |- check _ _ = inr _ => apply (proj2 (checks_passed _ _ tt)); first [eassumption|reflexivity]
  | |- closed_document _ _ _ = inr _ => apply (proj2 (checks_passed _ _ tt)); reflexivity
  | |- text_that _ _ _ = inr _ => apply text_that_ok; split; [reflexivity|eassumption]
  | |- int_that _ _ _ = inr _ => apply int_that_ok; split; [reflexivity|eassumption]
  | |- mret _ = inr _ => apply checks_ret; reflexivity
  | |- _ = inr _ => eassumption
  end.
Ltac rdo := fields; repeat rdo1.

Ltac same :=
  unfold same_fields; cbn [map app];
  repeat (apply List.Forall2_cons; [split; [reflexivity|cbn [snd]; first [assumption|f_equal; assumption|congruence]]|]);
  apply List.Forall2_nil.

Lemma producer_reads p : producer_checks p = inr tt → producer_from_dict (producer_to_dict p) = inr p.
Proof.
  intros Hp. assert (Hc := Hp). unfold producer_checks in Hc. rfields. simplify_eq.
  destruct p. unfold producer_from_dict. rdo.
Qed.
Lemma producer_accepts v p :
  producer_from_dict v = inr p → unique_keys v = true →
  producer_checks p = inr tt ∧ canon v = canon (producer_to_dict p).
Proof.
  unfold producer_from_dict. intros Hp Hu. apply checks_bind in Hp as (u & Hc & Hp).
  rewrite (closed_fields _ _ _ _ Hc Hu) by (by apply (bool_decide_unpack (NoDup _))).
  rfields. subst. split; [done|]. apply canon_fields.
  same.
Qed.
Lemma parent_reads p : parent_checks p = inr tt → parent_from_dict (parent_to_dict p) = inr p.
Proof.
  intros Hp. assert (Hc := Hp). unfold parent_checks in Hc. rfields. simplify_eq.
  destruct p. unfold parent_from_dict. rdo.
Qed.
Lemma parent_accepts v p :
  parent_from_dict v = inr p → unique_keys v = true →
  parent_checks p = inr tt ∧ canon v = canon (parent_to_dict p).
Proof.
  unfold parent_from_dict. intros Hp Hu. apply checks_bind in Hp as (u & Hc & Hp).
  rewrite (closed_fields _ _ _ _ Hc Hu) by (by apply (bool_decide_unpack (NoDup _))).
  rfields. subst. split; [done|]. apply canon_fields.
  same.
Qed.

(** ** Lists *)
Lemma identifiers_field name vs l :
  map_res (identifier name) vs = inr l ↔ vs = map JStr l ∧ Forall (λ s, artifact_identifier_ok s = true) l.
Proof.
  rewrite map_res_ok. split.
  - induction 1 as [|v s vs l Hv _ [-> IH]]; [by split|]. apply text_that_ok in Hv as [-> Hs].
    split; [done|by constructor].
  - intros [-> Hl]. induction Hl; simpl; constructor; [by apply text_that_ok|done].
Qed.
Lemma tuple_checks values name e u :
  validate_identifier_tuple values name e = inr u →
  Forall (λ s, artifact_identifier_ok s = true) values ∧ ordered_texts e name values = inr u.
Proof.
  unfold validate_identifier_tuple. intros Hv. apply checks_bind in Hv as (l & Hl & Hv). split; [|done].
  apply map_res_ok in Hl. revert Hl. generalize l. clear.
  induction values as [|s values IH]; intros l Hl; constructor.
  - inversion Hl as [|? ? ? ? Hs]; subst. unfold identifier in Hs. by apply text_that_ok in Hs as [[= <-] ?].
  - inversion Hl; subst. by eapply IH.
Qed.
Lemma identifiers_read values name e :
  Forall (λ s, artifact_identifier_ok s = true) values → ordered_texts e name values = inr tt →
  ordered_identifiers (JArr (map JStr values)) name e = inr values.
Proof.
  intros Hf Ho. unfold ordered_identifiers. apply checks_bind. exists values.
  split; [by apply identifiers_field|]. apply checks_bind. by exists tt.
Qed.
Lemma identifiers_accepted v name e l :
  ordered_identifiers v name e = inr l → v = JArr (map JStr l).
Proof.
  unfold ordered_identifiers. destruct v; try done. intros Hv. rgo. subst. by apply identifiers_field in H as [-> _].
Qed.
Definition valid_parents (l : list parent_input) : Prop :=
  Forall (λ p, parent_checks p = inr tt) l ∧ validate_parent_tuple l = inr tt.
Lemma parents_read l : valid_parents l → parse_parent_inputs (parents_json l) = inr l.
Proof.
  intros [Hf Hv]. unfold parse_parent_inputs, parents_json. apply checks_bind. exists tt. split.
  - apply checks_passed. rewrite length_map. unfold validate_parent_tuple in Hv. by rgo.
  - apply checks_bind. exists l. split; [|apply checks_bind; by exists tt].
    apply map_res_ok. clear Hv. induction Hf; constructor; [by apply parent_reads|done].
Qed.
(** Documents of a list, each accepted. *)
Lemma accepts_list {A} (from : json → Res A) (to : A → json) (P : A → Prop) vs l :
  (∀ v a, from v = inr a → unique_keys v = true → P a ∧ canon v = canon (to a)) →
  map_res from vs = inr l → unique_keys (JArr vs) = true →
  Forall P l ∧ canon (JArr vs) = canon (JArr (map to l)).
Proof.
  intros Hfrom Hl Hu. apply map_res_ok in Hl. simpl in *.
  induction Hl as [|v a vs l Hv _ IH]; [by split|]. simpl in Hu. apply andb_true_iff in Hu as [Hv' Hu].
  destruct (Hfrom v a Hv Hv') as [HP Hc]. destruct (IH Hu) as [HF HC]. injection HC as HC.
  split; [by constructor|]. simpl. by rewrite Hc, HC.
Qed.
Lemma parents_accepted v l :
  parse_parent_inputs v = inr l → unique_keys v = true →
  valid_parents l ∧ canon v = canon (parents_json l).
Proof.
  unfold parse_parent_inputs. destruct v; try done. intros Hv Hu. rgo. subst.
  match goal with H : map_res _ _ = _ |- _ =>
    apply (accepts_list _ parent_to_dict (λ p, parent_checks p = inr tt)) in H as [HF HC];
      [|apply parent_accepts|done] end. by repeat split.
Qed.
(** A field of a document has unique keys. *)
Lemma field_unique v k : unique_keys v = true → unique_keys (field k v) = true.
Proof.
  unfold field. destruct v as [| | | | | |kvs]; try done. simpl. rewrite andb_true_iff. intros [_ Hu].
  induction kvs as [|[k' w] kvs IH]; [done|]. simpl in *. apply andb_true_iff in Hu as [Hw Hu].
  destruct (String.eqb k k'); [done|by apply IH].
Qed.

(** ** Provenance *)
Definition valid_provenance (p : provenance) : Prop :=
  provenance_checks p = inr tt ∧ producer_checks (pr_generator p) = inr tt
  ∧ producer_checks (pr_tool p) = inr tt ∧ Forall (λ x, parent_checks x = inr tt) (pr_parents p).
Ltac rdo_more :=
  match goal with
  | |- ordered_identifiers _ _ _ = inr _ => apply identifiers_read; eassumption
  | |- producer_from_dict _ = inr _ => apply producer_reads; eassumption
  | |- schema_number _ = inr _ => reflexivity
  | |- optional_text_field _ = inr _ => reflexivity
  | |- parse_parent_inputs _ = inr _ => apply parents_read; split; eassumption
  end.
Ltac rdoc := fields; repeat first [rdo1|rdo_more].

Lemma provenance_reads p :
  valid_provenance p → provenance_from_dict (provenance_to_dict p) = inr p.
Proof.
  intros (Hc & Hg & Ht & Hp). assert (Hc' := Hc). unfold provenance_checks in Hc. rfields.
  repeat match goal with
  | H : validate_identifier_tuple _ _ _ = inr _ |- _ => apply tuple_checks in H as [? ?]
  end.
  destruct p as [sv run att srcs refs gen tool ps mt bl sha at_ docs ctx]. simpl in *.
  assert (Hsv : sv = 1 ∨ sv = 2) by lia. destruct Hsv as [-> | ->]; simpl in *; rfields; simplify_eq.
  - match goal with H : _ && _ = true |- _ => apply andb_true_iff in H as [?%bool_decide_eq_true ?%bool_decide_eq_true] end.
    simplify_eq. unfold provenance_from_dict. change (is_version_2 _) with false. cbn iota zeta. rdoc.
  - destruct ctx as [ctx|]; [|done]. simplify_eq/=. unfold provenance_from_dict. change (is_version_2 _) with true. cbn iota zeta. rdoc.
Qed.
Ltac accepted :=
  repeat match goal with
  | H : ordered_identifiers _ _ _ = inr _ |- _ => apply identifiers_accepted in H
  | H : producer_from_dict (field _ ?v) = inr _, Hu : unique_keys ?v = true |- _ =>
      apply producer_accepts in H as [? ?]; [|by apply field_unique]
  | H : parse_parent_inputs (field _ ?v) = inr _, Hu : unique_keys ?v = true |- _ =>
      apply parents_accepted in H as [[? ?] ?]; [|by apply field_unique]
  end.
Lemma schema_number_ok v n : schema_number v = inr n → v = JInt n.
Proof. destruct v; simpl; try done. by intros [= ->]. Qed.
Lemma optional_text_field_ok v o : optional_text_field v = inr o → v = opt_json o.
Proof. destruct v; simpl; try done; by intros [= <-]. Qed.
Lemma provenance_accepts v p :
  provenance_from_dict v = inr p → unique_keys v = true →
  valid_provenance p ∧ canon v = canon (provenance_to_dict p).
Proof.
  unfold provenance_from_dict. intros Hp Hu. apply checks_bind in Hp as (u & Hc & Hp).
  rewrite (closed_fields _ _ _ _ Hc Hu) by (destruct (is_version_2 v); by apply (bool_decide_unpack (NoDup _))).
  assert (Hv : ∃ kvs, v = JObj kvs) by (unfold closed_document in Hc; destruct v; naive_solver).
  rfields. accepted.
  match goal with H : schema_number _ = inr _ |- _ => apply schema_number_ok in H as Hn end.
  assert (H24 : is_version_2 v = (x11 =? 2)) by (destruct Hv as [kvs ->]; unfold is_version_2; by rewrite Hn).
  split.
  { subst p. by repeat split. }
  subst p. unfold provenance_to_dict. cbn [pr_schema_version]. rewrite <- H24. apply canon_fields.
  unfold PROVENANCE_FIELDS, DOCUMENT_FIELDS. clear H24 Hc. revert H10 H12.
  destruct (is_version_2 v); intros H10 H12.
  - apply optional_text_field_ok in H12. accepted. same.
  - same.
Qed.

(** ** Versions, snapshots and requests *)
Section Documents.
Context `{UnicodeChecks}.

Definition valid_version (a : artifact_version) : Prop :=
  version_checks a = inr tt ∧ valid_provenance (vn_provenance a)
  ∧ Forall (λ x, parent_checks x = inr tt) (vn_parents a).
Definition valid_snapshot (x : snapshot) : Prop :=
  snapshot_checks x = inr tt ∧ Forall (λ m, member_checks m = inr tt) (sn_members x).
Definition valid_request (r : materialization_request) : Prop :=
  request_checks r = inr tt ∧ Forall (λ x, parent_checks x = inr tt) (mq_parents r).

Lemma schema_v1_ok v name u : schema_v1 v name = inr u → field "schema_version" v = JInt 1.
Proof.
  unfold schema_v1. intros Hs. rgo. destruct (field _ v); try done. apply Z.eqb_eq in Hs. by subst.
Qed.
Lemma uri_field_ok a b v s :
  artifact_uri_field a b v = inr s ↔ v = JStr s ∧ artifact_uri_ok s a b = inr tt.
Proof.
  unfold artifact_uri_field. destruct v; try naive_solver. rewrite checks_bind. setoid_rewrite checks_ret.
  split; [intros ([] & Hu & <-); done|]. intros [[= ->] Hu]. by exists tt.
Qed.
Lemma version_reads a : valid_version a → version_from_dict (version_to_dict a) = inr a.
Proof.
  intros (Hc & Hp & Hps). assert (Hc' := Hc). unfold version_checks in Hc. rfields.
  destruct a as [vid aid lv uri sha bl mt ps p at_]. simpl in *. simplify_eq.
  unfold version_from_dict. rdoc; [by apply (proj2 (uri_field_ok _ _ _ _))|by apply provenance_reads].
Qed.
Lemma version_accepts v a :
  version_from_dict v = inr a → unique_keys v = true →
  valid_version a ∧ canon v = canon (version_to_dict a).
Proof.
  unfold version_from_dict. intros Ha Hu. apply checks_bind in Ha as (u & Hc & Ha).
  rewrite (closed_fields _ _ _ _ Hc Hu) by (by apply (bool_decide_unpack (NoDup _))).
  apply checks_bind in Ha as (u' & Hs & Ha). apply schema_v1_ok in Hs. rfields.
  match goal with H : artifact_uri_field _ _ _ = inr _ |- _ => apply uri_field_ok in H as [? ?] end.
  match goal with H : provenance_from_dict _ = inr _ |- _ =>
    apply provenance_accepts in H as [? ?]; [|by apply field_unique] end.
  accepted. subst. split; [done|]. apply canon_fields. unfold VERSION_FIELDS. same.
Qed.
Definition valid_artifact (a : artifact) : Prop := artifact_checks a = inr tt.
Lemma artifact_reads a : valid_artifact a → artifact_from_dict (artifact_to_dict a) = inr a.
Proof.
  intros Ha. assert (Hc := Ha). unfold valid_artifact, artifact_checks, display_text in Hc. rfields.
  destruct a. simpl in *. simplify_eq. unfold artifact_from_dict, display_text. rdoc.
Qed.
Lemma artifact_accepts v a :
  artifact_from_dict v = inr a → unique_keys v = true →
  valid_artifact a ∧ canon v = canon (artifact_to_dict a).
Proof.
  unfold artifact_from_dict, display_text. intros Ha Hu. apply checks_bind in Ha as (u & Hc & Ha).
  rewrite (closed_fields _ _ _ _ Hc Hu) by (by apply (bool_decide_unpack (NoDup _))).
  apply checks_bind in Ha as (u' & Hs & Ha). apply schema_v1_ok in Hs. rfields.
  subst. split; [done|]. apply canon_fields. unfold ARTIFACT_FIELDS. same.
Qed.
Lemma member_reads m : member_checks m = inr tt → member_from_dict (member_to_dict m) = inr m.
Proof.
  intros Hm. assert (Hc := Hm). unfold member_checks in Hc. rfields. destruct m. simpl in *. simplify_eq.
  unfold member_from_dict. rdoc.
Qed.
Lemma member_accepts v m :
  member_from_dict v = inr m → unique_keys v = true →
  member_checks m = inr tt ∧ canon v = canon (member_to_dict m).
Proof.
  unfold member_from_dict. intros Hm Hu. apply checks_bind in Hm as (u & Hc & Hm).
  rewrite (closed_fields _ _ _ _ Hc Hu) by (by apply (bool_decide_unpack (NoDup _))).
  rfields. subst. split; [done|]. apply canon_fields. same.
Qed.
Lemma snapshot_reads x : valid_snapshot x → snapshot_from_dict (snapshot_to_dict x) = inr x.
Proof.
  intros [Hc Hm]. assert (Hc' := Hc). unfold snapshot_checks, display_text in Hc. rfields.
  destruct x as [id ws name ms at_]. simpl in *. simplify_eq.
  unfold snapshot_from_dict, display_text.
  change (field "members" _) with (JArr (map member_to_dict ms)). cbn iota. rdoc. apply map_res_ok.
  clear -Hm. induction Hm; constructor; [by apply member_reads|done].
Qed.
Lemma snapshot_accepts v x :
  snapshot_from_dict v = inr x → unique_keys v = true →
  valid_snapshot x ∧ canon v = canon (snapshot_to_dict x).
Proof.
  unfold snapshot_from_dict, display_text. intros Hx Hu. apply checks_bind in Hx as (u & Hc & Hx).
  rewrite (closed_fields _ _ _ _ Hc Hu) by (by apply (bool_decide_unpack (NoDup _))).
  apply checks_bind in Hx as (u' & Hs & Hx). apply schema_v1_ok in Hs.
  pose proof (field_unique v "members" Hu) as Hmu.
  destruct (field "members" v) as [| | | | |vs|] eqn:Hms; try done. rfields.
  match goal with H : map_res _ _ = inr _ |- _ =>
    apply (accepts_list _ member_to_dict (λ m, member_checks m = inr tt) _ _ member_accepts) in H as [? Hv];
      [|done] end.
  rewrite <- Hms in Hv. subst. split; [done|]. apply canon_fields. unfold SNAPSHOT_FIELDS. same.
Qed.
Lemma request_reads r : valid_request r → request_from_dict (request_to_dict r) = inr r.
Proof.
  intros [Hc Hp]. assert (Hc' := Hc). unfold request_checks in Hc. rfields.
  destruct r as [op root path sha bl mt ps]. simpl in *. simplify_eq.
  unfold request_from_dict. rdoc. unfold relative_path_field. apply checks_bind. by eexists.
Qed.
Lemma request_accepts v r :
  request_from_dict v = inr r → unique_keys v = true →
  valid_request r ∧ canon v = canon (request_to_dict r).
Proof.
  unfold request_from_dict. intros Hr Hu. apply checks_bind in Hr as (u & Hc & Hr).
  rewrite (closed_fields _ _ _ _ Hc Hu) by (by apply (bool_decide_unpack (NoDup _))).
  apply checks_bind in Hr as (u' & Hs & Hr). apply schema_v1_ok in Hs. rfields.
  match goal with H : relative_path_field ?w = inr ?x |- _ =>
    assert (w = JStr x) by (revert H; destruct w; try done; simpl; intros H; rgo; by subst) end.
  accepted. subst. split; [done|]. apply canon_fields. unfold REQUEST_FIELDS. same.
Qed.

(** The writer and the reader of a kind of document fit each other. *)
Definition round_trips {A} (valid : A → Prop) (to : A → json) (from : json → Res A) : Prop :=
  (∀ a, valid a → from (to a) = inr a) ∧
  (∀ v a, unique_keys v = true → from v = inr a → valid a ∧ json_text v = json_text (to a)).
Lemma round_trips_intro {A} (valid : A → Prop) (to : A → json) (from : json → Res A) :
  (∀ a, valid a → from (to a) = inr a) →
  (∀ v a, from v = inr a → unique_keys v = true → valid a ∧ canon v = canon (to a)) →
  round_trips valid to from.
Proof.
  intros Hr Ha. split; [done|]. intros v a Hu Hv. destruct (Ha v a Hv Hu) as [Hva Hc]. split; [done|].
  unfold json_text, dumps. by rewrite Hc.
Qed.

(** C30: the document of a valid artifact, artifact version, snapshot or materialization request
    is read back as the same object; and a document that is accepted at all, whatever
    the order of its keys, is the one of a valid object, spelled in the same canonical
    text, so that it has the same hash. *)
Theorem artifact_documents_round_trip :
  round_trips valid_artifact artifact_to_dict artifact_from_dict ∧
  round_trips valid_version version_to_dict version_from_dict ∧
  round_trips valid_snapshot snapshot_to_dict snapshot_from_dict ∧
  round_trips valid_request request_to_dict request_from_dict.
Proof.
  split_and!; apply round_trips_intro; eauto using artifact_reads, artifact_accepts, version_reads, version_accepts, snapshot_reads,
    snapshot_accepts, request_reads, request_accepts.
Qed.
End Documents.
