(* ===== verification/Materializer.v ===== *)
(** * The materializer

    [artifacts/materializer.py]: publishing the bytes of an artifact version under an
    asset root, once.  Every operation and every target has a manifest; the bytes are
    staged, the intent to publish is recorded, the staged file is linked under its final
    name without replacing anything, and the staging name is removed.

    The file system is a map of names to nodes and a table of inodes.  A call may die, or
    one of its system calls fail, at any effect ([fate]): a death leaves what was done, a
    write that is cut leaves the given number of bytes.  Loss of what was not synced is
    not modelled, nor is another process: the checks that a file did not change between
    two looks at it hold by themselves, and the locks are free. *)

From Stdlib Require Import Ascii.
From S2P Require Import Prelude PyText Json Schema Store Runs Resources Transport ArtifactModels.
Open Scope Z_scope.

(** SHA-256 in hex, of bytes. *)
Class ByteDigest := { byte_sha256 : string → string }.

(** [MaterializerError], [MaterializationConflict], [IntegrityError], and what the
    operating system raises.  [Killed] is the end of the process, in a write or not. *)
Inductive mexn :=
| MaterializerError (message : string)
| MaterializationConflict (message : string)
| IntegrityError (message : string)
| MValidationError (message : string)
| MFileNotFound | MFileExists | MOSError | MTypeError
| Killed (in_write : bool).

(** ** The file system *)

(** A name is a directory, as its path from the anchor, and an entry in it. *)
Abbreviation path := (list string).
Inductive node := NFile (inode : nat) | NDir (inode : nat) (private : bool) | NLink | NOther.
#[export] Instance node_eq_dec : EqDecision node.
Proof. solve_decision. Defined.
Record inode_row := InodeRow { in_data : string; in_private : bool; in_links : Z }.
Inductive fate := Lives | Dies (n torn : nat) | Fails (n torn : nat).
Record fs := Fs {
  fs_nodes : gmap (path * string) node; fs_inodes : gmap nat inode_row; fs_next : nat;
  fs_fate : fate }.
Abbreviation FS := (M fs mexn).

Definition set_nodes f w := Fs (f (fs_nodes w)) (fs_inodes w) (fs_next w) (fs_fate w).
Definition set_inodes f w := Fs (fs_nodes w) (f (fs_inodes w)) (fs_next w) (fs_fate w).
Definition with_fate (x : fate) (w : fs) : fs := Fs (fs_nodes w) (fs_inodes w) (fs_next w) x.

(** One system call that changes the file system. *)
Definition effect (f : fs → fs) : FS unit := λ w,
  match fs_fate w with
  | Lives => Ok tt (f w)
  | Dies O _ => Err (Killed false) w
  | Dies (S n) t => Ok tt (with_fate (Dies n t) (f w))
  | Fails O _ => Err MOSError (with_fate Lives w)
  | Fails (S n) t => Ok tt (with_fate (Fails n t) (f w))
  end.
Definition append_data (data : string) (r : inode_row) : inode_row :=
  InodeRow (in_data r +:+ data) (in_private r) (in_links r).
(** [_write_all]. *)
Definition write_all (inode : nat) (data : string) : FS unit := λ w,
  let put d := set_inodes (alter (append_data d) inode) w in
  match fs_fate w with
  | Lives => Ok tt (put data)
  | Dies O t => Err (Killed true) (put (str_take t data))
  | Dies (S n) t => Ok tt (with_fate (Dies n t) (put data))
  | Fails O t => Err MOSError (with_fate Lives (put (str_take t data)))
  | Fails (S n) t => Ok tt (with_fate (Fails n t) (put data))
  end.
Definition fsync : FS unit := effect id.
Definition look {A} (f : fs → A) : FS A := gets f.

(** [os.open] with [O_CREAT | O_EXCL] and mode 600, [os.mkdir], [os.link] (which raises
    [FileExistsError] rather than replace), [os.unlink]. *)
Definition create_file (d : path) (name : string) (w : fs) : fs :=
  Fs (<[(d, name) := NFile (fs_next w)]> (fs_nodes w))
    (<[fs_next w := InodeRow "" true 1]> (fs_inodes w)) (S (fs_next w)) (fs_fate w).
Definition open_exclusive (d : path) (name : string) : FS nat :=
  taken ← look (λ w, fs_nodes w !! (d, name));
  ensure (bool_decide (taken = None)) MFileExists;;
  inode ← look fs_next;
  effect (create_file d name);; mret inode.
Definition mkdir (d : path) (name : string) : FS unit :=
  taken ← look (λ w, fs_nodes w !! (d, name));
  ensure (bool_decide (taken = None)) MFileExists;;
  effect (λ w, Fs (<[(d, name) := NDir (fs_next w) true]> (fs_nodes w)) (fs_inodes w)
                 (S (fs_next w)) (fs_fate w)).
Definition count_link (n : Z) (r : inode_row) : inode_row :=
  InodeRow (in_data r) (in_private r) (in_links r + n).
Definition link (d : path) (name : string) (d' : path) (name' : string) : FS unit :=
  source ← look (λ w, fs_nodes w !! (d, name));
  node ← from_option source MFileNotFound;
  taken ← look (λ w, fs_nodes w !! (d', name'));
  ensure (bool_decide (taken = None)) MFileExists;;
  match node with
  | NFile i =>
      effect (λ w, set_inodes (alter (count_link 1) i) (set_nodes (<[(d', name') := NFile i]>) w))
  | NDir _ _ => raise MOSError
  | other => effect (set_nodes (<[(d', name') := other]>))
  end.
Definition unlink (d : path) (name : string) : FS unit :=
  source ← look (λ w, fs_nodes w !! (d, name));
  match source with
  | Some (NFile i) =>
      effect (λ w, set_inodes (alter (count_link (-1)) i) (set_nodes (delete (d, name)) w))
  | Some (NDir _ _) => raise MOSError
  | Some _ => effect (set_nodes (delete (d, name)))
  | None => raise MFileNotFound
  end.

(** Handlers: a death is not an exception. *)
Definition catch {A} (m : FS A) (h : mexn → FS A) : FS A := λ w,
  match m w with
  | Err (Killed b) w' => Err (Killed b) w'
  | Err e w' => h e w'
  | Ok a w' => Ok a w'
  end.
(** [except FileExistsError], [except OSError]: the former is one of the latter. *)
Definition on_file_exists {A} (m h : FS A) : FS A :=
  catch m (λ e, match e with MFileExists => h | _ => raise e end).
Definition on_os_error {A} (m : FS A) (message : string) : FS A :=
  catch m (λ e, match e with
    | MFileExists | MFileNotFound | MOSError => raise (MaterializerError message)
    | _ => raise e
    end).

(** ** Looking at names: [_entry_exists], [_entry_stat], [_require_owner_private] *)
Definition names_in (d : path) (w : fs) : list string :=
  omap (λ x : path * string * node, if bool_decide (x.1.1 = d) then Some x.1.2 else None)
    (map_to_list (fs_nodes w)).
Definition aliases (d : path) (name : string) (w : fs) : list string :=
  List.filter (λ e, String.eqb (casefold e) (casefold name)) (names_in d w).
Definition entry_exists (d : path) (name : string) : FS bool :=
  found ← look (aliases d name);
  ensure (forallb (String.eqb name) found) (MaterializerError "filesystem alias conflicts");;
  mret (in_texts name found).
Definition entry_stat (d : path) (name : string) : FS (option node) :=
  there ← entry_exists d name;
  if there : bool then look (λ w, fs_nodes w !! (d, name)) else mret None.
Definition inode_of (i : nat) : FS inode_row :=
  r ← look (λ w, fs_inodes w !! i); from_option r MOSError.
Definition require_owner_private (b : bool) (label : string) : FS unit :=
  ensure b (MaterializerError (label +:+ " must be owner-private")).

(** [_open_directory]; the directory it opens is a path. *)
Definition open_directory (d : path) (name : string) (create private : bool) : FS path :=
  observed ← entry_stat d name;
  observed ← (match observed with
    | Some n => mret (Some n)
    | None =>
        ensure create (MaterializerError "required directory is missing");;
        on_file_exists (mkdir d name;; fsync) (mret tt);; entry_stat d name
    end);
  match observed with
  | None => raise (MaterializerError "directory disappeared")
  | Some NLink => raise (MaterializerError "directory is a symlink")
  | Some (NDir _ owned) =>
      (if private then require_owner_private owned "directory" else mret tt);;
      mret (d ++ [name])
  | Some _ => raise (MaterializerError "is not a directory")
  end.

(** ** Roots: [AssetRoot], [_open_secure_root] and [FilesystemMaterializer.__init__]

    A file system has one device, so an inode is its number. *)
Record asset_root := AssetRoot { rt_root_id : string; rt_path : path; rt_max_bytes : Z }.
Record registered_root := RegisteredRoot {
  rg_config : asset_root; rg_inode : nat; rg_real_path : path; rg_capability_id : string }.
Fixpoint walk_root (d : path) (parts : list string) : FS (nat * path) :=
  match parts with
  | [] => raise (MaterializerError "asset root path is invalid")
  | part :: rest =>
      observed ← entry_stat d part;
      match observed with
      | None => raise (MaterializerError "asset root ancestor is missing")
      | Some NLink => raise (MaterializerError "asset root has a symlink ancestor")
      | Some (NDir inode owned) =>
          match rest with
          | [] => require_owner_private owned "asset root mode";; mret (inode, d ++ [part])
          | _ => walk_root (d ++ [part]) rest
          end
      | Some _ => raise (MaterializerError "asset root ancestor is not a directory")
      end
  end.
Definition open_secure_root (p : path) : FS (nat * path) :=
  ensure (negb (bool_decide (p = []))) (MaterializerError "asset root path is invalid");;
  ensure (forallb (λ s, negb (in_texts s ["."; ".."])) p)
    (MaterializerError "asset root path contains an unsafe ancestor");;
  walk_root [] p.
Fixpoint path_prefix (a b : path) : bool :=
  match a, b with
  | [], _ => true
  | x :: a', y :: b' => String.eqb x y && path_prefix a' b'
  | _, [] => false
  end.

Section Materializer.
Context `{UnicodeChecks} `{ByteDigest}.

Definition canonical_bytes (v : json) : string := encode (json_text v).
Definition capability_id (inode : nat) : string :=
  byte_sha256 (canonical_bytes (JObj [("device", JInt 1); ("inode", JInt (Z.of_nat inode))])).
Definition register_root (known : list registered_root) (root : asset_root) : FS (list registered_root) :=
  ensure (root_ok (rt_root_id root)) (MValidationError "asset root_id is invalid");;
  ensure (1 <=? rt_max_bytes root)
    (MValidationError "asset root max_bytes must be a positive integer");;
  ensure (forallb (λ x, negb (String.eqb (rt_root_id (rg_config x)) (rt_root_id root))) known)
    (MValidationError "asset root identifiers must be unique");;
  '(inode, real) ← open_secure_root (rt_path root);
  ensure (forallb (λ x, negb (Nat.eqb (rg_inode x) inode)) known)
    (MValidationError "asset root paths must not alias");;
  ensure (forallb (λ x, negb (path_prefix (rg_real_path x) real) && negb (path_prefix real (rg_real_path x)))
            known) (MValidationError "asset root paths must not overlap");;
  mret (known ++ [RegisteredRoot root inode real (capability_id inode)]).
Fixpoint register_roots (known : list registered_root) (roots : list asset_root) :
    FS (list registered_root) :=
  match roots with
  | [] => ensure (negb (Nat.eqb (length known) 0)) (MValidationError "at least one asset root is required");;
          mret known
  | r :: roots' => known' ← register_root known r; register_roots known' roots'
  end.

(** ** Manifests *)
Definition MANIFEST_LIMIT : Z := 64 * 1024.
Definition request_manifest (r : materialization_request) : string :=
  canonical_bytes (JObj [("schema_version", JInt 1); ("request", request_to_dict r)]).
(** [_target_identity]; NFC leaves text of code points up to 255 as it is. *)
Definition target_identity (r : materialization_request) (root : registered_root) : string :=
  byte_sha256 (canonical_bytes (JObj [("root_capability", JStr (rg_capability_id root));
    ("alias_path", JStr (casefold (mq_relative_path r)))])).
Definition target_manifest (r : materialization_request) (root : registered_root) (identity : string) :
    string :=
  canonical_bytes (JObj [("schema_version", JInt 1); ("operation_id", JStr (mq_operation_id r));
    ("root_id", JStr (mq_root_id r)); ("root_capability", JStr (rg_capability_id root));
    ("relative_path", JStr (mq_relative_path r)); ("target_identity", JStr identity);
    ("request_sha256", JStr (byte_sha256 (request_manifest r)))]).

(** [_read_regular]. *)
Definition read_regular (d : path) (name : string) (limit : Z) (single_link : bool) : FS string :=
  observed ← entry_stat d name;
  match observed with
  | None => raise MFileNotFound
  | Some NLink => raise (MaterializerError "file is a symlink")
  | Some (NFile i) =>
      r ← inode_of i;
      ensure (negb single_link || (in_links r =? 1)) (MaterializerError "file has an unsafe link count");;
      require_owner_private (in_private r) "file";;
      ensure (slen (in_data r) <=? limit) (IntegrityError "file exceeds its size limit");;
      mret (in_data r)
  | Some _ => raise (MaterializerError "file is not regular")
  end.
(** [os.stat] without following links, compared as inodes. *)
Definition same_file (d : path) (a b : string) : FS bool :=
  x ← look (λ w, fs_nodes w !! (d, a)); y ← look (λ w, fs_nodes w !! (d, b));
  ensure (bool_decide (is_Some x) && bool_decide (is_Some y)) MFileNotFound;;
  mret (bool_decide (x = y)).
(** [_ensure_manifest]: whether it was there. *)
Definition pending_name (name : string) : string := name +:+ ".new".
Definition settle_manifest (d : path) (name label : string) : FS unit :=
  linked ← same_file d name (pending_name name);
  ensure linked (MaterializationConflict (label +:+ " manifest was replaced concurrently"));;
  unlink d (pending_name name);; fsync;;
  read_regular d name MANIFEST_LIMIT true;; mret tt.
Definition ensure_manifest (d : path) (name expected label : string) : FS bool :=
  let temporary := pending_name name in
  let conflict := MaterializationConflict (label +:+ " manifest conflicts with request") in
  ensure (slen expected <=? MANIFEST_LIMIT)
    (MaterializerError (label +:+ " manifest exceeds the size limit"));;
  final_exists ← entry_exists d name;
  temporary_exists ← entry_exists d temporary;
  if final_exists : bool then
    observed ← read_regular d name MANIFEST_LIMIT false;
    ensure (String.eqb observed expected) conflict;;
    (if temporary_exists : bool then
       pending ← read_regular d temporary MANIFEST_LIMIT false;
       linked ← same_file d name temporary;
       ensure (String.eqb pending expected && linked)
         (MaterializationConflict (label +:+ " manifest has an unknown extra file"));;
       unlink d temporary;; fsync
     else mret tt);;
    read_regular d name MANIFEST_LIMIT true;; mret true
  else
    (if temporary_exists : bool then
       pending ← read_regular d temporary MANIFEST_LIMIT true;
       ensure (String.eqb pending expected) conflict
     else
       inode ← open_exclusive d temporary; write_all inode expected;; fsync);;
    on_file_exists (link d temporary d name)
      (observed ← read_regular d name MANIFEST_LIMIT false;
       ensure (String.eqb observed expected) conflict);;
    fsync;;
    settle_manifest d name label;;
    mret temporary_exists.
(** [_require_manifest]. *)
Definition require_manifest (d : path) (name expected label : string) : FS unit :=
  there ← entry_exists d name;
  ensure there (MaterializationConflict "published target is unowned by this operation");;
  observed ← read_regular d name MANIFEST_LIMIT true;
  ensure (String.eqb observed expected)
    (MaterializationConflict (label +:+ " manifest conflicts with request")).

(** [_open_lock]; an exclusive lock that is always granted. *)
Definition open_lock (d : path) (name : string) : FS unit :=
  entry_exists d name;;
  i ← on_os_error (on_file_exists (open_exclusive d name)
        (existing ← look (λ w, fs_nodes w !! (d, name));
         match existing with
         | Some (NFile i) => mret i
         | Some NOther => raise (MaterializerError "operation lock is not a single regular file")
         | _ => raise MOSError
         end))
      "operation lock is not safely openable";
  r ← inode_of i;
  ensure (in_links r =? 1) (MaterializerError "operation lock is not a single regular file");;
  require_owner_private (in_private r) "operation lock";;
  fsync.

(** ** Content *)
Definition verify_content (d : path) (name : string) (r : materialization_request) (single : bool) :
    FS unit :=
  value ← read_regular d name (mq_byte_length r) single;
  ensure (slen value =? mq_byte_length r)
    (IntegrityError "materialized byte length does not match request");;
  ensure (String.eqb (byte_sha256 value) (mq_sha256 r))
    (IntegrityError "materialized hash does not match request").
Definition dual_node (o : option node) (label : string) : FS (nat * inode_row) :=
  match o with
  | Some (NFile i) => r ← inode_of i; mret (i, r)
  | None => raise (MaterializationConflict "known dual-link publication is incomplete")
  | Some _ => raise (MaterializationConflict "known dual-link publication is not regular")
  end.
Definition verify_dual_link (stage : path) (stage_name : string) (parent : path) (final_name : string)
    (r : materialization_request) : FS unit :=
  s ← entry_stat stage stage_name; f ← entry_stat parent final_name;
  ensure (bool_decide (is_Some s) && bool_decide (is_Some f))
    (MaterializationConflict "known dual-link publication is incomplete");;
  '(i, x) ← dual_node s "staged artifact"; '(j, y) ← dual_node f "final artifact";
  require_owner_private (in_private x) "staged artifact";;
  require_owner_private (in_private y) "final artifact";;
  ensure (Nat.eqb i j && (in_links x =? 2) && (in_links y =? 2))
    (MaterializationConflict "final and staged artifacts are not one known dual-link inode");;
  verify_content stage stage_name r false;;
  verify_content parent final_name r false.

(** The content given: bytes, a stream as what its reads answer ([None] is no bytes), or
    something else.  A stream ends at its first empty chunk. *)
Inductive content := CBytes (data : string) | CStream (chunks : list (option string)) | CInvalid.
Definition chunks_of_content (c : content) : FS (list (option string)) :=
  match c with
  | CBytes data => mret [Some data]
  | CStream chunks => mret chunks
  | CInvalid => raise MTypeError
  end.
(** The loop of [_write_stage]: what it has written, which it has hashed and counted. *)
Fixpoint write_chunks (inode : nat) (written : string) (limit : Z) (chunks : list (option string)) :
    FS string :=
  match chunks with
  | [] | Some EmptyString :: _ => mret written
  | None :: _ => raise MTypeError
  | Some chunk :: chunks' =>
      ensure (slen (written +:+ chunk) <=? limit)
        (IntegrityError "materialized byte length exceeds request");;
      write_all inode chunk;; write_chunks inode (written +:+ chunk) limit chunks'
  end.
(** [except BaseException]: the staged name is removed and the error raised again. *)
Definition or_unstage (d : path) (name : string) (m : FS unit) : FS unit :=
  catch m (λ e,
    catch (unlink d name;; fsync) (λ e', match e' with MFileNotFound => mret tt | _ => raise e' end);;
    raise e).
Definition write_stage (d : path) (name : string) (c : content) (r : materialization_request)
    (max_bytes : Z) : FS unit :=
  inode ← open_exclusive d name;
  or_unstage d name (
    chunks ← chunks_of_content c;
    written ← write_chunks inode "" (Z.min max_bytes (mq_byte_length r)) chunks;
    ensure (slen written =? mq_byte_length r)
      (IntegrityError "materialized byte length does not match request");;
    ensure (String.eqb (byte_sha256 written) (mq_sha256 r))
      (IntegrityError "materialized hash does not match request");;
    fsync);;
  fsync.

(** ** [materialize] *)
Record directories := Directories {
  di_operations : path; di_targets : path; di_staging : path; di_publish : path; di_locks : path }.
Definition operation_name (r : materialization_request) : string := mq_operation_id r +:+ ".json".
Definition stage_name (r : materialization_request) : string := mq_operation_id r +:+ ".part".
Definition settle_existing_final (parent : path) (dirs : directories) (r : materialization_request)
    (final_name target_name op_manifest target_manifest : string)
    (operation_existed target_existed : bool) : FS materialized_asset :=
  ensure (operation_existed && target_existed)
    (MaterializationConflict "published final is unowned by this durable operation");;
  require_manifest (di_targets dirs) target_name target_manifest "target";;
  require_manifest (di_operations dirs) (operation_name r) op_manifest "operation";;
  require_manifest (di_publish dirs) (operation_name r) op_manifest "publish intent";;
  staged ← entry_exists (di_staging dirs) (stage_name r);
  if staged : bool then
    verify_dual_link (di_staging dirs) (stage_name r) parent final_name r;;
    fsync;; unlink (di_staging dirs) (stage_name r);; fsync;;
    verify_content parent final_name r true;;
    mret (MaterializedAsset r true (Some "dual-link"))
  else
    verify_content parent final_name r true;;
    mret (MaterializedAsset r true (Some "final")).
Definition materialize_under_lock (max_bytes : Z) (parent : path) (dirs : directories)
    (r : materialization_request) (c : option content)
    (final_name target_name op_manifest target_manifest : string)
    (operation_existed target_existed : bool) : FS materialized_asset :=
  let settle := settle_existing_final parent dirs r final_name target_name op_manifest
                  target_manifest operation_existed target_existed in
  final ← entry_stat parent final_name;
  match final with
  | Some NLink => raise (MaterializerError "final target is a symlink")
  | Some (NFile _) => settle
  | Some _ => raise (MaterializerError "final target is not a regular file")
  | None =>
      stage_existed ← entry_exists (di_staging dirs) (stage_name r);
      (if stage_existed : bool then
         ensure (operation_existed && target_existed)
           (MaterializationConflict "staged bytes are unknown to this durable operation");;
         verify_content (di_staging dirs) (stage_name r) r true
       else
         match c with
         | None => raise (MaterializerError "matching staged bytes are unavailable")
         | Some c =>
             write_stage (di_staging dirs) (stage_name r) c r max_bytes;;
             verify_content (di_staging dirs) (stage_name r) r true
         end);;
      publish_existed ← ensure_manifest (di_publish dirs) (operation_name r) op_manifest "publish intent";
      linked ← on_os_error (on_file_exists
        (link (di_staging dirs) (stage_name r) parent final_name;; mret true) (mret false))
        "atomic no-replace publication link failed";
      if negb linked then settle
      else
        verify_dual_link (di_staging dirs) (stage_name r) parent final_name r;;
        fsync;; unlink (di_staging dirs) (stage_name r);; fsync;;
        verify_content parent final_name r true;;
        mret (MaterializedAsset r
          (operation_existed || target_existed || stage_existed || publish_existed)
          (if stage_existed then Some "staged" else None))
  end.
(** [_materialize_with_parent]: the directories above the target, made when missing. *)
Fixpoint open_parents (d : path) (segments : list string) : FS path :=
  match segments with
  | [] => mret d
  | s :: segments' => d' ← open_directory d s true true; open_parents d' segments'
  end.
Definition of_checks {A} (x : Res A) : FS A :=
  match x with inl message => raise (MValidationError message) | inr a => mret a end.
Definition materialize (root : registered_root) (r : materialization_request) (c : option content) :
    FS materialized_asset :=
  ensure (String.eqb (rt_root_id (rg_config root)) (mq_root_id r)) (MaterializerError "unknown asset root");;
  ensure (mq_byte_length r <=? rt_max_bytes (rg_config root))
    (MaterializerError "request exceeds the asset root size limit");;
  segments ← of_checks (relative_segments (mq_relative_path r));
  let op_manifest := request_manifest r in
  let identity := target_identity r root in
  let target := target_manifest r root identity in
  ensure ((slen op_manifest <=? MANIFEST_LIMIT) && (slen target <=? MANIFEST_LIMIT))
    (MaterializerError "canonical manifest exceeds the size limit");;
  '(inode, real) ← open_secure_root (rt_path (rg_config root));
  ensure (Nat.eqb inode (rg_inode root) && bool_decide (real = rg_real_path root))
    (MaterializerError "asset root changed during validation");;
  admin ← open_directory real ADMIN_DIRECTORY true true;
  operations ← open_directory admin "operations" true true;
  targets ← open_directory admin "targets" true true;
  staging ← open_directory admin "staging" true true;
  publish ← open_directory admin "publish" true true;
  locks ← open_directory admin "locks" true true;
  open_lock locks ("operation-" +:+ mq_operation_id r +:+ ".lock");;
  open_lock locks ("target-" +:+ identity +:+ ".lock");;
  operation_existed ← ensure_manifest operations (operation_name r) op_manifest "operation";
  target_existed ← ensure_manifest targets (identity +:+ ".json") target "target";
  parent ← open_parents real (removelast segments);
  materialize_under_lock (rt_max_bytes (rg_config root)) parent
    (Directories operations targets staging publish locks) r c (List.last segments "")
    (identity +:+ ".json") op_manifest target operation_existed target_existed.
End Materializer.
