(* ===== verification/MaterializerFacts.v ===== *)
(** * What a call of the materializer changes

    Any call, finished, failed or killed, only adds to the file system, but for the
    temporary names of the administration area. *)

From Stdlib Require Import Ascii.
From S2P Require Import Prelude PyText Json Schema Store Runs Resources Transport ArtifactModels Materializer.
Open Scope Z_scope.

(** ** Growth *)

(** The names a call may take away: temporary manifests and staged bytes. *)
Definition removable (real : path) (x : path * string) : Prop :=
  (∃ area, x.1 = real ++ [ADMIN_DIRECTORY; area]) ∧ ∃ n, x.2 = n +:+ ".new" ∨ x.2 = n +:+ ".part".
Definition inodes_below (w : fs) : Prop := ∀ i, is_Some (fs_inodes w !! i) → (i < fs_next w)%nat.
(** The inodes below [b] keep their bytes, and the names that are not [removable] stay. *)
Definition kept (b : nat) (real : path) (w w' : fs) : Prop :=
  (∀ i r, (i < b)%nat → fs_inodes w !! i = Some r →
     ∃ r', fs_inodes w' !! i = Some r' ∧ in_data r' = in_data r ∧ in_private r' = in_private r) ∧
  (∀ x n, fs_nodes w !! x = Some n → ¬ removable real x → fs_nodes w' !! x = Some n).
Definition grows (b : nat) (real : path) (w w' : fs) : Prop :=
  (b <= fs_next w)%nat → inodes_below w →
  (b <= fs_next w')%nat ∧ inodes_below w' ∧ kept b real w w'.

#[export] Instance kept_preorder b real : PreOrder (kept b real).
Proof.
  split; [intros w; split; eauto|]. intros w1 w2 w3 [Hi Hn] [Hi' Hn']. split; [|eauto].
  intros i r Hb Hr. destruct (Hi i r Hb Hr) as (r2 & Hr2 & Hd & Hp).
  destruct (Hi' i r2 Hb Hr2) as (r3 & Hr3 & Hd3 & Hp3). exists r3. split_and!; congruence.
Qed.
#[export] Instance grows_preorder b real : PreOrder (grows b real).
Proof.
  split; [intros w Hb Hw; split_and!; [done|done|reflexivity]|]. intros w1 w2 w3 H1 H2 Hb Hw.
  destruct (H1 Hb Hw) as (Hb2 & Hw2 & Hk). destruct (H2 Hb2 Hw2) as (Hb3 & Hw3 & Hk').
  split_and!; [done|done|by etrans].
Qed.

Section Growth.
Context (b : nat) (real : path).

Lemma grows_fate x w : grows b real w (with_fate x w).
Proof. intros Hb Hw. split_and!; [done|done|split; eauto]. Qed.
Lemma grows_effect f : (∀ w, grows b real w (f w)) → evolves (grows b real) (effect f).
Proof.
  intros Hf w. unfold effect.
  destruct (fs_fate w) as [|[|n] t|[|n] t]; simpl; try apply Hf; try apply grows_fate; try reflexivity.
  all: etrans; [apply Hf|apply grows_fate].
Qed.
Lemma grows_fsync : evolves (grows b real) fsync.
Proof. apply grows_effect. intros w. reflexivity. Qed.
(** Changing a row of an inode: its bytes only when it is young. *)
Lemma grows_alter f i w :
  ((i < b)%nat → ∀ r, in_data (f r) = in_data r) → (∀ r, in_private (f r) = in_private r) →
  grows b real w (set_inodes (alter f i) w).
Proof.
  intros Hf Hp Hb Hw. split_and!; [done| |split; [|done]].
  - intros j Hj. apply Hw. simpl in Hj. by apply lookup_alter_is_Some in Hj.
  - intros j r Hj Hr. simpl. destruct (decide (i = j)) as [<-|Hne].
    + rewrite lookup_alter_eq, Hr. simpl. eauto.
    + rewrite lookup_alter_ne by done. eauto.
Qed.
Lemma grows_nodes f w :
  (∀ x n, fs_nodes w !! x = Some n → ¬ removable real x → f (fs_nodes w) !! x = Some n) →
  grows b real w (set_nodes f w).
Proof. intros Hf Hb Hw. split_and!; [done|done|split; eauto]. Qed.
Lemma grows_insert d name n w :
  fs_nodes w !! (d, name) = None → grows b real w (set_nodes (<[(d, name) := n]>) w).
Proof.
  intros Hn. apply grows_nodes. intros x m Hx _. rewrite lookup_insert_ne; [done|]. congruence.
Qed.

Lemma grows_catch {A} (m : FS A) h :
  evolves (grows b real) m → (∀ e, evolves (grows b real) (h e)) → evolves (grows b real) (catch m h).
Proof.
  intros Hm Hh w. specialize (Hm w). unfold catch. destruct (m w) as [a w'|e w']; [done|].
  destruct e; try done; (etrans; [exact Hm|apply Hh]).
Qed.
Lemma grows_on_file_exists {A} (m h : FS A) :
  evolves (grows b real) m → evolves (grows b real) h → evolves (grows b real) (on_file_exists m h).
Proof. intros Hm Hh. apply grows_catch; [done|]. intros []; simpl; eauto with evolves typeclass_instances. Qed.
Lemma grows_on_os_error {A} (m : FS A) msg :
  evolves (grows b real) m → evolves (grows b real) (on_os_error m msg).
Proof. intros Hm. apply grows_catch; [done|]. intros []; simpl; eauto with evolves typeclass_instances. Qed.
Lemma grows_write_all i data : (b <= i)%nat → evolves (grows b real) (write_all i data).
Proof.
  intros Hi w. assert (Ha : ∀ d, grows b real w (set_inodes (alter (append_data d) i) w)).
  { intros d. apply grows_alter; [lia|done]. }
  unfold write_all. destruct (fs_fate w) as [|[|n] t|[|n] t]; simpl; try apply Ha;
    (etrans; [apply Ha|apply grows_fate]).
Qed.
Lemma grows_open_exclusive {A} d name (f : nat → FS A) :
  (∀ i, (b <= i)%nat → evolves (grows b real) (f i)) →
  evolves (grows b real) (open_exclusive d name ≫= f).
Proof.
  intros Hf w. destruct (decide (b <= fs_next w)%nat) as [Hb|Hb]; [|intros ?; lia].
  unfold open_exclusive, look, gets, ensure, raise, mbind, M_bind, mret, M_ret. cbn beta iota.
  destruct (bool_decide _) eqn:Hn; [|simpl; reflexivity]. apply bool_decide_eq_true in Hn.
  assert (Hc : grows b real w (create_file d name w)).
  { intros _ Hw. simpl. split_and!; [lia| |split].
    - intros i. simpl. destruct (decide (i = fs_next w)) as [->|Hne]; [lia|].
      rewrite lookup_insert_ne by done. intros Hi%Hw. lia.
    - intros i r Hi Hr. simpl. rewrite lookup_insert_ne by lia. eauto.
    - intros x n Hx _. simpl. rewrite lookup_insert_ne; [done|]. congruence. }
  specialize (Hf (fs_next w) Hb).
  unfold effect. destruct (fs_fate w) as [|[|n] t|[|n] t]; cbn beta iota;
    try reflexivity; try apply grows_fate; (etrans; [exact Hc|]); [apply Hf|..];
    (etrans; [apply grows_fate|apply Hf]).
Qed.
Lemma grows_open d name : evolves (grows b real) (open_exclusive d name).
Proof.
  intros w. pose proof (grows_open_exclusive d name mret) as Hf.
  specialize (Hf (λ i _, evolves_ret _ i) w). unfold mbind, M_bind in Hf.
  by destruct (open_exclusive d name w).
Qed.

(** ** Looking leaves everything as it is *)
Lemma grows_look {A} (m : FS A) : keeps id m → evolves (grows b real) m.
Proof. intros Hm w. specialize (Hm w). unfold id in Hm. rewrite Hm. reflexivity. Qed.
Lemma looks_entry_exists d name : keeps id (entry_exists d name).
Proof. unfold entry_exists, look. eauto with keeps. Qed.
Lemma looks_entry_stat d name : keeps id (entry_stat d name).
Proof.
  unfold entry_stat, look. apply keeps_bind; [apply looks_entry_exists|]. intros []; eauto with keeps.
Qed.
Lemma looks_inode_of i : keeps id (inode_of i).
Proof. unfold inode_of, look. eauto with keeps. Qed.
Lemma looks_same_file d a c : keeps id (same_file d a c).
Proof. unfold same_file, look. eauto with keeps. Qed.
Lemma looks_read_regular d name limit single : keeps id (read_regular d name limit single).
Proof.
  unfold read_regular, require_owner_private. apply keeps_bind; [apply looks_entry_stat|].
  intros [[]|]; eauto 10 using looks_inode_of with keeps.
Qed.
Lemma looks_walk_root parts d : keeps id (walk_root d parts).
Proof.
  revert d. induction parts as [|part rest IH]; intros d; simpl; [apply keeps_raise|].
  apply keeps_bind; [apply looks_entry_stat|]. unfold require_owner_private.
  intros [[]|]; try apply keeps_raise. destruct rest; [eauto with keeps|apply IH].
Qed.
Lemma looks_open_secure_root p : keeps id (open_secure_root p).
Proof. unfold open_secure_root. eauto using looks_walk_root with keeps. Qed.

(** ** The system calls *)
Lemma grows_mkdir d name : evolves (grows b real) (mkdir d name).
Proof.
  intros w. unfold mkdir, look, gets, ensure, mbind, M_bind, mret, M_ret. cbn beta iota.
  destruct (bool_decide _) eqn:Hn; [|simpl; reflexivity]. apply bool_decide_eq_true in Hn.
  assert (Hc : ∀ x, grows b real w (with_fate x (Fs (<[(d, name) := NDir (fs_next w) true]> (fs_nodes w))
    (fs_inodes w) (S (fs_next w)) (fs_fate w)))).
  { intros x Hb Hw. split_and!; simpl; [lia| |split; [eauto|]].
    - intros i Hi. simpl. specialize (Hw i Hi). lia.
    - intros y n Hy _. simpl. rewrite lookup_insert_ne; [done|]. congruence. }
  unfold effect. destruct (fs_fate w) as [|[|n] t|[|n] t] eqn:Hf; simpl; try reflexivity;
    try apply grows_fate; [|apply Hc|apply Hc].
  specialize (Hc Lives). unfold with_fate in Hc. simpl in Hc. by rewrite <- Hf in Hc.
Qed.
Lemma grows_link d name d' name' : evolves (grows b real) (link d name d' name').
Proof.
  intros w. unfold link, look, gets, from_option, ensure, mbind, M_bind, mret, M_ret, raise. cbn beta iota.
  destruct (fs_nodes w !! (d, name)) as [n|]; [|simpl; reflexivity]. cbn beta iota.
  destruct (bool_decide _) eqn:Hn; [|simpl; reflexivity]. apply bool_decide_eq_true in Hn.
  assert (Hc : ∀ n', grows b real w (set_nodes (<[(d', name') := n']>) w)) by (intros n'; by apply grows_insert).
  destruct n as [i| | |]; try (simpl; reflexivity).
  all: unfold effect; destruct (fs_fate w) as [|[|m] t|[|m] t]; cbn beta iota; simpl end_world;
    try reflexivity; try apply grows_fate.
  all: try (etrans; [|apply grows_fate]).
  all: first [apply Hc|etrans; [apply Hc|by apply grows_alter]].
Qed.
Lemma grows_unlink d name : removable real (d, name) → evolves (grows b real) (unlink d name).
Proof.
  intros Hr. unfold unlink, look.
  assert (Hc : ∀ w, grows b real w (set_nodes (delete (d, name)) w)).
  { intros w. apply grows_nodes. intros x n Hx Hnr. rewrite lookup_delete_ne; [done|]. by intros <-. }
  apply evolves_bind; [apply grows_preorder|apply evolves_gets, grows_preorder|].
  intros [[i| | |]|]; try apply evolves_raise, grows_preorder; apply grows_effect; intros w; [|apply Hc..].
  etrans; [apply Hc|by apply grows_alter].
Qed.
End Growth.

(** [growing] follows the structure of a command. *)
Ltac growing_step :=
  cbn beta iota zeta;
  first
  [ assumption
  | apply grows_look; solve [eauto 3 using looks_entry_exists, looks_entry_stat, looks_inode_of,
      looks_same_file, looks_read_regular, looks_open_secure_root with keeps]
  | apply grows_fsync | apply grows_mkdir | apply grows_link
  | apply grows_unlink; solve [eauto]
  | apply grows_on_file_exists | apply grows_on_os_error
  | apply grows_open_exclusive; intros ? ? | apply grows_open
  | apply grows_write_all; assumption
  | apply evolves_raise, grows_preorder | apply evolves_ret, grows_preorder
  | apply evolves_ensure, grows_preorder | apply evolves_from_option, grows_preorder
  | apply evolves_gets, grows_preorder
  | apply evolves_bind; [apply grows_preorder| |intros ?]
  | case_match ].
Ltac growing := repeat growing_step.

Section Calls.
Context `{UnicodeChecks} `{ByteDigest}.
Context (b : nat) (root : registered_root).
Abbreviation real := (rg_real_path root).
Abbreviation area x := (real ++ [ADMIN_DIRECTORY; x]).

Lemma removable_new x name : removable real (area x, pending_name name).
Proof. split; [by exists x|]. exists name. by left. Qed.
Lemma removable_part x r : removable real (area x, stage_name r).
Proof. split; [by exists x|]. exists (mq_operation_id r). by right. Qed.

Lemma grows_open_directory d name create private :
  evolves (grows b real) (open_directory d name create private).
Proof. unfold open_directory, require_owner_private. growing. Qed.
Lemma grows_settle_manifest x name label :
  evolves (grows b real) (settle_manifest (area x) name label).
Proof. unfold settle_manifest. pose proof (removable_new x name). growing. Qed.
Lemma grows_ensure_manifest x name expected label :
  evolves (grows b real) (ensure_manifest (area x) name expected label).
Proof.
  unfold ensure_manifest. pose proof (removable_new x name). pose proof (grows_settle_manifest x name label).
  growing.
Qed.
Lemma looks_require_manifest d name expected label : keeps id (require_manifest d name expected label).
Proof. unfold require_manifest. eauto using looks_entry_exists, looks_read_regular with keeps. Qed.
Lemma grows_open_lock d name : evolves (grows b real) (open_lock d name).
Proof. unfold open_lock, look, require_owner_private. growing. Qed.
Lemma looks_verify_content d name r single : keeps id (verify_content d name r single).
Proof. unfold verify_content. eauto using looks_read_regular with keeps. Qed.
Lemma looks_verify_dual_link d name d' name' r : keeps id (verify_dual_link d name d' name' r).
Proof.
  unfold verify_dual_link, dual_node, require_owner_private.
  apply keeps_bind; [apply looks_entry_stat|intros s]. apply keeps_bind; [apply looks_entry_stat|intros f].
  apply keeps_bind; [apply keeps_ensure|intros _].
  apply keeps_bind; [repeat case_match; eauto using looks_inode_of with keeps|intros [i x]].
  apply keeps_bind; [repeat case_match; eauto using looks_inode_of with keeps|intros [j y]].
  eauto 8 using looks_verify_content with keeps.
Qed.
Lemma grows_write_chunks i written limit chunks :
  (b <= i)%nat → evolves (grows b real) (write_chunks i written limit chunks).
Proof.
  intros Hi. revert written. induction chunks as [|[[|c s]|] chunks IH]; intros written; simpl; growing.
  apply IH.
Qed.
Lemma grows_or_unstage x r m :
  evolves (grows b real) m → evolves (grows b real) (or_unstage (area x) (stage_name r) m).
Proof.
  intros Hm. apply grows_catch; [done|]. intros e. pose proof (removable_part x r).
  apply evolves_bind; [apply grows_preorder| |intros ?; growing].
  apply grows_catch; [growing|intros ?; growing].
Qed.
Lemma grows_write_stage x r c max_bytes :
  evolves (grows b real) (write_stage (area x) (stage_name r) c r max_bytes).
Proof.
  unfold write_stage. apply grows_open_exclusive. intros i Hi.
  apply evolves_bind; [apply grows_preorder| |intros ?; growing].
  apply grows_or_unstage. unfold chunks_of_content. pose proof (λ wr l, grows_write_chunks i wr l).
  apply evolves_bind; [apply grows_preorder|growing|intros chunks].
  apply evolves_bind; [apply grows_preorder|by apply grows_write_chunks|intros ?]. growing.
Qed.
Ltac verifying :=
  repeat first
    [ match goal with Hc : ∀ c, evolves _ _ |- _ => apply Hc end
    | apply grows_look; solve [eauto 3 using looks_require_manifest, looks_verify_dual_link,
        looks_verify_content with keeps]
    | growing_step ].
Lemma grows_settle_existing_final parent x y z l u r final_name target_name om tm e e' :
  evolves (grows b real) (settle_existing_final parent
    (Directories (area x) (area y) (area z) (area l) u) r final_name target_name om tm e e').
Proof.
  unfold settle_existing_final. simpl. pose proof (removable_part z r).
  verifying.
Qed.
Lemma grows_under_lock m parent x y z l u r c final_name target_name om tm e e' :
  evolves (grows b real) (materialize_under_lock m parent
    (Directories (area x) (area y) (area z) (area l) u) r c final_name target_name om tm e e').
Proof.
  unfold materialize_under_lock. cbn [di_operations di_targets di_staging di_publish].
  pose proof (grows_settle_existing_final parent x y z l u r final_name target_name om tm e e') as Hs.
  pose proof (removable_part z r). pose proof (λ c, grows_write_stage z r c m).
  pose proof (grows_ensure_manifest l (operation_name r) om "publish intent").
  verifying.
Qed.
Lemma grows_open_parents segments d : evolves (grows b real) (open_parents d segments).
Proof.
  revert d. induction segments as [|s segments IH]; intros d; simpl; [apply evolves_ret, grows_preorder|].
  apply evolves_bind; [apply grows_preorder|apply grows_open_directory|intros; apply IH].
Qed.

Lemma open_directory_path d name create private w d' w' :
  open_directory d name create private w = Ok d' w' → d' = d ++ [name].
Proof.
  unfold open_directory. intros Ho. apply bind_ok in Ho as (o & w1 & _ & Ho).
  apply bind_ok in Ho as (o' & w2 & _ & Ho).
  destruct o' as [[| | |]|]; try (by rewrite raise_ok in Ho).
  apply bind_ok in Ho as (u & w3 & _ & Ho). by apply ret_ok in Ho as [<- _].
Qed.
Lemma grows_then_open {A} d name create private (f : path → FS A) :
  evolves (grows b real) (f (d ++ [name])) →
  evolves (grows b real) (open_directory d name create private ≫= f).
Proof.
  intros Hf. apply evolves_then; [apply grows_preorder|apply grows_open_directory|].
  intros w d' w' Ho. by rewrite (open_directory_path _ _ _ _ _ _ _ Ho).
Qed.
Lemma grows_then_ensure {A} (c : bool) e (f : FS A) :
  (c = true → evolves (grows b real) f) → evolves (grows b real) (ensure c e;; f).
Proof.
  intros Hf. apply evolves_then; [apply grows_preorder|apply evolves_ensure, grows_preorder|].
  intros w u w' He. apply ensure_ok in He as [Hc _]. by apply Hf.
Qed.
Lemma grows_materialize r c : evolves (grows b real) (materialize root r c).
Proof.
  unfold materialize.
  do 2 (apply grows_then_ensure; intros _).
  apply evolves_bind; [apply grows_preorder|unfold of_checks; growing|intros segments].
  apply grows_then_ensure; intros _.
  apply evolves_bind; [apply grows_preorder|growing|intros [inode real']].
  apply grows_then_ensure. intros [_ ->%bool_decide_eq_true]%andb_true_iff.
  do 6 apply grows_then_open. rewrite <- !app_assoc. cbn [app].
  do 2 (apply evolves_bind; [apply grows_preorder|apply grows_open_lock|intros _]).
  do 2 (apply evolves_bind; [apply grows_preorder|apply grows_ensure_manifest|intros ?]).
  apply evolves_bind; [apply grows_preorder|apply grows_open_parents|intros parent].
  apply grows_under_lock.
Qed.
End Calls.
