(* ===== verification/MaterializerSessions.v ===== *)
(** * Sessions of the materializer

    What a call that answers has put on disk, where it has put it, and what any later
    calls on the registered roots leave as it is. *)

From Stdlib Require Import Ascii.
From S2P Require Import Prelude PyText Json Schema Store Runs Resources Transport TransportInvariant ArtifactModels Materializer MaterializerFacts.
Open Scope Z_scope.

Section Sessions.
Context `{UnicodeChecks} `{ByteDigest}.

(** ** Sessions *)
Record call := Call {
  ca_root : registered_root; ca_request : materialization_request; ca_content : option content;
  ca_fate : fate }.
Definition run_call (x : call) (w : fs) : fs :=
  end_world (materialize (ca_root x) (ca_request x) (ca_content x) (with_fate (ca_fate x) w)).
Definition materialize_session (calls : list call) (w : fs) : fs := fold_left (λ w x, run_call x w) calls w.

(** ** What is on disk after an answer *)
Definition final_place (root : registered_root) (r : materialization_request) : path * string :=
  let segments := split_slash (mq_relative_path r) in
  (rg_real_path root ++ removelast segments, List.last segments "").
(** A private file with these bytes has this name. *)
Definition holds (x : path * string) (ok : string → Prop) (w : fs) : Prop :=
  ∃ i row, fs_nodes w !! x = Some (NFile i) ∧ fs_inodes w !! i = Some row ∧
    in_private row = true ∧ ok (in_data row).
Definition requested_bytes (r : materialization_request) (data : string) : Prop :=
  slen data = mq_byte_length r ∧ byte_sha256 data = mq_sha256 r.

Lemma look_ok {A} (f : fs → A) w a w' : look f w = Ok a w' ↔ a = f w ∧ w' = w.
Proof. apply gets_ok. Qed.
Lemma looks_ok {A} (m : FS A) w a w' : keeps id m → m w = Ok a w' → w' = w.
Proof. intros Hk Hm. exact (keeps_ok id m w a w' Hk Hm). Qed.
Lemma entry_stat_ok d name w n w' :
  entry_stat d name w = Ok (Some n) w' → fs_nodes w !! (d, name) = Some n ∧ w' = w.
Proof.
  intros Hs. assert (w' = w) as -> by (eapply looks_ok; [apply looks_entry_stat|exact Hs]).
  unfold entry_stat in Hs. apply bind_ok in Hs as (there & w1 & He & Hs).
  assert (w1 = w) as -> by (eapply looks_ok; [apply looks_entry_exists|exact He]).
  destruct there; [|by apply ret_ok in Hs as [? _]]. by apply look_ok in Hs as [-> _].
Qed.
Lemma read_regular_ok d name limit single w v w' :
  read_regular d name limit single w = Ok v w' → w' = w ∧ holds (d, name) (eq v) w.
Proof.
  intros Hr. assert (w' = w) as -> by (eapply looks_ok; [apply looks_read_regular|exact Hr]). split; [done|].
  unfold read_regular in Hr. apply bind_ok in Hr as (o & w1 & Hs & Hr).
  destruct o as [[i| | |]|]; try (by rewrite raise_ok in Hr).
  apply entry_stat_ok in Hs as [Hn ->].
  apply bind_ok in Hr as (row & w2 & Hi & Hr). unfold inode_of in Hi.
  apply bind_ok in Hi as (o & w3 & Hl & Hi). apply look_ok in Hl as [-> ->].
  apply from_option_ok in Hi as [Hi ->].
  apply bind_ok in Hr as (u & w4 & He & Hr). apply ensure_ok in He as (_ & _ & ->).
  apply bind_ok in Hr as (u' & w4 & He & Hr). apply ensure_ok in He as (Hp & _ & ->).
  apply bind_ok in Hr as (u'' & w4 & He & Hr). apply ensure_ok in He as (_ & _ & ->).
  apply ret_ok in Hr as [<- _]. by exists i, row.
Qed.
Lemma verify_content_ok d name r single w u w' :
  verify_content d name r single w = Ok u w' → w' = w ∧ holds (d, name) (requested_bytes r) w.
Proof.
  unfold verify_content. intros Hv. apply bind_ok in Hv as (v & w1 & Hr & Hv).
  apply read_regular_ok in Hr as [-> (i & row & Hn & Hi & Hp & ->)].
  apply bind_ok in Hv as (u1 & w1 & He & Hv). apply ensure_ok in He as (Hl & _ & ->).
  apply ensure_ok in Hv as (Hs & _ & ->). split; [done|].
  exists i, row. split_and!; [done..|]. split; [by apply Z.eqb_eq|by apply String.eqb_eq].
Qed.
Lemma settle_ok parent dirs r final_name tn om tm e e' w a w' :
  settle_existing_final parent dirs r final_name tn om tm e e' w = Ok a w' →
  as_request a = r ∧ holds (parent, final_name) (requested_bytes r) w'.
Proof.
  unfold settle_existing_final. intros Hs.
  do 4 apply bind_ok in Hs as (? & ? & _ & Hs). apply bind_ok in Hs as (staged & ? & _ & Hs).
  destruct staged; [do 4 apply bind_ok in Hs as (? & ? & _ & Hs)|];
    apply bind_ok in Hs as (u & w1 & Hv & Hs); apply verify_content_ok in Hv as [-> Hh];
    by apply ret_ok in Hs as [<- <-].
Qed.
Lemma under_lock_ok m parent dirs r c final_name tn om tm e e' w a w' :
  materialize_under_lock m parent dirs r c final_name tn om tm e e' w = Ok a w' →
  as_request a = r ∧ holds (parent, final_name) (requested_bytes r) w'.
Proof.
  unfold materialize_under_lock. intros Hm. apply bind_ok in Hm as (o & w1 & _ & Hm).
  destruct o as [[| | |]|]; try (by rewrite raise_ok in Hm); [by apply settle_ok in Hm|].
  do 3 apply bind_ok in Hm as (? & ? & _ & Hm). apply bind_ok in Hm as (linked & ? & _ & Hm).
  destruct linked; simpl in Hm; [|by apply settle_ok in Hm].
  do 4 apply bind_ok in Hm as (? & ? & _ & Hm).
  apply bind_ok in Hm as (u & w3 & Hv & Hs). apply verify_content_ok in Hv as [-> Hh].
  by apply ret_ok in Hs as [<- <-].
Qed.
Lemma open_parents_path segments d w d' w' :
  open_parents d segments w = Ok d' w' → d' = d ++ segments.
Proof.
  revert d w. induction segments as [|s segments IH]; intros d w Ho; simpl in Ho.
  { apply ret_ok in Ho as [<- _]. by rewrite app_nil_r. }
  apply bind_ok in Ho as (d1 & w1 & Hd & Ho). apply open_directory_path in Hd as ->.
  apply IH in Ho as ->. by rewrite <- app_assoc.
Qed.
Lemma relative_segments_ok value segments :
  relative_segments value = inr segments →
  segments = split_slash value ∧ match segments with first :: _ => first ≠ ADMIN_DIRECTORY | [] => True end.
Proof.
  unfold relative_segments. intros Hs. rgo. subst. split; [done|].
  destruct (split_slash value) as [|s l]; [done|]. intros ->.
  match goal with H : negb (String.eqb _ _) = true |- _ => by rewrite String.eqb_refl in H end.
Qed.
Lemma looks_open_secure_ok p w x w' : open_secure_root p w = Ok x w' → w' = w.
Proof. apply looks_ok, looks_open_secure_root. Qed.
Lemma materialize_ok root r c w a w' :
  materialize root r c w = Ok a w' →
  as_request a = r ∧ holds (final_place root r) (requested_bytes r) w' ∧
  relative_segments (mq_relative_path r) = inr (split_slash (mq_relative_path r)).
Proof.
  unfold materialize. intros Hm. do 2 apply bind_ok in Hm as (? & ? & _ & Hm).
  apply bind_ok in Hm as (segments & ? & Hs & Hm). unfold of_checks in Hs.
  destruct (relative_segments _) as [|segments'] eqn:Hrs; [by rewrite raise_ok in Hs|].
  apply ret_ok in Hs as [<- _]. destruct (relative_segments_ok _ _ Hrs) as [-> _].
  apply bind_ok in Hm as (? & ? & _ & Hm). apply bind_ok in Hm as ([inode real] & ? & _ & Hm).
  apply bind_ok in Hm as (? & ? & He & Hm).
  apply ensure_ok in He as ([_ ->%bool_decide_eq_true]%andb_true_iff & _ & ->).
  do 10 apply bind_ok in Hm as (? & ? & _ & Hm). apply bind_ok in Hm as (parent & ? & Hp & Hm).
  apply open_parents_path in Hp as ->. apply under_lock_ok in Hm as [Ha Hh]. done.
Qed.

(** ** Roots that do not overlap *)
Definition apart (a b : registered_root) : Prop :=
  ¬ rg_real_path a `prefix_of` rg_real_path b ∧ ¬ rg_real_path b `prefix_of` rg_real_path a.
Definition all_apart (roots : list registered_root) : Prop :=
  ∀ a b, a ∈ roots → b ∈ roots → a = b ∨ apart a b.
Lemma path_prefix_spec a b : path_prefix a b = true ↔ a `prefix_of` b.
Proof.
  revert b. induction a as [|s a IH]; intros b; simpl.
  { split; [intros _; apply prefix_nil|done]. }
  destruct b as [|s' b]; [split; [done|intros Hp; by apply prefix_nil_not in Hp]|].
  rewrite andb_true_iff, String.eqb_eq, IH. split.
  - intros [-> Hp]. by apply prefix_cons.
  - intros Hp. split; [by eapply prefix_cons_inv_1|by eapply prefix_cons_inv_2].
Qed.
Lemma register_root_apart known config w roots w' :
  all_apart known → register_root known config w = Ok roots w' → w' = w ∧ all_apart roots.
Proof.
  intros Hk Hr. unfold register_root in Hr.
  do 3 (apply bind_ok in Hr as (? & ? & He & Hr); apply ensure_ok in He as (_ & _ & ->)).
  apply bind_ok in Hr as ([inode real] & ? & Hs & Hr). apply looks_open_secure_ok in Hs as ->.
  apply bind_ok in Hr as (? & ? & He & Hr); apply ensure_ok in He as (_ & _ & ->).
  apply bind_ok in Hr as (? & ? & He & Hr); apply ensure_ok in He as (Hf & _ & ->).
  apply ret_ok in Hr as [<- ->]. split; [done|].
  assert (Hnew : ∀ x, x ∈ known → apart x (RegisteredRoot config inode real (capability_id inode))).
  { intros k Hin. rewrite forallb_forall in Hf. specialize (Hf k). rewrite <- list_elem_of_In in Hf.
    specialize (Hf Hin). apply andb_true_iff in Hf as [H1 H2]. apply negb_true_iff in H1, H2.
    split; simpl; rewrite <- path_prefix_spec; congruence. }
  intros p q [Hp| ->%list_elem_of_singleton]%elem_of_app [Hq| ->%list_elem_of_singleton]%elem_of_app; eauto.
  right. destruct (Hnew q Hq). by split.
Qed.
Lemma register_roots_apart known configs w roots w' :
  all_apart known → register_roots known configs w = Ok roots w' → w' = w ∧ all_apart roots.
Proof.
  revert known w. induction configs as [|config configs IH]; intros known w Hk Hr; simpl in Hr.
  - apply bind_ok in Hr as (? & ? & He & Hr). apply ensure_ok in He as (_ & _ & ->).
    by apply ret_ok in Hr as [<- ->].
  - apply bind_ok in Hr as (known' & w1 & H1 & Hr).
    apply register_root_apart in H1 as [-> Hk']; [|done]. eauto.
Qed.
(** Where a call publishes is not a name of an administration area, of any root. *)
Lemma final_place_stays roots root r root' :
  all_apart roots → root ∈ roots → root' ∈ roots →
  relative_segments (mq_relative_path r) = inr (split_slash (mq_relative_path r)) →
  ¬ removable (rg_real_path root') (final_place root r).
Proof.
  intros Ha Hr Hr' Hs [[area Hp] _]. simpl in Hp. destruct (Ha root root' Hr Hr') as [<-|[Hn Hn']].
  - apply app_inv_head in Hp. apply relative_segments_ok in Hs as [_ Hf].
    destruct (split_slash _) as [|s [|s2 l]]; simpl in Hp; try discriminate. congruence.
  - destruct (prefix_weak_total (rg_real_path root) (rg_real_path root')
      (rg_real_path root ++ removelast (split_slash (mq_relative_path r)))) as [Hc|Hc]; [| |done|done].
    + by eexists.
    + rewrite Hp. by eexists.
Qed.

(** ** Sessions over several roots *)
Definition stays (b : nat) (x : path * string) (w w' : fs) : Prop :=
  (b <= fs_next w)%nat → inodes_below w →
  (b <= fs_next w')%nat ∧ inodes_below w' ∧ ∀ ok, (∀ i, fs_nodes w !! x = Some (NFile i) → (i < b)%nat) →
    holds x ok w → holds x ok w' ∧ (∀ i, fs_nodes w' !! x = Some (NFile i) → (i < b)%nat).
#[export] Instance stays_preorder b x : PreOrder (stays b x).
Proof.
  split; [by intros w Hb Hw; split_and!|]. intros w1 w2 w3 H1 H2 Hb Hw.
  destruct (H1 Hb Hw) as (Hb2 & Hw2 & Hk). destruct (H2 Hb2 Hw2) as (Hb3 & Hw3 & Hk').
  split_and!; [done|done|]. intros ok Hi Hh. destruct (Hk ok Hi Hh) as [Hh2 Hi2]. by apply Hk'.
Qed.
Lemma grows_stays b real x w w' : grows b real w w' → ¬ removable real x → stays b x w w'.
Proof.
  intros Hg Hx Hb Hw. destruct (Hg Hb Hw) as (Hb' & Hw' & Hi & Hn). split_and!; [done|done|].
  intros ok Hlt (i & row & Hxi & Hrow & Hp & Hok). pose proof (Hn x _ Hxi Hx) as Hx'.
  destruct (Hi i row (Hlt i Hxi) Hrow) as (row' & Hrow' & Hd & Hp').
  split; [exists i, row'; rewrite Hd, Hp'; done|]. intros j Hj. apply Hlt. congruence.
Qed.
Lemma run_call_stays b x y w : ¬ removable (rg_real_path (ca_root y)) x → stays b x w (run_call y w).
Proof.
  intros Hx. eapply grows_stays; [|exact Hx]. unfold run_call.
  etrans; [apply grows_fate|apply grows_materialize].
Qed.
Lemma session_stays b x calls w :
  Forall (λ y, ¬ removable (rg_real_path (ca_root y)) x) calls → stays b x w (materialize_session calls w).
Proof.
  intros Hc. revert w. induction Hc as [|y calls Hy _ IH]; intros w; [reflexivity|]. simpl.
  etrans; [|apply IH]. by apply run_call_stays.
Qed.
Lemma session_below calls w : inodes_below w → inodes_below (materialize_session calls w).
Proof.
  revert w. induction calls as [|y calls IH]; intros w Hw; [done|]. simpl. apply IH. unfold run_call.
  assert (Hg : grows 0 (rg_real_path (ca_root y)) w
    (end_world (materialize (ca_root y) (ca_request y) (ca_content y) (with_fate (ca_fate y) w)))).
  { etrans; [apply grows_fate|apply grows_materialize]. }
  by apply Hg; [lia|].
Qed.
Lemma holds_from_now x ok later w :
  inodes_below w → holds x ok w → Forall (λ y, ¬ removable (rg_real_path (ca_root y)) x) later →
  holds x ok (materialize_session later w).
Proof.
  intros Hw Hh Hl. destruct (session_stays (fs_next w) x later w Hl) as (_ & _ & Hs); [lia|done|].
  apply Hs; [|done]. intros i Hi. destruct Hh as (j & row & Hj & Hrow & _).
  apply Hw. exists row. congruence.
Qed.

End Sessions.
