(* ===== verification/MaterializerOwners.v ===== *)
(** * What the manifests of the materializer hold

    A call that answers leaves the manifest of its operation and the one of its target,
    with its request spelled in them; a manifest spells one request. *)

From Stdlib Require Import Ascii.
From S2P Require Import Prelude PyText Json Schema Store Runs Resources Transport TransportInvariant ArtifactModels Materializer MaterializerFacts MaterializerSessions.
Open Scope Z_scope.

(** ** A text is the encoding of one text, a canonical text of one document *)
Definition decode_char (s : string) : option (ascii * string) :=
  match s with
  | String a s' =>
      if ord a <? 128 then Some (a, s')
      else match s' with
           | String b s'' => Some (chr ((ord a - 192) * 64 + (ord b - 128)), s'')
           | EmptyString => None
           end
  | EmptyString => None
  end.
Lemma decode_char_encode c s : decode_char (utf8_char c +:+ s) = Some (c, s).
Proof. destruct c as [[] [] [] [] [] [] [] []]; reflexivity. Qed.
Lemma encode_inj s t : encode s = encode t → s = t.
Proof.
  revert t. induction s as [|c s IH]; intros [|c' t] He; simpl in He; [done|..].
  - pose proof (decode_char_encode c' (encode t)) as Hd. by rewrite <- He in Hd.
  - pose proof (decode_char_encode c (encode s)) as Hd. by rewrite He in Hd.
  - pose proof (decode_char_encode c (encode s)) as Hd. rewrite He, decode_char_encode in Hd.
    injection Hd as -> Ht. f_equal. auto.
Qed.
Lemma canonical_bytes_inj v v' :
  json_ok v = true → json_ok v' = true → canonical_bytes v = canonical_bytes v' → canon v = canon v'.
Proof.
  intros Hv Hv' He%encode_inj. apply (loads_dumps_ok false) in Hv, Hv'. unfold json_text in He.
  rewrite He in Hv. congruence.
Qed.
(** Reading one key of two documents with the same canonical form. *)
Lemma same_key k v v' :
  json_ok v = true → json_ok v' = true → canon v = canon v' → canon <$> jget k v = canon <$> jget k v'.
Proof.
  unfold json_ok. rewrite !andb_true_iff. intros [Hv _] [Hv' _] Hc.
  by rewrite <- !jget_canon, Hc.
Qed.
Lemma parents_ok l : json_ok (parents_json l) = true.
Proof.
  unfold json_ok, parents_json. simpl. rewrite andb_true_iff, !forallb_forall. split.
  all: intros x (p & <- & _)%in_map_iff; reflexivity.
Qed.
Lemma request_ok r : json_ok (request_to_dict r) = true.
Proof.
  pose proof (parents_ok (mq_parents r)) as Hp. unfold json_ok in *. simpl in *.
  apply andb_true_iff in Hp as [-> ->]. done.
Qed.
Lemma manifest_ok v : json_ok (JObj [("schema_version", JInt 1); ("request", v)]) = json_ok v.
Proof. unfold json_ok. simpl. by rewrite !andb_true_r. Qed.
Lemma parents_inj l l' : canon (parents_json l) = canon (parents_json l') → l = l'.
Proof.
  unfold parents_json. simpl. intros [= He]. revert l' He.
  induction l as [|[a s] l IH]; intros [|[a' s'] l'] He; simpl in He; try done.
  injection He as -> -> He. f_equal. auto.
Qed.
Lemma request_canon_inj r r' : canon (request_to_dict r) = canon (request_to_dict r') → r = r'.
Proof.
  intros Hc.
  assert (Hk : ∀ k, canon <$> jget k (request_to_dict r) = canon <$> jget k (request_to_dict r')).
  { intros k. apply same_key; [apply request_ok..|exact Hc]. }
  destruct r as [op root path sha bl mt ps], r' as [op' root' path' sha' bl' mt' ps'].
  pose proof (Hk "operation_id") as H1. pose proof (Hk "root_id") as H2.
  pose proof (Hk "relative_path") as H3. pose proof (Hk "sha256") as H4.
  pose proof (Hk "byte_length") as H5. pose proof (Hk "media_type") as H6.
  pose proof (Hk "parents") as H7. clear Hk Hc. cbn in *.
  injection H1 as ->. injection H2 as ->. injection H3 as ->. injection H4 as ->. injection H5 as ->.
  injection H6 as ->. f_equal. apply parents_inj. cbn. congruence.
Qed.

Section Owners.
Context `{UnicodeChecks} `{ByteDigest}.

Lemma request_manifest_inj r r' : request_manifest r = request_manifest r' → r = r'.
Proof.
  unfold request_manifest. intros Hc%canonical_bytes_inj.
  - apply request_canon_inj. apply (same_key "request") in Hc; [|by rewrite manifest_ok; apply request_ok..].
    by apply (inj Some) in Hc.
  - rewrite manifest_ok. apply request_ok.
  - rewrite manifest_ok. apply request_ok.
Qed.
Lemma target_manifest_inj r r' root root' i i' :
  target_manifest r root i = target_manifest r' root' i' → mq_operation_id r = mq_operation_id r'.
Proof. unfold target_manifest. intros Hc%canonical_bytes_inj; [|reflexivity..]. simpl in Hc. by injection Hc. Qed.

(** ** What a name holds, and what growth leaves of it *)
Lemma grows_holds b real x ok w w' :
  grows b real w w' → b = fs_next w → inodes_below w → ¬ removable real x → holds x ok w → holds x ok w'.
Proof.
  intros Hg -> Hw Hx Hh. destruct (grows_stays _ _ x _ _ Hg Hx) as (_ & _ & Hs); [lia|done|].
  apply Hs; [|done]. intros i Hi. destruct Hh as (j & row & Hj & Hrow & _). apply Hw. exists row. congruence.
Qed.
Lemma holds_same x p q w : holds x (eq p) w → holds x (eq q) w → p = q.
Proof. intros (i & row & Hi & Hr & _ & ->) (j & row' & Hj & Hr' & _ & ->). congruence. Qed.
Lemma effect_ok f w u w' : effect f w = Ok u w' → ∃ x, w' = with_fate x (f w).
Proof.
  unfold effect. destruct (fs_fate w) as [|[|n] t|[|n] t] eqn:Hf; intros [= <-]; eauto.
  exists (fs_fate (f w)). by destruct (f w).
Qed.
Lemma write_all_ok i data w u w' :
  write_all i data w = Ok u w' → ∃ x, w' = with_fate x (set_inodes (alter (append_data data) i) w).
Proof.
  unfold write_all. destruct (fs_fate w) as [|[|n] t|[|n] t] eqn:Hf; intros [= <-]; eauto.
Qed.
Lemma open_exclusive_ok d name w i w' :
  open_exclusive d name w = Ok i w' → ∃ x, i = fs_next w ∧ w' = with_fate x (create_file d name w).
Proof.
  unfold open_exclusive. intros Ho. apply bind_ok in Ho as (? & ? & Hl & Ho). apply look_ok in Hl as [-> ->].
  apply bind_ok in Ho as (? & ? & He & Ho). apply ensure_ok in He as (_ & _ & ->).
  apply bind_ok in Ho as (? & ? & Hl & Ho). apply look_ok in Hl as [-> ->].
  apply bind_ok in Ho as (? & ? & He & Ho). apply effect_ok in He as [ft ->].
  apply ret_ok in Ho as [<- <-]. eauto.
Qed.
(** A file that is made and written holds what was written. *)
Lemma fresh_holds d name data w u w' :
  (inode ← open_exclusive d name; write_all inode data;; fsync) w = Ok u w' →
  holds (d, name) (eq data) w'.
Proof.
  intros Ho. apply bind_ok in Ho as (i & w1 & Ho & Hr). apply open_exclusive_ok in Ho as (ft & -> & ->).
  apply bind_ok in Hr as (? & w2 & Hw & Hr). apply write_all_ok in Hw as [ft2 ->].
  apply effect_ok in Hr as [ft3 ->]. exists (fs_next w), (InodeRow data true 1). simpl. split_and!; [|..|done|done].
  - apply lookup_insert_eq.
  - by rewrite lookup_alter_eq, lookup_insert_eq.
Qed.
Lemma link_holds d name d' name' ok w u w' :
  link d name d' name' w = Ok u w' → holds (d, name) ok w → holds (d', name') ok w'.
Proof.
  unfold link. intros Hl (i & row & Hi & Hr & Hp & Hok).
  apply bind_ok in Hl as (? & ? & He & Hl). apply look_ok in He as [-> ->]. rewrite Hi in Hl.
  apply bind_ok in Hl as (? & ? & He & Hl). apply ret_ok in He as [<- <-].
  apply bind_ok in Hl as (? & ? & He & Hl). apply look_ok in He as [-> ->].
  apply bind_ok in Hl as (? & ? & He & Hl). apply ensure_ok in He as (_ & _ & ->).
  apply effect_ok in Hl as [ft ->]. exists i, (count_link 1 row). simpl. split_and!; [|..|done|done].
  - apply lookup_insert_eq.
  - by rewrite lookup_alter_eq, Hr.
Qed.
Lemma on_file_exists_ok {A} (m h : FS A) w a w' :
  on_file_exists m h w = Ok a w' → m w = Ok a w' ∨ ∃ w1, h w1 = Ok a w'.
Proof.
  unfold on_file_exists, catch. destruct (m w) as [a0 w0|e w0]; [by left|].
  destruct e; intros Hh; try done; right; eauto; by rewrite ?raise_ok in Hh.
Qed.

(** ** Manifests *)
Lemma ensure_manifest_holds root x name expected label w e w' :
  inodes_below w → ¬ removable (rg_real_path root) (rg_real_path root ++ [ADMIN_DIRECTORY; x], name) →
  ensure_manifest (rg_real_path root ++ [ADMIN_DIRECTORY; x]) name expected label w = Ok e w' →
  holds (rg_real_path root ++ [ADMIN_DIRECTORY; x], name) (eq expected) w'.
Proof.
  intros Hw Hx. unfold ensure_manifest. intros Hm.
  apply bind_ok in Hm as (? & ? & He & Hm). apply ensure_ok in He as (_ & _ & ->).
  apply bind_ok in Hm as (final & ? & He & Hm). apply looks_ok in He as ->; [|apply looks_entry_exists].
  apply bind_ok in Hm as (there & ? & He & Hm). apply looks_ok in He as ->; [|apply looks_entry_exists].
  pose proof (removable_new root x name) as Hnew. destruct final.
  - apply bind_ok in Hm as (v & ? & Hr & Hm). apply read_regular_ok in Hr as [-> Hh].
    apply bind_ok in Hm as (? & ? & He & Hm). apply ensure_ok in He as (<-%String.eqb_eq & _ & ->).
    apply bind_ok in Hm as (? & w2 & Hs & Hm).
    assert (Hg : grows (fs_next w) (rg_real_path root) w w2).
    { revert Hs. apply evolves_ok. growing. }
    apply bind_ok in Hm as (? & w3 & Hr & Hm). apply looks_ok in Hr as ->; [|apply looks_read_regular].
    apply ret_ok in Hm as [_ <-]. by eapply grows_holds.
  - apply bind_ok in Hm as (? & w2 & Hp & Hm).
    assert (Hg : grows (fs_next w) (rg_real_path root) w w2).
    { revert Hp. apply evolves_ok. growing. }
    assert (Hw2 : inodes_below w2) by (by apply Hg).
    assert (Hh : holds (rg_real_path root ++ [ADMIN_DIRECTORY; x], pending_name name) (eq expected) w2).
    { clear Hm. destruct there; [|by eapply fresh_holds].
      apply bind_ok in Hp as (v & ? & Hr & Hp). apply read_regular_ok in Hr as [-> Hh].
      by apply ensure_ok in Hp as (<-%String.eqb_eq & _ & ->). }
    apply bind_ok in Hm as (? & w3 & Hl & Hm).
    assert (Hg3 : grows (fs_next w2) (rg_real_path root) w2 w3).
    { revert Hl. apply evolves_ok. growing. }
    assert (Hw3 : inodes_below w3) by (by apply Hg3).
    assert (Hh3 : holds (rg_real_path root ++ [ADMIN_DIRECTORY; x], name) (eq expected) w3).
    { clear Hm. apply on_file_exists_ok in Hl as [Hl|[w4 Hl]]; [by eapply link_holds|].
      apply bind_ok in Hl as (v & ? & Hr & Hl). apply read_regular_ok in Hr as [-> Hh3].
      by apply ensure_ok in Hl as (<-%String.eqb_eq & _ & ->). }
    assert (Hg4 : grows (fs_next w3) (rg_real_path root) w3 w').
    { revert Hm. apply evolves_ok. pose proof (grows_settle_manifest (fs_next w3) root x name label). growing. }
    by eapply grows_holds.
Qed.

(** The names of manifests are never removed. *)
Fixpoint last_char (s : string) : option ascii :=
  match s with
  | EmptyString => None
  | String c EmptyString => Some c
  | String _ s' => last_char s'
  end.
Lemma last_char_app s c t : last_char (s +:+ String c t) = last_char (String c t).
Proof. induction s as [|c' s IH]; [done|]. by destruct s. Qed.
Lemma json_name_stays real d n : ¬ removable real (d, n +:+ ".json").
Proof.
  intros [_ [m [Hm|Hm]]]; apply (f_equal last_char) in Hm; simpl in Hm;
    rewrite !last_char_app in Hm; discriminate.
Qed.
Definition operation_place (root : registered_root) (r : materialization_request) : path * string :=
  (rg_real_path root ++ [ADMIN_DIRECTORY; "operations"], operation_name r).
Definition target_place (root : registered_root) (r : materialization_request) : path * string :=
  (rg_real_path root ++ [ADMIN_DIRECTORY; "targets"], target_identity r root +:+ ".json").
Definition owned (root : registered_root) (r : materialization_request) (w : fs) : Prop :=
  holds (operation_place root r) (eq (request_manifest r)) w ∧
  holds (target_place root r) (eq (target_manifest r root (target_identity r root))) w.
Lemma owned_stays root r w w' real :
  grows (fs_next w) real w w' → inodes_below w → owned root r w → owned root r w'.
Proof.
  intros Hg Hw [Ho Ht]. split; (eapply grows_holds; [exact Hg|done|done|apply json_name_stays|done]).
Qed.
(** One more step of a call that answers. *)
Lemma growing_then {A B} real (m : FS A) (f : A → FS B) w b w' :
  (m ≫= f) w = Ok b w' → evolves (grows 0 real) m → inodes_below w →
  ∃ a w1, m w = Ok a w1 ∧ f a w1 = Ok b w' ∧ inodes_below w1.
Proof.
  intros Hf Hm Hw. apply bind_ok in Hf as (a & w1 & Ha & Hf). exists a, w1. split_and!; [done..|].
  destruct (evolves_ok _ _ _ _ _ Hm Ha) as (_ & ? & _); [simpl; lia|done|done].
Qed.
Lemma directory_then {A} (root : registered_root) d name w (f : path → FS A) a w' :
  (open_directory d name true true ≫= f) w = Ok a w' → inodes_below w →
  ∃ w1, f (d ++ [name]) w1 = Ok a w' ∧ inodes_below w1.
Proof.
  intros Hf Hw. eapply growing_then in Hf as (d' & w1 & Hd & Hf & Hw1);
    [|apply (grows_open_directory 0 root)|done].
  rewrite (open_directory_path _ _ _ _ _ _ _ Hd) in Hf. by exists w1.
Qed.
Lemma materialize_owned root r c w a w' :
  inodes_below w → materialize root r c w = Ok a w' → owned root r w'.
Proof.
  unfold materialize. intros Hw Hm.
  do 2 (eapply (growing_then (rg_real_path root)) in Hm as (? & ? & _ & Hm & Hw'); [|growing|done]; clear Hw; rename Hw' into Hw).
  eapply (growing_then (rg_real_path root)) in Hm as (segments & w1 & _ & Hm & Hw1); [|unfold of_checks; growing|done]. clear Hw.
  eapply (growing_then (rg_real_path root)) in Hm as (? & w2 & _ & Hm & Hw2); [|growing|done]. clear Hw1.
  eapply (growing_then (rg_real_path root)) in Hm as ([inode real] & w3 & _ & Hm & Hw3); [|growing|done]. clear Hw2.
  apply bind_ok in Hm as (? & ? & He & Hm).
  apply ensure_ok in He as ([_ ->%bool_decide_eq_true]%andb_true_iff & _ & ->).
  do 6 (apply (directory_then root) in Hm as (? & Hm & Hw'); [|done]; clear Hw3; rename Hw' into Hw3).
  rewrite <- !app_assoc in Hm. cbn [app] in Hm.
  do 2 (eapply (growing_then (rg_real_path root)) in Hm as (? & ? & _ & Hm & Hw'); [|apply (grows_open_lock 0 root)|done];
        clear Hw3; rename Hw' into Hw3).
  eapply (growing_then (rg_real_path root)) in Hm as (e1 & w4 & Ho & Hm & Hw4); [|apply (grows_ensure_manifest 0 root)|done].
  apply (ensure_manifest_holds root) in Ho; [|done|apply json_name_stays].
  eapply (growing_then (rg_real_path root)) in Hm as (e2 & w5 & Ht & Hm & Hw5); [|apply (grows_ensure_manifest 0 root)|done].
  assert (Hg : grows (fs_next w4) (rg_real_path root) w4 w5).
  { eapply evolves_ok, Ht. apply (grows_ensure_manifest _ root). }
  apply (ensure_manifest_holds root) in Ht; [|done|apply json_name_stays].
  assert (Hown : owned root r w5).
  { split; [|exact Ht]. eapply grows_holds; [exact Hg|done|done|apply json_name_stays|done]. }
  eapply owned_stays; [|exact Hw5|exact Hown].
  refine (evolves_ok _ _ _ _ _ _ Hm).
  apply evolves_bind; [apply grows_preorder|apply grows_open_parents|intros ?; apply grows_under_lock].
Qed.
Lemma session_app calls calls' w :
  materialize_session (calls ++ calls') w = materialize_session calls' (materialize_session calls w).
Proof. apply fold_left_app. Qed.
Lemma owned_session root r calls w :
  inodes_below w → owned root r w → owned root r (materialize_session calls w).
Proof.
  revert w. induction calls as [|y calls IH]; intros w Hw Ho; [done|]. simpl. apply IH.
  - exact (session_below [y] w Hw).
  - eapply (owned_stays _ _ _ _ (rg_real_path (ca_root y))); [|done|done].
    unfold run_call. etrans; [apply grows_fate|apply grows_materialize].
Qed.

Lemma below_fate x w : inodes_below w → inodes_below (with_fate x w).
Proof. exact id. Qed.
Lemma owned_fate root r x w : owned root r w → owned root r (with_fate x w).
Proof. exact id. Qed.
Lemma materialize_below root r c w a w' : inodes_below w → materialize root r c w = Ok a w' → inodes_below w'.
Proof.
  intros Hw Hm. destruct (evolves_ok _ _ _ _ _ (grows_materialize 0 root r c) Hm) as (_ & Hw' & _);
    [simpl; lia|done|done].
Qed.
Lemma owned_later root r root' r' c w a w' :
  inodes_below w → owned root r w → materialize root' r' c w = Ok a w' → owned root r w'.
Proof.
  intros Hw Ho Hm. eapply (owned_stays root r w w' (rg_real_path root')); [|done|done].
  exact (evolves_ok _ _ _ _ _ (grows_materialize (fs_next w) root' r' c) Hm).
Qed.
End Owners.
