(* ===== verification/MaterializerCrash.v ===== *)
(** * A process that dies in the write of a manifest

    What a death inside the first write of a call leaves on disk, that no other call
    touches it, and that the calls of the request are refused from then on. *)

From Stdlib Require Import Ascii.
From S2P Require Import Prelude PyText Json Schema Store Runs Resources Transport TransportInvariant ArtifactModels Materializer MaterializerFacts MaterializerSessions MaterializerOwners.
Open Scope Z_scope.

Section Crash.
Context `{UnicodeChecks} `{ByteDigest}.

(** ** A manifest that was cut

    The process died in the write of a pending manifest: its name is there, the final
    name is not, and its text is no manifest. *)
Definition pending_place (root : registered_root) (r : materialization_request) : path * string :=
  ((operation_place root r).1, pending_name (operation_name r)).
Definition torn (root : registered_root) (r : materialization_request) (w : fs) : Prop :=
  fs_nodes w !! operation_place root r = None ∧
  holds (pending_place root r) (λ data, data ≠ request_manifest r) w.
Definition same_at (x : path * string) (w w' : fs) : Prop := fs_nodes w' !! x = fs_nodes w !! x.
#[export] Instance same_at_preorder x : PreOrder (same_at x).
Proof. split; [done|]. intros w1 w2 w3 H1 H2. unfold same_at in *. congruence. Qed.
Lemma same_effect x f : (∀ w, same_at x w (f w)) → evolves (same_at x) (effect f).
Proof. intros Hf w. unfold effect. destruct (fs_fate w) as [|[|n] t|[|n] t]; try apply Hf; done. Qed.
Lemma same_mkdir x d name : x ≠ (d, name) → evolves (same_at x) (mkdir d name).
Proof.
  intros Hx. unfold mkdir, look. eapply evolves_bind; [apply _|apply evolves_gets; apply _|intros taken].
  eapply evolves_bind; [apply _|apply evolves_ensure; apply _|intros ?]. apply same_effect.
  intros w. unfold same_at. simpl. by rewrite lookup_insert_ne.
Qed.
Lemma same_open x d name : x ≠ (d, name) → evolves (same_at x) (open_exclusive d name).
Proof.
  intros Hx. unfold open_exclusive, look.
  eapply evolves_bind; [apply _|apply evolves_gets; apply _|intros taken].
  eapply evolves_bind; [apply _|apply evolves_ensure; apply _|intros ?].
  eapply evolves_bind; [apply _|apply evolves_gets; apply _|intros inode].
  eapply evolves_bind; [apply _| |intros ?; apply evolves_ret; apply _]. apply same_effect.
  intros w. unfold same_at. simpl. by rewrite lookup_insert_ne.
Qed.
Lemma same_catch {A} x (m : FS A) h :
  evolves (same_at x) m → (∀ e, evolves (same_at x) (h e)) → evolves (same_at x) (catch m h).
Proof.
  intros Hm Hh w. specialize (Hm w). unfold catch. destruct (m w) as [a w'|e w']; [done|].
  destruct e; try done; (etrans; [exact Hm|apply Hh]).
Qed.
Lemma same_look {A} x (m : FS A) : keeps id m → evolves (same_at x) m.
Proof. intros Hm w. specialize (Hm w). unfold id in Hm. by rewrite Hm. Qed.
Ltac same_step :=
  cbn beta iota zeta;
  first
  [ apply same_look; solve [eauto 3 using looks_entry_exists, looks_entry_stat, looks_inode_of,
      looks_read_regular with keeps]
  | apply same_mkdir; assumption | apply same_open; assumption
  | apply same_effect; done
  | apply same_catch; [|intros ?]
  | apply evolves_raise, same_at_preorder | apply evolves_ret, same_at_preorder
  | apply evolves_ensure, same_at_preorder | apply evolves_gets, same_at_preorder
  | apply evolves_bind; [apply same_at_preorder| |intros ?]
  | case_match ].
Lemma same_open_directory x d name create private :
  x ≠ (d, name) → evolves (same_at x) (open_directory d name create private).
Proof. intros Hx. unfold open_directory, require_owner_private, on_file_exists, fsync. repeat same_step. Qed.
Lemma same_open_lock x d name : x ≠ (d, name) → evolves (same_at x) (open_lock d name).
Proof. intros Hx. unfold open_lock, look, require_owner_private, on_file_exists, on_os_error, fsync. repeat same_step. Qed.

Lemma entry_exists_true d name w w' :
  entry_exists d name w = Ok true w' → is_Some (fs_nodes w !! (d, name)).
Proof.
  unfold entry_exists. intros He. apply bind_ok in He as (found & ? & Hl & He). apply look_ok in Hl as [-> ->].
  apply bind_ok in He as (? & ? & Hc & He). apply ret_ok in He as [He _].
  unfold in_texts in He. apply existsb_exists in He as (n & Hn & <-%String.eqb_eq).
  unfold aliases in Hn. apply filter_In in Hn as [Hn _]. apply list_elem_of_In in Hn. unfold names_in in Hn.
  apply list_elem_of_omap in Hn as ([[d' n'] nd] & Hin & Hx). simpl in Hx. case_bool_decide; [|done].
  injection Hx as ->. subst. apply elem_of_map_to_list in Hin. by eexists.
Qed.
Lemma looks_err {A} (m : FS A) w e w' : keeps id m → m w = Err e w' → w' = w.
Proof. intros Hk Hm. specialize (Hk w). rewrite Hm in Hk. exact Hk. Qed.
Lemma bind_look {A B} (m : FS A) (f : A → FS B) w :
  keeps id m → (∀ a, m w = Ok a w → ∃ e, f a w = Err e w) → ∃ e, (m ≫= f) w = Err e w.
Proof.
  intros Hk Hf. unfold mbind, M_bind. destruct (m w) as [a w'|e w'] eqn:Hm.
  - apply (looks_ok m) in Hm as Hw; [|done]. subst. eauto.
  - apply (looks_err m) in Hm as ->; [|done]. eauto.
Qed.
Lemma torn_manifest root r w :
  torn root r w →
  ∃ e, ensure_manifest (operation_place root r).1 (operation_name r) (request_manifest r) "operation" w
       = Err e w.
Proof.
  intros [Hno Hpend]. unfold ensure_manifest. apply bind_look; [apply keeps_ensure|intros _ _].
  apply bind_look; [apply looks_entry_exists|]. intros final Hf. destruct final.
  { apply entry_exists_true in Hf as [n Hn]. unfold operation_place in *. simpl in *. congruence. }
  clear Hf. apply bind_look; [apply looks_entry_exists|]. intros there _.
  cbn iota. set (m := if there then _ else _).
  assert (∃ e, m w = Err e w) as [e He]; [|unfold mbind, M_bind; rewrite He; eauto].
  subst m. destruct there.
  - apply bind_look; [apply looks_read_regular|]. intros v Hv.
    apply read_regular_ok in Hv as [_ (i & row & Hi & Hr & _ & ->)].
    destruct Hpend as (j & row' & Hj & Hr' & _ & Hd). unfold pending_place in Hj.
    assert (row' = row) as -> by congruence. unfold ensure. apply String.eqb_neq in Hd. rewrite Hd. eauto.
  - destruct Hpend as (j & row' & Hj & _). unfold open_exclusive, look, gets, ensure, mbind, M_bind.
    unfold pending_place in Hj. rewrite Hj. simpl. unfold raise. eauto.
Qed.

(** What is published is not in the administration area. *)
Definition sound_path (r : materialization_request) : Prop :=
  relative_segments (mq_relative_path r) = inr (split_slash (mq_relative_path r)).
Lemma final_not_admin root r l n :
  sound_path r → final_place root r ≠ (rg_real_path root ++ ADMIN_DIRECTORY :: l, n) ∧
    final_place root r ≠ (rg_real_path root, ADMIN_DIRECTORY).
Proof.
  intros [_ Hf]%relative_segments_ok. unfold final_place.
  destruct (split_slash _) as [|s segments]; simpl; split; intros Heq; injection Heq as Ed En; try done.
  - by apply app_inv_head in Ed.
  - apply app_inv_head in Ed. destruct segments; [done|]. by injection Ed as -> _.
  - rewrite <- (app_nil_r (rg_real_path root)) in Ed at 2. apply app_inv_head in Ed.
    destruct segments; [done|discriminate].
Qed.

Lemma admin_not_final root r d n :
  sound_path r → (d, n) = (rg_real_path root, ADMIN_DIRECTORY) ∨ d = rg_real_path root ++ [ADMIN_DIRECTORY] →
  final_place root r ≠ (d, n).
Proof. intros Hr [[= -> ->] | ->]; [apply (final_not_admin root r [] "" Hr)|apply (final_not_admin root r [] n Hr)]. Qed.
Lemma of_checks_sound r w segments w' :
  of_checks (relative_segments (mq_relative_path r)) w = Ok segments w' → sound_path r.
Proof.
  unfold of_checks, sound_path. destruct (relative_segments _) as [|l] eqn:Hrs; [by rewrite raise_ok|].
  by destruct (relative_segments_ok _ _ Hrs) as [-> _].
Qed.

(** Every command of a call before that manifest leaves the state torn, and then it fails. *)
Definition still (root : registered_root) (r : materialization_request) (w w' : fs) : Prop :=
  inodes_below w → torn root r w →
  inodes_below w' ∧ torn root r w' ∧ same_at (final_place root r) w w'.
#[export] Instance still_preorder root r : PreOrder (still root r).
Proof.
  split; [intros w Hw Ht; by split_and!|]. intros w1 w2 w3 H1 H2 Hw Ht. destruct (H1 Hw Ht) as (Hw2 & Ht2 & Hs).
  destruct (H2 Hw2 Ht2) as (Hw3 & Ht3 & Hs'). split_and!; [done|done|by etrans].
Qed.
Lemma still_step {A} root r (m : FS A) :
  (∀ b, evolves (grows b (rg_real_path root)) m) →
  (∀ n, evolves (same_at ((operation_place root r).1, n)) m) →
  evolves (same_at (final_place root r)) m → evolves (still root r) m.
Proof.
  intros Hg Hs Hf w Hw [Hno (i & row & Hi & Hr & Hp & Hd)].
  destruct (Hg (fs_next w) w) as (_ & Hw' & Hk & _); [lia|done|]. split; [done|]. split; [|apply Hf].
  pose proof (Hs (operation_name r) w) as H1. pose proof (Hs (pending_name (operation_name r)) w) as H2.
  unfold same_at in *. split; [etrans; [exact H1|exact Hno]|].
  destruct (Hk i row) as (row' & Hr' & Hd' & Hp'); [apply Hw; by eexists|done|].
  exists i, row'. rewrite Hd', Hp'. split_and!; [|done..]. etrans; [exact H2|exact Hi].
Qed.
Definition refuses {A} (root : registered_root) (r : materialization_request) (m : FS A) : Prop :=
  ∀ w, inodes_below w → torn root r w →
    ∃ e w', m w = Err e w' ∧ inodes_below w' ∧ torn root r w' ∧ same_at (final_place root r) w w'.
Lemma refuses_then {A B} root r (m : FS A) (f : A → FS B) :
  evolves (still root r) m → (∀ w a w', m w = Ok a w' → refuses root r (f a)) →
  refuses root r (m ≫= f).
Proof.
  intros Hm Hf w Hw Ht. destruct (Hm w Hw Ht) as (Hw1 & Ht1 & Hs1). unfold mbind, M_bind.
  destruct (m w) as [a w1|e w1] eqn:He; simpl in *; [|by eexists _, _].
  destruct (Hf _ _ _ He w1 Hw1 Ht1) as (e & w2 & -> & Hw2 & Ht2 & Hs2).
  eexists _, _. split_and!; [done..|by etrans].
Qed.
Lemma still_look {A} root r (m : FS A) : keeps id m → evolves (still root r) m.
Proof. intros Hm w. specialize (Hm w). unfold id in Hm. by rewrite Hm. Qed.
Lemma refuses_directory {A} root r d name (f : path → FS A) :
  (length d <= length (rg_real_path root) + 1)%nat → final_place root r ≠ (d, name) →
  refuses root r (f (d ++ [name])) → refuses root r (open_directory d name true true ≫= f).
Proof.
  intros Hd Hn Hf. apply refuses_then.
  - apply still_step; [intros b; apply (grows_open_directory b root)| |by apply same_open_directory].
    intros n. apply same_open_directory. intros Heq. injection Heq as Heq _. apply (f_equal length) in Heq.
    rewrite length_app in Heq. simpl in Heq. lia.
  - intros w d' w' Ho. by rewrite (open_directory_path _ _ _ _ _ _ _ Ho).
Qed.
Lemma refuses_lock {A} root r name (f : FS A) :
  sound_path r → refuses root r f →
  refuses root r (open_lock (rg_real_path root ++ [ADMIN_DIRECTORY; "locks"]) name;; f).
Proof.
  intros Hr Hf. apply refuses_then; [|done].
  apply still_step; [intros b; apply (grows_open_lock b root)| |apply same_open_lock; by apply final_not_admin].
  intros n. apply same_open_lock. intros Heq. injection Heq as Heq _. simpl in Heq.
  apply app_inv_head in Heq. discriminate.
Qed.
Lemma refuses_materialize root r c : refuses root r (materialize root r c).
Proof.
  unfold materialize. do 2 (apply refuses_then; [apply still_look; eauto with keeps|intros _ _ _ _]).
  apply refuses_then; [apply still_look; unfold of_checks; case_match; eauto with keeps|].
  intros w1 segments w2 Hs.
  apply of_checks_sound in Hs as Hr.
  apply refuses_then; [apply still_look; eauto with keeps|intros _ _ _ _].
  apply refuses_then; [apply still_look, looks_open_secure_root|intros _ [inode real] _ _].
  apply refuses_then; [apply still_look; eauto with keeps|].
  intros w3 u w4 He. apply ensure_ok in He as ([_ ->%bool_decide_eq_true]%andb_true_iff & _ & _).
  do 6 (apply refuses_directory; [rewrite ?length_app; simpl; lia|apply admin_not_final; [done|tauto]|]).
  rewrite <- !app_assoc. cbn [app]. do 2 (apply refuses_lock; [done|]).
  intros w Hw Ht. destruct (torn_manifest root r w Ht) as [e He]. exists e, w.
  unfold operation_place in He. simpl in He. unfold mbind at 1, M_bind at 1. by rewrite He.
Qed.

(** ** The names a call may change *)
Lemma same_link x d name d' name' : x ≠ (d', name') → evolves (same_at x) (link d name d' name').
Proof.
  intros Hx. unfold link, look. repeat first [same_step | apply evolves_from_option, same_at_preorder].
  all: apply same_effect; intros w; unfold same_at; simpl; by rewrite lookup_insert_ne.
Qed.
Lemma same_unlink x d name : x ≠ (d, name) → evolves (same_at x) (unlink d name).
Proof.
  intros Hx. unfold unlink, look. repeat same_step.
  all: apply same_effect; intros w; unfold same_at; simpl; by rewrite lookup_delete_ne.
Qed.
Lemma same_write_all x i data : evolves (same_at x) (write_all i data).
Proof. intros w. unfold write_all. by destruct (fs_fate w) as [|[|n] t|[|n] t]. Qed.
Lemma ne_place (x : path * string) d name : x.1 ≠ d → x ≠ (d, name).
Proof. by intros Hx ->. Qed.
Ltac same := repeat first
  [ match goal with Hs : context [evolves (same_at _) _] |- _ => apply Hs end
  | apply same_look; solve [eauto 3 using looks_same_file, looks_require_manifest, looks_verify_dual_link,
      looks_verify_content with keeps]
  | apply same_write_all
  | apply same_link; solve [eauto using ne_place] | apply same_unlink; solve [eauto using ne_place]
  | apply same_open; solve [eauto using ne_place]
  | same_step ].
Lemma same_ensure_manifest x d name expected label :
  x ≠ (d, name) → x ≠ (d, pending_name name) → evolves (same_at x) (ensure_manifest d name expected label).
Proof. intros Hx Hp. unfold ensure_manifest, settle_manifest, on_file_exists, fsync. same. Qed.
Lemma same_write_chunks x i written limit chunks : evolves (same_at x) (write_chunks i written limit chunks).
Proof.
  revert written. induction chunks as [|[[|c s]|] chunks IH]; intros written; simpl; same.
Qed.
Lemma same_write_stage x d name c r m : x.1 ≠ d → evolves (same_at x) (write_stage d name c r m).
Proof.
  intros Hx. pose proof (same_write_chunks x).
  unfold write_stage, or_unstage, chunks_of_content, fsync. same.
Qed.
Lemma same_under_lock x m parent dirs r c final_name tn om tm e e' :
  x.1 ≠ di_staging dirs → x.1 ≠ di_publish dirs → x ≠ (parent, final_name) →
  evolves (same_at x) (materialize_under_lock m parent dirs r c final_name tn om tm e e').
Proof.
  intros Hs Hp Hf. pose proof (λ c n m, same_write_stage x (di_staging dirs) n c r m Hs).
  pose proof (λ n e l, same_ensure_manifest x (di_publish dirs) n e l (ne_place _ _ _ Hp) (ne_place _ _ _ Hp)).
  unfold materialize_under_lock, settle_existing_final, on_os_error, on_file_exists, fsync. same.
Qed.

(** Everything a call may give, take or move: the directories of the administration area
    and what is in them, and the names on the way to the target. *)
Inductive touches (root : registered_root) (r : materialization_request) : path * string → Prop :=
| touches_admin : touches root r (rg_real_path root, ADMIN_DIRECTORY)
| touches_area n : touches root r (rg_real_path root ++ [ADMIN_DIRECTORY], n)
| touches_in area n : area ≠ "operations" → touches root r (rg_real_path root ++ [ADMIN_DIRECTORY; area], n)
| touches_operation : touches root r (operation_place root r)
| touches_pending : touches root r (pending_place root r)
| touches_target l n :
    relative_segments (mq_relative_path r) = inr (split_slash (mq_relative_path r)) →
    l `prefix_of` removelast (split_slash (mq_relative_path r)) → touches root r (rg_real_path root ++ l, n).
Lemma same_then_open {A} x d name create private (f : path → FS A) :
  x ≠ (d, name) → evolves (same_at x) (f (d ++ [name])) →
  evolves (same_at x) (open_directory d name create private ≫= f).
Proof.
  intros Hx Hf. apply evolves_then; [apply same_at_preorder|by apply same_open_directory|].
  intros w d' w' Ho. by rewrite (open_directory_path _ _ _ _ _ _ _ Ho).
Qed.
Lemma same_open_parents x d segments :
  (∀ l n, l `prefix_of` segments → x ≠ (d ++ l, n)) → evolves (same_at x) (open_parents d segments).
Proof.
  revert d. induction segments as [|s segments IH]; intros d Hx; simpl; [apply evolves_ret, same_at_preorder|].
  apply same_then_open.
  - specialize (Hx [] s (prefix_nil _)). by rewrite app_nil_r in Hx.
  - apply IH. intros l n Hl. specialize (Hx (s :: l) n). rewrite <- app_assoc. apply Hx. by apply prefix_cons.
Qed.
Lemma same_materialize x root r c : ¬ touches root r x → evolves (same_at x) (materialize root r c).
Proof.
  intros Hx. assert (Hne : ∀ y, touches root r y → x ≠ y) by (intros y Hy ->; done).
  assert (Hd : ∀ area, area ≠ "operations" → x.1 ≠ rg_real_path root ++ [ADMIN_DIRECTORY; area]).
  { intros area Ha He. destruct x as [d n]. simpl in He. subst. apply Hx. by apply touches_in. }
  unfold materialize.
  do 2 (apply evolves_bind; [apply same_at_preorder|same|intros ?]).
  apply evolves_then; [apply same_at_preorder|unfold of_checks; same|].
  intros w1 segments w2 Hs. unfold of_checks in Hs.
  destruct (relative_segments _) as [|segments'] eqn:Hrs; [by rewrite raise_ok in Hs|].
  apply ret_ok in Hs as [<- _]. destruct (relative_segments_ok _ _ Hrs) as [-> _].
  apply evolves_bind; [apply same_at_preorder|same|intros ?].
  apply evolves_bind; [apply same_at_preorder|apply same_look, looks_open_secure_root|intros [inode real]].
  apply evolves_then; [apply same_at_preorder|same|].
  intros w3 u w4 He. apply ensure_ok in He as ([_ ->%bool_decide_eq_true]%andb_true_iff & _ & _).
  do 6 (apply same_then_open; [apply Hne; constructor|]).
  rewrite <- !app_assoc. cbn [app].
  do 2 (apply evolves_bind; [apply same_at_preorder|apply same_open_lock, ne_place, Hd; discriminate|intros _]).
  apply evolves_bind; [apply same_at_preorder| |intros ?].
  { apply same_ensure_manifest; apply Hne; [apply touches_operation|apply touches_pending]. }
  apply evolves_bind; [apply same_at_preorder| |intros ?].
  { apply same_ensure_manifest; apply ne_place, Hd; discriminate. }
  apply evolves_then; [apply same_at_preorder| |].
  { apply same_open_parents. intros l n Hl. apply Hne. by apply touches_target. }
  intros w5 parent w6 ->%open_parents_path.
  apply same_under_lock; [by apply Hd..|]. apply Hne. by apply touches_target.
Qed.
(** The manifests of operations are touched by the calls of those operations alone. *)
Lemma operations_apart roots root root' r' n :
  all_apart roots → root ∈ roots → root' ∈ roots →
  touches root' r' (rg_real_path root ++ [ADMIN_DIRECTORY; "operations"], n) →
  root' = root ∧ (n = operation_name r' ∨ n = pending_name (operation_name r')).
Proof.
  intros Ha Hr Hr' Ht.
  assert (Hp : ∀ l, rg_real_path root' ++ l = rg_real_path root ++ [ADMIN_DIRECTORY; "operations"] →
    root' = root ∧ l = [ADMIN_DIRECTORY; "operations"]).
  { intros l He. destruct (Ha root root' Hr Hr') as [->|[Hn Hn']]; [split; [done|by eapply app_inv_head]|].
    exfalso. destruct (prefix_weak_total (rg_real_path root) (rg_real_path root')
      (rg_real_path root' ++ l)) as [Hc|Hc]; [rewrite He; by eexists|by eexists|done|done]. }
  remember (rg_real_path root ++ [ADMIN_DIRECTORY; "operations"], n) as x eqn:Ex.
  destruct Ht as [|m|area m Hne| | |l m Hs [k Hk]]; unfold operation_place, pending_place in Ex;
    injection Ex as Ed En; cbn [fst] in Ed.
  - rewrite <- (app_nil_r (rg_real_path root')) in Ed. by apply Hp in Ed as [_ ?].
  - by apply Hp in Ed as [_ ?].
  - apply Hp in Ed as [_ Hl]. injection Hl as Hl. done.
  - apply Hp in Ed as [-> _]. split; [done|by left].
  - apply Hp in Ed as [-> _]. split; [done|by right].
  - apply Hp in Ed as [_ ->]. apply relative_segments_ok in Hs as [_ Hf].
    destruct (split_slash _) as [|s1 [|s2 l2]]; simpl in Hk; try discriminate.
    injection Hk as -> _. done.
Qed.
Lemma length_append_le a t : (String.length t <= String.length (a +:+ t))%nat.
Proof. induction a as [|c a IH]; simpl; lia. Qed.
Lemma app_suffix_inj (a b t : string) : a +:+ t = b +:+ t → a = b.
Proof.
  revert b. induction a as [|c a IH]; intros [|c' b] He; simpl in He; [done|..].
  - apply (f_equal String.length) in He. simpl in He. pose proof (length_append_le b t). lia.
  - apply (f_equal String.length) in He. simpl in He. pose proof (length_append_le a t). lia.
  - injection He as -> He. f_equal. auto.
Qed.
Lemma name_not_pending (a b : string) : a +:+ ".json" ≠ pending_name (b +:+ ".json").
Proof.
  unfold pending_name. intros He. apply (f_equal last_char) in He. by rewrite !last_char_app in He.
Qed.

(** The manifest of a request survives the calls of other operations. *)
Definition other_call (root : registered_root) (r : materialization_request) (y : call) : Prop :=
  ca_root y ≠ root ∨ mq_operation_id (ca_request y) ≠ mq_operation_id r.
Lemma other_untouched roots root r y :
  all_apart roots → root ∈ roots → ca_root y ∈ roots → other_call root r y →
  ¬ touches (ca_root y) (ca_request y) (operation_place root r) ∧
  ¬ touches (ca_root y) (ca_request y) (pending_place root r).
Proof.
  intros Ha Hr Hy Ho. unfold operation_place, pending_place. simpl.
  split; intros Ht; apply (operations_apart roots) in Ht as [Er Hn]; try done;
    (destruct Ho as [?|Ho]; [done|]); apply Ho; unfold operation_name in *; destruct Hn as [Hn|Hn].
  - symmetry. by eapply app_suffix_inj.
  - by apply name_not_pending in Hn.
  - symmetry in Hn. by apply name_not_pending in Hn.
  - symmetry. eapply app_suffix_inj, app_suffix_inj. exact Hn.
Qed.
Lemma torn_other roots root r y w :
  all_apart roots → root ∈ roots → ca_root y ∈ roots → other_call root r y →
  inodes_below w → torn root r w → torn root r (run_call y w).
Proof.
  intros Ha Hr Hy Ho Hw [Hno (i & row & Hi & Hrow & Hp & Hd)].
  destruct (other_untouched roots root r y Ha Hr Hy Ho) as [H1 H2].
  pose proof (same_materialize _ _ _ (ca_content y) H1 (with_fate (ca_fate y) w)) as E1.
  pose proof (same_materialize _ _ _ (ca_content y) H2 (with_fate (ca_fate y) w)) as E2.
  destruct (grows_materialize (fs_next w) (ca_root y) (ca_request y) (ca_content y)
    (with_fate (ca_fate y) w)) as (_ & _ & Hk & _); [simpl; lia|exact Hw|].
  unfold same_at in *. split; [etrans; [exact E1|exact Hno]|].
  destruct (Hk i row) as (row' & Hr' & Hd' & Hp'); [apply Hw; by eexists|exact Hrow|].
  exists i, row'. rewrite Hd', Hp'. split_and!; [|done..]. etrans; [exact E2|exact Hi].
Qed.

(** No later call of the request or of another operation changes that. *)
Lemma torn_session roots root r calls w :
  all_apart roots → root ∈ roots →
  Forall (λ y, ca_root y ∈ roots ∧ (ca_request y = r ∧ ca_root y = root ∨ other_call root r y)) calls →
  inodes_below w → torn root r w →
  inodes_below (materialize_session calls w) ∧ torn root r (materialize_session calls w).
Proof.
  intros Ha Hroot Hc. revert w. induction Hc as [|y calls [Hy Ho] _ IH]; intros w Hw Ht; [done|]. simpl.
  apply IH; [exact (session_below [y] w Hw)|]. destruct Ho as [[<- <-]|Ho]; [|by eapply torn_other].
  destruct (refuses_materialize (ca_root y) (ca_request y) (ca_content y) (with_fate (ca_fate y) w) Hw Ht)
    as (e & w' & He & _ & Ht' & _). unfold run_call. by rewrite He.
Qed.

(** ** A death in a write

    [quiet] commands never die in a write; [dying] is a process that is going to die, its
    last write cut after [k] bytes. *)
Definition quiet {A} (m : FS A) : Prop := ∀ w w', m w ≠ Err (Killed true) w'.
Definition dying (k : nat) (w : fs) : Prop := ∃ n, fs_fate w = Dies n k.
Definition dies_on (k : nat) (w w' : fs) : Prop := dying k w → dying k w'.
#[export] Instance dies_on_preorder k : PreOrder (dies_on k).
Proof. split; unfold dies_on; intros *; auto. Qed.
Lemma quiet_bind {A B} (m : FS A) (f : A → FS B) : quiet m → (∀ a, quiet (f a)) → quiet (m ≫= f).
Proof. intros Hm Hf w w' [?|(a & w1 & _ & ?)]%bind_err; [by eapply Hm|by eapply Hf]. Qed.
Lemma quiet_ret {A} (a : A) : quiet (mret a). Proof. by intros w w'. Qed.
Lemma quiet_raise {A} e : (∀ b, e ≠ Killed b) → quiet (raise e : FS A).
Proof. intros He w w' [= E _]. by eapply He. Qed.
Lemma quiet_ensure b e : (∀ b, e ≠ Killed b) → quiet (ensure b e).
Proof. intros He w w'. unfold ensure. destruct b; [done|by apply quiet_raise]. Qed.
Lemma quiet_from_option {A} (o : option A) e : (∀ b, e ≠ Killed b) → quiet (from_option o e).
Proof. intros He w w'. destruct o; [done|by apply quiet_raise]. Qed.
Lemma quiet_look {A} (f : fs → A) : quiet (look f). Proof. by intros w w'. Qed.
Lemma quiet_effect f : quiet (effect f).
Proof. intros w w'. unfold effect. destruct (fs_fate w) as [|[|n] t|[|n] t]; congruence. Qed.
Lemma quiet_catch {A} (m : FS A) h : quiet m → (∀ e, (∀ b, e ≠ Killed b) → quiet (h e)) → quiet (catch m h).
Proof.
  intros Hm Hh w w' Hc. unfold catch in Hc. specialize (Hm w). destruct (m w) as [a w1|e w1]; [done|].
  destruct e; try (by eapply Hh in Hc). injection Hc as -> _. by eapply Hm.
Qed.
Ltac quieting := repeat (cbn beta iota zeta; first
  [ apply quiet_ret | apply quiet_look | apply quiet_effect
  | apply quiet_raise; solve [done|assumption] | apply quiet_ensure; done | apply quiet_from_option; done
  | apply quiet_catch; [|intros ? ?]
  | apply quiet_bind; [|intros ?]
  | case_match ]).
Lemma dies_effect k f : (∀ w, fs_fate (f w) = fs_fate w) → evolves (dies_on k) (effect f).
Proof.
  intros Hf w [n Hn]. unfold effect, dying. rewrite Hn. destruct n; simpl; eauto.
Qed.
Lemma dies_catch {A} k (m : FS A) h :
  evolves (dies_on k) m → (∀ e, evolves (dies_on k) (h e)) → evolves (dies_on k) (catch m h).
Proof.
  intros Hm Hh w. specialize (Hm w). unfold catch. destruct (m w) as [a w'|e w']; [done|].
  destruct e; try done; (etrans; [exact Hm|apply Hh]).
Qed.
Ltac dying := repeat (cbn beta iota zeta; first
  [ apply dies_effect; done
  | apply evolves_ret, dies_on_preorder | apply evolves_raise, dies_on_preorder
  | apply evolves_gets, dies_on_preorder | apply evolves_ensure, dies_on_preorder
  | apply evolves_from_option, dies_on_preorder
  | apply dies_catch; [|intros ?]
  | apply evolves_bind; [apply dies_on_preorder| |intros ?]
  | case_match ]).
Lemma quiet_open_directory d name c p : quiet (open_directory d name c p).
Proof.
  unfold open_directory, entry_stat, entry_exists, require_owner_private, on_file_exists, mkdir, fsync. quieting.
Qed.
Lemma dies_open_directory k d name c p : evolves (dies_on k) (open_directory d name c p).
Proof.
  unfold open_directory, entry_stat, entry_exists, require_owner_private, on_file_exists, mkdir, fsync, look. dying.
Qed.
Lemma quiet_open_secure_root p : quiet (open_secure_root p).
Proof.
  unfold open_secure_root. apply quiet_bind; [by apply quiet_ensure|intros _].
  apply quiet_bind; [by apply quiet_ensure|intros _]. generalize (@nil string) as d.
  induction p as [|part rest IH]; intros d; simpl; [by apply quiet_raise|].
  apply quiet_bind; [unfold entry_stat, entry_exists; quieting|].
  intros [[]|]; try (by apply quiet_raise). destruct rest; [unfold require_owner_private; quieting|apply IH].
Qed.
Lemma quiet_open_lock d name : quiet (open_lock d name).
Proof.
  unfold open_lock, entry_exists, require_owner_private, on_os_error, on_file_exists, open_exclusive, inode_of, fsync.
  quieting.
Qed.
Lemma dies_open_lock k d name : evolves (dies_on k) (open_lock d name).
Proof.
  unfold open_lock, entry_exists, require_owner_private, on_os_error, on_file_exists, open_exclusive, inode_of, fsync,
    look. dying.
Qed.
Lemma quiet_read_regular d name limit single : quiet (read_regular d name limit single).
Proof.
  unfold read_regular, entry_stat, entry_exists, require_owner_private, inode_of. quieting.
Qed.
Lemma quiet_link d name d' name' : quiet (link d name d' name').
Proof. unfold link. quieting. Qed.
Lemma quiet_unlink d name : quiet (unlink d name).
Proof. unfold unlink. quieting. Qed.
Lemma quiet_settle_manifest d name label : quiet (settle_manifest d name label).
Proof.
  pose proof quiet_unlink. pose proof quiet_read_regular.
  unfold settle_manifest, same_file, fsync. repeat first [match goal with Hq : ∀ d, _ |- _ => apply Hq end|progress quieting].
Qed.

(** A call that finds no manifest of its operation, and will die. *)
Record doomed (root : registered_root) (r : materialization_request) (k : nat) (w : fs) : Prop := {
  do_below : inodes_below w; do_dying : dying k w;
  do_final : fs_nodes w !! operation_place root r = None;
  do_pending : fs_nodes w !! pending_place root r = None }.
Definition tears {A} (root : registered_root) (r : materialization_request) (k : nat) (m : FS A) : Prop :=
  ∀ w w1, doomed root r k w → m w = Err (Killed true) w1 →
    fs_nodes w1 !! operation_place root r = None →
    torn root r w1 ∧ same_at (final_place root r) w w1.
Lemma tears_then {A B} root r k (m : FS A) (f : A → FS B) :
  quiet m → (∀ w, doomed root r k w → doomed root r k (end_world (m w))) →
  evolves (same_at (final_place root r)) m →
  (∀ w a w', m w = Ok a w' → tears root r k (f a)) → tears root r k (m ≫= f).
Proof.
  intros Hq Hm Hs Hf w w1 Hd [Hk|(a & w2 & Ha & Hk)]%bind_err Hn; [by apply Hq in Hk|].
  specialize (Hm w Hd). specialize (Hs w). rewrite Ha in Hm, Hs.
  destruct (Hf _ _ _ Ha w2 w1 Hm Hk Hn) as [Ht Hs']. split; [done|by etrans].
Qed.
Lemma doomed_step {A} root r k (m : FS A) w :
  (∀ b, evolves (grows b (rg_real_path root)) m) → evolves (dies_on k) m →
  (∀ n, evolves (same_at ((operation_place root r).1, n)) m) →
  doomed root r k w → doomed root r k (end_world (m w)).
Proof.
  intros Hg Hk Hs [Hw Hd Hn Hp]. split; [|by apply Hk|..].
  - by apply (Hg 0%nat w); [lia|].
  - etrans; [apply (Hs (operation_name r) w)|exact Hn].
  - etrans; [apply (Hs (pending_name (operation_name r)) w)|exact Hp].
Qed.
Lemma tears_look {A B} root r k (m : FS A) (f : A → FS B) :
  quiet m → keeps id m → (∀ w a w', m w = Ok a w' → tears root r k (f a)) → tears root r k (m ≫= f).
Proof.
  intros Hq Hk. apply tears_then; [done| |by apply same_look].
  intros w Hd. specialize (Hk w). unfold id in Hk. by rewrite Hk.
Qed.
Lemma tears_directory {A} root r k d name (f : path → FS A) :
  (length d <= length (rg_real_path root) + 1)%nat → final_place root r ≠ (d, name) →
  tears root r k (f (d ++ [name])) → tears root r k (open_directory d name true true ≫= f).
Proof.
  intros Hd Hn Hf. apply tears_then; [apply quiet_open_directory| |by apply same_open_directory|].
  - intros w. apply doomed_step; [intros b; apply (grows_open_directory b root)|apply dies_open_directory|].
    intros n. apply same_open_directory. intros Heq. injection Heq as Heq _. apply (f_equal length) in Heq.
    rewrite length_app in Heq. simpl in Heq. lia.
  - intros w d' w' Ho. by rewrite (open_directory_path _ _ _ _ _ _ _ Ho).
Qed.
Lemma tears_lock {A} root r k name (f : FS A) :
  sound_path r → tears root r k f →
  tears root r k (open_lock (rg_real_path root ++ [ADMIN_DIRECTORY; "locks"]) name;; f).
Proof.
  intros Hr Hf. apply tears_then;
    [apply quiet_open_lock| |apply same_open_lock; by apply final_not_admin|done].
  intros w. apply doomed_step; [intros b; apply (grows_open_lock b root)|apply dies_open_lock|].
  intros n. apply same_open_lock. intros Heq. injection Heq as Heq _. simpl in Heq.
  apply app_inv_head in Heq. discriminate.
Qed.
(** The write of the manifest itself. *)
Lemma str_take_short k s : (k < String.length s)%nat → str_take k s ≠ s.
Proof.
  revert k. induction s as [|c s IH]; intros k Hk; simpl in Hk; [lia|].
  destruct k; [done|]. simpl. intros [= He]. by apply (IH k); [lia|].
Qed.
Lemma write_dies d name k data w w1 :
  dying k w → (inode ← open_exclusive d name; write_all inode data;; fsync) w = Err (Killed true) w1 →
  holds (d, name) (eq (str_take k data)) w1 ∧ ∀ x, x ≠ (d, name) → same_at x w w1.
Proof.
  intros [n Hn] Hm. apply bind_err in Hm as [Ho|(i & w2 & Ho & Hm)].
  { exfalso. revert Ho. unfold open_exclusive. change (quiet (open_exclusive d name)) with
      (∀ w w', open_exclusive d name w ≠ Err (Killed true) w'). 
    assert (Hq : quiet (open_exclusive d name)) by (unfold open_exclusive; quieting). apply Hq. }
  pose proof (λ x Hx, same_open x d name Hx w) as Hs. rewrite Ho in Hs.
  assert (dies_on k w w2) as Hd.
  { assert (He : evolves (dies_on k) (open_exclusive d name)) by (unfold open_exclusive, look; dying).
    specialize (He w). by rewrite Ho in He. }
  apply open_exclusive_ok in Ho as (ft & -> & ->).
  destruct Hd as [n2 Hn2]; [by exists n|]. simpl in Hn2. subst ft.
  apply bind_err in Hm as [Hw|(u & w3 & _ & Hw)]; [|by apply quiet_effect in Hw].
  unfold write_all in Hw. simpl in Hw. destruct n2; [|done]. injection Hw as <-.
  split; [|intros x Hx; exact (Hs x Hx)].
  exists (fs_next w), (InodeRow (str_take k data) true 1). simpl. split_and!; [|..|done|done].
  - apply lookup_insert_eq.
  - by rewrite lookup_alter_eq, lookup_insert_eq.
Qed.
Lemma entry_exists_false d name w b w' :
  fs_nodes w !! (d, name) = None → entry_exists d name w = Ok b w' → b = false.
Proof. intros Hn He. destruct b; [|done]. apply entry_exists_true in He as [n Hi]. congruence. Qed.
Lemma quiet_entry_exists d name : quiet (entry_exists d name).
Proof. unfold entry_exists. quieting. Qed.
Lemma manifest_tears root r k w w1 :
  (k < String.length (request_manifest r))%nat → doomed root r k w →
  ensure_manifest (operation_place root r).1 (operation_name r) (request_manifest r) "operation" w
    = Err (Killed true) w1 →
  torn root r w1 ∧ ∀ x, x ≠ pending_place root r → same_at x w w1.
Proof.
  intros Hk [_ Hdie Hn Hp]. unfold ensure_manifest. intros Hm.
  apply bind_err in Hm as [Hm|(? & ? & He & Hm)]; [by apply quiet_ensure in Hm|].
  apply ensure_ok in He as (_ & _ & ->).
  apply bind_err in Hm as [Hm|(final & ? & He & Hm)]; [by apply quiet_entry_exists in Hm|].
  apply looks_ok in He as Hw; [|apply looks_entry_exists]. subst. apply entry_exists_false in He as ->; [|exact Hn].
  apply bind_err in Hm as [Hm|(there & ? & He & Hm)]; [by apply quiet_entry_exists in Hm|].
  apply looks_ok in He as Hw; [|apply looks_entry_exists]. subst. apply entry_exists_false in He as ->; [|exact Hp].
  cbn iota in Hm. apply bind_err in Hm as [Hm|(? & w2 & _ & Hm)].
  - apply (write_dies _ _ k) in Hm as [Hh Hs]; [|done]. split; [|exact Hs]. split.
    + etrans; [apply Hs|exact Hn]. intros Heq. unfold operation_place, pending_place in Heq.
      injection Heq as Heq. unfold operation_name in Heq. by apply name_not_pending in Heq.
    + destruct Hh as (i & row & Hi & Hr & Hpr & Hd). exists i, row. split_and!; [done..|].
      rewrite <- Hd. by apply str_take_short.
  - exfalso. revert Hm. apply quiet_bind; [|intros _; apply quiet_bind; [apply quiet_effect|intros _]].
    + apply quiet_catch; [apply quiet_link|]. intros [] Hne; try (apply quiet_raise; assumption).
      apply quiet_bind; [apply quiet_read_regular|intros ?; by apply quiet_ensure].
    + apply quiet_bind; [apply quiet_settle_manifest|intros ?; apply quiet_ret].
Qed.

(** The part of a call that follows its own manifest keeps that manifest's name. *)
Lemma after_manifest {A} root r (m : FS A) w w1 e :
  (∀ b, evolves (grows b (rg_real_path root)) m) → inodes_below w →
  holds (operation_place root r) (eq (request_manifest r)) w → m w = Err e w1 →
  is_Some (fs_nodes w1 !! operation_place root r).
Proof.
  intros Hg Hw Hh Hm. specialize (Hg (fs_next w) w). rewrite Hm in Hg.
  destruct (grows_holds _ _ _ _ _ _ Hg eq_refl Hw (json_name_stays _ _ _) Hh) as (i & _ & Hi & _). by eexists.
Qed.
Lemma tears_materialize root r c k :
  (k < String.length (request_manifest r))%nat → tears root r k (materialize root r c).
Proof.
  intros Hk. unfold materialize.
  do 2 (apply tears_look; [quieting; done|eauto with keeps|intros _ _ _ _]).
  apply tears_look; [unfold of_checks; quieting; done|unfold of_checks; case_match; eauto with keeps|].
  intros w1 segments w2 Hs. apply of_checks_sound in Hs as Hr.
  apply tears_look; [quieting; done|eauto with keeps|intros _ _ _ _].
  apply tears_look; [|apply looks_open_secure_root|intros _ [inode real] _ _].
  { apply quiet_open_secure_root. }
  apply tears_look; [quieting; done|eauto with keeps|].
  intros w3 u w4 He. apply ensure_ok in He as ([_ ->%bool_decide_eq_true]%andb_true_iff & _ & _).
  do 6 (apply tears_directory; [rewrite ?length_app; simpl; lia|apply admin_not_final; [done|tauto]|]).
  rewrite <- !app_assoc. cbn [app]. do 2 (apply tears_lock; [done|]).
  intros w w5 Hd [Hm|(e & w6 & Ho & Hm)]%bind_err Hn.
  - apply (manifest_tears root r k w w5 Hk Hd) in Hm as [Ht Hs']. split; [done|]. apply Hs'.
    by apply final_not_admin.
  - exfalso. pose proof (do_below _ _ _ _ Hd) as Hw.
    assert (Hw6 : inodes_below w6).
    { refine (proj1 (proj2 (evolves_ok _ _ _ _ _ (grows_ensure_manifest 0 root _ _ _ _) Ho _ Hw))). lia. }
    apply (ensure_manifest_holds root) in Ho; [|done|apply json_name_stays].
    eapply after_manifest in Hm as [x Hx]; [|intros b|exact Hw6|exact Ho].
    + congruence.
    + apply evolves_bind; [apply grows_preorder|apply grows_ensure_manifest|intros ?].
      apply evolves_bind; [apply grows_preorder|apply grows_open_parents|intros ?]. apply grows_under_lock.
Qed.
End Crash.
