(* ===== verification/MaterializerTheorems.v ===== *)
(** * Theorems about the materializer

    What a call answered is on disk with the bytes it was asked for, and no later call,
    finished, failed or killed, changes or replaces it; an operation and a target belong
    to one request; a process that dies in the write of a manifest leaves what no retry
    gets over. *)

From Stdlib Require Import Ascii.
From S2P Require Import Prelude PyText Json Schema Store Runs Resources Transport TransportInvariant ArtifactModels Materializer MaterializerFacts MaterializerSessions MaterializerOwners MaterializerCrash.
Open Scope Z_scope.

Section Theorems.
Context `{UnicodeChecks} `{ByteDigest}.

(** C18: A call that answers has put the requested bytes, private, under the final name,
    and whatever calls follow on the registered roots, finished, failed or killed at any
    system call, that name keeps that file and those bytes. *)
Theorem published_bytes_stay configs w0 roots w before root r c x a w1 later :
  inodes_below w0 → register_roots [] configs w0 = Ok roots w →
  Forall (λ y, ca_root y ∈ roots) later → root ∈ roots →
  materialize root r c (with_fate x (materialize_session before w)) = Ok a w1 →
  as_request a = r ∧ holds (final_place root r) (requested_bytes r) (materialize_session later w1).
Proof.
  intros Hw0 Hreg Hl Hr Hm. apply register_roots_apart in Hreg as [-> Hap]; [|by intros ? ? ?%not_elem_of_nil].
  destruct (materialize_ok _ _ _ _ _ _ Hm) as (Ha & Hh & Hs). split; [done|].
  assert (Hw1 : inodes_below w1).
  { pose proof (grows_materialize 0 root r c (with_fate x (materialize_session before w0))) as Hg.
    rewrite Hm in Hg. apply Hg; [lia|]. exact (session_below before w0 Hw0). }
  apply holds_from_now; [done..|]. eapply Forall_impl; [exact Hl|]. intros y Hy. by eapply final_place_stays.
Qed.

(** C29: An operation belongs to one request and so does a target: when two calls on a root
    answer, with anything in between, and they have the operation in common, or paths
    that differ at most in case, then they were asked for the same thing. *)
Theorem one_request_per_target w before root r c x a w1 between r' c' x' a' w2 :
  inodes_below w →
  materialize root r c (with_fate x (materialize_session before w)) = Ok a w1 →
  materialize root r' c' (with_fate x' (materialize_session between w1)) = Ok a' w2 →
  mq_operation_id r = mq_operation_id r' ∨
    casefold (mq_relative_path r) = casefold (mq_relative_path r') →
  r = r'.
Proof.
  intros Hw Hm Hm' Hsame. pose proof (below_fate x _ (session_below before w Hw)) as Hw1.
  pose proof (materialize_owned root r c _ a w1 Hw1 Hm) as Ho.
  pose proof (materialize_below _ _ _ _ _ _ Hw1 Hm) as Hw2.
  pose proof (below_fate x' _ (session_below between w1 Hw2)) as Hw3.
  pose proof (materialize_owned root r' c' _ a' w2 Hw3 Hm') as [Ho' Ht'].
  pose proof (owned_fate root r x' _ (owned_session root r between w1 Hw2 Ho)) as Hb.
  destruct (owned_later _ _ _ _ _ _ _ _ Hw3 Hb Hm') as [Ho2 Ht2].
  assert (Hop : mq_operation_id r = mq_operation_id r' → r = r').
  { intros He. apply request_manifest_inj. eapply holds_same; [exact Ho2|].
    unfold operation_place, operation_name in *. by rewrite He. }
  destruct Hsame as [He|Hc]; [by apply Hop|]. apply Hop.
  assert (Hi : target_identity r root = target_identity r' root) by (unfold target_identity; by rewrite Hc).
  eapply target_manifest_inj, holds_same; [exact Ht2|]. unfold target_place in *. rewrite Hi. exact Ht'.
Qed.

(** C38: A process that is killed inside the write of the manifest of a new operation, before
    the last byte, leaves a cut file under the manifest's pending name.  Whatever calls
    follow on the registered roots, of the same request or of other operations, finished,
    failed or killed, that file stays cut, and a call of the request is refused and leaves
    the name it was to publish as it was; so did the call that was killed. *)
Theorem torn_manifest_wedges configs w0 roots root r c n k w w1 later c' x :
  register_roots [] configs w0 = Ok roots w0 → root ∈ roots → inodes_below w →
  fs_nodes w !! operation_place root r = None → fs_nodes w !! pending_place root r = None →
  materialize root r c (with_fate (Dies n k) w) = Err (Killed true) w1 →
  fs_nodes w1 !! operation_place root r = None → (k < String.length (request_manifest r))%nat →
  Forall (λ y, ca_root y ∈ roots ∧ (ca_request y = r ∧ ca_root y = root ∨ other_call root r y)) later →
  let w2 := materialize_session later w1 in
  same_at (final_place root r) w w1 ∧
  holds (pending_place root r) (λ data, data ≠ request_manifest r) w2 ∧
  ∃ e w3, materialize root r c' (with_fate x w2) = Err e w3 ∧ same_at (final_place root r) w2 w3.
Proof.
  intros Hreg Hr Hw Hn Hp Hm Hn1 Hk Hl w2.
  apply register_roots_apart in Hreg as [_ Ha]; [|by intros ? ? ?%not_elem_of_nil].
  destruct (tears_materialize root r c k Hk (with_fate (Dies n k) w) w1) as [Ht Hs]; [|exact Hm|exact Hn1|].
  { split; [exact Hw|by exists n|exact Hn|exact Hp]. }
  assert (Hw1 : inodes_below w1).
  { pose proof (grows_materialize 0 root r c (with_fate (Dies n k) w)) as Hg. rewrite Hm in Hg.
    apply Hg; [simpl; lia|exact Hw]. }
  destruct (torn_session roots root r later w1 Ha Hr Hl Hw1 Ht) as [Hw2 Ht2]. fold w2 in Hw2, Ht2.
  split; [exact Hs|]. split; [exact (proj2 Ht2)|].
  destruct (refuses_materialize root r c' (with_fate x w2) Hw2 Ht2) as (e & w3 & He & _ & _ & Hs2). eauto.
Qed.
End Theorems.

(** ** A concrete file system: two roots, one request, and the calls that follow *)
Fixpoint byte_sum (n : Z) (s : string) : Z :=
  match s with EmptyString => n | String c s' => byte_sum (n + ord c) s' end.
#[export] Instance demo_bytes : ByteDigest := {| byte_sha256 := λ s, pad 64 (byte_sum 0 s) |}.
#[export] Instance files_unicode : UnicodeChecks :=
  {| utf8_ok := λ _, false; nfc_ok := λ _, false; has_control := λ _, true |}.
Definition demo_files : fs :=
  Fs (list_to_map [(([], "data"), NDir 1 false); ((["data"], "assets"), NDir 2 true);
                   ((["data"], "notes"), NDir 3 true)]) ∅ 4 Lives.
Definition demo_configs : list asset_root :=
  [AssetRoot "research" ["data"; "assets"] 1000; AssetRoot "notes" ["data"; "notes"] 100].
Definition demo_root : registered_root :=
  RegisteredRoot (AssetRoot "research" ["data"; "assets"] 1000) 2 ["data"; "assets"] (capability_id 2).
Definition demo_notes : registered_root :=
  RegisteredRoot (AssetRoot "notes" ["data"; "notes"] 100) 3 ["data"; "notes"] (capability_id 3).
Definition demo_roots : list registered_root := [demo_root; demo_notes].
Lemma demo_registered : register_roots [] demo_configs demo_files = Ok demo_roots demo_files.
Proof. vm_compute. reflexivity. Qed.
Lemma demo_files_below : inodes_below demo_files.
Proof. intros i [row Hi]. discriminate Hi. Qed.
Definition demo_request (operation path data : string) : materialization_request :=
  MaterializationRequest operation "research" path (byte_sha256 data) (slen data) "text/markdown" [].
Abbreviation demo_memo := (demo_request "artifact-materialize:v1" "memos/a.md" "hello").
Abbreviation demo_bytes_of data := (Some (CBytes data)).
Abbreviation demo_run fate w := (materialize demo_root demo_memo (demo_bytes_of "hello") (with_fate fate w)).
Definition answered (o : outcome fs mexn materialized_asset) : option materialized_asset :=
  match o with Ok a _ => Some a | Err _ _ => None end.
Lemma answered_run o a : answered o = Some a → o = Ok a (end_world o).
Proof. destruct o; simpl; [by intros [= ->]|done]. Qed.

(** ** Witnesses *)
Definition demo_before : list call := [Call demo_root demo_memo (demo_bytes_of "hello") (Dies 20 0)].
Definition demo_later : list call :=
  [Call demo_root (demo_request "artifact-materialize:v2" "memos/a.md" "other") (demo_bytes_of "other") Lives;
   Call demo_notes (MaterializationRequest "artifact-materialize:n1" "notes" "n.md" (byte_sha256 "note") 4
     "text/markdown" []) (demo_bytes_of "note") (Fails 30 0);
   Call demo_root demo_memo None (Dies 9 0); Call demo_root demo_memo None Lives].
Abbreviation demo_published := (demo_run Lives (materialize_session demo_before demo_files)).
Lemma demo_publishes : is_Some (answered demo_published).
Proof. vm_compute. eauto. Qed.
Lemma demo_later_roots : Forall (λ y, ca_root y ∈ demo_roots) demo_later.
Proof.
  pose proof (list_elem_of_here demo_root [demo_notes]) as Hr.
  pose proof (list_elem_of_further demo_notes demo_root [demo_notes] (list_elem_of_here demo_notes [])) as Hn.
  unfold demo_later.
  repeat (apply List.Forall_cons; [first [exact Hr|exact Hn]|]). apply List.Forall_nil.
Qed.
Lemma published_bytes_stay_witness :
  ∃ a, answered demo_published = Some a ∧ as_request a = demo_memo ∧
    holds (final_place demo_root demo_memo) (requested_bytes demo_memo)
      (materialize_session demo_later (end_world demo_published)).
Proof.
  destruct demo_publishes as [a Ha]. exists a. split; [exact Ha|].
  apply (published_bytes_stay demo_configs demo_files demo_roots demo_files demo_before demo_root demo_memo
    (demo_bytes_of "hello") Lives a (end_world demo_published) demo_later demo_files_below demo_registered).
  - exact demo_later_roots.
  - apply list_elem_of_here.
  - exact (answered_run demo_published a Ha).
Defined.

Lemma one_request_per_target_witness :
  is_Some (answered demo_published) ∧
  ∀ a' w2, materialize demo_root (demo_request "artifact-materialize:v2" "Memos/a.md" "other")
    (demo_bytes_of "other") (with_fate Lives (materialize_session demo_later (end_world demo_published)))
    ≠ Ok a' w2.
Proof.
  split; [exact demo_publishes|]. intros a' w2 Hm. destruct demo_publishes as [a Ha].
  discriminate (one_request_per_target demo_files demo_before demo_root demo_memo (demo_bytes_of "hello") Lives
    a (end_world demo_published) demo_later _ _ Lives a' w2 demo_files_below
    (answered_run demo_published a Ha) Hm (or_intror eq_refl)).
Defined.

(** The death of the process in its first write, two bytes into the manifest; then a retry
    and another operation. *)
Abbreviation demo_death := (demo_run (Dies 17 2) demo_files).
Definition demo_after_death : list call :=
  [Call demo_root demo_memo (demo_bytes_of "hello") Lives;
   Call demo_root (demo_request "artifact-materialize:v2" "memos/b.md" "other") (demo_bytes_of "other") Lives].
Definition died_writing (o : outcome fs mexn materialized_asset) : bool :=
  match o with Err (Killed true) _ => true | _ => false end.
Lemma died_run o : died_writing o = true → o = Err (Killed true) (end_world o).
Proof. by destruct o as [a w|[] w]; try done; destruct in_write. Qed.
Lemma demo_dies : died_writing demo_death = true ∧
  bool_decide (fs_nodes (end_world demo_death) !! operation_place demo_root demo_memo = None) = true ∧
  (2 <? String.length (request_manifest demo_memo))%nat = true.
Proof. split_and!; vm_compute; reflexivity. Qed.
Lemma demo_after_calls : Forall (λ y, ca_root y ∈ demo_roots ∧
  (ca_request y = demo_memo ∧ ca_root y = demo_root ∨ other_call demo_root demo_memo y)) demo_after_death.
Proof.
  pose proof (list_elem_of_here demo_root [demo_notes]) as Hr.
  apply List.Forall_cons; [exact (conj Hr (or_introl (conj eq_refl eq_refl)))|].
  apply List.Forall_cons; [|apply List.Forall_nil]. split; [exact Hr|]. right. right. discriminate.
Qed.
Lemma torn_manifest_wedges_witness :
  ∃ e w3, demo_run Lives (materialize_session demo_after_death (end_world demo_death)) = Err e w3.
Proof.
  destruct demo_dies as (Hd & Hn & Hk).
  destruct (torn_manifest_wedges demo_configs demo_files demo_roots demo_root demo_memo
    (demo_bytes_of "hello") 17 2 demo_files (end_world demo_death) demo_after_death (demo_bytes_of "hello")
    Lives demo_registered (list_elem_of_here demo_root [demo_notes]) demo_files_below eq_refl eq_refl
    (died_run demo_death Hd) (bool_decide_eq_true_1 _ Hn) (proj1 (Nat.ltb_lt _ _) Hk) demo_after_calls)
    as (_ & _ & e & w3 & He & _).
  exists e, w3. exact He.
Defined.
