(* ===== verification/Registry.v ===== *)
(** * Asset roots, connectors, backup proofs and health

    The operations registry of [control/store.py] over the contracts of
    [control/registry.py]: configuration rows that change under an expected revision,
    and evidence that is written once.  A [Path] is the text of it; the path of such a
    text is the same.  What a [dataclass] holds has the type it declares. *)

From Stdlib Require Import Ascii.
From S2P Require Import Prelude PyText Clock Json Schema Store Runs Activation Resources Transport ArtifactModels.
Open Scope Z_scope.

(** What [_control_store_identity] reads: the migrated schema and the binding key are
    the same as long as the store is open. *)
Record control_store_identity := ControlStoreIdentity {
  ci_schema_version : Z; ci_schema_fingerprint_sha256 : string;
  ci_identity_companion_sha256 : string; ci_identity_companion_byte_length : Z }.
#[export] Instance control_store_identity_eq_dec : EqDecision control_store_identity.
Proof. solve_decision. Defined.
Class StoreIdentity := { current_control_store_identity : control_store_identity }.

(** ** The patterns *)
Definition is_az_digit (c : ascii) : bool := is_az c || is_digit c.
Definition connector_id_ok (s : string) : bool := fullmatch is_az (λ c, is_az_digit c || one_of "_-" c) 0 62 s.
Definition registry_id_ok (s : string) : bool := fullmatch is_az (λ c, is_az_digit c || one_of "_.-" c) 0 99 s.
Definition metric_key_ok (s : string) : bool := fullmatch is_az (λ c, is_az_digit c || one_of "_" c) 0 63 s.
(** [_CREDENTIAL_KEY_RE.search] on an alias, which has no capitals: one of the words
    between edges, which are the ends of the text or a [_] or [-]. *)
Definition CREDENTIAL_WORDS : list string :=
  ["apikey"; "api_key"; "api-key"; "token"; "password"; "secret"; "credential"].
Definition word_to_edge (s word : string) : bool :=
  String.prefix word s && match str_drop (String.length word) s with
                        | EmptyString => true | String c _ => one_of "_-" c end.
Fixpoint credential_key_from (edge : bool) (s : string) : bool :=
  (edge && existsb (word_to_edge s) CREDENTIAL_WORDS)
  || match s with EmptyString => false | String c s' => credential_key_from (one_of "_-" c) s' end.
Definition credential_alias_ok (s : string) : bool := connector_id_ok s && negb (credential_key_from true s).
Definition HEALTH_STATUSES : list string := ["ok"; "degraded"; "unavailable"; "unknown"].
Definition HEALTH_SENSITIVE_TERMS : list string :=
  ["credential"; "hash"; "hostname"; "path"; "secret"; "token"].

(** [==] of Python on what a request is made of: [True] is [1] and [False] is [0].
    The objects have their fields in one order. *)
Fixpoint py_equal (a b : json) : bool :=
  match a, b with
  | JInt m, JInt n => m =? n
  | JBool x, JBool y => Bool.eqb x y
  | JBool x, JInt n | JInt n, JBool x => n =? Z.b2z x
  | JStr s, JStr t => String.eqb s t
  | JNull, JNull => true
  | JArr l, JArr k =>
      (fix go l k := match l, k with
       | [], [] => true
       | x :: l', y :: k' => py_equal x y && go l' k'
       | _, _ => false
       end) l k
  | JObj l, JObj k =>
      (fix go l k := match l, k with
       | [], [] => true
       | (i, x) :: l', (j, y) :: k' => String.eqb i j && py_equal x y && go l' k'
       | _, _ => false
       end) l k
  | _, _ => false
  end.

(** ** Asset roots *)
Record asset_root_record := AssetRootRecord {
  ag_root_id : string; ag_path : string; ag_max : Z; ag_on : bool; ag_rev : Z;
  ag_created : Z; ag_updated : Z }.
Record connector_record := ConnectorRecord {
  ce_id : string; ce_kind : string; ce_adapter_id : string; ce_display_name : string;
  ce_credential_alias : option string; ce_enabled : bool; ce_revision : Z;
  ce_created_at : Z; ce_updated_at : Z }.

Section Registry.
Context `{Env} `{UnicodeChecks} `{StoreIdentity}.

Definition invalid (message : string) (b : bool) : Store unit := ensure b (ValueError message).
Definition asset_root_id (root_id : string) : Store unit := invalid "root_id is invalid" (root_ok root_id).
(** [_validated_asset_root]; the anchor of a path is ["/"] or ["//"]. *)
Definition validated_asset_root (root_id private_path : string) (max_bytes : Z) : Store unit :=
  asset_root_id root_id;;
  invalid "private_path must be an absolute non-root path"
    (starts_slash private_path && negb (in_texts private_path ["/"; "//"])
     && negb (str_has (chr 0) private_path));;
  invalid "max_bytes must be a positive integer" (1 <=? max_bytes).

(** [_asset_root], [_asset_root_response], [_asset_root_receipt]. *)
Definition asset_root_of (root_id : string) : Store asset_root_record :=
  row ← query (λ d, asset_roots d !! root_id);
  r ← from_option row (NotFound "asset root" root_id);
  created ← control_time (ag_created_at r); updated ← control_time (ag_updated_at r);
  mret (AssetRootRecord root_id (ag_private_path r) (ag_max_bytes r) (ag_enabled r) (ag_revision r)
          created updated).
Definition asset_root_response (r : asset_root_record) : json := JObj
  [("root_id", JStr (ag_root_id r)); ("private_path", JStr (ag_path r)); ("max_bytes", JInt (ag_max r));
   ("enabled", JBool (ag_on r)); ("revision", JInt (ag_rev r));
   ("created_at", JStr (format_time (ag_created r))); ("updated_at", JStr (format_time (ag_updated r)))].
(** [except (TypeError, ValueError)]: another error. *)
Definition value_error_as {A} (e : exc) (m : Store A) : Store A := λ w,
  match m w with Err (ValueError _) w' => Err e w' | o => o end.
Definition text_field (message : string) (v : json) : Store string :=
  match v with JStr s => mret s | _ => raise (ValueError message) end.
Definition int_field (message : string) (v : json) : Store Z :=
  match v with JInt n => mret n | _ => raise (ValueError message) end.
Definition bool_field (message : string) (v : json) : Store bool :=
  match v with JBool b => mret b | _ => raise (ValueError message) end.
Definition receipt_times (e : exc) (v : json) : Store (Z * Z) :=
  value_error_as e (
    c ← text_field "" (field "created_at" v); created ← control_time c;
    u ← text_field "" (field "updated_at" v); updated ← control_time u;
    mret (created, updated)).
Definition receipt_revision (e : exc) (v : json) : Store Z :=
  match field "revision" v with
  | JInt n => ensure (0 <=? n) e;; mret n
  | _ => raise e
  end.
Definition asset_root_receipt (v : json) : Store asset_root_record :=
  let e := RuntimeError "asset root receipt is invalid" in
  ensure (same_keys v ["root_id"; "private_path"; "max_bytes"; "enabled"; "revision"; "created_at"; "updated_at"]) e;;
  root_id ← text_field "root_id is invalid" (field "root_id" v);
  path ← text_field "private_path must be an absolute Path" (field "private_path" v);
  max ← int_field "max_bytes must be a positive integer" (field "max_bytes" v);
  enabled ← bool_field "enabled must be a boolean" (field "enabled" v);
  validated_asset_root root_id path max;;
  revision ← receipt_revision e v;
  '(created, updated) ← receipt_times e v;
  mret (AssetRootRecord root_id path max enabled revision created updated).

(** What [register_…] and [update_…] do around their statement. *)
Definition registered {R} (actor_id operation key : string) (request : json) (code : Z)
    (from_receipt : json → Store R) (response : R → json) (body : Store R) : Store R :=
  transaction (
    replay ← receipt actor_id operation key request;
    match replay with
    | Some r => from_receipt (cr_value r)
    | None =>
        record ← body;
        save_receipt actor_id operation key request (response record) code;;
        mret record
    end).
Definition root_request (root_id private_path : string) (max_bytes : Z) (enabled : bool) : list (string * json) :=
  [("root_id", JStr root_id); ("private_path", JStr private_path); ("max_bytes", JInt max_bytes);
   ("enabled", JBool enabled)].
Definition register_asset_root (root_id private_path : string) (max_bytes : Z) (enabled : bool)
    (actor_id key : string) : Store asset_root_record :=
  validated_asset_root root_id private_path max_bytes;;
  registered actor_id "INTERNAL:asset-roots/register" key
    (JObj (root_request root_id private_path max_bytes enabled)) 201 asset_root_receipt asset_root_response (
    there ← query (λ d, asset_roots d !! root_id);
    ensure (bool_decide (there = None)) (InvalidTransition "already_registered" "registration");;
    t ← now;
    execute (set_asset_roots (<[root_id := AssetRootRow private_path max_bytes enabled 0 t t]>));;
    asset_root_of root_id).
Definition expected_ok (expected : Z) : Store unit :=
  invalid "expected_revision must be a non-negative integer" (0 <=? expected).
Definition update_asset_root (root_id private_path : string) (max_bytes : Z) (enabled : bool)
    (expected_revision : Z) (actor_id key : string) : Store asset_root_record :=
  validated_asset_root root_id private_path max_bytes;;
  expected_ok expected_revision;;
  registered actor_id ("INTERNAL:asset-roots/" +:+ root_id +:+ "/update") key
    (JObj (root_request root_id private_path max_bytes enabled
           ++ [("expected_revision", JInt expected_revision)])) 200 asset_root_receipt asset_root_response (
    t ← now;
    row ← query (λ d, asset_roots d !! root_id);
    match row with
    | Some r =>
        if ag_revision r =? expected_revision then
          execute (set_asset_roots (<[root_id :=
            AssetRootRow private_path max_bytes enabled (ag_revision r + 1) (ag_created_at r) t]>));;
          asset_root_of root_id
        else
          current ← asset_root_of root_id;
          raise (RevisionConflict (JObj [("id", JStr (ag_root_id current));
                                         ("revision", JInt (ag_rev current))]))
    | None => raise (NotFound "asset root" root_id)
    end).
Definition get_asset_root (root_id : string) : Store asset_root_record :=
  asset_root_id root_id;; asset_root_of root_id.
(** [ORDER BY root_id]. *)
Definition list_asset_roots : Store (list asset_root_record) :=
  ids ← query (λ d, isort str_le (map fst (map_to_list (asset_roots d))));
  map_m asset_root_of ids.

(** ** Connectors *)
Definition connector_machine_id (name value : string) : Store unit :=
  invalid (name +:+ " is invalid") (connector_id_ok value).
(** [_validated_connector]: the name stripped. *)
Definition validated_connector (connector_id adapter_id display_name : string)
    (credential_alias : option string) : Store string :=
  connector_machine_id "connector_id" connector_id;;
  connector_machine_id "adapter_id" adapter_id;;
  invalid "display_name is invalid" (str_all (λ c, negb (category_c c)) display_name);;
  let name := strip display_name in
  invalid "display_name is invalid" (negb (String.eqb name "") && (slen name <=? 200));;
  invalid "credential_alias is invalid"
    (match credential_alias with None => true | Some a => credential_alias_ok a end);;
  mret name.
Definition connector_of (connector_id : string) : Store connector_record :=
  row ← query (λ d, connectors d !! connector_id);
  r ← from_option row (NotFound "connector" connector_id);
  created ← control_time (cn_created_at r); updated ← control_time (cn_updated_at r);
  mret (ConnectorRecord connector_id (cn_kind r) (cn_adapter_id r) (cn_display_name r)
          (cn_credential_alias r) (cn_enabled r) (cn_revision r) created updated).
Definition connector_response (r : connector_record) : json := JObj
  [("id", JStr (ce_id r)); ("kind", JStr (ce_kind r)); ("adapter_id", JStr (ce_adapter_id r));
   ("display_name", JStr (ce_display_name r)); ("credential_alias", opt_json (ce_credential_alias r));
   ("enabled", JBool (ce_enabled r)); ("revision", JInt (ce_revision r));
   ("created_at", JStr (format_time (ce_created_at r))); ("updated_at", JStr (format_time (ce_updated_at r)))].
Definition alias_field (v : json) : Store (option string) :=
  match v with
  | JNull => mret None
  | JStr s => mret (Some s)
  | _ => raise (ValueError "credential_alias is invalid")
  end.
Definition connector_receipt (v : json) : Store connector_record :=
  let e := RuntimeError "connector receipt is invalid" in
  ensure (same_keys v ["id"; "kind"; "adapter_id"; "display_name"; "credential_alias"; "enabled";
                       "revision"; "created_at"; "updated_at"]) e;;
  id ← text_field "connector_id is invalid" (field "id" v);
  adapter ← text_field "adapter_id is invalid" (field "adapter_id" v);
  display ← text_field "display_name is invalid" (field "display_name" v);
  alias ← alias_field (field "credential_alias" v);
  enabled ← bool_field "enabled must be a boolean" (field "enabled" v);
  name ← validated_connector id adapter display alias;
  kind ← text_field "kind is invalid" (field "kind" v);
  connector_machine_id "kind" kind;;
  revision ← receipt_revision e v;
  '(created, updated) ← receipt_times e v;
  mret (ConnectorRecord id kind adapter name alias enabled revision created updated).
Definition register_connector (connector_id kind adapter_id display_name : string)
    (credential_alias : option string) (enabled : bool) (actor_id key : string) : Store connector_record :=
  name ← validated_connector connector_id adapter_id display_name credential_alias;
  connector_machine_id "kind" kind;;
  registered actor_id "INTERNAL:connectors/register" key
    (JObj [("connector_id", JStr connector_id); ("kind", JStr kind); ("adapter_id", JStr adapter_id);
           ("display_name", JStr name); ("credential_alias", opt_json credential_alias);
           ("enabled", JBool enabled)]) 201 connector_receipt connector_response (
    there ← query (λ d, connectors d !! connector_id);
    ensure (bool_decide (there = None)) (InvalidTransition "already_registered" "registration");;
    t ← now;
    execute (set_connectors (<[connector_id :=
      ConnectorRow kind adapter_id name credential_alias enabled 0 t t]>));;
    connector_of connector_id).
Definition update_connector (connector_id adapter_id display_name : string)
    (credential_alias : option string) (enabled : bool) (expected_revision : Z) (actor_id key : string) :
    Store connector_record :=
  name ← validated_connector connector_id adapter_id display_name credential_alias;
  expected_ok expected_revision;;
  registered actor_id ("INTERNAL:connectors/" +:+ connector_id +:+ "/update") key
    (JObj [("connector_id", JStr connector_id); ("adapter_id", JStr adapter_id);
           ("display_name", JStr name); ("credential_alias", opt_json credential_alias);
           ("enabled", JBool enabled); ("expected_revision", JInt expected_revision)])
    200 connector_receipt connector_response (
    t ← now;
    row ← query (λ d, connectors d !! connector_id);
    match row with
    | Some r =>
        if cn_revision r =? expected_revision then
          execute (set_connectors (<[connector_id :=
            ConnectorRow (cn_kind r) adapter_id name credential_alias enabled (cn_revision r + 1)
              (cn_created_at r) t]>));;
          connector_of connector_id
        else
          current ← connector_of connector_id;
          raise (RevisionConflict (JObj [("id", JStr (ce_id current));
                                         ("revision", JInt (ce_revision current))]))
    | None => raise (NotFound "connector" connector_id)
    end).
Definition get_connector (connector_id : string) : Store connector_record :=
  connector_machine_id "connector_id" connector_id;; connector_of connector_id.
(** [ORDER BY id]. *)
Definition list_connectors (kind : option string) : Store (list connector_record) :=
  (match kind with Some k => connector_machine_id "kind" k | None => mret tt end);;
  ids ← query (λ d, isort str_le (omap (λ x : string * connector_row,
    match kind with
    | Some k => if String.eqb (cn_kind x.2) k then Some x.1 else None
    | None => Some x.1
    end) (map_to_list (connectors d))));
  map_m connector_of ids.
End Registry.
