(* ===== verification/Evidence.v ===== *)
(** * Backup proofs and health observations

    The evidence of [control/store.py]: written once under its own identifier, checked
    against the state of the registry when it is written, and read back checked again. *)

From Stdlib Require Import Ascii.
From S2P Require Import Prelude PyText Clock Json Schema Store Runs Activation Resources Transport ArtifactModels Registry.
Open Scope Z_scope.

(** ** Protected sets: [control/registry.py] *)
Record control_store_snapshot := ControlStoreSnapshot {
  cs_schema_version : Z; cs_schema_fingerprint_sha256 : string; cs_database_sha256 : string;
  cs_database_byte_length : Z; cs_identity_companion_sha256 : string;
  cs_identity_companion_byte_length : Z }.
Record protected_logical_snapshot := ProtectedLogicalSnapshot {
  pl_logical_id : string; pl_content_sha256 : string; pl_byte_length : Z }.
Record protected_asset_root_snapshot := ProtectedAssetRootSnapshot {
  pa_root_id : string; pa_revision : Z; pa_content_manifest_sha256 : string; pa_file_count : Z;
  pa_byte_length : Z }.
Record protected_set_manifest := ProtectedSetManifest {
  pm_schema_version : Z; pm_control_store : control_store_snapshot;
  pm_logical_snapshots : list protected_logical_snapshot;
  pm_asset_roots : list protected_asset_root_snapshot }.

Definition require_integer (name : string) (minimum value : Z) : Res unit :=
  check (minimum <=? value) (name +:+ " must be an integer greater than or equal to " +:+ int_text minimum).
Definition require_digest (name value : string) : Res unit :=
  check (is_sha256 value) (name +:+ " must be a lowercase SHA-256 digest").
Definition require_canonical_order (name : string) (values : list string) : Res unit :=
  check (bool_decide (isort str_le values = values) && bool_decide (NoDup values))
    (name +:+ " must be unique and canonically ordered").

Section Manifests.
Context `{UnicodeChecks}.
Definition require_identifier (name : string) (pattern : string → bool) (value : string) : Res unit :=
  check (nfc value) (name +:+ " must be an NFC string");;
  check (pattern value) (name +:+ " has an invalid format").
Definition logical_snapshot_json (x : protected_logical_snapshot) : json := JObj
  [("logical_id", JStr (pl_logical_id x)); ("content_sha256", JStr (pl_content_sha256 x));
   ("byte_length", JInt (pl_byte_length x))].
Definition logical_snapshot_ok (x : protected_logical_snapshot) : Res unit :=
  require_identifier "logical_id" registry_id_ok (pl_logical_id x);;
  require_digest "content_sha256" (pl_content_sha256 x);;
  require_integer "byte_length" 1 (pl_byte_length x).
Definition validated_logical_snapshots (l : list protected_logical_snapshot) : Res (list json) :=
  map_res logical_snapshot_ok l;;
  require_canonical_order "logical_snapshots" (map pl_logical_id l);;
  mret (map logical_snapshot_json l).
Definition protected_root_json (x : protected_asset_root_snapshot) : json := JObj
  [("root_id", JStr (pa_root_id x)); ("revision", JInt (pa_revision x));
   ("content_manifest_sha256", JStr (pa_content_manifest_sha256 x));
   ("file_count", JInt (pa_file_count x)); ("byte_length", JInt (pa_byte_length x))].
Definition protected_root_ok (x : protected_asset_root_snapshot) : Res unit :=
  require_identifier "root_id" root_ok (pa_root_id x);;
  require_integer "revision" 0 (pa_revision x);;
  require_digest "content_manifest_sha256" (pa_content_manifest_sha256 x);;
  require_integer "file_count" 0 (pa_file_count x);;
  require_integer "byte_length" 0 (pa_byte_length x).
Definition validated_asset_roots (l : list protected_asset_root_snapshot) : Res (list json) :=
  map_res protected_root_ok l;;
  require_canonical_order "asset_roots" (map pa_root_id l);;
  mret (map protected_root_json l).
Definition control_store_json (c : control_store_snapshot) : json := JObj
  [("schema_version", JInt (cs_schema_version c));
   ("schema_fingerprint_sha256", JStr (cs_schema_fingerprint_sha256 c));
   ("database_sha256", JStr (cs_database_sha256 c));
   ("database_byte_length", JInt (cs_database_byte_length c));
   ("identity_companion_sha256", JStr (cs_identity_companion_sha256 c));
   ("identity_companion_byte_length", JInt (cs_identity_companion_byte_length c))].
(** [canonical_protected_set_manifest]: the text it encodes. *)
Definition manifest_json (m : protected_set_manifest) : Res json :=
  require_integer "schema_version" 1 (pm_schema_version m);;
  check (pm_schema_version m =? 1) "schema_version must be 1";;
  let c := pm_control_store m in
  require_integer "control_store.schema_version" 1 (cs_schema_version c);;
  require_digest "schema_fingerprint_sha256" (cs_schema_fingerprint_sha256 c);;
  require_digest "database_sha256" (cs_database_sha256 c);;
  require_integer "database_byte_length" 1 (cs_database_byte_length c);;
  require_digest "identity_companion_sha256" (cs_identity_companion_sha256 c);;
  require_integer "identity_companion_byte_length" 1 (cs_identity_companion_byte_length c);;
  logical ← validated_logical_snapshots (pm_logical_snapshots m);
  roots ← validated_asset_roots (pm_asset_roots m);
  mret (JObj [("schema_version", JInt 1); ("control_store", control_store_json c);
              ("logical_snapshots", JArr logical); ("asset_roots", JArr roots)]).
Definition canonical_protected_set_manifest (m : protected_set_manifest) : Res string :=
  v ← manifest_json m; mret (json_text v).

(** [_protected_set_manifest] and the readers of its members; the constructors take any
    value and [canonical_protected_set_manifest] refuses those of another type. *)
Definition registry_mapping (name : string) (expected : list string) (v : json) : Res unit :=
  check (match v with JObj _ => same_keys v expected | _ => false end) (name +:+ " is invalid").
Definition int_of (name : string) (v : json) : Res Z :=
  match v with JInt n => mret n | _ => inl (name +:+ " must be an integer") end.
Definition text_of (name : string) (v : json) : Res string :=
  match v with JStr s => mret s | _ => inl (name +:+ " must be text") end.
Definition protected_logical_snapshot_of (v : json) : Res protected_logical_snapshot :=
  registry_mapping "logical_snapshot" ["logical_id"; "content_sha256"; "byte_length"] v;;
  id ← text_of "logical_id" (field "logical_id" v);
  sha ← text_of "content_sha256" (field "content_sha256" v);
  n ← int_of "byte_length" (field "byte_length" v);
  mret (ProtectedLogicalSnapshot id sha n).
Definition protected_asset_root_of (v : json) : Res protected_asset_root_snapshot :=
  registry_mapping "asset_root" ["root_id"; "revision"; "content_manifest_sha256"; "file_count"; "byte_length"] v;;
  id ← text_of "root_id" (field "root_id" v);
  revision ← int_of "revision" (field "revision" v);
  sha ← text_of "content_manifest_sha256" (field "content_manifest_sha256" v);
  count ← int_of "file_count" (field "file_count" v);
  n ← int_of "byte_length" (field "byte_length" v);
  mret (ProtectedAssetRootSnapshot id revision sha count n).
Definition control_store_of (v : json) : Res control_store_snapshot :=
  version ← int_of "schema_version" (field "schema_version" v);
  fingerprint ← text_of "schema_fingerprint_sha256" (field "schema_fingerprint_sha256" v);
  sha ← text_of "database_sha256" (field "database_sha256" v);
  n ← int_of "database_byte_length" (field "database_byte_length" v);
  companion ← text_of "identity_companion_sha256" (field "identity_companion_sha256" v);
  m ← int_of "identity_companion_byte_length" (field "identity_companion_byte_length" v);
  mret (ControlStoreSnapshot version fingerprint sha n companion m).
Definition protected_set_manifest_of (v : json) : Res protected_set_manifest :=
  registry_mapping "protected_set_manifest"
    ["schema_version"; "control_store"; "logical_snapshots"; "asset_roots"] v;;
  let c := field "control_store" v in
  registry_mapping "control_store"
    ["schema_version"; "schema_fingerprint_sha256"; "database_sha256"; "database_byte_length";
     "identity_companion_sha256"; "identity_companion_byte_length"] c;;
  match field "logical_snapshots" v, field "asset_roots" v with
  | JArr ls, JArr rs =>
      logical ← map_res protected_logical_snapshot_of ls;
      roots ← map_res protected_asset_root_of rs;
      version ← int_of "schema_version" (field "schema_version" v);
      control ← control_store_of c;
      let m := ProtectedSetManifest version control logical roots in
      canonical_protected_set_manifest m;; mret m
  | _, _ => inl "protected set members are invalid"
  end.
End Manifests.

(** ** Paired backup proofs *)
Record backup_copy_proof := BackupCopyProof {
  bc_backup_set_digest : string; bc_completed_at : Z; bc_snapshot_count : Z; bc_verified : bool }.
Record restore_verification := RestoreVerification {
  rv_backup_set_digest : string; rv_completed_at : Z; rv_database_count : Z;
  rv_verified_sample_count : Z; rv_verified : bool }.
Record paired_backup_proof_input := PairedBackupProofInput {
  pp_proof_id : string; pp_protected_set_manifest : protected_set_manifest;
  pp_primary : backup_copy_proof; pp_independent : backup_copy_proof;
  pp_restore : restore_verification }.
(** [PairedBackupProofRecord] without its last field, and [_ValidatedPairedProof]. *)
Record paired_proof := PairedProof {
  pf_id : string; pf_backup_set_digest : string; pf_manifest : protected_set_manifest;
  pf_primary_completed_at : Z; pf_primary_snapshot_count : Z;
  pf_independent_completed_at : Z; pf_independent_snapshot_count : Z;
  pf_restore_completed_at : Z; pf_restored_database_count : Z; pf_verified_sample_count : Z }.
Record paired_backup_proof_record := PairedBackupProofRecord {
  pk_proof : paired_proof; pk_created_at : Z }.

Section Proofs.
Context `{Env} `{UnicodeChecks} `{StoreIdentity}.

Definition of_res {A} (x : Res A) : Store A :=
  match x with inl message => raise (ValueError message) | inr a => mret a end.
Definition registry_resource_id (name value : string) : Store unit :=
  invalid (name +:+ " is invalid") (registry_id_ok value).
Definition registry_count (name : string) (minimum value : Z) : Store unit :=
  invalid (name +:+ " is invalid") (minimum <=? value).
Definition validated_evidence_time (name : string) (now value : Z) : Store unit :=
  invalid (name +:+ " must not be in the future") (value <=? now).
Definition validated_backup_copy (name digest : string) (now : Z) (c : backup_copy_proof) : Store unit :=
  invalid (name +:+ " evidence digest does not match the manifest")
    (String.eqb (bc_backup_set_digest c) digest);;
  invalid (name +:+ " evidence must be verified") (bc_verified c);;
  validated_evidence_time (name +:+ ".completed_at") now (bc_completed_at c);;
  registry_count (name +:+ ".snapshot_count") 1 (bc_snapshot_count c).
Definition validated_restore (digest : string) (now : Z) (v : restore_verification) : Store unit :=
  invalid "restore evidence digest does not match the manifest" (String.eqb (rv_backup_set_digest v) digest);;
  invalid "restore evidence must be verified" (rv_verified v);;
  validated_evidence_time "restore.completed_at" now (rv_completed_at v);;
  registry_count "restore.database_count" 1 (rv_database_count v);;
  registry_count "restore.verified_sample_count" 0 (rv_verified_sample_count v).
(** [_validated_paired_backup_proof]: the proof and the text of its manifest. *)
Definition validated_paired_backup_proof (p : paired_backup_proof_input) : Store (paired_proof * string) :=
  registry_resource_id "proof_id" (pp_proof_id p);;
  manifest ← of_res (canonical_protected_set_manifest (pp_protected_set_manifest p));
  let digest := sha256 manifest in
  n ← utc_now;
  let '(a, b, r) := (pp_primary p, pp_independent p, pp_restore p) in
  validated_backup_copy "primary" digest n a;;
  validated_backup_copy "independent" digest n b;;
  validated_restore digest n r;;
  invalid "restore evidence predates a backup copy"
    ((bc_completed_at a <=? rv_completed_at r) && (bc_completed_at b <=? rv_completed_at r));;
  mret (PairedProof (pp_proof_id p) digest (pp_protected_set_manifest p)
          (bc_completed_at a) (bc_snapshot_count a) (bc_completed_at b) (bc_snapshot_count b)
          (rv_completed_at r) (rv_database_count r) (rv_verified_sample_count r), manifest).

(** [_validate_protected_set_coverage]. *)
Definition enabled_roots (d : db) : list (string * Z) :=
  map (λ id, (id, default 0 (ag_revision <$> asset_roots d !! id)))
    (isort str_le (omap (λ x : string * asset_root_row, if ag_enabled x.2 then Some x.1 else None)
      (map_to_list (asset_roots d)))).
Definition snapshot_identity (c : control_store_snapshot) : control_store_identity :=
  ControlStoreIdentity (cs_schema_version c) (cs_schema_fingerprint_sha256 c)
    (cs_identity_companion_sha256 c) (cs_identity_companion_byte_length c).
Definition validate_protected_set_coverage (m : protected_set_manifest) : Store unit :=
  roots ← query enabled_roots;
  invalid "protected set coverage does not match current Control state"
    (bool_decide (snapshot_identity (pm_control_store m) = current_control_store_identity)
     && bool_decide (map (λ r, (pa_root_id r, pa_revision r)) (pm_asset_roots m) = roots)).

(** [_paired_backup_proof_request] over the parsed text of the manifest. *)
Definition copy_json (digest : string) (at_ count : Z) : json := JObj
  [("backup_set_digest", JStr digest); ("completed_at", JStr (format_registry_time at_));
   ("snapshot_count", JInt count); ("verified", JBool true)].
Definition paired_backup_proof_request (p : paired_proof) (manifest : json) : json := JObj
  [("proof_id", JStr (pf_id p)); ("protected_set_manifest", manifest);
   ("primary", copy_json (pf_backup_set_digest p) (pf_primary_completed_at p) (pf_primary_snapshot_count p));
   ("independent", copy_json (pf_backup_set_digest p) (pf_independent_completed_at p)
                     (pf_independent_snapshot_count p));
   ("restore", JObj
     [("backup_set_digest", JStr (pf_backup_set_digest p));
      ("completed_at", JStr (format_registry_time (pf_restore_completed_at p)));
      ("database_count", JInt (pf_restored_database_count p));
      ("verified_sample_count", JInt (pf_verified_sample_count p)); ("verified", JBool true)])].
(** [json.loads] of the canonical text of a manifest. *)
Definition parsed_manifest (m : protected_set_manifest) : Store json :=
  text ← of_res (canonical_protected_set_manifest m); json_loads text.

(** [_paired_backup_proof_record], on the columns of a row or the fields of a receipt. *)
Definition paired_backup_proof_record_of (v : json) : Store paired_backup_proof_record :=
  ensure (same_keys v ["id"; "backup_set_digest"; "protected_set_manifest"; "primary_completed_at";
      "primary_snapshot_count"; "independent_completed_at"; "independent_snapshot_count";
      "restore_completed_at"; "restored_database_count"; "verified_sample_count"; "created_at"])
    (RuntimeError "paired backup proof record is invalid");;
  id ← text_field "proof_id is invalid" (field "id" v);
  registry_resource_id "proof_id" id;;
  m ← of_res (protected_set_manifest_of (field "protected_set_manifest" v));
  text ← of_res (canonical_protected_set_manifest m);
  ensure (match field "backup_set_digest" v with JStr s => String.eqb s (sha256 text) | _ => false end)
    (RuntimeError "paired backup proof digest is invalid");;
  let time k := s ← text_field "stored registry time is invalid" (field k v); control_time s in
  primary ← time "primary_completed_at"; independent ← time "independent_completed_at";
  restore ← time "restore_completed_at";
  ensure ((primary <=? restore) && (independent <=? restore))
    (RuntimeError "paired backup proof chronology is invalid");;
  let count k minimum := n ← int_field (k +:+ " is invalid") (field k v);
                         registry_count k minimum n;; mret n in
  a ← count "primary_snapshot_count" 1; b ← count "independent_snapshot_count" 1;
  c ← count "restored_database_count" 1; n ← count "verified_sample_count" 0;
  created ← time "created_at";
  mret (PairedBackupProofRecord (PairedProof id (sha256 text) m primary a independent b restore c n) created).
Definition paired_backup_proof (proof_id : string) : Store paired_backup_proof_record :=
  row ← query (λ d, paired_backup_proofs d !! proof_id);
  r ← from_option row (NotFound "paired backup proof" proof_id);
  m ← json_loads (bp_manifest_json r);
  paired_backup_proof_record_of (JObj
    [("id", JStr proof_id); ("backup_set_digest", JStr (bp_backup_set_digest r));
     ("protected_set_manifest", m);
     ("primary_completed_at", JStr (bp_primary_completed_at r));
     ("primary_snapshot_count", JInt (bp_primary_snapshot_count r));
     ("independent_completed_at", JStr (bp_independent_completed_at r));
     ("independent_snapshot_count", JInt (bp_independent_snapshot_count r));
     ("restore_completed_at", JStr (bp_restore_completed_at r));
     ("restored_database_count", JInt (bp_restored_database_count r));
     ("verified_sample_count", JInt (bp_verified_sample_count r));
     ("created_at", JStr (bp_created_at r))]).
Definition paired_backup_proof_response (r : paired_backup_proof_record) : Store json :=
  let p := pk_proof r in
  m ← parsed_manifest (pf_manifest p);
  mret (JObj [("id", JStr (pf_id p)); ("backup_set_digest", JStr (pf_backup_set_digest p));
    ("protected_set_manifest", m);
    ("primary_completed_at", JStr (format_registry_time (pf_primary_completed_at p)));
    ("primary_snapshot_count", JInt (pf_primary_snapshot_count p));
    ("independent_completed_at", JStr (format_registry_time (pf_independent_completed_at p)));
    ("independent_snapshot_count", JInt (pf_independent_snapshot_count p));
    ("restore_completed_at", JStr (format_registry_time (pf_restore_completed_at p)));
    ("restored_database_count", JInt (pf_restored_database_count p));
    ("verified_sample_count", JInt (pf_verified_sample_count p));
    ("created_at", JStr (format_time (pk_created_at r)))]).
Definition paired_backup_proof_receipt (v : json) : Store paired_backup_proof_record :=
  value_error_as (RuntimeError "paired backup proof receipt is invalid") (paired_backup_proof_record_of v).
Definition insert_proof (p : paired_proof) (manifest : string) : Store unit :=
  t ← now;
  let row := ProofRow (pf_backup_set_digest p) manifest
    (format_registry_time (pf_primary_completed_at p)) (pf_primary_snapshot_count p)
    (format_registry_time (pf_independent_completed_at p)) (pf_independent_snapshot_count p)
    (format_registry_time (pf_restore_completed_at p)) (pf_restored_database_count p)
    (pf_verified_sample_count p) t in
  ensure (proof_check row) IntegrityError;;
  execute (set_backup_proofs (<[pf_id p := row]>)).
(** [record_paired_backup_proof]. *)
Definition record_paired_backup_proof (p : paired_backup_proof_input) (actor_id key : string) :
    Store paired_backup_proof_record :=
  '(validated, manifest) ← validated_paired_backup_proof p;
  parsed ← json_loads manifest;
  let request := paired_backup_proof_request validated parsed in
  let operation := "INTERNAL:backup-proofs/record" in
  let id := pf_id validated in
  transaction (
    replay ← receipt actor_id operation key request;
    match replay with
    | Some r => paired_backup_proof_receipt (cr_value r)
    | None =>
        existing ← query (λ d, paired_backup_proofs d !! id);
        '(record, code) ← (if bool_decide (is_Some existing) then
            record ← paired_backup_proof id;
            m ← parsed_manifest (pf_manifest (pk_proof record));
            ensure (py_equal (paired_backup_proof_request (pk_proof record) m) request) IdempotencyConflict;;
            mret (record, 200)
          else
            validate_protected_set_coverage (pf_manifest validated);;
            insert_proof validated manifest;;
            record ← paired_backup_proof id; mret (record, 201));
        response ← paired_backup_proof_response record;
        save_receipt actor_id operation key request response code;;
        mret record
    end).
Definition get_paired_backup_proof (proof_id : string) : Store paired_backup_proof_record :=
  registry_resource_id "proof_id" proof_id;; paired_backup_proof proof_id.
(** [ORDER BY restore_completed_at DESC, id DESC LIMIT ?]. *)
Definition recent_first (l : list (string * string)) : list (string * string) := rev (isort pair_le l).
Definition list_paired_backup_proofs (limit : Z) : Store (list paired_backup_proof_record) :=
  invalid "limit must be between 1 and 200" ((1 <=? limit) && (limit <=? 200));;
  rows ← query (λ d, take (Z.to_nat limit) (recent_first (map
    (λ x : string * proof_row, (bp_restore_completed_at x.2, x.1)) (map_to_list (paired_backup_proofs d)))));
  map_m (λ x, paired_backup_proof x.2) rows.
End Proofs.
