(* ===== verification/Health.v ===== *)
(** * System health observations

    What was observed about an asset root, a connector or a backup proof: written once,
    the newest of a subject is read. *)

From Stdlib Require Import Ascii.
From S2P Require Import Prelude PyText Clock Json Schema Store Runs Activation Resources Transport ArtifactModels Registry Evidence.
Open Scope Z_scope.

(** A metric is a boolean or a number. *)
Inductive metric := MBool (b : bool) | MInt (n : Z).
Record health_subject := HealthSubject { hs_kind : string; hs_id : string }.
Record health_input := HealthInput {
  hi_observation_id : string; hi_subject : health_subject; hi_status : string; hi_category : string;
  hi_observed_at : Z; hi_metrics : list (string * metric) }.
(** [SystemHealthObservationRecord]: what was observed, and when it was filed. *)
Record health_record := HealthRecord { hr_input : health_input; hr_created_at : Z }.

Definition metric_json (m : metric) : json := match m with MBool b => JBool b | MInt n => JInt n end.
Definition metric_of (v : json) : option metric :=
  match v with JBool b => Some (MBool b) | JInt n => Some (MInt n) | _ => None end.
Section Health.
Context `{Env} `{UnicodeChecks} `{StoreIdentity}.

(** [_validated_health_metrics]. *)
Definition metric_value_ok (m : metric) : bool := match m with MBool _ => true | MInt n => 0 <=? n end.
Definition validated_metric (x : string * metric) : Store unit :=
  invalid "metric key is invalid"
    (metric_key_ok x.1 && forallb (λ term, negb (str_contains term x.1)) HEALTH_SENSITIVE_TERMS);;
  invalid "metric value must be a boolean or non-negative integer" (metric_value_ok x.2).
Definition validated_health_metrics (l : list (string * metric)) : Store unit :=
  invalid "metrics must be a tuple of at most 32 pairs" (Z.of_nat (length l) <=? 32);;
  map_m validated_metric l;;
  invalid "metric keys must be unique and sorted"
    (bool_decide (isort str_le (map fst l) = map fst l) && bool_decide (NoDup (map fst l))).
Definition validated_health_subject (s : health_subject) : Store unit :=
  if String.eqb (hs_kind s) "asset_root" then invalid "root_id is invalid" (root_ok (hs_id s))
  else if String.eqb (hs_kind s) "connector" then connector_machine_id "subject.id" (hs_id s)
  else if String.eqb (hs_kind s) "backup_proof" then registry_resource_id "subject.id" (hs_id s)
  else raise (ValueError "subject kind is invalid").
(** [_validated_system_health_observation]. *)
Definition validated_system_health_observation (o : health_input) : Store unit :=
  registry_resource_id "observation_id" (hi_observation_id o);;
  validated_health_subject (hi_subject o);;
  invalid "status is invalid" (in_texts (hi_status o) HEALTH_STATUSES);;
  invalid "category is invalid" (registry_id_ok (hi_category o));;
  n ← utc_now;
  validated_evidence_time "observed_at" n (hi_observed_at o);;
  validated_health_metrics (hi_metrics o).

(** [_validate_health_subject_exists]. *)
Definition subject_exists (s : health_subject) (d : db) : bool :=
  if String.eqb (hs_kind s) "asset_root" then bool_decide (is_Some (asset_roots d !! hs_id s))
  else if String.eqb (hs_kind s) "connector" then bool_decide (is_Some (connectors d !! hs_id s))
  else bool_decide (is_Some (paired_backup_proofs d !! hs_id s)).
Definition subject_words (kind : string) : string :=
  if String.eqb kind "asset_root" then "asset root"
  else if String.eqb kind "backup_proof" then "backup proof" else kind.
Definition validate_health_subject_exists (s : health_subject) : Store unit :=
  there ← query (subject_exists s);
  ensure there (NotFound (subject_words (hs_kind s)) (hs_id s)).
(** [_health_subject_storage]: the column of a subject. *)
Definition subject_column (kind : string) (r : observation_row) : option string :=
  if String.eqb kind "asset_root" then ho_asset_root_id r
  else if String.eqb kind "connector" then ho_connector_id r else ho_backup_proof_id r.
Definition row_subject (r : observation_row) : option health_subject :=
  match ho_asset_root_id r, ho_connector_id r, ho_backup_proof_id r with
  | Some i, None, None => Some (HealthSubject "asset_root" i)
  | None, Some i, None => Some (HealthSubject "connector" i)
  | None, None, Some i => Some (HealthSubject "backup_proof" i)
  | _, _, _ => None
  end.

(** [_system_health_observation]. *)
Definition metric_of_item (x : string * json) : Store (string * metric) :=
  m ← from_option (metric_of x.2) (ValueError "metric value must be a boolean or non-negative integer");
  mret (x.1, m).
Definition read_metrics (items : list (string * json)) : Store (list (string * metric)) :=
  l ← map_m metric_of_item items; validated_health_metrics l;; mret l.
Definition system_health_observation (observation_id : string) : Store health_record :=
  row ← query (λ d, system_health_observations d !! observation_id);
  r ← from_option row (NotFound "system health observation" observation_id);
  subject ← from_option (row_subject r) (RuntimeError "system health subject is invalid");
  v ← json_loads (ho_metrics_json r);
  metrics ← (match v with
    | JObj kvs => read_metrics (sort_pairs kvs)
    | _ => raise (RuntimeError "system health metrics are invalid")
    end);
  registry_resource_id "observation_id" observation_id;;
  observed ← control_time (ho_observed_at r); created ← control_time (ho_created_at r);
  mret (HealthRecord (HealthInput observation_id subject (ho_status r) (ho_category r) observed metrics) created).

(** [_system_health_request], [_system_health_response], [_system_health_receipt]. *)
Definition system_health_fields (o : health_input) : list (string * json) :=
  [("observation_id", JStr (hi_observation_id o));
   ("subject", JObj [("kind", JStr (hs_kind (hi_subject o))); ("id", JStr (hs_id (hi_subject o)))]);
   ("status", JStr (hi_status o)); ("category", JStr (hi_category o));
   ("observed_at", JStr (format_registry_time (hi_observed_at o)));
   ("metrics", JArr (map (λ x, JArr [JStr x.1; metric_json x.2]) (hi_metrics o)))].
Definition system_health_request (o : health_input) : json := JObj (system_health_fields o).
Definition system_health_response (r : health_record) : json := JObj
  (system_health_fields (hr_input r) ++ [("created_at", JStr (format_time (hr_created_at r)))]).
Definition metric_pair (v : json) : Store (string * metric) :=
  match v with
  | JArr [JStr k; x] => metric_of_item (k, x)
  | JArr [_; _] => raise (ValueError "metric key is invalid")
  | _ => raise (RuntimeError "system health receipt is invalid")
  end.
Definition system_health_receipt (v : json) : Store health_record :=
  ensure (same_keys v ["observation_id"; "subject"; "status"; "category"; "observed_at"; "metrics"; "created_at"])
    (RuntimeError "system health receipt is invalid");;
  let s := field "subject" v in
  of_res (registry_mapping "subject" ["kind"; "id"] s);;
  metrics ← (match field "metrics" v with
    | JArr l => map_m metric_pair l
    | _ => raise (RuntimeError "system health receipt is invalid")
    end);
  id ← text_field "observation_id is invalid" (field "observation_id" v);
  kind ← text_field "subject kind is invalid" (field "kind" s);
  subject_id ← text_field "subject.id is invalid" (field "id" s);
  status ← text_field "status is invalid" (field "status" v);
  category ← text_field "category is invalid" (field "category" v);
  at_ ← text_field "stored registry time is invalid" (field "observed_at" v); observed ← control_time at_;
  let o := HealthInput id (HealthSubject kind subject_id) status category observed metrics in
  validated_system_health_observation o;;
  c ← text_field "stored registry time is invalid" (field "created_at" v); created ← control_time c;
  mret (HealthRecord o created).

(** [record_system_health_observation]. *)
Definition subject_row (s : health_subject) (status category observed_at metrics_json t : string) : observation_row :=
  let column k := if String.eqb (hs_kind s) k then Some (hs_id s) else None in
  ObservationRow (column "asset_root") (column "connector") (column "backup_proof")
    status category observed_at metrics_json t.
Definition insert_observation (o : health_input) : Store unit :=
  t ← now;
  let row := subject_row (hi_subject o) (hi_status o) (hi_category o)
    (format_registry_time (hi_observed_at o))
    (json_text (JObj (map (λ x, (x.1, metric_json x.2)) (hi_metrics o)))) t in
  ensure (observation_check row) IntegrityError;;
  execute (set_health (<[hi_observation_id o := row]>)).
Definition record_system_health_observation (o : health_input) (actor_id key : string) : Store health_record :=
  validated_system_health_observation o;;
  let request := system_health_request o in
  let operation := "INTERNAL:system-health/record" in
  let id := hi_observation_id o in
  transaction (
    replay ← receipt actor_id operation key request;
    match replay with
    | Some r => system_health_receipt (cr_value r)
    | None =>
        existing ← query (λ d, system_health_observations d !! id);
        '(record, code) ← (if bool_decide (is_Some existing) then
            record ← system_health_observation id;
            ensure (py_equal (system_health_request (hr_input record)) request) IdempotencyConflict;;
            mret (record, 200)
          else
            validate_health_subject_exists (hi_subject o);;
            insert_observation o;;
            record ← system_health_observation id; mret (record, 201));
        save_receipt actor_id operation key request (system_health_response record) code;;
        mret record
    end).

(** [latest_system_health_observation]: [ORDER BY observed_at DESC, id DESC LIMIT 1]. *)
Definition observations_of (s : health_subject) (d : db) : list (string * string) :=
  omap (λ x : string * observation_row,
    if bool_decide (subject_column (hs_kind s) x.2 = Some (hs_id s)) then Some (ho_observed_at x.2, x.1) else None)
    (map_to_list (system_health_observations d)).
Definition latest_system_health_observation (s : health_subject) : Store (option health_record) :=
  validated_health_subject s;;
  validate_health_subject_exists s;;
  rows ← query (λ d, recent_first (observations_of s d));
  match rows with
  | [] => mret None
  | x :: _ => r ← system_health_observation x.2; mret (Some r)
  end.
End Health.
