(* ===== verification/RegistryFacts.v ===== *)
(** * What the registry commands leave as it is

    Configuration rows are never dropped and their revisions only grow; evidence is never
    touched.  Sessions of registry commands. *)

From S2P Require Import Prelude PyText Clock Json Schema Store Runs Activation ActivationFacts Resources Transport ArtifactModels Registry Evidence Health.
Open Scope Z_scope.

Definition root_le (r r' : asset_root_row) : Prop :=
  ag_revision r <= ag_revision r' ∧ ag_created_at r' = ag_created_at r ∧
  (ag_revision r' = ag_revision r → r' = r).
Definition connector_le (r r' : connector_row) : Prop :=
  cn_revision r <= cn_revision r' ∧ cn_created_at r' = cn_created_at r ∧ cn_kind r' = cn_kind r ∧
  (cn_revision r' = cn_revision r → r' = r).
#[export] Instance root_le_preorder : PreOrder root_le.
Proof.
  split; [by intros r|]. intros a b c (H1 & H2 & H3) (H4 & H5 & H6). split_and!; [lia|congruence|].
  intros He. rewrite H6 by lia. apply H3. lia.
Qed.
#[export] Instance connector_le_preorder : PreOrder connector_le.
Proof.
  split; [by intros r|]. intros a b c (H1 & H2 & Hk & H3) (H4 & H5 & Hk' & H6).
  split_and!; [lia|congruence|congruence|]. intros He. rewrite H6 by lia. apply H3. lia.
Qed.
(** Every row of one table has a later form in the other. *)
Definition table_le {A} (le : A → A → Prop) (m m' : gmap string A) : Prop :=
  ∀ k r, m !! k = Some r → ∃ r', m' !! k = Some r' ∧ le r r'.
Lemma table_le_refl {A} (le : A → A → Prop) `{!PreOrder le} m : table_le le m m.
Proof. intros k r Hk. exists r. by split. Qed.
Lemma table_le_trans {A} (le : A → A → Prop) `{!PreOrder le} m1 m2 m3 :
  table_le le m1 m2 → table_le le m2 m3 → table_le le m1 m3.
Proof.
  intros H1 H2 k r (r2 & Hk2 & Hle)%H1. destruct (H2 k r2 Hk2) as (r3 & Hk3 & Hle').
  exists r3. split; [done|by etrans].
Qed.
Lemma table_le_insert {A} (le : A → A → Prop) `{!PreOrder le} m k r' :
  (∀ r, m !! k = Some r → le r r') → table_le le m (<[k := r']> m).
Proof.
  intros Hle j r Hj. destruct (decide (k = j)) as [<-|Hne].
  - exists r'. rewrite lookup_insert_eq. auto.
  - exists r. rewrite lookup_insert_ne by done. by split.
Qed.

Record registry := RegistryView {
  vw_roots : gmap string asset_root_row; vw_connectors : gmap string connector_row;
  vw_proofs : gmap string proof_row; vw_health : gmap string observation_row }.
Definition registry_of (d : db) : registry :=
  RegistryView (asset_roots d) (connectors d) (paired_backup_proofs d) (system_health_observations d).
Definition registry_le (w w' : world) : Prop :=
  let v := registry_of (w_db w) in let v' := registry_of (w_db w') in
  table_le root_le (vw_roots v) (vw_roots v') ∧ table_le connector_le (vw_connectors v) (vw_connectors v') ∧
  table_le eq (vw_proofs v) (vw_proofs v') ∧ table_le eq (vw_health v) (vw_health v').
Lemma registry_same w w' : registry_of (w_db w') = registry_of (w_db w) → registry_le w w'.
Proof. unfold registry_le. intros ->. split_and!; apply table_le_refl; apply _. Qed.
#[export] Instance registry_le_preorder : PreOrder registry_le.
Proof.
  split; [intros w; by apply registry_same|].
  intros w1 w2 w3 (A1 & A2 & A3 & A4) (B1 & B2 & B3 & B4).
  split_and!; eapply table_le_trans; eauto; apply _.
Qed.

Section RegistryFacts.
Context `{Env} `{UnicodeChecks} `{StoreIdentity}.

(** ** Checks and reads leave the registry alone *)
Lemma reg_keeps {A} (m : Store A) : keeps (λ w, registry_of (w_db w)) m → evolves registry_le m.
Proof. apply (view_keeps registry_of registry_le). apply registry_same. Qed.
Lemma keeps_pure {V A} (view : world → V) (m : Store A) : pure m → keeps view m.
Proof. intros [[a Hm]|[e Hm]] w; by rewrite Hm. Qed.
Lemma registry_keeps_utc_now {V} (view : db → V) : keeps (λ w, view (w_db w)) utc_now.
Proof. done. Qed.
Lemma registry_keeps_now {V} (view : db → V) : keeps (λ w, view (w_db w)) now.
Proof. done. Qed.
Lemma registry_keeps_control_time {V} (view : world → V) s : keeps view (control_time s).
Proof. apply keeps_pure, pure_control_time. Qed.
Lemma keeps_invalid {V} (view : world → V) m b : keeps view (invalid m b).
Proof. apply keeps_ensure. Qed.
Lemma keeps_of_res {V A} (view : world → V) (x : Res A) : keeps view (of_res x).
Proof. destruct x; simpl; eauto with keeps. Qed.
Lemma keeps_value_error_as {V A} (view : world → V) e (m : Store A) :
  keeps view m → keeps view (value_error_as e m).
Proof. intros Hm w. specialize (Hm w). unfold value_error_as. destruct (m w) as [a w'|[] w']; done. Qed.
Lemma pure_of_res {A} (x : Res A) : pure (of_res x).
Proof. destruct x; [apply pure_raise|apply pure_ret]. Qed.
End RegistryFacts.
(** [purely] follows checks that read nothing. *)
Ltac purely :=
  repeat first
    [ progress cbn beta iota zeta
    | apply pure_raise | apply pure_ret | apply pure_ensure | apply pure_from_option
    | apply pure_control_time | apply pure_of_res | apply pure_map_m; intros ?
    | apply pure_bind; [|intros ?] | case_match ].
#[export] Hint Resolve registry_keeps_utc_now registry_keeps_now registry_keeps_control_time keeps_invalid keeps_of_res
  keeps_value_error_as keeps_json_loads keeps_query : keeps.
(** [looking] follows a command that writes nothing. *)
Ltac looking :=
  repeat first
    [ progress cbn beta iota zeta
    | solve [auto 2 with nocore]
    | apply keeps_raise | apply keeps_ret | apply keeps_ensure | apply keeps_from_option
    | apply keeps_query | apply keeps_json_loads | apply registry_keeps_control_time | apply keeps_invalid
    | apply keeps_of_res | apply keeps_value_error_as | apply keeps_map_m; intros ?
    | apply (registry_keeps_utc_now registry_of) | apply (registry_keeps_now registry_of)
    | assumption
    | apply keeps_bind; [|intros ?] | case_match ].

Section RegistryReads.
Context `{Env} `{UnicodeChecks} `{StoreIdentity}.
Abbreviation reads := (keeps (λ w, registry_of (w_db w))).

Lemma reads_asset_root_of id : reads (asset_root_of id).
Proof. unfold asset_root_of. looking. Qed.
Lemma reads_connector_of id : reads (connector_of id).
Proof. unfold connector_of. looking. Qed.
Lemma reads_validated_asset_root a b c : reads (validated_asset_root a b c).
Proof. unfold validated_asset_root. looking. Qed.
Lemma reads_validated_connector a b c d : reads (validated_connector a b c d).
Proof. unfold validated_connector, connector_machine_id. looking. Qed.
Lemma reads_asset_root_receipt v : reads (asset_root_receipt v).
Proof.
  unfold asset_root_receipt, text_field, int_field, bool_field, receipt_times, receipt_revision, text_field.
  pose proof reads_validated_asset_root. looking; auto.
Qed.
Lemma reads_connector_receipt v : reads (connector_receipt v).
Proof.
  unfold connector_receipt, text_field, bool_field, receipt_times, receipt_revision, text_field, alias_field,
    connector_machine_id.
  pose proof reads_validated_connector. looking; auto.
Qed.
Lemma reads_validated_proof p : reads (validated_paired_backup_proof p).
Proof.
  unfold validated_paired_backup_proof, registry_resource_id, validated_backup_copy, validated_restore,
    validated_evidence_time, registry_count. looking.
Qed.
Lemma reads_proof_record v : reads (paired_backup_proof_record_of v).
Proof.
  unfold paired_backup_proof_record_of, text_field, int_field, registry_resource_id, registry_count. looking.
Qed.
Lemma reads_proof id : reads (paired_backup_proof id).
Proof. unfold paired_backup_proof. pose proof reads_proof_record. looking; auto. Qed.
Lemma reads_parsed_manifest m : reads (parsed_manifest m).
Proof. unfold parsed_manifest. looking. Qed.
Lemma reads_proof_response r : reads (paired_backup_proof_response r).
Proof. unfold paired_backup_proof_response. pose proof reads_parsed_manifest. looking; auto. Qed.
Lemma reads_proof_receipt v : reads (paired_backup_proof_receipt v).
Proof. apply keeps_value_error_as, reads_proof_record. Qed.
Lemma reads_metrics l : reads (validated_health_metrics l).
Proof. unfold validated_health_metrics, validated_metric. looking. Qed.
Lemma reads_subject s : reads (validated_health_subject s).
Proof. unfold validated_health_subject, connector_machine_id, registry_resource_id. looking. Qed.
Lemma reads_validated_health o : reads (validated_system_health_observation o).
Proof.
  unfold validated_system_health_observation, registry_resource_id, validated_evidence_time.
  pose proof reads_subject. pose proof reads_metrics. looking; auto.
Qed.
Lemma reads_observation id : reads (system_health_observation id).
Proof.
  unfold system_health_observation, read_metrics, metric_of_item, registry_resource_id.
  pose proof reads_metrics. looking; auto.
Qed.
Lemma reads_health_receipt v : reads (system_health_receipt v).
Proof.
  unfold system_health_receipt, metric_pair, metric_of_item, text_field.
  pose proof reads_validated_health. looking; auto.
Qed.
Lemma reads_latest s : reads (latest_system_health_observation s).
Proof.
  unfold latest_system_health_observation, validate_health_subject_exists.
  pose proof reads_subject. pose proof reads_observation. looking; auto.
Qed.

(** ** The commands *)
Lemma reads_save_receipt a o k request v code : reads (save_receipt a o k request v code).
Proof. by apply keeps_save_receipt. Qed.
Lemma reads_ok {A} (m : Store A) w a w' : reads m → m w = Ok a w' → registry_of (w_db w') = registry_of (w_db w).
Proof. intros Hm Hr. specialize (Hm w). by rewrite Hr in Hm. Qed.
Lemma evolves_tx {A} (m : Store A) :
  (∀ w a w', m w = Ok a w' → registry_le w w') → evolves registry_le (transaction m).
Proof.
  intros Hm w. destruct (transaction m w) as [a w'|e w'] eqn:E; simpl.
  - exact (Hm _ _ _ (proj1 (transaction_ok _ _ _ _) E)).
  - apply transaction_err in E. apply registry_same. by rewrite E.
Qed.
(** A filed command answers from its receipt, or its body does and files one. *)
Lemma filed_ok {A} a o k request (from : json → Store A) (body : Store A) w r w' :
  (∀ v, reads (from v)) →
  (replay ← receipt a o k request;
   match replay with Some x => from (cr_value x) | None => body end) w = Ok r w' →
  (is_Some (idempotency_receipts (w_db w) !! (a, o, k)) ∧ registry_of (w_db w') = registry_of (w_db w)) ∨
  (idempotency_receipts (w_db w) !! (a, o, k) = None ∧ body w = Ok r w').
Proof.
  intros Hf Hr. apply bind_ok in Hr as (replay & w1 & Hrec & Hr).
  apply receipt_ok in Hrec as (-> & _ & Hrec). destruct (idempotency_receipts (w_db w) !! (a, o, k)).
  - destruct Hrec as (_ & v & _ & ->). left. split; [done|]. eapply reads_ok; [apply Hf|exact Hr].
  - subst. by right.
Qed.
Lemma registered_ok {R} a o k request code from (response : R → json) body w r w' :
  (∀ v, reads (from v)) → registered a o k request code from response body w = Ok r w' →
  (is_Some (idempotency_receipts (w_db w) !! (a, o, k)) ∧ registry_of (w_db w') = registry_of (w_db w)) ∨
  (idempotency_receipts (w_db w) !! (a, o, k) = None ∧
   ∃ w1, body w = Ok r w1 ∧ registry_of (w_db w') = registry_of (w_db w1)).
Proof.
  intros Hf Hr. unfold registered in Hr. rewrite transaction_ok in Hr.
  apply filed_ok in Hr as [?|[Hn Hr]]; [by left| |done]. right. split; [done|].
  apply bind_ok in Hr as (r1 & w1 & Hb & Hr). apply bind_ok in Hr as (c & w2 & Hs & Hr).
  apply ret_ok in Hr as [-> ->]. exists w1. split; [done|]. eapply reads_ok; [apply reads_save_receipt|exact Hs].
Qed.
Definition fresh_root (path : string) (max : Z) (on : bool) (t : string) : asset_root_row :=
  AssetRootRow path max on 0 t t.
Definition updated_root (path : string) (max : Z) (on : bool) (t : string) (r : asset_root_row) : asset_root_row :=
  AssetRootRow path max on (ag_revision r + 1) (ag_created_at r) t.
Definition updated_connector (adapter name : string) (alias : option string) (on : bool) (t : string)
    (r : connector_row) : connector_row :=
  ConnectorRow (cn_kind r) adapter name alias on (cn_revision r + 1) (cn_created_at r) t.
Lemma pure_invalid m b : pure (invalid m b).
Proof. apply pure_ensure. Qed.
Lemma pure_validated_asset_root a b c : pure (validated_asset_root a b c).
Proof. unfold validated_asset_root. eauto using pure_invalid with pure. Qed.
Lemma pure_validated_connector a b c d : pure (validated_connector a b c d).
Proof. unfold validated_connector, connector_machine_id. cbv zeta. eauto 12 using pure_invalid with pure. Qed.
Lemma asset_root_of_db id d t n r w' :
  asset_root_of id (World d t n) = Ok r w' → registry_of (w_db w') = registry_of d.
Proof. intros Hr. apply reads_ok in Hr; [done|apply reads_asset_root_of]. Qed.
Lemma connector_of_db id d t n r w' :
  connector_of id (World d t n) = Ok r w' → registry_of (w_db w') = registry_of d.
Proof. intros Hr. apply reads_ok in Hr; [done|apply reads_connector_of]. Qed.

(** What an answered command has done: nothing, when its key has a receipt, or its write. *)
Lemma register_root_ok id path max on a k w r w' :
  register_asset_root id path max on a k w = Ok r w' →
  registry_of (w_db w') = registry_of (w_db w) ∨
  (asset_roots (w_db w) !! id = None ∧ ∃ t,
   registry_of (w_db w') = registry_of (set_asset_roots (<[id := fresh_root path max on t]>) (w_db w))).
Proof.
  unfold register_asset_root. intros Hr. apply bind_ok in Hr as (u & w0 & Hv & Hr).
  destruct (pure_ok _ _ _ _ (pure_validated_asset_root _ _ _) Hv) as [-> _].
  apply registered_ok in Hr as [[_ Hr]|(_ & w1 & Hb & Hr)]; [by left| |apply reads_asset_root_receipt].
  right. mgo. split; [by eapply bool_decide_eq_true|]. eexists. rewrite Hr. by eapply asset_root_of_db.
Qed.
Lemma update_root_ok id path max on e a k w r w' :
  update_asset_root id path max on e a k w = Ok r w' →
  (is_Some (idempotency_receipts (w_db w) !! (a, "INTERNAL:asset-roots/" +:+ id +:+ "/update", k)) ∧
   registry_of (w_db w') = registry_of (w_db w)) ∨
  (∃ row t, asset_roots (w_db w) !! id = Some row ∧ ag_revision row = e ∧
   registry_of (w_db w') = registry_of (set_asset_roots (<[id := updated_root path max on t row]>) (w_db w))).
Proof.
  unfold update_asset_root. intros Hr. apply bind_ok in Hr as (u & w0 & Hv & Hr).
  destruct (pure_ok _ _ _ _ (pure_validated_asset_root _ _ _) Hv) as [-> _].
  apply bind_ok in Hr as (u' & w0 & He & Hr). apply ensure_ok in He as (_ & _ & ->).
  apply registered_ok in Hr as [[Hi Hr]|(_ & w1 & Hb & Hr)]; [by left| |apply reads_asset_root_receipt].
  right. apply bind_ok in Hb as (t & w2 & Ht & Hb). apply now_ok in Ht as [-> ->].
  apply bind_ok in Hb as (o & w2 & Hq & Hb). apply query_ok in Hq as [-> ->]. simpl in Hb.
  destruct (asset_roots (w_db w) !! id) as [row|]; [|by rewrite raise_ok in Hb].
  destruct (Z.eqb_spec (ag_revision row) e) as [He|_]; mgo.
  exists row. eexists. split_and!; [done|done|]. rewrite Hr. by eapply asset_root_of_db.
Qed.
Lemma register_connector_ok id kind ad name alias on a k w r w' :
  register_connector id kind ad name alias on a k w = Ok r w' →
  registry_of (w_db w') = registry_of (w_db w) ∨
  (connectors (w_db w) !! id = None ∧ ∃ row,
   registry_of (w_db w') = registry_of (set_connectors (<[id := row]>) (w_db w))).
Proof.
  unfold register_connector. intros Hr. apply bind_ok in Hr as (u & w0 & Hv & Hr).
  destruct (pure_ok _ _ _ _ (pure_validated_connector _ _ _ _) Hv) as [-> _].
  apply bind_ok in Hr as (u' & w0 & He & Hr). apply ensure_ok in He as (_ & _ & ->).
  apply registered_ok in Hr as [[_ Hr]|(_ & w1 & Hb & Hr)]; [by left| |apply reads_connector_receipt].
  right. mgo. split; [by eapply bool_decide_eq_true|]. eexists. rewrite Hr. by eapply connector_of_db.
Qed.
Lemma update_connector_ok id ad name alias on e a k w r w' :
  update_connector id ad name alias on e a k w = Ok r w' →
  (is_Some (idempotency_receipts (w_db w) !! (a, "INTERNAL:connectors/" +:+ id +:+ "/update", k)) ∧
   registry_of (w_db w') = registry_of (w_db w)) ∨
  (∃ row t name', connectors (w_db w) !! id = Some row ∧ cn_revision row = e ∧
   registry_of (w_db w') =
     registry_of (set_connectors (<[id := updated_connector ad name' alias on t row]>) (w_db w))).
Proof.
  unfold update_connector. intros Hr. apply bind_ok in Hr as (name' & w0 & Hv & Hr).
  destruct (pure_ok _ _ _ _ (pure_validated_connector _ _ _ _) Hv) as [-> _].
  apply bind_ok in Hr as (u' & w0 & He & Hr). apply ensure_ok in He as (_ & _ & ->).
  apply registered_ok in Hr as [[Hi Hr]|(_ & w1 & Hb & Hr)]; [by left| |apply reads_connector_receipt].
  right. apply bind_ok in Hb as (t & w2 & Ht & Hb). apply now_ok in Ht as [-> ->].
  apply bind_ok in Hb as (o & w2 & Hq & Hb). apply query_ok in Hq as [-> ->]. simpl in Hb.
  destruct (connectors (w_db w) !! id) as [row|]; [|by rewrite raise_ok in Hb].
  destruct (Z.eqb_spec (cn_revision row) e) as [He|_]; mgo.
  exists row. do 2 eexists. split_and!; [done|done|]. rewrite Hr. by eapply connector_of_db.
Qed.

(** ** Evidence *)
Definition proof_of (p : paired_backup_proof_input) (digest : string) : paired_proof :=
  PairedProof (pp_proof_id p) digest (pp_protected_set_manifest p)
    (bc_completed_at (pp_primary p)) (bc_snapshot_count (pp_primary p))
    (bc_completed_at (pp_independent p)) (bc_snapshot_count (pp_independent p))
    (rv_completed_at (pp_restore p)) (rv_database_count (pp_restore p))
    (rv_verified_sample_count (pp_restore p)).
(** The restore was verified after both copies, by the time [n]. *)
Definition proof_sound (n : Z) (v : paired_proof) : Prop :=
  registry_id_ok (pf_id v) = true ∧
  pf_primary_completed_at v <= pf_restore_completed_at v <= n ∧
  pf_independent_completed_at v <= pf_restore_completed_at v ∧
  1 <= pf_primary_snapshot_count v ∧ 1 <= pf_independent_snapshot_count v ∧
  1 <= pf_restored_database_count v ∧ 0 <= pf_verified_sample_count v.
(** Both copies and the restore name the digest of the manifest, and are verified. *)
Definition evidence_names (p : paired_backup_proof_input) (digest : string) : Prop :=
  bc_backup_set_digest (pp_primary p) = digest ∧ bc_verified (pp_primary p) = true ∧
  bc_backup_set_digest (pp_independent p) = digest ∧ bc_verified (pp_independent p) = true ∧
  rv_backup_set_digest (pp_restore p) = digest ∧ rv_verified (pp_restore p) = true.
Lemma of_res_ok {A} (x : Res A) w a w' : of_res x w = Ok a w' ↔ x = inr a ∧ w' = w.
Proof. unfold of_res, raise, mret, M_ret. destruct x; naive_solver. Qed.
Lemma invalid_ok m b w u w' : invalid m b w = Ok u w' → b = true ∧ w' = w.
Proof. intros Hi. by apply ensure_ok in Hi as (? & _ & ?). Qed.
Lemma validated_proof_ok p w v m w' :
  validated_paired_backup_proof p w = Ok (v, m) w' →
  canonical_protected_set_manifest (pp_protected_set_manifest p) = inr m ∧ v = proof_of p (sha256 m) ∧
  proof_sound (clock (w_ticks w)) v ∧ evidence_names p (sha256 m) ∧ w_db w' = w_db w.
Proof.
  unfold validated_paired_backup_proof, registry_resource_id, validated_backup_copy, validated_restore,
    validated_evidence_time, registry_count, invalid. intros Hv.
  apply bind_ok in Hv as (? & ? & Hi & Hv). apply ensure_ok in Hi as (Hid & _ & ->).
  apply bind_ok in Hv as (m' & ? & Hm & Hv). apply of_res_ok in Hm as [Hm ->].
  apply bind_ok in Hv as (n & ? & Hn & Hv). apply utc_now_ok in Hn as [-> ->].
  mgo. simplify_eq. unfold proof_sound, evidence_names. simpl.
  rewrite ?String.eqb_eq in *. split_and!; try done; lia.
Qed.
Definition row_of_proof (v : paired_proof) (m t : string) : proof_row :=
  ProofRow (pf_backup_set_digest v) m
    (format_registry_time (pf_primary_completed_at v)) (pf_primary_snapshot_count v)
    (format_registry_time (pf_independent_completed_at v)) (pf_independent_snapshot_count v)
    (format_registry_time (pf_restore_completed_at v)) (pf_restored_database_count v)
    (pf_verified_sample_count v) t.
(** A proof that is not there yet is filed against the registry of the moment. *)
Definition covers (m : protected_set_manifest) (d : db) : Prop :=
  snapshot_identity (pm_control_store m) = current_control_store_identity ∧
  map (λ r, (pa_root_id r, pa_revision r)) (pm_asset_roots m) = enabled_roots d.
(** A proof is read from its row, and from nothing else. *)
Lemma pure_proof_record v : pure (paired_backup_proof_record_of v).
Proof.
  unfold paired_backup_proof_record_of, text_field, int_field, registry_resource_id, registry_count, invalid.
  purely.
Qed.
Lemma proof_reads id w r w' :
  paired_backup_proof id w = Ok r w' →
  w' = w ∧ ∀ w1, paired_backup_proofs (w_db w1) !! id = paired_backup_proofs (w_db w) !! id →
    paired_backup_proof id w1 = Ok r w1.
Proof.
  unfold paired_backup_proof. intros Hr. apply bind_ok in Hr as (o & w0 & Hq & Hr).
  apply query_ok in Hq as [-> ->].
  assert (Hp : ∀ o, pure (r ← from_option o (NotFound "paired backup proof" id);
    m ← json_loads (bp_manifest_json r); paired_backup_proof_record_of (JObj
    [("id", JStr id); ("backup_set_digest", JStr (bp_backup_set_digest r));
     ("protected_set_manifest", m);
     ("primary_completed_at", JStr (bp_primary_completed_at r));
     ("primary_snapshot_count", JInt (bp_primary_snapshot_count r));
     ("independent_completed_at", JStr (bp_independent_completed_at r));
     ("independent_snapshot_count", JInt (bp_independent_snapshot_count r));
     ("restore_completed_at", JStr (bp_restore_completed_at r));
     ("restored_database_count", JInt (bp_restored_database_count r));
     ("verified_sample_count", JInt (bp_verified_sample_count r));
     ("created_at", JStr (bp_created_at r))]))).
  { intros o. apply pure_bind; [apply pure_from_option|intros x]. apply pure_bind; [apply pure_from_option|intros m].
    apply pure_proof_record. }
  destruct (pure_ok _ _ _ _ (Hp _) Hr) as [-> Hall]. split; [done|]. intros w1 Hw1.
  rewrite (bind_run _ _ _ (paired_backup_proofs (w_db w1) !! id) w1) by (by apply query_ok).
  rewrite Hw1. apply Hall.
Qed.
Lemma record_proof_ok p a k w r w' :
  record_paired_backup_proof p a k w = Ok r w' →
  ∃ m, canonical_protected_set_manifest (pp_protected_set_manifest p) = inr m ∧
  let v := proof_of p (sha256 m) in
  proof_sound (clock (w_ticks w)) v ∧ evidence_names p (sha256 m) ∧
  (registry_of (w_db w') = registry_of (w_db w) ∧
     (is_Some (idempotency_receipts (w_db w) !! (a, "INTERNAL:backup-proofs/record", k)) ∨
      is_Some (paired_backup_proofs (w_db w) !! pp_proof_id p)) ∨
   paired_backup_proofs (w_db w) !! pp_proof_id p = None ∧ covers (pp_protected_set_manifest p) (w_db w) ∧
   ∃ t, registry_of (w_db w') =
       registry_of (set_backup_proofs (<[pp_proof_id p := row_of_proof v m (format_time t)]>) (w_db w)) ∧
     dt_valid t = true ∧ paired_backup_proof (pp_proof_id p) w' = Ok r w').
Proof.
  unfold record_paired_backup_proof. intros Hr. apply bind_ok in Hr as ([v m] & w0 & Hv & Hr).
  apply validated_proof_ok in Hv as (Hm & -> & Hsound & Hnames & Hdb). exists m. do 3 (split; [done|]). rewrite <- Hdb.
  apply bind_ok in Hr as (parsed & w1 & Hj & Hr). apply json_loads_ok in Hj as [_ ->]. cbv zeta in Hr.
  rewrite transaction_ok in Hr. apply filed_ok in Hr as [[Hi Hr]|[_ Hr]]; [left; by split; [|left]| |apply reads_proof_receipt].
  apply bind_ok in Hr as (o & w1 & Hq & Hr). apply query_ok in Hq as [-> ->].
  cbn [proof_of pf_id pf_manifest] in Hr.
  apply bind_ok in Hr as ([r1 code] & w1 & Hb & Hr).
  apply bind_ok in Hr as (resp & w2 & Hp & Hr). apply reads_ok in Hp as Hp'; [|apply reads_proof_response].
  apply bind_ok in Hr as (cr & w3 & Hs & Hr). apply reads_ok in Hs; [|apply reads_save_receipt].
  apply ret_ok in Hr as [-> ->].
  destruct (bool_decide (is_Some (paired_backup_proofs (w_db w0) !! pp_proof_id p))) eqn:Hrow; cbn iota in Hb.
  - left. split; [|right; exact (bool_decide_eq_true_1 _ Hrow)]. rewrite Hs, Hp'.
    apply bind_ok in Hb as (r2 & w4 & Hb & Hr). apply reads_ok in Hb; [|apply reads_proof].
    apply bind_ok in Hr as (m2 & w5 & Hb2 & Hr). apply reads_ok in Hb2; [|apply reads_parsed_manifest].
    apply bind_ok in Hr as (u & w6 & He & Hr). apply ensure_ok in He as (_ & _ & ->).
    apply ret_ok in Hr as [_ <-]. congruence.
  - right. split; [exact (proj2 (eq_None_not_Some _) (bool_decide_eq_false_1 _ Hrow))|].
    apply bind_ok in Hb as (u & w4 & Hc & Hb).
    unfold validate_protected_set_coverage in Hc. apply bind_ok in Hc as (rs & w5 & Hq & Hc).
    apply query_ok in Hq as [-> ->]. apply invalid_ok in Hc as [Hc ->].
    apply andb_true_iff in Hc as [Hc1%bool_decide_eq_true Hc2%bool_decide_eq_true]. split; [done|].
    apply bind_ok in Hb as (u' & w4 & Hi & Hb). unfold insert_proof in Hi.
    apply bind_ok in Hi as (t & w5 & Ht & Hi). apply now_ok in Ht as [-> ->].
    apply bind_ok in Hi as (u2 & w5 & He & Hi). apply ensure_ok in He as (_ & _ & ->).
    apply execute_ok in Hi as [_ ->].
    apply bind_ok in Hb as (r2 & w5 & Hb & Hr). apply ret_ok in Hr as [[= -> _] <-].
    apply proof_reads in Hb as [-> Hb]. exists (clock (w_ticks w0)).
    split_and!; [by rewrite Hs, Hp'|apply clock_valid|].
    apply Hb. apply (f_equal vw_proofs) in Hs, Hp'. simpl in Hs, Hp'. by rewrite Hs, Hp'.
Qed.
End RegistryReads.
