(* ===== verification/EvidenceFacts.v ===== *)
(** * Evidence is read back as it was filed

    The row of an observation and the row of a proof give back what was recorded. *)

From S2P Require Import Prelude PyText Clock Json Schema Store Runs Activation ActivationFacts Resources Transport TransportInvariant ArtifactModels Registry Evidence Health RegistryFacts.
Open Scope Z_scope.

(** ** Fields that come in order stay in order *)
Lemma isort_id {A} (le : A → A → bool) l : StronglySorted (λ a b, le a b = true) l → isort le l = l.
Proof.
  induction 1 as [|a l Hl IH Ha]; [done|]. simpl. rewrite IH. destruct l as [|b l]; [done|].
  simpl. by rewrite (Forall_inv Ha).
Qed.
Lemma sorted_keys_pairs (l : list (string * json)) :
  isort str_le (l.*1) = l.*1 → sort_pairs l = l.
Proof.
  intros Hk. apply isort_id.
  assert (Hs : StronglySorted (λ a b, str_le a b = true) (l.*1)).
  { rewrite <- Hk. apply isort_sorted; [|intros a b c; apply str_le_trans].
    intros a b. rewrite !str_le_compare, (String.compare_antisym a b). by destruct (String.compare b a). }
  clear Hk. induction l as [|p l IH]; [constructor|]. inversion Hs as [|? ? Hs' Hf]; subst.
  constructor; [by apply IH|]. by apply Forall_fmap in Hf.
Qed.

Section Health.
Context `{Env} `{UnicodeChecks} `{StoreIdentity}.

(** ** Observations *)
Definition filed (o : health_input) (t : string) : observation_row :=
  subject_row (hi_subject o) (hi_status o) (hi_category o) (format_registry_time (hi_observed_at o))
    (json_text (JObj (map (λ x, (x.1, metric_json x.2)) (hi_metrics o)))) t.
Definition metrics_good (l : list (string * metric)) : Prop := ∀ w, validated_health_metrics l w = Ok tt w.
Definition known_kind (kind : string) : bool := in_texts kind ["asset_root"; "connector"; "backup_proof"].
Definition good_observation (o : health_input) : Prop :=
  registry_id_ok (hi_observation_id o) = true ∧ known_kind (hs_kind (hi_subject o)) = true ∧
  metrics_good (hi_metrics o).

Lemma pure_metrics l : pure (validated_health_metrics l).
Proof. unfold validated_health_metrics, validated_metric, invalid. purely. Qed.
Lemma pure_subject s : pure (validated_health_subject s).
Proof. unfold validated_health_subject, connector_machine_id, registry_resource_id, invalid. purely. Qed.
Lemma subject_kind_known s w u w' : validated_health_subject s w = Ok u w' → known_kind (hs_kind s) = true.
Proof.
  unfold validated_health_subject, known_kind. simpl. intros Hs.
  destruct (String.eqb (hs_kind s) "asset_root"); [done|].
  destruct (String.eqb (hs_kind s) "connector"); [done|].
  destruct (String.eqb (hs_kind s) "backup_proof"); [done|]. by rewrite raise_ok in Hs.
Qed.
Lemma validated_health_ok o w u w' :
  validated_system_health_observation o w = Ok u w' →
  good_observation o ∧ hi_observed_at o <= clock (w_ticks w) ∧ w_db w' = w_db w.
Proof.
  unfold validated_system_health_observation, registry_resource_id, validated_evidence_time, invalid. intros Ho.
  apply bind_ok in Ho as (? & ? & Hi & Ho). apply ensure_ok in Hi as (Hid & _ & ->).
  apply bind_ok in Ho as (? & ? & Hs & Ho). apply subject_kind_known in Hs as Hk.
  apply (pure_ok _ _ _ _ (pure_subject _)) in Hs as [-> _].
  do 2 (apply bind_ok in Ho as (? & ? & Hi & Ho); apply ensure_ok in Hi as (_ & _ & ->)).
  apply bind_ok in Ho as (n & ? & Hn & Ho). apply utc_now_ok in Hn as [-> ->].
  apply bind_ok in Ho as (? & ? & Hi & Ho). apply ensure_ok in Hi as (Hle & _ & ->).
  apply (pure_ok _ _ _ _ (pure_metrics _)) in Ho as [-> Hm]. destruct u.
  split_and!; [split_and!; [done|done|exact Hm]|lia|done].
Qed.
Lemma metrics_sorted l : metrics_good l →
  isort str_le (map fst l) = map fst l ∧ NoDup (map fst l).
Proof.
  intros Hm. specialize (Hm (World empty_db 0 0)). unfold validated_health_metrics in Hm.
  apply bind_ok in Hm as (? & ? & _ & Hm). apply bind_ok in Hm as (? & ? & _ & Hm).
  apply invalid_ok in Hm as [Hm _]. apply andb_true_iff in Hm as [Ha Hb].
  split; by eapply bool_decide_eq_true.
Qed.
Definition metric_items (l : list (string * metric)) : list (string * json) :=
  map (λ x, (x.1, metric_json x.2)) l.
Lemma metric_items_fst l : (metric_items l).*1 = map fst l.
Proof. unfold metric_items. induction l as [|x l IH]; [done|]. simpl. f_equal. exact IH. Qed.
Lemma loads_metrics l : metrics_good l → loads (json_text (JObj (metric_items l))) = Some (JObj (metric_items l)).
Proof.
  intros [Hs Hn]%metrics_sorted.
  assert (Hc : map (λ p, (p.1, canon p.2)) (metric_items l) = metric_items l).
  { unfold metric_items. rewrite map_map. apply map_ext. by intros [k []]. }
  unfold json_text. rewrite loads_dumps_ok.
  - simpl. rewrite Hc, sorted_keys_pairs; [done|]. by rewrite metric_items_fst.
  - unfold json_ok. simpl. rewrite !andb_true_iff, !forallb_forall. split_and!.
    + apply keys_unique_NoDup. by rewrite metric_items_fst.
    + intros p (x & <- & _)%in_map_iff. by destruct x as [k []].
    + intros p (x & <- & _)%in_map_iff. by destruct x as [k []].
Qed.
Lemma read_items l w : map_m metric_of_item (metric_items l) w = Ok l w.
Proof.
  induction l as [|[k m] l IH]; [done|]. simpl.
  rewrite (bind_run _ _ _ (k, m) w) by (by destruct m). by rewrite (bind_run _ _ _ l w IH).
Qed.
Lemma row_subject_filed o t :
  known_kind (hs_kind (hi_subject o)) = true → row_subject (filed o t) = Some (hi_subject o).
Proof.
  unfold row_subject, filed, subject_row, known_kind. simpl. destruct (hi_subject o) as [k i]. simpl.
  rewrite !orb_true_iff. intros [-> %String.eqb_eq|[-> %String.eqb_eq|[-> %String.eqb_eq|?]]]; done.
Qed.
(** An observation is read from its row as it was filed. *)
Lemma observation_reads o t w :
  system_health_observations (w_db w) !! hi_observation_id o = Some (filed o (format_time t)) →
  good_observation o → dt_valid (hi_observed_at o) = true → dt_valid t = true →
  system_health_observation (hi_observation_id o) w = Ok (HealthRecord o t) w.
Proof.
  intros Hr (Hid & Hk & Hm) Hd Ht. unfold system_health_observation.
  rewrite (bind_run _ _ _ (Some (filed o (format_time t))) w) by (by apply query_ok).
  rewrite (bind_run _ _ _ (filed o (format_time t)) w) by done.
  rewrite (row_subject_filed o _ Hk).
  rewrite (bind_run _ _ _ (hi_subject o) w) by done.
  rewrite (bind_run _ _ _ (JObj (metric_items (hi_metrics o))) w)
    by (apply json_loads_ok; split; [by apply loads_metrics|done]).
  rewrite (bind_run _ _ _ (hi_metrics o) w).
  2:{ destruct (metrics_sorted _ Hm) as [Hs _]. rewrite sorted_keys_pairs by (by rewrite metric_items_fst).
      unfold read_metrics. rewrite (bind_run _ _ _ _ _ (read_items _ w)). by rewrite (bind_run _ _ _ _ _ (Hm w)). }
  unfold registry_resource_id, invalid. rewrite Hid. rewrite (bind_run _ _ _ tt w) by done.
  cbn [filed subject_row ho_observed_at ho_created_at ho_status ho_category].
  rewrite (bind_run _ _ _ (hi_observed_at o) w)
    by (unfold control_time; by rewrite parse_format_registry_time).
  rewrite (bind_run _ _ _ t w) by (by apply control_time_format). by destruct o.
Qed.
End Health.

(** ** Manifests *)
Section Manifests.
Context `{UnicodeChecks}.

Lemma map_res_map {A B C} (f : B → Res C) (g : A → B) l : map_res f (map g l) = map_res (λ x, f (g x)) l.
Proof. induction l as [|x l IH]; [done|]. simpl. by rewrite IH. Qed.
Lemma map_res_id {A} (f : A → Res A) l : (∀ x, f x = inr x) → map_res f l = inr l.
Proof. intros Hf. induction l as [|x l IH]; [done|]. simpl. rewrite Hf. simpl. by rewrite IH. Qed.
Lemma logical_reads x : protected_logical_snapshot_of (canon (logical_snapshot_json x)) = inr x.
Proof. by destruct x. Qed.
Lemma root_reads x : protected_asset_root_of (canon (protected_root_json x)) = inr x.
Proof. by destruct x. Qed.
Lemma control_reads x : control_store_of (canon (control_store_json x)) = inr x.
Proof. by destruct x. Qed.
Definition manifest_doc (m : protected_set_manifest) : json := JObj
  [("schema_version", JInt 1); ("control_store", control_store_json (pm_control_store m));
   ("logical_snapshots", JArr (map logical_snapshot_json (pm_logical_snapshots m)));
   ("asset_roots", JArr (map protected_root_json (pm_asset_roots m)))].
Lemma manifest_json_ok m v :
  manifest_json m = inr v → v = manifest_doc m ∧ pm_schema_version m = 1.
Proof.
  unfold manifest_json, validated_logical_snapshots, validated_asset_roots, require_integer, require_digest,
    require_canonical_order. intros Hm. rgo. subst. split; [done|]. lia.
Qed.
Lemma canonical_ok m text :
  canonical_protected_set_manifest m = inr text →
  text = json_text (manifest_doc m) ∧ pm_schema_version m = 1.
Proof.
  unfold canonical_protected_set_manifest. intros Hc. apply checks_bind in Hc as (v & Hv & Hc).
  apply manifest_json_ok in Hv as [-> Hv]. by injection Hc as <-.
Qed.
Lemma manifest_doc_ok m : json_ok (manifest_doc m) = true.
Proof.
  unfold json_ok, manifest_doc. simpl. rewrite !andb_true_r, !andb_true_iff, !forallb_forall.
  split_and!; intros x (y & <- & _)%in_map_iff; reflexivity.
Qed.
Lemma loads_manifest m : loads (json_text (manifest_doc m)) = Some (canon (manifest_doc m)).
Proof. apply loads_dumps_ok, manifest_doc_ok. Qed.
Lemma manifest_reads m text :
  canonical_protected_set_manifest m = inr text → protected_set_manifest_of (canon (manifest_doc m)) = inr m.
Proof.
  intros Hc. destruct (canonical_ok _ _ Hc) as [_ Hv]. unfold protected_set_manifest_of.
  apply checks_bind. exists tt. split; [apply checks_passed; reflexivity|]. cbv zeta.
  change (field "control_store" (canon (manifest_doc m))) with (canon (control_store_json (pm_control_store m))).
  change (field "logical_snapshots" (canon (manifest_doc m)))
    with (JArr (map canon (map logical_snapshot_json (pm_logical_snapshots m)))).
  change (field "asset_roots" (canon (manifest_doc m)))
    with (JArr (map canon (map protected_root_json (pm_asset_roots m)))).
  change (field "schema_version" (canon (manifest_doc m))) with (JInt 1).
  apply checks_bind. exists tt. split; [apply checks_passed; reflexivity|]. cbn iota.
  apply checks_bind. exists (pm_logical_snapshots m). split.
  { rewrite map_map. rewrite (map_res_map protected_logical_snapshot_of). by apply map_res_id, logical_reads. }
  apply checks_bind. exists (pm_asset_roots m). split.
  { rewrite map_map. rewrite (map_res_map protected_asset_root_of). by apply map_res_id, root_reads. }
  apply checks_bind. exists 1. split; [done|].
  apply checks_bind. exists (pm_control_store m). split; [apply control_reads|].
  assert (Hm : ProtectedSetManifest 1 (pm_control_store m) (pm_logical_snapshots m) (pm_asset_roots m) = m)
    by (destruct m; simpl in *; congruence).
  rewrite Hm. apply checks_bind. by exists text.
Qed.
End Manifests.

Section Proofs.
Context `{Env} `{UnicodeChecks} `{StoreIdentity}.

Lemma text_field_run message s w : text_field message (JStr s) w = Ok s w.
Proof. done. Qed.
Lemma int_field_run message n w : int_field message (JInt n) w = Ok n w.
Proof. done. Qed.
Definition proof_dates (v : paired_proof) : Prop :=
  dt_valid (pf_primary_completed_at v) = true ∧ dt_valid (pf_independent_completed_at v) = true ∧
  dt_valid (pf_restore_completed_at v) = true.
Lemma stored_time_run message t w :
  dt_valid t = true →
  (s ← text_field message (JStr (format_registry_time t)); control_time s) w = Ok t w.
Proof. intros Ht. rewrite (bind_run _ _ _ _ _ (text_field_run _ _ w)). unfold control_time. by rewrite parse_format_registry_time. Qed.
Lemma filed_time_run message t w :
  dt_valid t = true → (s ← text_field message (JStr (format_time t)); control_time s) w = Ok t w.
Proof. intros Ht. rewrite (bind_run _ _ _ _ _ (text_field_run _ _ w)). by apply control_time_format. Qed.
Lemma count_run message k minimum n w :
  minimum <= n → (x ← int_field message (JInt n); registry_count k minimum x;; mret x) w = Ok n w.
Proof.
  intros Hn. rewrite (bind_run _ _ _ _ _ (int_field_run _ _ w)). unfold registry_count, invalid.
  by rewrite (proj2 (Z.leb_le _ _) Hn).
Qed.
(** A proof is read from its row as it was filed. *)
Lemma proof_reads_back p m n t w :
  let v := proof_of p (sha256 m) in
  canonical_protected_set_manifest (pp_protected_set_manifest p) = inr m →
  proof_sound n v → proof_dates v → dt_valid t = true →
  paired_backup_proofs (w_db w) !! pp_proof_id p = Some (row_of_proof v m (format_time t)) →
  paired_backup_proof (pp_proof_id p) w = Ok (PairedBackupProofRecord v t) w.
Proof.
  intros v Hm (Hid & [Hpr _] & Hir & N1 & N2 & N3 & N4) (D1 & D2 & D3) Ht Hrow.
  destruct (canonical_ok _ _ Hm) as [Htext _]. unfold paired_backup_proof.
  rewrite (bind_run _ _ _ (Some (row_of_proof v m (format_time t))) w) by (by apply query_ok).
  rewrite (bind_run _ _ _ (row_of_proof v m (format_time t)) w) by done.
  rewrite (bind_run _ _ _ (canon (manifest_doc (pp_protected_set_manifest p))) w).
  2:{ apply json_loads_ok. split; [|done]. cbn [row_of_proof bp_manifest_json]. rewrite Htext. apply loads_manifest. }
  unfold paired_backup_proof_record_of. rewrite (bind_run _ _ _ tt w) by done.
  rewrite (bind_run _ _ _ (pp_proof_id p) w) by done.
  rewrite (bind_run _ _ _ tt w) by (unfold registry_resource_id, invalid; change (registry_id_ok (pp_proof_id p) = true) in Hid; by rewrite Hid).
  rewrite (bind_run _ _ _ (pp_protected_set_manifest p) w)
    by (apply of_res_ok; split; [by eapply manifest_reads|done]).
  rewrite (bind_run _ _ _ m w) by (by apply of_res_ok).
  rewrite (bind_run _ _ _ tt w) by (apply ensure_ok; split; [apply String.eqb_refl|done]).
  cbv zeta.
  rewrite (bind_run _ _ _ (pf_primary_completed_at v) w) by (by apply stored_time_run).
  rewrite (bind_run _ _ _ (pf_independent_completed_at v) w) by (by apply stored_time_run).
  rewrite (bind_run _ _ _ (pf_restore_completed_at v) w) by (by apply stored_time_run).
  rewrite (bind_run _ _ _ tt w)
    by (apply ensure_ok; split; [apply andb_true_iff; split; by apply Z.leb_le|done]).
  rewrite (bind_run _ _ _ (pf_primary_snapshot_count v) w) by (by apply count_run).
  rewrite (bind_run _ _ _ (pf_independent_snapshot_count v) w) by (by apply count_run).
  rewrite (bind_run _ _ _ (pf_restored_database_count v) w) by (by apply count_run).
  rewrite (bind_run _ _ _ (pf_verified_sample_count v) w) by (by apply count_run).
  rewrite (bind_run _ _ _ t w) by (by apply filed_time_run). done.
Qed.
End Proofs.
