(* ===== verification/RegistryTheorems.v ===== *)
(** * Theorems about the registry

    Two updates from one revision do not both go through; the newest observation of a
    subject is the newest in time; a backup proof covers the registry it was filed
    against, and stays. *)

From S2P Require Import Prelude PyText Clock Json Schema Store Runs Activation ActivationFacts Resources Transport ArtifactModels Registry Evidence Health RegistryFacts EvidenceFacts Demo.
Open Scope Z_scope.

(** ** Sessions *)
Inductive registry_command :=
| RegisterRoot (id path : string) (max : Z) (on : bool) (actor key : string)
| UpdateRoot (id path : string) (max : Z) (on : bool) (expected : Z) (actor key : string)
| RegisterConnector (id kind adapter name : string) (alias : option string) (on : bool) (actor key : string)
| UpdateConnector (id adapter name : string) (alias : option string) (on : bool) (expected : Z)
    (actor key : string)
| RecordProof (p : paired_backup_proof_input) (actor key : string)
| RecordHealth (o : health_input) (actor key : string).

Section Sessions.
Context `{Env} `{UnicodeChecks} `{StoreIdentity}.

Definition run_registry (c : registry_command) (w : world) : world :=
  match c with
  | RegisterRoot id path max on a k => end_world (register_asset_root id path max on a k w)
  | UpdateRoot id path max on e a k => end_world (update_asset_root id path max on e a k w)
  | RegisterConnector id kind ad name alias on a k => end_world (register_connector id kind ad name alias on a k w)
  | UpdateConnector id ad name alias on e a k => end_world (update_connector id ad name alias on e a k w)
  | RecordProof p a k => end_world (record_paired_backup_proof p a k w)
  | RecordHealth o a k => end_world (record_system_health_observation o a k w)
  end.
Definition registry_session (cmds : list registry_command) (w : world) : world :=
  fold_left (λ w c, run_registry c w) cmds w.

Lemma atomic_pure_then {A B} (m : Store A) (f : A → Store B) : pure m → (∀ a, atomic (f a)) → atomic (m ≫= f).
Proof. intros Hm. apply atomic_bind. by apply keeps_pure. Qed.
Lemma keeps_validated_proof p : keeps w_db (validated_paired_backup_proof p).
Proof.
  unfold validated_paired_backup_proof, registry_resource_id, validated_backup_copy, validated_restore,
    validated_evidence_time, registry_count.
  repeat first [progress cbn beta iota zeta|apply keeps_bind; [|intros ?]|apply keeps_of_res|apply keeps_invalid
    |apply keeps_ret|done].
Qed.
Lemma keeps_validated_health o : keeps w_db (validated_system_health_observation o).
Proof.
  unfold validated_system_health_observation.
  repeat first [progress cbn beta iota zeta|apply keeps_pure, pure_subject|apply keeps_pure, pure_metrics
    |apply keeps_bind; [|intros ?]|apply keeps_invalid|apply keeps_ret|done].
Qed.
Lemma filed_health_ok o a k w r w' :
  record_system_health_observation o a k w = Ok r w' →
  registry_of (w_db w') = registry_of (w_db w) ∨
  (good_observation o ∧ system_health_observations (w_db w) !! hi_observation_id o = None ∧
   ∃ t, dt_valid t = true ∧
   registry_of (w_db w') = registry_of (set_health (<[hi_observation_id o := filed o (format_time t)]>) (w_db w))).
Proof.
  unfold record_system_health_observation. intros Hr. apply bind_ok in Hr as (u & w0 & Hv & Hr).
  apply validated_health_ok in Hv as (Hgood & _ & Hdb). rewrite <- Hdb. cbv zeta in Hr.
  rewrite transaction_ok in Hr. apply filed_ok in Hr as [[_ Hr]|[_ Hr]]; [by left| |apply reads_health_receipt].
  apply bind_ok in Hr as (x & w1 & Hq & Hr). apply query_ok in Hq as [-> ->].
  apply bind_ok in Hr as ([r1 code] & w1 & Hb & Hr).
  apply bind_ok in Hr as (cr & w3 & Hs & Hr). apply reads_ok in Hs; [|apply reads_save_receipt].
  apply ret_ok in Hr as [-> ->].
  destruct (bool_decide (is_Some (system_health_observations (w_db w0) !! hi_observation_id o))) eqn:Hrow;
    cbn iota in Hb.
  - left. rewrite Hs. apply bind_ok in Hb as (r2 & w4 & Hb & Hr). apply reads_ok in Hb; [|apply reads_observation].
    apply bind_ok in Hr as (u' & w5 & He & Hr). apply ensure_ok in He as (_ & _ & ->).
    apply ret_ok in Hr as [_ <-]. congruence.
  - right. split; [done|]. split; [exact (proj2 (eq_None_not_Some _) (bool_decide_eq_false_1 _ Hrow))|].
    apply bind_ok in Hb as (u' & w4 & Hc & Hb). unfold validate_health_subject_exists in Hc.
    apply bind_ok in Hc as (x & w5 & Hq & Hc). apply query_ok in Hq as [-> ->].
    apply ensure_ok in Hc as (_ & _ & ->).
    apply bind_ok in Hb as (u2 & w4 & Hi & Hb). unfold insert_observation in Hi.
    apply bind_ok in Hi as (t & w5 & Ht & Hi). apply now_ok in Ht as [-> ->].
    apply bind_ok in Hi as (u3 & w5 & He & Hi). apply ensure_ok in He as (_ & _ & ->).
    apply execute_ok in Hi as [_ ->].
    apply bind_ok in Hb as (r2 & w5 & Hb & Hr). apply ret_ok in Hr as [_ <-].
    apply reads_ok in Hb; [|apply reads_observation].
    exists (clock (w_ticks w0)). split; [apply clock_valid|]. by rewrite Hs, Hb.
Qed.
(** ** The steps of the registry *)
Inductive registry_step (w w' : world) : Prop :=
| registry_stays : registry_of (w_db w') = registry_of (w_db w) → registry_step w w'
| root_moves id row :
    (∀ r, asset_roots (w_db w) !! id = Some r → root_le r row) →
    registry_of (w_db w') = registry_of (set_asset_roots (<[id := row]>) (w_db w)) → registry_step w w'
| connector_moves id row :
    (∀ r, connectors (w_db w) !! id = Some r → connector_le r row) →
    registry_of (w_db w') = registry_of (set_connectors (<[id := row]>) (w_db w)) → registry_step w w'
| proof_filed id row :
    paired_backup_proofs (w_db w) !! id = None →
    registry_of (w_db w') = registry_of (set_backup_proofs (<[id := row]>) (w_db w)) → registry_step w w'
| observation_filed o t :
    system_health_observations (w_db w) !! hi_observation_id o = None →
    good_observation o → dt_valid (hi_observed_at o) = true → dt_valid t = true →
    registry_of (w_db w') = registry_of (set_health (<[hi_observation_id o := filed o (format_time t)]>) (w_db w)) →
    registry_step w w'.
(** A command that is refused leaves the database as it is. *)
Lemma refused_registry {A} (m : Store A) w : atomic m →
  (∀ r w', m w = Ok r w' → registry_step w w') → registry_step w (end_world (m w)).
Proof.
  intros Ha Hm. destruct (m w) as [r w'|e w'] eqn:E; simpl; [by eapply Hm|].
  apply Ha in E. apply registry_stays. by rewrite E.
Qed.
(** What the datetimes of a command can hold. *)
Definition command_dates (c : registry_command) : Prop :=
  match c with
  | RecordHealth o _ _ => dt_valid (hi_observed_at o) = true
  | _ => True
  end.
Ltac refused_after H :=
  apply refused_registry; [do 2 (apply atomic_pure_then; [eauto using H, pure_invalid|intros ?]);
    apply atomic_transaction|].
Lemma command_step c w : command_dates c → registry_step w (run_registry c w).
Proof.
  destruct c; simpl; intros Hd.
  - apply refused_registry; [apply atomic_pure_then; [apply pure_validated_asset_root|intros; apply atomic_transaction]|].
    intros r w' [Hr|(Hn & t & Hr)]%register_root_ok; [by apply registry_stays|].
    eapply root_moves; [|exact Hr]. intros; congruence.
  - refused_after pure_validated_asset_root.
    intros r w' [[_ Hr]|(row & t & Hrow & He & Hr)]%update_root_ok; [by apply registry_stays|].
    eapply root_moves; [|exact Hr]. intros x Hx. assert (x = row) as -> by congruence.
    unfold root_le. simpl. split_and!; [lia|done|lia].
  - refused_after pure_validated_connector.
    intros r w' [Hr|(Hn & row & Hr)]%register_connector_ok; [by apply registry_stays|].
    eapply connector_moves; [|exact Hr]. intros; congruence.
  - refused_after pure_validated_connector.
    intros r w' [[_ Hr]|(row & t & name' & Hrow & He & Hr)]%update_connector_ok; [by apply registry_stays|].
    eapply connector_moves; [|exact Hr]. intros x Hx. assert (x = row) as -> by congruence.
    unfold connector_le. simpl. split_and!; [lia|done|done|lia].
  - apply refused_registry.
    { apply atomic_bind; [apply keeps_validated_proof|intros [v m]].
      apply atomic_bind; [apply keeps_json_loads|intros ?; apply atomic_transaction]. }
    intros r w' (m & _ & _ & _ & [[Hr _]|(Hn & _ & t & Hr & _)])%record_proof_ok; [by apply registry_stays|].
    by eapply proof_filed.
  - apply refused_registry; [apply atomic_bind; [apply keeps_validated_health|intros ?; apply atomic_transaction]|].
    intros r w' [Hr|(Hgood & Hn & t & Ht & Hr)]%filed_health_ok; [by apply registry_stays|].
    by eapply observation_filed.
Qed.
Lemma step_le w w' : registry_step w w' → registry_le w w'.
Proof.
  intros [Hr|id row Hle Hr|id row Hle Hr|id row Hn Hr|o t Hn _ _ _ Hr]; [by apply registry_same|..];
    unfold registry_le; rewrite Hr; simpl; split_and!; try (apply table_le_refl; apply _);
    apply table_le_insert; try apply _; try done; intros; congruence.
Qed.
(** Every observation is one that was filed. *)
Definition filed_row (id : string) (r : observation_row) : Prop :=
  ∃ o t, id = hi_observation_id o ∧ r = filed o (format_time t) ∧ good_observation o ∧
    dt_valid (hi_observed_at o) = true ∧ dt_valid t = true.
Definition health_wf (d : db) : Prop := map_Forall filed_row (system_health_observations d).
Lemma step_health w w' : registry_step w w' → health_wf (w_db w) → health_wf (w_db w').
Proof.
  unfold health_wf. intros [Hr|id row Hle Hr|id row Hle Hr|id row Hn Hr|o t Hn Hg Hd Ht Hr] Hw;
    apply (f_equal vw_health) in Hr; simpl in Hr; rewrite Hr; [done..|].
  apply map_Forall_insert_2; [|done]. by exists o, t.
Qed.
Lemma session_step cmds w : Forall command_dates cmds →
  registry_le w (registry_session cmds w) ∧ (health_wf (w_db w) → health_wf (w_db (registry_session cmds w))).
Proof.
  intros Hc. revert w. induction Hc as [|c cmds Hd _ IH]; intros w; [by split|]. simpl.
  pose proof (command_step c w Hd) as Hs. destruct (IH (run_registry c w)) as [Hle Hwf]. split.
  - etrans; [by apply step_le|done].
  - intros Hw. by eapply Hwf, step_health.
Qed.

(** ** The newest observation *)
Lemma filed_column o t s :
  known_kind (hs_kind (hi_subject o)) = true → known_kind (hs_kind s) = true →
  subject_column (hs_kind s) (filed o t) = Some (hs_id s) ↔ hi_subject o = s.
Proof.
  unfold known_kind, filed, subject_column, subject_row. destruct (hi_subject o) as [k i], s as [k' i']. simpl.
  rewrite !orb_true_iff. intros [-> %String.eqb_eq|[-> %String.eqb_eq|[-> %String.eqb_eq|?]]]
    [-> %String.eqb_eq|[-> %String.eqb_eq|[-> %String.eqb_eq|?]]]; simpl; naive_solver.
Qed.
Lemma elem_of_observations s d x :
  x ∈ observations_of s d ↔ ∃ id r, system_health_observations d !! id = Some r ∧
    subject_column (hs_kind s) r = Some (hs_id s) ∧ x = (ho_observed_at r, id).
Proof.
  unfold observations_of. rewrite list_elem_of_omap. split.
  - intros ([id r] & Hin & Hx). simpl in Hx. case_bool_decide; [|done]. injection Hx as <-.
    exists id, r. by rewrite elem_of_map_to_list in Hin.
  - intros (id & r & Hr & Hcol & ->). exists (id, r). simpl. rewrite elem_of_map_to_list.
    by rewrite bool_decide_eq_true_2.
Qed.
Lemma recent_first_head l x l' :
  recent_first l = x :: l' → x ∈ l ∧ ∀ y, y ∈ l → pair_le y x = true.
Proof.
  unfold recent_first. intros Hr.
  assert (Hs : StronglySorted (λ a b, pair_le a b = true) (isort pair_le l)).
  { apply isort_sorted; [apply pair_le_total|apply pair_le_trans]. }
  assert (Hl : isort pair_le l = rev l' ++ [x]) by (rewrite <- (rev_involutive (isort _ _)), Hr; done).
  split.
  - apply (elem_of_isort pair_le). rewrite Hl. set_solver.
  - intros y Hy. apply (elem_of_isort pair_le) in Hy. rewrite Hl in Hs, Hy.
    apply elem_of_app in Hy as [Hy|Hy%list_elem_of_singleton]; [|subst; apply pair_le_refl].
    clear -Hs Hy. induction (rev l') as [|z m IH]; [by apply not_elem_of_nil in Hy|].
    inversion Hs as [|? ? Hs' Hf]; subst. apply elem_of_cons in Hy as [->|Hy]; [|by apply IH].
    rewrite Forall_forall in Hf. apply Hf. set_solver.
Qed.
Lemma observation_run id r w w' :
  health_wf (w_db w) → system_health_observation id w = Ok r w' →
  system_health_observations (w_db w) !! id = Some (filed (hr_input r) (format_time (hr_created_at r))) ∧
  id = hi_observation_id (hr_input r) ∧ good_observation (hr_input r) ∧
  dt_valid (hi_observed_at (hr_input r)) = true.
Proof.
  intros Hwf Hr. assert (Hrow : is_Some (system_health_observations (w_db w) !! id)).
  { unfold system_health_observation in Hr. apply bind_ok in Hr as (o & w0 & Hq & Hr).
    apply query_ok in Hq as [-> ->]. apply bind_ok in Hr as (x & w1 & Hf & _).
    apply from_option_ok in Hf as [Hf _]. by exists x. }
  destruct Hrow as [row Hrow]. destruct (Hwf id row Hrow) as (o & t & -> & -> & Hg & Hd & Ht).
  rewrite (observation_reads o t w Hrow Hg Hd Ht) in Hr. injection Hr as <- _. done.
Qed.
Lemma newest_read s w :
  health_wf (w_db w) → validated_health_subject s w = Ok tt w → subject_exists s (w_db w) = true →
  ∃ o, latest_system_health_observation s w = Ok o w ∧
  ∀ id r, system_health_observation id w = Ok r w → hi_subject (hr_input r) = s →
    ∃ r', o = Some r' ∧ hi_subject (hr_input r') = s ∧
      system_health_observation (hi_observation_id (hr_input r')) w = Ok r' w ∧
      (hi_observed_at (hr_input r) < hi_observed_at (hr_input r') ∨
       hi_observed_at (hr_input r) = hi_observed_at (hr_input r') ∧
       str_le id (hi_observation_id (hr_input r')) = true).
Proof.
  intros Hwf Hs Hex. apply subject_kind_known in Hs as Hk.
  assert (Hin : ∀ id r, system_health_observation id w = Ok r w → hi_subject (hr_input r) = s →
    (format_registry_time (hi_observed_at (hr_input r)), id) ∈ observations_of s (w_db w)).
  { intros id r Hr Hsub. apply observation_run in Hr as (Hrow & _ & (_ & Hk' & _) & _); [|done].
    apply elem_of_observations. exists id. eexists. split; [exact Hrow|]. split; [by apply filed_column|done]. }
  unfold latest_system_health_observation, validate_health_subject_exists.
  rewrite (bind_run _ _ _ tt w Hs).
  rewrite (bind_run _ _ _ tt w) by (apply bind_ok; exists true, w; split; [by apply query_ok|done]).
  rewrite (bind_run _ _ _ (recent_first (observations_of s (w_db w))) w) by (by apply query_ok).
  destruct (recent_first _) as [|x l] eqn:Hrec.
  - exists None. split; [done|]. intros id r Hr Hsub. specialize (Hin id r Hr Hsub).
    unfold recent_first in Hrec. apply (f_equal (@rev _)) in Hrec. rewrite rev_involutive in Hrec. simpl in Hrec.
    apply (elem_of_isort pair_le) in Hin. rewrite Hrec in Hin. by apply not_elem_of_nil in Hin.
  - apply recent_first_head in Hrec as [Hx Hmax]. apply elem_of_observations in Hx as (id' & row & Hrow & Hcol & ->).
    destruct (Hwf id' row Hrow) as (o & t & -> & -> & Hg & Hd & Ht). simpl.
    pose proof (observation_reads o t w Hrow Hg Hd Ht) as Hread. rewrite (bind_run _ _ _ _ _ Hread).
    exists (Some (HealthRecord o t)). split; [done|]. intros id r Hr Hsub. exists (HealthRecord o t). simpl.
    split; [done|]. split; [by apply (filed_column o (format_time t) s (proj1 (proj2 Hg)) Hk)|]. split; [done|].
    specialize (Hmax _ (Hin id r Hr Hsub)). apply observation_run in Hr as (_ & _ & _ & Hd'); [|done].
    rewrite pair_le_compare in Hmax. cbn [fst snd filed subject_row ho_observed_at] in Hmax.
    rewrite format_registry_time_compare in Hmax by done.
    destruct (Z.compare_spec (hi_observed_at (hr_input r)) (hi_observed_at o)); [by right|by left|done].
Qed.
End Sessions.

(** C27: Of two updates made from one revision of an asset root or a connector at most one goes
    through, whatever commands come in between: the first moves the revision on by one,
    and a second one under another key is refused. *)
Theorem one_update_per_revision `{Env} `{UnicodeChecks} `{StoreIdentity} cmds id e w :
  Forall command_dates cmds →
  (∀ path max on a k r w1, update_asset_root id path max on e a k w = Ok r w1 →
     idempotency_receipts (w_db w) !! (a, "INTERNAL:asset-roots/" +:+ id +:+ "/update", k) = None →
     (ag_revision <$> asset_roots (w_db w) !! id = Some e ∧
      ag_revision <$> asset_roots (w_db w1) !! id = Some (e + 1)) ∧
     ∀ path' max' on' a' k' r' w2,
       idempotency_receipts (w_db (registry_session cmds w1)) !!
         (a', "INTERNAL:asset-roots/" +:+ id +:+ "/update", k') = None →
       update_asset_root id path' max' on' e a' k' (registry_session cmds w1) ≠ Ok r' w2) ∧
  (∀ ad name alias on a k r w1, update_connector id ad name alias on e a k w = Ok r w1 →
     idempotency_receipts (w_db w) !! (a, "INTERNAL:connectors/" +:+ id +:+ "/update", k) = None →
     (cn_revision <$> connectors (w_db w) !! id = Some e ∧
      cn_revision <$> connectors (w_db w1) !! id = Some (e + 1)) ∧
     ∀ ad' name' alias' on' a' k' r' w2,
       idempotency_receipts (w_db (registry_session cmds w1)) !!
         (a', "INTERNAL:connectors/" +:+ id +:+ "/update", k') = None →
       update_connector id ad' name' alias' on' e a' k' (registry_session cmds w1) ≠ Ok r' w2).
Proof.
  intros Hc. split.
  - intros path max on a k r w1 [[Hi _]|(row & t & Hrow & He & Hr)]%update_root_ok Hn.
    { destruct Hi as [x Hx]. congruence. }
    apply (f_equal vw_roots) in Hr. simpl in Hr. split.
    { rewrite Hr, Hrow, lookup_insert_eq. simpl. split; f_equal; lia. }
    intros path' max' on' a' k' r' w2 Hn' [[Hi _]|(row2 & t2 & Hrow2 & He2 & _)]%update_root_ok.
    { destruct Hi as [x Hx]. congruence. }
    destruct (session_step cmds w1 Hc) as [[Hle _] _].
    destruct (Hle id (updated_root path max on t row)) as (row3 & Hrow3 & Hrev & _); [simpl; by rewrite Hr, lookup_insert_eq|].
    simpl in *. assert (row3 = row2) as -> by congruence. lia.
  - intros ad name alias on a k r w1 [[Hi _]|(row & t & name2 & Hrow & He & Hr)]%update_connector_ok Hn.
    { destruct Hi as [x Hx]. congruence. }
    apply (f_equal vw_connectors) in Hr. simpl in Hr. split.
    { rewrite Hr, Hrow, lookup_insert_eq. simpl. split; f_equal; lia. }
    intros ad' name' alias' on' a' k' r' w2 Hn' [[Hi _]|(row2 & t2 & name3 & Hrow2 & He2 & _)]%update_connector_ok.
    { destruct Hi as [x Hx]. congruence. }
    destruct (session_step cmds w1 Hc) as [[_ [Hle _]] _].
    destruct (Hle id (updated_connector ad name2 alias on t row)) as (row3 & Hrow3 & Hrev & _);
      [simpl; by rewrite Hr, lookup_insert_eq|].
    simpl in *. assert (row3 = row2) as -> by congruence. lia.
Qed.

(** C26: A backup proof that is filed covers exactly the asset roots that are enabled at that
    moment, at their revisions, and the identity of the store; both copies and the restore
    name the digest of its manifest, the restore comes after both copies and before the
    filing; and whatever commands follow, the proof is read as it was answered, which is
    as it was given. *)
Theorem backup_proof_covers_and_stays `{Env} `{UnicodeChecks} `{StoreIdentity} p a k w r w1 cmds :
  record_paired_backup_proof p a k w = Ok r w1 →
  idempotency_receipts (w_db w) !! (a, "INTERNAL:backup-proofs/record", k) = None →
  paired_backup_proofs (w_db w) !! pp_proof_id p = None →
  ∃ text, canonical_protected_set_manifest (pp_protected_set_manifest p) = inr text ∧
    covers (pp_protected_set_manifest p) (w_db w) ∧
    evidence_names p (sha256 text) ∧
    proof_sound (clock (w_ticks w)) (proof_of p (sha256 text)) ∧
    (proof_dates (proof_of p (sha256 text)) → pk_proof r = proof_of p (sha256 text)) ∧
    (Forall command_dates cmds →
     let w2 := registry_session cmds w1 in get_paired_backup_proof (pp_proof_id p) w2 = Ok r w2).
Proof.
  intros (m & Hm & Hsound & Hnames & [[_ [[x Hx]|[x Hx]]]|(_ & Hcov & t & Hr & Ht & Hread)])%record_proof_ok Hn Hnone;
    [congruence..|].
  exists m. do 4 (split; [done|]).
  assert (Hrow : paired_backup_proofs (w_db w1) !! pp_proof_id p
                 = Some (row_of_proof (proof_of p (sha256 m)) m (format_time t))).
  { apply (f_equal vw_proofs) in Hr. simpl in Hr. by rewrite Hr, lookup_insert_eq. }
  split.
  - intros Hd. rewrite (proof_reads_back p m _ t w1 Hm Hsound Hd Ht Hrow) in Hread. by injection Hread as <-.
  - intros Hc. cbv zeta. destruct (session_step cmds w1 Hc) as [(_ & _ & Hle & _) _].
    destruct (Hle _ _ Hrow) as (row & Hrow2 & <-). simpl in Hrow2.
    unfold get_paired_backup_proof, registry_resource_id, invalid.
    destruct Hsound as [Hid _]. change (registry_id_ok (pp_proof_id p) = true) in Hid. rewrite Hid.
    rewrite (bind_run _ _ _ tt _) by done. apply proof_reads in Hread as [_ Hread]. apply Hread. congruence.
Qed.

(** C28: The observation that is read as the latest of a subject is the newest in time of all
    its observations, the greatest identifier among equals, as it was filed; and of a
    subject that is registered and has one it is always read. *)
Theorem latest_observation_is_newest `{Env} `{UnicodeChecks} `{StoreIdentity} cmds ticks ids s :
  Forall command_dates cmds →
  let w := registry_session cmds (World empty_db ticks ids) in
  validated_health_subject s w = Ok tt w → subject_exists s (w_db w) = true →
  ∃ o, latest_system_health_observation s w = Ok o w ∧
  ∀ id r, system_health_observation id w = Ok r w → hi_subject (hr_input r) = s →
    ∃ r', o = Some r' ∧ hi_subject (hr_input r') = s ∧
      system_health_observation (hi_observation_id (hr_input r')) w = Ok r' w ∧
      (hi_observed_at (hr_input r) < hi_observed_at (hr_input r') ∨
       hi_observed_at (hr_input r) = hi_observed_at (hr_input r') ∧
       str_le id (hi_observation_id (hr_input r')) = true).
Proof.
  intros Hc w Hs Hex. destruct (session_step cmds (World empty_db ticks ids) Hc) as [_ Hwf].
  specialize (Hwf (map_Forall_empty _)). fold w in Hwf. by apply newest_read.
Qed.

(** ** Booleans and numbers *)
Definition as_number (m : metric) : metric := match m with MBool b => MInt (Z.b2z b) | m => m end.
Definition as_numbers (o : health_input) : health_input :=
  HealthInput (hi_observation_id o) (hi_subject o) (hi_status o) (hi_category o) (hi_observed_at o)
    (map (λ x, (x.1, as_number x.2)) (hi_metrics o)).
Lemma metrics_equal l :
  py_equal (JArr (map (λ x, JArr [JStr x.1; metric_json x.2]) l))
    (JArr (map (λ x, JArr [JStr x.1; metric_json x.2]) (map (λ x, (x.1, as_number x.2)) l))) = true.
Proof.
  induction l as [|[k m] l IH]; [done|]. simpl in *. rewrite String.eqb_refl. simpl.
  apply andb_true_iff. split; [|exact IH]. destruct m as [[]|n]; simpl; [done..|by rewrite Z.eqb_refl].
Qed.
Lemma requests_equal `{Env} o : py_equal (system_health_request o) (system_health_request (as_numbers o)) = true.
Proof.
  pose proof (metrics_equal (hi_metrics o)) as Hm. unfold system_health_request, system_health_fields, as_numbers.
  cbn [py_equal hi_observation_id hi_subject hi_status hi_category hi_observed_at hi_metrics].
  rewrite !String.eqb_refl. cbn [py_equal] in Hm. rewrite Hm. done.
Qed.

(** C40: An observation that is sent again with numbers in place of its booleans, under
    another key, is answered as the one that is stored, and not refused as another
    content of the same identifier. *)
Theorem metric_types_confused `{Env} `{UnicodeChecks} `{StoreIdentity} o t a k w w0 :
  system_health_observations (w_db w) !! hi_observation_id o = Some (filed o (format_time t)) →
  good_observation o → dt_valid (hi_observed_at o) = true → dt_valid t = true →
  validated_system_health_observation (as_numbers o) w = Ok tt w0 →
  key_ok k = true → idempotency_receipts (w_db w) !! (a, "INTERNAL:system-health/record", k) = None →
  ∃ w', record_system_health_observation (as_numbers o) a k w = Ok (HealthRecord o t) w' ∧
    registry_of (w_db w') = registry_of (w_db w).
Proof.
  intros Hrow Hg Hd Ht Hv Hk Hn. apply validated_health_ok in Hv as Hdb. destruct Hdb as (_ & _ & Hdb).
  unfold record_system_health_observation. rewrite (bind_run _ _ _ _ _ Hv). cbv zeta.
  rewrite <- Hdb in Hrow, Hn |- *. pose proof (observation_reads o t w0 Hrow Hg Hd Ht) as Hread.
  assert (Hsave : ∃ r w', save_receipt a "INTERNAL:system-health/record" k (system_health_request (as_numbers o))
    (system_health_response (HealthRecord o t)) 200 w0 = Ok r w').
  { do 2 eexists. by apply save_receipt_ok. }
  destruct Hsave as (cr & w' & Hsave). exists w'. split; [|eapply reads_ok; [apply reads_save_receipt|exact Hsave]].
  apply transaction_ok.
  rewrite (bind_run _ _ _ None w0) by (apply receipt_ok; by rewrite Hn).
  rewrite (bind_run _ _ _ (Some (filed o (format_time t))) w0) by (by apply query_ok).
  rewrite (bind_run _ _ _ (HealthRecord o t, 200) w0).
  - by rewrite (bind_run _ _ _ _ _ Hsave).
  - change (hi_observation_id (as_numbers o)) with (hi_observation_id o).
    rewrite bool_decide_eq_true_2 by (by eexists). rewrite (bind_run _ _ _ _ _ Hread).
    cbn [hr_input]. by rewrite requests_equal.
Qed.

(** ** Witnesses *)
Fixpoint text_sum (n : Z) (s : string) : Z :=
  match s with EmptyString => n | String c s' => text_sum (n + ord c) s' end.
#[export] Instance registry_env : Env := {|
  clock := demo_clock;
  id_factory := λ kind n, kind +:+ "-" +:+ dec (Z.of_nat n);
  sha256 := λ s, pad 64 (text_sum 0 s);
  clock_valid := demo_clock_valid;
  id_named := λ kind n, demo_id_named kind (dec (Z.of_nat n)) |}.
#[export] Instance registry_unicode : UnicodeChecks :=
  {| utf8_ok := λ _, false; nfc_ok := λ _, false; has_control := λ _, true |}.
#[export] Instance demo_identity : StoreIdentity :=
  {| current_control_store_identity := ControlStoreIdentity 34 (pad 64 1) (pad 64 2) 32 |}.
Definition demo_assets : list registry_command :=
  [RegisterRoot "research" "/data/assets" 1000 true "op" "idempotency-key-1"].
Definition demo_rivals : list registry_command :=
  [UpdateRoot "research" "/data/rival" 10 false 0 "op" "idempotency-key-3";
   RegisterConnector "arxiv" "source" "arxiv-api" "arXiv" None true "op" "idempotency-key-1"].
Definition no_root : asset_root_record := AssetRootRecord "" "" 0 false 0 0 0.
Abbreviation demo_registered := (registry_session demo_assets demo_world).
Abbreviation demo_update := (update_asset_root "research" "/data/moved" 2000 true 0 "op" "idempotency-key-2" demo_registered).
Lemma demo_updates : is_ok demo_update = true.
Proof. vm_compute. reflexivity. Qed.
Lemma demo_no_receipts :
  idempotency_receipts (w_db demo_registered) !! ("op", "INTERNAL:asset-roots/research/update", "idempotency-key-2") = None ∧
  idempotency_receipts (w_db (registry_session demo_rivals (end_world demo_update))) !!
    ("op", "INTERNAL:asset-roots/research/update", "idempotency-key-4") = None.
Proof. split; vm_compute; reflexivity. Qed.
Lemma no_dates cmds : forallb (λ c, match c with RecordHealth _ _ _ => false | _ => true end) cmds = true →
  Forall command_dates cmds.
Proof.
  intros Hc. rewrite forallb_forall in Hc. apply Forall_forall. intros c Hin%list_elem_of_In%Hc. by destruct c.
Qed.
Lemma one_update_per_revision_witness :
  is_ok demo_update = true ∧
  ∀ r' w2, update_asset_root "research" "/data/late" 5 true 0 "op" "idempotency-key-4"
    (registry_session demo_rivals (end_world demo_update)) ≠ Ok r' w2.
Proof.
  split; [exact demo_updates|]. intros r' w2.
  exact (proj2 (proj1 (one_update_per_revision demo_rivals "research" 0 demo_registered (no_dates demo_rivals eq_refl))
    "/data/moved" 2000 true "op" "idempotency-key-2" (answer no_root demo_update) (end_world demo_update)
    (answered no_root demo_update demo_updates) (proj1 demo_no_receipts))
    "/data/late" 5 true "op" "idempotency-key-4" r' w2 (proj2 demo_no_receipts)).
Defined.

Definition demo_manifest : protected_set_manifest :=
  ProtectedSetManifest 1 (ControlStoreSnapshot 34 (pad 64 1) (pad 64 3) 4096 (pad 64 2) 32)
    [ProtectedLogicalSnapshot "xhs" (pad 64 4) 10] [ProtectedAssetRootSnapshot "research" 0 (pad 64 5) 3 99].
Definition demo_digest_text : string :=
  match canonical_protected_set_manifest demo_manifest with inr text => sha256 text | inl _ => "" end.
Definition demo_evening : Z := 63902908000000000.
Definition demo_proof : paired_backup_proof_input :=
  PairedBackupProofInput "proof-1" demo_manifest (BackupCopyProof demo_digest_text demo_evening 2 true)
    (BackupCopyProof demo_digest_text (demo_evening + 1000000) 2 true)
    (RestoreVerification demo_digest_text (demo_evening + 2000000) 1 0 true).
Definition no_proof : paired_backup_proof_record :=
  PairedBackupProofRecord (PairedProof "" "" demo_manifest 0 0 0 0 0 0 0) 0.
Abbreviation demo_filing := (record_paired_backup_proof demo_proof "op" "idempotency-key-5" demo_registered).
Lemma demo_files_proof : is_ok demo_filing = true ∧
  idempotency_receipts (w_db demo_registered) !! ("op", "INTERNAL:backup-proofs/record", "idempotency-key-5") = None ∧
  paired_backup_proofs (w_db demo_registered) !! "proof-1" = None.
Proof. split_and!; vm_compute; reflexivity. Qed.
Lemma backup_proof_covers_and_stays_witness :
  is_ok demo_filing = true ∧
  let w2 := registry_session demo_rivals (end_world demo_filing) in
  get_paired_backup_proof "proof-1" w2 = Ok (answer no_proof demo_filing) w2.
Proof.
  split; [exact (proj1 demo_files_proof)|].
  destruct (backup_proof_covers_and_stays demo_proof "op" "idempotency-key-5" demo_registered
    (answer no_proof demo_filing) (end_world demo_filing) demo_rivals
    (answered no_proof demo_filing (proj1 demo_files_proof)) (proj1 (proj2 demo_files_proof))
    (proj2 (proj2 demo_files_proof))) as (text & _ & _ & _ & _ & _ & Hget).
  exact (Hget (no_dates demo_rivals eq_refl)).
Defined.

Definition demo_seen (id : string) (at_ : Z) (m : metric) : health_input :=
  HealthInput id (HealthSubject "asset_root" "research") "ok" "root.scan" at_ [("reachable", m)].
Definition demo_observing : list registry_command :=
  demo_assets ++ [RecordHealth (demo_seen "seen-b" demo_evening (MBool true)) "op" "idempotency-key-6";
                  RecordHealth (demo_seen "seen-a" (demo_evening + 500000) (MBool true)) "op" "idempotency-key-7"].
Abbreviation demo_observed := (registry_session demo_observing (World empty_db 0 0)).
Lemma demo_observing_dates : Forall command_dates demo_observing.
Proof.
  apply List.Forall_cons; [exact I|]. apply List.Forall_cons; [vm_compute; reflexivity|].
  apply List.Forall_cons; [vm_compute; reflexivity|apply List.Forall_nil].
Qed.
Lemma demo_subject :
  validated_health_subject (HealthSubject "asset_root" "research") demo_observed = Ok tt demo_observed ∧
  subject_exists (HealthSubject "asset_root" "research") (w_db demo_observed) = true.
Proof. split; [exact eq_refl|vm_compute; reflexivity]. Qed.
Lemma latest_observation_is_newest_witness :
  ∃ o, latest_system_health_observation (HealthSubject "asset_root" "research") demo_observed = Ok o demo_observed.
Proof.
  destruct (latest_observation_is_newest demo_observing 0 0 (HealthSubject "asset_root" "research")
    demo_observing_dates (proj1 demo_subject) (proj2 demo_subject)) as (o & Ho & _).
  exists o. exact Ho.
Defined.

Definition demo_once : health_input := demo_seen "seen-b" demo_evening (MBool true).
Definition demo_filed_world : world :=
  on_db (set_health (<["seen-b" := filed demo_once (format_time demo_evening)]>)) demo_world.
Lemma demo_once_good : good_observation demo_once.
Proof. split_and!; [reflexivity|reflexivity|]. intros w. exact eq_refl. Qed.
Lemma demo_numbers_valid :
  validated_system_health_observation (as_numbers demo_once) demo_filed_world =
    Ok tt (World (w_db demo_filed_world) 1 0).
Proof. exact eq_refl. Qed.
Lemma metric_types_confused_witness :
  ∃ w', record_system_health_observation (as_numbers demo_once) "op" "idempotency-key-8" demo_filed_world =
    Ok (HealthRecord demo_once demo_evening) w' ∧ registry_of (w_db w') = registry_of (w_db demo_filed_world).
Proof.
  exact (metric_types_confused demo_once demo_evening "op" "idempotency-key-8" demo_filed_world
    (World (w_db demo_filed_world) 1 0) eq_refl demo_once_good eq_refl eq_refl demo_numbers_valid eq_refl eq_refl).
Defined.
